(* ===== verification/_CoqProject ===== *)
-Q . S2P
Prelude.v
JsString.v
Json.v
OutboundContract.v
Types.v
JsonProofs.v
SafeText.v
JsonIndent.v
Events.v
Central.v
Permissions.v
PermissionsProofs.v
DmGrants.v
DmGrantsProofs.v
AdmissionQueue.v
CircuitBreaker.v
ContainerSlots.v
SessionDb.v
ContainerDb.v
Tasks.v
SessionDbProofs.v
TasksProofs.v
Sessions.v
Destinations.v
Fs.v
ContainerConfig.v
ContainerConfigProofs.v
Attachments.v
SessionManager.v
AgentRoute.v
Classification.v
Host.v
ProgressStatus.v
Roster.v
Delivery.v
DeliveryProofs.v
DeliveryRetry.v
RosterProofs.v
Sha.v
Autowire.v
Approvals.v
FeishuCards.v
ContainerImage.v
SelfMod.v
UnknownSenders.v
Ingress.v
Interactive.v
Router.v
RouterProofs.v
IngressRuns.v
Replay.v
ProxyTokens.v
HostActions.v
SigningProxy.v
SigningProxyProofs.v
SessionArchive.v
ScopeRetention.v
HostSweep.v
HostSweepProofs.v
Formatter.v
FormatterProofs.v
RequestIdentity.v
Runner.v
MessageBlocks.v
PollLoop.v
PollLoopProofs.v
PollTurn.v
PollTurnProofs.v
GroupInit.v
MountSecurity.v
ContainerSpawn.v
ContainerArgsProofs.v
ContainerSpawnProofs.v
SelfModProofs.v
Canonical.v
GatewayTools.v
GatewayToolsProofs.v
McpTools.v
McpToolsProofs.v
