(* ===== verification/Prelude.v ===== *)
(** * A verification of the AgentDesk host

    AgentDesk runs a container per agent conversation.  Users reach an agent
    through chat channels; a host process routes their messages to sessions,
    starts and stops containers, delivers what the agents say, and holds every
    permission.  The host and a container share nothing but two SQLite files
    and a directory per session, so each question of trust in the program is a
    question about what the host does with rows and files that a container
    wrote.  This library models the host's own state and decisions and proves
    what keeps users, organizations and sessions apart.

    ** How the parts interact

    - The central database (v2.db) has users, roles, organizations, agent
      groups, wirings, sessions, destinations, grants and approvals.
    - Each session has an inbound.db, which the host writes, and an
      outbound.db, which its container writes.  The host copies
      acknowledgements back and marks deliveries in inbound.db.
    - A message of a user becomes a row of some session's inbound.db and a
      wake of its container; the wake takes a slot under a global cap or waits
      in the admission queue.
    - A row of outbound.db is either sent to a channel or, when it names
      another agent, routed into that agent's session.
    - A sweep acknowledges, schedules recurring tasks and retries.

    ** The files, in dependency order (paths are under src/src/)

    Foundations.
    - [Prelude]: outcomes and the program monad (a throw keeps the writes made
      before it; [transaction] undoes them), SQL over lists of rows, tactics.
    - [JsString], [Json]: the JavaScript string operations and JSON values the
      code uses, [JSON.parse] as the program depends on it.
    - [Types], [Central]: types.ts and db/schema.ts; one field of [CentralDb]
      per modelled table, and db/enterprise-audit.ts, db/dm-audit.ts,
      db/inbound-ingress.ts, db/dropped-messages.ts.

    Authority.
    - [Permissions], [PermissionsProofs]: modules/permissions (access.ts,
      operability.ts and db/), db/agent-groups.ts, command-gate.ts.  Roles
      confer access inside one organization only; operability never confers
      access; grants and revocations keep the tables well formed.
    - [DmGrants], [DmGrantsProofs]: db/dm-grants.ts.  A roster message is
      charged to the grant and four rate buckets in one transaction: all or
      nothing, once per message, bounded, undone by the rollback.
    - [OutboundContract]: outbound-contract.ts, the decode point of what a
      container wrote: exactly the plain contents are admitted, and the field
      readers never coerce.

    Scheduling of containers.
    - [AdmissionQueue]: admission-queue.ts.  The await in the drain splits it
      into [drainAdmissionSlot] and [wakeSettled], so interleavings are
      sequences of operations.
    - [ContainerSlots]: the bookkeeping of container-runner.ts as a step
      system: wake, spawn, exit, hand-off.  The cap holds in every reachable
      state, and a freed slot goes to a waiting session.
    - [CircuitBreaker]: circuit-breaker.ts, the delay of a crash loop.

    Session databases.
    - [SessionDb], [ContainerDb]: db/session-db.ts and the container's
      container/agent-runner/src/db/messages-in.ts and messages-out.ts.
    - [Tasks]: modules/scheduling/db.ts and recurrence.ts.
    - [SessionDbProofs], [TasksProofs]: numbers name one message, deliveries
      are final, cancelled series stay dead, recurring ones neither die nor
      fork.

    Sessions and files.
    - [Sessions], [Destinations]: db/sessions.ts, db/messaging-groups.ts,
      modules/agent-to-agent/db/agent-destinations.ts.
    - [Fs]: the part of Node's fs the code uses, with symbolic links, because
      the session directory is writable by its container.
    - [Attachments], [AttachmentsProofs]: attachment-safety.ts,
      attachment-naming.ts and the attachment paths of session-manager.ts.
      What is written, read or removed stays in the session, whatever links
      the container planted.
    - [SessionManager], [SessionManagerProofs]: session-manager.ts.  The state
      is [World]: the central database, both databases of every session, and
      the file system.  A per-user message lands in a lane of its user.

    Agents talking to agents.
    - [AgentRoute], [AgentRouteProofs]: modules/agent-to-agent/agent-route.ts
      and origin-user.ts.  The row a source agent writes is arbitrary.  The
      [host_step] system interleaves host writes with arbitrary routed
      messages: every identity found in an inbound.db is one the host took
      from a channel, and no message crosses into another user's lane.

    What leaves the host.
    - [Host]: asynchronous code.  A [Turn] is what one await brings: the
      answer, what the rest of the host did to the databases and files, the
      time.  A theorem about a [hostM] program holds for every sequence of
      turns.
    - [Classification]: db/classification-log.ts, trusted-actor.ts and
      modules/classification-log/index.ts: no actor of a record is made up.
    - [Roster], [RosterProofs]: roster-dm.ts, roster-gateway.ts,
      roster-invite.ts and channels/feishu/roster-consent.ts.  Consent is given
      for oneself only, an invitation stays in the session's own chat.
    - [Delivery], [DeliveryProofs], [DeliveryRetry], [DeliveryRuns]:
      delivery.ts, channels/ask-question.ts and
      modules/progress-status/index.ts.  Every call of the channel adapter in
      a drain is one the session may make; a drain delivers a prefix of its
      rows and stops at the first failure; a roster message goes out under a
      consent that is live.

    ** State, errors and time

    better-sqlite3 is synchronous, so a statement is a function of the
    database, and concurrency is the order of whole operations; where the code
    awaits, an operation is split, or is a program of [Host].  A violated constraint is a [Throw].  A
    column the program fills with [toISOString] is a number of milliseconds
    (the two orders agree); a column whose text is compared as text in one
    place and through [datetime()] in another is a [stext], which keeps the
    format.  Clock readings and generated ids are arguments of the operation.

    ** Parameters

    Code that is not in the repository is an argument: [cron_next] for
    cron-parser, [sqlite_datetime] for SQLite's reading of a text a container
    chose, the environment variables, the per-group settings that
    container-config.ts reads, the registered delivery actions, the answers of
    the channel adapter and of the gateway (in [Turn]), and, in
    [ContainerSlots], how a spawn ends.

    ** Fuel

    - The link walk of [Fs] follows at most 40 links, as the kernel does, and
      then fails, so its bound is the behaviour and not an approximation.
    - [drainLoop] takes the length of the queue as fuel: each turn removes an
      entry ([drain_fair_and_work_conserving] is about the whole drain).
    - [Json.parse] takes fuel from the length of the text, which each
      recursive call shortens.
    - [pick_name] of [Destinations] tries one name more than there are
      destinations, of which one must be free.
    - The crash loop and the recurrence sweep are structural.

    ** Not modelled

    Chat adapters, the docker command line, mounts and images, the web server,
    metrics and logs are I/O.  The migrations are left out: the model has the
    schema they end in.  The host is taken to be the only writer of the
    central database and of every inbound.db, and a container is taken to be
    still during one call of a function that walks its files.

    ** What follows

    In this order: the router (router.ts) with the ingress gate and the
    approvals of unknown senders, the host sweep (host-sweep.ts), the
    container configuration (container-config.ts), the delivery actions
    (scheduling, agent creation, self modification, approvals, questions),
    mount security, and the container's request identity and poll loop. *)
From stdpp Require Export base tactics list gmap strings sorting relations.
From Stdlib Require Export ZArith Lia.

#[global] Set Default Proof Using "Type".
#[global] Set Warnings "-clear-no-such-hyp".

(** ** Outcomes and the program monad *)

(** What a JavaScript call does: it returns, or it throws. *)
Inductive outcome (E A : Type) : Type :=
| Ok (a : A)
| Throw (e : E).
Arguments Ok {E A} a.
Arguments Throw {E A} e.

(** A program over a mutable state [S]: the state changes made before a throw
    stay, as they do in the source. *)
Definition prog (S E A : Type) : Type := S → outcome E A * S.

Definition ret {S E A} (a : A) : prog S E A := λ s, (Ok a, s).
Definition throw {S E A} (e : E) : prog S E A := λ s, (Throw e, s).
Definition bind {S E A B} (m : prog S E A) (k : A → prog S E B) : prog S E B :=
  λ s, match m s with
       | (Ok a, s') => k a s'
       | (Throw e, s') => (Throw e, s')
       end.
Definition gets {S E A} (f : S → A) : prog S E A := λ s, (Ok (f s), s).
Definition modify {S E} (f : S → S) : prog S E unit := λ s, (Ok tt, f s).

Lemma bind_case {S E A B} (m : prog S E A) (k : A → prog S E B) s :
  bind m k s = match m s with (Ok a, s') => k a s' | (Throw e, s') => (Throw e, s') end.
Proof. done. Qed.
Lemma bind_ret {S E A B} (a : A) (k : A → prog S E B) s : bind (ret a) k s = k a s.
Proof. done. Qed.
Lemma bind_ok {S E A B} (m : prog S E A) (k : A → prog S E B) s a s' :
  m s = (Ok a, s') → bind m k s = k a s'.
Proof. unfold bind. by intros ->. Qed.
Lemma bind_gets {S E A B} (f : S → A) (k : A → prog S E B) s : bind (gets f) k s = k (f s) s.
Proof. done. Qed.
Lemma bind_modify {S E B} (f : S → S) (k : unit → prog S E B) s :
  bind (modify f) k s = k tt (f s).
Proof. done. Qed.

(** [try { m } catch (e) { h e }] *)
Definition try_catch {S E A} (m : prog S E A) (h : E → prog S E A) : prog S E A :=
  λ s, match m s with
       | (Ok a, s') => (Ok a, s')
       | (Throw e, s') => h e s'
       end.

(** A better-sqlite3 transaction: a throw restores the state at its start. *)
Definition transaction {S E A} (m : prog S E A) : prog S E A :=
  λ s, match m s with
       | (Ok a, s') => (Ok a, s')
       | (Throw e, _) => (Throw e, s)
       end.

(** [for (const x of l) body x] *)
Fixpoint for_each {S E A} (l : list A) (body : A → prog S E unit) : prog S E unit :=
  match l with
  | [] => ret tt
  | x :: l' => bind (body x) (λ _, for_each l' body)
  end.

Declare Scope prog_scope.
Delimit Scope prog_scope with prog.
Notation "'let*' x := m 'in' k" := (bind m (λ x, k))
  (at level 10, x pattern, m at level 200, k at level 200,
   format "'[v' 'let*'  x  :=  m  'in' '//' k ']'") : prog_scope.
Notation "m ;; k" := (bind m (λ _, k))
  (at level 100, right associativity) : prog_scope.
Open Scope prog_scope.

(** [for_each] over a longer, a mapped or an extensionally equal traversal. *)
Lemma for_each_app {S E A} (l1 l2 : list A) (body : A → prog S E unit) s :
  for_each (l1 ++ l2) body s = bind (for_each l1 body) (λ _, for_each l2 body) s.
Proof.
  revert s. induction l1 as [|x l1 IH]; intros s; simpl; [done|].
  unfold bind in *. destruct (body x s) as [[[]|e] s1]; [apply IH|done].
Qed.
Lemma for_each_map {S E A B} (f : A → B) (l : list A) (body : B → prog S E unit) s :
  for_each (map f l) body s = for_each l (λ x, body (f x)) s.
Proof.
  revert s. induction l as [|x l IH]; intros s; simpl; [done|].
  unfold bind. destruct (body (f x) s) as [[[]|e] s1]; [apply IH|done].
Qed.
Lemma for_each_ext {S E A} (l : list A) (b1 b2 : A → prog S E unit) s :
  (∀ x s, x ∈ l → b1 x s = b2 x s) → for_each l b1 s = for_each l b2 s.
Proof.
  revert s. induction l as [|x l IH]; intros s H; simpl; [done|].
  unfold bind. rewrite (H x s) by left.
  destruct (b2 x s) as [[[]|e] s1]; [|done]. apply IH. intros y s' Hy. apply H. by right.
Qed.

Lemma bind_ext {S E A B} (m m' : prog S E A) (k k' : A → prog S E B) s :
  m s = m' s → (∀ a s', k a s' = k' a s') → bind m k s = bind m' k' s.
Proof. unfold bind. intros -> H. destruct (m' s) as [[a|e] s1]; auto. Qed.

Lemma bind_assoc {S E A B C} (m : prog S E A) (k : A → prog S E B) (h : B → prog S E C) s :
  bind m (λ a, bind (k a) h) s = bind (bind m k) h s.
Proof. unfold bind. by destruct (m s) as [[a|e] s1]. Qed.

Section prog_laws.
Context {S E A : Type}.

Lemma bind_ok_inv {B} (m : prog S E A) (k : A → prog S E B) s b s' :
    bind m k s = (Ok b, s') →
    ∃ a s1, m s = (Ok a, s1) ∧ k a s1 = (Ok b, s').
  Proof. unfold bind. destruct (m s) as [[a|e] s1]; intros H; [eauto|done]. Qed.

Lemma bind_throw_inv {B} (m : prog S E A) (k : A → prog S E B) s e s' :
    bind m k s = (Throw e, s') →
    m s = (Throw e, s') ∨ ∃ a s1, m s = (Ok a, s1) ∧ k a s1 = (Throw e, s').
  Proof.
    unfold bind. destruct (m s) as [[a|e'] s1]; intros H; [eauto|left; congruence].
  Qed.
End prog_laws.

(** [preserves P m]: every run of [m], returning or throwing, keeps [P]. *)
Definition preserves {S E A} (P : S → Prop) (m : prog S E A) : Prop :=
  ∀ s, P s → P (m s).2.

Create HintDb prog.

Section preserves.
Context {S E : Type} (P : S → Prop).

Lemma preserves_ret {A} (a : A) : preserves P (ret (E:=E) a).
  Proof. by intros s. Qed.
Lemma preserves_throw {A} (e : E) : preserves P (throw (A:=A) e).
  Proof. by intros s. Qed.
Lemma preserves_gets {A} (f : S → A) : preserves P (gets (E:=E) f).
  Proof. by intros s. Qed.
Lemma preserves_modify (f : S → S) :
    (∀ s, P s → P (f s)) → preserves P (modify (E:=E) f).
  Proof. by intros H s Hs; apply H. Qed.
Lemma preserves_bind {A B} (m : prog S E A) (k : A → prog S E B) :
    preserves P m → (∀ a, preserves P (k a)) → preserves P (bind m k).
  Proof.
    intros Hm Hk s Hs. unfold bind. specialize (Hm s Hs).
    destruct (m s) as [[a|e] s1]; simpl in *; [by apply Hk|done].
  Qed.
Lemma preserves_try {A} (m : prog S E A) (h : E → prog S E A) :
    preserves P m → (∀ e, preserves P (h e)) → preserves P (try_catch m h).
  Proof.
    intros Hm Hh s Hs. unfold try_catch. specialize (Hm s Hs).
    destruct (m s) as [[a|e] s1]; simpl in *; [done|by apply Hh].
  Qed.
Lemma preserves_transaction {A} (m : prog S E A) :
    preserves P m → preserves P (transaction m).
  Proof.
    intros Hm s Hs. unfold transaction. specialize (Hm s Hs).
    destruct (m s) as [[a|e] s1]; simpl in *; done.
  Qed.
Lemma preserves_for_each {A} (l : list A) (body : A → prog S E unit) :
    (∀ x, x ∈ l → preserves P (body x)) → preserves P (for_each l body).
  Proof.
    induction l as [|x l IH]; intros Hb; simpl; [apply preserves_ret|].
    apply preserves_bind; [apply Hb; left|].
    intros _. apply IH. intros y Hy. apply Hb. by right.
  Qed.
End preserves.
#[export] Hint Resolve preserves_ret preserves_throw preserves_gets
  preserves_modify preserves_bind preserves_try preserves_transaction
  preserves_for_each : prog.

(** A property kept by every step holds of every reachable state. *)
Lemma rtc_invariant {A} (R : relation A) (I : A → Prop) :
  (∀ x y, R x y → I x → I y) → ∀ x y, rtc R x y → I x → I y.
Proof. intros Hstep x y Hr. induction Hr; eauto. Qed.

(** ** JavaScript values *)

(** Truthiness of a [string | null | undefined]. *)
Definition truthy (o : option string) : bool :=
  match o with
  | Some s => negb (bool_decide (s = ""%string))
  | None => false
  end.

(** [a || b] on strings that may be null. *)
Definition js_or (a b : option string) : option string :=
  if truthy a then a else b.

Lemma truthy_Some o : truthy o = true ↔ ∃ s, o = Some s ∧ s ≠ ""%string.
Proof.
  destruct o as [s|]; simpl; [|naive_solver].
  rewrite negb_true_iff, bool_decide_eq_false. naive_solver.
Qed.

(** SQL [a = b] in a WHERE clause: NULL never matches. *)
Definition sql_eq (a b : option string) : bool :=
  match a, b with
  | Some x, Some y => bool_decide (x = y)
  | _, _ => false
  end.

(** SQL [a IS b]: NULL matches NULL. *)
Definition sql_is (a b : option string) : bool := bool_decide (a = b).

Lemma sql_eq_true a b : sql_eq a b = true ↔ ∃ x, a = Some x ∧ b = Some x.
Proof.
  destruct a as [x|], b as [y|]; simpl; try naive_solver.
  rewrite bool_decide_eq_true. naive_solver.
Qed.
Lemma sql_is_true a b : sql_is a b = true ↔ a = b.
Proof. apply bool_decide_eq_true. Qed.

(** ** SQL tables as lists of rows in scan order *)

Section tables.
Context {R : Type}.
Implicit Types (p : R → bool) (t : list R).

Definition sql_where p t : list R := List.filter p t.
Definition sql_first p t : option R := List.find p t.
Definition sql_exists p t : bool := List.existsb p t.
Definition sql_update p (f : R → R) t : list R :=
    map (λ r, if p r then f r else r) t.
Definition sql_changes p t : nat := length (List.filter p t).
Definition sql_delete p t : list R := List.filter (λ r, negb (p r)) t.

  (** [ORDER BY] as a stable insertion sort: [before a b] when [a] must come
      before [b]; ties stay in scan order. *)
Fixpoint sql_insert_by (before : R → R → bool) (r : R) t : list R :=
    match t with
    | [] => [r]
    | x :: t' => if before r x then r :: t else x :: sql_insert_by before r t'
    end.
Definition sql_order_by (before : R → R → bool) t : list R :=
    fold_left (λ acc r, sql_insert_by before r acc) t [].
  (** [ORDER BY ... LIMIT 1] *)
Definition sql_first_by (before : R → R → bool) t : option R :=
    head (sql_order_by before t).

Lemma elem_of_sql_where p t r : r ∈ sql_where p t ↔ r ∈ t ∧ p r = true.
  Proof. unfold sql_where. rewrite !list_elem_of_In, filter_In. done. Qed.
Lemma elem_of_sql_delete p t r : r ∈ sql_delete p t ↔ r ∈ t ∧ p r = false.
  Proof.
    unfold sql_delete. rewrite !list_elem_of_In, filter_In, negb_true_iff. done.
  Qed.
Lemma elem_of_sql_update p f t r :
    r ∈ sql_update p f t ↔ ∃ r0, r0 ∈ t ∧ r = (if p r0 then f r0 else r0).
  Proof.
    unfold sql_update. rewrite list_elem_of_In, in_map_iff.
    setoid_rewrite list_elem_of_In. naive_solver.
  Qed.
Lemma sql_first_Some p t r : sql_first p t = Some r → r ∈ t ∧ p r = true.
  Proof. unfold sql_first. intros H%find_some. by rewrite list_elem_of_In. Qed.
Lemma sql_first_None p t r : sql_first p t = None → r ∈ t → p r = false.
  Proof. unfold sql_first. intros H Hr%list_elem_of_In. by eapply find_none. Qed.
Lemma sql_first_app p t r :
  sql_first p (t ++ [r]) =
  match sql_first p t with Some x => Some x | None => if p r then Some r else None end.
Proof. unfold sql_first. induction t as [|x t IH]; simpl; [done|]. by destruct (p x). Qed.
Lemma sql_first_update p q f t :
  (∀ r, p (f r) = p r) →
  sql_first p (sql_update q f t) = option_map (λ r, if q r then f r else r) (sql_first p t).
Proof.
  intros Hf. unfold sql_first, sql_update. induction t as [|x t IH]; simpl; [done|].
  destruct (q x) eqn:Hq; rewrite ?Hf; destruct (p x); simpl; rewrite ?Hq; done.
Qed.
Lemma sql_first_delete p q t :
  (∀ r, p r = true → q r = false) → sql_first p (sql_delete q t) = sql_first p t.
Proof.
  intros Hq. unfold sql_first, sql_delete. induction t as [|x t IH]; simpl; [done|].
  destruct (p x) eqn:Hp; [rewrite Hq by done; simpl; by rewrite Hp|].
  destruct (q x); simpl; [done|]. by rewrite Hp.
Qed.
Lemma sql_first_deleted p t : sql_first p (sql_delete p t) = None.
Proof.
  unfold sql_first, sql_delete. induction t as [|x t IH]; simpl; [done|].
  destruct (p x) eqn:Hp; simpl; [done|]. by rewrite Hp.
Qed.
Lemma sql_exists_first p t : sql_exists p t = match sql_first p t with Some _ => true | None => false end.
Proof.
  unfold sql_exists, sql_first. induction t as [|x t IH]; simpl; [done|]. by destruct (p x).
Qed.
Lemma sql_exists_true p t : sql_exists p t = true ↔ ∃ r, r ∈ t ∧ p r = true.
  Proof.
    unfold sql_exists. rewrite existsb_exists. by setoid_rewrite list_elem_of_In.
  Qed.
Lemma sql_exists_false p t : sql_exists p t = false ↔ ∀ r, r ∈ t → p r = false.
  Proof.
    rewrite <-not_true_iff_false, sql_exists_true. split.
    - intros H r Hr. apply not_true_iff_false. naive_solver.
    - intros H (r & Hr & Hp). rewrite H in Hp; done.
  Qed.
Lemma sql_changes_zero p t : sql_changes p t = 0 ↔ ∀ r, r ∈ t → p r = false.
  Proof.
    unfold sql_changes. rewrite length_zero_iff_nil. split.
    - intros H r Hr. apply not_true_iff_false. intros Hp.
      assert (Hin : r ∈ sql_where p t) by (by apply elem_of_sql_where).
      unfold sql_where in Hin. rewrite H in Hin. by apply not_elem_of_nil in Hin.
    - intros H. destruct (List.filter p t) as [|r l] eqn:E; [done|].
      assert (Hin : r ∈ sql_where p t) by (unfold sql_where; rewrite E; left).
      apply elem_of_sql_where in Hin as [Hr Hp]. rewrite H in Hp; done.
  Qed.
Lemma sql_update_id p f t :
    (∀ r, r ∈ t → p r = true → f r = r) → sql_update p f t = t.
  Proof.
    unfold sql_update. induction t as [|x t IH]; intros H; simpl; [done|]. f_equal.
    - destruct (p x) eqn:Hp; [apply H; [left|done]|done].
    - apply IH. intros r Hr. apply H. by right.
  Qed.
Lemma length_sql_update p f t : length (sql_update p f t) = length t.
  Proof. apply length_map. Qed.

Lemma elem_of_sql_insert_by before x t r :
    r ∈ sql_insert_by before x t ↔ r = x ∨ r ∈ t.
  Proof. induction t as [|y t IH]; simpl; [set_solver|]. case_match; set_solver. Qed.
Lemma elem_of_sql_order_by before t r : r ∈ sql_order_by before t ↔ r ∈ t.
  Proof.
    unfold sql_order_by. cut (∀ acc, r ∈ fold_left
      (λ acc r, sql_insert_by before r acc) t acc ↔ r ∈ acc ∨ r ∈ t).
    { intros H. rewrite H. set_solver. }
    induction t as [|y t IH]; intros acc; simpl; [set_solver|].
    rewrite IH, elem_of_sql_insert_by. set_solver.
  Qed.
Lemma sql_first_by_Some before t r : sql_first_by before t = Some r → r ∈ t.
  Proof.
    unfold sql_first_by. intros H%head_Some_elem_of. by apply elem_of_sql_order_by in H.
  Qed.
Lemma sql_first_by_None before t : sql_first_by before t = None → t = [].
  Proof.
    unfold sql_first_by. destruct t as [|x t]; [done|]. intros H%head_None.
    assert (x ∈ sql_order_by before (x :: t)) as Hx
      by (apply elem_of_sql_order_by; left).
    rewrite H in Hx. by apply not_elem_of_nil in Hx.
  Qed.
End tables.

(** A table whose rows have distinct keys. *)
Definition keys_unique {R K} (key : R → K) (t : list R) : Prop := NoDup (map key t).

Section keys.
Context {R K : Type} (key : R → K).
Implicit Types (t : list R).

Lemma keys_unique_eq t r1 r2 :
    keys_unique key t → r1 ∈ t → r2 ∈ t → key r1 = key r2 → r1 = r2.
  Proof.
    unfold keys_unique. induction t as [|x t IH]; simpl; [set_solver|].
    intros [Hx Hnd]%NoDup_cons H1 H2 Hk.
    assert (∀ r, r ∈ t → key r ≠ key x) as Hne.
    { intros r Hr He. apply Hx. rewrite <-He. by apply list_elem_of_fmap_2. }
    apply elem_of_cons in H1 as [->|H1]; apply elem_of_cons in H2 as [->|H2]; [done|..].
    - by destruct (Hne r2 H2).
    - by destruct (Hne r1 H1).
    - by apply IH.
  Qed.
Lemma keys_unique_delete p t : keys_unique key t → keys_unique key (sql_delete p t).
  Proof.
    unfold keys_unique, sql_delete. induction t as [|x t IH]; simpl; [done|].
    intros [Hx Hnd]%NoDup_cons. case_match; simpl; [|by apply IH].
    apply NoDup_cons. split; [|by apply IH].
    intros [r [He Hr]]%list_elem_of_fmap. apply Hx. rewrite He.
    apply list_elem_of_fmap_2. by apply elem_of_sql_delete in Hr as [? _].
  Qed.
Lemma keys_unique_update p f t :
    (∀ r, key (f r) = key r) → keys_unique key t → keys_unique key (sql_update p f t).
  Proof.
    unfold keys_unique, sql_update. intros Hf H. rewrite map_map.
    erewrite map_ext; [exact H|]. intros r. by case_match.
  Qed.
Lemma keys_unique_insert t r :
    keys_unique key t → (∀ r', r' ∈ t → key r' ≠ key r) → keys_unique key (t ++ [r]).
  Proof.
    unfold keys_unique. intros H Hr. rewrite map_app. simpl.
    apply NoDup_app. split; [done|]. split; [|apply NoDup_singleton].
    intros k [r' [-> Hr']]%list_elem_of_fmap Hk%list_elem_of_singleton. by eapply Hr.
  Qed.
End keys.

(** ** Tactics *)

(** Split every [if] and [match] of the goal or a hypothesis on a bool or an
    option, and close the branches the equations refute. *)
Ltac split_match :=
  repeat (case_match; simplify_eq/=; try done).

(** Turn the boolean guards in the context into propositions. *)
Ltac to_prop :=
  repeat match goal with
  | H : andb _ _ = true |- _ => apply andb_true_iff in H as [? ?]
  | H : orb _ _ = false |- _ => apply orb_false_iff in H as [? ?]
  | H : negb _ = true |- _ => apply negb_true_iff in H
  | H : negb _ = false |- _ => apply negb_false_iff in H
  | H : bool_decide _ = true |- _ => apply bool_decide_eq_true in H
  | H : bool_decide _ = false |- _ => apply bool_decide_eq_false in H
  | H : sql_eq _ _ = true |- _ => apply sql_eq_true in H as (? & ? & ?)
  | H : sql_is _ _ = true |- _ => apply sql_is_true in H
  | H : sql_exists _ _ = true |- _ => apply sql_exists_true in H as (? & ? & ?)
  end.

(** Evaluate the [bool_decide]s of the goal that [done] settles. *)
Ltac decide_consts :=
  unfold sql_is;
  repeat match goal with
  | |- context [bool_decide ?P] =>
      first [rewrite (bool_decide_eq_true_2 P) by done
            |rewrite (bool_decide_eq_false_2 P) by done]
  end; cbn [andb orb negb].

(** Case analysis on the first [if] of the goal. *)
Ltac destruct_if :=
  match goal with |- context [if ?b then _ else _] => destruct b eqn:? end.
