(* ===== verification/JsString.v ===== *)
(** * The JavaScript string operations the program uses

    A JavaScript string is the [string] of its UTF-8 bytes.  Case mapping
    covers ASCII: every string the program compares a lower-cased value with is
    ASCII, and no non-ASCII letter maps to one of the letters those strings
    have (the Kelvin sign maps to [k], and only [k]). *)
From S2P Require Import Prelude.
From Stdlib Require Import Ascii.

Local Open Scope char_scope.
Local Open Scope nat_scope.
Local Open Scope list_scope.

Definition byte_lower (c : ascii) : ascii :=
  let n := nat_of_ascii c in
  if (65 <=? n) && (n <=? 90) then ascii_of_nat (n + 32) else c.

Fixpoint toLowerCase (s : string) : string :=
  match s with
  | String.EmptyString => String.EmptyString
  | String.String c s' => String (byte_lower c) (toLowerCase s')
  end.

(** The UTF-8 forms of the characters [trim] and [\s] know as white space. *)
Definition ws_chars : list (list nat) :=
  [[9]; [10]; [11]; [12]; [13]; [32]; [194; 160]; [225; 154; 128];
   [226; 128; 128]; [226; 128; 129]; [226; 128; 130]; [226; 128; 131];
   [226; 128; 132]; [226; 128; 133]; [226; 128; 134]; [226; 128; 135];
   [226; 128; 136]; [226; 128; 137]; [226; 128; 138]; [226; 128; 168];
   [226; 128; 169]; [226; 128; 175]; [226; 129; 159]; [227; 128; 128];
   [239; 187; 191]].

(** [strip_bytes p l]: what follows the prefix [p] of [l]. *)
Fixpoint strip_bytes (p : list nat) (l : list ascii) : option (list ascii) :=
  match p, l with
  | [], _ => Some l
  | n :: p', c :: l' => if nat_of_ascii c =? n then strip_bytes p' l' else None
  | _ :: _, [] => None
  end.

Fixpoint strip_any (ps : list (list nat)) (l : list ascii) : option (list ascii) :=
  match ps with
  | [] => None
  | p :: ps' => match strip_bytes p l with Some r => Some r | None => strip_any ps' l end
  end.

(** Drop leading white space; [n] bounds the characters dropped. *)
Fixpoint drop_ws (ps : list (list nat)) (n : nat) (l : list ascii) : list ascii :=
  match n with
  | O => l
  | S n' => match strip_any ps l with Some r => drop_ws ps n' r | None => l end
  end.

Definition trim (s : string) : string :=
  let l := String.list_ascii_of_string s in
  let l1 := drop_ws ws_chars (length l) l in
  let l2 := drop_ws (map (@rev nat) ws_chars) (length l1) (rev l1) in
  String.string_of_list_ascii (rev l2).

(** [s.split(/\s/)[0]] *)
Fixpoint first_word_bytes (l : list ascii) : list ascii :=
  match l with
  | [] => []
  | c :: l' => match strip_any ws_chars l with
               | Some _ => []
               | None => c :: first_word_bytes l'
               end
  end.
Definition first_word (s : string) : string :=
  String.string_of_list_ascii (first_word_bytes (String.list_ascii_of_string s)).

Definition startsWith (s p : string) : bool := String.prefix p s.

Fixpoint includes (s p : string) : bool :=
  String.prefix p s || match s with String.EmptyString => false | String _ s' => includes s' p end.

(** [s.split(sep)] on a one-byte separator. *)
Fixpoint split_on (sep : ascii) (s : string) : list string :=
  match s with
  | String.EmptyString => [String.EmptyString]
  | String.String c s' =>
      if Ascii.eqb c sep then String.EmptyString :: split_on sep s'
      else match split_on sep s' with
           | [] => [String.String c String.EmptyString]
           | w :: ws => String.String c w :: ws
           end
  end.

(** [s.indexOf(ch)] and [s.slice(i)] on a one-byte needle. *)
Fixpoint index_of (ch : ascii) (s : string) : option nat :=
  match s with
  | String.EmptyString => None
  | String.String c s' => if Ascii.eqb c ch then Some 0 else option_map S (index_of ch s')
  end.

Definition drop_string (n : nat) (s : string) : string :=
  String.substring n (String.length s - n) s.
Definition take_string (n : nat) (s : string) : string := String.substring 0 n s.

(** A decimal integer, as the source prints and reads one. *)
Definition digit (c : ascii) : option Z :=
  let n := nat_of_ascii c in
  if (48 <=? n) && (n <=? 57) then Some (Z.of_nat (n - 48)) else None.
Fixpoint digits_acc (acc : Z) (s : string) : option Z :=
  match s with
  | String.EmptyString => Some acc
  | String.String c s' => match digit c with
                   | Some d => digits_acc (acc * 10 + d)%Z s'
                   | None => None
                   end
  end.
(** [/^\d+$/] and its value. *)
Definition parse_digits (s : string) : option Z :=
  match s with String.EmptyString => None | _ => digits_acc 0 s end.

(** [parseInt(s, 10)]: the leading integer of [s], white space skipped. *)
Fixpoint leading_digits (s : string) : string :=
  match s with
  | String.String c s' => if digit c is Some _ then String.String c (leading_digits s')
                   else String.EmptyString
  | String.EmptyString => String.EmptyString
  end.
Definition parseInt (s : string) : option Z :=
  match trim s with
  | String.String c s' =>
      if Ascii.eqb c "-" then option_map Z.opp (parse_digits (leading_digits s'))
      else if Ascii.eqb c "+" then parse_digits (leading_digits s')
      else parse_digits (leading_digits (String.String c s'))
  | String.EmptyString => None
  end.

Example parseInt_ex : parseInt " 12px" = Some 12%Z ∧ parseInt "-3" = Some (-3)%Z ∧ parseInt "x" = None.
Proof. repeat split. Qed.
Example trim_ex : trim "  /Clear	 " = "/Clear"%string.
Proof. reflexivity. Qed.
Example first_word_ex : first_word "/clear now" = "/clear"%string.
Proof. reflexivity. Qed.
Example split_on_ex : split_on ":" "a:bc" = ["a"; "bc"]%string.
Proof. reflexivity. Qed.

(** [s.length]: the UTF-16 code units of a text kept in UTF-8. *)
Fixpoint js_length (s : string) : Z :=
  match s with
  | EmptyString => 0%Z
  | String c s' =>
      let b := Z.of_nat (nat_of_ascii c) in
      ((if (128 <=? b)%Z && (b <? 192)%Z then 0 else if (240 <=? b)%Z then 2 else 1) + js_length s')%Z
  end.

(** [s.slice(0, n)], counted in UTF-16 units.  A cut inside a surrogate pair
    leaves a lone surrogate, which is written to a database as U+FFFD. *)
Fixpoint js_slice (n : Z) (s : string) : string :=
  match s with
  | EmptyString => EmptyString
  | String c s' =>
      let b := Z.of_nat (nat_of_ascii c) in
      if (128 <=? b)%Z && (b <? 192)%Z then String c (js_slice n s')
      else if (n <=? 0)%Z then EmptyString
      else if (240 <=? b)%Z then
        if (n =? 1)%Z then
          String (ascii_of_nat 239) (String (ascii_of_nat 191) (String (ascii_of_nat 189) EmptyString))
        else String c (js_slice (n - 2) s')
      else String c (js_slice (n - 1) s')
  end.

Lemma js_length_pos s : (0 <= js_length s)%Z.
Proof. induction s as [|c s IH]; simpl; [done|]. repeat case_match; lia. Qed.
Lemma js_slice_short s n : (js_length s <= n)%Z → js_slice n s = s.
Proof.
  revert n. induction s as [|c s IH]; intros n Hn; simpl in *; [done|].
  pose proof (js_length_pos s). repeat case_match; try lia; f_equal; apply IH; lia.
Qed.

Lemma startsWith_app p s : startsWith (p +:+ s) p = true.
Proof.
  unfold startsWith. induction p as [|c p IH]; simpl; [by destruct s|].
  by destruct (Ascii.ascii_dec c c).
Qed.
Lemma startsWith_inv p s : startsWith s p = true → ∃ t, s = p +:+ t.
Proof.
  unfold startsWith. revert s. induction p as [|c p IH]; intros s; simpl; [intros _; by exists s|].
  destruct s as [|d s]; simpl; [done|]. destruct (Ascii.ascii_dec c d) as [->|]; [|done].
  intros [t ->]%IH. by exists t.
Qed.

(** Appending. *)
Lemma sapp_cons c (s t : string) : String c s +:+ t = String c (s +:+ t).
Proof. done. Qed.
Lemma sapp_nil (t : string) : EmptyString +:+ t = t.
Proof. done. Qed.
Lemma sapp_assoc (a b c : string) : (a +:+ b) +:+ c = a +:+ (b +:+ c).
Proof. induction a as [|d a IH]; [done|]. by rewrite !sapp_cons, IH. Qed.
Lemma sapp_nil_r (a : string) : a +:+ EmptyString = a.
Proof. induction a as [|d a IH]; [done|]. by rewrite sapp_cons, IH. Qed.
