(* ===== verification/Json.v ===== *)
(** * JSON values, [JSON.parse] and [JSON.stringify]

    Message content is a JSON string in the databases, and the program decides
    on what it finds in it.  Integers are [JNum]; any other number literal is
    kept as text, since no code looks into one.  An object is its entries in
    order.  (A key that spells an array index keeps its place here; JavaScript
    would move it to the front.) *)
From S2P Require Import Prelude JsString.
From stdpp Require Import pretty.
From Stdlib Require Import Ascii.

Local Open Scope Z_scope.
Local Open Scope list_scope.

Inductive json :=
| JNull
| JBool (b : bool)
| JNum (n : Z)
| JFrac (lit : string)
| JStr (s : string)
| JArr (l : list json)
| JObj (l : list (string * json)).

(** [o.k] on an object: [None] is [undefined]. *)
Fixpoint obj_get (k : string) (l : list (string * json)) : option json :=
  match l with
  | [] => None
  | (k', v) :: l' => match obj_get k l' with
                     | Some w => Some w
                     | None => if bool_decide (k = k') then Some v else None
                     end
  end.

(** [o.k = v] *)
Fixpoint obj_set (k : string) (v : json) (l : list (string * json)) : list (string * json) :=
  match l with
  | [] => [(k, v)]
  | (k', w) :: l' => if bool_decide (k = k') then (k', v) :: l' else (k', w) :: obj_set k v l'
  end.

(** The object JavaScript builds from the entries of a literal: a repeated key
    keeps its first place and its last value. *)
Fixpoint norm (j : json) : json :=
  match j with
  | JArr l => JArr (map norm l)
  | JObj l => JObj (fold_left (λ acc kv, obj_set kv.1 (norm kv.2) acc) l [])
  | _ => j
  end.

(** Property access on a parsed value: it throws on [null], and is [undefined]
    on the other values that are not objects. *)
Inductive access := AThrow | AValue (v : option json).
Definition jget (k : string) (j : json) : access :=
  match j with
  | JNull => AThrow
  | JObj l => AValue (obj_get k l)
  | _ => AValue None
  end.

(** Truthiness and [typeof] of a value that may be [undefined]. *)
Definition jtruthy (v : option json) : bool :=
  match v with
  | None | Some JNull | Some (JBool false) => false
  | Some (JNum n) => negb (n =? 0)
  | Some (JStr s) => negb (bool_decide (s = ""%string))
  | _ => true
  end.
Definition jstring (v : option json) : option string :=
  match v with Some (JStr s) => Some s | _ => None end.

(** [s ?? null], and a property that is left out when it is [undefined]. *)
Definition jopt (o : option string) : json := match o with Some s => JStr s | None => JNull end.
Definition jfield (k : string) (o : option string) : list (string * json) :=
  match o with Some s => [(k, JStr s)] | None => [] end.

(** ** Parsing, over byte codes *)

Definition chars := list Z.
Definition codes (s : string) : chars :=
  map (λ c, Z.of_nat (nat_of_ascii c)) (String.list_ascii_of_string s).
Definition of_codes (l : chars) : string :=
  String.string_of_list_ascii (map (λ n, ascii_of_nat (Z.to_nat n)) l).

Fixpoint skip_ws (l : chars) : chars :=
  match l with
  | (32 | 9 | 10 | 13) :: l' => skip_ws l'
  | _ => l
  end.

Definition hex_digit (n : Z) : option Z :=
  if (48 <=? n) && (n <=? 57) then Some (n - 48)
  else if (97 <=? n) && (n <=? 102) then Some (n - 87)
  else if (65 <=? n) && (n <=? 70) then Some (n - 55)
  else None.

Definition hex4 (a b c d : Z) : option Z :=
  match hex_digit a, hex_digit b, hex_digit c, hex_digit d with
  | Some a, Some b, Some c, Some d => Some (((a * 16 + b) * 16 + c) * 16 + d)
  | _, _, _, _ => None
  end.

(** The UTF-8 bytes of a code point. *)
Definition utf8 (n : Z) : chars :=
  if n <? 128 then [n]
  else if n <? 2048 then [192 + n / 64; 128 + n mod 64]
  else if n <? 65536 then [224 + n / 4096; 128 + n / 64 mod 64; 128 + n mod 64]
  else [240 + n / 262144; 128 + n / 4096 mod 64; 128 + n / 64 mod 64; 128 + n mod 64].

(** The character an escape letter stands for. *)
Definition unescape (c : Z) : option Z :=
  match c with
  | 34 => Some 34 | 92 => Some 92 | 47 => Some 47 | 98 => Some 8
  | 102 => Some 12 | 110 => Some 10 | 114 => Some 13 | 116 => Some 9
  | _ => None
  end.

(** The rest of a string literal after its opening quote, [acc] reversed. *)
Fixpoint parse_str (fuel : nat) (l acc : chars) : option (string * chars) :=
  match fuel with
  | O => None
  | S fuel =>
      match l with
      | [] => None
      | 34 :: l' => Some (of_codes (rev acc), l')
      | 92 :: 117 :: a :: b :: c :: d :: l' =>
          match hex4 a b c d with
          | None => None
          | Some hi =>
              match l' with
              | 92 :: 117 :: a' :: b' :: c' :: d' :: l'' =>
                  match hex4 a' b' c' d' with
                  | None => None
                  | Some lo =>
                      if (55296 <=? hi) && (hi <=? 56319) && (56320 <=? lo) && (lo <=? 57343)
                      then parse_str fuel l''
                             (rev (utf8 (65536 + (hi - 55296) * 1024 + (lo - 56320))) ++ acc)
                      else parse_str fuel l' (rev (utf8 hi) ++ acc)
                  end
              | _ => parse_str fuel l' (rev (utf8 hi) ++ acc)
              end
          end
      | 92 :: c :: l' =>
          match unescape c with
          | Some n => parse_str fuel l' (n :: acc)
          | None => None
          end
      | c :: l' => if c <? 32 then None else parse_str fuel l' (c :: acc)
      end
  end.

Fixpoint span_digits (l : chars) : chars * chars :=
  match l with
  | c :: l' => if (48 <=? c) && (c <=? 57)
               then let '(ds, r) := span_digits l' in (c :: ds, r) else ([], l)
  | [] => ([], [])
  end.

Definition digits_value (l : chars) : Z := fold_left (λ acc c, acc * 10 + (c - 48)) l 0.

(** The fraction and the exponent of a number literal; the digits of the
    exponent are returned with and without their sign. *)
Definition parse_frac (l : chars) : option chars * chars :=
  match l with
  | 46 :: l' => let '(ds, r) := span_digits l' in (Some ds, r)
  | _ => (None, l)
  end.
Definition parse_exp (l : chars) : option (chars * chars) * chars :=
  match l with
  | (101 | 69) :: ((43 | 45) as sg) :: l' => let '(ds, r) := span_digits l' in (Some (sg :: ds, ds), r)
  | (101 | 69) :: l' => let '(ds, r) := span_digits l' in (Some (ds, ds), r)
  | _ => (None, l)
  end.

(** The value of a literal with these parts, if it is one. *)
Definition number (neg : bool) (int : chars) (frac : option chars) (exp : option (chars * chars))
    : option json :=
  match int, frac, exp with
  | [], _, _ | 48 :: _ :: _, _, _ | _, Some [], _ | _, _, Some (_, []) => None
  | _, None, None => Some (JNum (if neg then - digits_value int else digits_value int))
  | _, _, _ => Some (JFrac (of_codes ((if neg then [45] else []) ++ int ++
                 match frac with Some ds => 46 :: ds | None => [] end ++
                 match exp with Some (ds, _) => 101 :: ds | None => [] end)))
  end.

(** A number literal: sign, integer part, fraction, exponent. *)
Definition parse_unsigned (neg : bool) (l : chars) : option (json * chars) :=
  let '(int, l1) := span_digits l in
  let '(frac, l2) := parse_frac l1 in
  let '(exp, l3) := parse_exp l2 in
  option_map (λ j, (j, l3)) (number neg int frac exp).
Definition parse_num (l : chars) : option (json * chars) :=
  match l with
  | 45 :: l' => parse_unsigned true l'
  | _ => parse_unsigned false l
  end.

Example parse_num_ex :
  map (λ s, match parse_num (codes s) with Some (j, []) => Some j | _ => None end) ["0"; "-12"; "01"; "1.50"; "1."; "2e+3"; "-"; "1E5"]%string =
  [Some (JNum 0); Some (JNum (-12)); None; Some (JFrac "1.50"); None; Some (JFrac "2e+3"); None;
   Some (JFrac "1e5")].
Proof. reflexivity. Qed.

Fixpoint strip_codes (p l : chars) : option chars :=
  match p, l with
  | [], _ => Some l
  | a :: p', b :: l' => if a =? b then strip_codes p' l' else None
  | _ :: _, [] => None
  end.

(** A value, the elements of an array, the entries of an object. *)
Fixpoint parse_value (fuel : nat) (l : chars) : option (json * chars) :=
  match fuel with
  | O => None
  | S fuel =>
      match skip_ws l with
      | 110 :: l' => option_map (λ r, (JNull, r)) (strip_codes [117; 108; 108] l')
      | 116 :: l' => option_map (λ r, (JBool true, r)) (strip_codes [114; 117; 101] l')
      | 102 :: l' => option_map (λ r, (JBool false, r)) (strip_codes [97; 108; 115; 101] l')
      | 34 :: l' => match parse_str (S (length l')) l' [] with
                    | Some (s, r) => Some (JStr s, r)
                    | None => None
                    end
      | 91 :: l' => match skip_ws l' with
                    | 93 :: r => Some (JArr [], r)
                    | _ => parse_elems fuel l' []
                    end
      | 123 :: l' => match skip_ws l' with
                     | 125 :: r => Some (JObj [], r)
                     | _ => parse_entries fuel l' []
                     end
      | l' => parse_num l'
      end
  end
with parse_elems (fuel : nat) (l : chars) (acc : list json) : option (json * chars) :=
  match fuel with
  | O => None
  | S fuel =>
      match parse_value fuel l with
      | None => None
      | Some (v, l1) =>
          match skip_ws l1 with
          | 44 :: l2 => parse_elems fuel l2 (v :: acc)
          | 93 :: l2 => Some (JArr (rev (v :: acc)), l2)
          | _ => None
          end
      end
  end
with parse_entries (fuel : nat) (l : chars) (acc : list (string * json))
    : option (json * chars) :=
  match fuel with
  | O => None
  | S fuel =>
      match skip_ws l with
      | 34 :: l0 =>
          match parse_str (S (length l0)) l0 [] with
          | None => None
          | Some (k, l1) =>
              match skip_ws l1 with
              | 58 :: l2 =>
                  match parse_value fuel l2 with
                  | None => None
                  | Some (v, l3) =>
                      match skip_ws l3 with
                      | 44 :: l4 => parse_entries fuel l4 ((k, v) :: acc)
                      | 125 :: l4 => Some (JObj (rev ((k, v) :: acc)), l4)
                      | _ => None
                      end
                  end
              | _ => None
              end
          end
      | _ => None
      end
  end.

(** [JSON.parse]: [None] is a thrown SyntaxError.  Every turn of the parser
    consumes a byte or descends after consuming one, so twice the length is
    fuel enough. *)
Definition JSON_parse (s : string) : option json :=
  let l := codes s in
  match parse_value (S (2 * length l)) l with
  | Some (v, r) => match skip_ws r with [] => Some (norm v) | _ => None end
  | None => None
  end.

(** ** Printing *)

Definition hex_char (n : Z) : Z := if n <? 10 then 48 + n else 87 + n.

Definition escape (c : Z) : chars :=
  match c with
  | 34 => [92; 34] | 92 => [92; 92] | 8 => [92; 98] | 12 => [92; 102]
  | 10 => [92; 110] | 13 => [92; 114] | 9 => [92; 116]
  | _ => if c <? 32 then [92; 117; 48; 48; hex_char (c / 16); hex_char (c mod 16)] else [c]
  end.

Definition quote (s : string) : chars := [34] ++ concat (map escape (codes s)) ++ [34].

Fixpoint join (sep : chars) (l : list chars) : chars :=
  match l with
  | [] => []
  | [x] => x
  | x :: l' => x ++ sep ++ join sep l'
  end.

(** [JSON.stringify(v)], on the byte codes. *)
Fixpoint print_json (j : json) : chars :=
  match j with
  | JNull => codes "null"
  | JBool true => codes "true"
  | JBool false => codes "false"
  | JNum n => codes (pretty n)
  | JFrac lit => codes lit
  | JStr s => quote s
  | JArr l => [91] ++ join [44] (map print_json l) ++ [93]
  | JObj l => [123] ++ join [44] (map (λ kv, quote kv.1 ++ [58] ++ print_json kv.2) l) ++ [125]
  end.
Definition JSON_stringify (j : json) : string := of_codes (print_json j).

Example json_roundtrip_ex :
  let j := JObj [("text", JStr (of_codes [47; 34; 92; 10; 228; 189; 160]));
                 ("n", JNum (-42)); ("l", JArr [JNull; JBool true; JObj []])] in
  JSON_parse (JSON_stringify j) = Some j.
Proof. vm_compute. reflexivity. Qed.
Example json_reject_ex : JSON_parse "[1,]" = None ∧ JSON_parse "{x}" = None ∧ JSON_parse "" = None.
Proof. vm_compute. done. Qed.
