(* ===== verification/OutboundContract.v ===== *)
(** * The container-to-host trust boundary (src/outbound-contract.ts)

    The single decode point of messages_out.content.  A refusal carries its
    reason; of the engine's own message for a text that is not JSON only the
    fixed part is kept. *)
From S2P Require Import Prelude JsString Json.
From stdpp Require Import pretty.
From Stdlib Require Import Ascii.

Local Open Scope string_scope.
Local Open Scope Z_scope.
Local Open Scope list_scope.

(*@ src/src/outbound-contract.ts 30-30 MAX_OUTBOUND_CONTENT_BYTES *)
Definition MAX_OUTBOUND_CONTENT_BYTES : Z := 4 * 1024 * 1024.
(*@ src/src/outbound-contract.ts 54-54 FORBIDDEN_KEYS *)
Definition FORBIDDEN_KEYS : list string := ["__proto__"; "constructor"; "prototype"].
(*@ src/src/outbound-contract.ts 57-57 MAX_DEPTH *)
Definition MAX_DEPTH : Z := 12.

Definition q (s : string) : string :=
  String (ascii_of_nat 34) (s +:+ String (ascii_of_nat 34) EmptyString).

(** The first refusal of a list of checks. *)
Fixpoint first_bad {A} (f : A → option string) (l : list A) : option string :=
  match l with
  | [] => None
  | x :: l' => match f x with Some bad => Some bad | None => first_bad f l' end
  end.

(*@ src/src/outbound-contract.ts 61-77 scan *)
Fixpoint scan (value : json) (depth : Z) {struct value} : option string :=
  if MAX_DEPTH <? depth then Some ("payload nests deeper than 12 levels")
  else match value with
       | JArr l => first_bad (λ item, scan item (depth + 1)) l
       | JObj l => first_bad (λ kv,
           if bool_decide (kv.1 ∈ FORBIDDEN_KEYS)
           then Some ("payload contains forbidden key " +:+ q kv.1)
           else scan kv.2 (depth + 1)) l
       | _ => None
       end.

(** [{ ok: true; content }] or [{ ok: false; reason }]. *)
(*@ src/src/outbound-contract.ts 59-59 OutboundParseResult *)
Inductive OutboundParseResult :=
| Admitted_content (content : list (string * json))
| Refused (reason : string).

(** [typeof v], with [describe]'s words for null and arrays. *)
Definition type_word (v : json) : string :=
  match v with
  | JNull => "null" | JArr _ => "an array" | JBool _ => "boolean"
  | JNum _ | JFrac _ => "number" | JStr _ => "string" | JObj _ => "object"
  end.

(*@ src/src/outbound-contract.ts 88-107 parseOutboundContent *)
Definition parseOutboundContent (raw : string) : OutboundParseResult :=
  if MAX_OUTBOUND_CONTENT_BYTES <? Z.of_nat (String.length raw)
  then Refused "payload exceeds 4194304 bytes"
  else match JSON_parse raw with
       | None => Refused "payload is not valid JSON"
       | Some parsed =>
           match parsed with
           | JObj content =>
               match scan parsed 0 with
               | Some bad => Refused bad
               | None => Admitted_content content
               end
           | _ => Refused ("payload is " +:+ type_word parsed +:+ ", expected a JSON object")
           end
       end.

(** ** Field readers *)

(*@ src/src/outbound-contract.ts 119-119 FieldResult *)
Inductive FieldResult (T : Type) :=
| FOk (value : T)
| FBad (reason : string).
Arguments FOk {T}.
Arguments FBad {T}.

(*@ src/src/outbound-contract.ts 206-210 describe *)
Definition describe (v : json) : string :=
  match v with
  | JNull => "null"
  | JArr _ => "an array"
  | _ => "a " +:+ type_word v
  end.

(** The options; a pattern is its [test]. *)
Record ReadOpts := mkReadOpts {
  o_required : bool;
  o_maxItems : option Z;
  o_maxLength : option Z;
  o_pattern : option (string → bool);
  o_default : option string }.
Definition optional_max (n : Z) : ReadOpts := mkReadOpts false None (Some n) None None.
Definition required_max (n : Z) : ReadOpts := mkReadOpts true None (Some n) None None.

Definition too_long (max : option Z) (s : string) : bool :=
  match max with Some m => m <? js_length s | None => false end.
Definition mismatch (p : option (string → bool)) (s : string) : bool :=
  match p with Some f => negb (f s) | None => false end.

(** [raw === undefined || raw === null]: the object's own entries, since every
    key the program reads is none of Object.prototype's. *)
Definition present (content : list (string * json)) (key : string) : option json :=
  match obj_get key content with
  | None | Some JNull => None
  | Some v => Some v
  end.

(** [s.slice(0, 64)] of an ASCII text, for the message. *)
Definition excerpt (s : string) : string := JSON_stringify (JStr (take_string 64 s)).

(*@ src/src/outbound-contract.ts 121-139 readString *)
Definition readString (content : list (string * json)) (key : string) (opts : ReadOpts)
    : FieldResult string :=
  match present content key with
  | None => if o_required opts then FBad (q key +:+ " is required")
            else FOk (default "" (o_default opts))
  | Some (JStr raw) =>
      if too_long (o_maxLength opts) raw
      then FBad (q key +:+ " exceeds " +:+ pretty (default 0 (o_maxLength opts)) +:+ " characters")
      else if mismatch (o_pattern opts) raw
      then FBad (q key +:+ " has a disallowed value: " +:+ excerpt raw)
      else FOk raw
  | Some raw => FBad (q key +:+ " must be a string, got " +:+ describe raw)
  end.

(** The loop of [readStringArray] from index [i]. *)
Fixpoint read_items (key : string) (opts : ReadOpts) (i : Z) (l : list json) (out : list string)
    : FieldResult (list string) :=
  match l with
  | [] => FOk out
  | item :: l' =>
      let at_i := q (key +:+ "[" +:+ pretty i +:+ "]") in
      match item with
      | JStr s =>
          if too_long (o_maxLength opts) s
          then FBad (at_i +:+ " exceeds " +:+ pretty (default 0 (o_maxLength opts)) +:+ " characters")
          else if mismatch (o_pattern opts) s
          then FBad (at_i +:+ " has a disallowed value: " +:+ excerpt s)
          else read_items key opts (i + 1) l' (out ++ [s])
      | _ => FBad (at_i +:+ " must be a string, got " +:+ describe item)
      end
  end.

Definition too_many {A} (max : option Z) (l : list A) : bool :=
  match max with Some m => m <? Z.of_nat (length l) | None => false end.

(*@ src/src/outbound-contract.ts 141-169 readStringArray *)
Definition readStringArray (content : list (string * json)) (key : string) (opts : ReadOpts)
    : FieldResult (list string) :=
  match present content key with
  | None => if o_required opts then FBad (q key +:+ " is required") else FOk []
  | Some (JArr raw) =>
      if too_many (o_maxItems opts) raw
      then FBad (q key +:+ " has more than " +:+ pretty (default 0 (o_maxItems opts)) +:+ " entries")
      else read_items key opts 0 raw []
  | Some raw => FBad (q key +:+ " must be an array, got " +:+ describe raw)
  end.

(** The loop of [readStringRecord]. *)
Fixpoint read_entries (key : string) (maxLength : option Z) (keyPattern valuePattern : option (string → bool))
    (l : list (string * json)) (out : list (string * string)) : FieldResult (list (string * string)) :=
  match l with
  | [] => FOk out
  | (k, v) :: l' =>
      if mismatch keyPattern k then FBad (q key +:+ " has a disallowed key: " +:+ excerpt k)
      else
        let at_k := q (key +:+ "." +:+ k) in
        match v with
        | JStr s =>
            if too_long maxLength s
            then FBad (at_k +:+ " exceeds " +:+ pretty (default 0 maxLength) +:+ " characters")
            else if mismatch valuePattern s
            then FBad (at_k +:+ " has a disallowed value: " +:+ excerpt s)
            else read_entries key maxLength keyPattern valuePattern l' (out ++ [(k, s)])
        | _ => FBad (at_k +:+ " must be a string, got " +:+ describe v)
        end
  end.

(*@ src/src/outbound-contract.ts 171-204 readStringRecord *)
Definition readStringRecord (content : list (string * json)) (key : string) (maxEntries maxLength : option Z)
    (keyPattern valuePattern : option (string → bool)) : FieldResult (list (string * string)) :=
  match present content key with
  | None => FOk []
  | Some (JObj entries) =>
      if too_many maxEntries entries
      then FBad (q key +:+ " has more than " +:+ pretty (default 0 maxEntries) +:+ " entries")
      else read_entries key maxLength keyPattern valuePattern entries []
  | Some raw => FBad (q key +:+ " must be an object, got " +:+ describe raw)
  end.

(** ** What the contract promises *)

(** Induction on JSON values, through arrays and objects. *)
Section json_ind.
Context (P : json → Prop).
Hypothesis (Hnull : P JNull) (Hbool : ∀ b, P (JBool b)) (Hnum : ∀ n, P (JNum n))
  (Hfrac : ∀ s, P (JFrac s)) (Hstr : ∀ s, P (JStr s))
  (Harr : ∀ l, Forall P l → P (JArr l)) (Hobj : ∀ l, Forall (λ kv, P kv.2) l → P (JObj l)).

Fixpoint json_ind_nested (j : json) : P j :=
  match j with
  | JNull => Hnull | JBool b => Hbool b | JNum n => Hnum n | JFrac s => Hfrac s | JStr s => Hstr s
  | JArr l => Harr l ((fix go l := match l as l0 return Forall P l0 with
                       | [] => Forall_nil_2 P
                       | x :: l' => Forall_cons_2 P x l' (json_ind_nested x) (go l')
                       end) l)
  | JObj l => Hobj l ((fix go l := match l as l0 return Forall (λ kv, P kv.2) l0 with
                       | [] => Forall_nil_2 _
                       | x :: l' => Forall_cons_2 _ x l' (json_ind_nested x.2) (go l')
                       end) l)
  end.
End json_ind.

(** [part p j v]: [v] is the part of [j] found along the path [p] of keys and
    array positions. *)
Inductive step := SKey (k : string) | SIdx (i : nat).
Inductive part : list step → json → json → Prop :=
| part_here j : part [] j j
| part_key k p l w v : (k, w) ∈ l → part p w v → part (SKey k :: p) (JObj l) v
| part_idx i p l w v : l !! i = Some w → part p w v → part (SIdx i :: p) (JArr l) v.

Lemma first_bad_None {A} (f : A → option string) l :
  first_bad f l = None ↔ ∀ x, x ∈ l → f x = None.
Proof.
  induction l as [|x l IH]; simpl; [set_solver|]. destruct (f x) eqn:E; [set_solver|].
  rewrite IH. set_solver.
Qed.

(** What [scan] refuses, as a predicate on the paths into the value. *)
Definition clean (v : json) (depth : Z) : Prop :=
  ∀ p w, part p v w → depth + Z.of_nat (length p) ≤ MAX_DEPTH ∧
                      ∀ k, SKey k ∈ p → k ∉ FORBIDDEN_KEYS.

Lemma clean_here v d : clean v d → d ≤ MAX_DEPTH.
Proof. intros H. destruct (H [] v (part_here v)) as [H1 _]. simpl in H1. lia. Qed.

Lemma scan_clean v d : scan v d = None ↔ clean v d.
Proof.
  revert d. induction v as [| | | | |l IH|l IH] using json_ind_nested; intros d;
    try (simpl; destruct (MAX_DEPTH <? d) eqn:E;
         [split; [done|intros H%clean_here; lia]|];
         split; [intros _ p w Hp; inversion Hp; subst; simpl; split; [lia|set_solver]|done]).
  - cbn [scan]. destruct (MAX_DEPTH <? d) eqn:E; [split; [done|intros H%clean_here; lia]|].
    rewrite first_bad_None. split.
    + intros H p w Hp. inversion Hp; subst; [simpl; split; [lia|set_solver]|].
      assert (w0 ∈ l) as Hw by by eapply list_elem_of_lookup_2.
      rewrite Forall_forall in IH. destruct (proj1 (IH w0 Hw (d + 1)) (H w0 Hw) p0 w) as [G1 G2]; [done|].
      simpl. split; [lia|]. intros k [?|?]%elem_of_cons; [done|by apply G2].
    + intros H x Hx. rewrite Forall_forall in IH. apply IH; [done|]. intros p w Hp.
      destruct (proj1 (list_elem_of_lookup _ _) Hx) as [i Hi].
      destruct (H (SIdx i :: p) w) as [H1 H2]; [by eapply part_idx|]. simpl in H1.
      split; [lia|]. intros k Hk. apply H2. by right.
  - cbn [scan]. destruct (MAX_DEPTH <? d) eqn:E; [split; [done|intros H%clean_here; lia]|].
    rewrite first_bad_None. rewrite Forall_forall in IH. split.
    + intros H p w Hp. inversion Hp; subst; [simpl; split; [lia|set_solver]|].
      assert (Hkw : (k, w0) ∈ l) by done.
      specialize (H _ Hkw). cbn in H. revert H. destruct_if; [done|]. intros H. to_prop.
      destruct (proj1 (IH _ Hkw (d + 1)) H p0 w) as [G1 G2]; [done|].
      simpl. split; [lia|]. intros k' [[= ->]|?]%elem_of_cons; [done|by apply G2].
    + intros H [k x] Hx. cbn. destruct_if.
      * to_prop. destruct (H [SKey k] x) as [_ H2]; [eapply part_key; [done|constructor]|].
        destruct (H2 k ltac:(left) Heqb).
      * apply (IH _ Hx). intros p w Hp. destruct (H (SKey k :: p) w) as [H1 H2];
          [by eapply part_key|]. simpl in H1. split; [lia|]. intros k' Hk. apply H2. by right.
Qed.

(** The decode point admits exactly the payloads of the contract: at most
    4 MiB, a JSON object, no part of it more than 12 levels deep, and none of
    the three forbidden keys on the way to any part. *)
Theorem contract_admits_exactly (raw : string) (content : list (string * json)) :
  parseOutboundContent raw = Admitted_content content ↔
  Z.of_nat (String.length raw) ≤ 4194304 ∧ JSON_parse raw = Some (JObj content) ∧
  ∀ p v, part p (JObj content) v →
    Z.of_nat (length p) ≤ 12 ∧ ∀ k, SKey k ∈ p → k ∉ ["__proto__"; "constructor"; "prototype"].
Proof.
  unfold parseOutboundContent.
  destruct (MAX_OUTBOUND_CONTENT_BYTES <? Z.of_nat (String.length raw)) eqn:E.
  { unfold MAX_OUTBOUND_CONTENT_BYTES in E. split; [done|]. intros (H & _). lia. }
  unfold MAX_OUTBOUND_CONTENT_BYTES in E.
  destruct (JSON_parse raw) as [j|]; [|by split; [|intros (? & ? & ?)]].
  destruct j as [| | | | | |l]; try by split; [|intros (? & ? & ?)].
  destruct (scan (JObj l) 0) as [bad|] eqn:Es.
  - split; [done|]. intros (_ & [= ->] & H). assert (scan (JObj content) 0 = None) as F; [|congruence].
    apply scan_clean. intros p w Hp. apply H in Hp. done.
  - apply scan_clean in Es. split.
    + intros [= ->]. split_and!; [lia|done|]. intros p v Hp. apply Es in Hp. done.
    + intros (_ & [= ->] & _). done.
Qed.

Lemma read_items_ok key opts i l out r :
  read_items key opts i l out = FOk r ↔
  ∃ ss, l = map JStr ss ∧ r = out ++ ss ∧
        Forall (λ s, too_long (o_maxLength opts) s = false ∧ mismatch (o_pattern opts) s = false) ss.
Proof.
  revert i out. induction l as [|x l IH]; intros i out; simpl.
  - split; [intros [= <-]; exists []; by rewrite app_nil_r|].
    intros ([|] & ? & -> & _); [by rewrite app_nil_r|done].
  - assert (∀ s ss, JStr s :: map JStr ss = map JStr (s :: ss)) as Hm by done.
    destruct x as [| | | |s| |]; try (split; [done|intros ([|] & ? & ?); done]).
    destruct (too_long _ s) eqn:El.
    { split; [done|]. intros ([|s' ss] & [= <- ->] & -> & [[H _] _]%Forall_cons). congruence. }
    destruct (mismatch _ s) eqn:Em.
    { split; [done|]. intros ([|s' ss] & [= <- ->] & -> & [[_ H] _]%Forall_cons). congruence. }
    rewrite IH. split.
    + intros (ss & -> & -> & H). exists (s :: ss). rewrite <-app_assoc. by repeat constructor.
    + intros ([|s' ss] & [= <- ->] & -> & [_ H]%Forall_cons). exists ss. by rewrite <-app_assoc.
Qed.

Lemma read_entries_ok key ml kp vp l out r :
  read_entries key ml kp vp l out = FOk r ↔
  ∃ es, l = map (λ e, (e.1, JStr e.2)) es ∧ r = out ++ es ∧
        Forall (λ e, mismatch kp e.1 = false ∧ too_long ml e.2 = false ∧ mismatch vp e.2 = false) es.
Proof.
  revert out. induction l as [|[k x] l IH]; intros out; simpl.
  - split; [intros [= <-]; exists []; by rewrite app_nil_r|].
    intros ([|] & ? & -> & _); [by rewrite app_nil_r|done].
  - destruct (mismatch kp k) eqn:Ek.
    { split; [done|]. intros ([|[k' s'] es] & ? & -> & H); simplify_eq/=.
      apply Forall_cons in H as [(H & _) _]. simpl in H. congruence. }
    destruct x as [| | | |s| |]; try (split; [done|intros ([|[k' s'] es] & ? & -> & H); simplify_eq/=]).
    destruct (too_long ml s) eqn:El.
    { split; [done|]. intros ([|[k' s'] es] & ? & -> & H); simplify_eq/=.
      apply Forall_cons in H as [(_ & H & _) _]. simpl in H. congruence. }
    destruct (mismatch vp s) eqn:Em.
    { split; [done|]. intros ([|[k' s'] es] & ? & -> & H); simplify_eq/=.
      apply Forall_cons in H as [(_ & _ & H) _]. simpl in H. congruence. }
    rewrite IH. split.
    + intros (es & -> & -> & H). exists ((k, s) :: es). rewrite <-app_assoc. by repeat constructor.
    + intros ([|[k' s'] es] & ? & -> & H); simplify_eq/=. apply Forall_cons in H as [_ H].
      exists es. by rewrite <-app_assoc.
Qed.

(** A field is absent or null. *)
Definition absent (content : list (string * json)) (key : string) : Prop :=
  obj_get key content = None ∨ obj_get key content = Some JNull.
Lemma present_None content key : present content key = None ↔ absent content key.
Proof. unfold present, absent. destruct (obj_get key content) as [[]|]; naive_solver. Qed.
Lemma present_Some content key v :
  present content key = Some v ↔ obj_get key content = Some v ∧ v ≠ JNull.
Proof. unfold present. destruct (obj_get key content) as [[]|]; naive_solver. Qed.

Lemma readString_ok content key opts s :
  readString content key opts = FOk s ↔
     absent content key ∧ o_required opts = false ∧ s = default "" (o_default opts) ∨
     obj_get key content = Some (JStr s) ∧
       too_long (o_maxLength opts) s = false ∧ mismatch (o_pattern opts) s = false.
Proof.
  unfold readString. destruct (present content key) as [v|] eqn:E.
  - assert (¬ absent content key) as Ha by (rewrite <-present_None; congruence).
    apply present_Some in E as [-> Hv].
    destruct v as [| | | |raw| |]; try (split; [done|intros [[? _]|[? _]]; done]).
    destruct (too_long _ raw) eqn:El; [split; [done|intros [[? _]|([= ->] & ? & _)]; [done|congruence]]|].
    destruct (mismatch _ raw) eqn:Em; [split; [done|intros [[? _]|([= ->] & _ & ?)]; [done|congruence]]|].
    split; [intros [= <-]; by right|intros [[? _]|([= ->] & _)]; done].
  - apply present_None in E. split.
    + destruct (o_required opts); [done|]. intros [= <-]. by left.
    + intros [(_ & -> & ->)|(H & _)]; [done|]. by destruct E; simplify_eq.
Qed.

Lemma readStringArray_ok content key opts ss :
  readStringArray content key opts = FOk ss ↔
     absent content key ∧ o_required opts = false ∧ ss = [] ∨
     obj_get key content = Some (JArr (map JStr ss)) ∧ too_many (o_maxItems opts) ss = false ∧
       Forall (λ s, too_long (o_maxLength opts) s = false ∧ mismatch (o_pattern opts) s = false) ss.
Proof.
  unfold readStringArray. destruct (present content key) as [v|] eqn:E.
  - assert (¬ absent content key) as Ha by (rewrite <-present_None; congruence).
    apply present_Some in E as [-> Hv].
    destruct v as [| | | | |raw|]; try (split; [done|intros [[? _]|[? _]]; done]).
    assert (∀ ss, too_many (o_maxItems opts) (map JStr ss) = too_many (o_maxItems opts) ss) as Hm.
    { intros. unfold too_many. by rewrite length_map. }
    destruct (too_many _ raw) eqn:El.
    { split; [done|intros [[? _]|([= ->] & ? & _)]; [done|]]. rewrite Hm in El. congruence. }
    rewrite read_items_ok. simpl. split.
    + intros (ss' & -> & -> & H). right. by rewrite Hm in El.
    + intros [[? _]|([= ->] & _ & H)]; [done|]. by exists ss.
  - apply present_None in E. split.
    + destruct (o_required opts); [done|]. intros [= <-]. by left.
    + intros [(_ & -> & ->)|(H & _)]; [done|]. by destruct E; simplify_eq.
Qed.

Lemma readStringRecord_ok content key me ml kp vp es :
  readStringRecord content key me ml kp vp = FOk es ↔
     absent content key ∧ es = [] ∨
     obj_get key content = Some (JObj (map (λ e, (e.1, JStr e.2)) es)) ∧ too_many me es = false ∧
       Forall (λ e, mismatch kp e.1 = false ∧ too_long ml e.2 = false ∧ mismatch vp e.2 = false) es.
Proof.
  unfold readStringRecord. destruct (present content key) as [v|] eqn:E.
  - assert (¬ absent content key) as Ha by (rewrite <-present_None; congruence).
    apply present_Some in E as [-> Hv].
    destruct v as [| | | | | |raw]; try (split; [done|intros [[? _]|[? _]]; done]).
    assert (∀ es : list (string * string), too_many me (map (λ e, (e.1, JStr e.2)) es) = too_many me es) as Hm.
    { intros. unfold too_many. by rewrite length_map. }
    destruct (too_many me raw) eqn:El.
    { split; [done|intros [[? _]|([= ->] & ? & _)]; [done|]]. rewrite Hm in El. congruence. }
    rewrite read_entries_ok. simpl. split.
    + intros (es' & -> & -> & H). right. by rewrite Hm in El.
    + intros [[? _]|([= ->] & _ & H)]; [done|]. by exists es.
  - apply present_None in E. split.
    + intros [= <-]. by left.
    + intros [(_ & ->)|(H & _)]; [done|]. by destruct E; simplify_eq.
Qed.

(** The field readers never coerce: what they return for a present field is
    the JSON string, the JSON array of strings, or the JSON object of strings
    that is stored there, every text of it within its length limit and matching
    its pattern, keys as well as values; a missing optional field reads as its
    default; anything else is a refusal. *)
Theorem readers_never_coerce (content : list (string * json)) (key : string) :
  (∀ opts s, readString content key opts = FOk s ↔
     absent content key ∧ o_required opts = false ∧ s = default "" (o_default opts) ∨
     obj_get key content = Some (JStr s) ∧
       too_long (o_maxLength opts) s = false ∧ mismatch (o_pattern opts) s = false) ∧
  (∀ opts ss, readStringArray content key opts = FOk ss ↔
     absent content key ∧ o_required opts = false ∧ ss = [] ∨
     obj_get key content = Some (JArr (map JStr ss)) ∧ too_many (o_maxItems opts) ss = false ∧
       Forall (λ s, too_long (o_maxLength opts) s = false ∧ mismatch (o_pattern opts) s = false) ss) ∧
  (∀ me ml kp vp es, readStringRecord content key me ml kp vp = FOk es ↔
     absent content key ∧ es = [] ∨
     obj_get key content = Some (JObj (map (λ e, (e.1, JStr e.2)) es)) ∧ too_many me es = false ∧
       Forall (λ e, mismatch kp e.1 = false ∧ too_long ml e.2 = false ∧ mismatch vp e.2 = false) es).
Proof.
  split_and!; intros; [apply readString_ok|apply readStringArray_ok|apply readStringRecord_ok].
Qed.
