(* ===== verification/Types.v ===== *)
(** * The rows of the central database (src/types.ts, src/db/schema.ts)

    One record per entity and one inductive type per union of string literals.
    A column written only with [Date.toISOString()] is a number of
    milliseconds: the text order of that format is the numeric order. *)
From S2P Require Import Prelude.

Local Open Scope string_scope.

(** Milliseconds since the epoch. *)
Abbreviation time := Z (only parsing).

(*@ src/src/types.ts 3-10 AgentGroupRole *)
Inductive AgentGroupRole := frontdesk | worker.
#[export] Instance AgentGroupRole_eq : EqDecision AgentGroupRole.
Proof. solve_decision. Defined.

(*@ src/src/types.ts 12-29 AgentGroup *)
Record AgentGroup := mkAgentGroup {
  ag_id : string;
  ag_name : string;
  ag_folder : string;
  ag_agent_provider : option string;
  ag_created_at : time;
  ag_organization_id : option string;
  ag_role : option AgentGroupRole }.
#[export] Instance AgentGroup_eq : EqDecision AgentGroup.
Proof. solve_decision. Defined.

(*@ src/src/types.ts 31-31 UnknownSenderPolicy *)
Inductive UnknownSenderPolicy := strict | request_approval | public.
#[export] Instance UnknownSenderPolicy_eq : EqDecision UnknownSenderPolicy.
Proof. solve_decision. Defined.

(** [denied_at] is [undefined] or NULL as [None]. *)
(*@ src/src/types.ts 33-51 MessagingGroup *)
Record MessagingGroup := mkMessagingGroup {
  mg_id : string;
  mg_channel_type : string;
  mg_platform_id : string;
  mg_name : option string;
  mg_is_group : bool;
  mg_unknown_sender_policy : UnknownSenderPolicy;
  mg_denied_at : option time;
  mg_created_at : time }.
#[export] Instance MessagingGroup_eq : EqDecision MessagingGroup.
Proof. solve_decision. Defined.

(*@ src/src/types.ts 55-66 User *)
Record User := mkUser {
  u_id : string;
  u_kind : string;
  u_display_name : option string;
  u_created_at : time }.
#[export] Instance User_eq : EqDecision User.
Proof. solve_decision. Defined.

(*@ src/src/types.ts 68-68 UserRoleKind *)
Inductive UserRoleKind := owner | admin | org_admin | operator | viewer.
#[export] Instance UserRoleKind_eq : EqDecision UserRoleKind.
Proof. solve_decision. Defined.

(*@ src/src/types.ts 70-77 RoleScope *)
Inductive RoleScope :=
| ScopeGlobal
| ScopeGroup (agentGroupId : string)
| ScopeOrg (organizationId : string).
#[export] Instance RoleScope_eq : EqDecision RoleScope.
Proof. solve_decision. Defined.

(*@ src/src/types.ts 79-104 UserRole *)
Record UserRole := mkUserRole {
  ur_user_id : string;
  ur_role : UserRoleKind;
  ur_agent_group_id : option string;
  ur_organization_id : option string;
  ur_granted_by : option string;
  ur_granted_at : time }.
#[export] Instance UserRole_eq : EqDecision UserRole.
Proof. solve_decision. Defined.

(*@ src/src/types.ts 106-112 Organization *)
Record Organization := mkOrganization {
  org_id : string;
  org_name : string;
  org_slug : string;
  org_created_at : time }.

(*@ src/src/types.ts 114-126 OrganizationMember *)
Record OrganizationMember := mkOrganizationMember {
  om_organization_id : string;
  om_user_id : string;
  om_added_by : option string;
  om_added_at : time }.

(*@ src/src/types.ts 128-134 AgentGroupMember *)
Record AgentGroupMember := mkAgentGroupMember {
  agm_user_id : string;
  agm_agent_group_id : string;
  agm_added_by : option string;
  agm_added_at : time }.

(*@ src/src/types.ts 136-142 UserDm *)
Record UserDm := mkUserDm {
  ud_user_id : string;
  ud_channel_type : string;
  ud_messaging_group_id : string;
  ud_resolved_at : time }.

(*@ src/src/types.ts 144-144 EngageMode *)
Inductive EngageMode := EngagePattern | EngageMention | EngageMentionSticky.
#[export] Instance EngageMode_eq : EqDecision EngageMode.
Proof. solve_decision. Defined.

(*@ src/src/types.ts 145-145 SenderScope *)
Inductive SenderScope := SenderAll | SenderKnown.
#[export] Instance SenderScope_eq : EqDecision SenderScope.
Proof. solve_decision. Defined.

(*@ src/src/types.ts 146-146 IgnoredMessagePolicy *)
Inductive IgnoredMessagePolicy := IgnoredDrop | IgnoredAccumulate.
#[export] Instance IgnoredMessagePolicy_eq : EqDecision IgnoredMessagePolicy.
Proof. solve_decision. Defined.

(*@ src/src/types.ts 161-161 session_mode *)
Inductive SessionMode :=
  SMshared | SMper_thread | SMagent_shared | SMper_user | SMper_user_per_thread.
#[export] Instance SessionMode_eq : EqDecision SessionMode.
Proof. solve_decision. Defined.

(** The three columns migration 008 added are nullable in the database. *)
(*@ src/src/types.ts 148-164 MessagingGroupAgent *)
Record MessagingGroupAgent := mkMessagingGroupAgent {
  mga_id : string;
  mga_messaging_group_id : string;
  mga_agent_group_id : string;
  mga_engage_mode : option EngageMode;
  mga_engage_pattern : option string;
  mga_sender_scope : option SenderScope;
  mga_ignored_message_policy : option IgnoredMessagePolicy;
  mga_session_mode : SessionMode;
  mga_priority : Z;
  mga_created_at : time }.

(*@ src/src/types.ts 166-166 A2aSessionMode *)
Inductive A2aSessionMode := A2aAgentShared | A2aRootSession.
#[export] Instance A2aSessionMode_eq : EqDecision A2aSessionMode.
Proof. solve_decision. Defined.

(*@ src/src/types.ts 198-207 status *)
Inductive SessionStatus := active | closed | archived.
#[export] Instance SessionStatus_eq : EqDecision SessionStatus.
Proof. solve_decision. Defined.

(*@ src/src/types.ts 208-208 container_status *)
Inductive ContainerStatus := running | idle | stopped.
#[export] Instance ContainerStatus_eq : EqDecision ContainerStatus.
Proof. solve_decision. Defined.

(*@ src/src/types.ts 168-230 Session *)
Record Session := mkSession {
  s_id : string;
  s_agent_group_id : string;
  s_messaging_group_id : option string;
  s_thread_id : option string;
  s_owner_user_id : option string;
  s_root_session_id : option string;
  s_conversation_thread_id : option string;
  s_agent_provider : option string;
  s_status : SessionStatus;
  s_container_status : ContainerStatus;
  s_last_active : option time;
  s_archived_at : option time;
  s_spawn_depth : Z;
  s_created_at : time }.
#[export] Instance Session_eq : EqDecision Session.
Proof. solve_decision. Defined.

(*@ src/src/types.ts 234-234 MessageInKind *)
Inductive MessageInKind := MIchat | MIchat_sdk | MItask | MIwebhook | MIsystem.
#[export] Instance MessageInKind_eq : EqDecision MessageInKind.
Proof. solve_decision. Defined.

(*@ src/src/types.ts 235-235 MessageInStatus *)
Inductive MessageInStatus := MSpending | MSprocessing | MScompleted | MSfailed.
#[export] Instance MessageInStatus_eq : EqDecision MessageInStatus.
Proof. solve_decision. Defined.

(*@ src/src/types.ts 304-304 target_type *)
Inductive TargetType := TargetChannel | TargetAgent.
#[export] Instance TargetType_eq : EqDecision TargetType.
Proof. solve_decision. Defined.
(*@ src/src/types.ts 301-307 AgentDestination *)
Record AgentDestination := mkAgentDestination {
  ad_agent_group_id : string;
  ad_local_name : string;
  ad_target_type : TargetType;
  ad_target_id : string;
  ad_created_at : time }.

(** A plain active session, for the concrete runs of the witnesses. *)
Definition plain_session (id ag : string) (mg thread owner root : option string) : Session :=
  mkSession id ag mg thread owner root None None active stopped None None 0 0.
