(* ===== verification/JsonProofs.v ===== *)
(** * [JSON.parse] undoes [JSON.stringify]

    What the host stores as JSON it reads back as it was: the events it replays,
    the actions it carries out later, the bodies it signs. *)
From S2P Require Import Prelude JsString Json.
From stdpp Require Import pretty.
From Stdlib Require Import Ascii.

Local Open Scope Z_scope.
Local Open Scope list_scope.

(** ** Texts and their codes *)

Definition byte (c : Z) : Prop := 0 <= c < 256.

Lemma of_codes_codes s : of_codes (codes s) = s.
Proof.
  unfold of_codes, codes. rewrite map_map. rewrite <- (String.string_of_list_ascii_of_string s) at 2.
  f_equal. rewrite <- (map_id (String.list_ascii_of_string s)) at 2. apply map_ext. intros c.
  by rewrite Nat2Z.id, ascii_nat_embedding.
Qed.
Lemma codes_of_codes l : Forall byte l → codes (of_codes l) = l.
Proof.
  unfold of_codes, codes, byte. rewrite String.list_ascii_of_string_of_list_ascii, map_map.
  induction 1 as [|c l Hc _ IH]; [done|]. cbn. rewrite IH, nat_ascii_embedding by lia. f_equal. lia.
Qed.
Lemma codes_bytes s : Forall byte (codes s).
Proof.
  unfold codes. apply Forall_map, Forall_true. intros c. unfold byte. pose proof (nat_ascii_bounded c). lia.
Qed.
Lemma of_codes_app l1 l2 : of_codes (l1 ++ l2) = (of_codes l1 +:+ of_codes l2)%string.
Proof. unfold of_codes. rewrite map_app. induction (map _ l1) as [|c l IH]; cbn; [done|by rewrite IH]. Qed.
Lemma codes_app s1 s2 : codes (s1 +:+ s2) = codes s1 ++ codes s2.
Proof. induction s1 as [|c s1 IH]; [done|]. cbn. unfold codes in *. cbn. by rewrite <- IH. Qed.

(** ** String literals *)

(** A control character is escaped by its code. *)
Lemma hex4_control c : 0 <= c < 32 → hex4 48 48 (hex_char (c / 16)) (hex_char (c mod 16)) = Some c.
Proof.
  intros H. assert (∃ n, c = Z.of_nat n ∧ (n < 32)%nat) as (n & -> & Hn) by (exists (Z.to_nat c); lia).
  do 32 (destruct n as [|n]; [reflexivity|]). lia.
Qed.

(** The next character of a literal, whatever comes before it. *)
Definition no_surrogate (l : chars) : Prop :=
  match l with
  | 92 :: 117 :: a :: b :: c :: d :: _ => ∃ n, hex4 a b c d = Some n ∧ n < 32
  | _ => True
  end.

Lemma escape_cases c :
  byte c → (32 <= c ∧ c ≠ 34 ∧ c ≠ 92 ∧ escape c = [c]) ∨
  (∃ n, escape c = [92; n] ∧ n ≠ 117 ∧ unescape n = Some c) ∨
  (c < 32 ∧ escape c = [92; 117; 48; 48; hex_char (c / 16); hex_char (c mod 16)]).
Proof.
  intros Hc. destruct (decide (c < 32)) as [H32|H32].
  - assert (∃ n, c = Z.of_nat n ∧ (n < 32)%nat) as (n & -> & Hn) by (exists (Z.to_nat c); unfold byte in *; lia).
    right. do 32 (destruct n as [|n]; [first [right; split; [lia|reflexivity] | left; by eexists]|]). lia.
  - destruct (decide (c = 34)) as [->|]; [right; left; by eexists|].
    destruct (decide (c = 92)) as [->|]; [right; left; by eexists|].
    left. split_and!; [lia..|]. unfold escape.
    rewrite (proj2 (Z.ltb_ge c 32)) by lia. repeat case_match; try done; lia.
Qed.

Lemma parse_str_escape f c l acc :
  byte c → no_surrogate l → parse_str (S f) (escape c ++ l) acc = parse_str f l (c :: acc).
Proof.
  intros Hc Hl. destruct (escape_cases c Hc) as [(H32 & H34 & H92 & ->)|[(n & -> & Hn & Hu)|[H32 ->]]].
  - cbn [app parse_str]. rewrite (proj2 (Z.ltb_ge c 32)) by lia.
    repeat case_match; try done; lia.
  - cbn [app parse_str]. rewrite Hu. repeat case_match; try done; lia.
  - cbn [app parse_str]. rewrite hex4_control by (unfold byte in Hc; lia).
    assert (rev (utf8 c) ++ acc = c :: acc) as ->
      by (unfold utf8; by rewrite (proj2 (Z.ltb_lt c 128)) by lia).
    repeat case_match; try done; try lia.
    all: destruct Hl as (n & E & Hn); simplify_eq; lia.
Qed.

Lemma no_surrogate_plain c l : c ≠ 92 → no_surrogate (c :: l).
Proof. intros H. unfold no_surrogate. repeat case_match; try done; simplify_eq; lia. Qed.
Lemma no_surrogate_escapes cs r : Forall byte cs → no_surrogate (concat (map escape cs) ++ 34 :: r).
Proof.
  intros H. destruct H as [|c cs Hc _]; [by apply no_surrogate_plain|]. cbn.
  destruct (escape_cases c Hc) as [(H32 & H34 & H92 & ->)|[(n & -> & Hn & _)|[H32 ->]]].
  - by apply no_surrogate_plain.
  - unfold no_surrogate. cbn. repeat case_match; try done; simplify_eq; lia.
  - exists c. split; [apply hex4_control; unfold byte in Hc; lia|done].
Qed.
Lemma parse_str_escapes cs : ∀ f r acc,
  Forall byte cs → (length cs < f)%nat →
  parse_str f (concat (map escape cs) ++ 34 :: r) acc = Some (of_codes (rev acc ++ cs), r).
Proof.
  induction cs as [|c cs IH]; intros f r acc Hb Hf; (destruct f as [|f]; [cbn in Hf; lia|]).
  - cbn. by rewrite app_nil_r.
  - apply Forall_cons in Hb as [Hc Hb]. cbn [map concat]. rewrite <- (assoc_L (++)).
    rewrite parse_str_escape, IH by first [done | by apply no_surrogate_escapes | cbn in Hf; lia].
    cbn. by rewrite <- (assoc_L (++)).
Qed.

Lemma escapes_length cs : Forall byte cs → (length cs <= length (concat (map escape cs)))%nat.
Proof.
  induction 1 as [|c cs Hc _ IH]; [done|]. cbn. rewrite length_app.
  destruct (escape_cases c Hc) as [(_ & _ & _ & ->)|[(n & -> & _)|[_ ->]]]; cbn; lia.
Qed.
(** A printed text, read back after its opening quote. *)
Lemma parse_quoted s r :
  parse_str (S (length (concat (map escape (codes s)) ++ 34 :: r))) (concat (map escape (codes s)) ++ 34 :: r) [] =
  Some (s, r).
Proof.
  rewrite parse_str_escapes; [change (rev [] ++ codes s) with (codes s); by rewrite of_codes_codes|apply codes_bytes|].
  rewrite length_app. pose proof (escapes_length (codes s) (codes_bytes s)). lia.
Qed.

(** ** Numbers *)

Definition digit_code (c : Z) : Prop := 48 <= c <= 57.
(** What follows a value inside a text. *)
Definition stops (r : chars) : Prop :=
  match r with [] => True | c :: _ => c = 44 ∨ c = 93 ∨ c = 125 ∨ c = 10 end.

Lemma span_digits_app ds r :
  Forall digit_code ds → match r with c :: _ => ¬ digit_code c | [] => True end →
  span_digits (ds ++ r) = (ds, r).
Proof.
  intros Hd Hr. induction Hd as [|c ds Hc _ IH]; cbn.
  - destruct r as [|c r]; [done|]. cbn. unfold digit_code in Hr.
    destruct (_ && _) eqn:E; [|done]. apply andb_true_iff in E. lia.
  - rewrite IH. unfold digit_code in Hc.
    by rewrite (proj2 (Z.leb_le 48 c)), (proj2 (Z.leb_le c 57)) by lia.
Qed.
Lemma span_digits_spec l ds r : span_digits l = (ds, r) → l = ds ++ r ∧ Forall digit_code ds.
Proof.
  revert ds r. induction l as [|c l IH]; intros ds r; cbn; [by intros [= <- <-]|].
  destruct (_ && _) eqn:E; [|by intros [= <- <-]].
  destruct (span_digits l) as [ds' r'] eqn:El. intros [= <- <-].
  destruct (IH _ _ eq_refl) as [-> H]. split; [done|]. constructor; [|done].
  apply andb_true_iff in E. unfold digit_code. lia.
Qed.
Lemma digits_value_snoc l c : digits_value (l ++ [c]) = digits_value l * 10 + (c - 48).
Proof. unfold digits_value. by rewrite fold_left_app. Qed.

Lemma codes_pretty_char (x : N) :
  (x < 10)%N → codes (String (pretty_N_char x) "") = [48 + Z.of_N x].
Proof.
  intros H. assert (∃ n, x = N.of_nat n ∧ (n < 10)%nat) as (n & -> & Hn) by (exists (N.to_nat x); lia).
  do 10 (destruct n as [|n]; [reflexivity|]). lia.
Qed.
Lemma pretty_digits (x : N) : ∀ s, (0 < x)%N →
  ∃ d ds, codes (pretty_N_go x s) = (d :: ds) ++ codes s ∧ d ≠ 48 ∧ Forall digit_code (d :: ds) ∧
    digits_value (d :: ds) = Z.of_N x.
Proof.
  induction (N.lt_wf_0 x) as [x _ IH]; intros s Hx. rewrite pretty_N_go_step by done.
  pose proof (N.div_mod x 10 ltac:(done)) as Hdm. pose proof (N.mod_lt x 10 ltac:(done)) as Hm.
  set (m := (x `mod` 10)%N) in *.
  assert (Hs : codes (String (pretty_N_char m) s) = [48 + Z.of_N m] ++ codes s)
    by (rewrite <- codes_pretty_char by done; by rewrite <- codes_app).
  destruct (decide (x < 10)%N) as [H10|H10].
  - rewrite N.div_small, pretty_N_go_0, Hs by done. rewrite N.div_small in Hdm by done.
    eexists _, []. split; [done|]. split_and!; [lia| |unfold digits_value; cbn; lia].
    constructor; [unfold digit_code; lia|constructor].
  - destruct (IH (x `div` 10)%N ltac:(apply N.div_lt; lia) (String (pretty_N_char m) s))
      as (d & ds & E & H48 & Hd & Hv); [apply N.div_str_pos; lia|].
    exists d, (ds ++ [48 + Z.of_N m]). rewrite E, Hs. split_and!.
    + cbn. by rewrite <- (assoc_L (++)).
    + done.
    + change (Forall digit_code ((d :: ds) ++ [48 + Z.of_N m])). apply Forall_app. split; [done|].
      constructor; [unfold digit_code; lia|constructor].
    + change (digits_value ((d :: ds) ++ [48 + Z.of_N m]) = Z.of_N x).
      rewrite digits_value_snoc, Hv. lia.
Qed.

(** The codes of a fraction and of an exponent, and when they are well formed. *)
Definition frac_codes (frac : option chars) : chars :=
  match frac with Some ds => 46 :: ds | None => [] end.
Definition exp_codes (exp : option (chars * chars)) : chars :=
  match exp with Some (e, _) => 101 :: e | None => [] end.
Definition frac_ok (frac : option chars) : Prop := ∀ ds, frac = Some ds → Forall digit_code ds.
Definition exp_ok (exp : option (chars * chars)) : Prop :=
  ∀ e ds, exp = Some (e, ds) → Forall digit_code ds ∧ (e = ds ∨ e = 43 :: ds ∨ e = 45 :: ds).

Lemma stops_not_digit r : stops r → match r with c :: _ => ¬ digit_code c | [] => True end.
Proof. destruct r; cbn; [done|]. unfold digit_code. lia. Qed.

(** A code that is none of the characters that open an exponent. *)
Lemma parse_exp_none l :
  match l with c :: _ => c ≠ 101 ∧ c ≠ 69 | [] => True end → parse_exp l = (None, l).
Proof. destruct l as [|c l]; [done|]. intros H. unfold parse_exp. repeat case_match; try done; lia. Qed.
Lemma parse_frac_none l : match l with c :: _ => c ≠ 46 | [] => True end → parse_frac l = (None, l).
Proof. destruct l as [|c l]; [done|]. intros H. unfold parse_frac. repeat case_match; try done; lia. Qed.

Lemma parse_exp_back exp r :
  exp_ok exp → (∀ e ds, exp = Some (e, ds) → ds ≠ []) → stops r → parse_exp (exp_codes exp ++ r) = (exp, r).
Proof.
  intros Ho Hn Hr. destruct exp as [[e ds]|]; cbn.
  - destruct (Ho e ds eq_refl) as [Hd He]. specialize (Hn e ds eq_refl).
    pose proof (span_digits_app ds r Hd (stops_not_digit r Hr)) as E.
    destruct He as [->|[->| ->]]; cbn [app]; [|by rewrite E..].
    destruct Hd as [|d ds Hd Hds]; [done|]. cbn [app] in E |- *. unfold digit_code in Hd.
    unfold parse_exp. destruct (decide (d = 43)); [lia|]. destruct (decide (d = 45)); [lia|].
    rewrite E. repeat case_match; try done; simplify_eq; lia.
  - apply parse_exp_none. destruct r; cbn in Hr; [done|]. lia.
Qed.
Lemma parse_frac_back frac exp r :
  frac_ok frac → stops r →
  parse_frac (frac_codes frac ++ exp_codes exp ++ r) = (frac, exp_codes exp ++ r).
Proof.
  intros Ho Hr. destruct frac as [ds|]; cbn.
  - rewrite span_digits_app; [done|by apply Ho|].
    destruct exp as [[e ds']|]; cbn; [unfold digit_code; lia|]. by apply stops_not_digit.
  - apply parse_frac_none. destruct exp as [[e ds']|]; cbn; [done|]. destruct r; cbn in Hr; [done|]. lia.
Qed.

Definition sign_codes (neg : bool) : chars := if neg then [45] else [].
Definition literal (neg : bool) (int : chars) (frac : option chars) (exp : option (chars * chars)) : chars :=
  sign_codes neg ++ int ++ frac_codes frac ++ exp_codes exp.

(** What a number literal can be. *)
Lemma number_Some neg int frac exp j :
  number neg int frac exp = Some j →
  int ≠ [] ∧ (∀ e ds, exp = Some (e, ds) → ds ≠ []) ∧
  (j = JFrac (of_codes (literal neg int frac exp)) ∨
   frac = None ∧ exp = None ∧ j = JNum (if neg then - digits_value int else digits_value int)).
Proof.
  unfold number. intros H. split; [by intros ->|].
  assert (∀ e ds, exp = Some (e, ds) → ds ≠ []) by (intros e ds -> ->; repeat case_match; done).
  split; [done|]. destruct frac as [[|d fs]|]; [|left|destruct exp as [[e [|d ds]]|]; [|left|by right; repeat case_match; simplify_eq]].
  all: repeat case_match; simplify_eq; try done.
Qed.

Lemma parse_unsigned_back neg int frac exp j r :
  number neg int frac exp = Some j → Forall digit_code int → frac_ok frac → exp_ok exp → stops r →
  parse_unsigned neg (int ++ frac_codes frac ++ exp_codes exp ++ r) = Some (j, r).
Proof.
  intros Hj Hi Hf He Hr. destruct (number_Some _ _ _ _ _ Hj) as (_ & Hn & _).
  unfold parse_unsigned. rewrite span_digits_app; [|done|].
  - by rewrite parse_frac_back, parse_exp_back, Hj.
  - destruct frac as [ds|]; cbn; [unfold digit_code; lia|].
    destruct exp as [[e ds]|]; cbn; [unfold digit_code; lia|]. by apply stops_not_digit.
Qed.
Lemma parse_num_literal neg int frac exp j r :
  number neg int frac exp = Some j → Forall digit_code int → frac_ok frac → exp_ok exp → stops r →
  parse_num (literal neg int frac exp ++ r) = Some (j, r).
Proof.
  intros Hj Hi Hf He Hr. pose proof (parse_unsigned_back neg int frac exp j r Hj Hi Hf He Hr) as E.
  unfold literal. rewrite <- !(assoc_L (++)). destruct neg; [exact E|]. cbn [sign_codes app].
  destruct (number_Some _ _ _ _ _ Hj) as (Hn & _). destruct Hi as [|d ds Hd _]; [done|].
  cbn [app] in E |- *. unfold parse_num, digit_code in *. repeat case_match; try done; simplify_eq; lia.
Qed.

(** A number literal that stays itself when it is parsed. *)
Definition frac_literal (lit : string) : Prop :=
  ∀ r, stops r → parse_num (codes lit ++ r) = Some (JFrac lit, r).

Lemma literal_bytes neg int frac exp :
  Forall digit_code int → frac_ok frac → exp_ok exp → Forall byte (literal neg int frac exp).
Proof.
  assert (Hd : ∀ ds, Forall digit_code ds → Forall byte ds)
    by (intros ds H; eapply Forall_impl; [exact H|]; unfold digit_code, byte; lia).
  assert (byte 43 ∧ byte 45 ∧ byte 46 ∧ byte 101) as (H1 & H2 & H3 & H4) by (unfold byte; lia).
  intros Hi Hf He. unfold literal. rewrite !Forall_app. split_and!; [by destruct neg; repeat constructor|by apply Hd| |].
  - destruct frac as [ds|]; constructor; [done|]. by apply Hd, Hf.
  - destruct exp as [[e ds]|]; constructor; [done|].
    destruct (He e ds eq_refl) as [Hs [->|[->| ->]]]; [|constructor; [done|]..]; by apply Hd.
Qed.
Lemma parse_unsigned_spec neg l j r :
  parse_unsigned neg l = Some (j, r) →
  ∃ int frac exp, Forall digit_code int ∧ frac_ok frac ∧ exp_ok exp ∧ number neg int frac exp = Some j.
Proof.
  unfold parse_unsigned. destruct (span_digits l) as [int l1] eqn:Ei.
  destruct (parse_frac l1) as [frac l2] eqn:Ef. destruct (parse_exp l2) as [exp l3] eqn:Ee.
  intros H. apply fmap_Some in H as (j' & Hj & [= -> ->]). exists int, frac, exp.
  apply span_digits_spec in Ei as [_ Hi]. split_and!; [done| | |done].
  - intros ds ->. unfold parse_frac in Ef. repeat case_match; simplify_eq.
    by eapply span_digits_spec.
  - intros e ds ->. unfold parse_exp in Ee.
    repeat case_match; simplify_eq;
      match goal with H : span_digits _ = _ |- _ => apply span_digits_spec in H as [_ H] end; split; auto.
Qed.
Lemma number_literal neg int frac exp lit :
  number neg int frac exp = Some (JFrac lit) → Forall digit_code int → frac_ok frac → exp_ok exp →
  frac_literal lit.
Proof.
  intros Hj Hi Hf He r' Hr'. destruct (number_Some _ _ _ _ _ Hj) as (_ & _ & [[= ->]|(_ & _ & ?)]); [|done].
  rewrite codes_of_codes by (by apply literal_bytes). by apply parse_num_literal.
Qed.

Lemma number_int neg d ds :
  d ≠ 48 ∨ ds = [] →
  number neg (d :: ds) None None =
    Some (JNum (if neg then - digits_value (d :: ds) else digits_value (d :: ds))).
Proof. intros H. unfold number. repeat case_match; try done; naive_solver lia. Qed.
Lemma parse_num_int n r : stops r → parse_num (codes (pretty n) ++ r) = Some (JNum n, r).
Proof.
  intros Hr.
  assert (He : ∀ (neg : bool) d ds, d ≠ 48 ∨ ds = [] → Forall digit_code (d :: ds) →
    parse_num ((sign_codes neg ++ d :: ds) ++ r) =
      Some (JNum (if neg then - digits_value (d :: ds) else digits_value (d :: ds)), r)).
  { intros neg d ds H Hd.
    pose proof (parse_num_literal neg (d :: ds) None None _ r (number_int neg d ds H) Hd) as E.
    unfold literal in E. cbn [frac_codes exp_codes app] in E. rewrite app_nil_r in E. by apply E. }
  assert (Hp : ∀ p : positive, ∃ d ds, codes (pretty (N.pos p)) = d :: ds ∧ d ≠ 48 ∧
    Forall digit_code (d :: ds) ∧ digits_value (d :: ds) = Z.pos p).
  { intros p. destruct (pretty_digits (N.pos p) "" ltac:(lia)) as (d & ds & E & H & Hd & Hv).
    exists d, ds. change (codes "") with (@nil Z) in E. rewrite app_nil_r in E. done. }
  destruct n as [|p|p].
  - apply (He false 48 []); [by right|]. constructor; [unfold digit_code; lia|constructor].
  - destruct (Hp p) as (d & ds & E & H & Hd & Hv). change (codes (pretty (Z.pos p))) with (codes (pretty (N.pos p))).
    rewrite E, <- Hv. apply (He false d ds); auto.
  - destruct (Hp p) as (d & ds & E & H & Hd & Hv).
    change (codes (pretty (Z.neg p))) with (codes ("-" +:+ pretty (N.pos p))).
    rewrite codes_app, E. change (Z.neg p) with (- Z.pos p). rewrite <- Hv. apply (He true d ds); auto.
Qed.

(** ** Values *)

(** A number starts with a sign or a digit. *)
Lemma parse_num_head l j r :
  parse_num l = Some (j, r) → ∃ c l', l = c :: l' ∧ (c = 45 ∨ ∃ n, c = 48 + Z.of_nat n ∧ (n < 10)%nat).
Proof.
  intros H. unfold parse_num in H. destruct l as [|c l]; [done|]. exists c, l. split; [done|].
  destruct (decide (c = 45)) as [->|Hn]; [by left|right].
  assert (is_Some (parse_unsigned false (c :: l))) as [x Hx]
    by (repeat case_match; simplify_eq; by eexists).
  unfold parse_unsigned in Hx. cbn [span_digits] in Hx. destruct (_ && _) eqn:E.
  - apply andb_true_iff in E. exists (Z.to_nat (c - 48)). lia.
  - destruct (parse_frac _) as [? l2]. destruct (parse_exp l2) as [? ?]. done.
Qed.
Lemma parse_value_num f l j r : parse_num l = Some (j, r) → parse_value (S f) l = Some (j, r).
Proof.
  intros H. destruct (parse_num_head l j r H) as (c & l' & -> & [->|(n & -> & Hn)]); [exact H|].
  do 10 (destruct n as [|n]; [exact H|]). lia.
Qed.

(** Induction on the nested values. *)
Lemma json_values_ind (P : json → Prop) :
  P JNull → (∀ b, P (JBool b)) → (∀ n, P (JNum n)) → (∀ lit, P (JFrac lit)) → (∀ s, P (JStr s)) →
  (∀ l, Forall P l → P (JArr l)) → (∀ l, Forall (λ kv : string * json, P kv.2) l → P (JObj l)) → ∀ j, P j.
Proof.
  intros Hnull Hbool Hnum Hfrac Hstr Harr Hobj. fix IH 1. intros [|b|n|lit|s|l|l]; [clear IH; auto..| |].
  - apply Harr. induction l as [|x l IHl]; constructor; [apply IH|exact IHl].
  - apply Hobj. induction l as [|[k x] l IHl]; constructor; [apply IH|exact IHl].
Qed.

(** [P] of a value and of everything inside it. *)
Fixpoint every (P : json → Prop) (j : json) : Prop :=
  P j ∧ match j with
        | JArr l => foldr (λ x Q, every P x ∧ Q) True l
        | JObj l => foldr (λ kv Q, every P kv.2 ∧ Q) True l
        | _ => True
        end.
Lemma every_arr P l : every P (JArr l) ↔ P (JArr l) ∧ Forall (every P) l.
Proof.
  cbn. apply and_iff_compat_l. induction l as [|x l IH]; cbn; [by split|]. by rewrite Forall_cons, IH.
Qed.
Lemma every_obj P l : every P (JObj l) ↔ P (JObj l) ∧ Forall (λ kv, every P kv.2) l.
Proof.
  cbn. apply and_iff_compat_l. induction l as [|x l IH]; cbn; [by split|]. by rewrite Forall_cons, IH.
Qed.

(** Number literals are well formed, and no object has a key twice. *)
Definition literal_ok (j : json) : Prop := match j with JFrac lit => frac_literal lit | _ => True end.
Definition keys_ok (j : json) : Prop := match j with JObj l => NoDup (map fst l) | _ => True end.

(** The first character of a printed value. *)
Definition opener (c : Z) : Prop := (∀ l, skip_ws (c :: l) = c :: l) ∧ c ≠ 93 ∧ c ≠ 125.
Lemma print_head j :
  every literal_ok j →
  ∃ c l, print_json j = c :: l ∧ opener c.
Proof.
  assert (Hnum : ∀ l j r, parse_num (l ++ []) = Some (j, r) →
    ∃ c l', l = c :: l' ∧ opener c).
  { intros l j' r H. rewrite app_nil_r in H. destruct (parse_num_head l j' r H) as (c & l' & -> & Hc).
    exists c, l'. split; [done|]. destruct Hc as [->|(n & -> & Hn)]; [done|].
    do 10 (destruct n as [|n]; [done|]). lia. }
  intros Hj. destruct j as [|[]|n|lit|s|l|l]; try (by eexists _, _).
  - by apply (Hnum _ (JNum n) []), parse_num_int.
  - apply (Hnum _ (JFrac lit) []). destruct Hj as [Hl _]. by apply Hl.
Qed.

(** ** What is printed is read back *)

Abbreviation commas l := (Json.join [44%Z] l).
Definition reads_back (j : json) : Prop :=
  ∀ f r, (2 * length (print_json j) <= f)%nat → stops r → parse_value f (print_json j ++ r) = Some (j, r).

Lemma parse_elems_back l : ∀ f r acc,
  l ≠ [] → Forall reads_back l → (2 * length (commas (map print_json l)) + 1 <= f)%nat →
  parse_elems f (commas (map print_json l) ++ 93 :: r) acc = Some (JArr (rev acc ++ l), r).
Proof.
  induction l as [|x l IH]; intros f r acc Hn Hl Hf; [done|]. apply Forall_cons in Hl as [Hx Hl].
  destruct f as [|f]; [lia|]. destruct l as [|y l].
  - change (commas (map print_json [x])) with (print_json x) in *. cbn [parse_elems]. rewrite Hx by (lia || by (cbn; lia)). done.
  - change (commas (map print_json (x :: y :: l)))
      with (print_json x ++ [44] ++ commas (map print_json (y :: l))) in *.
    rewrite !length_app in Hf. cbn [length] in Hf.
    rewrite <- !(assoc_L (++)). cbn [parse_elems]. rewrite Hx by (lia || by (cbn; lia)).
    cbn [app skip_ws]. rewrite IH by (done || lia). cbn [rev]. by rewrite <- (assoc_L (++)).
Qed.

Definition print_entry (kv : string * json) : chars := quote kv.1 ++ [58] ++ print_json kv.2.
Lemma parse_entry f k v rest acc :
  parse_entries (S f) (print_entry (k, v) ++ rest) acc =
  match parse_value f (print_json v ++ rest) with
  | None => None
  | Some (v, l3) =>
      match skip_ws l3 with
      | 44 :: l4 => parse_entries f l4 ((k, v) :: acc)
      | 125 :: l4 => Some (JObj (rev ((k, v) :: acc)), l4)
      | _ => None
      end
  end.
Proof.
  unfold print_entry, quote. rewrite <- !(assoc_L (++)). cbn [fst snd app].
  cbn [parse_entries skip_ws].
  by rewrite parse_quoted.
Qed.
Lemma parse_entries_back l : ∀ f r acc,
  l ≠ [] → Forall (λ kv, reads_back kv.2) l →
  (2 * length (commas (map print_entry l)) + 1 <= f)%nat →
  parse_entries f (commas (map print_entry l) ++ 125 :: r) acc = Some (JObj (rev acc ++ l), r).
Proof.
  induction l as [|[k v] l IH]; intros f r acc Hn Hl Hf; [done|].
  apply Forall_cons in Hl as [Hx Hl]. cbn [snd] in Hx. destruct f as [|f]; [lia|].
  assert (Hlen : (length (print_json v) <= length (print_entry (k, v)))%nat)
    by (unfold print_entry; cbn [fst snd]; rewrite !length_app; lia).
  destruct l as [|y l].
  - change (commas (map print_entry [(k, v)])) with (print_entry (k, v)) in *.
    rewrite parse_entry, Hx by (lia || by (cbn; lia)). done.
  - change (commas (map print_entry ((k, v) :: y :: l)))
      with (print_entry (k, v) ++ [44] ++ commas (map print_entry (y :: l))) in *.
    rewrite !length_app in Hf. cbn [length] in Hf.
    rewrite <- !(assoc_L (++)). rewrite parse_entry, Hx by (lia || by (cbn; lia)).
    cbn [app skip_ws]. rewrite IH by (done || lia). cbn [rev]. by rewrite <- (assoc_L (++)).
Qed.

Lemma print_parse j : every literal_ok j → reads_back j.
Proof.
  induction j as [|b|n|lit|s|l IH|l IH] using json_values_ind; intros Hj f r Hf Hr;
    (destruct f as [|f];
      [destruct (print_head _ Hj) as (? & ? & E & _); rewrite E in Hf; cbn in Hf; lia|]).
  - done.
  - by destruct b.
  - by apply parse_value_num, parse_num_int.
  - apply parse_value_num. destruct Hj as [Hl _]. by apply Hl.
  - cbn [print_json]. unfold quote. rewrite <- !(assoc_L (++)). cbn [app parse_value skip_ws].
    by rewrite parse_quoted.
  - apply every_arr in Hj as [_ Hj]. cbn [print_json] in *. rewrite !length_app in Hf. cbn [length] in Hf.
    destruct l as [|x l]; [done|].
    pose proof (Forall_inv Hj) as Hx. destruct (print_head x Hx) as (c & lx & E & Hw & H93 & _).
    assert (Hb : Forall reads_back (x :: l)).
    { apply Forall_forall. intros y Hy. rewrite Forall_forall in IH, Hj. auto. }
    rewrite <- !(assoc_L (++)). cbn [app parse_value skip_ws].
    assert (∃ lr, commas (map print_json (x :: l)) ++ 93 :: r = c :: lr) as [lr Elr]
      by (cbn [map]; rewrite E; destruct (map print_json l); cbn; by eexists).
    pose proof (parse_elems_back (x :: l) f r [] ltac:(done) Hb ltac:(lia)) as Hp. cbn [rev app] in Hp.
    rewrite Elr in Hp |- *.
    rewrite Hw. repeat case_match; simplify_eq; done.
  - apply every_obj in Hj as [_ Hj].
    change (print_json (JObj l)) with ([123] ++ commas (map print_entry l) ++ [125]) in *.
    rewrite !length_app in Hf. cbn [length] in Hf.
    destruct l as [|[k x] l]; [done|].
    assert (Hb : Forall (λ kv, reads_back kv.2) ((k, x) :: l)).
    { apply Forall_forall. intros y Hy. rewrite Forall_forall in IH, Hj. auto. }
    rewrite <- !(assoc_L (++)). cbn [app parse_value skip_ws].
    assert (∃ lr, commas (map print_entry ((k, x) :: l)) ++ 125 :: r = 34 :: lr) as [lr Elr]
      by (cbn [map]; destruct (map print_entry l); cbn; by eexists).
    pose proof (parse_entries_back ((k, x) :: l) f r [] ltac:(done) Hb ltac:(lia)) as Hp.
    cbn [rev app] in Hp. by rewrite Elr in Hp |- *.
Qed.

(** ** The entries an object keeps *)

Lemma obj_set_fresh k v l : k ∉ map fst l → obj_set k v l = l ++ [(k, v)].
Proof.
  induction l as [|[k' w] l IH]; [done|]. cbn. rewrite not_elem_of_cons. intros [Hk Hl].
  rewrite bool_decide_eq_false_2 by done. by rewrite IH.
Qed.
Lemma obj_set_keys k v l :
  map fst (obj_set k v l) = if bool_decide (k ∈ map fst l) then map fst l else map fst l ++ [k].
Proof.
  induction l as [|[k' w] l IH]; [done|]. cbn. destruct (decide (k = k')) as [->|Hk].
  - rewrite bool_decide_eq_true_2 by done. rewrite bool_decide_eq_true_2 by set_solver. done.
  - rewrite bool_decide_eq_false_2 by done. cbn. rewrite IH.
    destruct (decide (k ∈ map fst l)).
    + rewrite !bool_decide_eq_true_2 by set_solver. done.
    + rewrite !bool_decide_eq_false_2 by set_solver. done.
Qed.

Definition keep_entries (l acc : list (string * json)) : list (string * json) :=
  fold_left (λ acc kv, obj_set kv.1 (norm kv.2) acc) l acc.
Lemma keep_entries_distinct l : ∀ acc,
  NoDup (map fst acc ++ map fst l) → Forall (λ kv, norm kv.2 = kv.2) l → keep_entries l acc = acc ++ l.
Proof.
  induction l as [|[k v] l IH]; intros acc Hd Hn; [by rewrite app_nil_r|].
  apply Forall_cons in Hn as [Hv Hn]. cbn in Hv. unfold keep_entries. cbn. rewrite Hv.
  rewrite obj_set_fresh by (apply NoDup_app in Hd as (_ & Hd & _); intros H; apply (Hd k H); left).
  change (keep_entries l (acc ++ [(k, v)]) = acc ++ (k, v) :: l).
  rewrite IH; [by rewrite <- (assoc_L (++))| |done].
  rewrite map_app. cbn. by rewrite <- (assoc_L (++)).
Qed.
Lemma keep_entries_keys l : ∀ acc, NoDup (map fst acc) → NoDup (map fst (keep_entries l acc)).
Proof.
  induction l as [|[k v] l IH]; intros acc Hd; [done|]. apply (IH (obj_set k (norm v) acc)).
  rewrite obj_set_keys. case_bool_decide; [done|]. apply NoDup_app. split_and!; [done|set_solver|apply NoDup_singleton].
Qed.

Lemma norm_distinct j : every keys_ok j → norm j = j.
Proof.
  induction j as [|b|n|lit|s|l IH|l IH] using json_values_ind; intros Hj; try done.
  - apply every_arr in Hj as [_ Hj]. cbn. f_equal. rewrite <- (map_id l) at 2. apply map_ext_in.
    intros x Hx%list_elem_of_In. rewrite Forall_forall in IH, Hj. auto.
  - apply every_obj in Hj as [Hk Hj]. cbn. f_equal. apply (keep_entries_distinct l []); [done|].
    apply Forall_forall. intros kv Hkv. rewrite Forall_forall in IH, Hj. auto.
Qed.

(** Values that are themselves after being printed and parsed. *)
Definition wf_json (j : json) : Prop := every literal_ok j ∧ every keys_ok j.

Ltac bytes := repeat apply Forall_cons_2; try apply Forall_nil_2; unfold byte in *; try lia.
Lemma escape_bytes c : byte c → Forall byte (escape c).
Proof.
  intros Hc. destruct (escape_cases c Hc) as [(_ & _ & _ & ->)|[(n & -> & _ & Hu)|[H32 ->]]]; bytes.
  - revert Hu. unfold unescape. repeat case_match; done || lia.
  - unfold hex_char. pose proof (Z.div_lt_upper_bound c 16 2). pose proof (Z.div_pos c 16). case_match; lia.
  - unfold hex_char. pose proof (Z.mod_pos_bound c 16). case_match; lia.
Qed.
Lemma quote_bytes s : Forall byte (quote s).
Proof.
  unfold quote. rewrite !Forall_app. split_and!; [by bytes| |by bytes].
  pose proof (codes_bytes s) as H. induction H as [|c l Hc _ IH]; cbn; [constructor|].
  apply Forall_app. split; [by apply escape_bytes|done].
Qed.
Lemma join_bytes (l : list chars) : Forall (Forall byte) l → Forall byte (commas l).
Proof.
  induction 1 as [|x l Hx _ IH]; [constructor|]. destruct l as [|y l]; [done|].
  change (commas (x :: y :: l)) with (x ++ [44] ++ commas (y :: l)). rewrite !Forall_app.
  split_and!; [done|by bytes|done].
Qed.
Lemma print_bytes j : Forall byte (print_json j).
Proof.
  induction j as [|b|n|lit|s|l IH|l IH] using json_values_ind; cbn [print_json];
    try apply codes_bytes; try (destruct b; apply codes_bytes).
  - apply quote_bytes.
  - rewrite !Forall_app. split_and!; [by bytes| |by bytes]. apply join_bytes. by apply Forall_map.
  - rewrite !Forall_app. split_and!; [by bytes| |by bytes]. apply join_bytes, Forall_map.
    eapply Forall_impl; [exact IH|]. intros kv Hv. change (Forall byte (quote kv.1 ++ [58] ++ print_json kv.2)). rewrite !Forall_app.
    split_and!; [apply quote_bytes|by bytes|done].
Qed.

Lemma json_roundtrip j : wf_json j → JSON_parse (JSON_stringify j) = Some j.
Proof.
  intros [Hl Hk]. unfold JSON_parse, JSON_stringify. rewrite codes_of_codes by apply print_bytes.
  pose proof (print_parse j Hl (S (2 * length (print_json j))) [] ltac:(lia) I) as E.
  rewrite app_nil_r in E. rewrite E. cbn [skip_ws]. by rewrite norm_distinct.
Qed.

(** ** What is parsed is such a value *)

Lemma parse_unsigned_literals neg l j r : parse_unsigned neg l = Some (j, r) → every literal_ok j.
Proof.
  intros E. pose proof E as (int & frac & exp & Hi & Hf & He & Hj)%parse_unsigned_spec.
  destruct (number_Some _ _ _ _ _ Hj) as (_ & _ & [->|(_ & _ & ->)]); [|done].
  split; [|done]. by eapply number_literal.
Qed.
Lemma parse_literals f :
  (∀ l j r, parse_value f l = Some (j, r) → every literal_ok j) ∧
  (∀ l acc j r, Forall (every literal_ok) acc → parse_elems f l acc = Some (j, r) → every literal_ok j) ∧
  (∀ l acc j r, Forall (λ kv, every literal_ok kv.2) acc → parse_entries f l acc = Some (j, r) →
    every literal_ok j).
Proof.
  induction f as [|f (IHv & IHe & IHo)]; [done|]. split_and!.
  - intros l j r H. cbn [parse_value] in H.
    repeat case_match; simplify_eq/=; try done;
      try (apply fmap_Some in H as (r' & _ & [= -> _]); done);
      first [by repeat case_match; eapply parse_unsigned_literals | by eapply IHe; [apply Forall_nil_2|]
            | by eapply IHo; [apply Forall_nil_2|]].
  - intros l acc j r Ha H. cbn [parse_elems] in H.
    destruct (parse_value f l) as [[v l1]|] eqn:Ev; [|done].
    assert (Hva : Forall (every literal_ok) (v :: acc)) by (constructor; [by eapply IHv|done]).
    assert (every literal_ok (JArr (rev (v :: acc)))).
    { apply every_arr. split; [done|]. apply Forall_forall. intros x Hx.
      rewrite Forall_forall in Hva. apply Hva. apply list_elem_of_In, in_rev. by apply list_elem_of_In. }
    repeat case_match; simplify_eq; first [done | by eapply IHe].
  - intros l acc j r Ha H. cbn [parse_entries] in H.
    destruct (skip_ws l) as [|c l0]; [done|]. destruct (decide (c = 34)) as [->|]; [|by repeat case_match].
    destruct (parse_str _ _ _) as [[k l1]|]; [|done].
    destruct (skip_ws l1) as [|c l2]; [done|]. destruct (decide (c = 58)) as [->|]; [|by repeat case_match].
    destruct (parse_value f l2) as [[v l3]|] eqn:Ev; [|done].
    assert (Hva : Forall (λ kv, every literal_ok kv.2) ((k, v) :: acc)) by (constructor; [by eapply IHv|done]).
    assert (every literal_ok (JObj (rev ((k, v) :: acc)))).
    { apply every_obj. split; [done|]. apply Forall_forall. intros x Hx.
      rewrite Forall_forall in Hva. apply Hva. apply list_elem_of_In, in_rev. by apply list_elem_of_In. }
    repeat case_match; simplify_eq; first [done | by eapply IHo].
Qed.

(** An object built from entries has each key once. *)
Lemma norm_wf j : every literal_ok j → wf_json (norm j).
Proof.
  induction j as [|b|n|lit|s|l IH|l IH] using json_values_ind; intros Hj; try (split; done).
  - apply every_arr in Hj as [_ Hj]. cbn.
    assert (Forall wf_json (map norm l)) as Hw.
    { apply Forall_map, Forall_forall. intros x Hx. rewrite Forall_forall in IH, Hj. auto. }
    split; apply every_arr; (split; [done|]); eapply Forall_impl; [exact Hw|by intros ? []|exact Hw|by intros ? []].
  - apply every_obj in Hj as [_ Hj]. cbn [norm]. change (wf_json (JObj (keep_entries l []))).
    assert (∀ acc, Forall (λ kv, wf_json kv.2) acc → Forall (λ kv, wf_json kv.2) (keep_entries l acc)) as Hw.
    { clear - IH Hj. induction l as [|[k v] l IHl]; intros acc Ha; [done|].
      apply Forall_cons in IH as [Hv IH], Hj as [Hj1 Hj]. apply (IHl IH Hj (obj_set k (norm v) acc)).
      specialize (Hv Hj1). cbn in Hv. clear - Hv Ha. induction Ha as [|[k' w] acc Hw Ha IH]; cbn.
      - by constructor.
      - case_bool_decide; by constructor. }
    specialize (Hw [] ltac:(constructor)).
    split; apply every_obj; (split; [first [done | by apply (keep_entries_keys l []), NoDup_nil_2]|]);
      (eapply Forall_impl; [exact Hw|by intros ? []]).
Qed.
Lemma parsed_wf s j : JSON_parse s = Some j → wf_json j.
Proof.
  unfold JSON_parse. intros H. destruct (parse_value _ _) as [[v r]|] eqn:E; [|done].
  destruct (skip_ws r); simplify_eq. eapply norm_wf, (proj1 (parse_literals _)), E.
Qed.

(** Printing what was parsed gives a text that is parsed alike. *)
Lemma reprint_parse s j : JSON_parse s = Some j → JSON_parse (JSON_stringify j) = Some j.
Proof. intros H. by eapply json_roundtrip, parsed_wf. Qed.
