(* ===== verification/SafeText.v ===== *)
(** * Texts that cannot change how a card reads

    The character class of SAFE_TEXT_RE (src/modules/self-mod/request.ts) and of
    DISPLAY_NAME_RE (src/modules/agent-to-agent/create-agent.ts), and the other
    patterns of the requests an agent may make.  A regular expression with the
    [u] flag works on code points; the categories Cc, Cf, Zl and Zp are those of
    Unicode 15. *)
From S2P Require Import Prelude JsString.
From Stdlib Require Import Ascii.

Local Open Scope string_scope.
Local Open Scope Z_scope.
Local Open Scope list_scope.

Definition byte (c : ascii) : Z := Z.of_nat (nat_of_ascii c).
Definition bytes (s : string) : list Z := map byte (String.list_ascii_of_string s).

(** The code points of a text kept in UTF-8; [k] bytes of one are still to come,
    and [acc] has the bits of those before.  A byte out of place is U+FFFD. *)
Definition continues (b : Z) : bool := (128 <=? b) && (b <? 192).
Fixpoint points (k : nat) (acc : Z) (l : list Z) : list Z :=
  match l with
  | [] => match k with O => [] | _ => [0xFFFD] end
  | b :: l' =>
      if continues b then
        match k with
        | O => 0xFFFD :: points 0 0 l'
        | 1%nat => Z.lor (Z.shiftl acc 6) (Z.land b 63) :: points 0 0 l'
        | S k' => points k' (Z.lor (Z.shiftl acc 6) (Z.land b 63)) l'
        end
      else
        (match k with O => [] | _ => [0xFFFD] end) ++
        (if b <? 128 then b :: points 0 0 l'
         else if b <? 224 then points 1 (Z.land b 31) l'
         else if b <? 240 then points 2 (Z.land b 15) l'
         else points 3 (Z.land b 7) l')
  end.
Definition code_points : list Z → list Z := points 0 0.

Definition in_range (n : Z) (r : Z * Z) : bool := (r.1 <=? n) && (n <=? r.2).

(** [\p{Cc}], and [\p{Cf}] with [\p{Zl}] and [\p{Zp}] (U+2028, U+2029). *)
Definition control_ranges : list (Z * Z) := [(0, 31); (127, 159)].
Definition format_ranges : list (Z * Z) :=
  [(173, 173); (0x600, 0x605); (0x61C, 0x61C); (0x6DD, 0x6DD); (0x70F, 0x70F); (0x890, 0x891);
   (0x8E2, 0x8E2); (0x180E, 0x180E); (0x200B, 0x200F); (0x2028, 0x2029); (0x202A, 0x202E);
   (0x2060, 0x2064); (0x2066, 0x206F); (0xFEFF, 0xFEFF); (0xFFF9, 0xFFFB); (0x110BD, 0x110BD);
   (0x110CD, 0x110CD); (0x13430, 0x1343F); (0x1BCA0, 0x1BCA3); (0x1D173, 0x1D17A);
   (0xE0001, 0xE0001); (0xE0020, 0xE007F)].

(** [[^\p{Cc}\p{Cf}\p{Zl}\p{Zp}`\\]] *)
Definition safe_point (n : Z) : bool :=
  negb (existsb (in_range n) control_ranges) && negb (existsb (in_range n) format_ranges) &&
  negb (n =? 96) && negb (n =? 92).

(*@ src/src/modules/self-mod/request.ts 91-91 SAFE_TEXT_RE *)
Definition SAFE_TEXT_RE (s : string) : bool := forallb safe_point (code_points (bytes s)).
(*@ src/src/modules/agent-to-agent/create-agent.ts 30-30 DISPLAY_NAME_RE *)
Definition DISPLAY_NAME_RE (s : string) : bool :=
  let l := code_points (bytes s) in
  (1 <=? length l)%nat && (length l <=? 64)%nat && forallb safe_point l.

(** ** Names *)

Definition lower (n : Z) : bool := in_range n (97, 122).
Definition upper (n : Z) : bool := in_range n (65, 90).
Definition num (n : Z) : bool := in_range n (48, 57).
Definition one_of (s : string) (n : Z) : bool := existsb (Z.eqb n) (bytes s).

(** [^ first rest{0,max} $]; without a bound for [None]. *)
Definition name_like (first rest : Z → bool) (max : option nat) (l : list Z) : bool :=
  match l with
  | c :: l' => first c && forallb rest l' && match max with Some m => (length l' <=? m)%nat | None => true end
  | [] => false
  end.

(*@ src/src/modules/self-mod/request.ts 51-51 APT_RE *)
Definition APT_RE (s : string) : bool :=
  name_like (λ n, lower n || num n) (λ n, lower n || num n || one_of "._+-" n) None (bytes s).

(** The scope is a name of its own, between [@] and [/]. *)
Definition npm_name : list Z → bool :=
  name_like (λ n, lower n || num n) (λ n, lower n || num n || one_of "._-" n) None.
Fixpoint cut_at (c : Z) (l : list Z) : option (list Z * list Z) :=
  match l with
  | [] => None
  | b :: l' => if b =? c then Some ([], l') else option_map (λ p, (b :: p.1, p.2)) (cut_at c l')
  end.
(*@ src/src/modules/self-mod/request.ts 52-52 NPM_RE *)
Definition NPM_RE (s : string) : bool :=
  match bytes s with
  | 64 :: l => match cut_at 47 l with Some (scope, name) => npm_name scope && npm_name name | None => false end
  | l => npm_name l
  end.

(*@ src/src/modules/self-mod/request.ts 55-55 MCP_NAME_RE *)
Definition MCP_NAME_RE (s : string) : bool :=
  name_like (λ n, upper n || lower n || num n) (λ n, upper n || lower n || num n || one_of "._-" n)
    (Some 63%nat) (bytes s).
(*@ src/src/modules/self-mod/request.ts 56-56 ENV_KEY_RE *)
Definition ENV_KEY_RE (s : string) : bool :=
  name_like (λ n, upper n || lower n || (n =? 95)) (λ n, upper n || lower n || num n || (n =? 95))
    (Some 63%nat) (bytes s).

Example names_ex :
  APT_RE "libfoo-dev" = true ∧ APT_RE "-o" = false ∧ NPM_RE "@scope/pkg" = true ∧ NPM_RE "a/b" = false ∧
  MCP_NAME_RE "github" = true ∧ ENV_KEY_RE "1X" = false ∧ SAFE_TEXT_RE "a`b" = false.
Proof. vm_compute. repeat split. Qed.

(** ** Single bytes *)

(** A byte below 128 is a code point of its own. *)
Lemma points_ascii b : 0 ≤ b < 128 → ∀ l k acc, b ∈ l → b ∈ points k acc l.
Proof.
  intros Hr. assert (continues b = false) as Hc
    by (unfold continues; by rewrite (proj2 (Z.leb_gt _ _)) by lia).
  induction l as [|b0 l IH]; intros k acc H; [by apply elem_of_nil in H|]. cbn [points].
  apply elem_of_cons in H as [<-|H].
  - rewrite Hc, (proj2 (Z.ltb_lt _ _)) by lia. apply elem_of_app. right. left.
  - destruct (continues b0).
    + destruct k as [|[|k]]; [right; auto..|auto].
    + apply elem_of_app. right. repeat case_match; [right|..]; auto.
Qed.
(** A safe text has no byte that is a control character, a backtick or a
    backslash. *)
Lemma safe_text_bytes s b :
  SAFE_TEXT_RE s = true → b ∈ bytes s → 32 ≤ b ∧ b ≠ 127 ∧ b ≠ 96 ∧ b ≠ 92.
Proof.
  intros H Hb. assert (0 ≤ b) as Hp.
  { unfold bytes in Hb. apply list_elem_of_fmap in Hb as (c & -> & _). unfold byte. lia. }
  destruct (decide (b < 128)) as [Hl|]; [|lia].
  unfold SAFE_TEXT_RE in H. rewrite forallb_forall in H.
  specialize (H b ltac:(by apply list_elem_of_In, points_ascii)).
  unfold safe_point, control_ranges, in_range in H. cbn [existsb fst snd] in H. lia.
Qed.
