(* ===== verification/JsonIndent.v ===== *)
(** * [JSON.stringify(v, null, 2)]

    The indented text of a value, and that it is read back as the value. *)
From S2P Require Import Prelude JsString Json JsonProofs.

Local Open Scope Z_scope.
Local Open Scope list_scope.

(** A new line, indented for [n] levels. *)
Definition newline (n : nat) : chars := 10 :: repeat 32 (2 * n).

Fixpoint print_indent (n : nat) (j : json) : chars :=
  match j with
  | JArr ((_ :: _) as l) =>
      [91] ++ newline (S n) ++ Json.join (44 :: newline (S n)) (map (print_indent (S n)) l) ++ newline n ++ [93]
  | JObj ((_ :: _) as l) =>
      [123] ++ newline (S n) ++
      Json.join (44 :: newline (S n)) (map (λ kv, quote kv.1 ++ [58; 32] ++ print_indent (S n) kv.2) l) ++
      newline n ++ [125]
  | _ => print_json j
  end.
Definition JSON_stringify_indent (j : json) : string := of_codes (print_indent 0 j).

Example indent_ex :
  let v := JObj [("a", JArr [JNum 1; JStr "x"]); ("b", JObj [])]%string in
  JSON_parse (JSON_stringify_indent v) = Some v ∧ String.length (JSON_stringify_indent v) = 42%nat.
Proof. vm_compute. done. Qed.

(** ** What is printed is read back *)

Lemma skip_newline n l : skip_ws (newline n ++ l) = skip_ws l.
Proof. unfold newline. cbn [app skip_ws]. generalize (2 * n)%nat. intros k. by induction k. Qed.
Lemma parse_value_newline f n l : parse_value f (newline n ++ l) = parse_value f l.
Proof. destruct f as [|f]; [done|]. cbn [parse_value]. by rewrite skip_newline. Qed.
Lemma parse_elems_newline f n l acc : parse_elems f (newline n ++ l) acc = parse_elems f l acc.
Proof. destruct f as [|f]; [done|]. cbn [parse_elems]. by rewrite parse_value_newline. Qed.
Lemma parse_entries_newline f n l acc : parse_entries f (newline n ++ l) acc = parse_entries f l acc.
Proof. destruct f as [|f]; [done|]. cbn [parse_entries]. by rewrite skip_newline. Qed.
Lemma stops_newline n r : stops (newline n ++ r).
Proof. right. right. by right. Qed.

(** As long as the compact text, the indented one opens like it. *)
Lemma indent_head n j : every literal_ok j → ∃ c l, print_indent n j = c :: l ∧ opener c.
Proof.
  intros Hj. destruct (print_head j Hj) as (c & l & E & Ho).
  destruct j as [| | | | |[|x l']|[|x l']]; try (by exists c, l); eexists _, _; (split; [reflexivity|done]).
Qed.

Definition indents_back (n : nat) (j : json) : Prop :=
  ∀ f r, (2 * length (print_indent n j) <= f)%nat → stops r → parse_value f (print_indent n j ++ r) = Some (j, r).

Abbreviation rows n l := (Json.join (44 :: newline n) l).
Lemma rows_cons n (x : chars) l : l ≠ [] → rows n (x :: l) = x ++ 44 :: newline n ++ rows n l.
Proof. by destruct l. Qed.

Lemma elems_back n l : ∀ f r acc,
  l ≠ [] → Forall (indents_back (S n)) l → (2 * length (rows (S n) (map (print_indent (S n)) l)) + 1 <= f)%nat →
  parse_elems f (rows (S n) (map (print_indent (S n)) l) ++ newline n ++ 93 :: r) acc = Some (JArr (rev acc ++ l), r).
Proof.
  induction l as [|x l IH]; intros f r acc Hn Hl Hf; [done|]. apply Forall_cons in Hl as [Hx Hl].
  destruct f as [|f]; [lia|]. destruct l as [|y l].
  - cbn [map Json.join parse_elems] in *. rewrite Hx by (lia || apply stops_newline). by rewrite skip_newline.
  - rewrite (map_cons _ _ (y :: l)), rows_cons in Hf |- * by done. rewrite length_app, length_cons, length_app in Hf.
    rewrite <-(assoc_L (++)). cbn [parse_elems app]. rewrite Hx by (lia || by left). cbn [skip_ws].
    rewrite <-(assoc_L (++)), parse_elems_newline, IH by (done || lia). cbn [rev]. by rewrite <-(assoc_L (++)).
Qed.

Definition entry_indent (n : nat) (kv : string * json) : chars := quote kv.1 ++ [58; 32] ++ print_indent n kv.2.
Lemma parse_entry_indent f n k v rest acc :
  parse_entries (S f) (entry_indent n (k, v) ++ rest) acc =
  match parse_value f (print_indent n v ++ rest) with
  | None => None
  | Some (v, l3) =>
      match skip_ws l3 with
      | 44 :: l4 => parse_entries f l4 ((k, v) :: acc)
      | 125 :: l4 => Some (JObj (rev ((k, v) :: acc)), l4)
      | _ => None
      end
  end.
Proof.
  unfold entry_indent, quote. rewrite <-!(assoc_L (++)). cbn [fst snd app]. cbn [parse_entries skip_ws].
  rewrite parse_quoted. cbn [skip_ws].
  assert (∀ l, parse_value f (32 :: l) = parse_value f l) as -> by (by destruct f). done.
Qed.
Lemma entries_back n l : ∀ f r acc,
  l ≠ [] → Forall (λ kv, indents_back (S n) kv.2) l →
  (2 * length (rows (S n) (map (entry_indent (S n)) l)) + 1 <= f)%nat →
  parse_entries f (rows (S n) (map (entry_indent (S n)) l) ++ newline n ++ 125 :: r) acc = Some (JObj (rev acc ++ l), r).
Proof.
  induction l as [|[k v] l IH]; intros f r acc Hn Hl Hf; [done|].
  apply Forall_cons in Hl as [Hx Hl]. cbn [snd] in Hx. destruct f as [|f]; [lia|].
  assert (Hlen : (length (print_indent (S n) v) <= length (entry_indent (S n) (k, v)))%nat)
    by (unfold entry_indent; cbn [fst snd]; rewrite !length_app; lia).
  destruct l as [|y l].
  - cbn [map Json.join] in *. rewrite parse_entry_indent, Hx by (lia || apply stops_newline). by rewrite skip_newline.
  - rewrite (map_cons _ _ (y :: l)), rows_cons in Hf |- * by done. rewrite length_app, length_cons, length_app in Hf.
    rewrite <-(assoc_L (++)), parse_entry_indent. cbn [app]. rewrite Hx by (lia || by left). cbn [skip_ws].
    rewrite <-(assoc_L (++)), parse_entries_newline, IH by (done || lia). cbn [rev]. by rewrite <-(assoc_L (++)).
Qed.

Lemma indent_parse j : every literal_ok j → ∀ n, indents_back n j.
Proof.
  induction j as [|b|m|lit|s|l IH|l IH] using json_values_ind; intros Hj n; try exact (print_parse _ Hj).
  - destruct l as [|x l]; [exact (print_parse _ Hj)|]. intros f r Hf Hr.
    apply every_arr in Hj as [_ Hj]. destruct (indent_head (S n) x (Forall_inv Hj)) as (c & lx & E & Hw & H93 & _).
    change (print_indent n (JArr (x :: l))) with
      ([91] ++ newline (S n) ++ rows (S n) (map (print_indent (S n)) (x :: l)) ++ newline n ++ [93]) in *.
    rewrite !length_app in Hf. cbn [length] in Hf. destruct f as [|f]; [lia|].
    rewrite <-!(assoc_L (++)). cbn [app parse_value skip_ws]. rewrite skip_newline.
    assert (Hb : Forall (indents_back (S n)) (x :: l)).
    { apply Forall_forall. intros y Hy. rewrite Forall_forall in IH, Hj. auto. }
    pose proof (elems_back n (x :: l) f r [] ltac:(done) Hb ltac:(lia)) as Hp. cbn [rev app] in Hp.
    rewrite <-(parse_elems_newline f (S n)) in Hp.
    assert (∃ lr, rows (S n) (map (print_indent (S n)) (x :: l)) ++ newline n ++ 93 :: r = c :: lr) as [lr Elr]
      by (cbn [map]; rewrite E; destruct (map (print_indent (S n)) l); cbn; by eexists).
    rewrite Elr in Hp |- *. rewrite Hw. repeat case_match; simplify_eq; done.
  - destruct l as [|[k x] l]; [exact (print_parse _ Hj)|]. intros f r Hf Hr. apply every_obj in Hj as [_ Hj].
    change (print_indent n (JObj ((k, x) :: l))) with
      ([123] ++ newline (S n) ++ rows (S n) (map (entry_indent (S n)) ((k, x) :: l)) ++ newline n ++ [125]) in *.
    rewrite !length_app in Hf. cbn [length] in Hf. destruct f as [|f]; [lia|].
    rewrite <-!(assoc_L (++)). cbn [app parse_value skip_ws]. rewrite skip_newline.
    assert (Hb : Forall (λ kv, indents_back (S n) kv.2) ((k, x) :: l)).
    { apply Forall_forall. intros y Hy. rewrite Forall_forall in IH, Hj. auto. }
    pose proof (entries_back n ((k, x) :: l) f r [] ltac:(done) Hb ltac:(lia)) as Hp. cbn [rev app] in Hp.
    rewrite <-(parse_entries_newline f (S n)) in Hp.
    assert (∃ lr, rows (S n) (map (entry_indent (S n)) ((k, x) :: l)) ++ newline n ++ 125 :: r = 34 :: lr) as [lr Elr]
      by (cbn [map]; destruct (map (entry_indent (S n)) l); cbn; by eexists).
    by rewrite Elr in Hp |- *.
Qed.

Lemma newline_bytes n : Forall byte (newline n).
Proof.
  constructor; [unfold byte; lia|]. apply Forall_forall. intros b Hb%list_elem_of_In%repeat_spec. subst. unfold byte. lia.
Qed.
Lemma rows_bytes n l : Forall (Forall byte) l → Forall byte (rows n l).
Proof.
  induction 1 as [|x l Hx _ IH]; [constructor|]. destruct l as [|y l]; [done|].
  rewrite rows_cons by done. rewrite Forall_app. split; [done|]. constructor; [unfold byte; lia|].
  apply Forall_app. split; [apply newline_bytes|done].
Qed.
Lemma indent_bytes j : ∀ n, Forall byte (print_indent n j).
Proof.
  assert (∀ c, c ∈ [91; 93; 123; 125; 58; 32] → byte c) as Hc by (intros c H; unfold byte; set_unfold in H; lia).
  induction j as [|b|m|lit|s|l IH|l IH] using json_values_ind; intros n; try (apply print_bytes).
  - destruct l as [|x l]; [apply print_bytes|]. cbn [print_indent]. rewrite !Forall_app.
    split_and!; try apply newline_bytes; try (constructor; [apply Hc; set_solver|constructor]).
    apply rows_bytes, Forall_map. eapply Forall_impl; [exact IH|]. intros y Hy. apply Hy.
  - destruct l as [|x l]; [apply print_bytes|]. cbn [print_indent]. rewrite !Forall_app.
    split_and!; try apply newline_bytes; try (constructor; [apply Hc; set_solver|constructor]).
    apply rows_bytes, Forall_map. eapply Forall_impl; [exact IH|]. intros [k y] Hy.
    change (Forall byte (quote k ++ [58; 32] ++ print_indent (S n) y)). rewrite !Forall_app.
    split_and!; [apply quote_bytes| |apply Hy]. repeat (constructor; [apply Hc; set_solver|]). constructor.
Qed.

Lemma indent_line_roundtrip j :
  wf_json j → JSON_parse (JSON_stringify_indent j +:+ String (Ascii.ascii_of_nat 10) EmptyString) = Some j.
Proof.
  intros [Hl Hk]. unfold JSON_parse, JSON_stringify_indent. rewrite codes_app, codes_of_codes by apply indent_bytes.
  assert (codes (String (Ascii.ascii_of_nat 10) EmptyString) = [10]) as -> by done. rewrite length_app. cbn [length].
  rewrite (indent_parse j Hl 0 (S (2 * (length (print_indent 0 j) + 1))) [10] ltac:(lia) (or_intror (or_intror (or_intror eq_refl)))).
  cbn [skip_ws]. by rewrite norm_distinct.
Qed.
Lemma indent_roundtrip j : wf_json j → JSON_parse (JSON_stringify_indent j) = Some j.
Proof.
  intros [Hl Hk]. unfold JSON_parse, JSON_stringify_indent. rewrite codes_of_codes by apply indent_bytes.
  pose proof (indent_parse j Hl 0 (S (2 * length (print_indent 0 j))) [] ltac:(lia) I) as E.
  rewrite app_nil_r in E. rewrite E. cbn [skip_ws]. by rewrite norm_distinct.
Qed.
