(* ===== verification/Events.v ===== *)
(** * What reaches the host from a chat channel (src/channels/adapter.ts,
    src/response-registry.ts)

    The event of a message and the payload of a click.  An event is persisted
    as its JSON text, in the ledger of arrivals and with a pending approval,
    and parsed again when it is replayed. *)
From S2P Require Import Prelude JsString Json.

Local Open Scope string_scope.
Local Open Scope list_scope.

(*@ src/src/channels/adapter.ts 28-33 DeliveryAddress *)
Record DeliveryAddress := mkAddress {
  to_channelType : string;
  to_platformId : string;
  to_threadId : option string }.

(** The fields of [message] are part of the record. *)
(*@ src/src/channels/adapter.ts 45-63 InboundEvent *)
Record InboundEvent := mkInboundEvent {
  ev_channelType : string;
  ev_platformId : string;
  ev_threadId : option string;
  ev_id : string;
  ev_kind : string;
  ev_content : string;
  ev_timestamp : string;
  ev_isMention : option bool;
  ev_isGroup : option bool;
  ev_replyTo : option DeliveryAddress }.

(** The event with its thread collapsed to the channel. *)
Definition without_thread (e : InboundEvent) : InboundEvent :=
  mkInboundEvent (ev_channelType e) (ev_platformId e) None (ev_id e) (ev_kind e) (ev_content e)
    (ev_timestamp e) (ev_isMention e) (ev_isGroup e) (ev_replyTo e).

(** What the host asks of a channel adapter, beside delivery. *)
(*@ src/src/channels/adapter.ts 110-177 ChannelAdapter *)
Record ChannelAdapter := mkChannelAdapter {
  ca_supportsThreads : bool;
  ca_subscribe : bool;
  ca_openDM : bool;
  ca_resolveChannelName : bool }.

(*@ src/src/response-registry.ts 15-22 ResponsePayload *)
Record ResponsePayload := mkResponse {
  rp_questionId : string;
  rp_value : string;
  rp_userId : option string;
  rp_channelType : string;
  rp_platformId : string;
  rp_threadId : option string }.

(** ** The stored form of an event *)

Definition jentry (k : string) (o : option bool) : list (string * json) :=
  match o with Some b => [(k, JBool b)] | None => [] end.

(** [JSON.stringify(event)]; a property that is [undefined] is left out. *)
Definition event_json (e : InboundEvent) : json :=
  JObj ([("channelType", JStr (ev_channelType e)); ("platformId", JStr (ev_platformId e));
         ("threadId", jopt (ev_threadId e));
         ("message", JObj ([("id", JStr (ev_id e)); ("kind", JStr (ev_kind e));
                            ("content", JStr (ev_content e)); ("timestamp", JStr (ev_timestamp e))] ++
                           jentry "isMention" (ev_isMention e) ++ jentry "isGroup" (ev_isGroup e)))] ++
        match ev_replyTo e with
        | Some a => [("replyTo", JObj [("channelType", JStr (to_channelType a));
                                       ("platformId", JStr (to_platformId a));
                                       ("threadId", jopt (to_threadId a))])]
        | None => []
        end).

Definition json_text (v : option json) : option (option string) :=
  match v with Some JNull => Some None | Some (JStr s) => Some (Some s) | _ => None end.
Definition json_flag (v : option json) : option bool :=
  match v with Some (JBool b) => Some b | _ => None end.
Definition json_address (v : option json) : option DeliveryAddress :=
  match v with
  | Some (JObj l) =>
      match jstring (obj_get "channelType" l), jstring (obj_get "platformId" l),
            json_text (obj_get "threadId" l) with
      | Some c, Some p, Some t => Some (mkAddress c p t)
      | _, _, _ => None
      end
  | _ => None
  end.

(** The value a replay reads as an event: the host itself wrote the text, so
    only the shapes of [event_json] occur. *)
Definition json_event (j : json) : option InboundEvent :=
  match j with
  | JObj l =>
      match jstring (obj_get "channelType" l), jstring (obj_get "platformId" l),
            json_text (obj_get "threadId" l), obj_get "message" l with
      | Some c, Some p, Some t, Some (JObj m) =>
          match jstring (obj_get "id" m), jstring (obj_get "kind" m),
                jstring (obj_get "content" m), jstring (obj_get "timestamp" m) with
          | Some id, Some kind, Some content, Some ts =>
              Some (mkInboundEvent c p t id kind content ts (json_flag (obj_get "isMention" m))
                      (json_flag (obj_get "isGroup" m)) (json_address (obj_get "replyTo" l)))
          | _, _, _, _ => None
          end
      | _, _, _, _ => None
      end
  | _ => None
  end.

Definition store_event (e : InboundEvent) : string := JSON_stringify (event_json e).
Definition load_event (text : string) : option InboundEvent :=
  match JSON_parse text with Some j => json_event j | None => None end.

(** The value that is stored is the event. *)
Lemma json_event_json e : json_event (event_json e) = Some e.
Proof. by destruct e as [c p [t|] id k co ts [m|] [g|] [[rc rp [rt|]]|]]. Qed.
