(* ===== verification/Central.v ===== *)
(** * The central database v2.db (src/db/schema.ts, src/db/connection.ts)

    One field per table the modelled code reads or writes, as the list of its
    rows in scan order.  A read is a function of the database, a write is a
    program over it.  better-sqlite3 is synchronous, so each statement runs on
    its own; [now] is the [Date.now()] of the call.  [PRAGMA foreign_keys = ON]
    is in force, and every constraint a write can hit is a [Throw]. *)
From S2P Require Import Prelude JsString Json Types.

Local Open Scope string_scope.
Local Open Scope Z_scope.
Local Open Scope list_scope.

(** What the code throws: [new Error(msg)], or better-sqlite3's constraint
    error, a JavaScript [RangeError] or [TypeError], or the [ReserveAbort] of
    src/db/dm-grants.ts. *)
Inductive exn :=
| Err (msg : string)
| SqliteConstraint (table : string)
| RangeError
| TypeError
| ReserveAbort (reason : string) (blockedKey : option string).

(** ** Rows of the module tables *)

(** [details] is the object that is stringified. *)
(*@ src/src/db/schema.ts 358-366 enterprise_audit *)
Record EnterpriseAuditRow := mkEnterpriseAudit {
  ea_occurred_at : time;
  ea_event_type : string;
  ea_messaging_group_id : option string;
  ea_agent_group_id : option string;
  ea_actor : option string;
  ea_details : option json }.

(*@ src/src/db/dm-audit.ts 21-21 DmAuditDecision *)
Inductive DmAuditDecision := delivered | rejected.
#[export] Instance DmAuditDecision_eq : EqDecision DmAuditDecision.
Proof. solve_decision. Defined.

(*@ src/src/db/dm-audit.ts 23-35 DmAuditEntry *)
Record DmAuditEntry := mkDmAuditEntry {
  da_scopeId : string;
  da_agentGroupId : option string;
  da_sessionId : option string;
  da_slotLabel : option string;
  da_grantId : option string;
  da_participantOpenId : option string;
  da_dmPlatformId : option string;
  da_messageOutId : option string;
  da_decision : DmAuditDecision;
  da_reason : option string }.
Record DmAuditRow := mkDmAuditRow { da_occurred_at : time; da_entry : DmAuditEntry }.

(*@ src/src/db/inbound-ingress.ts 26-26 IngressStatus *)
Inductive IngressStatus := received | failed.
#[export] Instance IngressStatus_eq : EqDecision IngressStatus.
Proof. solve_decision. Defined.

(*@ src/src/db/inbound-ingress.ts 28-38 IngressRow *)
Record IngressRow := mkIngressRow {
  ig_id : string;
  ig_channel_type : string;
  ig_platform_id : string;
  ig_thread_id : option string;
  ig_message_json : string;
  ig_received_at : time;
  ig_status : IngressStatus;
  ig_attempts : Z;
  ig_last_error : option string }.

(*@ src/src/db/dropped-messages.ts 3-14 UnregisteredSender *)
Record UnregisteredSender := mkUnregisteredSender {
  us_channel_type : string;
  us_platform_id : string;
  us_user_id : option string;
  us_sender_name : option string;
  us_reason : string;
  us_messaging_group_id : option string;
  us_agent_group_id : option string;
  us_message_count : Z;
  us_first_seen : time;
  us_last_seen : time }.

(** [consent_source] is TEXT: a value outside the union can be in the table. *)
(*@ src/src/db/dm-grants.ts 24-24 DmConsentSource *)
Inductive DmConsentSource := P2pIngress | DirectedCard | OtherSource (s : string).
#[export] Instance DmConsentSource_eq : EqDecision DmConsentSource.
Proof. solve_decision. Defined.

(** A timestamp the caller of [insertDmGrant] supplies as text: an instant, or
    a text [Date.parse] cannot read. *)
Inductive stamp := StampAt (ms : time) | StampInvalid.

(*@ src/src/db/dm-grants.ts 29-52 DmGrantRow *)
Record DmGrantRow := mkDmGrantRow {
  g_id : string;
  g_scope_id : string;
  g_agent_group_id : string;
  g_slot_label : string;
  g_participant_open_id : string;
  g_dm_platform_id : string;
  g_channel_type : string;
  g_consent_source : DmConsentSource;
  g_consent_inbound_msg_id : string;
  g_consent_origin_user_id : option string;
  g_origin_platform_id : option string;
  g_created_at : time;
  g_expires_at : option stamp;
  g_revoked_at : option time;
  g_max_sends : Z;
  g_sends_used : Z }.

(*@ src/src/db/schema.ts 347-354 dm_rate_ledger *)
Record LedgerRow := mkLedgerRow {
  l_key : string;
  l_window_start : time;
  l_count : Z }.

(*@ src/src/channels/ask-question.ts 29-33 NormalizedOption *)
Record NormalizedOption := mkNormalizedOption {
  no_label : string;
  no_selectedLabel : string;
  no_value : string }.

(** [options] is stored as its JSON text. *)
(*@ src/src/types.ts 268-278 PendingQuestion *)
Record PendingQuestion := mkPendingQuestion {
  pq_question_id : string;
  pq_session_id : string;
  pq_message_out_id : string;
  pq_platform_id : option string;
  pq_channel_type : option string;
  pq_thread_id : option string;
  pq_title : string;
  pq_options : list json;
  pq_created_at : time }.

(*@ src/src/types.ts 294-294 status *)
Inductive ApprovalStatus := ApPending | ApApproved | ApRejected | ApExpired.
#[export] Instance ApprovalStatus_eq : EqDecision ApprovalStatus.
Proof. solve_decision. Defined.
(*@ src/src/types.ts 282-297 PendingApproval *)
Record PendingApproval := mkPendingApproval {
  pa_approval_id : string;
  pa_session_id : option string;
  pa_request_id : string;
  pa_action : string;
  pa_payload : string;
  pa_created_at : time;
  pa_agent_group_id : option string;
  pa_channel_type : option string;
  pa_platform_id : option string;
  pa_platform_message_id : option string;
  pa_expires_at : option time;
  pa_status : ApprovalStatus;
  pa_title : string;
  pa_options : list NormalizedOption }.

(*@ src/src/modules/permissions/db/pending-sender-approvals.ts 13-26 PendingSenderApproval *)
Record PendingSenderApproval := mkPendingSenderApproval {
  ps_id : string;
  ps_messaging_group_id : string;
  ps_agent_group_id : string;
  ps_sender_identity : string;
  ps_sender_name : option string;
  ps_original_message : string;
  ps_approver_user_id : string;
  ps_created_at : time;
  ps_title : string;
  ps_options : list NormalizedOption }.

(*@ src/src/modules/permissions/db/pending-channel-approvals.ts 14-24 PendingChannelApproval *)
Record PendingChannelApproval := mkPendingChannelApproval {
  pc_messaging_group_id : string;
  pc_agent_group_id : string;
  pc_original_message : string;
  pc_approver_user_id : string;
  pc_created_at : time;
  pc_title : string;
  pc_options : list NormalizedOption }.

(** [candidates] and [confidence] are stored as text and REAL. *)
(*@ src/src/db/classification-log.ts 10-45 ClassificationLogEntry *)
Record ClassificationLogEntry := mkClassification {
  cl_classificationId : option string;
  cl_sessionId : option string;
  cl_agentGroupId : option string;
  cl_userId : option string;
  cl_channelType : option string;
  cl_platformId : option string;
  cl_threadId : option string;
  cl_userMessage : option string;
  cl_recommendedWorker : option string;
  cl_confidence : option json;
  cl_candidates : option (list string);
  cl_reasoning : option string;
  cl_action : string;
  cl_outcomeRef : option string;
  cl_escalationReason : option string;
  cl_urgencyLevel : option string;
  cl_feedbackKind : option string;
  cl_conversationThreadId : option string }.
Record ClassificationRow := mkClassificationRow {
  cl_occurred_at : time;
  cl_entry : ClassificationLogEntry }.

(*@ src/src/modules/progress-status/index.ts 30-37 ProgressReactionRow *)
Record ProgressReactionRow := mkProgressReaction {
  pr_session_id : string;
  pr_channel_type : string;
  pr_platform_id : string;
  pr_thread_id : option string;
  pr_source_message_id : string;
  pr_reaction_id : string;
  pr_emoji : string;
  pr_created_at : time }.

(*@ src/src/db/inbound-dedup.ts 11-17 markInboundSeen *)
Record DedupRow := mkDedup {
  dd_channel : string;
  dd_event_id : string;
  dd_seen_at : time }.

(** [allowed_paths] is the JSON text of the list. *)
(*@ src/src/db/gateway-proxy-token.ts 66-74 TokenRow *)
Record TokenRow := mkTokenRow {
  tk_jti : string;
  tk_token_sha256 : string;
  tk_session_id : string;
  tk_agent_group_id : string;
  tk_allowed_paths : string;
  tk_source_ip : option string;
  tk_created_at : time;
  tk_expires_at : time;
  tk_revoked_at : option time }.

(** [AuditOk] and [AuditError] are the outcomes; a row of the signing proxy is
    pending between its two phases. *)
(*@ src/src/db/gateway-audit.ts 10-10 status *)
Inductive AuditStatus := AuditOk | AuditError | AuditPending.
Inductive AuditPhase := AuditIntent | AuditFinal.
#[export] Instance AuditStatus_eq : EqDecision AuditStatus.
Proof. solve_decision. Defined.
#[export] Instance AuditPhase_eq : EqDecision AuditPhase.
Proof. solve_decision. Defined.
(*@ src/src/db/schema.ts 374-395 gateway_audit *)
Record GatewayAuditRow := mkGatewayAudit {
  ga_occurred_at : time;
  ga_session_id : option string;
  ga_agent_group_id : option string;
  ga_user_id : option string;
  ga_path : string;
  ga_operation : option string;
  ga_requester_source : string;
  ga_status : AuditStatus;
  ga_http_status : option Z;
  ga_duration_ms : option Z;
  ga_idempotency_key : option string;
  ga_input_hash : option string;
  ga_error_msg : option string;
  ga_signed_as_group : option string;
  ga_token_jti : option string;
  ga_proxy_request_id : option string;
  ga_identity_mismatch : option bool;
  ga_requester_source_coerced : option bool;
  ga_audit_phase : option AuditPhase }.

(** ** The database *)

Record CentralDb := mkCentralDb {
  organizations : list Organization;
  organization_members : list OrganizationMember;
  agent_groups : list AgentGroup;
  messaging_groups : list MessagingGroup;
  messaging_group_agents : list MessagingGroupAgent;
  users : list User;
  user_roles : list UserRole;
  agent_group_members : list AgentGroupMember;
  user_dms : list UserDm;
  sessions : list Session;
  agent_destinations : list AgentDestination;
  dm_grants : list DmGrantRow;
  dm_rate_ledger : list LedgerRow;
  dm_audit : list DmAuditRow;
  enterprise_audit : list EnterpriseAuditRow;
  inbound_ingress : list IngressRow;
  unregistered_senders : list UnregisteredSender;
  pending_questions : list PendingQuestion;
  pending_approvals : list PendingApproval;
  classification_log : list ClassificationRow;
  progress_reactions : list ProgressReactionRow;
  pending_sender_approvals : list PendingSenderApproval;
  pending_channel_approvals : list PendingChannelApproval;
  inbound_dedup : list DedupRow;
  gateway_proxy_token : list TokenRow;
  gateway_audit : list GatewayAuditRow;
  installed : list string }.
Definition emptyDb : CentralDb := mkCentralDb [] [] [] [] [] [] [] [] [] [] [] [] [] [] [] [] [] [] [] [] [] [] [] [] [] [] [].

Definition set_organizations (v : list Organization) (db : CentralDb) : CentralDb :=
  mkCentralDb v (organization_members db) (agent_groups db) (messaging_groups db) (messaging_group_agents db) (users db) (user_roles db) (agent_group_members db) (user_dms db) (sessions db) (agent_destinations db) (dm_grants db) (dm_rate_ledger db) (dm_audit db) (enterprise_audit db) (inbound_ingress db) (unregistered_senders db) (pending_questions db) (pending_approvals db) (classification_log db) (progress_reactions db) (pending_sender_approvals db) (pending_channel_approvals db) (inbound_dedup db) (gateway_proxy_token db) (gateway_audit db) (installed db).
Definition set_organization_members (v : list OrganizationMember) (db : CentralDb) : CentralDb :=
  mkCentralDb (organizations db) v (agent_groups db) (messaging_groups db) (messaging_group_agents db) (users db) (user_roles db) (agent_group_members db) (user_dms db) (sessions db) (agent_destinations db) (dm_grants db) (dm_rate_ledger db) (dm_audit db) (enterprise_audit db) (inbound_ingress db) (unregistered_senders db) (pending_questions db) (pending_approvals db) (classification_log db) (progress_reactions db) (pending_sender_approvals db) (pending_channel_approvals db) (inbound_dedup db) (gateway_proxy_token db) (gateway_audit db) (installed db).
Definition set_agent_groups (v : list AgentGroup) (db : CentralDb) : CentralDb :=
  mkCentralDb (organizations db) (organization_members db) v (messaging_groups db) (messaging_group_agents db) (users db) (user_roles db) (agent_group_members db) (user_dms db) (sessions db) (agent_destinations db) (dm_grants db) (dm_rate_ledger db) (dm_audit db) (enterprise_audit db) (inbound_ingress db) (unregistered_senders db) (pending_questions db) (pending_approvals db) (classification_log db) (progress_reactions db) (pending_sender_approvals db) (pending_channel_approvals db) (inbound_dedup db) (gateway_proxy_token db) (gateway_audit db) (installed db).
Definition set_messaging_groups (v : list MessagingGroup) (db : CentralDb) : CentralDb :=
  mkCentralDb (organizations db) (organization_members db) (agent_groups db) v (messaging_group_agents db) (users db) (user_roles db) (agent_group_members db) (user_dms db) (sessions db) (agent_destinations db) (dm_grants db) (dm_rate_ledger db) (dm_audit db) (enterprise_audit db) (inbound_ingress db) (unregistered_senders db) (pending_questions db) (pending_approvals db) (classification_log db) (progress_reactions db) (pending_sender_approvals db) (pending_channel_approvals db) (inbound_dedup db) (gateway_proxy_token db) (gateway_audit db) (installed db).
Definition set_messaging_group_agents (v : list MessagingGroupAgent) (db : CentralDb) : CentralDb :=
  mkCentralDb (organizations db) (organization_members db) (agent_groups db) (messaging_groups db) v (users db) (user_roles db) (agent_group_members db) (user_dms db) (sessions db) (agent_destinations db) (dm_grants db) (dm_rate_ledger db) (dm_audit db) (enterprise_audit db) (inbound_ingress db) (unregistered_senders db) (pending_questions db) (pending_approvals db) (classification_log db) (progress_reactions db) (pending_sender_approvals db) (pending_channel_approvals db) (inbound_dedup db) (gateway_proxy_token db) (gateway_audit db) (installed db).
Definition set_users (v : list User) (db : CentralDb) : CentralDb :=
  mkCentralDb (organizations db) (organization_members db) (agent_groups db) (messaging_groups db) (messaging_group_agents db) v (user_roles db) (agent_group_members db) (user_dms db) (sessions db) (agent_destinations db) (dm_grants db) (dm_rate_ledger db) (dm_audit db) (enterprise_audit db) (inbound_ingress db) (unregistered_senders db) (pending_questions db) (pending_approvals db) (classification_log db) (progress_reactions db) (pending_sender_approvals db) (pending_channel_approvals db) (inbound_dedup db) (gateway_proxy_token db) (gateway_audit db) (installed db).
Definition set_user_roles (v : list UserRole) (db : CentralDb) : CentralDb :=
  mkCentralDb (organizations db) (organization_members db) (agent_groups db) (messaging_groups db) (messaging_group_agents db) (users db) v (agent_group_members db) (user_dms db) (sessions db) (agent_destinations db) (dm_grants db) (dm_rate_ledger db) (dm_audit db) (enterprise_audit db) (inbound_ingress db) (unregistered_senders db) (pending_questions db) (pending_approvals db) (classification_log db) (progress_reactions db) (pending_sender_approvals db) (pending_channel_approvals db) (inbound_dedup db) (gateway_proxy_token db) (gateway_audit db) (installed db).
Definition set_agent_group_members (v : list AgentGroupMember) (db : CentralDb) : CentralDb :=
  mkCentralDb (organizations db) (organization_members db) (agent_groups db) (messaging_groups db) (messaging_group_agents db) (users db) (user_roles db) v (user_dms db) (sessions db) (agent_destinations db) (dm_grants db) (dm_rate_ledger db) (dm_audit db) (enterprise_audit db) (inbound_ingress db) (unregistered_senders db) (pending_questions db) (pending_approvals db) (classification_log db) (progress_reactions db) (pending_sender_approvals db) (pending_channel_approvals db) (inbound_dedup db) (gateway_proxy_token db) (gateway_audit db) (installed db).
Definition set_user_dms (v : list UserDm) (db : CentralDb) : CentralDb :=
  mkCentralDb (organizations db) (organization_members db) (agent_groups db) (messaging_groups db) (messaging_group_agents db) (users db) (user_roles db) (agent_group_members db) v (sessions db) (agent_destinations db) (dm_grants db) (dm_rate_ledger db) (dm_audit db) (enterprise_audit db) (inbound_ingress db) (unregistered_senders db) (pending_questions db) (pending_approvals db) (classification_log db) (progress_reactions db) (pending_sender_approvals db) (pending_channel_approvals db) (inbound_dedup db) (gateway_proxy_token db) (gateway_audit db) (installed db).
Definition set_sessions (v : list Session) (db : CentralDb) : CentralDb :=
  mkCentralDb (organizations db) (organization_members db) (agent_groups db) (messaging_groups db) (messaging_group_agents db) (users db) (user_roles db) (agent_group_members db) (user_dms db) v (agent_destinations db) (dm_grants db) (dm_rate_ledger db) (dm_audit db) (enterprise_audit db) (inbound_ingress db) (unregistered_senders db) (pending_questions db) (pending_approvals db) (classification_log db) (progress_reactions db) (pending_sender_approvals db) (pending_channel_approvals db) (inbound_dedup db) (gateway_proxy_token db) (gateway_audit db) (installed db).
Definition set_agent_destinations (v : list AgentDestination) (db : CentralDb) : CentralDb :=
  mkCentralDb (organizations db) (organization_members db) (agent_groups db) (messaging_groups db) (messaging_group_agents db) (users db) (user_roles db) (agent_group_members db) (user_dms db) (sessions db) v (dm_grants db) (dm_rate_ledger db) (dm_audit db) (enterprise_audit db) (inbound_ingress db) (unregistered_senders db) (pending_questions db) (pending_approvals db) (classification_log db) (progress_reactions db) (pending_sender_approvals db) (pending_channel_approvals db) (inbound_dedup db) (gateway_proxy_token db) (gateway_audit db) (installed db).
Definition set_dm_grants (v : list DmGrantRow) (db : CentralDb) : CentralDb :=
  mkCentralDb (organizations db) (organization_members db) (agent_groups db) (messaging_groups db) (messaging_group_agents db) (users db) (user_roles db) (agent_group_members db) (user_dms db) (sessions db) (agent_destinations db) v (dm_rate_ledger db) (dm_audit db) (enterprise_audit db) (inbound_ingress db) (unregistered_senders db) (pending_questions db) (pending_approvals db) (classification_log db) (progress_reactions db) (pending_sender_approvals db) (pending_channel_approvals db) (inbound_dedup db) (gateway_proxy_token db) (gateway_audit db) (installed db).
Definition set_dm_rate_ledger (v : list LedgerRow) (db : CentralDb) : CentralDb :=
  mkCentralDb (organizations db) (organization_members db) (agent_groups db) (messaging_groups db) (messaging_group_agents db) (users db) (user_roles db) (agent_group_members db) (user_dms db) (sessions db) (agent_destinations db) (dm_grants db) v (dm_audit db) (enterprise_audit db) (inbound_ingress db) (unregistered_senders db) (pending_questions db) (pending_approvals db) (classification_log db) (progress_reactions db) (pending_sender_approvals db) (pending_channel_approvals db) (inbound_dedup db) (gateway_proxy_token db) (gateway_audit db) (installed db).
Definition set_dm_audit (v : list DmAuditRow) (db : CentralDb) : CentralDb :=
  mkCentralDb (organizations db) (organization_members db) (agent_groups db) (messaging_groups db) (messaging_group_agents db) (users db) (user_roles db) (agent_group_members db) (user_dms db) (sessions db) (agent_destinations db) (dm_grants db) (dm_rate_ledger db) v (enterprise_audit db) (inbound_ingress db) (unregistered_senders db) (pending_questions db) (pending_approvals db) (classification_log db) (progress_reactions db) (pending_sender_approvals db) (pending_channel_approvals db) (inbound_dedup db) (gateway_proxy_token db) (gateway_audit db) (installed db).
Definition set_enterprise_audit (v : list EnterpriseAuditRow) (db : CentralDb) : CentralDb :=
  mkCentralDb (organizations db) (organization_members db) (agent_groups db) (messaging_groups db) (messaging_group_agents db) (users db) (user_roles db) (agent_group_members db) (user_dms db) (sessions db) (agent_destinations db) (dm_grants db) (dm_rate_ledger db) (dm_audit db) v (inbound_ingress db) (unregistered_senders db) (pending_questions db) (pending_approvals db) (classification_log db) (progress_reactions db) (pending_sender_approvals db) (pending_channel_approvals db) (inbound_dedup db) (gateway_proxy_token db) (gateway_audit db) (installed db).
Definition set_inbound_ingress (v : list IngressRow) (db : CentralDb) : CentralDb :=
  mkCentralDb (organizations db) (organization_members db) (agent_groups db) (messaging_groups db) (messaging_group_agents db) (users db) (user_roles db) (agent_group_members db) (user_dms db) (sessions db) (agent_destinations db) (dm_grants db) (dm_rate_ledger db) (dm_audit db) (enterprise_audit db) v (unregistered_senders db) (pending_questions db) (pending_approvals db) (classification_log db) (progress_reactions db) (pending_sender_approvals db) (pending_channel_approvals db) (inbound_dedup db) (gateway_proxy_token db) (gateway_audit db) (installed db).
Definition set_unregistered_senders (v : list UnregisteredSender) (db : CentralDb) : CentralDb :=
  mkCentralDb (organizations db) (organization_members db) (agent_groups db) (messaging_groups db) (messaging_group_agents db) (users db) (user_roles db) (agent_group_members db) (user_dms db) (sessions db) (agent_destinations db) (dm_grants db) (dm_rate_ledger db) (dm_audit db) (enterprise_audit db) (inbound_ingress db) v (pending_questions db) (pending_approvals db) (classification_log db) (progress_reactions db) (pending_sender_approvals db) (pending_channel_approvals db) (inbound_dedup db) (gateway_proxy_token db) (gateway_audit db) (installed db).
Definition set_pending_questions (v : list PendingQuestion) (db : CentralDb) : CentralDb :=
  mkCentralDb (organizations db) (organization_members db) (agent_groups db) (messaging_groups db) (messaging_group_agents db) (users db) (user_roles db) (agent_group_members db) (user_dms db) (sessions db) (agent_destinations db) (dm_grants db) (dm_rate_ledger db) (dm_audit db) (enterprise_audit db) (inbound_ingress db) (unregistered_senders db) v (pending_approvals db) (classification_log db) (progress_reactions db) (pending_sender_approvals db) (pending_channel_approvals db) (inbound_dedup db) (gateway_proxy_token db) (gateway_audit db) (installed db).
Definition set_pending_approvals (v : list PendingApproval) (db : CentralDb) : CentralDb :=
  mkCentralDb (organizations db) (organization_members db) (agent_groups db) (messaging_groups db) (messaging_group_agents db) (users db) (user_roles db) (agent_group_members db) (user_dms db) (sessions db) (agent_destinations db) (dm_grants db) (dm_rate_ledger db) (dm_audit db) (enterprise_audit db) (inbound_ingress db) (unregistered_senders db) (pending_questions db) v (classification_log db) (progress_reactions db) (pending_sender_approvals db) (pending_channel_approvals db) (inbound_dedup db) (gateway_proxy_token db) (gateway_audit db) (installed db).
Definition set_classification_log (v : list ClassificationRow) (db : CentralDb) : CentralDb :=
  mkCentralDb (organizations db) (organization_members db) (agent_groups db) (messaging_groups db) (messaging_group_agents db) (users db) (user_roles db) (agent_group_members db) (user_dms db) (sessions db) (agent_destinations db) (dm_grants db) (dm_rate_ledger db) (dm_audit db) (enterprise_audit db) (inbound_ingress db) (unregistered_senders db) (pending_questions db) (pending_approvals db) v (progress_reactions db) (pending_sender_approvals db) (pending_channel_approvals db) (inbound_dedup db) (gateway_proxy_token db) (gateway_audit db) (installed db).
Definition set_progress_reactions (v : list ProgressReactionRow) (db : CentralDb) : CentralDb :=
  mkCentralDb (organizations db) (organization_members db) (agent_groups db) (messaging_groups db) (messaging_group_agents db) (users db) (user_roles db) (agent_group_members db) (user_dms db) (sessions db) (agent_destinations db) (dm_grants db) (dm_rate_ledger db) (dm_audit db) (enterprise_audit db) (inbound_ingress db) (unregistered_senders db) (pending_questions db) (pending_approvals db) (classification_log db) v (pending_sender_approvals db) (pending_channel_approvals db) (inbound_dedup db) (gateway_proxy_token db) (gateway_audit db) (installed db).
Definition set_pending_sender_approvals (v : list PendingSenderApproval) (db : CentralDb) : CentralDb :=
  mkCentralDb (organizations db) (organization_members db) (agent_groups db) (messaging_groups db) (messaging_group_agents db) (users db) (user_roles db) (agent_group_members db) (user_dms db) (sessions db) (agent_destinations db) (dm_grants db) (dm_rate_ledger db) (dm_audit db) (enterprise_audit db) (inbound_ingress db) (unregistered_senders db) (pending_questions db) (pending_approvals db) (classification_log db) (progress_reactions db) v (pending_channel_approvals db) (inbound_dedup db) (gateway_proxy_token db) (gateway_audit db) (installed db).
Definition set_pending_channel_approvals (v : list PendingChannelApproval) (db : CentralDb) : CentralDb :=
  mkCentralDb (organizations db) (organization_members db) (agent_groups db) (messaging_groups db) (messaging_group_agents db) (users db) (user_roles db) (agent_group_members db) (user_dms db) (sessions db) (agent_destinations db) (dm_grants db) (dm_rate_ledger db) (dm_audit db) (enterprise_audit db) (inbound_ingress db) (unregistered_senders db) (pending_questions db) (pending_approvals db) (classification_log db) (progress_reactions db) (pending_sender_approvals db) v (inbound_dedup db) (gateway_proxy_token db) (gateway_audit db) (installed db).
Definition set_inbound_dedup (v : list DedupRow) (db : CentralDb) : CentralDb :=
  mkCentralDb (organizations db) (organization_members db) (agent_groups db) (messaging_groups db) (messaging_group_agents db) (users db) (user_roles db) (agent_group_members db) (user_dms db) (sessions db) (agent_destinations db) (dm_grants db) (dm_rate_ledger db) (dm_audit db) (enterprise_audit db) (inbound_ingress db) (unregistered_senders db) (pending_questions db) (pending_approvals db) (classification_log db) (progress_reactions db) (pending_sender_approvals db) (pending_channel_approvals db) v (gateway_proxy_token db) (gateway_audit db) (installed db).
Definition set_gateway_proxy_token (v : list TokenRow) (db : CentralDb) : CentralDb :=
  mkCentralDb (organizations db) (organization_members db) (agent_groups db) (messaging_groups db) (messaging_group_agents db) (users db) (user_roles db) (agent_group_members db) (user_dms db) (sessions db) (agent_destinations db) (dm_grants db) (dm_rate_ledger db) (dm_audit db) (enterprise_audit db) (inbound_ingress db) (unregistered_senders db) (pending_questions db) (pending_approvals db) (classification_log db) (progress_reactions db) (pending_sender_approvals db) (pending_channel_approvals db) (inbound_dedup db) v (gateway_audit db) (installed db).
Definition set_gateway_audit (v : list GatewayAuditRow) (db : CentralDb) : CentralDb :=
  mkCentralDb (organizations db) (organization_members db) (agent_groups db) (messaging_groups db) (messaging_group_agents db) (users db) (user_roles db) (agent_group_members db) (user_dms db) (sessions db) (agent_destinations db) (dm_grants db) (dm_rate_ledger db) (dm_audit db) (enterprise_audit db) (inbound_ingress db) (unregistered_senders db) (pending_questions db) (pending_approvals db) (classification_log db) (progress_reactions db) (pending_sender_approvals db) (pending_channel_approvals db) (inbound_dedup db) (gateway_proxy_token db) v (installed db).
Definition set_installed (v : list string) (db : CentralDb) : CentralDb :=
  mkCentralDb (organizations db) (organization_members db) (agent_groups db) (messaging_groups db) (messaging_group_agents db) (users db) (user_roles db) (agent_group_members db) (user_dms db) (sessions db) (agent_destinations db) (dm_grants db) (dm_rate_ledger db) (dm_audit db) (enterprise_audit db) (inbound_ingress db) (unregistered_senders db) (pending_questions db) (pending_approvals db) (classification_log db) (progress_reactions db) (pending_sender_approvals db) (pending_channel_approvals db) (inbound_dedup db) (gateway_proxy_token db) (gateway_audit db) v.

(** A program over the central database. *)
Definition dbM (A : Type) : Type := prog CentralDb exn A.

(** [getDb().prepare(...).get()] *)
Definition query {A} (f : CentralDb → A) : dbM A := gets f.

(** A foreign key: NULL, or the key of a row. *)
Definition fk {R} (key : R → string) (t : list R) (v : option string) : bool :=
  match v with
  | None => true
  | Some k => sql_exists (λ r, bool_decide (key r = k)) t
  end.

(*@ src/src/db/connection.ts 47-59 hasTable *)
Definition hasTable (db : CentralDb) (name : string) : bool :=
  bool_decide (name ∈ installed db).

(** ** Append-only audits *)

(*@ src/src/db/enterprise-audit.ts 10-33 recordEnterpriseAudit *)
Definition recordEnterpriseAudit (now : time) (eventType : string)
    (messagingGroupId agentGroupId actor : option string) (details : option json) : dbM unit :=
  modify (λ db, set_enterprise_audit (enterprise_audit db ++
    [mkEnterpriseAudit now eventType messagingGroupId agentGroupId actor details]) db).

(** The number of rows deleted. *)
(*@ src/src/db/enterprise-audit.ts 3-8 purgeEnterpriseAudit *)
Definition purgeEnterpriseAudit (olderThanMs : Z) (now : time) : dbM nat :=
  let old r := ea_occurred_at r <? now - olderThanMs in
  let* n := query (λ db, sql_changes old (enterprise_audit db)) in
  modify (λ db, set_enterprise_audit (sql_delete old (enterprise_audit db)) db) ;;
  ret n.

(*@ src/src/db/dm-audit.ts 37-58 recordDmAudit *)
Definition recordDmAudit (now : time) (entry : DmAuditEntry) : dbM unit :=
  modify (λ db, set_dm_audit (dm_audit db ++ [mkDmAuditRow now entry]) db).

(*@ src/src/db/dm-audit.ts 14-19 purgeDmAudit *)
Definition purgeDmAudit (olderThanMs : Z) (now : time) : dbM nat :=
  let old r := da_occurred_at r <? now - olderThanMs in
  let* n := query (λ db, sql_changes old (dm_audit db)) in
  modify (λ db, set_dm_audit (sql_delete old (dm_audit db)) db) ;;
  ret n.

(** ** First-seen wins (src/db/inbound-dedup.ts) *)

(*@ src/src/db/inbound-dedup.ts 11-17 markInboundSeen *)
Definition markInboundSeen (channel eventId : string) (now : time) : dbM bool :=
  let trimmed := trim eventId in
  if bool_decide (trimmed = "") then ret true
  else
    let* taken := query (λ db, sql_exists (λ r, bool_decide (dd_channel r = channel) &&
                                               bool_decide (dd_event_id r = trimmed)) (inbound_dedup db)) in
    if taken : bool then ret false
    else
      modify (λ db, set_inbound_dedup (inbound_dedup db ++ [mkDedup channel trimmed now]) db) ;;
      ret true.

(*@ src/src/db/inbound-dedup.ts 19-23 pruneInboundDedup *)
Definition pruneInboundDedup (olderThanMs : Z) (now : time) : dbM nat :=
  let old r := dd_seen_at r <? now - olderThanMs in
  let* n := query (λ db, sql_changes old (inbound_dedup db)) in
  modify (λ db, set_inbound_dedup (sql_delete old (inbound_dedup db)) db) ;;
  ret n.

(** ** Persist-before-route (src/db/inbound-ingress.ts) *)

(** [id] is the [randomUUID()]. *)
(*@ src/src/db/inbound-ingress.ts 40-62 insertIngress *)
Definition insertIngress (now : time) (id channelType platformId : string)
    (threadId : option string) (messageJson : string) : dbM string :=
  let* clash := query (λ db, sql_exists (λ r, bool_decide (ig_id r = id)) (inbound_ingress db)) in
  if clash : bool then throw (SqliteConstraint "inbound_ingress")
  else
    modify (λ db, set_inbound_ingress (inbound_ingress db ++
      [mkIngressRow id channelType platformId threadId messageJson now received 0 None]) db) ;;
    ret id.

(*@ src/src/db/inbound-ingress.ts 64-67 deleteIngress *)
Definition deleteIngress (id : string) : dbM unit :=
  modify (λ db, set_inbound_ingress
    (sql_delete (λ r, bool_decide (ig_id r = id)) (inbound_ingress db)) db).

(** [error.slice(0, 2000)] counts code units; the text is only shown. *)
(*@ src/src/db/inbound-ingress.ts 69-81 markIngressFailed *)
Definition markIngressFailed (id error : string) : dbM unit :=
  modify (λ db, set_inbound_ingress
    (sql_update (λ r, bool_decide (ig_id r = id))
       (λ r, mkIngressRow (ig_id r) (ig_channel_type r) (ig_platform_id r) (ig_thread_id r)
               (ig_message_json r) (ig_received_at r) failed (ig_attempts r + 1)
               (Some (take_string 2000 error)))
       (inbound_ingress db)) db).

(*@ src/src/db/inbound-ingress.ts 83-85 getIngress *)
Definition getIngress (db : CentralDb) (id : string) : option IngressRow :=
  sql_first (λ r, bool_decide (ig_id r = id)) (inbound_ingress db).

(*@ src/src/db/inbound-ingress.ts 87-99 listIngress *)
Definition listIngress (db : CentralDb) (status : option IngressStatus) (limit : option Z)
    : list IngressRow :=
  let n := Z.max 1 (Z.min (default 200 limit) 1000) in
  take (Z.to_nat n)
    (sql_order_by (λ a b, ig_received_at a <? ig_received_at b)
       (match status with
        | Some s => sql_where (λ r, bool_decide (ig_status r = s)) (inbound_ingress db)
        | None => inbound_ingress db
        end)).

(** The counts of [received] and of [failed] rows. *)
(*@ src/src/db/inbound-ingress.ts 101-113 countIngressByStatus *)
Definition countIngressByStatus (db : CentralDb) : nat * nat :=
  (sql_changes (λ r, bool_decide (ig_status r = received)) (inbound_ingress db),
   sql_changes (λ r, bool_decide (ig_status r = failed)) (inbound_ingress db)).

(** ** Dropped messages (src/db/dropped-messages.ts) *)

(** SQL [COALESCE(a, b)]. *)
Definition coalesce {A} (a b : option A) : option A :=
  match a with Some _ => a | None => b end.

(*@ src/src/db/dropped-messages.ts 16-38 recordDroppedMessage *)
Definition recordDroppedMessage (now : time) (channel_type platform_id : string)
    (user_id sender_name : option string) (reason : string)
    (messaging_group_id agent_group_id : option string) : dbM unit :=
  modify (λ db,
    let same r := bool_decide (us_channel_type r = channel_type) &&
                  bool_decide (us_platform_id r = platform_id) in
    if sql_exists same (unregistered_senders db) then
      set_unregistered_senders (sql_update same
        (λ r, mkUnregisteredSender (us_channel_type r) (us_platform_id r)
                (coalesce user_id (us_user_id r)) (coalesce sender_name (us_sender_name r))
                reason (us_messaging_group_id r) (us_agent_group_id r)
                (us_message_count r + 1) (us_first_seen r) now)
        (unregistered_senders db)) db
    else
      set_unregistered_senders (unregistered_senders db ++
        [mkUnregisteredSender channel_type platform_id user_id sender_name reason
           messaging_group_id agent_group_id 1 now now]) db).

(*@ src/src/db/dropped-messages.ts 40-44 getUnregisteredSenders *)
Definition getUnregisteredSenders (db : CentralDb) (limit : nat) : list UnregisteredSender :=
  take limit (sql_order_by (λ a b, us_last_seen b <? us_last_seen a) (unregistered_senders db)).
