(* ===== verification/Permissions.v ===== *)
(** * Users, roles, organizations and the access gates

    src/modules/permissions/db/*.ts, src/modules/permissions/access.ts,
    src/modules/permissions/operability.ts, src/db/agent-groups.ts,
    src/command-gate.ts. *)
From S2P Require Import Prelude JsString Json Types Central.

Local Open Scope string_scope.
Local Open Scope list_scope.

(** ** Agent groups (src/db/agent-groups.ts) *)

(*@ src/src/db/agent-groups.ts 4-22 createAgentGroup *)
Definition createAgentGroup (g : AgentGroup) : dbM unit :=
  let* ok := query (λ db,
    negb (sql_exists (λ r, bool_decide (ag_id r = ag_id g) ||
                           bool_decide (ag_folder r = ag_folder g)) (agent_groups db)) &&
    fk org_id (organizations db) (ag_organization_id g)) in
  if ok : bool then modify (λ db, set_agent_groups (agent_groups db ++ [g]) db)
  else throw (SqliteConstraint "agent_groups").

(*@ src/src/db/agent-groups.ts 24-31 setAgentGroupRole *)
Definition setAgentGroupRole (id : string) (role : option AgentGroupRole) : dbM unit :=
  modify (λ db, set_agent_groups
    (sql_update (λ r, bool_decide (ag_id r = id))
       (λ r, mkAgentGroup (ag_id r) (ag_name r) (ag_folder r) (ag_agent_provider r)
               (ag_created_at r) (ag_organization_id r) role) (agent_groups db)) db).

(*@ src/src/db/agent-groups.ts 33-35 getAgentGroup *)
Definition getAgentGroup (db : CentralDb) (id : string) : option AgentGroup :=
  sql_first (λ r, bool_decide (ag_id r = id)) (agent_groups db).

(*@ src/src/db/agent-groups.ts 37-39 getAgentGroupByFolder *)
Definition getAgentGroupByFolder (db : CentralDb) (folder : string) : option AgentGroup :=
  sql_first (λ r, bool_decide (ag_folder r = folder)) (agent_groups db).

(*@ src/src/db/agent-groups.ts 41-43 getAllAgentGroups *)
Definition getAllAgentGroups (db : CentralDb) : list AgentGroup :=
  sql_order_by (λ a b, String.ltb (ag_name a) (ag_name b)) (agent_groups db).

(** An update names the columns it sets; [agent_provider] may be set to NULL. *)
(*@ src/src/db/agent-groups.ts 45-60 updateAgentGroup *)
Definition updateAgentGroup (id : string) (name : option string)
    (agent_provider : option (option string)) : dbM unit :=
  match name, agent_provider with
  | None, None => ret tt
  | _, _ => modify (λ db, set_agent_groups
      (sql_update (λ r, bool_decide (ag_id r = id))
         (λ r, mkAgentGroup (ag_id r) (default (ag_name r) name) (ag_folder r)
                 (default (ag_agent_provider r) agent_provider) (ag_created_at r)
                 (ag_organization_id r) (ag_role r)) (agent_groups db)) db)
  end.

(** Every table with a foreign key on [agent_groups] blocks the delete. *)
(*@ src/src/db/agent-groups.ts 62-64 deleteAgentGroup *)
Definition deleteAgentGroup (id : string) : dbM unit :=
  let* used := query (λ db,
    sql_exists (λ r, bool_decide (ag_id r = id)) (agent_groups db) &&
    (sql_exists (λ r, bool_decide (mga_agent_group_id r = id)) (messaging_group_agents db) ||
     sql_exists (λ r, sql_eq (ur_agent_group_id r) (Some id)) (user_roles db) ||
     sql_exists (λ r, bool_decide (agm_agent_group_id r = id)) (agent_group_members db) ||
     sql_exists (λ r, bool_decide (s_agent_group_id r = id)) (sessions db) ||
     sql_exists (λ r, bool_decide (ps_agent_group_id r = id)) (pending_sender_approvals db) ||
     sql_exists (λ r, bool_decide (pc_agent_group_id r = id)) (pending_channel_approvals db) ||
     sql_exists (λ r, sql_eq (pa_agent_group_id r) (Some id)) (pending_approvals db))) in
  if used : bool then throw (SqliteConstraint "agent_groups")
  else modify (λ db, set_agent_groups
         (sql_delete (λ r, bool_decide (ag_id r = id)) (agent_groups db)) db).

(** ** Users (src/modules/permissions/db/users.ts) *)

(*@ src/src/modules/permissions/db/users.ts 4-11 createUser *)
Definition createUser (user : User) : dbM unit :=
  let* clash := query (λ db, sql_exists (λ r, bool_decide (u_id r = u_id user)) (users db)) in
  if clash : bool then throw (SqliteConstraint "users")
  else modify (λ db, set_users (users db ++ [user]) db).

(*@ src/src/modules/permissions/db/users.ts 13-22 upsertUser *)
Definition upsertUser (user : User) : dbM unit :=
  modify (λ db,
    let same r := bool_decide (u_id r = u_id user) in
    if sql_exists same (users db) then
      set_users (sql_update same
        (λ r, mkUser (u_id r) (u_kind r) (coalesce (u_display_name user) (u_display_name r))
                (u_created_at r)) (users db)) db
    else set_users (users db ++ [user]) db).

(*@ src/src/modules/permissions/db/users.ts 24-26 getUser *)
Definition getUser (db : CentralDb) (id : string) : option User :=
  sql_first (λ r, bool_decide (u_id r = id)) (users db).

(*@ src/src/modules/permissions/db/users.ts 32-34 updateDisplayName *)
Definition updateDisplayName (id displayName : string) : dbM unit :=
  modify (λ db, set_users
    (sql_update (λ r, bool_decide (u_id r = id))
       (λ r, mkUser (u_id r) (u_kind r) (Some displayName) (u_created_at r)) (users db)) db).

(*@ src/src/modules/permissions/db/users.ts 36-38 deleteUser *)
Definition deleteUser (id : string) : dbM unit :=
  let* used := query (λ db,
    sql_exists (λ r, bool_decide (u_id r = id)) (users db) &&
    (sql_exists (λ r, bool_decide (ur_user_id r = id) || sql_eq (ur_granted_by r) (Some id))
       (user_roles db) ||
     sql_exists (λ r, bool_decide (agm_user_id r = id) || sql_eq (agm_added_by r) (Some id))
       (agent_group_members db) ||
     sql_exists (λ r, bool_decide (om_user_id r = id) || sql_eq (om_added_by r) (Some id))
       (organization_members db) ||
     sql_exists (λ r, bool_decide (ud_user_id r = id)) (user_dms db))) in
  if used : bool then throw (SqliteConstraint "users")
  else modify (λ db, set_users (sql_delete (λ r, bool_decide (u_id r = id)) (users db)) db).

(** ** Roles (src/modules/permissions/db/user-roles.ts) *)

(** [WHERE agent_group_id IS NULL AND organization_id IS NULL] *)
Definition global_scope (r : UserRole) : bool :=
  sql_is (ur_agent_group_id r) None && sql_is (ur_organization_id r) None.

(** [WHERE user_id = ? AND role = ?] *)
Definition role_of (userId : string) (role : UserRoleKind) (r : UserRole) : bool :=
  bool_decide (ur_user_id r = userId) && bool_decide (ur_role r = role).

(** [WHERE user_id = ? AND role IN ('operator', 'viewer')] *)
Definition operability_of (userId : string) (r : UserRole) : bool :=
  bool_decide (ur_user_id r = userId) &&
  (bool_decide (ur_role r = operator) || bool_decide (ur_role r = viewer)).

(** The scope columns of a grant. *)
Definition scope_group (s : RoleScope) : option string :=
  match s with ScopeGroup g => Some g | _ => None end.
Definition scope_org (s : RoleScope) : option string :=
  match s with ScopeOrg o => Some o | _ => None end.

(** PRIMARY KEY (user_id, role, agent_group_id), where NULL is never equal, and
    the partial unique index on org grants. *)
Definition role_clash (row r : UserRole) : bool :=
  role_of (ur_user_id row) (ur_role row) r &&
  (sql_eq (ur_agent_group_id r) (ur_agent_group_id row) ||
   (sql_is (ur_agent_group_id r) None && sql_is (ur_agent_group_id row) None &&
    sql_eq (ur_organization_id r) (ur_organization_id row))).

Definition role_name (r : UserRoleKind) : string :=
  match r with
  | owner => "owner" | admin => "admin" | org_admin => "org-admin"
  | operator => "operator" | viewer => "viewer"
  end.

(*@ src/src/modules/permissions/db/user-roles.ts 6-58 grantRole *)
Definition grantRole (now : time) (userId : string) (role : UserRoleKind) (scope : RoleScope)
    (grantedBy : option string) (grantedAt : option time) : dbM unit :=
  if bool_decide (role = owner) && negb (bool_decide (scope = ScopeGlobal))
  then throw (Err "owner role must be global")
  else if bool_decide (role = org_admin) && sql_is (scope_org scope) None
  then throw (Err "'org-admin' role must be org-scoped")
  else if bool_decide (role = admin) && negb (sql_is (scope_org scope) None)
  then throw (Err "admin role cannot be org-scoped — use the 'org-admin' role")
  else
    let row := mkUserRole userId role (scope_group scope) (scope_org scope) grantedBy
                 (default now grantedAt) in
    let* ok := query (λ db,
      negb (sql_exists (role_clash row) (user_roles db)) &&
      fk u_id (users db) (Some userId) && fk u_id (users db) grantedBy &&
      fk ag_id (agent_groups db) (scope_group scope) &&
      fk org_id (organizations db) (scope_org scope)) in
    if ok : bool then
      modify (λ db, set_user_roles (user_roles db ++ [row]) db) ;;
      recordEnterpriseAudit now "user_role_granted" None (scope_group scope) grantedBy
        (Some (JObj [("userId", JStr userId); ("role", JStr (role_name role));
                     ("agentGroupId", jopt (scope_group scope));
                     ("organizationId", jopt (scope_org scope))]))
    else throw (SqliteConstraint "user_roles").

(** The WHERE clause of a revoke. *)
(*@ src/src/modules/permissions/db/user-roles.ts 75-93 revokeRole *)
Definition revoke_where (userId : string) (role : UserRoleKind) (scope : RoleScope)
    (r : UserRole) : bool :=
  role_of userId role r &&
  match scope with
  | ScopeGlobal => global_scope r
  | ScopeGroup g => sql_eq (ur_agent_group_id r) (Some g) && sql_is (ur_organization_id r) None
  | ScopeOrg o => sql_is (ur_agent_group_id r) None && sql_eq (ur_organization_id r) (Some o)
  end.

Definition scope_json (s : RoleScope) : json :=
  match s with
  | ScopeGlobal => JObj [("kind", JStr "global")]
  | ScopeGroup g => JObj [("kind", JStr "group"); ("agentGroupId", JStr g)]
  | ScopeOrg o => JObj [("kind", JStr "org"); ("organizationId", JStr o)]
  end.

(*@ src/src/modules/permissions/db/user-roles.ts 60-105 revokeRole *)
Definition revokeRole (now : time) (userId : string) (role : UserRoleKind) (scope : RoleScope)
    (revokedBy : option string) : dbM unit :=
  let* changes := query (λ db, sql_changes (revoke_where userId role scope) (user_roles db)) in
  modify (λ db, set_user_roles
    (sql_delete (revoke_where userId role scope) (user_roles db)) db) ;;
  if (0 <? changes)%nat then
    recordEnterpriseAudit now "user_role_revoked" None (scope_group scope) revokedBy
      (Some (JObj [("userId", JStr userId); ("role", JStr (role_name role));
                   ("scope", scope_json scope); ("removed", JNum (Z.of_nat changes))]))
  else ret tt.

(*@ src/src/modules/permissions/db/user-roles.ts 107-109 getUserRoles *)
Definition getUserRoles (db : CentralDb) (userId : string) : list UserRole :=
  sql_where (λ r, bool_decide (ur_user_id r = userId)) (user_roles db).

(*@ src/src/modules/permissions/db/user-roles.ts 111-118 isOwner *)
Definition isOwner (db : CentralDb) (userId : string) : bool :=
  sql_exists (λ r, role_of userId owner r && global_scope r) (user_roles db).

(*@ src/src/modules/permissions/db/user-roles.ts 120-127 isGlobalAdmin *)
Definition isGlobalAdmin (db : CentralDb) (userId : string) : bool :=
  sql_exists (λ r, role_of userId admin r && global_scope r) (user_roles db).

(*@ src/src/modules/permissions/db/user-roles.ts 129-134 isAdminOfAgentGroup *)
Definition isAdminOfAgentGroup (db : CentralDb) (userId agentGroupId : string) : bool :=
  sql_exists (λ r, role_of userId admin r && sql_eq (ur_agent_group_id r) (Some agentGroupId))
    (user_roles db).

(** [ORDER BY granted_at] *)
Definition by_granted_at (a b : UserRole) : bool := (ur_granted_at a <? ur_granted_at b)%Z.
Definition global_holders (db : CentralDb) (role : UserRoleKind) : list UserRole :=
  sql_order_by by_granted_at
    (sql_where (λ r, bool_decide (ur_role r = role) && global_scope r) (user_roles db)).

(*@ src/src/modules/permissions/db/user-roles.ts 150-156 getOwners *)
Definition getOwners (db : CentralDb) : list UserRole := global_holders db owner.
(*@ src/src/modules/permissions/db/user-roles.ts 158-163 hasAnyOwner *)
Definition hasAnyOwner (db : CentralDb) : bool :=
  sql_exists (λ r, bool_decide (ur_role r = owner) && global_scope r) (user_roles db).
(*@ src/src/modules/permissions/db/user-roles.ts 165-171 getGlobalAdmins *)
Definition getGlobalAdmins (db : CentralDb) : list UserRole := global_holders db admin.
(*@ src/src/modules/permissions/db/user-roles.ts 173-177 getAdminsOfAgentGroup *)
Definition getAdminsOfAgentGroup (db : CentralDb) (agentGroupId : string) : list UserRole :=
  sql_order_by by_granted_at
    (sql_where (λ r, bool_decide (ur_role r = admin) &&
                     sql_eq (ur_agent_group_id r) (Some agentGroupId)) (user_roles db)).
(*@ src/src/modules/permissions/db/user-roles.ts 187-194 hasGlobalOperabilityRole *)
Definition hasGlobalOperabilityRole (db : CentralDb) (userId : string) : bool :=
  sql_exists (λ r, operability_of userId r && global_scope r) (user_roles db).
(*@ src/src/modules/permissions/db/user-roles.ts 196-203 hasScopedOperabilityRole *)
Definition hasScopedOperabilityRole (db : CentralDb) (userId agentGroupId : string) : bool :=
  sql_exists (λ r, operability_of userId r && sql_eq (ur_agent_group_id r) (Some agentGroupId))
    (user_roles db).
(*@ src/src/modules/permissions/db/user-roles.ts 205-211 getOperators *)
Definition getOperators (db : CentralDb) : list UserRole := global_holders db operator.
(*@ src/src/modules/permissions/db/user-roles.ts 213-219 getViewers *)
Definition getViewers (db : CentralDb) : list UserRole := global_holders db viewer.

(** ** Organizations (src/modules/permissions/db/organizations.ts) *)

(*@ src/src/modules/permissions/db/organizations.ts 16-25 createOrganization *)
Definition createOrganization (now : time) (org : Organization) : dbM unit :=
  let* clash := query (λ db,
    sql_exists (λ r, bool_decide (org_id r = org_id org) ||
                     bool_decide (org_slug r = org_slug org)) (organizations db)) in
  if clash : bool then throw (SqliteConstraint "organizations")
  else
    modify (λ db, set_organizations (organizations db ++ [org]) db) ;;
    recordEnterpriseAudit now "organization_created" None None None
      (Some (JObj [("id", JStr (org_id org)); ("slug", JStr (org_slug org));
                   ("name", JStr (org_name org))])).

(*@ src/src/modules/permissions/db/organizations.ts 27-29 getOrganization *)
Definition getOrganization (db : CentralDb) (id : string) : option Organization :=
  sql_first (λ r, bool_decide (org_id r = id)) (organizations db).
(*@ src/src/modules/permissions/db/organizations.ts 31-33 getOrganizationBySlug *)
Definition getOrganizationBySlug (db : CentralDb) (slug : string) : option Organization :=
  sql_first (λ r, bool_decide (org_slug r = slug)) (organizations db).
(*@ src/src/modules/permissions/db/organizations.ts 35-37 getAllOrganizations *)
Definition getAllOrganizations (db : CentralDb) : list Organization :=
  sql_order_by (λ a b, (org_created_at a <? org_created_at b)%Z) (organizations db).

Definition org_member_row (organizationId userId : string) (r : OrganizationMember) : bool :=
  bool_decide (om_organization_id r = organizationId) && bool_decide (om_user_id r = userId).

Definition member_json (organizationId userId : string) : json :=
  JObj [("organizationId", JStr organizationId); ("userId", JStr userId)].

(** [INSERT OR IGNORE] skips an existing row; it does not skip a foreign key
    violation. *)
(*@ src/src/modules/permissions/db/organizations.ts 39-54 addOrgMember *)
Definition addOrgMember (now : time) (organizationId userId : string) (addedBy : option string)
    : dbM unit :=
  let* there := query (λ db, sql_exists (org_member_row organizationId userId)
                              (organization_members db)) in
  if there : bool then ret tt
  else
    let* ok := query (λ db, fk org_id (organizations db) (Some organizationId) &&
                            fk u_id (users db) (Some userId) && fk u_id (users db) addedBy) in
    if ok : bool then
      modify (λ db, set_organization_members (organization_members db ++
        [mkOrganizationMember organizationId userId addedBy now]) db) ;;
      recordEnterpriseAudit now "org_member_added" None None addedBy
        (Some (member_json organizationId userId))
    else throw (SqliteConstraint "organization_members").

(*@ src/src/modules/permissions/db/organizations.ts 56-67 removeOrgMember *)
Definition removeOrgMember (now : time) (organizationId userId : string)
    (removedBy : option string) : dbM unit :=
  let row := org_member_row organizationId userId in
  let* changes := query (λ db, sql_changes row (organization_members db)) in
  modify (λ db, set_organization_members (sql_delete row (organization_members db)) db) ;;
  if (0 <? changes)%nat then
    recordEnterpriseAudit now "org_member_removed" None None removedBy
      (Some (member_json organizationId userId))
  else ret tt.

(** [new Set()] filled in order. *)
Definition set_of (l : list string) : list string :=
  fold_left (λ acc x, if bool_decide (x ∈ acc) then acc else acc ++ [x]) l [].

(** The principals enrolled when a group joins an organization. *)
(*@ src/src/modules/permissions/db/organizations.ts 85-104 assignAgentGroupToOrg *)
Definition group_principals (db : CentralDb) (agentGroupId : string) : list string :=
  set_of (
    map agm_user_id (sql_where (λ r, bool_decide (agm_agent_group_id r = agentGroupId))
      (agent_group_members db)) ++
    map ur_user_id (sql_where (λ r, sql_eq (ur_agent_group_id r) (Some agentGroupId))
      (user_roles db)) ++
    map ur_user_id (sql_where global_scope (user_roles db))).

Definition org_member_count (db : CentralDb) (organizationId : string) : nat :=
  sql_changes (λ r, bool_decide (om_organization_id r = organizationId))
    (organization_members db).

Definition set_group_org (agentGroupId organizationId : string) (db : CentralDb) : CentralDb :=
  set_agent_groups (sql_update (λ r, bool_decide (ag_id r = agentGroupId))
    (λ r, mkAgentGroup (ag_id r) (ag_name r) (ag_folder r) (ag_agent_provider r)
            (ag_created_at r) (Some organizationId) (ag_role r)) (agent_groups db)) db.

(*@ src/src/modules/permissions/db/organizations.ts 69-120 assignAgentGroupToOrg *)
Definition assignAgentGroupToOrg (now : time) (agentGroupId organizationId : string)
    (actor : option string) : dbM Z :=
  let* fk_ok := query (λ db,
    negb (sql_exists (λ r, bool_decide (ag_id r = agentGroupId)) (agent_groups db)) ||
    fk org_id (organizations db) (Some organizationId)) in
  if fk_ok : bool then
    modify (set_group_org agentGroupId organizationId) ;;
    let* principals := query (λ db, group_principals db agentGroupId) in
    let* before := query (λ db, org_member_count db organizationId) in
    for_each principals (λ userId, addOrgMember now organizationId userId actor) ;;
    let* after := query (λ db, org_member_count db organizationId) in
    let enrolled := (Z.of_nat after - Z.of_nat before)%Z in
    recordEnterpriseAudit now "agent_group_org_assigned" None (Some agentGroupId) actor
      (Some (JObj [("organizationId", JStr organizationId);
                   ("enrolledMembers", JNum enrolled)])) ;;
    ret enrolled
  else throw (SqliteConstraint "agent_groups").

(*@ src/src/modules/permissions/db/organizations.ts 122-127 isMemberOfOrg *)
Definition isMemberOfOrg (db : CentralDb) (userId organizationId : string) : bool :=
  sql_exists (org_member_row organizationId userId) (organization_members db).

(*@ src/src/modules/permissions/db/organizations.ts 129-136 orgsForUser *)
Definition orgsForUser (db : CentralDb) (userId : string) : list string :=
  map om_organization_id
    (sql_where (λ r, bool_decide (om_user_id r = userId)) (organization_members db)).

(*@ src/src/modules/permissions/db/organizations.ts 138-143 orgOfAgentGroup *)
Definition orgOfAgentGroup (db : CentralDb) (agentGroupId : string) : option string :=
  match getAgentGroup db agentGroupId with
  | Some g => ag_organization_id g
  | None => None
  end.

(*@ src/src/modules/permissions/db/organizations.ts 145-154 isOrgAdmin *)
Definition isOrgAdmin (db : CentralDb) (userId organizationId : string) : bool :=
  sql_exists (λ r, role_of userId org_admin r &&
                   sql_eq (ur_organization_id r) (Some organizationId) &&
                   sql_is (ur_agent_group_id r) None) (user_roles db).

(*@ src/src/modules/permissions/db/organizations.ts 156-164 getOrgAdmins *)
Definition getOrgAdmins (db : CentralDb) (organizationId : string) : list string :=
  map ur_user_id (sql_order_by by_granted_at
    (sql_where (λ r, bool_decide (ur_role r = org_admin) &&
                     sql_eq (ur_organization_id r) (Some organizationId) &&
                     sql_is (ur_agent_group_id r) None) (user_roles db))).

(*@ src/src/modules/permissions/db/organizations.ts 166-175 hasOrgOperabilityRole *)
Definition hasOrgOperabilityRole (db : CentralDb) (userId organizationId : string) : bool :=
  sql_exists (λ r, operability_of userId r &&
                   sql_eq (ur_organization_id r) (Some organizationId) &&
                   sql_is (ur_agent_group_id r) None) (user_roles db).

(*@ src/src/modules/permissions/db/user-roles.ts 136-148 hasAdminPrivilege *)
Definition hasAdminPrivilege (db : CentralDb) (userId agentGroupId : string) : bool :=
  if isOwner db userId || isGlobalAdmin db userId then true
  else
    let org := orgOfAgentGroup db agentGroupId in
    match org with
    | Some o =>
        if negb (isMemberOfOrg db userId o) then false
        else if isOrgAdmin db userId o then true
        else isAdminOfAgentGroup db userId agentGroupId
    | None => isAdminOfAgentGroup db userId agentGroupId
    end.

(** ** Group membership (src/modules/permissions/db/agent-group-members.ts) *)

Definition member_row (userId agentGroupId : string) (r : AgentGroupMember) : bool :=
  bool_decide (agm_user_id r = userId) && bool_decide (agm_agent_group_id r = agentGroupId).

(*@ src/src/modules/permissions/db/agent-group-members.ts 5-12 addMember *)
Definition addMember (row : AgentGroupMember) : dbM unit :=
  let* there := query (λ db, sql_exists
    (member_row (agm_user_id row) (agm_agent_group_id row)) (agent_group_members db)) in
  if there : bool then ret tt
  else
    let* ok := query (λ db, fk u_id (users db) (Some (agm_user_id row)) &&
                            fk ag_id (agent_groups db) (Some (agm_agent_group_id row)) &&
                            fk u_id (users db) (agm_added_by row)) in
    if ok : bool then
      modify (λ db, set_agent_group_members (agent_group_members db ++ [row]) db)
    else throw (SqliteConstraint "agent_group_members").

(*@ src/src/modules/permissions/db/agent-group-members.ts 14-16 removeMember *)
Definition removeMember (userId agentGroupId : string) : dbM unit :=
  modify (λ db, set_agent_group_members
    (sql_delete (member_row userId agentGroupId) (agent_group_members db)) db).

(*@ src/src/modules/permissions/db/agent-group-members.ts 18-22 getMembers *)
Definition getMembers (db : CentralDb) (agentGroupId : string) : list AgentGroupMember :=
  sql_order_by (λ a b, (agm_added_at a <? agm_added_at b)%Z)
    (sql_where (λ r, bool_decide (agm_agent_group_id r = agentGroupId)) (agent_group_members db)).

(*@ src/src/modules/permissions/db/agent-group-members.ts 38-44 hasMembershipRow *)
Definition hasMembershipRow (db : CentralDb) (userId agentGroupId : string) : bool :=
  sql_exists (member_row userId agentGroupId) (agent_group_members db).

(*@ src/src/modules/permissions/db/agent-group-members.ts 24-36 isMember *)
Definition isMember (db : CentralDb) (userId agentGroupId : string) : bool :=
  if isOwner db userId || isGlobalAdmin db userId || isAdminOfAgentGroup db userId agentGroupId
  then true
  else sql_exists (member_row userId agentGroupId) (agent_group_members db).

(** ** Cached DM channels (src/modules/permissions/db/user-dms.ts) *)

Definition user_dm_row (userId channelType : string) (r : UserDm) : bool :=
  bool_decide (ud_user_id r = userId) && bool_decide (ud_channel_type r = channelType).

(*@ src/src/modules/permissions/db/user-dms.ts 4-14 upsertUserDm *)
Definition upsertUserDm (row : UserDm) : dbM unit :=
  let* ok := query (λ db, fk u_id (users db) (Some (ud_user_id row)) &&
                          fk mg_id (messaging_groups db) (Some (ud_messaging_group_id row))) in
  if ok : bool then
    modify (λ db,
      let same := user_dm_row (ud_user_id row) (ud_channel_type row) in
      if sql_exists same (user_dms db) then
        set_user_dms (sql_update same
          (λ r, mkUserDm (ud_user_id r) (ud_channel_type r) (ud_messaging_group_id row)
                  (ud_resolved_at row)) (user_dms db)) db
      else set_user_dms (user_dms db ++ [row]) db)
  else throw (SqliteConstraint "user_dms").

(*@ src/src/modules/permissions/db/user-dms.ts 16-19 getUserDm *)
Definition getUserDm (db : CentralDb) (userId channelType : string) : option UserDm :=
  sql_first (user_dm_row userId channelType) (user_dms db).
(*@ src/src/modules/permissions/db/user-dms.ts 21-23 getUserDmsForUser *)
Definition getUserDmsForUser (db : CentralDb) (userId : string) : list UserDm :=
  sql_where (λ r, bool_decide (ud_user_id r = userId)) (user_dms db).
(*@ src/src/modules/permissions/db/user-dms.ts 25-27 deleteUserDm *)
Definition deleteUserDm (userId channelType : string) : dbM unit :=
  modify (λ db, set_user_dms (sql_delete (user_dm_row userId channelType) (user_dms db)) db).

(** ** The access gates *)

(*@ src/src/modules/permissions/access.ts 23-25 AccessDecision *)
Inductive AccessDecision :=
| AllowedOwner | AllowedGlobalAdmin | AllowedOrgAdmin | AllowedAdminOfGroup | AllowedMember
| DeniedUnknownUser | DeniedNotMember | DeniedOperabilityOnly | DeniedCrossOrg.
#[export] Instance AccessDecision_eq : EqDecision AccessDecision.
Proof. solve_decision. Defined.
Definition allowed (d : AccessDecision) : bool :=
  match d with
  | AllowedOwner | AllowedGlobalAdmin | AllowedOrgAdmin | AllowedAdminOfGroup | AllowedMember => true
  | _ => false
  end.

(** [org !== null && p(org)] *)
Definition in_org (org : option string) (p : string → bool) : bool :=
  match org with Some o => p o | None => false end.

(*@ src/src/modules/permissions/access.ts 27-64 canAccessAgentGroup *)
Definition canAccessAgentGroup (db : CentralDb) (userId agentGroupId : string) : AccessDecision :=
  match getUser db userId with
  | None => DeniedUnknownUser
  | Some _ =>
      if isOwner db userId then AllowedOwner
      else if isGlobalAdmin db userId then AllowedGlobalAdmin
      else
        let org := orgOfAgentGroup db agentGroupId in
        if in_org org (λ o, negb (isMemberOfOrg db userId o)) then DeniedCrossOrg
        else if in_org org (isOrgAdmin db userId) then AllowedOrgAdmin
        else if isAdminOfAgentGroup db userId agentGroupId then AllowedAdminOfGroup
        else if isMember db userId agentGroupId then AllowedMember
        else if hasGlobalOperabilityRole db userId ||
                hasScopedOperabilityRole db userId agentGroupId ||
                in_org org (hasOrgOperabilityRole db userId)
        then DeniedOperabilityOnly
        else DeniedNotMember
  end.

(*@ src/src/modules/permissions/operability.ts 1-47 canOperate *)
Definition canOperate (db : CentralDb) (userId : string) (agentGroupId : option string) : bool :=
  match getUser db userId with
  | None => false
  | Some _ =>
      if isOwner db userId || isGlobalAdmin db userId || hasGlobalOperabilityRole db userId then true
      else if truthy agentGroupId then
        let ag := default "" agentGroupId in
        let org := orgOfAgentGroup db ag in
        if in_org org (λ o, negb (isMemberOfOrg db userId o)) then false
        else if isAdminOfAgentGroup db userId ag || hasScopedOperabilityRole db userId ag then true
        else in_org org (λ o, isOrgAdmin db userId o || hasOrgOperabilityRole db userId o)
      else false
  end.

(** ** The command gate (src/command-gate.ts) *)

(*@ src/src/command-gate.ts 14-14 GateResult *)
Inductive GateResult := GatePass | GateFilter | GateDeny (command : string).

(*@ src/src/command-gate.ts 33-33 FILTERED_COMMANDS *)
Definition FILTERED_COMMANDS : list string :=
  ["/help"; "/login"; "/logout"; "/doctor"; "/config"; "/remote-control"].
(*@ src/src/command-gate.ts 34-34 ADMIN_COMMANDS *)
Definition ADMIN_COMMANDS : list string := ["/clear"; "/compact"; "/context"; "/cost"; "/files"].

(** The gate's own admin test; [escape] is [adminWithoutRolesAllowed()], the
    cached reading of [.env]. *)
(*@ src/src/command-gate.ts 68-85 isAdmin *)
Definition gate_isAdmin (escape_hatch : bool) (db : CentralDb) (userId : option string)
    (agentGroupId : string) : bool :=
  match userId with
  | None => false
  | Some u =>
      if bool_decide (u = "") then false
      else if negb (hasTable db "user_roles") then escape_hatch
      else sql_exists (λ r, bool_decide (ur_user_id r = u) &&
             (bool_decide (ur_role r = owner) || bool_decide (ur_role r = admin)) &&
             (sql_is (ur_agent_group_id r) None ||
              sql_eq (ur_agent_group_id r) (Some agentGroupId))) (user_roles db)
  end.

(** The text the gate classifies.  [parsed.text || ''] then [.trim()]: a text
    that is truthy and not a string throws, as does [null.text], and the
    [catch] falls back on the raw content. *)
(*@ src/src/command-gate.ts 43-49 gateCommand *)
Definition gate_text (content : string) : string :=
  match JSON_parse content with
  | None => trim content
  | Some parsed =>
      match jget "text" parsed with
      | AThrow => trim content
      | AValue v =>
          if jtruthy v then
            match jstring v with Some t => trim t | None => trim content end
          else ""
      end
  end.

Definition gate_command (content : string) : string :=
  toLowerCase (first_word (gate_text content)).

(*@ src/src/command-gate.ts 36-66 gateCommand *)
Definition gateCommand (escape_hatch : bool) (db : CentralDb) (content : string)
    (userId : option string) (agentGroupId : string) : GateResult :=
  if negb (startsWith (gate_text content) "/") then GatePass
  else
    let command := gate_command content in
    if bool_decide (command ∈ FILTERED_COMMANDS) then GateFilter
    else if bool_decide (command ∈ ADMIN_COMMANDS) then
      if gate_isAdmin escape_hatch db userId agentGroupId then GatePass else GateDeny command
    else GatePass.
