(* ===== verification/PermissionsProofs.v ===== *)
(** * What the permission model guarantees *)
From S2P Require Import Prelude JsString Json Types Central Permissions.

Local Open Scope string_scope.
Local Open Scope list_scope.

(** ** The policy, stated on the rows *)

(** [u] holds a row of [user_roles] that satisfies [p]. *)
Definition holds (db : CentralDb) (u : string) (p : UserRole → Prop) : Prop :=
  ∃ r, r ∈ user_roles db ∧ ur_user_id r = u ∧ p r.

Definition platform_admin (db : CentralDb) (u : string) : Prop :=
  holds db u (λ r, (ur_role r = owner ∨ ur_role r = admin) ∧
                   ur_agent_group_id r = None ∧ ur_organization_id r = None).
Definition platform_operator (db : CentralDb) (u : string) : Prop :=
  holds db u (λ r, (ur_role r = operator ∨ ur_role r = viewer) ∧
                   ur_agent_group_id r = None ∧ ur_organization_id r = None).
Definition org_roster (db : CentralDb) (u o : string) : Prop :=
  ∃ r, r ∈ organization_members db ∧ om_organization_id r = o ∧ om_user_id r = u.
Definition group_roster (db : CentralDb) (u g : string) : Prop :=
  ∃ r, r ∈ agent_group_members db ∧ agm_user_id r = u ∧ agm_agent_group_id r = g.
Definition org_admin_of (db : CentralDb) (u o : string) : Prop :=
  holds db u (λ r, ur_role r = org_admin ∧ ur_organization_id r = Some o ∧
                   ur_agent_group_id r = None).
Definition group_admin_of (db : CentralDb) (u g : string) : Prop :=
  holds db u (λ r, ur_role r = admin ∧ ur_agent_group_id r = Some g).
Definition known (db : CentralDb) (u : string) : Prop := ∃ r, r ∈ users db ∧ u_id r = u.

(** Who may reach a group. *)
Definition may_route (db : CentralDb) (u g : string) : Prop :=
  known db u ∧
  (platform_admin db u ∨
   (∀ o, orgOfAgentGroup db g = Some o → org_roster db u o) ∧
   ((∃ o, orgOfAgentGroup db g = Some o ∧ org_admin_of db u o) ∨
    group_admin_of db u g ∨ group_roster db u g)).

(** Who may decide for a group (approval cards). *)
Definition may_administer (db : CentralDb) (u g : string) : Prop :=
  platform_admin db u ∨
  (∀ o, orgOfAgentGroup db g = Some o → org_roster db u o) ∧
  ((∃ o, orgOfAgentGroup db g = Some o ∧ org_admin_of db u o) ∨ group_admin_of db u g).

Section reads.
  Context (db : CentralDb) (u : string).

Lemma getUser_known : known db u ↔ is_Some (getUser db u).
Proof.
  unfold known, getUser. split.
  - intros (r & Hr & Hu). destruct (sql_first _ _) eqn:E; [done|].
    pose proof (sql_first_None _ _ r E Hr) as H. rewrite bool_decide_eq_false in H. done.
  - intros [r H%sql_first_Some]. exists r. rewrite bool_decide_eq_true in H. done.
Qed.

Lemma role_of_true k r : role_of u k r = true ↔ ur_user_id r = u ∧ ur_role r = k.
Proof. unfold role_of. by rewrite andb_true_iff, !bool_decide_eq_true. Qed.
Lemma global_scope_true r :
  global_scope r = true ↔ ur_agent_group_id r = None ∧ ur_organization_id r = None.
Proof. unfold global_scope. by rewrite andb_true_iff, !sql_is_true. Qed.
Lemma operability_of_true r :
  operability_of u r = true ↔ ur_user_id r = u ∧ (ur_role r = operator ∨ ur_role r = viewer).
Proof. unfold operability_of. by rewrite andb_true_iff, orb_true_iff, !bool_decide_eq_true. Qed.

Lemma sql_eq_Some_r a x : sql_eq a (Some x) = true ↔ a = Some x.
Proof. rewrite sql_eq_true. naive_solver. Qed.

Lemma isOwner_admin : isOwner db u || isGlobalAdmin db u = true ↔ platform_admin db u.
Proof.
  unfold isOwner, isGlobalAdmin, platform_admin, holds.
  rewrite orb_true_iff, !sql_exists_true.
  setoid_rewrite andb_true_iff. setoid_rewrite role_of_true.
  setoid_rewrite global_scope_true. naive_solver.
Qed.
Lemma isAdminOfAgentGroup_true g : isAdminOfAgentGroup db u g = true ↔ group_admin_of db u g.
Proof.
  unfold isAdminOfAgentGroup, group_admin_of, holds. rewrite sql_exists_true.
  setoid_rewrite andb_true_iff. setoid_rewrite role_of_true.
  setoid_rewrite sql_eq_Some_r. naive_solver.
Qed.
Lemma isOrgAdmin_true o : isOrgAdmin db u o = true ↔ org_admin_of db u o.
Proof.
  unfold isOrgAdmin, org_admin_of, holds. rewrite sql_exists_true.
  setoid_rewrite andb_true_iff. setoid_rewrite andb_true_iff. setoid_rewrite role_of_true.
  setoid_rewrite sql_eq_Some_r. setoid_rewrite sql_is_true. naive_solver.
Qed.
Lemma isMemberOfOrg_true o : isMemberOfOrg db u o = true ↔ org_roster db u o.
Proof.
  unfold isMemberOfOrg, org_roster, org_member_row. rewrite sql_exists_true.
  setoid_rewrite andb_true_iff. setoid_rewrite bool_decide_eq_true. naive_solver.
Qed.
Lemma hasMembershipRow_true g : hasMembershipRow db u g = true ↔ group_roster db u g.
Proof.
  unfold hasMembershipRow, group_roster, member_row. rewrite sql_exists_true.
  setoid_rewrite andb_true_iff. setoid_rewrite bool_decide_eq_true. naive_solver.
Qed.
Lemma hasGlobalOperabilityRole_true : hasGlobalOperabilityRole db u = true ↔ platform_operator db u.
Proof.
  unfold hasGlobalOperabilityRole, platform_operator, holds. rewrite sql_exists_true.
  setoid_rewrite andb_true_iff. setoid_rewrite operability_of_true.
  setoid_rewrite global_scope_true. naive_solver.
Qed.

Lemma in_org_true org p : in_org org p = true ↔ ∃ o, org = Some o ∧ p o = true.
Proof. destruct org; simpl; naive_solver. Qed.
(** The tenant prerequisite of the three gates. *)
Lemma org_prerequisite org :
  in_org org (λ o, negb (isMemberOfOrg db u o)) = false ↔
  ∀ o, org = Some o → org_roster db u o.
Proof.
  destruct org as [o|]; simpl; [|naive_solver].
  rewrite negb_false_iff, isMemberOfOrg_true. naive_solver.
Qed.
End reads.

(** the routing gate is the policy: a known user is let in exactly when a
    platform admin, or when the tenant prerequisite holds (a member of the
    group's organization, if it has one) and the user is that organization's
    admin, the group's admin or on the group's roster. *)
Theorem canAccess_policy db u g :
  allowed (canAccessAgentGroup db u g) = true ↔ may_route db u g.
Proof.
  unfold canAccessAgentGroup, may_route. rewrite getUser_known.
  destruct (getUser db u) as [r|]; [|split; [done|by intros [[? ?] _]]].
  rewrite <-(isOwner_admin db u), <-(org_prerequisite db u), <-(isAdminOfAgentGroup_true db u g),
    <-(hasMembershipRow_true db u g).
  setoid_rewrite <-(isOrgAdmin_true db u).
  rewrite <-(in_org_true _ (isOrgAdmin db u)).
  unfold isMember. fold (hasMembershipRow db u g).
  destruct (isOwner db u), (isGlobalAdmin db u); simpl; try (split; [by eauto|done]).
  destruct (in_org _ (λ o, negb _)); [naive_solver|].
  destruct (in_org _ _); [naive_solver|].
  destruct (isAdminOfAgentGroup db u g); [naive_solver|].
  destruct (hasMembershipRow db u g); [naive_solver|].
  destruct (_ || _); naive_solver.
Qed.

Lemma hasAdminPrivilege_policy db u g :
  hasAdminPrivilege db u g = true ↔ may_administer db u g.
Proof.
  unfold hasAdminPrivilege, may_administer.
  rewrite <-(isOwner_admin db u), <-(org_prerequisite db u), <-(isAdminOfAgentGroup_true db u g).
  setoid_rewrite <-(isOrgAdmin_true db u).
  rewrite <-(in_org_true _ (isOrgAdmin db u)).
  destruct (_ || _); [naive_solver|].
  destruct (orgOfAgentGroup db g) as [o|]; simpl; [|naive_solver].
  destruct (isMemberOfOrg db u o); simpl; [|naive_solver].
  destruct (isOrgAdmin db u o); naive_solver.
Qed.


(** ** Operability roles grant nothing but operability *)

Definition is_operability (r : UserRole) : bool :=
  bool_decide (ur_role r = operator) || bool_decide (ur_role r = viewer).
(** The database without its operator and viewer rows. *)
Definition without_operability (db : CentralDb) : CentralDb :=
  set_user_roles (sql_delete is_operability (user_roles db)) db.

Lemma holds_without_operability db u p :
  (∀ r, p r → is_operability r = false) →
  holds (without_operability db) u p ↔ holds db u p.
Proof.
  intros Hp. unfold holds. simpl. setoid_rewrite elem_of_sql_delete. naive_solver.
Qed.

Lemma is_operability_false r :
  ur_role r = owner ∨ ur_role r = admin ∨ ur_role r = org_admin → is_operability r = false.
Proof. unfold is_operability. by intros [->|[->| ->]]. Qed.

Lemma may_administer_without_operability db u g :
  may_administer (without_operability db) u g ↔ may_administer db u g.
Proof.
  unfold may_administer, platform_admin, org_admin_of, group_admin_of.
  rewrite !holds_without_operability; [|intros r; pose proof (is_operability_false r); tauto..].
  setoid_rewrite holds_without_operability; [done|].
  intros r; pose proof (is_operability_false r); tauto.
Qed.

(** operator and viewer rows are not read by the routing gate's verdict, by
    admin privilege or by the command gate: deleting all of them from the
    database changes none of the three answers for any user and group. *)
Theorem operability_grants_no_power db hatch u g :
  let db' := without_operability db in
  allowed (canAccessAgentGroup db' u g) = allowed (canAccessAgentGroup db u g) ∧
  hasAdminPrivilege db' u g = hasAdminPrivilege db u g ∧
  gate_isAdmin hatch db' (Some u) g = gate_isAdmin hatch db (Some u) g.
Proof.
  intros db'. repeat split; apply eq_true_iff_eq.
  - rewrite !canAccess_policy. unfold may_route, platform_admin, org_admin_of, group_admin_of.
    subst db'. rewrite !holds_without_operability;
      [|intros r; pose proof (is_operability_false r); tauto..].
    setoid_rewrite holds_without_operability; [done|].
    intros r; pose proof (is_operability_false r); tauto.
  - rewrite !hasAdminPrivilege_policy. apply may_administer_without_operability.
  - unfold gate_isAdmin, hasTable. subst db'. simpl. repeat case_match; try done.
    rewrite !sql_exists_true. setoid_rewrite elem_of_sql_delete.
    split; [naive_solver|]. intros (r & Hr & Hp). exists r. split_and!; [done| |done].
    apply andb_true_iff in Hp as [[_ Hk]%andb_true_iff _].
    apply is_operability_false. apply orb_true_iff in Hk as [Hk|Hk]; to_prop; auto.
Qed.

(** ** Grants and revokes *)

(** The scope a row was granted at; [None] for a row with both axes set. *)
Definition row_scope (r : UserRole) : option RoleScope :=
  match ur_agent_group_id r, ur_organization_id r with
  | None, None => Some ScopeGlobal
  | Some g, None => Some (ScopeGroup g)
  | None, Some o => Some (ScopeOrg o)
  | Some _, Some _ => None
  end.

(** The pairing of roles and scopes of ADR-0052. *)
Definition scope_fits (role : UserRoleKind) (s : RoleScope) : Prop :=
  match role, s with
  | owner, ScopeGlobal | org_admin, ScopeOrg _
  | admin, (ScopeGlobal | ScopeGroup _) | (operator | viewer), _ => True
  | _, _ => False
  end.
Definition role_row_wf (r : UserRole) : Prop := ∃ s, row_scope r = Some s ∧ scope_fits (ur_role r) s.
Definition roles_wf (db : CentralDb) : Prop := ∀ r, r ∈ user_roles db → role_row_wf r.

Lemma row_scope_of s u k by_ at_ :
  row_scope (mkUserRole u k (scope_group s) (scope_org s) by_ at_) = Some s.
Proof. by destruct s. Qed.

Lemma grantRole_cases now u k s by_ at_ db :
  let row := mkUserRole u k (scope_group s) (scope_org s) by_ (default now at_) in
  match grantRole now u k s by_ at_ db with
  | (Ok _, db') => scope_fits k s ∧ user_roles db' = user_roles db ++ [row]
  | (Throw _, db') => db' = db
  end.
Proof.
  unfold grantRole, bind, throw, query, gets, modify, recordEnterpriseAudit.
  destruct k, s; cbn [scope_group scope_org scope_fits]; decide_consts; try done;
    destruct_if; done.
Qed.

(** C39: only well-formed role rows can enter the table.  [grantRole] and
    [revokeRole] keep every row scoped on at most one axis, with owner global,
    org-admin on an organization and admin never on one; a grant that throws
    leaves the database as it was, and one that returns appends exactly its row. *)
Theorem roles_stay_wellformed now u k s by_ at_ db :
  (roles_wf db → roles_wf (grantRole now u k s by_ at_ db).2 ∧
                 roles_wf (revokeRole now u k s by_ db).2) ∧
  match grantRole now u k s by_ at_ db with
  | (Ok _, db') => scope_fits k s ∧ user_roles db' = user_roles db ++
      [mkUserRole u k (scope_group s) (scope_org s) by_ (default now at_)]
  | (Throw _, db') => db' = db
  end.
Proof.
  pose proof (grantRole_cases now u k s by_ at_ db) as Hg. simpl in Hg.
  split; [|exact Hg]. intros Hwf. split.
  - destruct (grantRole _ _ _ _ _ _ _) as [[[]|e] db']; simpl; [|by subst].
    destruct Hg as [Hs Hr]. intros r. rewrite Hr, elem_of_app, list_elem_of_singleton.
    intros [?| ->]; [by apply Hwf|]. exists s. split; [apply row_scope_of|done].
  - intros r. unfold revokeRole, bind, query, gets, modify, recordEnterpriseAudit.
    cbn [fst snd]. destruct_if; simpl; intros [Hr _]%elem_of_sql_delete; by apply Hwf.
Qed.

Lemma revoke_where_true u k s r :
  revoke_where u k s r = true ↔ ur_user_id r = u ∧ ur_role r = k ∧ row_scope r = Some s.
Proof.
  unfold revoke_where. rewrite andb_true_iff, role_of_true. unfold row_scope.
  destruct s; [rewrite global_scope_true|rewrite andb_true_iff, sql_eq_Some_r, sql_is_true|
    rewrite andb_true_iff, sql_eq_Some_r, sql_is_true];
    destruct (ur_agent_group_id r), (ur_organization_id r); naive_solver.
Qed.

(** a revoke removes exactly the rows of its user, role and scope, so the
    three scope axes are disjoint: a global revoke never touches an
    organization's or a group's grant.  It writes an audit row if and only if
    it removed one. *)
Theorem revokeRole_exact now u k s by_ db :
  let db' := (revokeRole now u k s by_ db).2 in
  (∀ r, r ∈ user_roles db' ↔
        r ∈ user_roles db ∧ ¬ (ur_user_id r = u ∧ ur_role r = k ∧ row_scope r = Some s)) ∧
  (length (enterprise_audit db') =
     (length (enterprise_audit db) +
      if sql_exists (revoke_where u k s) (user_roles db) then 1 else 0))%nat.
Proof.
  unfold revokeRole, bind, query, gets, modify, recordEnterpriseAudit, ret.
  destruct (sql_exists (revoke_where u k s) (user_roles db)) eqn:Ee.
  - assert ((0 <? sql_changes (revoke_where u k s) (user_roles db))%nat = true) as ->.
    { apply Nat.ltb_lt, Nat.neq_0_lt_0. rewrite sql_changes_zero. intros H.
      apply sql_exists_false in H. congruence. }
    simpl. split; [|rewrite length_app; simpl; lia].
    intros r. by rewrite elem_of_sql_delete, <-revoke_where_true, not_true_iff_false.
  - assert (sql_changes (revoke_where u k s) (user_roles db) = 0) as ->.
    { by apply sql_changes_zero, sql_exists_false. }
    simpl. split; [|lia].
    intros r. by rewrite elem_of_sql_delete, <-revoke_where_true, not_true_iff_false.
Qed.

(** ** Moving a group into an organization *)

(** The foreign keys of the principals' tables, as SQLite enforces them. *)
Definition principals_known (db : CentralDb) : Prop :=
  (∀ r, r ∈ user_roles db → known db (ur_user_id r)) ∧
  (∀ r, r ∈ agent_group_members db → known db (agm_user_id r)).

Lemma fk_true {R} (key : R → string) t k :
  fk key t (Some k) = true ↔ ∃ r, r ∈ t ∧ key r = k.
Proof. unfold fk. rewrite sql_exists_true. by setoid_rewrite bool_decide_eq_true. Qed.

(** [db'] differs from [db] at most in audits and in more organization members. *)
Record roster_grows (db db' : CentralDb) : Prop := {
  rg_users : users db' = users db;
  rg_roles : user_roles db' = user_roles db;
  rg_members : agent_group_members db' = agent_group_members db;
  rg_groups : agent_groups db' = agent_groups db;
  rg_orgs : organizations db' = organizations db;
  rg_roster : ∀ r, r ∈ organization_members db → r ∈ organization_members db' }.

#[export] Instance roster_grows_preorder : PreOrder roster_grows.
Proof.
  split; [by split|]. intros d1 d2 d3 [] []. split; try congruence. eauto.
Qed.

Lemma org_roster_grows db db' u o : roster_grows db db' → org_roster db u o → org_roster db' u o.
Proof. intros [] (r & ? & ?). exists r. eauto. Qed.

Definition actor_known (db : CentralDb) (actor : option string) : Prop :=
  ∀ a, actor = Some a → known db a.

Lemma addOrgMember_enrolls now o u actor db :
  (∃ r, r ∈ organizations db ∧ org_id r = o) → known db u → actor_known db actor →
  ∃ db', addOrgMember now o u actor db = (Ok tt, db') ∧
         roster_grows db db' ∧ org_roster db' u o.
Proof.
  intros Ho Hu Ha. unfold addOrgMember, bind, query, gets. cbn [fst snd].
  destruct (sql_exists (org_member_row o u) (organization_members db)) eqn:E.
  - exists db. split; [done|]. split; [done|]. by apply isMemberOfOrg_true.
  - assert (fk u_id (users db) actor = true) as Hfa.
    { destruct actor as [a|]; [|done]. apply fk_true. by destruct (Ha a eq_refl) as (r&?&?); exists r. }
    rewrite (proj2 (fk_true org_id _ o) Ho), (proj2 (fk_true u_id _ u) Hu), Hfa. simpl.
    eexists. split; [reflexivity|]. split.
    + split; try done. simpl. set_solver.
    + eexists. simpl. split; [apply elem_of_app; right; left|done].
Qed.

Lemma enroll_all now o actor l db :
  (∃ r, r ∈ organizations db ∧ org_id r = o) → (∀ u, u ∈ l → known db u) →
  actor_known db actor →
  ∃ db', for_each l (λ u, addOrgMember now o u actor) db = (Ok tt, db') ∧
         roster_grows db db' ∧ ∀ u, u ∈ l → org_roster db' u o.
Proof.
  revert db. induction l as [|u l IH]; intros db Ho Hl Ha.
  { exists db. split; [done|]. split; [done|]. set_solver. }
  destruct (addOrgMember_enrolls now o u actor db) as (db1 & E1 & Hg1 & Hu);
    [done|apply Hl; left|done|].
  pose proof Hg1 as [Hu1 _ _ _ Ho1 _].
  destruct (IH db1) as (db2 & E2 & Hg2 & Hall).
  - by rewrite Ho1.
  - intros u' Hin. unfold known. rewrite Hu1. apply Hl. by right.
  - intros a Ea. unfold known. rewrite Hu1. by apply Ha.
  - exists db2. split; [|split].
    + simpl. unfold bind. by rewrite E1.
    + by transitivity db1.
    + intros u' [->|Hin]%elem_of_cons; [by eapply org_roster_grows|by apply Hall].
Qed.

Lemma elem_of_set_of l x : x ∈ set_of l ↔ x ∈ l.
Proof.
  unfold set_of. cut (∀ acc, x ∈ fold_left
    (λ acc x, if bool_decide (x ∈ acc) then acc else acc ++ [x]) l acc ↔ x ∈ acc ∨ x ∈ l).
  { intros H. rewrite H. set_solver. }
  induction l as [|y l IH]; intros acc; simpl; [set_solver|].
  rewrite IH. case_bool_decide; set_solver.
Qed.

Lemma elem_of_group_principals db g u :
  u ∈ group_principals db g ↔
  group_roster db u g ∨ (∃ r, r ∈ user_roles db ∧ ur_user_id r = u ∧
    (ur_agent_group_id r = Some g ∨ global_scope r = true)).
Proof.
  unfold group_principals, group_roster. rewrite elem_of_set_of, !elem_of_app.
  rewrite !list_elem_of_fmap. setoid_rewrite elem_of_sql_where.
  setoid_rewrite bool_decide_eq_true. setoid_rewrite sql_eq_Some_r. naive_solver.
Qed.

Lemma orgOfAgentGroup_set_group_org g o db o' :
  orgOfAgentGroup (set_group_org g o db) g = Some o' → o' = o.
Proof.
  unfold orgOfAgentGroup, getAgentGroup. simpl.
  destruct (sql_first _ _) as [r|] eqn:E; [|done]. apply sql_first_Some in E as [Hr Hid].
  apply elem_of_sql_update in Hr as (r0 & _ & ->). to_prop.
  case_bool_decide as Hd; simpl in *; [congruence|done].
Qed.

(** assigning an un-orged group to an organization locks nobody out.  With
    the organization present and the foreign keys intact the assignment
    returns, and every user who could reach the group before can reach it
    after. *)
Theorem assign_locks_nobody_out now g o actor db :
  orgOfAgentGroup db g = None → (∃ r, r ∈ organizations db ∧ org_id r = o) →
  principals_known db → actor_known db actor →
  ∃ n db', assignAgentGroupToOrg now g o actor db = (Ok n, db') ∧
    ∀ u, allowed (canAccessAgentGroup db u g) = true →
         allowed (canAccessAgentGroup db' u g) = true.
Proof.
  intros Hnone Horg [Hkr Hkm] Hact. set (db1 := set_group_org g o db).
  destruct (enroll_all now o actor (group_principals db1 g) db1) as (db2 & E & Hg & Hall).
  { exact Horg. }
  { intros u [(r & Hr & <- & _)|(r & Hr & <- & _)]%elem_of_group_principals;
      [by apply Hkm|by apply Hkr]. }
  { exact Hact. }
  unfold assignAgentGroupToOrg, bind at 1, query, gets.
  rewrite (proj2 (fk_true org_id _ o) Horg), orb_true_r.
  unfold bind, modify. fold db1. rewrite E. simpl.
  eexists _, _. split; [reflexivity|]. intros u.
  rewrite !canAccess_policy. intros [Hu Hp].
  destruct Hg as [Hg1 Hg2 Hg3 Hg4 _ _].
  assert (∀ d, users d = users db2 → user_roles d = user_roles db2 →
    agent_group_members d = agent_group_members db2 →
    agent_groups d = agent_groups db2 → organization_members d = organization_members db2 →
    may_route d u g) as Hgoal; [|by apply Hgoal].
  intros d Hd1 Hd2 Hd3 Hd4 Hd5.
  unfold may_route, known, platform_admin, org_admin_of, group_admin_of, group_roster, holds.
  rewrite Hd1, Hd2, Hd3, Hg1, Hg2, Hg3. split; [done|].
  destruct Hp as [?|[_ Hp]]; [by left|right].
  destruct Hp as [(o1 & Ho1 & _)|Hp]; [congruence|].
  split; [|by right]. intros o' Ho'.
  assert (o' = o) as ->.
  { apply (orgOfAgentGroup_set_group_org g o db). fold db1.
    unfold orgOfAgentGroup, getAgentGroup in *. by rewrite <-Hg4, <-Hd4. }
  assert (org_roster db2 u o) as (r & Hr & ?); [|exists r; by rewrite Hd5].
  apply Hall, elem_of_group_principals.
  destruct Hp as [(r & Hr & Hu1 & Hk & Hg')|Hm]; [right|by left].
  exists r. auto.
Qed.

(** ** The command gate against the permission model *)

(** an administrative command gets past the command gate only for a user who
    holds an owner or admin row that is global or on this very group: with the
    roles table installed and well-formed rows the gate's admin test is exactly
    owner, global admin or group admin.  It reads no organization, so it lets
    through a group admin whose [hasAdminPrivilege] the tenant prerequisite
    takes away, and it stops an org-admin who has [hasAdminPrivilege]. *)
Theorem command_gate_admins hatch db u g content :
  roles_wf db → hasTable db "user_roles" = true → u ≠ "" →
  gate_command content ∈ ADMIN_COMMANDS → startsWith (gate_text content) "/" = true →
  gateCommand hatch db content (Some u) g =
    if isOwner db u || isGlobalAdmin db u || isAdminOfAgentGroup db u g
    then GatePass else GateDeny (gate_command content).
Proof.
  intros Hwf Ht Hu Hc Hs. unfold gateCommand. rewrite Hs. simpl.
  assert (gate_command content ∉ FILTERED_COMMANDS) as Hf.
  { revert Hc. unfold ADMIN_COMMANDS, FILTERED_COMMANDS.
    rewrite !elem_of_cons. intros Hc; destruct_or!; try (rewrite Hc; set_solver).
    by apply elem_of_nil in Hc. }
  rewrite bool_decide_eq_false_2, bool_decide_eq_true_2 by done.
  unfold gate_isAdmin. rewrite bool_decide_eq_false_2, Ht by done. simpl.
  match goal with |- (if ?a then _ else _) = (if ?b then _ else _) =>
    assert (a = b) as ->; [|done] end.
  apply eq_true_iff_eq. rewrite orb_true_iff, isOwner_admin, isAdminOfAgentGroup_true.
  unfold platform_admin, group_admin_of, holds. rewrite sql_exists_true.
  repeat setoid_rewrite andb_true_iff. setoid_rewrite orb_true_iff.
  setoid_rewrite sql_is_true. setoid_rewrite sql_eq_Some_r.
  setoid_rewrite bool_decide_eq_true. split.
  - intros (r & Hr & [<- Hk] & Hg).
    destruct (Hwf r Hr) as (s & Hs' & Hfit). revert Hs' Hfit. unfold row_scope.
    destruct Hg as [Hg|Hg]; rewrite Hg;
      destruct Hk as [Hk|Hk]; rewrite Hk; destruct (ur_organization_id r) eqn:Eo;
      intros [= <-]; simpl; try done; intros _; [left|left|right]; exists r; auto.
  - intros [(r & Hr & Hu' & Hk & Hg & _)|(r & Hr & Hu' & Hk & Hg)]; exists r; auto.
Qed.

(** ** A concrete organization *)

Definition sample_db : CentralDb :=
  set_organizations [mkOrganization "acme" "Acme" "acme" 0]
  (set_agent_groups [mkAgentGroup "g1" "G1" "f1" None 0 (Some "acme") None;
                     mkAgentGroup "g2" "G2" "f2" None 0 None None]
  (set_users (map (λ u, mkUser u "feishu" None 0) ["ada"; "bob"; "cat"; "oli"])
  (set_user_roles [mkUserRole "ada" owner None None None 0;
                   mkUserRole "bob" admin (Some "g1") None None 0;
                   mkUserRole "cat" org_admin None (Some "acme") None 0;
                   mkUserRole "oli" operator (Some "g1") None None 0]
  (set_organization_members [mkOrganizationMember "acme" "cat" None 0]
  (set_agent_group_members [mkAgentGroupMember "bob" "g2" None 0]
  (set_installed ["user_roles"] emptyDb)))))).

Lemma sample_db_roles_wf : roles_wf sample_db.
Proof.
  intros r Hr. unfold sample_db in Hr. simpl in Hr.
  repeat (apply elem_of_cons in Hr as [->|Hr]; [eexists; split; [reflexivity|done]|]).
  by apply elem_of_nil in Hr.
Qed.


Lemma assign_locks_nobody_out_witness :
  ∃ n db', assignAgentGroupToOrg 5 "g2" "acme" (Some "ada") sample_db = (Ok n, db') ∧
    allowed (canAccessAgentGroup db' "bob" "g2") = true.
Proof.
  destruct (assign_locks_nobody_out 5 "g2" "acme" (Some "ada") sample_db) as (n & db' & E & H).
  - reflexivity.
  - eexists. split; [left|reflexivity].
  - split; intros r Hr; apply getUser_known; revert r Hr; apply Forall_forall;
      repeat constructor; vm_compute; eauto.
  - intros a [= <-]. apply getUser_known. vm_compute. eauto.
  - exists n, db'. split; [exact E|]. apply H. vm_compute. reflexivity.
Defined.

(** The gate passes Bob and stops Cat, although only Cat has admin privilege. *)
Lemma command_gate_admins_witness :
  gateCommand false sample_db "/Clear now" (Some "bob") "g1" = GatePass ∧
  hasAdminPrivilege sample_db "bob" "g1" = false ∧
  gateCommand false sample_db "/Clear now" (Some "cat") "g1" = GateDeny "/clear" ∧
  hasAdminPrivilege sample_db "cat" "g1" = true.
Proof.
  split_and!; [|vm_compute; reflexivity| |vm_compute; reflexivity].
  - rewrite (command_gate_admins false sample_db "bob" "g1" "/Clear now" sample_db_roles_wf);
      [vm_compute; reflexivity|vm_compute; reflexivity|done| |vm_compute; reflexivity].
    by apply (bool_decide_unpack _).
  - rewrite (command_gate_admins false sample_db "cat" "g1" "/Clear now" sample_db_roles_wf);
      [vm_compute; reflexivity|vm_compute; reflexivity|done| |vm_compute; reflexivity].
    by apply (bool_decide_unpack _).
Defined.
