(* ===== verification/DmGrants.v ===== *)
(** * Consent grants, rate ledger and reservations of roster messages
    (src/db/dm-grants.ts)

    The clock argument [now] is the [Date] each function takes or defaults. *)
From S2P Require Import Prelude JsString Json Types Central.

Local Open Scope string_scope.
Local Open Scope Z_scope.
Local Open Scope list_scope.

(** ** Grants *)

(*@ src/src/db/dm-grants.ts 26-27 ALLOWED_CONSENT_SOURCES *)
Definition ALLOWED_CONSENT_SOURCES : list DmConsentSource := [P2pIngress; DirectedCard].

(*@ src/src/db/dm-grants.ts 54-71 InsertDmGrantArgs *)
Record InsertDmGrantArgs := mkInsertDmGrantArgs {
  ia_scopeId : string;
  ia_agentGroupId : string;
  ia_slotLabel : string;
  ia_participantOpenId : string;
  ia_dmPlatformId : string;
  ia_channelType : option string;
  ia_consentSource : DmConsentSource;
  ia_consentInboundMsgId : string;
  ia_consentOriginUserId : option string;
  ia_originPlatformId : option string;
  ia_maxSends : option Z;
  ia_expiresAt : option stamp }.

Definition at_slot (scopeId slotLabel : string) (g : DmGrantRow) : bool :=
  bool_decide (g_scope_id g = scopeId) && bool_decide (g_slot_label g = slotLabel).
Definition at_participant (scopeId participantOpenId : string) (g : DmGrantRow) : bool :=
  bool_decide (g_scope_id g = scopeId) &&
  bool_decide (g_participant_open_id g = participantOpenId).

(*@ src/src/db/dm-grants.ts 160-163 getBySlot *)
Definition getBySlot (db : CentralDb) (scopeId slotLabel : string) : option DmGrantRow :=
  sql_first (at_slot scopeId slotLabel) (dm_grants db).

(*@ src/src/db/dm-grants.ts 165-169 getByParticipant *)
Definition getByParticipant (db : CentralDb) (scopeId participantOpenId : string)
    : option DmGrantRow :=
  sql_first (at_participant scopeId participantOpenId) (dm_grants db).

(** The row [DO UPDATE SET] leaves; [max_sends] and [sends_used] are not set. *)
(*@ src/src/db/dm-grants.ts 100-110 insertDmGrant *)
Definition refresh_grant (a : InsertDmGrantArgs) (g : DmGrantRow) : DmGrantRow :=
  mkDmGrantRow (g_id g) (g_scope_id g) (g_agent_group_id g) (g_slot_label g)
    (ia_participantOpenId a) (ia_dmPlatformId a) (default "feishu" (ia_channelType a))
    (ia_consentSource a) (ia_consentInboundMsgId a) (ia_consentOriginUserId a)
    (ia_originPlatformId a) (g_created_at g) (ia_expiresAt a) None
    (g_max_sends g) (g_sends_used g).

Definition new_grant (now : time) (id : string) (a : InsertDmGrantArgs) : DmGrantRow :=
  mkDmGrantRow id (ia_scopeId a) (ia_agentGroupId a) (ia_slotLabel a)
    (ia_participantOpenId a) (ia_dmPlatformId a) (default "feishu" (ia_channelType a))
    (ia_consentSource a) (ia_consentInboundMsgId a) (ia_consentOriginUserId a)
    (ia_originPlatformId a) now (ia_expiresAt a) None
    (match ia_maxSends a with Some m => if 0 <? m then m else 0 | None => 0 end) 0.

(** The statement: SQLite tests the [ON CONFLICT] target first; an update whose
    WHERE does not hold leaves the row; any other unique index that the new row
    hits is an error. *)
(*@ src/src/db/dm-grants.ts 92-132 insertDmGrant *)
Definition upsert_grant (now : time) (id : string) (a : InsertDmGrantArgs) : dbM unit :=
  let* occupied := query (λ db, getBySlot db (ia_scopeId a) (ia_slotLabel a)) in
  match occupied with
  | Some _ =>
      modify (λ db, set_dm_grants
        (sql_update (λ g, at_slot (ia_scopeId a) (ia_slotLabel a) g &&
                          bool_decide (g_participant_open_id g = ia_participantOpenId a))
           (refresh_grant a) (dm_grants db)) db)
  | None =>
      let* clash := query (λ db, sql_exists (λ g, bool_decide (g_id g = id) ||
        at_participant (ia_scopeId a) (ia_participantOpenId a) g) (dm_grants db)) in
      if clash : bool then throw (SqliteConstraint "dm_grants")
      else modify (λ db, set_dm_grants (dm_grants db ++ [new_grant now id a]) db)
  end.

Definition stamp_json (o : option stamp) : json :=
  match o with
  | None => JNull
  | Some (StampAt ms) => JNum ms
  | Some StampInvalid => JStr "invalid"
  end.

(** [id] is the [randomUUID()]; the result is the grant id or [null]. *)
(*@ src/src/db/dm-grants.ts 73-158 insertDmGrant *)
Definition insertDmGrant (now : time) (id : string) (a : InsertDmGrantArgs)
    : dbM (option string) :=
  let* inserted := try_catch (upsert_grant now id a ;; ret true) (λ _, ret false) in
  if negb inserted then ret None
  else
    let* row := query (λ db, getBySlot db (ia_scopeId a) (ia_slotLabel a)) in
    match row with
    | None => ret None
    | Some g =>
        if negb (bool_decide (g_participant_open_id g = ia_participantOpenId a)) then ret None
        else
          recordEnterpriseAudit now "roster_grant_created" None (Some (ia_agentGroupId a))
            (ia_consentOriginUserId a)
            (Some (JObj [("grantId", JStr (g_id g)); ("scopeId", JStr (ia_scopeId a));
                         ("slotLabel", JStr (ia_slotLabel a));
                         ("participantOpenId", JStr (ia_participantOpenId a));
                         ("expiresAt", stamp_json (ia_expiresAt a))])) ;;
          ret (Some (g_id g))
    end.

(*@ src/src/db/dm-grants.ts 171-175 listGrantsForScope *)
Definition listGrantsForScope (db : CentralDb) (scopeId : string) : list DmGrantRow :=
  sql_order_by (λ a b, g_created_at a <? g_created_at b)
    (sql_where (λ g, bool_decide (g_scope_id g = scopeId)) (dm_grants db)).

(*@ src/src/db/dm-grants.ts 177-182 listLiveGrantsForParticipant *)
Definition listLiveGrantsForParticipant (db : CentralDb) (participantOpenId : string)
    : list DmGrantRow :=
  sql_where (λ g, bool_decide (g_participant_open_id g = participantOpenId) &&
                  bool_decide (g_revoked_at g = None)) (dm_grants db).

(** [parseSqliteUtc] of an invalid text is NaN, which compares false with
    every number. *)
Definition stamp_after (s : stamp) (now : time) : bool :=
  match s with StampAt ms => now <? ms | StampInvalid => false end.
Definition stamp_not_after (s : stamp) (now : time) : bool :=
  match s with StampAt ms => ms <=? now | StampInvalid => false end.

(*@ src/src/db/dm-grants.ts 184-201 listLiveGrantsForScope *)
Definition listLiveGrantsForScope (db : CentralDb) (scopeId : string) (now : time)
    : list DmGrantRow :=
  sql_where (λ g,
    bool_decide (g_revoked_at g = None) &&
    (match g_expires_at g with None => true | Some e => stamp_after e now end) &&
    ((g_max_sends g =? 0) || (g_sends_used g <? g_max_sends g)))
    (listGrantsForScope db scopeId).

(*@ src/src/db/dm-grants.ts 203-213 DmGrantLiveResult *)
Inductive DmGrantLiveResult :=
| GrantLive (grant : DmGrantRow)
| GrantDead (reason : string).

(*@ src/src/db/dm-grants.ts 215-230 checkGrantLive *)
Definition checkGrantLive (db : CentralDb) (scopeId slotLabel : string) (now : time)
    : DmGrantLiveResult :=
  match getBySlot db scopeId slotLabel with
  | None => GrantDead "no_grant"
  | Some g =>
      if negb (bool_decide (g_consent_source g ∈ ALLOWED_CONSENT_SOURCES))
      then GrantDead "bad_consent_source"
      else if negb (bool_decide (g_scope_id g = scopeId)) then GrantDead "scope_mismatch"
      else if negb (bool_decide (g_revoked_at g = None)) then GrantDead "revoked"
      else if match g_expires_at g with None => false | Some e => stamp_not_after e now end
      then GrantDead "expired"
      else if (0 <? g_max_sends g) && (g_max_sends g <=? g_sends_used g)
      then GrantDead "max_sends"
      else GrantLive g
  end.

(** [SET sends_used = ..., revoked_at = ...] on a grant. *)
Definition set_usage (used : Z) (revoked : option time) (g : DmGrantRow) : DmGrantRow :=
  mkDmGrantRow (g_id g) (g_scope_id g) (g_agent_group_id g) (g_slot_label g)
    (g_participant_open_id g) (g_dm_platform_id g) (g_channel_type g) (g_consent_source g)
    (g_consent_inbound_msg_id g) (g_consent_origin_user_id g) (g_origin_platform_id g)
    (g_created_at g) (g_expires_at g) revoked (g_max_sends g) used.

(** The charge of one send: [sends_used + 1], revoked when that is the cap. *)
Definition charge_grant (now : time) (g : DmGrantRow) : DmGrantRow :=
  set_usage (g_sends_used g + 1)
    (if (0 <? g_max_sends g) && (g_max_sends g <=? g_sends_used g + 1)
     then coalesce (g_revoked_at g) (Some now) else g_revoked_at g) g.

(*@ src/src/db/dm-grants.ts 232-257 incrementSends *)
Definition incrementSends (now : time) (grantId : string) : dbM (option DmGrantRow) :=
  modify (λ db, set_dm_grants
    (sql_update (λ g, bool_decide (g_id g = grantId)) (charge_grant now) (dm_grants db)) db) ;;
  query (λ db, sql_first (λ g, bool_decide (g_id g = grantId)) (dm_grants db)).

(** [UPDATE dm_grants SET revoked_at = ? WHERE ... AND revoked_at IS NULL] *)
Definition revoke_grants_where (now : time) (p : DmGrantRow → bool) : dbM nat :=
  let live g := p g && bool_decide (g_revoked_at g = None) in
  let* n := query (λ db, sql_changes live (dm_grants db)) in
  modify (λ db, set_dm_grants
    (sql_update live (λ g, set_usage (g_sends_used g) (Some now) g) (dm_grants db)) db) ;;
  ret n.

(*@ src/src/db/dm-grants.ts 259-276 revokeScope *)
Definition revokeScope (now : time) (scopeId : string) : dbM nat :=
  let* changes := revoke_grants_where now (λ g, bool_decide (g_scope_id g = scopeId)) in
  (if (0 <? changes)%nat then
     recordEnterpriseAudit now "roster_grant_revoked" None None None
       (Some (JObj [("scopeId", JStr scopeId); ("revoked", JNum (Z.of_nat changes));
                    ("reason", JStr "scope_revoked")]))
   else ret tt) ;;
  ret changes.

(*@ src/src/db/dm-grants.ts 278-299 revokeParticipantInScope *)
Definition revokeParticipantInScope (now : time) (scopeId participantOpenId : string)
    : dbM nat :=
  let* changes := revoke_grants_where now (at_participant scopeId participantOpenId) in
  (if (0 <? changes)%nat then
     recordEnterpriseAudit now "roster_grant_revoked" None None (Some participantOpenId)
       (Some (JObj [("scopeId", JStr scopeId); ("participantOpenId", JStr participantOpenId);
                    ("revoked", JNum (Z.of_nat changes));
                    ("reason", JStr "participant_opt_out")]))
   else ret tt) ;;
  ret changes.

(*@ src/src/db/dm-grants.ts 301-343 revokeGrantsForLeaver *)
Definition revokeGrantsForLeaver (now : time) (originPlatformId : string)
    (participantOpenId : option string) : dbM nat :=
  let leaver := truthy participantOpenId in
  let* changes := revoke_grants_where now (λ g,
    sql_eq (g_origin_platform_id g) (Some originPlatformId) &&
    (negb leaver || sql_eq (Some (g_participant_open_id g)) participantOpenId)) in
  (if (0 <? changes)%nat then
     recordEnterpriseAudit now "roster_grant_revoked_by_platform_event" None None
       participantOpenId
       (Some (JObj [("originPlatformId", JStr originPlatformId);
                    ("participantOpenId",
                     match participantOpenId with Some p => JStr p | None => JNull end);
                    ("revoked", JNum (Z.of_nat changes));
                    ("event", JStr (if leaver then "member_left" else "chat_disbanded"))]))
   else ret tt) ;;
  ret changes.

(** ** Rate windows *)

(*@ src/src/db/dm-grants.ts 349-354 RateWindow *)
Record RateWindow := mkRateWindow { windowSec : Z; limit : Z }.

(** The four keys of every send, in the order they are tested. *)
Inductive RateKind := Kgrant | Kparticipant | Kscope | Kdeploy.
#[export] Instance RateKind_eq : EqDecision RateKind.
Proof. solve_decision. Defined.
Definition rate_kinds : list RateKind := [Kgrant; Kparticipant; Kscope; Kdeploy].
Definition kind_name (k : RateKind) : string :=
  match k with
  | Kgrant => "grant" | Kparticipant => "participant" | Kscope => "scope" | Kdeploy => "deploy"
  end.

Definition RateWindows : Type := RateKind → RateWindow.
(*@ src/src/db/dm-grants.ts 625-625 RateKeys *)
Definition RateKeys : Type := RateKind → string.

(*@ src/src/db/dm-grants.ts 356-366 DEFAULT_RATE_WINDOWS *)
Definition DEFAULT_RATE_WINDOWS : RateWindows := λ k,
  match k with
  | Kgrant => mkRateWindow 60 3
  | Kparticipant => mkRateWindow 60 5
  | Kscope => mkRateWindow 60 20
  | Kdeploy => mkRateWindow 60 100
  end.

(** [process.env] and the [.env] file, as [readEnvFile] returns it. *)
Record RosterEnv := mkRosterEnv {
  env_proc : string → option string;
  env_file : string → option string }.
Definition env_raw (e : RosterEnv) (key : string) : option string :=
  match env_proc e key with Some v => Some v | None => env_file e key end.

(*@ src/src/db/dm-grants.ts 368-389 readRosterEnvInt *)
Definition readRosterEnvInt (e : RosterEnv) (key : string) : option Z :=
  match env_raw e key with
  | None => None
  | Some raw =>
      if bool_decide (trim raw = "") then None
      else match parseInt (trim raw) with
           | Some n => if 0 <=? n then Some n else None
           | None => None
           end
  end.

(*@ src/src/db/dm-grants.ts 391-396 readRosterEnvStr *)
Definition readRosterEnvStr (e : RosterEnv) (key : string) : option string :=
  let v := option_map trim (env_raw e key) in if truthy v then v else None.

(*@ src/src/db/dm-grants.ts 398-406 DeployQuotaConfig *)
Record DeployQuotaConfig := mkDeployQuota {
  dq_key : string;
  dq_window : RateWindow;
  dq_dailyCap : Z;
  dq_dailyWindowSec : Z }.

(*@ src/src/db/dm-grants.ts 408-418 resolveDeployQuota *)
Definition resolveDeployQuota (e : RosterEnv) : DeployQuotaConfig :=
  mkDeployQuota
    (default "global" (readRosterEnvStr e "ROSTER_DEPLOY_KEY"))
    (mkRateWindow
       (default (windowSec (DEFAULT_RATE_WINDOWS Kdeploy))
          (readRosterEnvInt e "ROSTER_DEPLOY_WINDOW_SEC"))
       (default (limit (DEFAULT_RATE_WINDOWS Kdeploy))
          (readRosterEnvInt e "ROSTER_DEPLOY_WINDOW_CAP")))
    (default 0 (readRosterEnvInt e "ROSTER_DEPLOY_DAILY_CAP"))
    86400.

(** The start of the tumbling window; a window of 0 seconds makes the division
    NaN, and [toISOString] throws. *)
(*@ src/src/db/dm-grants.ts 455-461 windowStartIso *)
Definition window_start (now : time) (secs : Z) : time :=
  now / (secs * 1000) * (secs * 1000).
Definition windowStartIso (now : time) (secs : Z) : dbM time :=
  if secs =? 0 then throw RangeError else ret (window_start now secs).

Definition at_window (key : string) (ws : time) (r : LedgerRow) : bool :=
  bool_decide (l_key r = key) && (l_window_start r =? ws).

(*@ src/src/db/dm-grants.ts 463-468 currentCount *)
Definition currentCount (db : CentralDb) (key : string) (ws : time) : Z :=
  match sql_first (at_window key ws) (dm_rate_ledger db) with
  | Some r => l_count r
  | None => 0
  end.

(*@ src/src/db/dm-grants.ts 785-793 bumpLedger *)
Definition bump_db (key : string) (ws : time) (db : CentralDb) : CentralDb :=
  if sql_exists (at_window key ws) (dm_rate_ledger db) then
    set_dm_rate_ledger (sql_update (at_window key ws)
      (λ r, mkLedgerRow (l_key r) (l_window_start r) (l_count r + 1)) (dm_rate_ledger db)) db
  else set_dm_rate_ledger (dm_rate_ledger db ++ [mkLedgerRow key ws 1]) db.
Definition bumpLedger (key : string) (ws : time) : dbM unit := modify (bump_db key ws).

(*@ src/src/db/dm-grants.ts 795-801 decLedger *)
Definition dec_db (key : string) (ws : time) (db : CentralDb) : CentralDb :=
  set_dm_rate_ledger (sql_update (at_window key ws)
    (λ r, mkLedgerRow (l_key r) (l_window_start r) (Z.max (l_count r - 1) 0))
    (dm_rate_ledger db)) db.
Definition decLedger (key : string) (ws : time) : dbM unit := modify (dec_db key ws).

(** [allowed], or the first key at its limit. *)
(*@ src/src/db/dm-grants.ts 470-474 RateCheckResult *)
Inductive RateCheckResult := RateAllowed | RateBlocked (blockedKey : string).

Definition ledger_key (k : RateKind) (keys : RateKeys) : string :=
  kind_name k +:+ ":" +:+ keys k.
Definition daily_key (q : DeployQuotaConfig) : string := "deploy-daily:" +:+ dq_key q.

(*@ src/src/db/dm-grants.ts 420-439 checkDeployDailyCap *)
Definition checkDeployDailyCap (now : time) (q : DeployQuotaConfig) : dbM RateCheckResult :=
  if dq_dailyCap q <=? 0 then ret RateAllowed
  else
    let* ws := windowStartIso now (dq_dailyWindowSec q) in
    let* n := query (λ db, currentCount db (daily_key q) ws) in
    ret (if dq_dailyCap q <=? n then RateBlocked (daily_key q) else RateAllowed).

(*@ src/src/db/dm-grants.ts 441-453 recordDeployDailyConsumption *)
Definition recordDeployDailyConsumption (now : time) (q : DeployQuotaConfig) : dbM unit :=
  if dq_dailyCap q <=? 0 then ret tt
  else
    let* ws := windowStartIso now (dq_dailyWindowSec q) in
    bumpLedger (daily_key q) ws.

(** The loop of [checkRateKeys] over the kinds left. *)
Fixpoint check_kinds (now : time) (keys : RateKeys) (windows : RateWindows)
    (ks : list RateKind) : dbM RateCheckResult :=
  match ks with
  | [] => ret RateAllowed
  | k :: ks' =>
      let* ws := windowStartIso now (windowSec (windows k)) in
      let* n := query (λ db, currentCount db (ledger_key k keys) ws) in
      if limit (windows k) <=? n then ret (RateBlocked (ledger_key k keys))
      else check_kinds now keys windows ks'
  end.

(*@ src/src/db/dm-grants.ts 476-495 checkRateKeys *)
Definition checkRateKeys (now : time) (keys : RateKeys) (windows : RateWindows)
    : dbM RateCheckResult := check_kinds now keys windows rate_kinds.

(*@ src/src/db/dm-grants.ts 497-516 recordRateConsumption *)
Definition recordRateConsumption (now : time) (keys : RateKeys) (windows : RateWindows)
    : dbM unit :=
  for_each rate_kinds (λ k,
    let* ws := windowStartIso now (windowSec (windows k)) in
    bumpLedger (ledger_key k keys) ws).

(** [key NOT LIKE 'reserve:%'] is case-insensitive on ASCII. *)
(*@ src/src/db/dm-grants.ts 518-529 pruneRateLedger *)
Definition pruneRateLedger (keepSec : Z) (now : time) : dbM nat :=
  let cutoff := now - keepSec * 1000 in
  let old r := (l_window_start r <? cutoff) &&
               negb (startsWith (toLowerCase (l_key r)) "reserve:") in
  let* n := query (λ db, sql_changes old (dm_rate_ledger db)) in
  modify (λ db, set_dm_rate_ledger (sql_delete old (dm_rate_ledger db)) db) ;;
  ret n.

(*@ src/src/db/dm-grants.ts 543-544 INVITE_SCOPE_WINDOW *)
Definition INVITE_SCOPE_WINDOW : RateWindow := mkRateWindow 60 3.

Definition invite_key (scopeId : string) : string := "invite-scope:" +:+ scopeId.

(*@ src/src/db/dm-grants.ts 546-560 checkInviteRate *)
Definition checkInviteRate (now : time) (scopeId : string) (q : DeployQuotaConfig)
    : dbM RateCheckResult :=
  let* ws := windowStartIso now (windowSec INVITE_SCOPE_WINDOW) in
  let* n := query (λ db, currentCount db (invite_key scopeId) ws) in
  if limit INVITE_SCOPE_WINDOW <=? n then ret (RateBlocked (invite_key scopeId))
  else checkDeployDailyCap now q.

(*@ src/src/db/dm-grants.ts 562-566 recordInviteConsumption *)
Definition recordInviteConsumption (now : time) (scopeId : string) (q : DeployQuotaConfig)
    : dbM unit :=
  let* ws := windowStartIso now (windowSec INVITE_SCOPE_WINDOW) in
  bumpLedger (invite_key scopeId) ws ;;
  recordDeployDailyConsumption now q.

(** ** Reserve before send *)

(** [9999-01-01T00:00:00.000Z] in milliseconds. *)
(*@ src/src/db/dm-grants.ts 609-615 reserveKey *)
Definition reserveKey (messageOutId : string) : string := "reserve:" +:+ messageOutId.
Definition RESERVE_SENTINEL_WINDOW : time := 253370764800000.

(*@ src/src/db/dm-grants.ts 617-623 hasRosterReservation *)
Definition hasRosterReservation (db : CentralDb) (messageOutId : string) : bool :=
  sql_exists (at_window (reserveKey messageOutId) RESERVE_SENTINEL_WINDOW) (dm_rate_ledger db).

(*@ src/src/db/dm-grants.ts 627-629 ReserveResult *)
Inductive ReserveResult :=
| Reserved (fresh : bool)
| NotReserved (reason : string) (blockedKey : option string).

(** [WHERE id = ? AND revoked_at IS NULL AND (max_sends <= 0 OR sends_used < max_sends)] *)
(*@ src/src/db/dm-grants.ts 679-679 revoked_at *)
Definition open_grant (grantId : string) (g : DmGrantRow) : bool :=
  bool_decide (g_id g = grantId) && bool_decide (g_revoked_at g = None) &&
  ((g_max_sends g <=? 0) || (g_sends_used g <? g_max_sends g)).

(** The conditional UPDATE of the grant, and the number of rows it changed. *)
(*@ src/src/db/dm-grants.ts 659-686 reserveRosterSend *)
Definition reserve_grant (now : time) (grantId : string) : dbM unit :=
  let* changed := query (λ db, sql_changes (open_grant grantId) (dm_grants db)) in
  modify (λ db, set_dm_grants (sql_update (open_grant grantId) (charge_grant now)
    (dm_grants db)) db) ;;
  if negb (changed =? 1)%nat then throw (ReserveAbort "max_sends" None) else ret tt.

(** Test one ledger bucket, then charge it. *)
Definition charge_bucket (reason key : string) (ws : time) (lim : Z) : dbM unit :=
  let* n := query (λ db, currentCount db key ws) in
  if lim <=? n then throw (ReserveAbort reason (Some key)) else bumpLedger key ws.

(*@ src/src/db/dm-grants.ts 653-708 reserveRosterSend *)
Definition reserve_body (now : time) (messageOutId grantId : string) (keys : RateKeys)
    (windows : RateWindows) (deploy : DeployQuotaConfig) : dbM ReserveResult :=
  let* standing := query (λ db, hasRosterReservation db messageOutId) in
  if standing : bool then ret (Reserved false)
  else
    reserve_grant now grantId ;;
    for_each rate_kinds (λ k,
      let* ws := windowStartIso now (windowSec (windows k)) in
      charge_bucket "rate_limited" (ledger_key k keys) ws (limit (windows k))) ;;
    (if 0 <? dq_dailyCap deploy then
       let* ws := windowStartIso now (dq_dailyWindowSec deploy) in
       charge_bucket "deploy_daily_cap" (daily_key deploy) ws (dq_dailyCap deploy)
     else ret tt) ;;
    bumpLedger (reserveKey messageOutId) RESERVE_SENTINEL_WINDOW ;;
    ret (Reserved true).

(*@ src/src/db/dm-grants.ts 631-716 reserveRosterSend *)
Definition reserveRosterSend (now : time) (messageOutId grantId : string) (keys : RateKeys)
    (windows : RateWindows) (deploy : DeployQuotaConfig) : dbM ReserveResult :=
  try_catch (transaction (reserve_body now messageOutId grantId keys windows deploy))
    (λ err, match err with
            | ReserveAbort reason blockedKey => ret (NotReserved reason blockedKey)
            | _ => throw err
            end).

(** The grant after a rollback: un-revoked when it stands at its cap. *)
(*@ src/src/db/dm-grants.ts 747-758 rollbackRosterReservation *)
Definition refund_grant (g : DmGrantRow) : DmGrantRow :=
  set_usage (Z.max (g_sends_used g - 1) 0)
    (if (0 <? g_max_sends g) && (g_max_sends g <=? g_sends_used g)
     then None else g_revoked_at g) g.

(*@ src/src/db/dm-grants.ts 727-775 rollbackRosterReservation *)
Definition rollbackRosterReservation (now : time) (messageOutId grantId : string)
    (keys : RateKeys) (windows : RateWindows) (deploy : DeployQuotaConfig) : dbM bool :=
  transaction (
    let* standing := query (λ db, hasRosterReservation db messageOutId) in
    if negb standing then ret false
    else
      modify (λ db, set_dm_grants
        (sql_update (λ g, bool_decide (g_id g = grantId)) refund_grant (dm_grants db)) db) ;;
      for_each rate_kinds (λ k,
        let* ws := windowStartIso now (windowSec (windows k)) in
        decLedger (ledger_key k keys) ws) ;;
      (if 0 <? dq_dailyCap deploy then
         let* ws := windowStartIso now (dq_dailyWindowSec deploy) in
         decLedger (daily_key deploy) ws
       else ret tt) ;;
      modify (λ db, set_dm_rate_ledger
        (sql_delete (at_window (reserveKey messageOutId) RESERVE_SENTINEL_WINDOW)
           (dm_rate_ledger db)) db) ;;
      ret true).

(*@ src/src/db/dm-grants.ts 777-783 clearRosterReservationMarker *)
Definition clearRosterReservationMarker (messageOutId : string) : dbM unit :=
  modify (λ db, set_dm_rate_ledger
    (sql_delete (at_window (reserveKey messageOutId) RESERVE_SENTINEL_WINDOW)
       (dm_rate_ledger db)) db).
