(* ===== verification/DmGrantsProofs.v ===== *)
(** * What the consent grants and the rate ledger guarantee *)
From S2P Require Import Prelude JsString Json Types Central DmGrants.

Local Open Scope string_scope.
Local Open Scope Z_scope.
Local Open Scope list_scope.

(** ** The ledger as a function of key and window *)

Section ledger.
  Implicit Types (db : CentralDb) (key : string) (ws : time).

Lemma at_window_true key ws r :
  at_window key ws r = true ↔ l_key r = key ∧ l_window_start r = ws.
Proof. unfold at_window. by rewrite andb_true_iff, bool_decide_eq_true, Z.eqb_eq. Qed.

(** Two windows are the same bucket, or no row is in both. *)
Lemma at_window_disjoint k w k' w' r :
  (k, w) ≠ (k', w') → at_window k w r = true → at_window k' w' r = false.
Proof.
  intros Hne [<- <-]%at_window_true. rewrite <-not_true_iff_false, at_window_true.
  by intros [<- <-].
Qed.

Lemma currentCount_bump k w db k' w' :
  currentCount (bump_db k w db) k' w' =
  currentCount db k' w' + if decide ((k', w') = (k, w)) then 1 else 0.
Proof.
  unfold currentCount, bump_db. rewrite sql_exists_first.
  destruct (sql_first (at_window k w) (dm_rate_ledger db)) as [r0|] eqn:E0; simpl.
  - rewrite sql_first_update by done.
    destruct (decide ((k', w') = (k, w))) as [[= -> ->]|Hne].
    + rewrite E0. simpl. apply sql_first_Some in E0 as [_ ->]. done.
    + destruct (sql_first (at_window k' w') _) as [r|] eqn:E; simpl; [|done].
      apply sql_first_Some in E as [_ E].
      rewrite (at_window_disjoint k' w' k w r Hne E). simpl. lia.
  - rewrite sql_first_app. destruct (decide ((k', w') = (k, w))) as [[= -> ->]|Hne].
    + rewrite E0. unfold at_window. simpl. rewrite bool_decide_eq_true_2, Z.eqb_refl by done. done.
    + destruct (sql_first (at_window k' w') _) as [r|] eqn:E; simpl; [lia|].
      destruct (at_window k' w' (mkLedgerRow k w 1)) eqn:Ea; [|done].
      apply at_window_true in Ea as [??]. simpl in *. congruence.
Qed.

Lemma currentCount_dec k w db k' w' :
  currentCount (dec_db k w db) k' w' =
  if decide ((k', w') = (k, w)) then Z.max (currentCount db k w - 1) 0
  else currentCount db k' w'.
Proof.
  unfold currentCount, dec_db. simpl. rewrite sql_first_update by done.
  destruct (decide ((k', w') = (k, w))) as [[= -> ->]|Hne].
  - destruct (sql_first (at_window k w) _) as [r|] eqn:E; simpl; [|done].
    apply sql_first_Some in E as [_ ->]. done.
  - destruct (sql_first (at_window k' w') _) as [r|] eqn:E; simpl; [|done].
    apply sql_first_Some in E as [_ E].
    rewrite (at_window_disjoint k' w' k w r Hne E). done.
Qed.

(** Deleting one bucket's rows leaves the count of every other. *)
Lemma currentCount_delete k w db k' w' :
  currentCount (set_dm_rate_ledger (sql_delete (at_window k w) (dm_rate_ledger db)) db) k' w' =
  if decide ((k', w') = (k, w)) then 0 else currentCount db k' w'.
Proof.
  unfold currentCount. simpl. destruct (decide ((k', w') = (k, w))) as [[= -> ->]|Hne].
  - by rewrite sql_first_deleted.
  - rewrite sql_first_delete; [done|]. intros r. by apply at_window_disjoint.
Qed.
End ledger.

(** ** Everything but the ledger *)

(** [db'] has the tables of [db] except for the rate ledger. *)
Definition same_but_ledger (db db' : CentralDb) : Prop :=
  db' = set_dm_rate_ledger (dm_rate_ledger db') db.

#[export] Instance same_but_ledger_preorder : PreOrder same_but_ledger.
Proof.
  split.
  - intros []. done.
  - unfold same_but_ledger. intros x y z H1 H2. rewrite H2. simpl. rewrite H1. done.
Qed.
Lemma same_but_ledger_set l db : same_but_ledger db (set_dm_rate_ledger l db).
Proof. done. Qed.
Lemma bump_same k w db : same_but_ledger db (bump_db k w db).
Proof. unfold bump_db. by case_match. Qed.
Lemma same_grants db db' : same_but_ledger db db' → dm_grants db' = dm_grants db.
Proof. unfold same_but_ledger. intros ->. done. Qed.

(** ** Charging a list of buckets *)

(** A bucket: why it refuses, its key, its window and its limit. *)
Record bucket := mkBucket { b_reason : string; b_key : string; b_ws : time; b_limit : Z }.

(** The buckets of one reservation. *)
Definition rate_bucket (now : time) (keys : RateKeys) (W : RateWindows) (k : RateKind) : bucket :=
  mkBucket "rate_limited" (ledger_key k keys) (window_start now (windowSec (W k))) (limit (W k)).
Definition daily_buckets (now : time) (q : DeployQuotaConfig) : list bucket :=
  if 0 <? dq_dailyCap q
  then [mkBucket "deploy_daily_cap" (daily_key q) (window_start now (dq_dailyWindowSec q))
          (dq_dailyCap q)]
  else [].
Definition buckets (now : time) (keys : RateKeys) (W : RateWindows) (q : DeployQuotaConfig)
    : list bucket := map (rate_bucket now keys W) rate_kinds ++ daily_buckets now q.

(** Windows an operator can set: not of zero seconds. *)
Definition windows_valid (W : RateWindows) (q : DeployQuotaConfig) : Prop :=
  (∀ k, windowSec (W k) ≠ 0) ∧ dq_dailyWindowSec q ≠ 0.

Lemma ledger_key_inj k keys k' keys' : ledger_key k keys = ledger_key k' keys' → k = k'.
Proof. destruct k, k'; done. Qed.
Lemma daily_key_ne k keys q : ledger_key k keys ≠ daily_key q.
Proof. by destruct k. Qed.
Lemma reserveKey_ne_rate m k keys : reserveKey m ≠ ledger_key k keys.
Proof. by destruct k. Qed.
Lemma reserveKey_ne_daily m q : reserveKey m ≠ daily_key q.
Proof. done. Qed.

Lemma rate_kinds_all k : k ∈ rate_kinds.
Proof. destruct k; by apply (bool_decide_unpack _). Qed.

Lemma buckets_nodup now keys W q : NoDup (map b_key (buckets now keys W q)).
Proof.
  assert (NoDup (map b_key (map (rate_bucket now keys W) rate_kinds))) as Hr.
  { rewrite map_map. apply NoDup_fmap_2_strong.
    - intros k k' _ _. apply ledger_key_inj.
    - by apply (bool_decide_unpack _). }
  unfold buckets, daily_buckets. case_match; [|by rewrite app_nil_r].
  rewrite map_app. apply NoDup_app. split; [done|]. split; [|apply NoDup_singleton].
  rewrite map_map. intros x (k & -> & _)%list_elem_of_fmap Hd%list_elem_of_singleton.
  by apply daily_key_ne in Hd.
Qed.
Lemma reserveKey_not_bucket m now keys W q : reserveKey m ∉ map b_key (buckets now keys W q).
Proof.
  unfold buckets, daily_buckets. rewrite map_app, map_map, elem_of_app.
  intros [(k & E & _)%list_elem_of_fmap|Hd]; [by apply reserveKey_ne_rate in E|].
  case_match; [|by apply elem_of_nil in Hd].
  by apply list_elem_of_singleton in Hd.
Qed.

Definition charge (b : bucket) : dbM unit :=
  charge_bucket (b_reason b) (b_key b) (b_ws b) (b_limit b).

(** The bucket [(key, ws)] is one of [bs]. *)
Definition in_buckets (bs : list bucket) (key : string) (ws : time) : Prop :=
  (key, ws) ∈ map (λ b, (b_key b, b_ws b)) bs.
#[export] Instance in_buckets_dec bs key ws : Decision (in_buckets bs key ws).
Proof. unfold in_buckets. apply _. Defined.

(** Charging all: refused by a full bucket, or every bucket was under its limit
    and has one more. *)
Lemma charge_all_spec bs db :
  NoDup (map b_key bs) →
  match for_each bs charge db with
  | (Ok _, db') =>
      same_but_ledger db db' ∧
      (∀ b, b ∈ bs → currentCount db (b_key b) (b_ws b) < b_limit b) ∧
      ∀ k w, currentCount db' k w =
        currentCount db k w + if decide (in_buckets bs k w) then 1 else 0
  | (Throw e, _) => ∃ b, b ∈ bs ∧ e = ReserveAbort (b_reason b) (Some (b_key b)) ∧
      b_limit b ≤ currentCount db (b_key b) (b_ws b)
  end.
Proof.
  revert db. induction bs as [|b bs IH]; intros db.
  { intros _. simpl. split_and!; [done|set_solver|]. intros k w. lia. }
  intros [Hb Hnd]%NoDup_cons. cbn [for_each]. unfold bind at 1.
  unfold charge at 1, charge_bucket, bind, query, gets, throw.
  destruct (Z.leb_spec (b_limit b) (currentCount db (b_key b) (b_ws b))) as [Hle|Hlt].
  { exists b. split; [left|done]. }
  unfold bumpLedger, modify. specialize (IH (bump_db (b_key b) (b_ws b) db) Hnd).
  assert (∀ b', b' ∈ bs → currentCount (bump_db (b_key b) (b_ws b) db) (b_key b') (b_ws b')
    = currentCount db (b_key b') (b_ws b')) as Hsame.
  { intros b' Hin. rewrite currentCount_bump. case_decide as Hd; [|lia].
    exfalso. apply Hb. injection Hd as <- _. by apply list_elem_of_fmap_2. }
  destruct (for_each bs charge (bump_db (b_key b) (b_ws b) db)) as [[[]|e] db'].
  - destruct IH as (Hs & Hlim & Hc). split_and!.
    + etrans; [apply bump_same|exact Hs].
    + intros b' [->|Hin]%elem_of_cons; [done|]. rewrite <-Hsame by done. by apply Hlim.
    + intros k w. rewrite Hc, currentCount_bump. unfold in_buckets. simpl.
      destruct (decide ((k, w) = (b_key b, b_ws b))) as [Hd|Hd].
      * rewrite (decide_True (P := (k, w) ∈ _ :: _)) by (rewrite Hd; left).
        rewrite decide_False; [lia|]. rewrite Hd. intros (b' & E & Hin)%list_elem_of_fmap.
        apply Hb. injection E as -> _. by apply list_elem_of_fmap_2.
      * rewrite Z.add_0_r. f_equal. apply decide_ext. rewrite elem_of_cons. tauto.
  - destruct IH as (b' & Hin & -> & Hle). exists b'. rewrite <-Hsame by done.
    split; [by right|done].
Qed.

(** ** A reservation *)

Lemma windowStartIso_valid now secs db :
  secs ≠ 0 → windowStartIso now secs db = (Ok (window_start now secs), db).
Proof. intros H. unfold windowStartIso. by rewrite (proj2 (Z.eqb_neq _ _) H). Qed.

(** The two loops of the body as one charge of all buckets. *)
Lemma reserve_charges now keys W q db :
  windows_valid W q →
  bind (for_each rate_kinds (λ k,
      let* ws := windowStartIso now (windowSec (W k)) in
      charge_bucket "rate_limited" (ledger_key k keys) ws (limit (W k))))
    (λ _, if 0 <? dq_dailyCap q then
       let* ws := windowStartIso now (dq_dailyWindowSec q) in
       charge_bucket "deploy_daily_cap" (daily_key q) ws (dq_dailyCap q)
     else ret tt) db
  = for_each (buckets now keys W q) charge db.
Proof.
  intros [Hw Hd]. unfold buckets. rewrite for_each_app. apply bind_ext.
  - rewrite for_each_map. apply for_each_ext. intros k s _.
    unfold bind. by rewrite windowStartIso_valid.
  - intros _ s. unfold daily_buckets. destruct (0 <? dq_dailyCap q); [|done].
    unfold bind at 1. rewrite windowStartIso_valid by done.
    cbn [for_each]. unfold bind, charge. simpl.
    by destruct (charge_bucket _ _ _ _ _) as [[[]|] ?].
Qed.

Lemma hasRosterReservation_count db m :
  (∀ r, r ∈ dm_rate_ledger db → 0 ≤ l_count r) →
  0 < currentCount db (reserveKey m) RESERVE_SENTINEL_WINDOW → hasRosterReservation db m = true.
Proof.
  unfold hasRosterReservation, currentCount. rewrite sql_exists_first.
  by destruct (sql_first _ _).
Qed.

Lemma has_bump_marker db m : hasRosterReservation (bump_db (reserveKey m) RESERVE_SENTINEL_WINDOW db) m = true.
Proof.
  unfold hasRosterReservation, bump_db. rewrite (sql_exists_first _ (dm_rate_ledger db)).
  destruct (sql_first _ (dm_rate_ledger db)) eqn:E; cbn [dm_rate_ledger set_dm_rate_ledger];
    rewrite sql_exists_first.
  - by rewrite sql_first_update, E.
  - rewrite sql_first_app, E. unfold at_window. cbn [l_key l_window_start].
    by rewrite bool_decide_eq_true_2, Z.eqb_refl.
Qed.

(** The marker bucket, or one of the budget buckets. *)
Definition charged (m : string) (bs : list bucket) (k : string) (w : time) : Prop :=
  in_buckets bs k w ∨ (k, w) = (reserveKey m, RESERVE_SENTINEL_WINDOW).
#[export] Instance charged_dec m bs k w : Decision (charged m bs k w).
Proof. unfold charged. apply _. Defined.

(** What a reservation does, in full. *)
Definition reserve_outcome (now : time) (m grantId : string) (bs : list bucket)
    (db : CentralDb) (r : outcome exn ReserveResult) (db' : CentralDb) : Prop :=
  match r with
  | Ok (Reserved false) => hasRosterReservation db m = true ∧ db' = db
  | Ok (Reserved true) =>
      hasRosterReservation db m = false ∧ hasRosterReservation db' m = true ∧
      sql_changes (open_grant grantId) (dm_grants db) = 1%nat ∧
      dm_grants db' = sql_update (open_grant grantId) (charge_grant now) (dm_grants db) ∧
      (∀ b, b ∈ bs → currentCount db (b_key b) (b_ws b) < b_limit b) ∧
      (∀ k w, currentCount db' k w =
         currentCount db k w + if decide (charged m bs k w) then 1 else 0)
  | Ok (NotReserved reason key) =>
      hasRosterReservation db m = false ∧ db' = db ∧
      ((reason = "max_sends" ∧ sql_changes (open_grant grantId) (dm_grants db) ≠ 1%nat) ∨
       ∃ b, b ∈ bs ∧ reason = b_reason b ∧ key = Some (b_key b) ∧
            b_limit b ≤ currentCount db (b_key b) (b_ws b))
  | Throw _ => False
  end.

(** The body of the transaction with its two loops joined. *)
Lemma reserve_body_eq now m grantId keys W q db :
  windows_valid W q →
  reserve_body now m grantId keys W q db =
  if hasRosterReservation db m then (Ok (Reserved false), db)
  else (reserve_grant now grantId ;;
        for_each (buckets now keys W q) charge ;;
        bumpLedger (reserveKey m) RESERVE_SENTINEL_WINDOW ;;
        ret (Reserved true)) db.
Proof.
  intros Hv. unfold reserve_body. unfold bind at 1. cbn [query gets].
  destruct (hasRosterReservation db m); [done|].
  apply bind_ext; [done|]. intros _ s. rewrite bind_assoc.
  apply bind_ext; [by apply reserve_charges|done].
Qed.

Lemma reserve_grant_eq now grantId db :
  reserve_grant now grantId db =
  (if (sql_changes (open_grant grantId) (dm_grants db) =? 1)%nat then Ok tt
   else Throw (ReserveAbort "max_sends" None),
   set_dm_grants (sql_update (open_grant grantId) (charge_grant now) (dm_grants db)) db).
Proof.
  unfold reserve_grant, bind, query, gets, modify. by destruct (_ =? 1)%nat.
Qed.

Lemma reserve_spec now m grantId keys W q db :
  windows_valid W q →
  reserve_outcome now m grantId (buckets now keys W q) db
    (reserveRosterSend now m grantId keys W q db).1
    (reserveRosterSend now m grantId keys W q db).2.
Proof.
  intros Hv. destruct (reserveRosterSend now m grantId keys W q db) as [r db'] eqn:Er.
  cbn [fst snd]. revert Er. unfold reserveRosterSend, try_catch, transaction.
  rewrite reserve_body_eq by done.
  destruct (hasRosterReservation db m) eqn:Eh; [by intros [= <- <-]|].
  unfold bind at 1. rewrite reserve_grant_eq. set (db0 := set_dm_grants _ db).
  destruct (_ =? 1)%nat eqn:Ec; cbn iota.
  2: { intros [= <- <-]. split; [done|]. split; [done|]. left. by apply Nat.eqb_neq in Ec. }
  apply Nat.eqb_eq in Ec. unfold bind at 1.
  pose proof (charge_all_spec (buckets now keys W q) db0 (buckets_nodup now keys W q)) as Hall.
  destruct (for_each (buckets now keys W q) charge db0) as [[[]|e] db2].
  2: { destruct Hall as (b & Hin & -> & Hle). intros [= <- <-]. split; [done|]. split; [done|].
       right. exists b. done. }
  destruct Hall as (Hs & Hlim & Hc). unfold bind, bumpLedger, modify, ret.
  intros [= <- <-]. cbn [reserve_outcome].
  split; [done|]. split; [apply has_bump_marker|]. split; [done|]. split; [|split; [done|]].
  - rewrite (same_grants _ _ (bump_same _ _ db2)), (same_grants _ _ Hs). done.
  - intros k w. rewrite currentCount_bump, Hc. change (currentCount db0 k w) with (currentCount db k w).
    unfold charged. destruct (decide ((k, w) = (reserveKey m, RESERVE_SENTINEL_WINDOW))) as [Hd|Hd].
    + rewrite (decide_True (P := _ ∨ _)) by tauto. rewrite decide_False; [lia|].
      injection Hd as -> _. unfold in_buckets. intros (b & E & Hin)%list_elem_of_fmap.
      apply (reserveKey_not_bucket m now keys W q). injection E as -> _.
      by apply list_elem_of_fmap_2.
    + rewrite Z.add_0_r. f_equal. apply decide_ext. tauto.
Qed.

(** a reservation is all or nothing.  With valid windows [reserveRosterSend]
    never throws, and either it charges everything - the one open grant by a
    send (revoked when that reaches its cap), and each rate, daily and marker
    bucket by exactly one, every budget bucket having been under its limit - or
    it leaves the whole database as it was: because the message already holds
    a reservation, or with the budget named that was exhausted. *)
Theorem reserve_all_or_nothing now m grantId keys W q db :
  windows_valid W q →
  reserve_outcome now m grantId (buckets now keys W q) db
    (reserveRosterSend now m grantId keys W q db).1
    (reserveRosterSend now m grantId keys W q db).2.
Proof. apply reserve_spec. Qed.

(** retries of one message are charged once.  After a reservation of a
    message succeeded, any later reservation of it, with any grant, keys and
    windows, succeeds without changing the database. *)
Theorem reserve_idempotent now m grantId keys W q db fresh db1 now' grantId' keys' W' q' :
  windows_valid W q →
  reserveRosterSend now m grantId keys W q db = (Ok (Reserved fresh), db1) →
  reserveRosterSend now' m grantId' keys' W' q' db1 = (Ok (Reserved false), db1).
Proof.
  intros Hv Hr. pose proof (reserve_spec now m grantId keys W q db Hv) as H.
  rewrite Hr in H. assert (hasRosterReservation db1 m = true) as Hh.
  { destruct fresh; simpl in H; [apply H|]. by destruct H as [? ->]. }
  unfold reserveRosterSend, try_catch, transaction, reserve_body, bind, query, gets.
  by rewrite Hh.
Qed.

(** ** Bounds kept by every operation *)

Record grants_inv (db : CentralDb) : Prop := {
  gi_unique : keys_unique g_id (dm_grants db);
  gi_bounds : ∀ g, g ∈ dm_grants db → 0 ≤ g_sends_used g ∧ 0 ≤ g_max_sends g ∧
                (0 < g_max_sends g → g_sends_used g ≤ g_max_sends g) }.

Definition usage_ok (g : DmGrantRow) : Prop :=
  0 ≤ g_sends_used g ∧ 0 ≤ g_max_sends g ∧ (0 < g_max_sends g → g_sends_used g ≤ g_max_sends g).

(** An update of selected grants that keeps ids and usage bounds. *)
Lemma grants_inv_update p f db :
  (∀ g, g_id (f g) = g_id g) →
  (∀ g, p g = true → usage_ok g → usage_ok (f g)) →
  grants_inv db → grants_inv (set_dm_grants (sql_update p f (dm_grants db)) db).
Proof.
  intros Hid Hf [Hu Hb]. split; simpl.
  - by apply keys_unique_update.
  - intros g (g0 & Hin & ->)%elem_of_sql_update. destruct (p g0) eqn:Hp; [|by apply Hb].
    apply Hf; [done|]. by apply Hb.
Qed.
(** The other tables do not matter. *)
Lemma grants_inv_ext db db' :
  dm_grants db' = dm_grants db → grants_inv db → grants_inv db'.
Proof. intros H [H1 H2]. split; by rewrite H. Qed.

Lemma preserves_grants_modify (f : CentralDb → CentralDb) :
  (∀ db, dm_grants (f db) = dm_grants db) → preserves grants_inv (modify (E:=exn) f).
Proof. intros H s Hs. simpl. exact (grants_inv_ext s (f s) (H s) Hs). Qed.
Lemma preserves_grants_query {A} (f : CentralDb → A) : preserves grants_inv (query f).
Proof. apply preserves_gets. Qed.
Lemma preserves_grants_window now secs : preserves grants_inv (windowStartIso now secs).
Proof. unfold windowStartIso. case_match; auto with prog. Qed.
Lemma bump_db_grants k w db : dm_grants (bump_db k w db) = dm_grants db.
Proof. unfold bump_db. by case_match. Qed.
Lemma preserves_grants_bump k w : preserves grants_inv (bumpLedger k w).
Proof. apply preserves_grants_modify. apply bump_db_grants. Qed.
Lemma preserves_grants_dec k w : preserves grants_inv (decLedger k w).
Proof. by apply preserves_grants_modify. Qed.
Lemma preserves_grants_audit now e a b c d : preserves grants_inv (recordEnterpriseAudit now e a b c d).
Proof. by apply preserves_grants_modify. Qed.
Lemma preserves_grants_charge r k w l : preserves grants_inv (charge_bucket r k w l).
Proof.
  apply preserves_bind; [apply preserves_grants_query|]. intros n.
  case_match; [apply preserves_throw|apply preserves_grants_bump].
Qed.
Create HintDb grants.
#[export] Hint Resolve preserves_ret preserves_throw preserves_grants_query
  preserves_grants_window preserves_grants_bump preserves_grants_dec
  preserves_grants_audit preserves_grants_charge : grants.

(** Walk through a program whose primitive steps [grants] knows. *)
Ltac preserves_grants :=
  repeat first
    [ progress auto with grants
    | apply preserves_bind; [|intros ?]
    | apply preserves_transaction
    | apply preserves_try; [|intros ?]
    | apply preserves_for_each; intros ? _
    | case_match ].

Lemma preserves_grants_charge_grant now id : preserves grants_inv (reserve_grant now id).
Proof.
  unfold reserve_grant. preserves_grants.
  intros db H. simpl. apply grants_inv_update; [done| |done].
  intros g Ho (H1 & H2 & H3). unfold open_grant in Ho. to_prop.
  unfold charge_grant, usage_ok. simpl.
  destruct (Z.leb_spec (g_max_sends g) 0), (Z.ltb_spec (g_sends_used g) (g_max_sends g));
    simpl in *; try done; lia.
Qed.
#[export] Hint Resolve preserves_grants_charge_grant : grants.
Lemma preserves_grants_reserve now m id keys W q :
  preserves grants_inv (reserveRosterSend now m id keys W q).
Proof.
  unfold reserveRosterSend, reserve_body. preserves_grants.
Qed.
Lemma preserves_grants_rollback now m id keys W q :
  preserves grants_inv (rollbackRosterReservation now m id keys W q).
Proof.
  unfold rollbackRosterReservation. preserves_grants.
  - intros db Hinv. simpl. apply grants_inv_update; [done| |done].
    intros g _ (? & ? & ?). unfold refund_grant, usage_ok. simpl. lia.
  - by apply preserves_grants_modify.
Qed.
Lemma preserves_grants_revoke now p : preserves grants_inv (revoke_grants_where now p).
Proof.
  unfold revoke_grants_where. preserves_grants. intros db H. simpl.
  apply grants_inv_update; [done| |done]. by intros g _ ?.
Qed.
Lemma preserves_grants_upsert now id a : preserves grants_inv (upsert_grant now id a).
Proof.
  unfold upsert_grant.
  intros db H. unfold bind, query, gets, modify, throw. simpl.
  destruct (getBySlot db _ _) as [g0|]; simpl.
  - apply grants_inv_update; [done| |done]. by intros g _ ?.
  - destruct (sql_exists _ _) eqn:E; simpl; [done|]. destruct H as [H1 H2].
    rewrite sql_exists_false in E. split; simpl.
    + apply keys_unique_insert; [done|]. intros g Hg Hid.
      specialize (E g Hg). apply orb_false_iff in E as [E _]. by to_prop.
    + intros g [Hg|Hg]%elem_of_app; [by apply H2|].
      apply list_elem_of_singleton in Hg as ->. unfold new_grant. simpl.
      destruct (ia_maxSends a) as [n|]; [|lia]. destruct (Z.ltb_spec 0 n); lia.
Qed.
#[export] Hint Resolve preserves_grants_upsert preserves_grants_revoke : grants.
Lemma preserves_grants_insert now id a : preserves grants_inv (insertDmGrant now id a).
Proof. unfold insertDmGrant. preserves_grants. Qed.

(** No bucket of a rate kind is above the limit of its kind. *)
Definition rates_inv (lim : RateKind → Z) (db : CentralDb) : Prop :=
  ∀ k x w, currentCount db (kind_name k +:+ ":" +:+ x) w ≤ Z.max 0 (lim k).

(** A key no rate kind uses. *)
Definition not_rate_key (key : string) : Prop := ∀ k x, key ≠ kind_name k +:+ ":" +:+ x.

Section rates.
  Context (lim : RateKind → Z).

Lemma rates_inv_ext db db' :
  dm_rate_ledger db' = dm_rate_ledger db → rates_inv lim db → rates_inv lim db'.
Proof. intros H Hr k x w. unfold currentCount. rewrite H. apply Hr. Qed.
Lemma preserves_rates_modify (f : CentralDb → CentralDb) :
  (∀ db, dm_rate_ledger (f db) = dm_rate_ledger db) →
  preserves (rates_inv lim) (modify (E:=exn) f).
Proof. intros H s Hs. simpl. exact (rates_inv_ext s (f s) (H s) Hs). Qed.
Lemma preserves_rates_query {A} (f : CentralDb → A) : preserves (rates_inv lim) (query f).
Proof. apply preserves_gets. Qed.
Lemma preserves_rates_window now secs : preserves (rates_inv lim) (windowStartIso now secs).
Proof. unfold windowStartIso. case_match; auto with prog. Qed.
Lemma preserves_rates_bump_other key ws :
  not_rate_key key → preserves (rates_inv lim) (bumpLedger key ws).
Proof.
  intros Hne db Hr k x w. simpl. rewrite currentCount_bump.
  rewrite decide_False; [specialize (Hr k x w); lia|]. intros [= E _]. by eapply Hne.
Qed.
Lemma preserves_rates_dec key ws : preserves (rates_inv lim) (decLedger key ws).
Proof.
  intros db Hr k x w. simpl. rewrite currentCount_dec.
  case_decide as Hd; [|apply Hr]. injection Hd as <- <-. specialize (Hr k x w). lia.
Qed.
(** The reservation tests the bucket before it charges it. *)
Lemma preserves_rates_charge reason k keys ws l :
  l = lim k → preserves (rates_inv lim) (charge_bucket reason (ledger_key k keys) ws l).
Proof.
  intros -> db Hr. unfold charge_bucket, bind, query, gets.
  destruct (Z.leb_spec (lim k) (currentCount db (ledger_key k keys) ws)) as [|Hlt]; [done|].
  intros k' x w. simpl. rewrite currentCount_bump. specialize (Hr k' x w).
  case_decide as Hd; [|lia]. injection Hd as Hk ->.
  assert (k' = k) as -> by (by destruct k, k'). unfold ledger_key in *.
  rewrite Hk in *. lia.
Qed.
Lemma preserves_rates_charge_other reason key ws l :
  not_rate_key key → preserves (rates_inv lim) (charge_bucket reason key ws l).
Proof.
  intros H. apply preserves_bind; [apply preserves_rates_query|]. intros n.
  case_match; [apply preserves_throw|by apply preserves_rates_bump_other].
Qed.
Lemma preserves_rates_clear key ws :
  preserves (rates_inv lim) (modify (E:=exn) (λ db,
    set_dm_rate_ledger (sql_delete (at_window key ws) (dm_rate_ledger db)) db)).
Proof.
  intros db Hr k x w. simpl. rewrite currentCount_delete. case_decide; [lia|apply Hr].
Qed.
End rates.

Lemma not_rate_daily q : not_rate_key (daily_key q).
Proof. intros k x. by destruct k. Qed.
Lemma not_rate_reserve m : not_rate_key (reserveKey m).
Proof. intros k x. by destruct k. Qed.
Lemma not_rate_invite s : not_rate_key (invite_key s).
Proof. intros k x. by destruct k. Qed.

(** One operation on the grants and the ledger, the windows having the limits
    [lim]; the arguments are whatever a caller passes. *)
Inductive grant_step (lim : RateKind → Z) : relation CentralDb :=
| grant_insert now id a db : grant_step lim db (insertDmGrant now id a db).2
| grant_reserve now m id keys W q db :
    (∀ k, limit (W k) = lim k) →
    grant_step lim db (reserveRosterSend now m id keys W q db).2
| grant_rollback now m id keys W q db :
    grant_step lim db (rollbackRosterReservation now m id keys W q db).2
| grant_revoke_scope now s db : grant_step lim db (revokeScope now s db).2
| grant_opt_out now s p db : grant_step lim db (revokeParticipantInScope now s p db).2
| grant_leaver now o p db : grant_step lim db (revokeGrantsForLeaver now o p db).2
| grant_invite now s q db : grant_step lim db (recordInviteConsumption now s q db).2
| grant_clear m db : grant_step lim db (clearRosterReservationMarker m db).2.

Lemma grant_step_grants lim db db' : grant_step lim db db' → grants_inv db → grants_inv db'.
Proof.
  assert (∀ A (m : dbM A) s, preserves grants_inv m → grants_inv s → grants_inv (m s).2) as Hp
    by (intros A m s Hm; apply Hm).
  destruct 1; apply Hp.
  - apply preserves_grants_insert.
  - apply preserves_grants_reserve.
  - apply preserves_grants_rollback.
  - unfold revokeScope. preserves_grants.
  - unfold revokeParticipantInScope. preserves_grants.
  - unfold revokeGrantsForLeaver. preserves_grants.
  - unfold recordInviteConsumption, recordDeployDailyConsumption. preserves_grants.
  - by apply preserves_grants_modify.
Qed.

Lemma recordEnterpriseAudit_rates lim now e a b c d :
  preserves (rates_inv lim) (recordEnterpriseAudit now e a b c d).
Proof. by apply preserves_rates_modify. Qed.
Lemma revoke_rates lim now p : preserves (rates_inv lim) (revoke_grants_where now p).
Proof.
  apply preserves_bind; [apply preserves_rates_query|]. intros n.
  apply preserves_bind; [by apply preserves_rates_modify|]. intros _. apply preserves_ret.
Qed.
Create HintDb rates.
#[export] Hint Resolve preserves_ret preserves_throw preserves_rates_query preserves_rates_window
  preserves_rates_bump_other preserves_rates_dec preserves_rates_charge
  preserves_rates_charge_other preserves_rates_clear recordEnterpriseAudit_rates revoke_rates
  not_rate_daily not_rate_reserve not_rate_invite : rates.
Ltac preserves_rates :=
  repeat first
    [ progress auto with rates
    | apply preserves_bind; [|intros ?]
    | apply preserves_transaction
    | apply preserves_try; [|intros ?]
    | apply preserves_for_each; intros ? _
    | case_match ].

Lemma grant_step_rates lim db db' : grant_step lim db db' → rates_inv lim db → rates_inv lim db'.
Proof.
  assert (∀ A (m : dbM A) s, preserves (rates_inv lim) m → rates_inv lim s →
    rates_inv lim (m s).2) as Hp by (intros A m s Hm; apply Hm).
  assert (∀ now id a, preserves (rates_inv lim) (upsert_grant now id a)) as Hu.
  { intros. unfold upsert_grant. preserves_rates; by apply preserves_rates_modify. }
  assert (∀ now id, preserves (rates_inv lim) (reserve_grant now id)) as Hg.
  { intros. unfold reserve_grant. preserves_rates; by apply preserves_rates_modify. }
  destruct 1; apply Hp.
  - unfold insertDmGrant. preserves_rates.
  - unfold reserveRosterSend, reserve_body. preserves_rates.
  - unfold rollbackRosterReservation. preserves_rates. by apply preserves_rates_modify.
  - unfold revokeScope. preserves_rates.
  - unfold revokeParticipantInScope. preserves_rates.
  - unfold revokeGrantsForLeaver. preserves_rates.
  - unfold recordInviteConsumption, recordDeployDailyConsumption. preserves_rates.
  - apply preserves_rates_clear.
Qed.

(** a consent grant is never used beyond its cap and no rate window beyond
    its limit.  Whatever consents, reservations, rollbacks, revokes, invites
    and clean-ups follow each other, with any arguments and clocks, a grant with
    a cap has sent at most that many, and no (kind, key, window) bucket of the
    four rate kinds counts more than the limit of its kind. *)
Theorem grants_and_rates_bounded lim db :
  rtc (grant_step lim) emptyDb db →
  (∀ g, g ∈ dm_grants db → 0 ≤ g_sends_used g ∧
        (0 < g_max_sends g → g_sends_used g ≤ g_max_sends g)) ∧
  (∀ k keys w, currentCount db (ledger_key k keys) w ≤ Z.max 0 (lim k)).
Proof.
  intros Hr. split.
  - assert (grants_inv db) as [_ Hb].
    { eapply (rtc_invariant _ grants_inv); [apply (grant_step_grants lim)|exact Hr|].
      split; [apply NoDup_nil_2|]. simpl. set_solver. }
    intros g Hg. destruct (Hb g Hg) as (? & _ & ?). done.
  - assert (rates_inv lim db) as H; [|intros k keys w; apply H].
    eapply (rtc_invariant _ (rates_inv lim)); [apply grant_step_rates|exact Hr|].
    intros k x w. unfold currentCount. simpl. lia.
Qed.

(** ** Rolling back *)

(** Refunding one bucket at a time. *)
Lemma dec_all_spec (bs : list (string * time)) db :
  NoDup bs →
  match for_each bs (λ b, decLedger b.1 b.2) db with
  | (Ok _, db') => same_but_ledger db db' ∧ ∀ k w,
      currentCount db' k w =
        if decide ((k, w) ∈ bs) then Z.max (currentCount db k w - 1) 0 else currentCount db k w
  | (Throw _, _) => False
  end.
Proof.
  revert db. induction bs as [|[k0 w0] bs IH]; intros db.
  { intros _. simpl. split; [done|]. done. }
  intros [Hb Hnd]%NoDup_cons. simpl. unfold bind, decLedger at 1, modify.
  specialize (IH (dec_db k0 w0 db) Hnd).
  destruct (for_each bs _ _) as [[[]|e] db']; [|done].
  destruct IH as [Hs Hc]. split; [etrans; [|exact Hs]; apply same_but_ledger_set|].
  intros k w. rewrite Hc, currentCount_dec.
  destruct (decide ((k, w) = (k0, w0))) as [Hd|Hd].
  - rewrite (decide_False (P := _ ∈ bs)) by (by rewrite Hd).
    injection Hd as -> ->. by rewrite decide_True by left.
  - destruct (decide ((k, w) ∈ bs)).
    + by rewrite decide_True by (by right).
    + rewrite decide_False; [done|]. by intros [?|?]%elem_of_cons.
Qed.

Definition bucket_windows (bs : list bucket) : list (string * time) :=
  map (λ b, (b_key b, b_ws b)) bs.
Lemma bucket_windows_nodup now keys W q : NoDup (bucket_windows (buckets now keys W q)).
Proof.
  apply (NoDup_fmap_1 fst). unfold bucket_windows.
  change (NoDup (map fst (map (λ b, (b_key b, b_ws b)) (buckets now keys W q)))).
  rewrite map_map. apply buckets_nodup.
Qed.

Lemma rollback_decs now keys W q db :
  windows_valid W q →
  bind (for_each rate_kinds (λ k,
      let* ws := windowStartIso now (windowSec (W k)) in decLedger (ledger_key k keys) ws))
    (λ _, if 0 <? dq_dailyCap q then
       let* ws := windowStartIso now (dq_dailyWindowSec q) in decLedger (daily_key q) ws
     else ret tt) db
  = for_each (bucket_windows (buckets now keys W q)) (λ b, decLedger b.1 b.2) db.
Proof.
  intros [Hw Hd]. unfold buckets, bucket_windows. rewrite map_app, for_each_app.
  apply bind_ext.
  - rewrite map_map, for_each_map. apply for_each_ext. intros k s _.
    unfold bind. by rewrite windowStartIso_valid.
  - intros _ s. unfold daily_buckets. destruct (0 <? dq_dailyCap q); [|done].
    unfold bind at 1. rewrite windowStartIso_valid by done. done.
Qed.

Lemma rollback_spec now m grantId keys W q db :
  windows_valid W q → hasRosterReservation db m = true →
  ∃ db', rollbackRosterReservation now m grantId keys W q db = (Ok true, db') ∧
    dm_grants db' = sql_update (λ g, bool_decide (g_id g = grantId)) refund_grant (dm_grants db) ∧
    hasRosterReservation db' m = false ∧
    ∀ k w, currentCount db' k w =
      if decide ((k, w) = (reserveKey m, RESERVE_SENTINEL_WINDOW)) then 0
      else if decide (in_buckets (buckets now keys W q) k w)
      then Z.max (currentCount db k w - 1) 0 else currentCount db k w.
Proof.
  intros Hv Hh. unfold rollbackRosterReservation, transaction.
  unfold bind at 1, query, gets. rewrite Hh. cbv iota beta delta [negb].
  unfold bind at 1, modify at 1. cbv iota beta.
  set (db0 := set_dm_grants (sql_update (λ g, bool_decide (g_id g = grantId)) refund_grant
    (dm_grants db)) db).
  rewrite bind_assoc. unfold bind at 1. rewrite rollback_decs by done.
  pose proof (dec_all_spec _ db0 (bucket_windows_nodup now keys W q)) as Hd.
  destruct (for_each _ _ db0) as [[[]|] db1]; [|done]. destruct Hd as [Hs Hc].
  unfold bind, modify, ret. eexists. split; [reflexivity|]. split; [|split].
  - simpl. by rewrite (same_grants _ _ Hs).
  - unfold hasRosterReservation. rewrite sql_exists_first. simpl. by rewrite sql_first_deleted.
  - intros k w. rewrite currentCount_delete, Hc. done.
Qed.

(** an immediate rollback undoes a reservation.  Rolling back, at the same
    time and with the same arguments, a reservation that was freshly charged
    restores every grant and every counter, and the message holds no
    reservation any more. *)
Theorem rollback_undoes_reserve now m grantId keys W q db db1 :
  windows_valid W q → grants_inv db →
  (∀ k w, 0 ≤ currentCount db k w) →
  currentCount db (reserveKey m) RESERVE_SENTINEL_WINDOW = 0 →
  reserveRosterSend now m grantId keys W q db = (Ok (Reserved true), db1) →
  ∃ db2, rollbackRosterReservation now m grantId keys W q db1 = (Ok true, db2) ∧
    dm_grants db2 = dm_grants db ∧ hasRosterReservation db2 m = false ∧
    ∀ k w, currentCount db2 k w = currentCount db k w.
Proof.
  intros Hv [Hu Hb] Hpos Hm Hr. pose proof (reserve_spec now m grantId keys W q db Hv) as H.
  rewrite Hr in H. cbn [fst snd] in H. destruct H as (_ & Hh & H1 & Hg & _ & Hc).
  destruct (rollback_spec now m grantId keys W q db1 Hv Hh) as (db2 & E & Hg2 & Hh2 & Hc2).
  exists db2. split; [done|]. split; [|split; [done|]].
  - rewrite Hg2, Hg. unfold sql_update. rewrite map_map.
    rewrite <-(map_id (dm_grants db)) at 2. apply map_ext_in. intros g Hin%list_elem_of_In.
    destruct (open_grant grantId g) eqn:Ho; simpl.
    + unfold open_grant in Ho. to_prop. rewrite bool_decide_eq_true_2 by done.
      destruct (Hb g Hin) as (Hs & Hx & Hle). unfold refund_grant, charge_grant. simpl.
      rewrite Z.add_simpl_r, Z.max_l by lia.
      destruct g. simpl in *. subst. unfold set_usage. simpl.
      by destruct (_ && _).
    + case_bool_decide as Hid; [|done]. exfalso.
      assert (∃ g', g' ∈ dm_grants db ∧ open_grant grantId g' = true) as (g' & Hin' & Ho').
      { apply sql_exists_true. apply not_false_iff_true. rewrite sql_exists_false.
        rewrite <-sql_changes_zero. lia. }
      assert (g' = g) as ->; [|congruence].
      eapply keys_unique_eq; [exact Hu|done|done|].
      unfold open_grant in Ho'. to_prop. congruence.
  - intros k w. rewrite Hc2, Hc. unfold charged. specialize (Hpos k w).
    destruct (decide ((k, w) = _)) as [Hd|Hd].
    { injection Hd as -> ->. lia. }
    destruct (decide (in_buckets _ k w)).
    + rewrite (decide_True (P := _ ∨ _)) by tauto. lia.
    + rewrite (decide_False (P := _ ∨ _)) by tauto. lia.
Qed.

(** Why delivery.ts passes the reservation's own time to the rollback: the
    buckets are computed from the time given, so when the window of a rate kind
    has turned over in between, the bucket that was charged keeps its charge. *)
Lemma late_rollback_keeps_charge now now' m grantId keys W q k db db1 :
  windows_valid W q →
  window_start now (windowSec (W k)) ≠ window_start now' (windowSec (W k)) →
  reserveRosterSend now m grantId keys W q db = (Ok (Reserved true), db1) →
  ∃ db2, rollbackRosterReservation now' m grantId keys W q db1 = (Ok true, db2) ∧
    currentCount db2 (ledger_key k keys) (window_start now (windowSec (W k))) =
    currentCount db (ledger_key k keys) (window_start now (windowSec (W k))) + 1.
Proof.
  intros Hv Hne Hr. pose proof (reserve_spec now m grantId keys W q db Hv) as H.
  rewrite Hr in H. cbn [fst snd] in H. destruct H as (_ & Hh & _ & _ & _ & Hc).
  destruct (rollback_spec now' m grantId keys W q db1 Hv Hh) as (db2 & E & _ & _ & Hc2).
  exists db2. split; [done|]. rewrite Hc2, decide_False.
  2: { intros [= E' _]. symmetry in E'. by apply reserveKey_ne_rate in E'. }
  rewrite decide_False.
  - rewrite Hc, decide_True; [done|]. left. unfold in_buckets, buckets.
    apply list_elem_of_fmap. exists (rate_bucket now keys W k). split; [done|].
    apply elem_of_app. left. apply list_elem_of_fmap_2, rate_kinds_all.
  - unfold in_buckets, buckets. rewrite map_app, map_map, elem_of_app.
    intros [(k' & E' & _)%list_elem_of_fmap|Hd].
    + injection E' as Hk Hw. apply ledger_key_inj in Hk as ->. done.
    + unfold daily_buckets in Hd. case_match; [|by apply elem_of_nil in Hd].
      apply list_elem_of_singleton in Hd. injection Hd as Hd _. by apply daily_key_ne in Hd.
Qed.

(** ** Liveness *)

(** The unique index UNIQUE(scope_id, slot_label). *)
Definition slots_unique (db : CentralDb) : Prop :=
  keys_unique (λ g, (g_scope_id g, g_slot_label g)) (dm_grants db).

Lemma getBySlot_Some db s l g :
  slots_unique db →
  getBySlot db s l = Some g ↔ g ∈ dm_grants db ∧ g_scope_id g = s ∧ g_slot_label g = l.
Proof.
  intros Hu. unfold getBySlot. split.
  - intros [Hin Hp]%sql_first_Some. unfold at_slot in Hp. by to_prop.
  - intros (Hin & <- & <-). destruct (sql_first _ _) as [g'|] eqn:E.
    + apply sql_first_Some in E as [Hin' Hp]. unfold at_slot in Hp. to_prop.
      f_equal. eapply keys_unique_eq; [exact Hu|done|done|]. simpl. congruence.
    + pose proof (sql_first_None _ _ g E Hin) as Hp. unfold at_slot in Hp.
      by rewrite !bool_decide_eq_true_2 in Hp.
Qed.

(** the slots an agent is shown are the slots delivery accepts.  A grant of
    the scope from an allowed consent source, with a non-negative cap and no
    unreadable expiry, is in [listLiveGrantsForScope] exactly when
    [checkGrantLive] accepts its slot at the same time. *)
Theorem live_list_is_live_check db s now g :
  slots_unique db → g ∈ dm_grants db → g_scope_id g = s →
  g_consent_source g ∈ ALLOWED_CONSENT_SOURCES → 0 ≤ g_max_sends g →
  g_expires_at g ≠ Some StampInvalid →
  g ∈ listLiveGrantsForScope db s now ↔
  checkGrantLive db s (g_slot_label g) now = GrantLive g.
Proof.
  intros Hu Hin Hs Hc Hm He. unfold listLiveGrantsForScope, listGrantsForScope, checkGrantLive.
  rewrite elem_of_sql_where, elem_of_sql_order_by, elem_of_sql_where.
  rewrite (proj2 (getBySlot_Some db s (g_slot_label g) g Hu)) by done.
  rewrite Hs, !(bool_decide_eq_true_2 (_ ∈ _)) by done.
  rewrite !(bool_decide_eq_true_2 (s = s)) by done. simpl.
  destruct (bool_decide (g_revoked_at g = None)); simpl; [|naive_solver].
  assert (∀ a : bool, (0 <? g_max_sends g) && (g_max_sends g <=? g_sends_used g) =
    negb ((g_max_sends g =? 0) || (g_sends_used g <? g_max_sends g))) as Hcap.
  { intros _. destruct (Z.ltb_spec 0 (g_max_sends g)), (Z.eqb_spec (g_max_sends g) 0),
      (Z.ltb_spec (g_sends_used g) (g_max_sends g)),
      (Z.leb_spec (g_max_sends g) (g_sends_used g)); simpl; try done; lia. }
  rewrite (Hcap true). destruct (g_expires_at g) as [[ms|]|]; [|done|].
  - simpl. rewrite Z.leb_antisym. destruct (now <? ms); simpl; [|naive_solver].
    destruct (_ || _); simpl; naive_solver.
  - simpl. destruct (_ || _); simpl; naive_solver.
Qed.

(** an unreadable expiry fails open.  A grant whose [expires_at] text is not
    a date passes [checkGrantLive] at every time, however late, as long as it
    is not revoked and under its cap, while the agent's slot list, which
    comments on using the same conditions, never shows it. *)
Theorem invalid_expiry_fails_open db s now g :
  slots_unique db → g ∈ dm_grants db → g_scope_id g = s →
  g_consent_source g ∈ ALLOWED_CONSENT_SOURCES → g_max_sends g = 0 →
  g_revoked_at g = None → g_expires_at g = Some StampInvalid →
  checkGrantLive db s (g_slot_label g) now = GrantLive g ∧
  g ∉ listLiveGrantsForScope db s now.
Proof.
  intros Hu Hin Hs Hc Hm Hr He. unfold checkGrantLive.
  rewrite (proj2 (getBySlot_Some db s (g_slot_label g) g Hu)) by done.
  rewrite Hs, Hr, He, Hm, !bool_decide_eq_true_2 by done. split; [done|].
  unfold listLiveGrantsForScope. rewrite elem_of_sql_where, He, Hr.
  rewrite bool_decide_eq_true_2 by done. by intros [_ ?].
Qed.

(** ** Concrete databases *)

Definition sample_grant (used cap : Z) (revoked : option time) (exp : option stamp) : DmGrantRow :=
  mkDmGrantRow "g1" "scope" "ag" "slot-1" "ou_ada" "feishu:p2p:ou_ada" "feishu" DirectedCard
    "m0" None None 0 exp revoked cap used.
Definition sample_quota : DeployQuotaConfig := mkDeployQuota "global" (mkRateWindow 60 100) 5 86400.
Definition sample_keys : RateKeys := λ k,
  match k with Kgrant => "g1" | Kparticipant => "ou_ada" | Kscope => "scope" | Kdeploy => "global" end.
Definition grant_db (g : DmGrantRow) : CentralDb := set_dm_grants [g] emptyDb.

Lemma sample_windows_valid : windows_valid DEFAULT_RATE_WINDOWS sample_quota.
Proof. split; [by intros []|done]. Qed.

(** a rollback can undo an opt-out.  A participant on a grant of one send
    opts out between the reservation that uses it up and the failure of the
    send: the opt-out finds the grant already revoked by the cap and changes
    nothing, and the rollback then un-revokes the grant, which is live again. *)
Theorem rollback_undoes_opt_out :
  let db0 := grant_db (sample_grant 0 1 None None) in
  let '(r1, db1) := reserveRosterSend 1000 "msg" "g1" sample_keys DEFAULT_RATE_WINDOWS sample_quota db0 in
  let '(r2, db2) := revokeParticipantInScope 2000 "scope" "ou_ada" db1 in
  let '(r3, db3) := rollbackRosterReservation 1000 "msg" "g1" sample_keys DEFAULT_RATE_WINDOWS sample_quota db2 in
  r1 = Ok (Reserved true) ∧ r2 = Ok 0%nat ∧ r3 = Ok true ∧
  checkGrantLive db3 "scope" "slot-1" 3000 = GrantLive (sample_grant 0 1 None None).
Proof. vm_compute. done. Qed.

(** the housekeeping pass forgets the daily ceiling.  [pruneRateLedger] with
    its default of an hour deletes the current day's deploy bucket once the day
    is more than an hour old, so a deployment at its daily cap may send again
    the same day; its comment says daily buckets are not pruned. *)
Theorem prune_resets_daily_cap now q db :
  0 < dq_dailyCap q → 0 < dq_dailyWindowSec q →
  dq_dailyCap q ≤ currentCount db (daily_key q) (window_start now (dq_dailyWindowSec q)) →
  window_start now (dq_dailyWindowSec q) < now - 3600 * 1000 →
  startsWith (toLowerCase (daily_key q)) "reserve:" = false →
  (checkDeployDailyCap now q db).1 = Ok (RateBlocked (daily_key q)) ∧
  (checkDeployDailyCap now q (pruneRateLedger 3600 now db).2).1 = Ok RateAllowed.
Proof.
  intros Hc Hw Hfull Hold Hk.
  unfold checkDeployDailyCap. rewrite (proj2 (Z.leb_gt _ _) Hc).
  unfold bind, query, gets. rewrite !windowStartIso_valid by lia.
  rewrite (proj2 (Z.leb_le _ _) Hfull). split; [done|].
  unfold pruneRateLedger, bind, query, gets, modify, ret. cbn [fst snd].
  assert (currentCount (set_dm_rate_ledger (sql_delete (λ r, (l_window_start r <? now - 3600 * 1000) &&
    negb (startsWith (toLowerCase (l_key r)) "reserve:")) (dm_rate_ledger db)) db)
    (daily_key q) (window_start now (dq_dailyWindowSec q)) = 0) as ->.
  { unfold currentCount. simpl. destruct (sql_first _ _) as [r|] eqn:E; [|done].
    apply sql_first_Some in E as [Hr [Hk' Hw']%at_window_true].
    apply elem_of_sql_delete in Hr as [_ Hd].
    by rewrite Hw', Hk', Hk, (proj2 (Z.ltb_lt _ _) Hold) in Hd. }
  by rewrite (proj2 (Z.leb_gt _ _) Hc).
Qed.

(** ** Witnesses *)

Definition open_db : CentralDb := grant_db (sample_grant 0 2 None None).
Definition reserved_db : CentralDb :=
  (reserveRosterSend 1000 "msg" "g1" sample_keys DEFAULT_RATE_WINDOWS sample_quota open_db).2.

Lemma reserve_all_or_nothing_witness :
  (reserveRosterSend 1000 "msg" "g1" sample_keys DEFAULT_RATE_WINDOWS sample_quota open_db).1
    = Ok (Reserved true) ∧
  reserve_outcome 1000 "msg" "g1" (buckets 1000 sample_keys DEFAULT_RATE_WINDOWS sample_quota)
    open_db
    (reserveRosterSend 1000 "msg" "g1" sample_keys DEFAULT_RATE_WINDOWS sample_quota open_db).1
    reserved_db.
Proof.
  split; [vm_compute; reflexivity|].
  apply (reserve_all_or_nothing 1000 "msg" "g1" sample_keys DEFAULT_RATE_WINDOWS sample_quota
    open_db sample_windows_valid).
Defined.

Lemma reserve_idempotent_witness :
  reserveRosterSend 99000 "msg" "g1" sample_keys DEFAULT_RATE_WINDOWS sample_quota reserved_db
  = (Ok (Reserved false), reserved_db).
Proof.
  apply (reserve_idempotent 1000 "msg" "g1" sample_keys DEFAULT_RATE_WINDOWS sample_quota
    open_db true reserved_db 99000 "g1" sample_keys DEFAULT_RATE_WINDOWS sample_quota
    sample_windows_valid).
  vm_compute. reflexivity.
Defined.

Definition sample_consent : InsertDmGrantArgs :=
  mkInsertDmGrantArgs "scope" "ag" "slot-1" "ou_ada" "feishu:p2p:ou_ada" None DirectedCard "m0"
    None None (Some 1) None.
Definition consented_db : CentralDb := (insertDmGrant 0 "g1" sample_consent emptyDb).2.
Definition spent_db : CentralDb :=
  (reserveRosterSend 1000 "msg" "g1" sample_keys DEFAULT_RATE_WINDOWS sample_quota consented_db).2.

Lemma grants_and_rates_bounded_witness :
  map g_sends_used (dm_grants spent_db) = [1] ∧
  (∀ g, g ∈ dm_grants spent_db → 0 ≤ g_sends_used g ∧
        (0 < g_max_sends g → g_sends_used g ≤ g_max_sends g)).
Proof.
  split; [vm_compute; reflexivity|].
  apply (grants_and_rates_bounded (λ k, limit (DEFAULT_RATE_WINDOWS k)) spent_db).
  eapply rtc_r; [|by apply grant_reserve]. eapply rtc_r; [|apply grant_insert]. reflexivity.
Defined.

Lemma open_db_inv : grants_inv open_db.
Proof.
  split; [apply NoDup_singleton|]. intros g Hg. apply list_elem_of_singleton in Hg as ->.
  simpl. lia.
Qed.
Lemma rollback_undoes_reserve_witness :
  ∃ db2, rollbackRosterReservation 1000 "msg" "g1" sample_keys DEFAULT_RATE_WINDOWS sample_quota
           reserved_db = (Ok true, db2) ∧
    dm_grants db2 = dm_grants open_db ∧ hasRosterReservation db2 "msg" = false ∧
    ∀ k w, currentCount db2 k w = currentCount open_db k w.
Proof.
  apply (rollback_undoes_reserve 1000 "msg" "g1" sample_keys DEFAULT_RATE_WINDOWS sample_quota
    open_db reserved_db sample_windows_valid open_db_inv).
  - intros k w. vm_compute. discriminate.
  - reflexivity.
  - vm_compute. reflexivity.
Defined.

Lemma live_list_is_live_check_witness :
  let g := sample_grant 0 2 None (Some (StampAt 5000)) in
  g ∈ listLiveGrantsForScope (grant_db g) "scope" 4000 ↔
  checkGrantLive (grant_db g) "scope" "slot-1" 4000 = GrantLive g.
Proof.
  intros g. apply (live_list_is_live_check (grant_db g) "scope" 4000 g);
    [apply NoDup_singleton|left|reflexivity|by apply (bool_decide_unpack _)|vm_compute; discriminate|done].
Defined.

Lemma invalid_expiry_fails_open_witness :
  let g := sample_grant 0 0 None (Some StampInvalid) in
  checkGrantLive (grant_db g) "scope" "slot-1" 99999999 = GrantLive g ∧
  g ∉ listLiveGrantsForScope (grant_db g) "scope" 99999999.
Proof.
  intros g. apply (invalid_expiry_fails_open (grant_db g) "scope" 99999999 g);
    [apply NoDup_singleton|left|reflexivity|by apply (bool_decide_unpack _)|reflexivity..].
Defined.

(** The daily cap of 5 used up at midnight; two hours later the prune frees it. *)
Lemma prune_resets_daily_cap_witness :
  let db := set_dm_rate_ledger [mkLedgerRow "deploy-daily:global" 0 5] emptyDb in
  (checkDeployDailyCap 7200000 sample_quota db).1 = Ok (RateBlocked "deploy-daily:global") ∧
  (checkDeployDailyCap 7200000 sample_quota (pruneRateLedger 3600 7200000 db).2).1 = Ok RateAllowed.
Proof.
  intros db. apply (prune_resets_daily_cap 7200000 sample_quota db);
    [reflexivity|reflexivity|vm_compute; discriminate|reflexivity|reflexivity].
Defined.
