(* ===== verification/AdmissionQueue.v ===== *)
(** * The admission queue for container wakes (src/admission-queue.ts)

    The module's five variables are one record; the Prometheus gauge and the
    two observations are fields of it.  [drainAdmissionSlot] is split where the
    source awaits: the synchronous part, up to the call of [deps.wake], is
    [drainAdmissionSlot]; the continuation of the promise is [wakeSettled]. *)
From S2P Require Import Prelude Types.

Local Open Scope string_scope.
Local Open Scope nat_scope.
Local Open Scope list_scope.

(*@ src/src/admission-queue.ts 33-53 queue *)
Record AdmissionState := mkAdmission {
  aq_queue : list string;
  aq_queued : gset string;
  aq_failCounts : gmap string nat;
  aq_firstQueuedAt : gmap string time;
  aq_fairnessKeyOf : gmap string string;
  (** the gauge [admissionQueueDepth] *)
  aq_depth : nat;
  (** the counter [admissionAdmittedTotal] and the observed waits, in ms *)
  aq_admitted : nat;
  aq_waits : list Z }.

Definition emptyAdmission : AdmissionState := mkAdmission [] ∅ ∅ ∅ ∅ 0 0 [].

Definition set_queue (q : list string) (qd : gset string) (st : AdmissionState) :=
  mkAdmission q qd (aq_failCounts st) (aq_firstQueuedAt st) (aq_fairnessKeyOf st)
    (length q) (aq_admitted st) (aq_waits st).
Definition set_failCounts (f : gmap string nat) (st : AdmissionState) :=
  mkAdmission (aq_queue st) (aq_queued st) f (aq_firstQueuedAt st)
    (aq_fairnessKeyOf st) (aq_depth st) (aq_admitted st) (aq_waits st).
Definition set_tracking (fq : gmap string time) (fk : gmap string string)
    (st : AdmissionState) :=
  mkAdmission (aq_queue st) (aq_queued st) (aq_failCounts st) fq fk
    (aq_depth st) (aq_admitted st) (aq_waits st).

(*@ src/src/admission-queue.ts 55-56 MAX_ADMISSION_FAILURES *)
Definition MAX_ADMISSION_FAILURES : nat := 3.

(*@ src/src/admission-queue.ts 58-73 sessionFairnessKey *)
Definition sessionFairnessKey (s : Session) : string :=
  if truthy (s_owner_user_id s) then "user:" +:+ default "" (s_owner_user_id s)
  else if truthy (s_messaging_group_id s)
  then "group:" +:+ default "" (s_messaging_group_id s)
  else "session:" +:+ s_id s.

(** [if (!m.has(k)) m.set(k, v)] *)
Definition set_if_absent {V} (k : string) (v : V) (m : gmap string V) : gmap string V :=
  match m !! k with Some _ => m | None => <[k := v]> m end.

(*@ src/src/admission-queue.ts 75-97 enqueueAdmission *)
Definition enqueueAdmission (now : time) (id key : string) (st : AdmissionState)
    : AdmissionState :=
  if bool_decide (id ∈ aq_queued st) then st
  else
    let st1 := set_tracking (set_if_absent id now (aq_firstQueuedAt st))
                 (set_if_absent id key (aq_fairnessKeyOf st)) st in
    set_queue (aq_queue st ++ [id]) ({[id]} ∪ aq_queued st) st1.

(*@ src/src/admission-queue.ts 105-117 requeueTail *)
Definition requeueTail (id : string) (st : AdmissionState) : AdmissionState :=
  if bool_decide (id ∈ aq_queued st) then st
  else set_queue (aq_queue st ++ [id]) ({[id]} ∪ aq_queued st) st.

(** [const at = queue.indexOf(id); if (at !== -1) queue.splice(at, 1);] *)
Definition remove_first (id : string) (q : list string) : list string :=
  match list_find (eq id) q with Some (i, _) => delete i q | None => q end.

(*@ src/src/admission-queue.ts 119-125 requeueFront *)
Definition requeueFront (id : string) (st : AdmissionState) : AdmissionState :=
  set_queue (id :: remove_first id (aq_queue st)) ({[id]} ∪ aq_queued st) st.

(** The loop of [selectNextIndex] from index [i] on; [best = None] is
    [Number.POSITIVE_INFINITY]. *)
(*@ src/src/admission-queue.ts 152-166 selectNextIndex *)
Fixpoint selectLoop (keyOf : string → option string) (slotsHeldBy : string → nat)
    (entries : list string) (i at_ : nat) (best : option nat) : nat :=
  match entries with
  | [] => at_
  | e :: rest =>
      let held := match keyOf e with None => 0 | Some k => slotsHeldBy k end in
      if match best with None => true | Some b => held <? b end
      then if held =? 0 then i
           else selectLoop keyOf slotsHeldBy rest (S i) i (Some held)
      else selectLoop keyOf slotsHeldBy rest (S i) at_ best
  end.

(*@ src/src/admission-queue.ts 127-167 selectNextIndex *)
Definition selectNextIndex (entries : list string)
    (keyOf : string → option string) (slotsHeldBy : string → nat) : nat :=
  selectLoop keyOf slotsHeldBy entries 0 0 None.

(*@ src/src/admission-queue.ts 169-179 pop *)
Definition pop (slotsHeldBy : string → nat) (st : AdmissionState)
    : option string * AdmissionState :=
  match aq_queue st with
  | [] => (None, st)
  | q =>
      let at_ := selectNextIndex q (λ id, aq_fairnessKeyOf st !! id) slotsHeldBy in
      match q !! at_ with
      | Some id => (Some id, set_queue (delete at_ q) (aq_queued st ∖ {[id]}) st)
      | None => (None, set_queue (delete at_ q) (aq_queued st) st)
      end
  end.

(*@ src/src/admission-queue.ts 181-183 admissionQueueSize *)
Definition admissionQueueSize (st : AdmissionState) : nat := length (aq_queue st).

(*@ src/src/admission-queue.ts 185-193 clearAdmissionQueue *)
Definition clearAdmissionQueue (st : AdmissionState) : AdmissionState :=
  mkAdmission [] ∅ ∅ ∅ ∅ 0 (aq_admitted st) (aq_waits st).

(** The probes of [AdmissionDeps]; a throw of any of them is [Throw tt].
    [wake] is not here: what it returns arrives later, in [wakeSettled]. *)
(*@ src/src/admission-queue.ts 195-206 AdmissionDeps *)
Record AdmissionDeps := mkDeps {
  dep_getSession : string → outcome unit (option Session);
  dep_isRunning : Session → outcome unit bool;
  dep_hasDueWork : Session → outcome unit bool;
  dep_slotsHeldBy : string → nat }.

(*@ src/src/admission-queue.ts 208-215 observeWait *)
Definition observeWait (now : time) (id : string) (st : AdmissionState) : AdmissionState :=
  match aq_firstQueuedAt st !! id with
  | None => st
  | Some since =>
      mkAdmission (aq_queue st) (aq_queued st) (aq_failCounts st)
        (delete id (aq_firstQueuedAt st)) (delete id (aq_fairnessKeyOf st))
        (aq_depth st) (aq_admitted st) (aq_waits st ++ [(now - since)%Z])
  end.

(** The three deletes every abandoned entry goes through. *)
(*@ src/src/admission-queue.ts 234-236 recordFailure *)
Definition forget (id : string) (st : AdmissionState) : AdmissionState :=
  set_tracking (delete id (aq_firstQueuedAt st)) (delete id (aq_fairnessKeyOf st))
    (set_failCounts (delete id (aq_failCounts st)) st).

(*@ src/src/admission-queue.ts 217-242 recordFailure *)
Definition recordFailure (id : string) (st : AdmissionState) : AdmissionState :=
  let n := default 0 (aq_failCounts st !! id) + 1 in
  if n =? 1 then requeueFront id (set_failCounts (<[id := n]> (aq_failCounts st)) st)
  else if n <? MAX_ADMISSION_FAILURES
  then requeueTail id (set_failCounts (<[id := n]> (aq_failCounts st)) st)
  else forget id st.

(** The body of the drain's [try]: the session to let in, if it is viable. *)
(*@ src/src/admission-queue.ts 258-262 drainAdmissionSlot *)
Definition probe (deps : AdmissionDeps) (id : string) : outcome unit (option Session) :=
  match dep_getSession deps id with
  | Throw e => Throw e
  | Ok None => Ok None
  | Ok (Some next) =>
      if bool_decide (s_status next = active) then
        match dep_isRunning deps next with
        | Throw e => Throw e
        | Ok true => Ok None
        | Ok false =>
            match dep_hasDueWork deps next with
            | Throw e => Throw e
            | Ok true => Ok (Some next)
            | Ok false => Ok None
            end
        end
      else Ok None
  end.

(** The [for (;;)] of the drain; [fuel] bounds its turns. *)
(*@ src/src/admission-queue.ts 252-281 drainAdmissionSlot *)
Fixpoint drainLoop (fuel : nat) (deps : AdmissionDeps) (st : AdmissionState)
    : option Session * AdmissionState :=
  match fuel with
  | O => (None, st)
  | S fuel =>
      match pop (dep_slotsHeldBy deps) st with
      | (None, st1) => (None, st1)
      | (Some nextId, st1) =>
          if bool_decide (nextId = "") then (None, st1)
          else match probe deps nextId with
               | Ok (Some candidate) => (Some candidate, st1)
               | Ok None | Throw _ => drainLoop fuel deps (forget nextId st1)
               end
      end
  end.

(** The session [deps.wake] is called with, if any, and the state at the call.
    Each turn removes an entry, so one turn more than the queue is long is
    enough ([drain_work_conserving]). *)
(*@ src/src/admission-queue.ts 244-297 drainAdmissionSlot *)
Definition drainAdmissionSlot (deps : AdmissionDeps) (st : AdmissionState)
    : option Session * AdmissionState :=
  drainLoop (S (length (aq_queue st))) deps st.

(** The continuation of [deps.wake]: [ok] is what the promise resolved to, and
    a rejection counts as [false]. *)
(*@ src/src/admission-queue.ts 283-295 drainAdmissionSlot *)
Definition wakeSettled (now : time) (id : string) (ok : bool) (st : AdmissionState)
    : AdmissionState :=
  if ok then
    let st1 := set_failCounts (delete id (aq_failCounts st)) st in
    observeWait now id
      (mkAdmission (aq_queue st1) (aq_queued st1) (aq_failCounts st1)
         (aq_firstQueuedAt st1) (aq_fairnessKeyOf st1) (aq_depth st1)
         (S (aq_admitted st1)) (aq_waits st1))
  else recordFailure id st.

(** ** Well-formedness: the list, the set and the gauge agree *)

Record admission_wf (st : AdmissionState) : Prop := {
  awf_nodup : NoDup (aq_queue st);
  awf_set : ∀ id, id ∈ aq_queue st ↔ id ∈ aq_queued st;
  awf_depth : aq_depth st = length (aq_queue st) }.

Lemma set_queue_wf q qd st :
  NoDup q → (∀ id, id ∈ q ↔ id ∈ qd) → admission_wf (set_queue q qd st).
Proof. intros ??. by split. Qed.

(** The other setters leave the three fields alone. *)
Lemma admission_wf_ext st st' :
  aq_queue st' = aq_queue st → aq_queued st' = aq_queued st →
  aq_depth st' = aq_depth st → admission_wf st → admission_wf st'.
Proof. intros Hq Hs Hd [H1 H2 H3]. split; by rewrite ?Hq, ?Hs, ?Hd. Qed.

Create HintDb admission.

Lemma remove_first_perm id q :
  id ∈ q → q ≡ₚ id :: remove_first id q.
Proof.
  intros Hin. unfold remove_first. destruct (list_find (eq id) q) as [[i x]|] eqn:E.
  - apply list_find_Some in E as (Hi & <- & _). by apply delete_Permutation.
  - apply list_find_None in E. rewrite Forall_forall in E. by destruct (E id Hin).
Qed.
Lemma remove_first_id id q : id ∉ q → remove_first id q = q.
Proof.
  intros Hin. unfold remove_first. destruct (list_find (eq id) q) as [[i x]|] eqn:E; [|done].
  apply list_find_Some in E as (Hi & <- & _).
  by apply list_elem_of_lookup_2 in Hi.
Qed.

Lemma append_wf id st st' :
  admission_wf st → id ∉ aq_queued st →
  admission_wf (set_queue (aq_queue st ++ [id]) ({[id]} ∪ aq_queued st) st').
Proof.
  intros [H1 H2 H3] Hid. apply set_queue_wf.
  - apply NoDup_app. repeat split; [done| |apply NoDup_singleton].
    intros x Hx ->%list_elem_of_singleton. by apply Hid, H2.
  - intros x. rewrite elem_of_app, list_elem_of_singleton, H2. set_solver.
Qed.

Lemma enqueueAdmission_wf now id key st :
  admission_wf st → admission_wf (enqueueAdmission now id key st).
Proof.
  intros H. unfold enqueueAdmission. case_bool_decide; [done|]. by apply append_wf.
Qed.
Lemma requeueTail_wf id st : admission_wf st → admission_wf (requeueTail id st).
Proof.
  intros H. unfold requeueTail. case_bool_decide; [done|]. by apply append_wf.
Qed.
Lemma requeueFront_wf id st : admission_wf st → admission_wf (requeueFront id st).
Proof.
  intros [H1 H2 H3]. unfold requeueFront.
  destruct (decide (id ∈ aq_queue st)) as [Hin|Hin].
  - pose proof (remove_first_perm id (aq_queue st) Hin) as Hp.
    apply set_queue_wf; [by rewrite <-Hp|].
    intros x. rewrite <-Hp, H2. apply H2 in Hin. set_solver.
  - rewrite remove_first_id by done. apply set_queue_wf; [by constructor|].
    intros x. rewrite elem_of_cons, H2. set_solver.
Qed.

(** The load of a queued entry, an entry without a bucket counting as unloaded. *)
Definition load (keyOf : string → option string) (slots : string → nat) (id : string) : nat :=
  match keyOf id with None => 0 | Some k => slots k end.

(** Index [i] of [q] is the first entry of least load. *)
Definition least_loaded_first (ld : string → nat) (q : list string) (i : nat) : Prop :=
  ∃ x, q !! i = Some x ∧
    ∀ j y, q !! j = Some y → ld x ≤ ld y ∧ (j < i → ld x < ld y).

Lemma selectLoop_spec keyOf slots pre es at_ best :
  pre ++ es ≠ [] →
  (match best with
   | None => pre = []
   | Some b => ∃ x, pre !! at_ = Some x ∧ load keyOf slots x = b ∧
       ∀ j y, pre !! j = Some y →
         b ≤ load keyOf slots y ∧ (j < at_ → b < load keyOf slots y)
   end) →
  least_loaded_first (load keyOf slots) (pre ++ es)
    (selectLoop keyOf slots es (length pre) at_ best).
Proof.
  revert pre at_ best. induction es as [|e es IH]; intros pre at_ best Hne Hb.
  { rewrite app_nil_r in *. destruct best as [b|]; [|done].
    destruct Hb as (x & Hx & <- & Hall). by exists x. }
  simpl. fold (load keyOf slots e).
  assert (pre ++ e :: es = (pre ++ [e]) ++ es) as Hsplit by (by rewrite <-app_assoc).
  assert (∀ j y, (pre ++ [e]) !! j = Some y →
    (pre !! j = Some y ∧ j < length pre) ∨ (j = length pre ∧ y = e)) as Hsnoc.
  { intros j y [Hj|[Hl Hj]]%lookup_app_Some; [left; split; [done|by apply lookup_lt_Some in Hj]|].
    apply list_lookup_singleton_Some in Hj as [? ->]. right. split; [lia|done]. }
  assert ((pre ++ [e]) !! length pre = Some e) as Hlast.
  { by rewrite lookup_app_r, Nat.sub_diag by lia. }
  replace (S (length pre)) with (length (pre ++ [e])) by (rewrite length_app; simpl; lia).
  destruct (match best with Some b => load keyOf slots e <? b | None => true end) eqn:Hlt.
  - assert (∀ j y, pre !! j = Some y → load keyOf slots e < load keyOf slots y) as Hless.
    { intros j y Hj. destruct best as [b|]; [|by subst pre].
      destruct Hb as (x & Hx & <- & Hall). apply Nat.ltb_lt in Hlt.
      destruct (Hall j y Hj). lia. }
    destruct (load keyOf slots e =? 0) eqn:H0.
    + apply Nat.eqb_eq in H0. exists e. split.
      { rewrite lookup_app_r, Nat.sub_diag by lia. done. }
      intros j y Hj. split; [lia|]. intros Hjl.
      rewrite lookup_app_l in Hj by done. by eapply Hless.
    + rewrite Hsplit in *. apply IH; [done|].
      exists e. split; [done|]. split; [done|]. intros j y [[Hj ?]|[-> ->]]%Hsnoc; [|lia].
      specialize (Hless j y Hj). lia.
  - destruct best as [b|]; [|done]. rewrite Hsplit in *. apply IH; [done|].
    destruct Hb as (x & Hx & <- & Hall). apply Nat.ltb_ge in Hlt.
    exists x. split; [by apply lookup_app_l_Some|]. split; [done|].
    apply lookup_lt_Some in Hx. intros j y [[Hj ?]|[-> ->]]%Hsnoc; [by apply Hall|lia].
Qed.

Lemma selectNextIndex_least q keyOf slots :
  q ≠ [] → least_loaded_first (load keyOf slots) q (selectNextIndex q keyOf slots).
Proof. intros Hq. by apply (selectLoop_spec keyOf slots [] q 0 None). Qed.

(** The load the drain sees for each entry of the queue. *)
Definition queue_load (slots : string → nat) (st : AdmissionState) : string → nat :=
  load (λ id, aq_fairnessKeyOf st !! id) slots.

Lemma pop_spec slots st :
  match pop slots st with
  | (None, st1) => st1 = st ∧ aq_queue st = []
  | (Some id, st1) => ∃ i, aq_queue st !! i = Some id ∧
      least_loaded_first (queue_load slots st) (aq_queue st) i ∧
      st1 = set_queue (delete i (aq_queue st)) (aq_queued st ∖ {[id]}) st
  end.
Proof.
  unfold pop. destruct (aq_queue st) as [|x q] eqn:Eq; [done|].
  destruct (selectNextIndex_least (x :: q) (λ id, aq_fairnessKeyOf st !! id) slots)
    as (y & Hy & Hall); [done|].
  rewrite Hy. eexists. split; [exact Hy|]. split; [by exists y|done].
Qed.

Lemma delete_at_wf i id st :
  admission_wf st → aq_queue st !! i = Some id →
  admission_wf (set_queue (delete i (aq_queue st)) (aq_queued st ∖ {[id]}) st).
Proof.
  intros [H1 H2 H3] Hi. pose proof (delete_Permutation _ _ _ Hi) as Hp.
  rewrite Hp in H1. apply NoDup_cons in H1 as [Hn Hnd].
  apply set_queue_wf; [done|]. intros y.
  rewrite elem_of_difference, <-H2, elem_of_singleton.
  remember (delete i (aq_queue st)) as q'. rewrite Hp, elem_of_cons. naive_solver.
Qed.
Lemma pop_wf slots st : admission_wf st → admission_wf (pop slots st).2.
Proof.
  intros H. pose proof (pop_spec slots st) as Hp. destruct (pop slots st) as [[id|] st1].
  - destruct Hp as (i & Hi & _ & ->). by apply delete_at_wf.
  - by destruct Hp as [-> _].
Qed.

Lemma forget_wf id st : admission_wf st → admission_wf (forget id st).
Proof. by apply admission_wf_ext. Qed.
Lemma observeWait_wf now id st : admission_wf st → admission_wf (observeWait now id st).
Proof. unfold observeWait. case_match; [|done]. by apply admission_wf_ext. Qed.
Lemma recordFailure_wf id st : admission_wf st → admission_wf (recordFailure id st).
Proof.
  intros H. unfold recordFailure. repeat case_match.
  - apply requeueFront_wf. by apply (admission_wf_ext st).
  - apply requeueTail_wf. by apply (admission_wf_ext st).
  - by apply forget_wf.
Qed.
Lemma wakeSettled_wf now id ok st : admission_wf st → admission_wf (wakeSettled now id ok st).
Proof.
  intros H. unfold wakeSettled. destruct ok; [|by apply recordFailure_wf].
  apply observeWait_wf. by apply (admission_wf_ext st).
Qed.
Lemma drainLoop_wf fuel deps st :
  admission_wf st → admission_wf (drainLoop fuel deps st).2.
Proof.
  revert st. induction fuel as [|fuel IH]; intros st H; simpl; [done|].
  pose proof (pop_wf (dep_slotsHeldBy deps) st H) as Hp.
  destruct (pop _ st) as [[id|] st1]; simpl in *; [|done].
  case_bool_decide; [done|].
  destruct (probe deps id) as [[c|]|]; simpl; [done|apply IH, forget_wf, Hp..].
Qed.

#[export] Hint Resolve enqueueAdmission_wf requeueTail_wf requeueFront_wf forget_wf
  recordFailure_wf wakeSettled_wf drainLoop_wf : admission.

(** ** What a drain admits *)

(** The drain would let [id] in: its session is active, not running, has work. *)
Definition viable (deps : AdmissionDeps) (id : string) : Prop :=
  ∃ s, probe deps id = Ok (Some s).

(** The outcome a drain from [st] must have. *)
Definition drain_outcome (deps : AdmissionDeps) (st : AdmissionState)
    (r : option Session) (st' : AdmissionState) : Prop :=
  match r with
  | None => aq_queue st' = [] ∧ ∀ id, id ∈ aq_queue st → ¬ viable deps id
  | Some s => ∃ i id,
      aq_queue st !! i = Some id ∧ probe deps id = Ok (Some s) ∧
      (∀ j id', aq_queue st !! j = Some id' → viable deps id' →
        queue_load (dep_slotsHeldBy deps) st id ≤ queue_load (dep_slotsHeldBy deps) st id' ∧
        (j < i → queue_load (dep_slotsHeldBy deps) st id
                 < queue_load (dep_slotsHeldBy deps) st id')) ∧
      sublist (aq_queue st') (aq_queue st) ∧ (id ∉ aq_queue st') ∧
      (∀ id', id' ∈ aq_queue st → viable deps id' → id' ≠ id → id' ∈ aq_queue st')
  end.

Lemma queue_load_forget slots st x y :
  x ≠ y → queue_load slots (forget x st) y = queue_load slots st y.
Proof. intros H. unfold queue_load, load. simpl. by rewrite lookup_delete_ne. Qed.

Lemma elem_of_delete_at {A} (q : list A) i x y :
  q !! i = Some x → NoDup q → y ∈ delete i q ↔ y ∈ q ∧ y ≠ x.
Proof.
  intros Hi Hnd. pose proof (delete_Permutation _ _ _ Hi) as Hp.
  rewrite Hp in Hnd. apply NoDup_cons in Hnd as [Hn _].
  remember (delete i q) as q'. rewrite Hp, elem_of_cons. naive_solver.
Qed.

(** Positions of a list after [delete i]. *)
Definition skip (i j : nat) : nat := if j <? i then j else S j.
Lemma lookup_delete_skip {A} (q : list A) i j : delete i q !! j = q !! skip i j.
Proof.
  unfold skip. destruct (j <? i) eqn:E.
  - apply Nat.ltb_lt in E. by rewrite list_lookup_delete_lt.
  - apply Nat.ltb_ge in E. by rewrite list_lookup_delete_ge.
Qed.
Lemma skip_surj i j : j ≠ i → ∃ k, j = skip i k.
Proof.
  intros H. destruct (decide (j < i)).
  - exists j. unfold skip. destruct (Nat.ltb_spec j i); lia.
  - exists (pred j). unfold skip. destruct (Nat.ltb_spec (pred j) i); lia.
Qed.
Lemma skip_lt i j k : skip i j < skip i k → j < k.
Proof. unfold skip. destruct (Nat.ltb_spec j i), (Nat.ltb_spec k i); lia. Qed.

(** One skipped entry: what holds of the drain of the rest holds of the whole. *)
Lemma drain_outcome_skip deps st i x r st' :
  admission_wf st → aq_queue st !! i = Some x → ¬ viable deps x →
  drain_outcome deps (forget x (set_queue (delete i (aq_queue st))
    (aq_queued st ∖ {[x]}) st)) r st' →
  drain_outcome deps st r st'.
Proof.
  intros Hwf Hi Hx. pose proof (awf_nodup _ Hwf) as Hnd.
  set (st1 := set_queue _ _ st).
  assert (∀ y, viable deps y → x ≠ y) as Hne by (intros y Hy ->; done).
  assert (∀ y, viable deps y → y ∈ aq_queue st → y ∈ delete i (aq_queue st)) as Hel.
  { intros y Hy Hin. apply (elem_of_delete_at _ _ x); [done..|].
    split; [done|]. symmetry. by apply Hne. }
  assert (∀ y, viable deps y → queue_load (dep_slotsHeldBy deps) (forget x st1) y =
    queue_load (dep_slotsHeldBy deps) st y) as Hload.
  { intros y Hy. by rewrite queue_load_forget by (by apply Hne). }
  destruct r as [s|]; simpl.
  - intros (j & id & Hj & Hp & Hmin & Hsub & Hnot & Hkeep).
    rewrite lookup_delete_skip in Hj. rewrite Hload in Hmin by (by exists s).
    exists (skip i j), id. split; [done|]. split; [done|]. split; [|split; [|split]].
    + intros k id' Hk Hv. destruct (decide (k = i)) as [->|[k' ->]%(skip_surj i)].
      { rewrite Hi in Hk. simplify_eq. by destruct (Hx Hv). }
      rewrite <-lookup_delete_skip in Hk. destruct (Hmin k' id' Hk Hv) as [H1 H2].
      rewrite Hload in H1, H2 by done. split; [done|]. intros Hlt%skip_lt. auto.
    + etrans; [exact Hsub|]. apply sublist_delete.
    + done.
    + intros id' Hin Hv Hne'. apply Hkeep; auto.
  - intros [Hq Hall]. split; [done|]. intros id Hin Hv. by apply (Hall id (Hel id Hv Hin)).
Qed.

Lemma drainLoop_outcome fuel deps st :
  length (aq_queue st) < fuel → admission_wf st → "" ∉ aq_queue st →
  drain_outcome deps st (drainLoop fuel deps st).1 (drainLoop fuel deps st).2.
Proof.
  revert st. induction fuel as [|fuel IH]; intros st Hlen Hwf Hem; [lia|]. simpl.
  pose proof (pop_spec (dep_slotsHeldBy deps) st) as Hp.
  pose proof (pop_wf (dep_slotsHeldBy deps) st Hwf) as Hwf1.
  destruct (pop _ st) as [[id|] st1]; simpl in *.
  2: { destruct Hp as [-> Hq]. split; [done|]. rewrite Hq. set_solver. }
  destruct Hp as (i & Hi & Hleast & ->).
  pose proof (list_elem_of_lookup_2 _ _ _ Hi) as Hin.
  case_bool_decide as Hid; [by subst|].
  assert ((∀ s, probe deps id ≠ Ok (Some s)) →
    drain_outcome deps st
      (drainLoop fuel deps (forget id (set_queue (delete i (aq_queue st))
         (aq_queued st ∖ {[id]}) st))).1
      (drainLoop fuel deps (forget id (set_queue (delete i (aq_queue st))
         (aq_queued st ∖ {[id]}) st))).2) as Hskip.
  { intros Hns. apply (drain_outcome_skip _ _ i id); [done..| |].
    - intros [s Hs]. by apply (Hns s).
    - apply IH; simpl; [|by apply forget_wf|].
      + rewrite length_delete by eauto. apply lookup_lt_Some in Hi. lia.
      + rewrite (elem_of_delete_at _ i id); [by intros [? _]|done|by apply awf_nodup]. }
  destruct (probe deps id) as [[s|]|] eqn:Ep; [|by apply Hskip..].
  simpl. destruct Hleast as (x & Hx & Hall). simplify_eq.
  exists i, id. split; [done|]. split; [done|]. split; [|split; [|split]].
  - intros j id' Hj _. by apply (Hall j id').
  - apply sublist_delete.
  - intros Hd. apply (elem_of_delete_at _ i id) in Hd as [_ Hd]; [done|done|by apply awf_nodup].
  - intros id' Hin' _ Hne. apply (elem_of_delete_at _ i id); [done|by apply awf_nodup|done].
Qed.

(** ** Properties *)

(** C34: [drainAdmissionSlot] hands a freed slot over fairly and never wastes
    it.  When it wakes a session, that session was queued and viable, no viable
    entry of the queue belongs to a less loaded bucket, every viable entry ahead
    of it belongs to a strictly more loaded one (so equal loads are served in
    FIFO order), and every other viable entry stays queued.  When it wakes
    nobody, the queue is empty afterwards and held no viable entry. *)
Theorem drain_fair_and_work_conserving deps st :
  admission_wf st → "" ∉ aq_queue st →
  drain_outcome deps st (drainAdmissionSlot deps st).1 (drainAdmissionSlot deps st).2.
Proof. intros Hwf Hem. unfold drainAdmissionSlot. apply drainLoop_outcome; auto. Qed.

(** One operation of the module, as its callers interleave them. *)
Inductive admission_step : relation AdmissionState :=
| step_enqueue st now id key : admission_step st (enqueueAdmission now id key st)
| step_drain st deps : admission_step st (drainAdmissionSlot deps st).2
| step_settled st now id ok : admission_step st (wakeSettled now id ok st)
| step_clear st : admission_step st (clearAdmissionQueue st).

(** whatever the interleaving of enqueues, drains and settled wakes, no
    session is queued twice, the dedupe set is exactly the queued sessions and
    the depth gauge is the queue length. *)
Theorem admission_always_wf st :
  rtc admission_step emptyAdmission st →
  NoDup (aq_queue st) ∧ (∀ id, id ∈ aq_queue st ↔ id ∈ aq_queued st) ∧
  aq_depth st = admissionQueueSize st.
Proof.
  intros Hr. assert (admission_wf st) as [H1 H2 H3]; [|done].
  revert Hr. assert (admission_wf emptyAdmission) as H0.
  { split; [apply NoDup_nil_2| |done]. set_solver. }
  intros Hr. eapply (rtc_invariant _ admission_wf); [|exact Hr|exact H0].
  intros x y Hs H. destruct Hs; [auto with admission|by apply drainLoop_wf|..].
  - auto with admission.
  - split; [apply NoDup_nil_2|set_solver|done].
Qed.

(** A concrete queue: Ada holds a slot and has two entries in front of Bob's;
    the middle one is stale. *)
Definition sample_deps : AdmissionDeps := mkDeps
  (λ id, if bool_decide (id = "stale") then Ok None
         else Ok (Some (plain_session id "ag" None None None None)))
  (λ _, Ok false) (λ _, Ok true)
  (λ key, if bool_decide (key = "user:ada") then 1 else 0).
Definition sample_queue : AdmissionState :=
  enqueueAdmission 3 "bob1" "user:bob" (enqueueAdmission 2 "stale" "user:cy"
    (enqueueAdmission 1 "ada1" "user:ada" emptyAdmission)).

Lemma sample_queue_reachable : rtc admission_step emptyAdmission sample_queue.
Proof.
  unfold sample_queue. repeat (eapply rtc_r; [|apply step_enqueue]). reflexivity.
Qed.

Lemma sample_queue_wf : admission_wf sample_queue.
Proof. repeat apply enqueueAdmission_wf. split; [apply NoDup_nil_2|set_solver|done]. Qed.

Lemma drain_fair_witness :
  option_map s_id (drainAdmissionSlot sample_deps sample_queue).1 = Some "bob1" ∧
  drain_outcome sample_deps sample_queue (drainAdmissionSlot sample_deps sample_queue).1
    (drainAdmissionSlot sample_deps sample_queue).2.
Proof.
  split; [vm_compute; reflexivity|].
  apply (drain_fair_and_work_conserving sample_deps sample_queue sample_queue_wf).
  by apply (bool_decide_unpack _).
Defined.

Lemma admission_always_wf_witness :
  aq_queue sample_queue = ["ada1"; "stale"; "bob1"] ∧ NoDup (aq_queue sample_queue).
Proof.
  split; [vm_compute; reflexivity|].
  apply (admission_always_wf sample_queue sample_queue_reachable).
Defined.
