(* ===== verification/CircuitBreaker.v ===== *)
(** * The startup circuit breaker (src/circuit-breaker.ts)

    The state file, its reading, and the delay a start waits. *)
From S2P Require Import Prelude Types.

Local Open Scope Z_scope.

(*@ src/src/circuit-breaker.ts 8-8 RESET_WINDOW_MS *)
Definition RESET_WINDOW_MS : Z := 60 * 60 * 1000.
(*@ src/src/circuit-breaker.ts 9-11 BACKOFF_SCHEDULE_S *)
Definition BACKOFF_SCHEDULE_S : list Z := [0; 0; 10; 30; 120; 300; 900].

(** [timestamp] is [None] when [new Date(timestamp)] is an invalid date. *)
(*@ src/src/circuit-breaker.ts 13-16 CircuitBreakerState *)
Record CircuitBreakerState := mkCB { cb_attempt : Z; cb_timestamp : option time }.

(** What is at [CB_PATH]: no file, one that is not JSON (or is the JSON
    [null]), or a state. *)
Inductive CBFile := CBAbsent | CBCorrupt | CBState (st : CircuitBreakerState).

(*@ src/src/circuit-breaker.ts 18-25 read *)
Definition read (f : CBFile) : option CircuitBreakerState :=
  match f with CBAbsent | CBCorrupt => None | CBState st => Some st end.

(*@ src/src/circuit-breaker.ts 27-32 write *)
Definition write (st : CircuitBreakerState) : CBFile := CBState st.

(** JavaScript array indexing: [undefined] out of range. *)
Definition js_index {A} (l : list A) (i : Z) : option A :=
  if i <? 0 then None else l !! Z.to_nat i.

(*@ src/src/circuit-breaker.ts 34-37 getDelay *)
Definition getDelay (attempt : Z) : option Z :=
  js_index BACKOFF_SCHEDULE_S
    (Z.min (attempt - 1) (Z.of_nat (length BACKOFF_SCHEDULE_S) - 1)).

(*@ src/src/circuit-breaker.ts 39-46 resetCircuitBreaker *)
Definition resetCircuitBreaker (f : CBFile) : CBFile := CBAbsent.

(*@ src/src/circuit-breaker.ts 52-71 enforceStartupBackoff *)
Definition nextAttempt (now : time) (prev : option CircuitBreakerState) : Z :=
  match prev with
  | None => 1
  | Some p =>
      match cb_timestamp p with
      | None => 1 (* NaN < RESET_WINDOW_MS is false *)
      | Some ts => if now - ts <? RESET_WINDOW_MS then cb_attempt p + 1 else 1
      end
  end.

(** The file written and the seconds slept before the start goes on. *)
(*@ src/src/circuit-breaker.ts 48-86 enforceStartupBackoff *)
Definition enforceStartupBackoff (now : time) (f : CBFile) : CBFile * Z :=
  let attempt := nextAttempt now (read f) in
  let f' := write (mkCB attempt (Some now)) in
  match getDelay attempt with
  | Some delaySec => if 0 <? delaySec then (f', delaySec) else (f', 0)
  | None => (f', 0)
  end.

(** A run of starts with no clean shutdown between them: the delay of each. *)
Fixpoint crash_loop (starts : list time) (f : CBFile) : list Z :=
  match starts with
  | [] => []
  | now :: rest =>
      let '(f', d) := enforceStartupBackoff now f in d :: crash_loop rest f'
  end.

(** Each start comes less than the reset window after the one before. *)
Fixpoint within_window (prev : time) (starts : list time) : Prop :=
  match starts with
  | [] => True
  | now :: rest => now - prev < RESET_WINDOW_MS ∧ within_window now rest
  end.

Definition scheduled (n : nat) : Z :=
  default 900 (BACKOFF_SCHEDULE_S !! n).

Lemma getDelay_scheduled n : getDelay (Z.of_nat n + 1) = Some (scheduled n).
Proof.
  unfold getDelay, js_index, scheduled.
  destruct (decide (n < 7)%nat) as [H|H].
  - do 7 (destruct n as [|n]; [reflexivity|]). lia.
  - replace (Z.min _ _) with 6 by (simpl; lia). simpl.
    do 7 (destruct n as [|n]; [lia|]). done.
Qed.
Lemma scheduled_bounds n : 0 ≤ scheduled n ≤ 900.
Proof. do 7 (destruct n as [|n]; [by unfold scheduled; simpl; lia|]). done. Qed.
Lemma scheduled_S n : scheduled n ≤ scheduled (S n).
Proof. do 7 (destruct n as [|n]; [by unfold scheduled; simpl; lia|]). done. Qed.

Lemma startup_delay now f n :
  nextAttempt now (read f) = Z.of_nat n + 1 →
  enforceStartupBackoff now f = (CBState (mkCB (Z.of_nat n + 1) (Some now)), scheduled n).
Proof.
  intros H. unfold enforceStartupBackoff. rewrite H, getDelay_scheduled.
  pose proof (scheduled_bounds n). destruct (0 <? scheduled n) eqn:E; [done|].
  apply Z.ltb_ge in E. unfold write. f_equal. lia.
Qed.

Lemma crash_loop_from n prev starts :
  within_window prev starts →
  crash_loop starts (CBState (mkCB (Z.of_nat n) (Some prev)))
  = map scheduled (seq n (length starts)).
Proof.
  revert n prev. induction starts as [|now rest IH]; intros n prev; [done|].
  intros [Hw Hrest]. cbn [crash_loop]. rewrite (startup_delay _ _ n).
  2: { cbn. by rewrite (proj2 (Z.ltb_lt _ _) Hw). }
  cbn. f_equal. replace (Z.of_nat n + 1) with (Z.of_nat (S n)) by lia. by apply IH.
Qed.

(** a crash loop backs off along the schedule.  When every start follows
    the previous one within the reset window and no state was left, or only an
    unreadable file, the n-th start waits the n-th entry of the schedule and every later one
    the last entry, whatever the times of the starts. *)
Theorem crash_loop_schedule first rest f :
  read f = None → within_window first rest →
  crash_loop (first :: rest) f = map scheduled (seq 0 (S (length rest))).
Proof.
  intros Hf Hw. cbn [crash_loop]. rewrite (startup_delay _ _ 0) by (by rewrite Hf).
  cbn. f_equal. by apply (crash_loop_from 1).
Qed.

Lemma crash_loop_schedule_witness :
  crash_loop [0; 1000; 2000; 40000; 3600000; 3700000; 3800000; 3900000; 4000000] CBCorrupt
  = [0; 0; 10; 30; 120; 300; 900; 900; 900].
Proof.
  rewrite (crash_loop_schedule 0
    [1000; 2000; 40000; 3600000; 3700000; 3800000; 3900000; 4000000] CBCorrupt);
    [reflexivity|reflexivity|].
  repeat split; reflexivity.
Defined.

(** a start never waits more than 15 minutes, and it does not wait at all
    after a clean shutdown, after an hour since the last start, or when the
    state cannot be read. *)
Theorem startup_delay_bounds now f :
  0 ≤ (enforceStartupBackoff now f).2 ≤ 900 ∧
  (enforceStartupBackoff now (resetCircuitBreaker f)).2 = 0 ∧
  ((∀ st ts, read f = Some st → cb_timestamp st = Some ts → RESET_WINDOW_MS ≤ now - ts) →
   (enforceStartupBackoff now f).2 = 0).
Proof.
  split; [|split; [done|]].
  - unfold enforceStartupBackoff.
    destruct (getDelay (nextAttempt now (read f))) as [d|] eqn:Ed; [|simpl; lia].
    assert (0 ≤ d ≤ 900).
    { unfold getDelay, js_index in Ed. case_match; [done|].
      apply list_elem_of_lookup_2 in Ed. cbn in Ed.
      repeat (apply elem_of_cons in Ed as [->|Ed]; [lia|]). by apply elem_of_nil in Ed. }
    destruct (0 <? d); simpl; lia.
  - intros H. unfold enforceStartupBackoff.
    assert (nextAttempt now (read f) = 1) as ->; [|done].
    unfold nextAttempt. destruct (read f) as [st|] eqn:Er; [|done].
    destruct (cb_timestamp st) as [ts|] eqn:Et; [|done].
    specialize (H st ts eq_refl Et). by rewrite (proj2 (Z.ltb_ge _ _) H).
Qed.
