(* ===== verification/ContainerSlots.v ===== *)
(** * Container slots (src/container-runner.ts)

    The registry of running containers, the in-flight wakes, the global cap,
    and the hand-off of a freed slot to the admission queue.  What a spawn does
    between [spawnContainer]'s call and its return (reading the group, building
    the docker command, starting the process) is the environment's: it may reach
    [registerContainer] or not, and its promise may settle either way. *)
From S2P Require Import Prelude Types AdmissionQueue.

Local Open Scope string_scope.
Local Open Scope nat_scope.
Local Open Scope list_scope.

(*@ src/src/container-runner.ts 89-104 activeContainers *)
Record Entry := mkEntry {
  e_agentGroupId : string;
  e_spawnedAt : time;
  e_fairnessKey : string }.

(** The closure of one spawned process: its session, its start and its
    [slotHandedOff] flag. *)
(*@ src/src/container-runner.ts 477-484 slotHandedOff *)
Record Handle := mkHandle {
  h_session : Session;
  h_spawnedAt : time;
  h_handedOff : bool }.

(** [cs_waits]: the promises the drains wait on, with the session woken;
    [None] while the spawn it joined is in flight, [Some ok] once resolved and
    its continuation is due. *)
(*@ src/src/container-runner.ts 130-161 wakePromises *)
Record Slots := mkSlots {
  cs_active : gmap string Entry;
  cs_inflight : gset string;
  cs_killed : gset string;
  cs_drainDisabled : bool;
  cs_handles : list Handle;
  cs_waits : list (string * option bool);
  cs_admission : AdmissionState;
  (** the gauge [containerSlotsInUse] and the counter [wakeRejectedTotal] *)
  cs_inUse : nat;
  cs_rejected : nat }.

Definition emptySlots : Slots :=
  mkSlots ∅ ∅ ∅ false [] [] emptyAdmission 0 0.

Definition with_active a st := mkSlots a (cs_inflight st) (cs_killed st)
  (cs_drainDisabled st) (cs_handles st) (cs_waits st) (cs_admission st)
  (size a) (cs_rejected st).
Definition with_inflight i st := mkSlots (cs_active st) i (cs_killed st)
  (cs_drainDisabled st) (cs_handles st) (cs_waits st) (cs_admission st)
  (cs_inUse st) (cs_rejected st).
Definition with_killed k st := mkSlots (cs_active st) (cs_inflight st) k
  (cs_drainDisabled st) (cs_handles st) (cs_waits st) (cs_admission st)
  (cs_inUse st) (cs_rejected st).
Definition with_drainDisabled b st := mkSlots (cs_active st) (cs_inflight st)
  (cs_killed st) b (cs_handles st) (cs_waits st) (cs_admission st)
  (cs_inUse st) (cs_rejected st).
Definition with_handles h st := mkSlots (cs_active st) (cs_inflight st) (cs_killed st)
  (cs_drainDisabled st) h (cs_waits st) (cs_admission st) (cs_inUse st) (cs_rejected st).
Definition with_waits w st := mkSlots (cs_active st) (cs_inflight st) (cs_killed st)
  (cs_drainDisabled st) (cs_handles st) w (cs_admission st) (cs_inUse st) (cs_rejected st).
Definition with_admission a st := mkSlots (cs_active st) (cs_inflight st)
  (cs_killed st) (cs_drainDisabled st) (cs_handles st) (cs_waits st) a
  (cs_inUse st) (cs_rejected st).
Definition reject_wake st := mkSlots (cs_active st) (cs_inflight st)
  (cs_killed st) (cs_drainDisabled st) (cs_handles st) (cs_waits st)
  (cs_admission st) (cs_inUse st) (S (cs_rejected st)).

(*@ src/src/container-runner.ts 203-226 registerContainer *)
Definition registerContainer (sessionId : string) (e : Entry) (st : Slots) : Slots :=
  with_active (<[sessionId := e]> (cs_active st)) st.

(** The boolean says whether a lifetime was observed. *)
(*@ src/src/container-runner.ts 228-250 releaseContainer *)
Definition releaseContainer (sessionId : string) (st : Slots) : bool * Slots :=
  match cs_active st !! sessionId with
  | None => (false, st)
  | Some _ => (true, with_active (delete sessionId (cs_active st)) st)
  end.

(*@ src/src/container-runner.ts 252-266 countSlotsHeldBy *)
Definition countSlotsHeldBy (entries : list Entry) (key : string) : nat :=
  length (List.filter (λ e, bool_decide (e_fairnessKey e = key)) entries).

(*@ src/src/container-runner.ts 268-278 slotsHeldBy *)
Definition slotsHeldBy (st : Slots) (key : string) : nat :=
  countSlotsHeldBy (map snd (map_to_list (cs_active st))) key.

(*@ src/src/container-runner.ts 280-282 isContainerRunning *)
Definition isContainerRunning (st : Slots) (sessionId : string) : bool :=
  bool_decide (is_Some (cs_active st !! sessionId)).

(*@ src/src/container-runner.ts 320-328 shouldAdmitWake *)
Definition shouldAdmitWake (activeCount inflightCount cap : nat) : bool :=
  activeCount + inflightCount <? cap.

(** What [wakeContainer] returns: a promise already resolved, or the promise of
    the session's spawn. *)
Inductive WakeResult := WakeNow (ok : bool) | WakeJoins.

(*@ src/src/container-runner.ts 330-395 wakeContainer *)
Definition wakeContainer (cap : nat) (now : time) (s : Session) (st : Slots)
    : WakeResult * Slots :=
  if bool_decide (is_Some (cs_active st !! s_id s)) then (WakeNow true, st)
  else if bool_decide (s_id s ∈ cs_inflight st) then (WakeJoins, st)
  else if shouldAdmitWake (size (cs_active st)) (size (cs_inflight st)) cap
  then (WakeJoins, with_inflight ({[s_id s]} ∪ cs_inflight st) st)
  else (WakeNow false,
        with_admission
          (enqueueAdmission now (s_id s) (sessionFairnessKey s) (cs_admission st))
          (reject_wake st)).

(** The central database and the session directories, as the drain reads them. *)
Record DbProbes := mkProbes {
  db_getSession : string → outcome unit (option Session);
  db_hasDueWork : Session → outcome unit bool }.

(*@ src/src/container-runner.ts 110-128 admissionDeps *)
Definition admissionDeps (db : DbProbes) (st : Slots) : AdmissionDeps := mkDeps
  (db_getSession db)
  (λ s, Ok (isContainerRunning st (s_id s)))
  (db_hasDueWork db)
  (slotsHeldBy st).

(** [drainAdmissionSlot(admissionDeps)], with the wake it starts. *)
Definition drain (cap : nat) (now : time) (db : DbProbes) (st : Slots) : Slots :=
  match drainAdmissionSlot (admissionDeps db st) (cs_admission st) with
  | (None, a) => with_admission a st
  | (Some s, a) =>
      let '(w, st1) := wakeContainer cap now s (with_admission a st) in
      with_waits (cs_waits st1 ++
        [(s_id s, match w with WakeNow ok => Some ok | WakeJoins => None end)]) st1
  end.

(*@ src/src/container-runner.ts 138-143 MIN_HEALTHY_LIFETIME_MS *)
Definition MIN_HEALTHY_LIFETIME_MS : Z := 10000.

Inductive ExitOutcome := Idle | Crash | Killed.
#[export] Instance ExitOutcome_eq : EqDecision ExitOutcome.
Proof. solve_decision. Defined.

(** [i] is the process whose handler runs. *)
(*@ src/src/container-runner.ts 485-491 handOffSlot *)
Definition handOffSlot (cap : nat) (now : time) (db : DbProbes) (i : nat)
    (o : ExitOutcome) (st : Slots) : Slots :=
  match cs_handles st !! i with
  | None => st
  | Some h =>
      if h_handedOff h || cs_drainDisabled st then st
      else
        let st1 := with_handles
          (<[i := mkHandle (h_session h) (h_spawnedAt h) true]> (cs_handles st)) st in
        if bool_decide (o = Idle) || (MIN_HEALTHY_LIFETIME_MS <=? now - h_spawnedAt h)%Z
        then drain cap now db st1
        else st1
  end.

(** A spawn that reaches the process start: the slot is taken and the closure of
    the process exists from here on. *)
(*@ src/src/container-runner.ts 466-492 spawnContainer *)
Definition spawnRegister (now : time) (s : Session) (st : Slots) : Slots :=
  let st1 := registerContainer (s_id s)
    (mkEntry (s_agent_group_id s) now (sessionFairnessKey s)) st in
  with_handles (cs_handles st1 ++ [mkHandle s now false]) st1.

(** The promise of a spawn settles: it leaves [wakePromises], and what waits on
    it is resolved. *)
(*@ src/src/container-runner.ts 382-392 wakePromises *)
Definition spawnSettle (id : string) (ok : bool) (st : Slots) : Slots :=
  with_inflight (cs_inflight st ∖ {[id]})
    (with_waits (map (λ w, if bool_decide (w = (id, None)) then (id, Some ok) else w)
                   (cs_waits st)) st).

(*@ src/src/container-runner.ts 509-522 spawnContainer *)
Definition onClose (cap : nat) (now : time) (db : DbProbes) (i : nat) (code : Z)
    (st : Slots) : Slots :=
  match cs_handles st !! i with
  | None => st
  | Some h =>
      let id := s_id (h_session h) in
      let o := if bool_decide (id ∈ cs_killed st) then Killed
               else if (code =? 0)%Z then Idle else Crash in
      let st1 := with_killed (cs_killed st ∖ {[id]}) st in
      let st2 := (releaseContainer id st1).2 in
      handOffSlot cap now db i o st2
  end.

(*@ src/src/container-runner.ts 524-534 spawnContainer *)
Definition onError (cap : nat) (now : time) (db : DbProbes) (i : nat) (st : Slots)
    : Slots :=
  match cs_handles st !! i with
  | None => st
  | Some h =>
      let id := s_id (h_session h) in
      let st1 := with_killed (cs_killed st ∖ {[id]}) st in
      let st2 := (releaseContainer id st1).2 in
      handOffSlot cap now db i Crash st2
  end.

(*@ src/src/container-runner.ts 539-553 killContainer *)
Definition killContainer (id : string) (st : Slots) : Slots :=
  match cs_active st !! id with
  | None => st
  | Some _ => with_killed ({[id]} ∪ cs_killed st) st
  end.

(*@ src/src/container-runner.ts 555-585 stopAllContainers *)
Definition stopAllContainers (st : Slots) : Slots :=
  with_killed (dom (cs_active st) ∪ cs_killed st) (with_drainDisabled true st).

(** The continuation of the [k]-th promise a drain waits on. *)
(*@ src/src/admission-queue.ts 281-295 drainAdmissionSlot *)
Definition drainContinue (now : time) (k : nat) (st : Slots) : Slots :=
  match cs_waits st !! k with
  | Some (id, Some ok) =>
      with_admission (wakeSettled now id ok (cs_admission st))
        (with_waits (delete k (cs_waits st)) st)
  | _ => st
  end.

(** Every event of the host process, in any order. *)
Inductive slots_step (cap : nat) : relation Slots :=
| slots_wake st now s : slots_step cap st (wakeContainer cap now s st).2
| slots_register st now s :
    s_id s ∈ cs_inflight st → slots_step cap st (spawnRegister now s st)
| slots_settle st id ok : slots_step cap st (spawnSettle id ok st)
| slots_close st now db i code : slots_step cap st (onClose cap now db i code st)
| slots_error st now db i : slots_step cap st (onError cap now db i st)
| slots_kill st id : slots_step cap st (killContainer id st)
| slots_stopAll st : slots_step cap st (stopAllContainers st)
| slots_continue st now k : slots_step cap st (drainContinue now k st).

(** ** The invariant *)

(** Running or about to run. *)
Definition occupied (st : Slots) : gset string := dom (cs_active st) ∪ cs_inflight st.

Record slots_inv (cap : nat) (st : Slots) : Prop := {
  si_cap : size (occupied st) ≤ cap;
  si_gauge : cs_inUse st = size (cs_active st);
  si_admission : admission_wf (cs_admission st);
  si_waits : ∀ id, (id, None) ∈ cs_waits st → id ∈ cs_inflight st }.

Lemma occupied_le st : size (occupied st) ≤ size (cs_active st) + size (cs_inflight st).
Proof.
  unfold occupied. rewrite <-(size_dom (cs_active st)).
  rewrite size_union_alt. apply Nat.add_le_mono_l, subseteq_size. set_solver.
Qed.

Lemma occupied_isolated st id :
  size ({[id]} ∪ occupied st) ≤ S (size (occupied st)).
Proof.
  rewrite size_union_alt, size_singleton.
  assert (size (occupied st ∖ {[id]}) ≤ size (occupied st)); [|lia].
  apply subseteq_size. set_solver.
Qed.

(** An update that grows none of the fields the invariant bounds. *)
Lemma slots_inv_mono cap st st' :
  occupied st' ⊆ occupied st → cs_inUse st' = size (cs_active st') →
  admission_wf (cs_admission st') →
  (∀ id, (id, None) ∈ cs_waits st' → id ∈ cs_inflight st') →
  slots_inv cap st → slots_inv cap st'.
Proof.
  intros Ho Hg Ha Hw [H1 _ _ _]. split; [|done..].
  pose proof (subseteq_size _ _ Ho). lia.
Qed.

Lemma wakeContainer_cases cap now s st :
  match wakeContainer cap now s st with
  | (WakeNow true, st') => st' = st ∧ is_Some (cs_active st !! s_id s)
  | (WakeNow false, st') =>
      cap ≤ size (cs_active st) + size (cs_inflight st) ∧
      st' = with_admission (enqueueAdmission now (s_id s) (sessionFairnessKey s)
              (cs_admission st)) (reject_wake st)
  | (WakeJoins, st') =>
      (st' = st ∧ s_id s ∈ cs_inflight st) ∨
      (size (cs_active st) + size (cs_inflight st) < cap ∧
       st' = with_inflight ({[s_id s]} ∪ cs_inflight st) st)
  end.
Proof.
  unfold wakeContainer, shouldAdmitWake. case_bool_decide; [done|].
  case_bool_decide; [by left|].
  destruct (Nat.ltb_spec (size (cs_active st) + size (cs_inflight st)) cap).
  - by right.
  - split; [lia|done].
Qed.

Lemma wakeContainer_inv cap now s st :
  slots_inv cap st → slots_inv cap (wakeContainer cap now s st).2.
Proof.
  intros H. pose proof (wakeContainer_cases cap now s st) as Hc.
  destruct (wakeContainer cap now s st) as [[[]|] st']; simpl.
  - by destruct Hc as [-> _].
  - destruct Hc as [_ ->]. destruct H as [H1 H2 H3 H4].
    apply (slots_inv_mono cap st); [done|done| |done|by split].
    by apply enqueueAdmission_wf.
  - destruct Hc as [[-> _]|[Hlt ->]]; [done|]. destruct H as [H1 H2 H3 H4].
    split; [|done|done|].
    + pose proof (occupied_le st). pose proof (occupied_isolated st (s_id s)).
      replace (occupied (with_inflight ({[s_id s]} ∪ cs_inflight st) st))
        with ({[s_id s]} ∪ occupied st); [lia|].
      unfold occupied. simpl. set_solver.
    + simpl. set_solver.
Qed.

Lemma wakeContainer_waits cap now s st :
  cs_waits (wakeContainer cap now s st).2 = cs_waits st.
Proof. unfold wakeContainer. repeat case_match; done. Qed.
Lemma wakeContainer_joins cap now s st st' :
  wakeContainer cap now s st = (WakeJoins, st') → s_id s ∈ cs_inflight st'.
Proof.
  intros Hw. pose proof (wakeContainer_cases cap now s st) as Hc. rewrite Hw in Hc.
  destruct Hc as [[-> ?]|[_ ->]]; [done|]. simpl. set_solver.
Qed.

Lemma drain_inv cap now db st : slots_inv cap st → slots_inv cap (drain cap now db st).
Proof.
  intros H. unfold drain, drainAdmissionSlot.
  pose proof (drainLoop_wf (S (length (aq_queue (cs_admission st))))
    (admissionDeps db st) (cs_admission st) (si_admission _ _ H)) as Ha.
  destruct (drainLoop _ _ _) as [[s|] a]; simpl in Ha.
  2: { destruct H as [H1 H2 H3 H4]. by split. }
  assert (slots_inv cap (with_admission a st)) as H' by (destruct H; by split).
  pose proof (wakeContainer_inv cap now s _ H') as Hi.
  pose proof (wakeContainer_waits cap now s (with_admission a st)) as Hws.
  destruct (wakeContainer cap now s (with_admission a st)) as [w st1] eqn:Ew.
  cbn [snd] in *. destruct Hi as [H1 H2 H3 H4]. split; [done..|].
  intros id [Hin|Hin]%elem_of_app; [by apply H4|].
  apply list_elem_of_singleton in Hin. destruct w; simplify_eq.
  by apply (wakeContainer_joins _ _ _ _ _ Ew).
Qed.

Lemma releaseContainer_inv cap id st :
  slots_inv cap st → slots_inv cap (releaseContainer id st).2.
Proof.
  intros H. unfold releaseContainer. case_match; [|done].
  destruct (H) as [H1 H2 H3 H4]. apply (slots_inv_mono cap st); [|done..].
  unfold occupied. simpl. rewrite dom_delete_L. set_solver.
Qed.

Lemma handOffSlot_inv cap now db i o st :
  slots_inv cap st → slots_inv cap (handOffSlot cap now db i o st).
Proof.
  intros H. unfold handOffSlot. case_match; [|done]. case_match; [done|].
  assert (∀ h, slots_inv cap (with_handles h st)) as H' by (destruct H; by split).
  case_match; [by apply drain_inv|done].
Qed.

Lemma with_killed_inv cap k st : slots_inv cap st → slots_inv cap (with_killed k st).
Proof. intros []; by split. Qed.

Lemma spawnRegister_inv cap now s st :
  s_id s ∈ cs_inflight st → slots_inv cap st → slots_inv cap (spawnRegister now s st).
Proof.
  intros Hin H. destruct (H) as [H1 H2 H3 H4].
  apply (slots_inv_mono cap st); [|done..].
  unfold occupied. simpl. rewrite dom_insert_L. set_solver.
Qed.

Lemma spawnSettle_inv cap id ok st : slots_inv cap st → slots_inv cap (spawnSettle id ok st).
Proof.
  intros H. pose proof H as [H1 H2 H3 H4].
  apply (slots_inv_mono cap st); [|done|done| |done].
  - unfold occupied. simpl. set_solver.
  - simpl. intros id' Hin. apply list_elem_of_fmap in Hin as ([id0 o] & He & Hin).
    case_bool_decide as Hw; [done|]. injection He as <- <-.
    apply elem_of_difference. split; [by apply H4|].
    rewrite elem_of_singleton. by intros ->.
Qed.

Lemma drainContinue_inv cap now k st :
  slots_inv cap st → slots_inv cap (drainContinue now k st).
Proof.
  intros H. unfold drainContinue. destruct (cs_waits st !! k) as [[id [ok|]]|]; [|done..].
  destruct (H) as [H1 H2 H3 H4]. apply (slots_inv_mono cap st); [done|done| | |done].
  - by apply wakeSettled_wf.
  - simpl. intros id' Hin. apply H4. apply (sublist_subseteq _ _ (sublist_delete _ k) _ Hin).
Qed.

Create HintDb slots.
#[export] Hint Resolve wakeContainer_inv drain_inv releaseContainer_inv handOffSlot_inv
  with_killed_inv spawnRegister_inv spawnSettle_inv drainContinue_inv : slots.

Lemma slots_step_inv cap st st' :
  slots_step cap st st' → slots_inv cap st → slots_inv cap st'.
Proof.
  intros Hs H. destruct Hs; auto with slots.
  - unfold onClose. destruct (cs_handles st !! i); auto with slots.
  - unfold onError. destruct (cs_handles st !! i); auto with slots.
  - unfold killContainer. destruct (cs_active st !! id); auto with slots.
  - by apply with_killed_inv; destruct H; split.
Qed.

Lemma emptySlots_inv cap : slots_inv cap emptySlots.
Proof.
  split; [|done| |].
  - unfold occupied. simpl. rewrite dom_empty_L, union_empty_l_L, size_empty. lia.
  - split; [apply NoDup_nil_2|set_solver|done].
  - simpl. set_solver.
Qed.

(** C33: in every reachable state of the host the containers running or starting
    are at most [MAX_CONCURRENT_CONTAINERS] distinct sessions, the slot gauge
    is the size of the registry, no session is queued for admission twice, and
    every promise a drain still waits on belongs to a wake that is in flight. *)
Theorem slots_within_cap cap st :
  rtc (slots_step cap) emptySlots st →
  size (occupied st) ≤ cap ∧ size (cs_active st) ≤ cap ∧
  cs_inUse st = size (cs_active st) ∧ NoDup (aq_queue (cs_admission st)) ∧
  ∀ id, (id, None) ∈ cs_waits st → id ∈ cs_inflight st.
Proof.
  intros Hr. assert (slots_inv cap st) as [H1 H2 [H3 _ _] H4].
  { eapply (rtc_invariant _ (slots_inv cap)); [|exact Hr|apply emptySlots_inv].
    apply slots_step_inv. }
  repeat split; try done.
  rewrite <-(size_dom (cs_active st)).
  etrans; [|exact H1]. apply subseteq_size. unfold occupied. set_solver.
Qed.

(** A viable entry's session has no running container. *)
Lemma probe_not_running db st id s :
  probe (admissionDeps db st) id = Ok (Some s) → cs_active st !! s_id s = None.
Proof.
  unfold probe, admissionDeps, isContainerRunning. simpl.
  repeat case_match; intros; simplify_eq.
  by match goal with H : bool_decide _ = false |- _ =>
    apply bool_decide_eq_false, eq_None_not_Some in H end.
Qed.

Lemma drain_starts_wake cap now db st :
  slots_inv cap st → "" ∉ aq_queue (cs_admission st) →
  size (cs_active st) + size (cs_inflight st) < cap →
  (∃ id, id ∈ aq_queue (cs_admission st) ∧ viable (admissionDeps db st) id) →
  ∃ id s, id ∈ aq_queue (cs_admission st) ∧ probe (admissionDeps db st) id = Ok (Some s) ∧
    s_id s ∈ cs_inflight (drain cap now db st) ∧
    (s_id s, None) ∈ cs_waits (drain cap now db st).
Proof.
  intros H Hem Hcap (id0 & Hin & Hv). unfold drain.
  pose proof (drainLoop_outcome (S (length (aq_queue (cs_admission st))))
    (admissionDeps db st) (cs_admission st) (Nat.lt_succ_diag_r _)
    (si_admission _ _ H) Hem) as Ho.
  change (drainLoop (S _) (admissionDeps db st) (cs_admission st)) with
    (drainAdmissionSlot (admissionDeps db st) (cs_admission st)) in Ho.
  destruct (drainAdmissionSlot _ _) as [[s|] a]; simpl in Ho.
  2: { destruct Ho as [_ Ho]. by destruct (Ho id0 Hin). }
  destruct Ho as (i & id & Hi & Hp & _). exists id, s.
  split; [by eapply list_elem_of_lookup_2|]. split; [done|].
  pose proof (wakeContainer_cases cap now s (with_admission a st)) as Hc.
  pose proof (wakeContainer_joins cap now s (with_admission a st)) as Hj.
  destruct (wakeContainer _ _ _ _) as [[[]|] st1].
  - destruct Hc as [_ [e He]]. simpl in He. by rewrite (probe_not_running _ _ _ _ Hp) in He.
  - destruct Hc as [Hc _]. simpl in Hc. lia.
  - split; [exact (Hj st1 eq_refl)|]. simpl. set_solver.
Qed.

(** a healthy exit hands its slot on.  When a process whose session holds a
    slot exits with code 0, unless it was killed, the host is shutting down or
    it handed its slot on before, and some queued session is viable once the
    slot is free, then a viable queued session's spawn is in flight after the
    close handler, with the drain waiting on it. *)
Theorem idle_exit_hands_slot_on cap now db i h st :
  rtc (slots_step cap) emptySlots st →
  dom (cs_active st) ## cs_inflight st →
  cs_handles st !! i = Some h → h_handedOff h = false → cs_drainDisabled st = false →
  is_Some (cs_active st !! s_id (h_session h)) → s_id (h_session h) ∉ cs_killed st →
  "" ∉ aq_queue (cs_admission st) →
  let freed := (releaseContainer (s_id (h_session h)) st).2 in
  (∃ id, id ∈ aq_queue (cs_admission st) ∧ viable (admissionDeps db freed) id) →
  ∃ id s, id ∈ aq_queue (cs_admission st) ∧
    probe (admissionDeps db freed) id = Ok (Some s) ∧
    s_id s ∈ cs_inflight (onClose cap now db i 0 st) ∧
    (s_id s, None) ∈ cs_waits (onClose cap now db i 0 st).
Proof.
  intros Hr Hdisj Hh Hoff Hdis [e He] Hk Hem freed Hv.
  assert (slots_inv cap st) as H.
  { eapply (rtc_invariant _ (slots_inv cap)); [|exact Hr|apply emptySlots_inv].
    apply slots_step_inv. }
  unfold onClose. rewrite Hh, bool_decide_eq_false_2 by done. simpl.
  unfold handOffSlot. unfold releaseContainer. simpl. rewrite He. simpl.
  rewrite Hh, Hoff, Hdis. simpl.
  unfold freed, releaseContainer in *. rewrite He in *. simpl in *.
  match goal with |- context [drain cap now db ?x] => set (st2 := x) end.
  assert (slots_inv cap st2) as H2.
  { pose proof (releaseContainer_inv cap (s_id (h_session h)) st H) as H'.
    unfold releaseContainer in H'. rewrite He in H'. destruct H'. by split. }
  apply (drain_starts_wake cap now db st2 H2); [exact Hem| |exact Hv].
  destruct H as [Hcap _ _ _]. revert Hcap. unfold occupied.
  rewrite size_union by done. rewrite size_dom. simpl.
  rewrite map_size_delete, He.
  assert (size (cs_active st) ≠ 0); [|lia].
  rewrite map_size_ne_0_lookup. by exists (s_id (h_session h)), e.
Qed.

(** a session the queue gives up on after a third failed admission is not
    out of the queue when the failure was a capacity rejection:
    [wakeContainer] has put it back before [recordFailure] runs, and what is
    deleted is its fairness bucket, so the next drain counts it as unloaded. *)
Theorem capacity_eviction_keeps_entry cap now now' s st :
  aq_failCounts (cs_admission st) !! s_id s = Some 2 →
  cs_active st !! s_id s = None → s_id s ∉ cs_inflight st →
  cap ≤ size (cs_active st) + size (cs_inflight st) →
  s_id s ∉ aq_queued (cs_admission st) →
  let '(w, st1) := wakeContainer cap now s st in
  let a := wakeSettled now' (s_id s) false (cs_admission st1) in
  w = WakeNow false ∧ s_id s ∈ aq_queue a ∧
  aq_failCounts a !! s_id s = None ∧
  aq_fairnessKeyOf a !! s_id s = None ∧
  ∀ slots, queue_load slots a (s_id s) = 0.
Proof.
  intros Hf Ha Hi Hc Hq. unfold wakeContainer, shouldAdmitWake.
  rewrite Ha, bool_decide_eq_false_2 by (by intros [? ?]).
  rewrite bool_decide_eq_false_2 by done.
  rewrite (proj2 (Nat.ltb_ge _ _) Hc). simpl.
  unfold enqueueAdmission. rewrite bool_decide_eq_false_2 by done.
  unfold recordFailure. simpl. rewrite Hf. simpl.
  split; [done|]. split; [set_solver|].
  assert (delete (s_id s) (set_if_absent (s_id s) (sessionFairnessKey s)
    (aq_fairnessKeyOf (cs_admission st))) !! s_id s = None) as Hd by apply lookup_delete_eq.
  split; [apply lookup_delete_eq|]. split; [done|].
  intros slots. unfold queue_load, load. simpl. by rewrite Hd.
Qed.

(** A concrete run with a cap of one: A runs, B is rejected and queued. *)
Definition sample_probes : DbProbes := mkProbes
  (λ id, Ok (Some (plain_session id "ag" None None None None))) (λ _, Ok true).
Definition sA : Session := plain_session "A" "ag" None None None None.
Definition sB : Session := plain_session "B" "ag" None None None None.
Definition run_A : Slots :=
  spawnSettle "A" true (spawnRegister 5 sA (wakeContainer 1 0 sA emptySlots).2).
Definition run_AB : Slots := (wakeContainer 1 10 sB run_A).2.

Lemma run_AB_reachable : rtc (slots_step 1) emptySlots run_AB.
Proof.
  eapply rtc_r; [|apply slots_wake]. eapply rtc_r; [|apply slots_settle].
  eapply rtc_r; [|apply slots_register; by apply (bool_decide_unpack _)].
  eapply rtc_r; [|apply slots_wake]. reflexivity.
Qed.

Lemma slots_within_cap_witness :
  aq_queue (cs_admission run_AB) = ["B"] ∧ size (occupied run_AB) ≤ 1.
Proof.
  split; [vm_compute; reflexivity|].
  apply (slots_within_cap 1 run_AB run_AB_reachable).
Defined.

Lemma idle_exit_hands_slot_on_witness :
  ∃ id s, id ∈ aq_queue (cs_admission run_AB) ∧
    probe (admissionDeps sample_probes (releaseContainer "A" run_AB).2) id = Ok (Some s) ∧
    s_id s ∈ cs_inflight (onClose 1 20 sample_probes 0 0 run_AB) ∧
    (s_id s, None) ∈ cs_waits (onClose 1 20 sample_probes 0 0 run_AB).
Proof.
  apply (idle_exit_hands_slot_on 1 20 sample_probes 0 (mkHandle sA 5 false) run_AB);
    [exact run_AB_reachable|vm_compute; set_solver|reflexivity..|
     by apply (bool_decide_unpack _)|by apply (bool_decide_unpack _)|
     by apply (bool_decide_unpack _)|].
  exists "B". split; [by apply (bool_decide_unpack _)|]. exists sB. vm_compute. reflexivity.
Defined.

Lemma capacity_eviction_witness :
  let st := with_admission (set_failCounts {["B" := 2]} emptyAdmission) run_A in
  let '(w, st1) := wakeContainer 1 10 sB st in
  "B" ∈ aq_queue (wakeSettled 20 "B" false (cs_admission st1)).
Proof.
  intros st.
  pose proof (capacity_eviction_keeps_entry 1 10 20 sB st eq_refl eq_refl) as H.
  specialize (H ltac:(by apply (bool_decide_unpack _)) ltac:(vm_compute; lia)
    ltac:(by apply (bool_decide_unpack _))).
  destruct (wakeContainer 1 10 sB st) as [w st1]. apply H.
Defined.
