(* ===== verification/SessionDb.v ===== *)
(** * The two databases of a session (src/db/session-db.ts, schema.ts)

    inbound.db is written by the host alone and outbound.db by the container
    (and, in two places, by the host).  Each is a record with one field per
    table; a statement of session-db.ts is a function of the record or a
    program over it.  A text timestamp is kept in the format it was written
    in, because the SQL compares some of them as texts and some through
    [datetime()].  The columns that [migrateDeliveredTable] and
    [migrateMessagesInTable] add are present: the migrations themselves, which
    run before the accesses, are not modelled. *)
From S2P Require Import Prelude JsString Types Central.
From Stdlib Require Import Ascii.

Local Open Scope string_scope.
Local Open Scope Z_scope.
Local Open Scope list_scope.

(** ** Timestamps as texts *)

(** The text of [Date.toISOString()], the text of SQLite's [datetime()], or a
    text the agent supplied. *)
Inductive stext :=
| TIso (ms : time)
| TSql (sec : Z)
| TText (s : string).
#[export] Instance stext_eq : EqDecision stext.
Proof. solve_decision. Defined.

(** SQLite's [datetime('now')], in seconds. *)
Definition sql_now (now : time) : Z := now / 1000.

(** [w] decimal digits of [n], zero-padded. *)
Fixpoint pad (w : nat) (n : Z) (acc : string) : string :=
  match w with
  | O => acc
  | S w' => pad w' (n / 10) (String (ascii_of_nat (Z.to_nat (48 + n mod 10))) acc)
  end.

(** The Gregorian date of a day counted from 1970-01-01. *)
Definition civil_from_days (d : Z) : Z * Z * Z :=
  let z := d + 719468 in
  let era := z / 146097 in
  let doe := z - era * 146097 in
  let yoe := (doe - doe / 1460 + doe / 36524 - doe / 146096) / 365 in
  let doy := doe - (365 * yoe + yoe / 4 - yoe / 100) in
  let mp := (5 * doy + 2) / 153 in
  let dom := doy - (153 * mp + 2) / 5 + 1 in
  let mon := if mp <? 10 then mp + 3 else mp - 9 in
  (yoe + era * 400 + (if mon <=? 2 then 1 else 0), mon, dom).

Definition date_text (sec : Z) (sep : string) : string :=
  let '(y, m, d) := civil_from_days (sec / 86400) in
  let t := sec mod 86400 in
  pad 4 y ("-" +:+ pad 2 m ("-" +:+ pad 2 d (sep +:+
    pad 2 (t / 3600) (":" +:+ pad 2 (t / 60 mod 60) (":" +:+ pad 2 (t mod 60) ""))))).

(** The stored text. *)
Definition text_of (t : stext) : string :=
  match t with
  | TIso ms => date_text (ms / 1000) "T" +:+ "." +:+ pad 3 (ms mod 1000) "Z"
  | TSql sec => date_text sec " "
  | TText s => s
  end.

Definition text_leb (a b : stext) : bool := String.leb (text_of a) (text_of b).
Definition text_ltb (a b : stext) : bool := String.ltb (text_of a) (text_of b).

(** ** inbound.db *)

(** The union of types.ts, and the ['paused'] of scheduling/db.ts. *)
Inductive RowStatus := RPending | RProcessing | RCompleted | RFailed | RPaused.
#[export] Instance RowStatus_eq : EqDecision RowStatus.
Proof. solve_decision. Defined.

(*@ src/src/db/schema.ts 537-574 messages_in *)
Record MessageIn := mkMessageIn {
  mi_id : string;
  mi_seq : Z;
  mi_kind : string;
  mi_timestamp : stext;
  mi_status : RowStatus;
  mi_process_after : option stext;
  mi_recurrence : option string;
  mi_series_id : option string;
  mi_tries : Z;
  mi_trigger : bool;
  mi_platform_id : option string;
  mi_channel_type : option string;
  mi_thread_id : option string;
  mi_content : string;
  mi_source_session_id : option string;
  mi_origin_user_id : option string;
  mi_conversation_thread_id : option string }.
#[export] Instance MessageIn_eq : EqDecision MessageIn.
Proof. solve_decision. Defined.

Definition with_status (st : RowStatus) (r : MessageIn) : MessageIn :=
  mkMessageIn (mi_id r) (mi_seq r) (mi_kind r) (mi_timestamp r) st (mi_process_after r)
    (mi_recurrence r) (mi_series_id r) (mi_tries r) (mi_trigger r) (mi_platform_id r)
    (mi_channel_type r) (mi_thread_id r) (mi_content r) (mi_source_session_id r)
    (mi_origin_user_id r) (mi_conversation_thread_id r).
Definition with_retry (tries : Z) (after : option stext) (r : MessageIn) : MessageIn :=
  mkMessageIn (mi_id r) (mi_seq r) (mi_kind r) (mi_timestamp r) (mi_status r) after
    (mi_recurrence r) (mi_series_id r) tries (mi_trigger r) (mi_platform_id r)
    (mi_channel_type r) (mi_thread_id r) (mi_content r) (mi_source_session_id r)
    (mi_origin_user_id r) (mi_conversation_thread_id r).
Definition with_recurrence (rec : option string) (r : MessageIn) : MessageIn :=
  mkMessageIn (mi_id r) (mi_seq r) (mi_kind r) (mi_timestamp r) (mi_status r)
    (mi_process_after r) rec (mi_series_id r) (mi_tries r) (mi_trigger r) (mi_platform_id r)
    (mi_channel_type r) (mi_thread_id r) (mi_content r) (mi_source_session_id r)
    (mi_origin_user_id r) (mi_conversation_thread_id r).
Definition with_content (c : string) (r : MessageIn) : MessageIn :=
  mkMessageIn (mi_id r) (mi_seq r) (mi_kind r) (mi_timestamp r) (mi_status r)
    (mi_process_after r) (mi_recurrence r) (mi_series_id r) (mi_tries r) (mi_trigger r)
    (mi_platform_id r) (mi_channel_type r) (mi_thread_id r) c (mi_source_session_id r)
    (mi_origin_user_id r) (mi_conversation_thread_id r).

Inductive DeliveredStatus := DDelivered | DFailed.
#[export] Instance DeliveredStatus_eq : EqDecision DeliveredStatus.
Proof. solve_decision. Defined.

(** The times are [datetime()] texts, in seconds. *)
(*@ src/src/db/schema.ts 580-585 delivered *)
Record DeliveredRow := mkDeliveredRow {
  dl_message_out_id : string;
  dl_platform_message_id : option string;
  dl_status : DeliveredStatus;
  dl_delivered_at : Z;
  dl_attempts : Z;
  dl_next_retry_at : option Z }.
#[export] Instance DeliveredRow_eq : EqDecision DeliveredRow.
Proof. solve_decision. Defined.

(*@ src/src/db/session-db.ts 80-87 DestinationRow *)
Record DestinationRow := mkDestinationRow {
  de_name : string;
  de_display_name : option string;
  de_type : TargetType;
  de_channel_type : option string;
  de_platform_id : option string;
  de_agent_group_id : option string }.

(*@ src/src/db/session-db.ts 110-116 RosterSlotRow *)
Record RosterSlotRow := mkRosterSlotRow {
  rs_slot_label : string;
  rs_sends_remaining : option Z;
  rs_expires_at : option stamp }.

(*@ src/src/db/schema.ts 605-610 session_routing *)
Record Routing := mkRouting {
  ro_channel_type : option string;
  ro_platform_id : option string;
  ro_thread_id : option string }.
#[export] Instance Routing_eq : EqDecision Routing.
Proof. solve_decision. Defined.

Record InboundDb := mkInboundDb {
  messages_in : list MessageIn;
  delivered_rows : list DeliveredRow;
  destinations : list DestinationRow;
  session_routing : option Routing;
  roster_slots : list RosterSlotRow }.
Definition emptyInbound : InboundDb := mkInboundDb [] [] [] None [].

Definition set_messages_in (v : list MessageIn) (d : InboundDb) : InboundDb :=
  mkInboundDb v (delivered_rows d) (destinations d) (session_routing d) (roster_slots d).
Definition set_delivered_rows (v : list DeliveredRow) (d : InboundDb) : InboundDb :=
  mkInboundDb (messages_in d) v (destinations d) (session_routing d) (roster_slots d).
Definition set_destinations (v : list DestinationRow) (d : InboundDb) : InboundDb :=
  mkInboundDb (messages_in d) (delivered_rows d) v (session_routing d) (roster_slots d).
Definition set_session_routing (v : option Routing) (d : InboundDb) : InboundDb :=
  mkInboundDb (messages_in d) (delivered_rows d) (destinations d) v (roster_slots d).
Definition set_roster_slots (v : list RosterSlotRow) (d : InboundDb) : InboundDb :=
  mkInboundDb (messages_in d) (delivered_rows d) (destinations d) (session_routing d) v.

(** ** outbound.db *)

(** With the [origin_user_id] column the container adds on open. *)
(*@ src/src/db/schema.ts 632-644 messages_out *)
Record MessageOut := mkMessageOut {
  mo_id : string;
  mo_seq : Z;
  mo_in_reply_to : option string;
  mo_timestamp : stext;
  mo_deliver_after : option stext;
  mo_recurrence : option string;
  mo_kind : string;
  mo_platform_id : option string;
  mo_channel_type : option string;
  mo_thread_id : option string;
  mo_content : string;
  mo_origin_user_id : option string }.
#[export] Instance MessageOut_eq : EqDecision MessageOut.
Proof. solve_decision. Defined.

Inductive AckStatus := AProcessing | ACompleted | AFailed.
#[export] Instance AckStatus_eq : EqDecision AckStatus.
Proof. solve_decision. Defined.

(** [status_changed] is a [datetime()] text, in seconds. *)
(*@ src/src/db/schema.ts 649-653 processing_ack *)
Record AckRow := mkAckRow {
  ak_message_id : string;
  ak_status : AckStatus;
  ak_status_changed : Z }.
#[export] Instance AckRow_eq : EqDecision AckRow.
Proof. solve_decision. Defined.

(*@ src/src/db/session-db.ts 351-355 ContainerState *)
Record ContainerState := mkContainerState {
  cs_current_tool : option string;
  cs_tool_declared_timeout_ms : option Z;
  cs_tool_started_at : option stext }.

Record OutboundDb := mkOutboundDb {
  messages_out : list MessageOut;
  processing_ack : list AckRow;
  container_state : option ContainerState }.
Definition emptyOutbound : OutboundDb := mkOutboundDb [] [] None.

Definition set_messages_out (v : list MessageOut) (d : OutboundDb) : OutboundDb :=
  mkOutboundDb v (processing_ack d) (container_state d).
Definition set_processing_ack (v : list AckRow) (d : OutboundDb) : OutboundDb :=
  mkOutboundDb (messages_out d) v (container_state d).

(** Programs over one of the two. *)
Definition inM (A : Type) : Type := prog InboundDb exn A.
Definition outM (A : Type) : Type := prog OutboundDb exn A.

(** ** Projections the host overwrites *)

(*@ src/src/db/session-db.ts 66-78 upsertSessionRouting *)
Definition upsertSessionRouting (routing : Routing) : inM unit :=
  modify (set_session_routing (Some routing)).

(** The [DELETE] and one [INSERT] per row, [name] being the primary key. *)
(*@ src/src/db/session-db.ts 89-99 replaceDestinations *)
Definition replaceDestinations (entries : list DestinationRow) : inM unit :=
  transaction
    (modify (set_destinations []) ;;
     for_each entries (λ row,
       let* clash := gets (λ d, sql_exists (λ r, bool_decide (de_name r = de_name row))
                                  (destinations d)) in
       if clash : bool then throw (SqliteConstraint "destinations")
       else modify (λ d, set_destinations (destinations d ++ [row]) d))).

(*@ src/src/db/session-db.ts 141-151 replaceRosterSlots *)
Definition replaceRosterSlots (slots : list RosterSlotRow) : inM unit :=
  transaction
    (modify (set_roster_slots []) ;;
     for_each slots (λ row,
       let* clash := gets (λ d, sql_exists (λ r, bool_decide (rs_slot_label r = rs_slot_label row))
                                  (roster_slots d)) in
       if clash : bool then throw (SqliteConstraint "roster_slots")
       else modify (λ d, set_roster_slots (roster_slots d ++ [row]) d))).

(** ** messages_in *)

(** [COALESCE(MAX(seq), 0)] *)
Definition max_seq (seqs : list Z) : Z :=
  match seqs with
  | [] => 0
  | x :: l => fold_left Z.max l x
  end.

(*@ src/src/db/session-db.ts 164-167 nextEvenSeq *)
Definition nextEvenSeq (d : InboundDb) : Z :=
  let maxSeq := max_seq (map mi_seq (messages_in d)) in
  if maxSeq <? 2 then 2 else maxSeq + 2 - Z.rem maxSeq 2.

(** [INSERT INTO messages_in]: [id] is the primary key and [seq] is UNIQUE. *)
Definition insert_row (r : MessageIn) : inM unit :=
  let* clash := gets (λ d, sql_exists (λ r', bool_decide (mi_id r' = mi_id r) ||
                                            bool_decide (mi_seq r' = mi_seq r)) (messages_in d)) in
  if clash : bool then throw (SqliteConstraint "messages_in")
  else modify (λ d, set_messages_in (messages_in d ++ [r]) d).

(** The [message] argument of [insertMessage]; [im_trigger] is [None] when the
    property is absent. *)
Record InMessage := mkInMessage {
  im_id : string;
  im_kind : string;
  im_timestamp : stext;
  im_platformId : option string;
  im_channelType : option string;
  im_threadId : option string;
  im_content : string;
  im_processAfter : option stext;
  im_recurrence : option string;
  im_trigger : option bool;
  im_sourceSessionId : option string;
  im_originUserId : option string;
  im_conversationThreadId : option string }.

Definition row_of (m : InMessage) (seq : Z) : MessageIn :=
  mkMessageIn (im_id m) seq (im_kind m) (im_timestamp m) RPending (im_processAfter m)
    (im_recurrence m) (Some (im_id m)) 0 (default true (im_trigger m)) (im_platformId m)
    (im_channelType m) (im_threadId m) (im_content m) (im_sourceSessionId m)
    (im_originUserId m) (im_conversationThreadId m).

(*@ src/src/db/session-db.ts 169-218 insertMessage *)
Definition insertMessage (m : InMessage) : inM unit :=
  let* seq := gets nextEvenSeq in
  insert_row (row_of m seq).

(** [ORDER BY seq DESC] *)
Definition seq_desc (a b : MessageIn) : bool := mi_seq b <? mi_seq a.

(*@ src/src/db/session-db.ts 229-236 latestConversationThreadId *)
Definition latestConversationThreadId (d : InboundDb) : option string :=
  match sql_first_by seq_desc
          (sql_where (λ r, negb (sql_is (mi_conversation_thread_id r) None)) (messages_in d)) with
  | Some r => mi_conversation_thread_id r
  | None => None
  end.

Section sqlite.
(** SQLite's [datetime(s)] on a text the agent supplied: seconds, or NULL. *)
Context (sqlite_datetime : string → option Z).

Definition datetime (t : stext) : option Z :=
  match t with
  | TIso ms => Some (ms / 1000)
  | TSql sec => Some sec
  | TText s => sqlite_datetime s
  end.

(** [process_after IS NULL OR datetime(process_after) <= datetime('now')] *)
Definition is_due (now : time) (r : MessageIn) : bool :=
  match mi_process_after r with
  | None => true
  | Some t => match datetime t with Some sec => sec <=? sql_now now | None => false end
  end.

(*@ src/src/db/session-db.ts 238-249 countDueMessages *)
Definition countDueMessages (now : time) (d : InboundDb) : nat :=
  sql_changes (λ r, bool_decide (mi_status r = RPending) && mi_trigger r && is_due now r)
    (messages_in d).
End sqlite.

(** An [UPDATE messages_in SET ... WHERE ...], and its [changes]. *)
Definition update_in (p : MessageIn → bool) (f : MessageIn → MessageIn) : inM nat :=
  let* n := gets (λ d, sql_changes p (messages_in d)) in
  modify (λ d, set_messages_in (sql_update p f (messages_in d)) d) ;;
  ret n.

Definition has_id (id : string) (r : MessageIn) : bool := bool_decide (mi_id r = id).

(*@ src/src/db/session-db.ts 251-253 markMessageFailed *)
Definition markMessageFailed (messageId : string) : inM unit :=
  update_in (has_id messageId) (with_status RFailed) ;; ret tt.

(*@ src/src/db/session-db.ts 264-270 listFailedInbound *)
Definition listFailedInbound (d : InboundDb) : list MessageIn :=
  sql_order_by (λ a b, text_ltb (mi_timestamp a) (mi_timestamp b))
    (sql_where (λ r, bool_decide (mi_status r = RFailed)) (messages_in d)).

(*@ src/src/db/session-db.ts 278-285 requeueFailedInbound *)
Definition requeueFailedInbound (messageId : string) : inM bool :=
  let* n := update_in (λ r, has_id messageId r && bool_decide (mi_status r = RFailed))
              (λ r, with_retry 0 None (with_status RPending r)) in
  ret (0 <? Z.of_nat n).

(*@ src/src/db/session-db.ts 287-291 retryWithBackoff *)
Definition retryWithBackoff (now : time) (messageId : string) (backoffSec : Z) : inM unit :=
  update_in (has_id messageId)
    (λ r, with_retry (mi_tries r + 1) (Some (TSql (sql_now now + backoffSec))) r) ;;
  ret tt.

(*@ src/src/db/session-db.ts 293-301 getMessageForRetry *)
Definition getMessageForRetry (messageId : string) (status : RowStatus) (d : InboundDb)
    : option MessageIn :=
  sql_first (λ r, has_id messageId r && bool_decide (mi_status r = status)) (messages_in d).

(** ** processing_ack *)

Definition acked_done (r : AckRow) : bool :=
  bool_decide (ak_status r = ACompleted) || bool_decide (ak_status r = AFailed).

(*@ src/src/db/session-db.ts 303-316 syncProcessingAcks *)
Definition syncProcessingAcks (outDb : OutboundDb) : inM unit :=
  let completed := sql_where acked_done (processing_ack outDb) in
  if (length completed =? 0)%nat then ret tt
  else transaction (for_each completed (λ a,
    update_in (λ r, has_id (ak_message_id a) r && negb (bool_decide (mi_status r = RCompleted)))
      (with_status RCompleted) ;;
    ret tt)).

(*@ src/src/db/session-db.ts 318-324 getStuckProcessingIds *)
Definition getStuckProcessingIds (d : OutboundDb) : list string :=
  map ak_message_id (sql_where (λ r, bool_decide (ak_status r = AProcessing)) (processing_ack d)).

(*@ src/src/db/session-db.ts 331-336 getProcessingClaims *)
Definition getProcessingClaims (d : OutboundDb) : list AckRow :=
  sql_where (λ r, bool_decide (ak_status r = AProcessing)) (processing_ack d).

(*@ src/src/db/session-db.ts 347-349 deleteOrphanProcessingClaims *)
Definition deleteOrphanProcessingClaims : outM nat :=
  let orphan r := bool_decide (ak_status r = AProcessing) in
  let* n := gets (λ d, sql_changes orphan (processing_ack d)) in
  modify (λ d, set_processing_ack (sql_delete orphan (processing_ack d)) d) ;;
  ret n.

(*@ src/src/db/session-db.ts 363-376 getContainerState *)
Definition getContainerState (d : OutboundDb) : option ContainerState := container_state d.

(** [deliver_after <= datetime('now')] compares the two texts. *)
(*@ src/src/db/session-db.ts 406-414 getDueOutboundMessages *)
Definition getDueOutboundMessages (now : time) (d : OutboundDb) : list MessageOut :=
  sql_order_by (λ a b, text_ltb (mo_timestamp a) (mo_timestamp b))
    (sql_where (λ r, match mo_deliver_after r with
                     | None => true
                     | Some t => text_leb t (TSql (sql_now now))
                     end) (messages_out d)).

(** ** delivered *)

(** The WHERE clause of [getUndeliverableIds]. *)
Definition undeliverable (now : time) (maxAttempts : Z) (r : DeliveredRow) : bool :=
  bool_decide (dl_status r = DDelivered)
  || (bool_decide (dl_status r = DFailed)
      && ((maxAttempts <=? dl_attempts r)
          || match dl_next_retry_at r with
             | None => true
             | Some t => sql_now now <? t
             end)).

(*@ src/src/db/session-db.ts 436-452 getUndeliverableIds *)
Definition getUndeliverableIds (now : time) (maxAttempts : Z) (d : InboundDb) : list string :=
  map dl_message_out_id (sql_where (undeliverable now maxAttempts) (delivered_rows d)).

Definition has_out (id : string) (r : DeliveredRow) : bool :=
  bool_decide (dl_message_out_id r = id).

(** [INSERT ... ON CONFLICT(message_out_id) DO UPDATE ... WHERE
    delivered.status = 'failed']. *)
Definition upsert_failed (id : string) (fresh : DeliveredRow) (f : DeliveredRow → DeliveredRow)
    : inM unit :=
  modify (λ d,
    if sql_exists (has_out id) (delivered_rows d) then
      set_delivered_rows
        (sql_update (λ r, has_out id r && bool_decide (dl_status r = DFailed)) f
           (delivered_rows d)) d
    else set_delivered_rows (delivered_rows d ++ [fresh]) d).

(*@ src/src/db/session-db.ts 454-470 markDelivered *)
Definition markDelivered (now : time) (messageOutId : string) (platformMessageId : option string)
    : inM unit :=
  upsert_failed messageOutId
    (mkDeliveredRow messageOutId platformMessageId DDelivered (sql_now now) 0 None)
    (λ r, mkDeliveredRow (dl_message_out_id r) platformMessageId DDelivered (sql_now now)
            (dl_attempts r) (dl_next_retry_at r)).

(*@ src/src/db/session-db.ts 473-478 getDeliveryAttempts *)
Definition getDeliveryAttempts (messageOutId : string) (d : InboundDb) : Z :=
  match sql_first (λ r, has_out messageOutId r && bool_decide (dl_status r = DFailed))
          (delivered_rows d) with
  | Some r => dl_attempts r
  | None => 0
  end.

(*@ src/src/db/session-db.ts 490-507 markDeliveryFailed *)
Definition markDeliveryFailed (now : time) (messageOutId : string) (attempts : Z)
    (backoffSec : option Z) : inM unit :=
  let retry := option_map (λ b, sql_now now + b) backoffSec in
  upsert_failed messageOutId
    (mkDeliveredRow messageOutId None DFailed (sql_now now) attempts retry)
    (λ r, mkDeliveredRow (dl_message_out_id r) (dl_platform_message_id r) (dl_status r)
            (sql_now now) attempts retry).

(*@ src/src/db/session-db.ts 517-524 listFailedDeliveries *)
Definition listFailedDeliveries (d : InboundDb) : list DeliveredRow :=
  sql_order_by (λ a b, dl_delivered_at a <? dl_delivered_at b)
    (sql_where (λ r, bool_decide (dl_status r = DFailed)) (delivered_rows d)).

(*@ src/src/db/session-db.ts 531-539 requeueFailedDelivery *)
Definition requeueFailedDelivery (now : time) (messageOutId : string) : inM bool :=
  let p r := has_out messageOutId r && bool_decide (dl_status r = DFailed) in
  let* n := gets (λ d, sql_changes p (delivered_rows d)) in
  modify (λ d, set_delivered_rows
    (sql_update p (λ r, mkDeliveredRow (dl_message_out_id r) (dl_platform_message_id r)
                          (dl_status r) (dl_delivered_at r) 0 (Some (sql_now now)))
       (delivered_rows d)) d) ;;
  ret (0 <? Z.of_nat n).

(** ** Return paths of agent-to-agent messages *)

(*@ src/src/db/session-db.ts 611-615 getInboundSourceSessionId *)
Definition getInboundSourceSessionId (messageId : string) (d : InboundDb) : option string :=
  match sql_first (has_id messageId) (messages_in d) with
  | Some r => mi_source_session_id r
  | None => None
  end.

(*@ src/src/db/session-db.ts 628-640 getMostRecentPeerSourceSessionId *)
Definition getMostRecentPeerSourceSessionId (peerAgentGroupId : string) (d : InboundDb)
    : option string :=
  match sql_first_by seq_desc
          (sql_where (λ r, sql_eq (mi_channel_type r) (Some "agent") &&
                           sql_eq (mi_platform_id r) (Some peerAgentGroupId) &&
                           negb (sql_is (mi_source_session_id r) None)) (messages_in d)) with
  | Some r => mi_source_session_id r
  | None => None
  end.
