(* ===== verification/ContainerDb.v ===== *)
(** * The container's side of the session databases
    (container/agent-runner/src/db/messages-in.ts, messages-out.ts)

    The container reads inbound.db and writes outbound.db.  Every function
    that needs both takes inbound.db as an argument. *)
From S2P Require Import Prelude JsString Types Central SessionDb.

Local Open Scope string_scope.
Local Open Scope Z_scope.
Local Open Scope list_scope.

(*@ src/container/agent-runner/src/db/messages-out.ts 24-42 WriteMessageOut *)
Record WriteMessageOut := mkWriteMessageOut {
  wo_id : string;
  wo_in_reply_to : option string;
  wo_deliver_after : option stext;
  wo_recurrence : option string;
  wo_kind : string;
  wo_platform_id : option string;
  wo_channel_type : option string;
  wo_thread_id : option string;
  wo_content : string;
  wo_origin_user_id : option string }.

(** [INSERT INTO messages_out]: [id] is the primary key and [seq] is UNIQUE. *)
Definition insert_out (r : MessageOut) : outM unit :=
  let* clash := gets (λ d, sql_exists (λ r', bool_decide (mo_id r' = mo_id r) ||
                                            bool_decide (mo_seq r' = mo_seq r)) (messages_out d)) in
  if clash : bool then throw (SqliteConstraint "messages_out")
  else modify (λ d, set_messages_out (messages_out d ++ [r]) d).

(** The next odd number after both tables. *)
(*@ src/container/agent-runner/src/db/messages-out.ts 60-63 nextSeq *)
Definition nextOddSeq (inb : InboundDb) (out : OutboundDb) : Z :=
  let maxOut := max_seq (map mo_seq (messages_out out)) in
  let maxIn := max_seq (map mi_seq (messages_in inb)) in
  let max := Z.max maxOut maxIn in
  if Z.rem max 2 =? 0 then max + 1 else max + 2.

(*@ src/container/agent-runner/src/db/messages-out.ts 54-87 writeMessageOut *)
Definition writeMessageOut (now : time) (inb : InboundDb) (msg : WriteMessageOut) : outM Z :=
  let* nextSeq := gets (nextOddSeq inb) in
  insert_out (mkMessageOut (wo_id msg) nextSeq (wo_in_reply_to msg) (TSql (sql_now now))
    (wo_deliver_after msg) (wo_recurrence msg) (wo_kind msg) (wo_platform_id msg)
    (wo_channel_type msg) (wo_thread_id msg) (wo_content msg) (wo_origin_user_id msg)) ;;
  ret nextSeq.

(*@ src/container/agent-runner/src/db/messages-out.ts 100-123 getMessageIdBySeq *)
Definition getMessageIdBySeq (inb : InboundDb) (out : OutboundDb) (seq : Z) : option string :=
  match sql_first (λ r, mi_seq r =? seq) (messages_in inb) with
  | Some inRow => Some (mi_id inRow)
  | None =>
      match sql_first (λ r, mo_seq r =? seq) (messages_out out) with
      | None => None
      | Some outRow =>
          match sql_first (has_out (mo_id outRow)) (delivered_rows inb) with
          | Some deliveredRow =>
              if truthy (dl_platform_message_id deliveredRow)
              then dl_platform_message_id deliveredRow
              else Some (mo_id outRow)
          | None => Some (mo_id outRow)
          end
      end
  end.

(*@ src/container/agent-runner/src/db/messages-out.ts 129-142 getRoutingBySeq *)
Definition getRoutingBySeq (inb : InboundDb) (out : OutboundDb) (seq : Z) : option Routing :=
  match sql_first (λ r, mi_seq r =? seq) (messages_in inb) with
  | Some r => Some (mkRouting (mi_channel_type r) (mi_platform_id r) (mi_thread_id r))
  | None =>
      option_map (λ r, mkRouting (mo_channel_type r) (mo_platform_id r) (mo_thread_id r))
        (sql_first (λ r, mo_seq r =? seq) (messages_out out))
  end.

Section pending.
Context (sqlite_datetime : string → option Z).

Definition acked (out : OutboundDb) (id : string) : bool :=
  sql_exists (λ a, bool_decide (ak_message_id a = id)) (processing_ack out).

(** [limit] is [getMaxMessagesPerPrompt()]. *)
(*@ src/container/agent-runner/src/db/messages-in.ts 59-89 getPendingMessages *)
Definition getPendingMessages (now : time) (limit : nat) (inb : InboundDb) (out : OutboundDb)
    : list MessageIn :=
  let pending := take limit (sql_order_by seq_desc
    (sql_where (λ r, bool_decide (mi_status r = RPending) && is_due sqlite_datetime now r)
       (messages_in inb))) in
  if (length pending =? 0)%nat then []
  else rev (sql_where (λ m, negb (acked out (mi_id m))) pending).
End pending.

(** [INSERT OR REPLACE INTO processing_ack] *)
Definition put_ack (now : time) (st : AckStatus) (id : string) : outM unit :=
  modify (λ d, set_processing_ack
    (sql_delete (λ a, bool_decide (ak_message_id a = id)) (processing_ack d)
     ++ [mkAckRow id st (sql_now now)]) d).

(*@ src/container/agent-runner/src/db/messages-in.ts 92-101 markProcessing *)
Definition markProcessing (now : time) (ids : list string) : outM unit :=
  match ids with
  | [] => ret tt
  | _ => transaction (for_each ids (put_ack now AProcessing))
  end.

(*@ src/container/agent-runner/src/db/messages-in.ts 110-117 releaseProcessing *)
Definition releaseProcessing (ids : list string) : outM unit :=
  match ids with
  | [] => ret tt
  | _ => transaction (for_each ids (λ id,
           modify (λ d, set_processing_ack
             (sql_delete (λ a, bool_decide (ak_message_id a = id)) (processing_ack d)) d)))
  end.

(*@ src/container/agent-runner/src/db/messages-in.ts 120-129 markCompleted *)
Definition markCompleted (now : time) (ids : list string) : outM unit :=
  match ids with
  | [] => ret tt
  | _ => transaction (for_each ids (put_ack now ACompleted))
  end.

(*@ src/container/agent-runner/src/db/messages-in.ts 132-138 markFailed *)
Definition markFailed (now : time) (id : string) : outM unit := put_ack now AFailed id.

(*@ src/container/agent-runner/src/db/messages-in.ts 141-148 getMessageIn *)
Definition getMessageIn (inb : InboundDb) (id : string) : option MessageIn :=
  sql_first (has_id id) (messages_in inb).

(** A text between double quotes. *)
Definition dquote : string := String (Ascii.ascii_of_nat 34) EmptyString.
Definition of_quoted (s : string) : string := dquote +:+ s +:+ dquote.

(** The LIKE pattern is the quoted key and the quoted id between wildcards, for an id without the wildcards
    [%] and [_]; LIKE ignores the case of ASCII letters. *)
(*@ src/container/agent-runner/src/db/messages-in.ts 154-173 findQuestionResponse *)
Definition findQuestionResponse (inb : InboundDb) (out : OutboundDb) (questionId : string)
    : option MessageIn :=
  let pat := toLowerCase (of_quoted "questionId" +:+ ":" +:+ of_quoted questionId) in
  match sql_first (λ r, bool_decide (mi_status r = RPending) &&
                        includes (toLowerCase (mi_content r)) pat) (messages_in inb) with
  | None => None
  | Some response => if acked out (mi_id response) then None else Some response
  end.
