(* ===== verification/Tasks.v ===== *)
(** * Scheduled tasks (src/modules/scheduling/db.ts, recurrence.ts)

    A task is a row of messages_in with kind ['task'].  A recurring task is a
    series: each occurrence is its own row, and when one completes the sweep
    inserts the next and takes the recurrence off the old one. *)
From S2P Require Import Prelude JsString Json Types Central SessionDb.

Local Open Scope string_scope.
Local Open Scope Z_scope.
Local Open Scope list_scope.

Record Task := mkTask {
  tk_id : string;
  tk_processAfter : stext;
  tk_recurrence : option string;
  tk_platformId : option string;
  tk_channelType : option string;
  tk_threadId : option string;
  tk_content : string }.

(*@ src/src/modules/scheduling/db.ts 17-36 insertTask *)
Definition insertTask (now : time) (t : Task) : inM unit :=
  let* seq := gets nextEvenSeq in
  insert_row (mkMessageIn (tk_id t) seq "task" (TSql (sql_now now)) RPending
    (Some (tk_processAfter t)) (tk_recurrence t) (Some (tk_id t)) 0 true (tk_platformId t)
    (tk_channelType t) (tk_threadId t) (tk_content t) None None None).

(** [(id = ? OR series_id = ?) AND kind = 'task'] *)
Definition in_series (taskId : string) (r : MessageIn) : bool :=
  (bool_decide (mi_id r = taskId) || sql_eq (mi_series_id r) (Some taskId)) &&
  bool_decide (mi_kind r = "task").

(** [status IN ('pending', 'paused')] *)
Definition is_live (r : MessageIn) : bool :=
  bool_decide (mi_status r = RPending) || bool_decide (mi_status r = RPaused).

(*@ src/src/modules/scheduling/db.ts 38-42 cancelTask *)
Definition cancelTask (taskId : string) : inM unit :=
  update_in (λ r, in_series taskId r && is_live r)
    (λ r, with_recurrence None (with_status RCompleted r)) ;; ret tt.

(*@ src/src/modules/scheduling/db.ts 44-48 pauseTask *)
Definition pauseTask (taskId : string) : inM unit :=
  update_in (λ r, in_series taskId r && bool_decide (mi_status r = RPending))
    (with_status RPaused) ;; ret tt.

(*@ src/src/modules/scheduling/db.ts 50-54 resumeTask *)
Definition resumeTask (taskId : string) : inM unit :=
  update_in (λ r, in_series taskId r && bool_decide (mi_status r = RPaused))
    (with_status RPending) ;; ret tt.

(** An absent property is [None]; [script] and [recurrence] may be [null]. *)
(*@ src/src/modules/scheduling/db.ts 56-61 TaskUpdate *)
Record TaskUpdate := mkTaskUpdate {
  tu_prompt : option string;
  tu_script : option (option string);
  tu_recurrence : option (option string);
  tu_processAfter : option stext }.

Definition jopt (o : option string) : json := match o with Some s => JStr s | None => JNull end.

(** [parsed.k = v] in a strict-mode module: a primitive throws, an array keeps
    the property but [JSON.stringify] does not show it. *)
Definition assign (k : string) (v : option json) (j : json) : option json :=
  match v with
  | None => Some j
  | Some v =>
      match j with
      | JObj l => Some (JObj (obj_set k v l))
      | JArr l => Some (JArr l)
      | _ => None
      end
  end.

(*@ src/src/modules/scheduling/db.ts 83-88 mergeContent *)
Definition mergeContent (u : TaskUpdate) (content : string) : inM string :=
  if bool_decide (is_Some (tu_prompt u)) || bool_decide (is_Some (tu_script u)) then
    match JSON_parse content with
    | None => throw (Err "SyntaxError")
    | Some parsed =>
        match assign "prompt" (option_map JStr (tu_prompt u)) parsed with
        | None => throw TypeError
        | Some p1 =>
            match assign "script" (option_map jopt (tu_script u)) p1 with
            | None => throw TypeError
            | Some p2 => ret (JSON_stringify p2)
            end
        end
    end
  else ret content.

Definition apply_update (u : TaskUpdate) (content : string) (r : MessageIn) : MessageIn :=
  let r1 := with_content content r in
  let r2 := match tu_processAfter u with
            | Some t => with_retry (mi_tries r1) (Some t) r1
            | None => r1
            end in
  match tu_recurrence u with Some rec => with_recurrence rec r2 | None => r2 end.

(*@ src/src/modules/scheduling/db.ts 67-108 updateTask *)
Definition updateTask (taskId : string) (u : TaskUpdate) : inM nat :=
  let* rows := gets (λ d, sql_where (λ r, in_series taskId r && is_live r) (messages_in d)) in
  if (length rows =? 0)%nat then ret 0%nat
  else
    transaction (for_each rows (λ row,
      let* content := mergeContent u (mi_content row) in
      update_in (has_id (mi_id row)) (apply_update u content) ;;
      ret tt)) ;;
    ret (length rows).

(*@ src/src/modules/scheduling/db.ts 122-126 getCompletedRecurring *)
Definition getCompletedRecurring (d : InboundDb) : list MessageIn :=
  sql_where (λ r, bool_decide (mi_status r = RCompleted) && negb (sql_is (mi_recurrence r) None))
    (messages_in d).

(*@ src/src/modules/scheduling/db.ts 128-149 insertRecurrence *)
Definition insertRecurrence (now : time) (msg : MessageIn) (newId : string)
    (nextRun : option stext) : inM unit :=
  let* seq := gets nextEvenSeq in
  insert_row (mkMessageIn newId seq (mi_kind msg) (TSql (sql_now now)) RPending nextRun
    (mi_recurrence msg) (mi_series_id msg) 0 true (mi_platform_id msg) (mi_channel_type msg)
    (mi_thread_id msg) (mi_content msg) None None None).

(*@ src/src/modules/scheduling/db.ts 151-153 clearRecurrence *)
Definition clearRecurrence (messageId : string) : inM unit :=
  update_in (has_id messageId) (with_recurrence None) ;; ret tt.

Section recurrence.
(** cron-parser's [parse(expr, { tz }).next()] at [now]: [None] when it throws. *)
Context (cron_next : string → time → option time).
(** [Math.random().toString(36).slice(2, 8)] for the row that recurs. *)
Context (random : string → string).

(** [`${prefix}-${Date.now()}-${random}`] *)
Definition recurrence_id (now : time) (msg : MessageIn) : string :=
  (if bool_decide (mi_kind msg = "task") then "task" else "msg") +:+ "-" +:+
  pretty.pretty now +:+ "-" +:+ random (mi_id msg).

(** One turn of the loop, inside its [try]; an error is logged. *)
(*@ src/src/modules/scheduling/recurrence.ts 24-53 recurring *)
Definition recur_one (now : time) (msg : MessageIn) : inM unit :=
  try_catch
    (match cron_next (default "" (mi_recurrence msg)) now with
     | None => throw (Err "cron")
     | Some t =>
         insertRecurrence now msg (recurrence_id now msg) (Some (TIso t)) ;;
         clearRecurrence (mi_id msg)
     end)
    (λ _, ret tt).

(*@ src/src/modules/scheduling/recurrence.ts 21-54 handleRecurrence *)
Definition handleRecurrence (now : time) : inM unit :=
  let* recurring := gets getCompletedRecurring in
  for_each recurring (recur_one now).
End recurrence.
