(* ===== verification/SessionDbProofs.v ===== *)
(** * What the session databases guarantee

    Sequence numbers: the host's rows are even, the container's odd, so a
    number names one message.  Delivery rows: a delivered row is final and a
    failed one is offered again exactly when its window opens.  Acks: the sync
    loop is one map over the rows. *)
From S2P Require Import Prelude JsString Json Types Central SessionDb ContainerDb Tasks.

Local Open Scope string_scope.
Local Open Scope Z_scope.
Local Open Scope list_scope.

(** ** Sequence numbers *)

Lemma fold_max_ge l x : x ≤ fold_left Z.max l x ∧ ∀ y, y ∈ l → y ≤ fold_left Z.max l x.
Proof.
  revert x. induction l as [|a l IH]; intros x; simpl; [split; [lia|set_solver]|].
  destruct (IH (Z.max x a)) as [H1 H2]. split; [lia|].
  intros y [->|Hy]%elem_of_cons; [lia|by apply H2].
Qed.
Lemma max_seq_ge l y : y ∈ l → y ≤ max_seq l.
Proof.
  destruct l as [|x l]; simpl; [set_solver|].
  destruct (fold_max_ge l x) as [H1 H2]. intros [->|Hy]%elem_of_cons; [done|by apply H2].
Qed.

Lemma rem2_even z : Z.even (z + 2 - Z.rem z 2) = true.
Proof.
  pose proof (Z.quot_rem' z 2) as E.
  replace (z + 2 - Z.rem z 2) with (2 * (Z.quot z 2 + 1)) by lia. by rewrite Z.even_mul.
Qed.

Lemma nextEvenSeq_even d : Z.even (nextEvenSeq d) = true.
Proof. unfold nextEvenSeq. destruct_if; [done|apply rem2_even]. Qed.
Lemma nextEvenSeq_fresh d r : r ∈ messages_in d → mi_seq r < nextEvenSeq d.
Proof.
  intros Hr. unfold nextEvenSeq.
  pose proof (max_seq_ge (map mi_seq (messages_in d)) (mi_seq r)) as Hm.
  specialize (Hm ltac:(by apply list_elem_of_fmap_2)).
  destruct_if; [lia|].
  pose proof (Z.rem_bound_pos (max_seq (map mi_seq (messages_in d))) 2). lia.
Qed.
Lemma nextOddSeq_odd i o : Z.odd (nextOddSeq i o) = true.
Proof.
  unfold nextOddSeq. set (m := Z.max _ _). pose proof (Z.quot_rem' m 2) as E.
  destruct (Z.rem m 2 =? 0) eqn:H.
  - apply Z.eqb_eq in H. rewrite Z.odd_add. replace m with (2 * Z.quot m 2) by lia.
    by rewrite Z.odd_mul.
  - apply Z.eqb_neq in H. rewrite Z.odd_add. simpl. rewrite xorb_false_r.
    destruct (Z.odd m) eqn:Ho; [done|]. destruct H.
    apply Z.rem_divide; [lia|]. exists (m / 2).
    rewrite <-Z.negb_even in Ho. apply negb_false_iff, Z.even_spec in Ho as [k ->].
    rewrite (Z.mul_comm 2), Z.div_mul by lia. lia.
Qed.
Lemma nextOddSeq_fresh i o r : r ∈ messages_out o → mo_seq r < nextOddSeq i o.
Proof.
  intros Hr. unfold nextOddSeq.
  pose proof (max_seq_ge (map mo_seq (messages_out o)) (mo_seq r)) as Hm.
  specialize (Hm ltac:(by apply list_elem_of_fmap_2)). destruct_if; lia.
Qed.

(** The host's half, the container's half. *)
Definition in_ok (i : InboundDb) : Prop :=
  keys_unique mi_id (messages_in i) ∧ keys_unique mi_seq (messages_in i) ∧
  ∀ r, r ∈ messages_in i → Z.even (mi_seq r) = true.
Definition out_ok (o : OutboundDb) : Prop :=
  keys_unique mo_id (messages_out o) ∧ keys_unique mo_seq (messages_out o) ∧
  ∀ r, r ∈ messages_out o → Z.odd (mo_seq r) = true.

Lemma insert_row_eq r d :
  insert_row r d =
  if sql_exists (λ r', bool_decide (mi_id r' = mi_id r) || bool_decide (mi_seq r' = mi_seq r))
       (messages_in d)
  then (Throw (SqliteConstraint "messages_in"), d)
  else (Ok tt, set_messages_in (messages_in d ++ [r]) d).
Proof. unfold insert_row, bind, gets. simpl. by destruct_if. Qed.

Lemma insert_row_in_ok r d : Z.even (mi_seq r) = true → in_ok d → in_ok (insert_row r d).2.
Proof.
  intros He (Hi & Hs & Hev). rewrite insert_row_eq. destruct_if; [done|].
  pose proof (proj1 (sql_exists_false _ _) Heqb) as Hno. split_and!; simpl.
  - apply keys_unique_insert; [done|]. intros r' Hr' E. specialize (Hno r' Hr').
    cbn in Hno. to_prop. done.
  - apply keys_unique_insert; [done|]. intros r' Hr' E. specialize (Hno r' Hr').
    cbn in Hno. to_prop. done.
  - intros r' [Hr'|Hr'%list_elem_of_singleton]%elem_of_app; subst; auto.
Qed.
Lemma update_in_in_ok p f :
  (∀ r, mi_id (f r) = mi_id r) → (∀ r, mi_seq (f r) = mi_seq r) → preserves in_ok (update_in p f).
Proof.
  intros Hid Hseq d (Hi & Hs & Hev). unfold update_in, bind, gets, modify, ret. simpl.
  split_and!; simpl; [by apply keys_unique_update..|].
  intros r (r0 & Hr0 & ->)%elem_of_sql_update. destruct_if; rewrite ?Hseq; auto.
Qed.
#[export] Hint Resolve update_in_in_ok insert_row_in_ok : prog.

Lemma insertMessage_in_ok m : preserves in_ok (insertMessage m).
Proof. intros d Hd. apply insert_row_in_ok; [apply nextEvenSeq_even|done]. Qed.
Lemma insertTask_in_ok now t : preserves in_ok (insertTask now t).
Proof. intros d Hd. apply insert_row_in_ok; [apply nextEvenSeq_even|done]. Qed.
Lemma insertRecurrence_in_ok now m id t : preserves in_ok (insertRecurrence now m id t).
Proof. intros d Hd. apply insert_row_in_ok; [apply nextEvenSeq_even|done]. Qed.
#[export] Hint Resolve insertMessage_in_ok insertTask_in_ok insertRecurrence_in_ok : prog.

Lemma handleRecurrence_in_ok cron rnd now : preserves in_ok (handleRecurrence cron rnd now).
Proof.
  unfold handleRecurrence, recur_one, clearRecurrence.
  apply preserves_bind; [auto with prog|]. intros l. apply preserves_for_each. intros x _.
  apply preserves_try; [|auto with prog]. destruct (cron _ _); auto with prog.
Qed.
Lemma mergeContent_in_ok u c : preserves in_ok (mergeContent u c).
Proof.
  unfold mergeContent. destruct_if; [|auto with prog]. destruct (JSON_parse c) as [j|];
    [|auto with prog]. repeat (destruct (assign _ _ _); [|auto with prog]). auto with prog.
Qed.
Lemma apply_update_keys u c r :
  mi_id (apply_update u c r) = mi_id r ∧ mi_seq (apply_update u c r) = mi_seq r.
Proof.
  unfold apply_update. by destruct (tu_processAfter u), (tu_recurrence u).
Qed.
Lemma updateTask_in_ok id u : preserves in_ok (updateTask id u).
Proof.
  unfold updateTask. apply preserves_bind; [auto with prog|]. intros rows.
  destruct_if; [auto with prog|]. apply preserves_bind; [|auto with prog].
  apply preserves_transaction, preserves_for_each. intros row _.
  apply preserves_bind; [apply mergeContent_in_ok|]. intros c.
  apply preserves_bind; [|auto with prog].
  apply update_in_in_ok; intros r; apply apply_update_keys.
Qed.
Lemma syncProcessingAcks_in_ok o : preserves in_ok (syncProcessingAcks o).
Proof.
  unfold syncProcessingAcks. destruct_if; [auto with prog|].
  apply preserves_transaction, preserves_for_each. auto with prog.
Qed.

(** The operations of both sides that insert into or update the two tables. *)
Inductive db_op :=
| HInsert (m : InMessage)
| HTask (now : time) (t : Task)
| HRecur (now : time)
| HCancel (id : string)
| HPause (id : string)
| HResume (id : string)
| HUpdate (id : string) (u : TaskUpdate)
| HMarkFailed (id : string)
| HRequeue (id : string)
| HRetry (now : time) (id : string) (backoff : Z)
| HSync
| HDelivered (now : time) (id : string) (platformId : option string)
| HDeliveryFailed (now : time) (id : string) (attempts : Z) (backoff : option Z)
| CMark (now : time) (st : AckStatus) (ids : list string)
| CWrite (now : time) (m : WriteMessageOut).

Definition db_run (cron : string → time → option time) (rnd : string → string) (op : db_op)
    (s : InboundDb * OutboundDb) : InboundDb * OutboundDb :=
  let '(i, o) := s in
  match op with
  | HInsert m => ((insertMessage m i).2, o)
  | HTask now t => ((insertTask now t i).2, o)
  | HRecur now => ((handleRecurrence cron rnd now i).2, o)
  | HCancel id => ((cancelTask id i).2, o)
  | HPause id => ((pauseTask id i).2, o)
  | HResume id => ((resumeTask id i).2, o)
  | HUpdate id u => ((updateTask id u i).2, o)
  | HMarkFailed id => ((markMessageFailed id i).2, o)
  | HRequeue id => ((requeueFailedInbound id i).2, o)
  | HRetry now id b => ((retryWithBackoff now id b i).2, o)
  | HSync => ((syncProcessingAcks o i).2, o)
  | HDelivered now id p => ((markDelivered now id p i).2, o)
  | HDeliveryFailed now id a b => ((markDeliveryFailed now id a b i).2, o)
  | CMark now AProcessing ids => (i, (markProcessing now ids o).2)
  | CMark now ACompleted ids => (i, (markCompleted now ids o).2)
  | CMark now AFailed ids => (i, (for_each ids (markFailed now) o).2)
  | CWrite now m => (i, (writeMessageOut now i m o).2)
  end.

Lemma writeMessageOut_out_ok now i m o : out_ok o → out_ok (writeMessageOut now i m o).2.
Proof.
  intros (Hi & Hs & Ho). unfold writeMessageOut, insert_out, bind, gets, modify, ret, throw.
  cbn. destruct (sql_exists _ (messages_out o)) eqn:E; simpl; [done|].
  pose proof (proj1 (sql_exists_false _ _) E) as Hno. split_and!; simpl.
  - apply keys_unique_insert; [done|]. intros r' Hr' Eq. specialize (Hno r' Hr'). cbn in Hno.
    to_prop. done.
  - apply keys_unique_insert; [done|]. intros r' Hr' Eq. specialize (Hno r' Hr'). cbn in Hno.
    to_prop. done.
  - intros r' [Hr'|Hr'%list_elem_of_singleton]%elem_of_app; subst; [auto|apply nextOddSeq_odd].
Qed.

Lemma cancelTask_in_ok id : preserves in_ok (cancelTask id).
Proof. unfold cancelTask. auto with prog. Qed.
Lemma pauseTask_in_ok id : preserves in_ok (pauseTask id).
Proof. unfold pauseTask. auto with prog. Qed.
Lemma resumeTask_in_ok id : preserves in_ok (resumeTask id).
Proof. unfold resumeTask. auto with prog. Qed.
Lemma markMessageFailed_in_ok id : preserves in_ok (markMessageFailed id).
Proof. unfold markMessageFailed. auto with prog. Qed.
Lemma requeueFailedInbound_in_ok id : preserves in_ok (requeueFailedInbound id).
Proof. unfold requeueFailedInbound. auto with prog. Qed.
Lemma retryWithBackoff_in_ok now id b : preserves in_ok (retryWithBackoff now id b).
Proof. unfold retryWithBackoff. auto with prog. Qed.
Lemma upsert_failed_in_ok id r f : preserves in_ok (upsert_failed id r f).
Proof. apply preserves_modify. intros d Hd. by destruct_if. Qed.
Lemma put_ack_out_ok now st id : preserves out_ok (put_ack now st id).
Proof. by apply preserves_modify. Qed.
#[export] Hint Resolve upsert_failed_in_ok put_ack_out_ok : prog.
Lemma marks_out_ok now st ids :
  preserves out_ok (transaction (for_each ids (put_ack now st))) ∧
  preserves out_ok (for_each ids (put_ack now st)).
Proof. assert (preserves out_ok (for_each ids (put_ack now st))); auto with prog. Qed.
Lemma markProcessing_out_ok now ids : preserves out_ok (markProcessing now ids).
Proof. destruct ids; [apply preserves_ret|apply marks_out_ok]. Qed.
Lemma markCompleted_out_ok now ids : preserves out_ok (markCompleted now ids).
Proof. destruct ids; [apply preserves_ret|apply marks_out_ok]. Qed.
#[export] Hint Resolve handleRecurrence_in_ok updateTask_in_ok syncProcessingAcks_in_ok
  cancelTask_in_ok pauseTask_in_ok resumeTask_in_ok markMessageFailed_in_ok
  requeueFailedInbound_in_ok retryWithBackoff_in_ok : prog.

Lemma db_run_ok cron rnd op i o :
  in_ok i → out_ok o →
  in_ok (db_run cron rnd op (i, o)).1 ∧ out_ok (db_run cron rnd op (i, o)).2.
Proof.
  intros Hi Ho.
  assert (∀ A (m : inM A), preserves in_ok m → in_ok (m i).2 ∧ out_ok o) as Hin by auto.
  destruct op; cbn [db_run fst snd]; try (apply Hin; auto with prog; fail).
  - unfold markDelivered. apply Hin; auto with prog.
  - unfold markDeliveryFailed. apply Hin; auto with prog.
  - split; [by destruct st|]. destruct st; cbn [fst snd];
      [by apply markProcessing_out_ok|by apply markCompleted_out_ok|].
    by apply (marks_out_ok now AFailed ids).
  - split; [done|by apply writeMessageOut_out_ok].
Qed.

Lemma db_runs_ok cron rnd ops i o :
  in_ok i → out_ok o →
  let s := fold_left (λ s op, db_run cron rnd op s) ops (i, o) in in_ok s.1 ∧ out_ok s.2.
Proof.
  revert i o. induction ops as [|op ops IH]; intros i o Hi Ho; [done|]. cbn [fold_left].
  destruct (db_run_ok cron rnd op i o Hi Ho) as [Hi' Ho'].
  destruct (db_run cron rnd op (i, o)) as [i' o'].
  by apply IH.
Qed.

Lemma sql_first_unique {R K} `{EqDecision K} (key : R → K) (p : R → bool) t r :
  keys_unique key t → r ∈ t → p r = true → (∀ r', p r' = true → key r' = key r) →
  sql_first p t = Some r.
Proof.
  intros Hu Hr Hp Hk. destruct (sql_first p t) as [r'|] eqn:E.
  - apply sql_first_Some in E as [Hr' Hp']. f_equal.
    apply (keys_unique_eq key t); auto.
  - rewrite (sql_first_None p t r E Hr) in Hp. done.
Qed.

Definition no_rows : InboundDb * OutboundDb := (emptyInbound, emptyOutbound).


(** ** Deliveries *)

(** The host's writes to the delivered table. *)
Inductive delivery_op :=
| OpDelivered (now : time) (id : string) (platformId : option string)
| OpFailed (now : time) (id : string) (attempts : Z) (backoff : option Z)
| OpRequeue (now : time) (id : string).

Definition delivery_run (d : InboundDb) (op : delivery_op) : InboundDb :=
  match op with
  | OpDelivered now id p => (markDelivered now id p d).2
  | OpFailed now id a b => (markDeliveryFailed now id a b d).2
  | OpRequeue now id => (requeueFailedDelivery now id d).2
  end.

Lemma upsert_failed_keeps id fresh f r d :
  dl_status r = DDelivered → r ∈ delivered_rows d → r ∈ delivered_rows (upsert_failed id fresh f d).2.
Proof.
  intros Hs Hr. unfold upsert_failed, modify. simpl. destruct_if; simpl.
  - apply elem_of_sql_update. exists r. split; [done|]. rewrite Hs. decide_consts.
    by rewrite andb_false_r.
  - apply elem_of_app. by left.
Qed.

(** A delivery recorded as a success is final: no later success, failure or
    requeue, of this or another message, in any order, changes its row, and
    the message is never offered for delivery again. *)
Theorem delivered_is_final (d : InboundDb) (r : DeliveredRow) (ops : list delivery_op) now max :
  r ∈ delivered_rows d → dl_status r = DDelivered →
  let d' := fold_left delivery_run ops d in
  r ∈ delivered_rows d' ∧ dl_message_out_id r ∈ getUndeliverableIds now max d'.
Proof.
  intros Hr Hs. cbn zeta. assert (r ∈ delivered_rows (fold_left delivery_run ops d)) as H.
  { revert d Hr. induction ops as [|op ops IH]; intros d Hr; [done|]. apply IH.
    destruct op; [by apply upsert_failed_keeps..|].
    unfold delivery_run, requeueFailedDelivery, bind, gets, modify, ret. simpl.
    apply elem_of_sql_update. exists r. split; [done|]. rewrite Hs. decide_consts.
    by rewrite andb_false_r. }
  split; [done|]. apply list_elem_of_fmap. exists r. split; [done|]. apply elem_of_sql_where.
  split; [done|]. unfold undeliverable. by rewrite Hs.
Qed.

Example delivered_is_final_witness :
  let d := (markDelivered 0 "m" (Some "p") emptyInbound).2 in
  let r := mkDeliveredRow "m" (Some "p") DDelivered 0 0 None in
  r ∈ delivered_rows (fold_left delivery_run [OpFailed 1 "m" 3 None; OpRequeue 2 "m"] d) ∧
  "m" ∈ getUndeliverableIds 9 3 (fold_left delivery_run [OpFailed 1 "m" 3 None; OpRequeue 2 "m"] d).
Proof.
  apply (delivered_is_final (markDelivered 0 "m" (Some "p") emptyInbound).2
           (mkDeliveredRow "m" (Some "p") DDelivered 0 0 None)).
  - by apply (bool_decide_unpack _).
  - reflexivity.
Defined.

(** No success is recorded for [id], and it has at most one row. *)
Definition undelivered (id : string) (d : InboundDb) : Prop :=
  keys_unique dl_message_out_id (delivered_rows d) ∧
  ∀ r, r ∈ delivered_rows d → dl_message_out_id r = id → dl_status r = DFailed.

Lemma markDeliveryFailed_row now id a b d :
  undelivered id d →
  let d' := (markDeliveryFailed now id a b d).2 in
  (∃ r, r ∈ delivered_rows d' ∧ dl_message_out_id r = id) ∧
  ∀ r, r ∈ delivered_rows d' → dl_message_out_id r = id →
       dl_status r = DFailed ∧ dl_attempts r = a ∧
       dl_next_retry_at r = option_map (λ s, sql_now now + s) b.
Proof.
  intros [Hu Hf]. unfold markDeliveryFailed, upsert_failed, modify. cbn [snd].
  destruct (sql_exists (has_out id) (delivered_rows d)) eqn:E; cbn [delivered_rows set_delivered_rows].
  - split.
    + apply sql_exists_true in E as (r & Hr & Hid). unfold has_out in Hid. to_prop.
      eexists. split; [apply elem_of_sql_update; by exists r|]. by destruct_if.
    + intros r (r0 & Hr0 & ->)%elem_of_sql_update Hid. unfold has_out in *. revert Hid.
      destruct_if; simpl; intros Hid; to_prop; [done|].
      rewrite (Hf r0 Hr0 Hid), Hid in Heqb0. exfalso. revert Heqb0. by decide_consts.
  - split.
    + eexists. split; [apply elem_of_app; right; left|done].
    + intros r [Hr|Hr%list_elem_of_singleton]%elem_of_app Hid; subst; [|done].
      pose proof (proj1 (sql_exists_false _ _) E r Hr) as Hn. unfold has_out in Hn. to_prop. done.
Qed.

Lemma elem_of_undeliverable now max d id :
  id ∈ getUndeliverableIds now max d ↔
  ∃ r, r ∈ delivered_rows d ∧ dl_message_out_id r = id ∧ undeliverable now max r = true.
Proof.
  unfold getUndeliverableIds. rewrite list_elem_of_fmap. setoid_rewrite elem_of_sql_where.
  naive_solver.
Qed.

(** The window of a failed delivery: once attempt [a] is recorded as failed
    at [now] with backoff [b], the message is held back at a later time exactly
    while the attempts are used up, no retry is scheduled, or the backoff has
    not passed; and the recorded count is the one read back. *)
Theorem failed_retry_window (d : InboundDb) (id : string) (now : time) (a : Z) (b : option Z)
    (now' : time) (max : Z) :
  undelivered id d →
  let d' := (markDeliveryFailed now id a b d).2 in
  getDeliveryAttempts id d' = a ∧
  (id ∈ getUndeliverableIds now' max d' ↔
     max ≤ a ∨ b = None ∨ ∃ s, b = Some s ∧ sql_now now' < sql_now now + s).
Proof.
  intros Hun d'. destruct (markDeliveryFailed_row now id a b d Hun) as [(r & Hr & Hid) Hall].
  fold d' in Hr, Hall. destruct (Hall r Hr Hid) as (Hs & Ha & Hn). split.
  - unfold getDeliveryAttempts. destruct (sql_first _ _) as [r'|] eqn:E.
    + apply sql_first_Some in E as [Hr' E]. unfold has_out in E. to_prop. by apply (Hall r').
    + exfalso. pose proof (sql_first_None _ _ r E Hr) as F. cbn in F. unfold has_out in F.
      rewrite Hid, Hs in F. revert F. by decide_consts.
  - rewrite elem_of_undeliverable. split.
    + intros (r' & Hr' & Hid' & U). destruct (Hall r' Hr' Hid') as (Hs' & Ha' & Hn').
      unfold undeliverable in U. rewrite Hs', Ha', Hn' in U. revert U. decide_consts.
      destruct b as [s|]; simpl; [|by auto]. intros [U|U]%orb_true_iff; [left; lia|right; right].
      exists s. split; [done|lia].
    + intros H. exists r. split_and!; [done..|]. unfold undeliverable. rewrite Hs, Ha, Hn.
      decide_consts. destruct H as [H|[->|(s & -> & H)]]; simpl; apply orb_true_iff;
        [left; lia|by right|right; lia].
Qed.

Example failed_retry_window_witness :
  let d' := (markDeliveryFailed 1000 "m" 1 (Some 30) emptyInbound).2 in
  getDeliveryAttempts "m" d' = 1 ∧
  ("m" ∈ getUndeliverableIds 20000 3 d' ↔
    3 ≤ 1 ∨ Some 30 = None ∨ ∃ s, Some 30 = Some s ∧ sql_now 20000 < sql_now 1000 + s).
Proof.
  apply (failed_retry_window emptyInbound "m" 1000 1 (Some 30) 20000 3).
  split; [apply NoDup_nil_2|]. intros r Hr. by apply not_elem_of_nil in Hr.
Defined.

(** ** Acks *)

(** Some ack of [o] says the message was completed or failed. *)
Definition done_in (acks : list AckRow) (id : string) : bool :=
  existsb (λ a, bool_decide (ak_message_id a = id)) acks.

Definition complete_if (p : string → bool) (r : MessageIn) : MessageIn :=
  if p (mi_id r) then with_status RCompleted r else r.

Lemma sync_loop acks i :
  for_each acks (λ a,
    update_in (λ r, has_id (ak_message_id a) r && negb (bool_decide (mi_status r = RCompleted)))
      (with_status RCompleted) ;;
    ret tt) i = (Ok tt, set_messages_in (map (complete_if (done_in acks)) (messages_in i)) i).
Proof.
  revert i. induction acks as [|a acks IH]; intros i; simpl.
  { destruct i as [ms]. unfold ret, set_messages_in. simpl. by rewrite map_id. }
  unfold bind in *. cbn. rewrite IH. f_equal. unfold set_messages_in. simpl. f_equal.
  unfold sql_update. rewrite map_map. apply map_ext. intros r. unfold complete_if, has_id. simpl.
  rewrite (bool_decide_ext (mi_id r = ak_message_id a) (ak_message_id a = mi_id r)) by naive_solver.
  destruct (bool_decide (ak_message_id a = mi_id r)); simpl; [|done].
  destruct (bool_decide_reflect (mi_status r = RCompleted)) as [Hc|Hc]; simpl.
  - destruct (done_in acks (mi_id r)); [done|]. destruct r; simpl in *; subst. done.
  - by destruct (done_in acks (mi_id r)).
Qed.

(** Syncing the acks is one map over messages_in: the rows whose ack says
    completed or failed become completed, every other row and every other
    table stays as it is; and it never throws. *)
Theorem sync_is_a_map (out : OutboundDb) (i : InboundDb) :
  syncProcessingAcks out i =
  (Ok tt, set_messages_in
     (map (complete_if (λ id, sql_exists (λ a, bool_decide (ak_message_id a = id) && acked_done a)
                                (processing_ack out))) (messages_in i)) i).
Proof.
  unfold syncProcessingAcks. set (acks := sql_where acked_done (processing_ack out)).
  assert (∀ id, done_in acks id =
    sql_exists (λ a, bool_decide (ak_message_id a = id) && acked_done a) (processing_ack out)) as E.
  { intros id. unfold done_in, acks, sql_where, sql_exists. clear. induction (processing_ack out)
      as [|a l IH]; simpl; [done|]. destruct (acked_done a); simpl; rewrite IH;
      [by rewrite andb_true_r|by rewrite andb_false_r]. }
  assert (map (complete_if (done_in acks)) (messages_in i) =
          map (complete_if (λ id, sql_exists (λ a, bool_decide (ak_message_id a = id) && acked_done a)
                                (processing_ack out))) (messages_in i)) as Em.
  { apply map_ext. intros r. unfold complete_if. by rewrite E. }
  rewrite <-Em. destruct_if.
  - apply Nat.eqb_eq, length_zero_iff_nil in Heqb. rewrite Heqb. unfold complete_if, ret. simpl.
    rewrite map_id. by destruct i.
  - unfold transaction. by rewrite sync_loop.
Qed.
