(* ===== verification/TasksProofs.v ===== *)
(** * What the scheduler guarantees: cancelled series stay dead, recurring
    series neither die nor fork *)
From S2P Require Import Prelude JsString Json Types Central SessionDb ContainerDb Tasks SessionDbProofs.

Local Open Scope string_scope.
Local Open Scope Z_scope.
Local Open Scope list_scope.

(** ** Cancelling *)

(** The task [id] exists, and no row of its series runs or recurs. *)
Definition dead (id : string) (d : InboundDb) : Prop :=
  (∃ r, r ∈ messages_in d ∧ mi_id r = id) ∧
  ∀ r, r ∈ messages_in d → in_series id r = true → is_live r = false ∧ mi_recurrence r = None.

Lemma dead_insert_row id r d :
  (in_series id r = true → mi_id r = id) → dead id d → dead id (insert_row r d).2.
Proof.
  intros Hr [(r0 & Hr0 & Hid) Hd]. rewrite insert_row_eq. destruct_if; [by split; eauto|].
  pose proof (proj1 (sql_exists_false _ _) Heqb r0 Hr0) as Hno. cbn in Hno. to_prop.
  split; [exists r0; split; [apply elem_of_app; by left|done]|].
  intros r' [Hr'|Hr'%list_elem_of_singleton]%elem_of_app Hs; [by apply Hd|]. subst.
  rewrite Hr in *; done.
Qed.
Lemma dead_update_in id p f :
  (∀ r, mi_id (f r) = mi_id r ∧ mi_kind (f r) = mi_kind r ∧ mi_series_id (f r) = mi_series_id r) →
  (∀ r, p r = true → is_live r = false → mi_recurrence r = None →
        is_live (f r) = false ∧ mi_recurrence (f r) = None) →
  preserves (dead id) (update_in p f).
Proof.
  intros Hk Hf d [(r0 & Hr0 & Hid) Hd]. unfold update_in, bind, gets, modify, ret. cbn.
  split.
  - eexists. split; [apply elem_of_sql_update; by exists r0|]. destruct_if; [|done].
    by rewrite (proj1 (Hk r0)).
  - intros r (r1 & Hr1 & ->)%elem_of_sql_update Hs.
    assert (in_series id r1 = true) as Hs1.
    { revert Hs. destruct_if; [|done]. unfold in_series. by destruct (Hk r1) as (-> & -> & ->). }
    destruct (Hd r1 Hr1 Hs1). destruct_if; auto.
Qed.

Lemma dead_not_live id p f st :
  (∀ r, mi_id (f r) = mi_id r ∧ mi_kind (f r) = mi_kind r ∧ mi_series_id (f r) = mi_series_id r) →
  st = RPending ∨ st = RPaused →
  preserves (dead id) (update_in (λ r, p r && bool_decide (mi_status r = st)) f).
Proof.
  intros Hk Hst. apply dead_update_in; [done|]. intros r Hp Hl. unfold is_live in Hl. to_prop.
  by destruct Hst; subst.
Qed.

Lemma dead_insertMessage id m : preserves (dead id) (insertMessage m).
Proof.
  intros d. apply dead_insert_row. unfold in_series. simpl. intros [H _]%andb_true_iff.
  by apply orb_true_iff in H as [H|H]; to_prop.
Qed.
Lemma dead_insertTask id now t : preserves (dead id) (insertTask now t).
Proof.
  intros d. apply dead_insert_row. unfold in_series. simpl. intros [H _]%andb_true_iff.
  by apply orb_true_iff in H as [H|H]; to_prop.
Qed.
Lemma dead_sync id o : preserves (dead id) (syncProcessingAcks o).
Proof.
  unfold syncProcessingAcks. destruct_if; [auto with prog|].
  apply preserves_transaction, preserves_for_each. intros a _.
  apply preserves_bind; [|auto with prog]. by apply dead_update_in.
Qed.

Lemma getCompletedRecurring_elem d r :
  r ∈ getCompletedRecurring d ↔
  r ∈ messages_in d ∧ mi_status r = RCompleted ∧ mi_recurrence r ≠ None.
Proof.
  unfold getCompletedRecurring. rewrite elem_of_sql_where, andb_true_iff, negb_true_iff.
  unfold sql_is. rewrite bool_decide_eq_true, bool_decide_eq_false. done.
Qed.

Lemma dead_recurrence id cron rnd now : preserves (dead id) (handleRecurrence cron rnd now).
Proof.
  intros d Hd. unfold handleRecurrence, bind, gets.
  apply (preserves_for_each (dead id)); [|done]. intros msg Hmsg.
  apply getCompletedRecurring_elem in Hmsg as (Hin & _ & Hrec).
  apply preserves_try; [|auto with prog]. destruct (cron _ _) as [t|]; [|auto with prog].
  apply preserves_bind.
  - intros d1. apply dead_insert_row. unfold in_series. simpl. intros [H Hk]%andb_true_iff.
    apply orb_true_iff in H as [H|H]; [by to_prop|]. destruct Hrec. apply (proj2 Hd msg Hin).
    unfold in_series. by rewrite H, orb_true_r, Hk.
  - intros _. unfold clearRecurrence. apply preserves_bind; [|auto with prog].
    by apply dead_update_in.
Qed.

Lemma apply_update_series u c r :
  mi_id (apply_update u c r) = mi_id r ∧ mi_kind (apply_update u c r) = mi_kind r ∧
  mi_series_id (apply_update u c r) = mi_series_id r.
Proof. unfold apply_update. by destruct (tu_processAfter u), (tu_recurrence u). Qed.

Lemma mergeContent_pure u c d : (mergeContent u c d).2 = d.
Proof.
  unfold mergeContent. destruct_if; [|done]. destruct (JSON_parse c) as [j|]; [|done].
  by repeat (destruct (assign _ _ _); [|done]).
Qed.

Lemma dead_updateTask id taskId u d :
  keys_unique mi_id (messages_in d) → dead id d → dead id (updateTask taskId u d).2.
Proof.
  intros Hu Hd. unfold updateTask. unfold bind at 1. unfold gets at 1. cbn beta iota.
  set (rows := sql_where _ _).
  assert (∀ r, r ∈ messages_in d → in_series id r = true →
               ∀ row, row ∈ rows → mi_id row ≠ mi_id r) as Hne.
  { intros r Hr Hs row [Hrow Hp]%elem_of_sql_where E. to_prop.
    rewrite (keys_unique_eq mi_id _ row r Hu Hrow Hr E) in *.
    destruct (proj2 Hd r Hr Hs). congruence. }
  destruct_if; [done|]. clear Heqb. clearbody rows.
  set (P d1 := dead id d1 ∧ ∀ r, r ∈ messages_in d1 → in_series id r = true →
               ∀ row, row ∈ rows → mi_id row ≠ mi_id r).
  assert (P d) as HP by done. revert HP. generalize d. clear d Hu Hd Hne.
  cut (preserves P (transaction (for_each rows (λ row,
         let* content := mergeContent u (mi_content row) in
         update_in (has_id (mi_id row)) (apply_update u content) ;; ret tt)))).
  { intros H d Hd. specialize (H d Hd). unfold bind.
    destruct (transaction _ d) as [[u'|e] d1]; exact (proj1 H). }
  apply preserves_transaction, preserves_for_each. intros row Hrow d [Hd Hne].
  unfold bind at 1. pose proof (mergeContent_pure u (mi_content row) d) as Hp.
  destruct (mergeContent u (mi_content row) d) as [[c|e] d1]; simpl in Hp; subst d1; [|done].
  unfold update_in, bind, gets, modify, ret. cbn. split; [split|].
  - destruct Hd as [(r0 & Hr0 & Hid) _]. eexists.
    split; [apply elem_of_sql_update; by exists r0|]. destruct_if; [|done].
    by rewrite (proj1 (apply_update_series u c r0)).
  - intros r (r1 & Hr1 & ->)%elem_of_sql_update Hs. revert Hs. destruct_if; [|by apply Hd].
    unfold in_series. destruct (apply_update_series u c r1) as (-> & -> & ->).
    intros Hs. exfalso. eapply (Hne r1 Hr1 Hs row Hrow). unfold has_id in *. by to_prop.
  - intros r (r1 & Hr1 & ->)%elem_of_sql_update Hs row' Hrow'. revert Hs.
    destruct_if; [|by intros Hs; apply Hne]. unfold in_series.
    destruct (apply_update_series u c r1) as (-> & -> & ->). intros Hs. by apply Hne.
Qed.

(** Everything but an operator's requeue of a dead-lettered row. *)
Definition no_requeue (op : db_op) : bool :=
  match op with HRequeue _ => false | _ => true end.

Lemma dead_run cron rnd id op i o :
  no_requeue op = true → in_ok i → dead id i → dead id (db_run cron rnd op (i, o)).1.
Proof.
  intros Hop Hi Hd. destruct op; cbn [db_run fst]; try done.
  - by apply dead_insertMessage.
  - by apply dead_insertTask.
  - by apply dead_recurrence.
  - unfold cancelTask. apply (preserves_bind (dead id)); [|auto with prog|done].
    by apply dead_update_in.
  - unfold pauseTask. apply (preserves_bind (dead id)); [|auto with prog|done].
    apply dead_not_live; auto.
  - unfold resumeTask. apply (preserves_bind (dead id)); [|auto with prog|done].
    apply dead_not_live; auto.
  - apply dead_updateTask; [apply Hi|done].
  - unfold markMessageFailed. apply (preserves_bind (dead id)); [|auto with prog|done].
    by apply dead_update_in.
  - unfold retryWithBackoff. apply (preserves_bind (dead id)); [|auto with prog|done].
    by apply dead_update_in.
  - by apply dead_sync.
  - unfold markDelivered, upsert_failed. simpl. by destruct_if.
  - unfold markDeliveryFailed, upsert_failed. simpl. by destruct_if.
  - by destruct st.
Qed.

(** Cancelling is final.  If only the live rows of a series recur, then
    after [cancelTask] no row of the series is pending or paused, or recurs,
    and none ever is again under any sequence of sweeps, syncs, inserts,
    pauses, resumes and updates of this or another task; an operator's requeue
    of a dead-lettered row is the one way back. *)
Theorem cancel_is_final cron rnd (id : string) (ops : list db_op) (i : InboundDb) (o : OutboundDb) :
  in_ok i → out_ok o →
  (∃ r, r ∈ messages_in i ∧ mi_id r = id) →
  (∀ r, r ∈ messages_in i → in_series id r = true → is_live r = false → mi_recurrence r = None) →
  forallb no_requeue ops = true →
  let i' := (fold_left (λ s op, db_run cron rnd op s) ops ((cancelTask id i).2, o)).1 in
  ∀ r, r ∈ messages_in i' → in_series id r = true → is_live r = false ∧ mi_recurrence r = None.
Proof.
  intros Hi Ho Hex Hrec Hops. cbn zeta. apply proj2 with (A := ∃ r, r ∈ messages_in (fold_left
    (λ s op, db_run cron rnd op s) ops ((cancelTask id i).2, o)).1 ∧ mi_id r = id).
  change (dead id (fold_left (λ s op, db_run cron rnd op s) ops ((cancelTask id i).2, o)).1).
  assert (dead id (cancelTask id i).2) as Hd.
  { destruct Hex as (r0 & Hr0 & Hid). unfold cancelTask, update_in, bind, gets, modify, ret. cbn.
    split; [eexists; split; [apply elem_of_sql_update; by exists r0|by destruct_if]|].
    intros r (r1 & Hr1 & ->)%elem_of_sql_update Hs. revert Hs. destruct_if; [done|]. intros Hs.
    rewrite Hs in Heqb. simpl in Heqb. auto. }
  pose proof (cancelTask_in_ok id i Hi) as Hi'. revert Hi' Hd.
  generalize ((cancelTask id i).2). clear i Hi Hex Hrec. intros i. revert i o Ho Hops.
  induction ops as [|op ops IH]; intros i o Ho Hops Hi Hd; [done|]. cbn [fold_left forallb] in *.
  apply andb_true_iff in Hops as [Hop Hops].
  destruct (db_run_ok cron rnd op i o Hi Ho) as [Hi' Ho'].
  pose proof (dead_run cron rnd id op i o Hop Hi Hd) as Hd'.
  destruct (db_run cron rnd op (i, o)) as [i' o']. by apply IH.
Qed.

(** The state and calls of the witnesses: a daily task. *)
Definition daily : Task := mkTask "t" (TIso 0) (Some "0 9 * * *") None None None "{}".
Definition daily_db : InboundDb := (insertTask 0 daily emptyInbound).2.
Definition next_day (expr : string) (now : time) : option time := Some (now + 86400000).
Definition tag (id : string) : string := id.

Example cancel_is_final_witness :
  let i' := (fold_left (λ s op, db_run next_day tag op s)
               [HSync; HRecur 5; HResume "t"; HRecur 9] ((cancelTask "t" daily_db).2, emptyOutbound)).1 in
  map (λ r, (mi_id r, mi_recurrence r)) (messages_in i') = [("t", None)] ∧
  (∀ r, r ∈ messages_in i' → in_series "t" r = true → is_live r = false ∧ mi_recurrence r = None).
Proof.
  split; [vm_compute; reflexivity|].
  apply (cancel_is_final next_day tag "t" [HSync; HRecur 5; HResume "t"; HRecur 9] daily_db emptyOutbound).
  - apply (insertTask_in_ok 0 daily emptyInbound). split_and!; [apply NoDup_nil_2..|].
    intros r Hr. by apply not_elem_of_nil in Hr.
  - split_and!; [apply NoDup_nil_2..|]. intros r Hr. by apply not_elem_of_nil in Hr.
  - eexists. split; [left|reflexivity].
  - intros r Hr. apply list_elem_of_singleton in Hr. subst. by intros _ H.
  - reflexivity.
Defined.

(** What [cancelTask] misses: an occurrence that has completed but whose
    next run the sweep has not inserted yet keeps its recurrence, so a cancel
    that lands there matches no row and the next sweep schedules the task
    again. *)
Theorem cancel_misses_completed :
  let ran := (syncProcessingAcks (mkOutboundDb [] [mkAckRow "t" ACompleted 1] None) daily_db).2 in
  let cancelled := (cancelTask "t" ran).2 in
  let swept := (handleRecurrence next_day tag 1000 cancelled).2 in
  map mi_status (messages_in cancelled) = [RCompleted] ∧
  map (λ r, (mi_status r, mi_series_id r, mi_process_after r)) (messages_in swept) =
    [(RCompleted, Some "t", Some (TIso 0)); (RPending, Some "t", Some (TIso 86401000))].
Proof. vm_compute. done. Qed.

(** ** Recurring *)

Definition recurs (s : option string) (r : MessageIn) : bool :=
  sql_is (mi_series_id r) s && negb (sql_is (mi_recurrence r) None).
(** The rows of series [s] that carry its recurrence. *)
Definition carriers (s : option string) (d : InboundDb) : nat := sql_changes (recurs s) (messages_in d).

Lemma sql_changes_app {R} (p : R → bool) t1 t2 :
  sql_changes p (t1 ++ t2) = (sql_changes p t1 + sql_changes p t2)%nat.
Proof. unfold sql_changes. by rewrite List.filter_app, length_app. Qed.

Lemma sql_changes_update_key {R K} `{EqDecision K} (key : R → K) (p : R → bool) (f : R → R) t r :
  keys_unique key t → r ∈ t →
  (sql_changes p (sql_update (λ x, bool_decide (key x = key r)) f t) + (if p r then 1 else 0) =
   sql_changes p t + (if p (f r) then 1 else 0))%nat.
Proof.
  unfold keys_unique, sql_changes, sql_update. induction t as [|x t IH]; simpl; [set_solver|].
  intros [Hx Hu]%NoDup_cons [->|Hr]%elem_of_cons.
  - rewrite bool_decide_eq_true_2 by done.
    assert (map (λ r, if bool_decide (key r = key x) then f r else r) t = t) as ->.
    { clear IH Hu. induction t as [|y t IH]; [done|]. simpl in *.
      rewrite bool_decide_eq_false_2 by set_solver. f_equal. apply IH. set_solver. }
    destruct (p (f x)), (p x); simpl; lia.
  - rewrite bool_decide_eq_false_2 by (intros E; apply Hx; rewrite E; by apply list_elem_of_fmap_2).
    specialize (IH Hu Hr). destruct (p x); simpl; lia.
Qed.

Lemma insert_row_ok_inv r d u d' :
  insert_row r d = (Ok u, d') →
  d' = set_messages_in (messages_in d ++ [r]) d ∧ ∀ x, x ∈ messages_in d → mi_id x ≠ mi_id r.
Proof.
  rewrite insert_row_eq. destruct_if; [done|]. intros [= <- <-]. split; [done|]. intros x Hx E.
  pose proof (proj1 (sql_exists_false _ _) Heqb x Hx) as H. cbn in H. by to_prop.
Qed.
Lemma insert_row_throw r d e d' : insert_row r d = (Throw e, d') → d' = d.
Proof. rewrite insert_row_eq. destruct_if; congruence. Qed.

Lemma recur_one_advances cron rnd now msg d t :
  cron (default "" (mi_recurrence msg)) now = Some t →
  (∀ x, x ∈ messages_in d → mi_id x ≠ recurrence_id rnd now msg) →
  let new := mkMessageIn (recurrence_id rnd now msg) (nextEvenSeq d) (mi_kind msg)
       (TSql (sql_now now)) RPending (Some (TIso t)) (mi_recurrence msg) (mi_series_id msg) 0 true
       (mi_platform_id msg) (mi_channel_type msg) (mi_thread_id msg) (mi_content msg)
       None None None in
  recur_one cron rnd now msg d =
  (Ok tt, set_messages_in
     (sql_update (has_id (mi_id msg)) (with_recurrence None) (messages_in d ++ [new])) d).
Proof.
  intros Hc Hno new. unfold recur_one, try_catch. rewrite Hc. unfold insertRecurrence.
  unfold bind at 1 2. unfold gets at 1. cbn beta iota. fold new. rewrite insert_row_eq.
  assert (sql_exists (λ r', bool_decide (mi_id r' = mi_id new) || bool_decide (mi_seq r' = mi_seq new))
            (messages_in d) = false) as ->; [|done].
  apply sql_exists_false. intros r Hr. rewrite bool_decide_eq_false_2 by by apply Hno. simpl.
  apply bool_decide_eq_false_2. pose proof (nextEvenSeq_fresh d r Hr). simpl. lia.
Qed.

(** One turn of the loop: nothing happens, or the recurrence moves from [msg]
    to a new pending row of its series. *)
Lemma recur_one_cases cron rnd now msg d :
  let d' := (recur_one cron rnd now msg d).2 in
  (recur_one cron rnd now msg d).1 = Ok tt ∧
  (d' = d ∨
   ∃ t, cron (default "" (mi_recurrence msg)) now = Some t ∧
     let new := mkMessageIn (recurrence_id rnd now msg) (nextEvenSeq d) (mi_kind msg)
       (TSql (sql_now now)) RPending (Some (TIso t)) (mi_recurrence msg) (mi_series_id msg) 0 true
       (mi_platform_id msg) (mi_channel_type msg) (mi_thread_id msg) (mi_content msg)
       None None None in
     (∀ x, x ∈ messages_in d → mi_id x ≠ mi_id new) ∧
     messages_in d' = sql_update (has_id (mi_id msg)) (with_recurrence None) (messages_in d ++ [new])).
Proof.
  cbn zeta. destruct (cron (default "" (mi_recurrence msg)) now) as [t|] eqn:Hc.
  2: { unfold recur_one, try_catch. rewrite Hc. by auto. }
  destruct (sql_exists (λ x, bool_decide (mi_id x = recurrence_id rnd now msg)) (messages_in d)) eqn:E.
  - assert (recur_one cron rnd now msg d = (Ok tt, d)) as ->; [|by auto].
    unfold recur_one, try_catch. rewrite Hc. unfold insertRecurrence.
    unfold bind at 1 2. unfold gets at 1. cbn beta iota. rewrite insert_row_eq.
    apply sql_exists_true in E as (x & Hx & Hid). apply bool_decide_eq_true in Hid.
    destruct_if; [done|].
    pose proof (proj1 (sql_exists_false _ _) Heqb x Hx) as H. cbn in H. by to_prop.
  - assert (∀ x, x ∈ messages_in d → mi_id x ≠ recurrence_id rnd now msg) as Hno.
    { intros x Hx Heq. pose proof (proj1 (sql_exists_false _ _) E x Hx) as H. cbn in H. by to_prop. }
    rewrite (recur_one_advances cron rnd now msg d t Hc Hno). split; [done|right].
    exists t. split_and!; done.
Qed.

Lemma recur_one_carriers cron rnd now msg d s :
  keys_unique mi_id (messages_in d) → msg ∈ messages_in d → mi_recurrence msg ≠ None →
  let d' := (recur_one cron rnd now msg d).2 in
  keys_unique mi_id (messages_in d') ∧ carriers s d' = carriers s d ∧
  (∀ x, x ∈ messages_in d → mi_id x ≠ mi_id msg → x ∈ messages_in d').
Proof.
  intros Hu Hm Hr. cbn zeta.
  destruct (recur_one_cases cron rnd now msg d) as [_ [->|(t & _ & Hno & E)]]; [done|].
  set (new := mkMessageIn _ _ _ _ _ _ _ _ _ _ _ _ _ _ _ _ _) in *.
  assert (keys_unique mi_id (messages_in d ++ [new])) as Hu1 by by apply keys_unique_insert.
  assert (msg ∈ messages_in d ++ [new]) as Hm1 by (apply elem_of_app; by left).
  unfold carriers. rewrite E. split_and!.
  - by apply keys_unique_update.
  - pose proof (sql_changes_update_key mi_id (recurs s) (with_recurrence None) _ msg Hu1 Hm1) as H.
    fold (has_id (mi_id msg)) in H. rewrite sql_changes_app in H.
    assert (recurs s (with_recurrence None msg) = false) as E0.
    { unfold recurs. simpl. by rewrite andb_false_r. }
    assert (sql_changes (recurs s) [new] = if recurs s msg then 1%nat else 0%nat) as E1.
    { unfold sql_changes. simpl. change (recurs s new) with (recurs s msg). by destruct_if. }
    rewrite E0, E1 in H. destruct (recurs s msg); lia.
  - intros x Hx Hne. apply elem_of_sql_update. exists x. split; [apply elem_of_app; by left|].
    unfold has_id. by rewrite bool_decide_eq_false_2.
Qed.

Lemma filter_keys_unique {R K} (key : R → K) (p : R → bool) t :
  keys_unique key t → keys_unique key (sql_where p t).
Proof.
  intros H. apply (keys_unique_delete key (λ r, negb (p r))) in H. revert H. unfold sql_delete, sql_where.
  assert (List.filter (λ r, negb (negb (p r))) t = List.filter p t) as ->; [|done].
  induction t as [|x t IH]; simpl; [done|]. rewrite negb_involutive. by rewrite IH.
Qed.

Lemma recur_loop cron rnd now l d :
  keys_unique mi_id (messages_in d) → keys_unique mi_id l →
  (∀ m, m ∈ l → m ∈ messages_in d ∧ mi_recurrence m ≠ None) →
  let res := for_each l (recur_one cron rnd now) d in
  res.1 = Ok tt ∧ keys_unique mi_id (messages_in res.2) ∧ ∀ s, carriers s res.2 = carriers s d.
Proof.
  revert d. induction l as [|m l IH]; intros d Hu Hl Hin; [done|]. cbn [for_each]. cbn zeta.
  pose proof (recur_one_cases cron rnd now m d) as [Hok _].
  assert (∀ s, _) as Hc by exact (λ s, recur_one_carriers cron rnd now m d s Hu
    (proj1 (Hin m ltac:(left))) (proj2 (Hin m ltac:(left)))).
  unfold bind. destruct (recur_one cron rnd now m d) as [o d1]. cbn in Hok, Hc. subst o.
  apply NoDup_cons in Hl as [Hml Hl].
  destruct (IH d1) as (H1 & H2 & H3); [apply (Hc None)|done| |].
  - intros x Hx. split; [|apply Hin; by right]. apply (Hc None); [apply Hin; by right|].
    intros E. apply Hml. rewrite <-E. by apply list_elem_of_fmap_2.
  - split_and!; [done..|]. intros s. rewrite H3. apply Hc.
Qed.

(** The sweep neither loses nor forks a recurring series: whichever
    expressions fail to parse and whichever ids collide, it returns, and every
    series has as many rows carrying its recurrence after it as before. *)
Theorem recurrence_conserves_series cron rnd (now : time) (d : InboundDb) (s : option string) :
  keys_unique mi_id (messages_in d) →
  let res := handleRecurrence cron rnd now d in
  res.1 = Ok tt ∧ carriers s res.2 = carriers s d.
Proof.
  intros Hu. unfold handleRecurrence, bind, gets. cbn zeta beta iota.
  destruct (recur_loop cron rnd now (getCompletedRecurring d) d Hu) as (H1 & _ & H3).
  - by apply filter_keys_unique.
  - intros m Hm. apply getCompletedRecurring_elem in Hm. naive_solver.
  - auto.
Qed.

Example recurrence_conserves_series_witness :
  let ran := (syncProcessingAcks (mkOutboundDb [] [mkAckRow "t" ACompleted 1] None) daily_db).2 in
  let res := handleRecurrence next_day tag 1000 ran in
  res.1 = Ok tt ∧ carriers (Some "t") res.2 = carriers (Some "t") ran.
Proof.
  apply (recurrence_conserves_series next_day tag 1000
    (syncProcessingAcks (mkOutboundDb [] [mkAckRow "t" ACompleted 1] None) daily_db).2 (Some "t")).
  apply (bool_decide_unpack _). vm_compute. exact I.
Defined.

(** The rows one successful turn leaves. *)
Definition advanced (d : InboundDb) (msg : MessageIn) (t : time) : Prop :=
  ∃ r, r ∈ messages_in d ∧ mi_status r = RPending ∧ mi_process_after r = Some (TIso t) ∧
    mi_series_id r = mi_series_id msg ∧ mi_recurrence r = mi_recurrence msg ∧
    mi_kind r = mi_kind msg ∧ mi_content r = mi_content msg ∧
    mi_thread_id r = mi_thread_id msg ∧ mi_platform_id r = mi_platform_id msg ∧
    mi_channel_type r = mi_channel_type msg.

Lemma recur_loop_advances cron rnd now (next : MessageIn → time) l d :
  (∀ m, m ∈ l → cron (default "" (mi_recurrence m)) now = Some (next m)) →
  NoDup (map (recurrence_id rnd now) l) → keys_unique mi_id l →
  (∀ m x, m ∈ l → x ∈ messages_in d → mi_id x ≠ recurrence_id rnd now m) →
  (∀ m, m ∈ l → m ∈ messages_in d) →
  let d' := (for_each l (recur_one cron rnd now) d).2 in
  (∀ m, m ∈ l → advanced d' m (next m)) ∧
  (∀ r, r ∈ getCompletedRecurring d' → r ∈ getCompletedRecurring d ∧ mi_id r ∉ map mi_id l) ∧
  (∀ r, r ∈ messages_in d → mi_id r ∉ map mi_id l → r ∈ messages_in d').
Proof.
  revert d. induction l as [|m l IH]; intros d Hc Hn Hk Hf Hin; cbn zeta.
  { split_and!; set_solver. }
  cbn [for_each map] in *. apply NoDup_cons in Hn as [Hm Hn]. apply NoDup_cons in Hk as [Hmk Hk].
  unfold bind. rewrite (recur_one_advances cron rnd now m d (next m));
    [|apply Hc; left|intros x Hx; apply (Hf m x); [left|done]].
  set (new := mkMessageIn _ _ _ _ _ _ _ _ _ _ _ _ _ _ _ _ _).
  set (d1 := set_messages_in _ d).
  assert (∀ x, x ∈ messages_in d1 ↔ ∃ x0, (x0 ∈ messages_in d ∨ x0 = new) ∧
            x = if has_id (mi_id m) x0 then with_recurrence None x0 else x0) as Hd1.
  { intros x. unfold d1. cbn [messages_in set_messages_in]. rewrite elem_of_sql_update.
    setoid_rewrite elem_of_app. setoid_rewrite list_elem_of_singleton. done. }
  assert (mi_id new ≠ mi_id m) as Hnm.
  { intros E. apply (Hf m m); [left|apply Hin; left|]. by rewrite <-E. }
  assert (∀ x, x ∈ messages_in d → mi_id x ≠ mi_id m → x ∈ messages_in d1) as Hkeep.
  { intros x Hx E. apply Hd1. exists x. split; [by left|]. unfold has_id.
    by rewrite bool_decide_eq_false_2. }
  assert (new ∈ messages_in d1) as Hnew.
  { apply Hd1. exists new. split; [by right|]. unfold has_id. by rewrite bool_decide_eq_false_2. }
  destruct (IH d1) as (H1 & H2 & H3); [intros; apply Hc; by right|done|done| | |].
  - intros m' x Hm' (x0 & Hx0 & ->)%Hd1. destruct Hx0 as [Hx0| ->].
    + destruct_if; apply (Hf m' x0); by try right.
    + assert (recurrence_id rnd now m ≠ recurrence_id rnd now m') as E.
      { intros E. apply Hm. rewrite E. by apply list_elem_of_fmap_2. }
      by destruct_if.
  - intros m' Hm'. apply Hkeep; [apply Hin; by right|]. intros E. apply Hmk. rewrite <-E.
    by apply list_elem_of_fmap_2.
  - split_and!.
    + intros m' [->|Hm']%elem_of_cons; [|by apply H1]. exists new.
      split; [|done]. apply H3; [done|]. intros (m'' & E & Hm'')%list_elem_of_fmap.
      apply (Hf m m''); [left|apply Hin; by right|]. by rewrite <-E.
    + intros r Hr. destruct (H2 r Hr) as [Hr1 Hrl]. apply getCompletedRecurring_elem in Hr1 as (Hr1 & Hs & Hrec).
      apply Hd1 in Hr1 as (x0 & Hx0 & E). revert E. destruct_if; intros ->; [done|].
      unfold has_id in *. to_prop. destruct Hx0 as [Hx0| ->]; [|done].
      split; [by apply getCompletedRecurring_elem|]. by intros [|]%elem_of_cons.
    + intros r Hr Hrl. apply not_elem_of_cons in Hrl as [? ?]. apply H3; [|done].
      by apply Hkeep.
Qed.

(** One sweep advances every recurring task that has completed: when each
    expression has a next run and the generated ids are new, each completed
    occurrence is followed by a pending row of its series at that run with the
    same kind, content, address and recurrence, and nothing is left for the
    next sweep to advance again. *)
Theorem recurrence_advances cron rnd (now : time) (next : MessageIn → time) (d : InboundDb) :
  let todo := getCompletedRecurring d in
  keys_unique mi_id (messages_in d) →
  (∀ m, m ∈ todo → cron (default "" (mi_recurrence m)) now = Some (next m)) →
  NoDup (map (recurrence_id rnd now) todo) →
  (∀ m x, m ∈ todo → x ∈ messages_in d → mi_id x ≠ recurrence_id rnd now m) →
  let d' := (handleRecurrence cron rnd now d).2 in
  (∀ m, m ∈ todo → advanced d' m (next m)) ∧ getCompletedRecurring d' = [].
Proof.
  intros todo Hu Hc Hn Hf. unfold handleRecurrence, bind, gets. cbn zeta beta iota. fold todo.
  destruct (recur_loop_advances cron rnd now next todo d) as (H1 & H2 & _); [done|done| |done| |].
  - by apply filter_keys_unique.
  - intros m Hm. by apply getCompletedRecurring_elem in Hm as [? _].
  - split; [done|]. apply elem_of_nil_inv. intros r Hr. destruct (H2 r Hr) as [Ht Hl].
    apply Hl. by apply list_elem_of_fmap_2.
Qed.

Example recurrence_advances_witness :
  let ran := (syncProcessingAcks (mkOutboundDb [] [mkAckRow "t" ACompleted 1] None) daily_db).2 in
  let d' := (handleRecurrence next_day tag 1000 ran).2 in
  (∀ m, m ∈ getCompletedRecurring ran → advanced d' m 86401000) ∧ getCompletedRecurring d' = [].
Proof.
  apply (recurrence_advances next_day tag 1000 (λ _, 86401000)
    (syncProcessingAcks (mkOutboundDb [] [mkAckRow "t" ACompleted 1] None) daily_db).2).
  - apply (bool_decide_unpack _). vm_compute. exact I.
  - reflexivity.
  - apply (bool_decide_unpack _). vm_compute. exact I.
  - vm_compute. intros m x Hm Hx. apply list_elem_of_singleton in Hm, Hx. subst. by vm_compute.
Defined.
