(* ===== verification/Sessions.v ===== *)
(** * Sessions, questions and approvals (src/db/sessions.ts)

    The rows that say which session a message belongs to.  A [SELECT] without
    an order returns the first row in insertion order. *)
From S2P Require Import Prelude JsString Json Types Central.

Local Open Scope string_scope.
Local Open Scope Z_scope.
Local Open Scope list_scope.

(** ** Sessions *)

(** Nullish [root_session_id], [spawn_depth] and the rest are filled in. *)
(*@ src/src/db/sessions.ts 6-19 createSession *)
Definition createSession (session : Session) : dbM unit :=
  let row := mkSession (s_id session) (s_agent_group_id session) (s_messaging_group_id session)
    (s_thread_id session) (s_owner_user_id session)
    (Some (default (s_id session) (s_root_session_id session)))
    (s_conversation_thread_id session) (s_agent_provider session) (s_status session)
    (s_container_status session) (s_last_active session) (s_archived_at session)
    (s_spawn_depth session) (s_created_at session) in
  let* ok := query (λ db,
    negb (sql_exists (λ r, bool_decide (s_id r = s_id session)) (sessions db)) &&
    fk ag_id (agent_groups db) (Some (s_agent_group_id session)) &&
    fk mg_id (messaging_groups db) (s_messaging_group_id session)) in
  if ok : bool then modify (λ db, set_sessions (sessions db ++ [row]) db)
  else throw (SqliteConstraint "sessions").

(*@ src/src/db/sessions.ts 21-23 getSession *)
Definition getSession (id : string) (db : CentralDb) : option Session :=
  sql_first (λ s, bool_decide (s_id s = id)) (sessions db).

Definition with_conversation (c : string) (s : Session) : Session :=
  mkSession (s_id s) (s_agent_group_id s) (s_messaging_group_id s) (s_thread_id s)
    (s_owner_user_id s) (s_root_session_id s) (Some c) (s_agent_provider s) (s_status s)
    (s_container_status s) (s_last_active s) (s_archived_at s) (s_spawn_depth s) (s_created_at s).

(*@ src/src/db/sessions.ts 31-33 setSessionConversationThreadId *)
Definition setSessionConversationThreadId (sessionId conversationThreadId : string) : dbM unit :=
  modify (λ db, set_sessions
    (sql_update (λ s, bool_decide (s_id s = sessionId)) (with_conversation conversationThreadId)
       (sessions db)) db).

Definition is_active (s : Session) : bool := bool_decide (s_status s = active).

(** [thread_id = ?] when a thread is given, [thread_id IS NULL] otherwise. *)
Definition thread_matches (threadId : option string) (s : Session) : bool :=
  if truthy threadId then sql_eq (s_thread_id s) threadId else sql_is (s_thread_id s) None.

(*@ src/src/db/sessions.ts 35-48 findSession *)
Definition findSession (messagingGroupId : string) (threadId : option string) (db : CentralDb)
    : option Session :=
  sql_first (λ s, sql_eq (s_messaging_group_id s) (Some messagingGroupId) &&
                  thread_matches threadId s && sql_is (s_owner_user_id s) None && is_active s)
    (sessions db).

(*@ src/src/db/sessions.ts 56-73 findSessionForAgent *)
Definition findSessionForAgent (agentGroupId messagingGroupId : string) (threadId : option string)
    (db : CentralDb) : option Session :=
  sql_first (λ s, bool_decide (s_agent_group_id s = agentGroupId) &&
                  sql_eq (s_messaging_group_id s) (Some messagingGroupId) &&
                  thread_matches threadId s && sql_is (s_owner_user_id s) None && is_active s)
    (sessions db).

(*@ src/src/db/sessions.ts 81-99 findSessionForAgentOwner *)
Definition findSessionForAgentOwner (agentGroupId messagingGroupId ownerUserId : string)
    (threadId : option string) (db : CentralDb) : option Session :=
  sql_first (λ s, bool_decide (s_agent_group_id s = agentGroupId) &&
                  sql_eq (s_messaging_group_id s) (Some messagingGroupId) &&
                  sql_eq (s_owner_user_id s) (Some ownerUserId) &&
                  thread_matches threadId s && is_active s)
    (sessions db).

(** [ORDER BY created_at DESC LIMIT 1] *)
Definition newest (p : Session → bool) (db : CentralDb) : option Session :=
  sql_first_by (λ a b, s_created_at b <? s_created_at a) (sql_where p (sessions db)).

(*@ src/src/db/sessions.ts 102-106 findSessionByAgentGroup *)
Definition findSessionByAgentGroup (agentGroupId : string) (db : CentralDb) : option Session :=
  newest (λ s, bool_decide (s_agent_group_id s = agentGroupId) && is_active s) db.

(*@ src/src/db/sessions.ts 114-120 findNewestOwnedSessionForAgent *)
Definition findNewestOwnedSessionForAgent (agentGroupId ownerUserId : string) (db : CentralDb)
    : option Session :=
  newest (λ s, bool_decide (s_agent_group_id s = agentGroupId) &&
               sql_eq (s_owner_user_id s) (Some ownerUserId) && is_active s) db.

(*@ src/src/db/sessions.ts 127-133 findNewestOwnerlessSessionForAgent *)
Definition findNewestOwnerlessSessionForAgent (agentGroupId : string) (db : CentralDb)
    : option Session :=
  newest (λ s, bool_decide (s_agent_group_id s = agentGroupId) &&
               sql_is (s_owner_user_id s) None && is_active s) db.

(*@ src/src/db/sessions.ts 135-141 findSessionForAgentRoot *)
Definition findSessionForAgentRoot (agentGroupId rootSessionId : string) (db : CentralDb)
    : option Session :=
  newest (λ s, bool_decide (s_agent_group_id s = agentGroupId) &&
               sql_eq (s_root_session_id s) (Some rootSessionId) && is_active s) db.

(*@ src/src/db/sessions.ts 143-145 getSessionsByAgentGroup *)
Definition getSessionsByAgentGroup (agentGroupId : string) (db : CentralDb) : list Session :=
  sql_where (λ s, bool_decide (s_agent_group_id s = agentGroupId)) (sessions db).

(*@ src/src/db/sessions.ts 147-149 getActiveSessions *)
Definition getActiveSessions (db : CentralDb) : list Session := sql_where is_active (sessions db).

(*@ src/src/db/sessions.ts 157-159 getAllSessions *)
Definition getAllSessions (db : CentralDb) : list Session := sessions db.

(** [COALESCE(last_active, created_at)] *)
Definition idle_since (s : Session) : time := default (s_created_at s) (s_last_active s).

(*@ src/src/db/sessions.ts 178-189 findArchivableSessions *)
Definition findArchivableSessions (before : time) (limit : nat) (db : CentralDb) : list Session :=
  take limit (sql_order_by (λ a b, idle_since a <? idle_since b)
    (sql_where (λ s, is_active s && bool_decide (s_container_status s = stopped) &&
                     (idle_since s <? before)) (sessions db))).

(*@ src/src/db/sessions.ts 198-209 findArchivedSessionsOlderThan *)
Definition findArchivedSessionsOlderThan (before : time) (limit : nat) (db : CentralDb)
    : list Session :=
  take limit (sql_order_by (λ a b, default 0 (s_archived_at a) <? default 0 (s_archived_at b))
    (sql_where (λ s, bool_decide (s_status s = archived) &&
                     match s_archived_at s with Some t => t <? before | None => false end)
       (sessions db))).

(** The three counts, in the order of the union. *)
(*@ src/src/db/sessions.ts 212-217 countSessionsByStatus *)
Definition countSessionsByStatus (db : CentralDb) : list (SessionStatus * nat) :=
  List.filter (λ p, negb (p.2 =? 0)%nat)
    (map (λ st, (st, sql_changes (λ s, bool_decide (s_status s = st)) (sessions db)))
       [active; archived; closed]).

(*@ src/src/db/sessions.ts 219-221 getRunningSessions *)
Definition getRunningSessions (db : CentralDb) : list Session :=
  sql_where (λ s, bool_decide (s_container_status s = running) ||
                  bool_decide (s_container_status s = idle)) (sessions db).

(** The fields of the [updates] object; an absent one is [None]. *)
Record SessionUpdate := mkSessionUpdate {
  up_status : option SessionStatus;
  up_container_status : option ContainerStatus;
  up_last_active : option (option time);
  up_agent_provider : option (option string);
  up_archived_at : option (option time) }.
Definition no_update : SessionUpdate := mkSessionUpdate None None None None None.

Definition apply_session_update (u : SessionUpdate) (s : Session) : Session :=
  mkSession (s_id s) (s_agent_group_id s) (s_messaging_group_id s) (s_thread_id s)
    (s_owner_user_id s) (s_root_session_id s) (s_conversation_thread_id s)
    (default (s_agent_provider s) (up_agent_provider u)) (default (s_status s) (up_status u))
    (default (s_container_status s) (up_container_status u))
    (default (s_last_active s) (up_last_active u)) (default (s_archived_at s) (up_archived_at u))
    (s_spawn_depth s) (s_created_at s).

(** With no field set the source returns early; the update is the identity. *)
(*@ src/src/db/sessions.ts 223-241 updateSession *)
Definition updateSession (id : string) (u : SessionUpdate) : dbM unit :=
  modify (λ db, set_sessions
    (sql_update (λ s, bool_decide (s_id s = id)) (apply_session_update u) (sessions db)) db).

(** A row that still references the session blocks the second statement: the
    questions are gone by then, the approvals are not. *)
(*@ src/src/db/sessions.ts 252-258 deleteSession *)
Definition deleteSession (id : string) : dbM unit :=
  transaction
    (modify (λ db, set_pending_questions
       (sql_delete (λ q, bool_decide (pq_session_id q = id)) (pending_questions db)) db) ;;
     let* used := query (λ db,
       sql_exists (λ s, bool_decide (s_id s = id)) (sessions db) &&
       (sql_exists (λ q, bool_decide (pq_session_id q = id)) (pending_questions db) ||
        sql_exists (λ a, sql_eq (pa_session_id a) (Some id)) (pending_approvals db))) in
     if used : bool then throw (SqliteConstraint "sessions")
     else modify (λ db, set_sessions
            (sql_delete (λ s, bool_decide (s_id s = id)) (sessions db)) db)).

(** ** Pending questions *)

(** [INSERT OR IGNORE]: a taken id inserts nothing; a missing session is a
    foreign-key error, which IGNORE does not cover. *)
(*@ src/src/db/sessions.ts 268-286 createPendingQuestion *)
Definition createPendingQuestion (pq : PendingQuestion) : dbM bool :=
  let* taken := query (λ db,
    sql_exists (λ r, bool_decide (pq_question_id r = pq_question_id pq)) (pending_questions db)) in
  if taken : bool then ret false
  else
    let* ok := query (λ db, fk s_id (sessions db) (Some (pq_session_id pq))) in
    if ok : bool then
      modify (λ db, set_pending_questions (pending_questions db ++ [pq]) db) ;;
      ret true
    else throw (SqliteConstraint "pending_questions").

(*@ src/src/db/sessions.ts 288-294 getPendingQuestion *)
Definition getPendingQuestion (questionId : string) (db : CentralDb) : option PendingQuestion :=
  sql_first (λ r, bool_decide (pq_question_id r = questionId)) (pending_questions db).

(*@ src/src/db/sessions.ts 296-298 deletePendingQuestion *)
Definition deletePendingQuestion (questionId : string) : dbM unit :=
  modify (λ db, set_pending_questions
    (sql_delete (λ r, bool_decide (pq_question_id r = questionId)) (pending_questions db)) db).

(*@ src/src/db/sessions.ts 308-311 deleteStalePendingQuestions *)
Definition deleteStalePendingQuestions (olderThanMs : Z) (now : time) : dbM nat :=
  let stale r := pq_created_at r <? now - olderThanMs in
  let* n := query (λ db, sql_changes stale (pending_questions db)) in
  modify (λ db, set_pending_questions (sql_delete stale (pending_questions db)) db) ;;
  ret n.

(*@ src/src/db/sessions.ts 325-334 findCancelablePendingQuestions *)
Definition findCancelablePendingQuestions (userId : string) (db : CentralDb) : list PendingQuestion :=
  sql_where (λ q, sql_exists (λ s, bool_decide (s_id s = pq_session_id q) &&
                                   sql_eq (s_owner_user_id s) (Some userId) && is_active s)
                    (sessions db)) (pending_questions db).

(** ** Pending approvals *)

(** [pa] with its defaults filled in; a missing session or agent group is a
    foreign-key error. *)
(*@ src/src/db/sessions.ts 343-372 createPendingApproval *)
Definition createPendingApproval (pa : PendingApproval) : dbM bool :=
  let* taken := query (λ db,
    sql_exists (λ r, bool_decide (pa_approval_id r = pa_approval_id pa)) (pending_approvals db)) in
  if taken : bool then ret false
  else
    let* ok := query (λ db, fk s_id (sessions db) (pa_session_id pa) &&
                            fk ag_id (agent_groups db) (pa_agent_group_id pa)) in
    if ok : bool then
      modify (λ db, set_pending_approvals (pending_approvals db ++ [pa]) db) ;;
      ret true
    else throw (SqliteConstraint "pending_approvals").

(*@ src/src/db/sessions.ts 374-377 getPendingApproval *)
Definition getPendingApproval (approvalId : string) (db : CentralDb) : option PendingApproval :=
  sql_first (λ r, bool_decide (pa_approval_id r = approvalId)) (pending_approvals db).

Definition with_approval_status (st : ApprovalStatus) (p : PendingApproval) : PendingApproval :=
  mkPendingApproval (pa_approval_id p) (pa_session_id p) (pa_request_id p) (pa_action p)
    (pa_payload p) (pa_created_at p) (pa_agent_group_id p) (pa_channel_type p) (pa_platform_id p)
    (pa_platform_message_id p) (pa_expires_at p) st (pa_title p) (pa_options p).

(*@ src/src/db/sessions.ts 379-381 updatePendingApprovalStatus *)
Definition updatePendingApprovalStatus (approvalId : string) (status : ApprovalStatus) : dbM unit :=
  modify (λ db, set_pending_approvals
    (sql_update (λ r, bool_decide (pa_approval_id r = approvalId)) (with_approval_status status)
       (pending_approvals db)) db).

(*@ src/src/db/sessions.ts 383-385 deletePendingApproval *)
Definition deletePendingApproval (approvalId : string) : dbM unit :=
  modify (λ db, set_pending_approvals
    (sql_delete (λ r, bool_decide (pa_approval_id r = approvalId)) (pending_approvals db)) db).

(*@ src/src/db/sessions.ts 387-389 getPendingApprovalsByAction *)
Definition getPendingApprovalsByAction (action : string) (db : CentralDb) : list PendingApproval :=
  sql_where (λ r, bool_decide (pa_action r = action)) (pending_approvals db).

(** The rows as they were selected, before the update. *)
(*@ src/src/db/sessions.ts 399-414 expireStalePendingApprovals *)
Definition expireStalePendingApprovals (olderThanMs : Z) (now : time) : dbM (list PendingApproval) :=
  let* rows := query (λ db, sql_where (λ r, bool_decide (pa_status r = ApPending) &&
                                            (pa_created_at r <? now - olderThanMs))
                              (pending_approvals db)) in
  for_each rows (λ r, updatePendingApprovalStatus (pa_approval_id r) ApExpired) ;;
  ret rows.

(** ** Deletion of a session something refers to *)

Lemma deleteSession_blocked db id request :
  request ∈ pending_approvals db → pa_session_id request = Some id → is_Some (getSession id db) →
  deleteSession id db = (Throw (SqliteConstraint "sessions"), db).
Proof.
  intros Hr Hid Hs. unfold deleteSession, transaction, bind, modify, query, gets. cbn.
  assert (existsb (λ s, bool_decide (s_id s = id)) (sessions db) = true) as ->.
  { destruct Hs as [s [Hi E]%sql_first_Some]. apply existsb_exists. exists s.
    split; [by apply list_elem_of_In|done]. }
  assert (existsb (λ a, sql_eq (pa_session_id a) (Some id)) (pending_approvals db) = true) as ->.
  { apply existsb_exists. exists request. split; [by apply list_elem_of_In|]. rewrite Hid. cbn.
    by apply bool_decide_eq_true. }
  by rewrite orb_true_r.
Qed.
