(* ===== verification/Destinations.v ===== *)
(** * Destinations and wirings (src/modules/agent-to-agent/db/agent-destinations.ts,
    src/db/messaging-groups.ts)

    A destination row is both a route and a permission: the agent may send to
    the target, and calls it by its local name. *)
From S2P Require Import Prelude JsString Json Types Central Permissions.
From stdpp Require Import pretty.
From Stdlib Require Import Ascii.

Local Open Scope string_scope.
Local Open Scope Z_scope.
Local Open Scope list_scope.
Local Open Scope prog_scope.

(** ** agent_destinations *)

Definition is_dest (agentGroupId localName : string) (d : AgentDestination) : bool :=
  bool_decide (ad_agent_group_id d = agentGroupId) && bool_decide (ad_local_name d = localName).
Definition is_target (agentGroupId : string) (ty : TargetType) (targetId : string)
    (d : AgentDestination) : bool :=
  bool_decide (ad_agent_group_id d = agentGroupId) && bool_decide (ad_target_type d = ty) &&
  bool_decide (ad_target_id d = targetId).

(** Both organizations are known and differ. *)
Definition crosses_org (db : CentralDb) (a b : string) : bool :=
  match orgOfAgentGroup db a, orgOfAgentGroup db b with
  | Some x, Some y => negb (bool_decide (x = y))
  | _, _ => false
  end.

(*@ src/src/modules/agent-to-agent/db/agent-destinations.ts 45-65 createDestination *)
Definition createDestination (row : AgentDestination) : dbM unit :=
  let* cross := query (λ db, bool_decide (ad_target_type row = TargetAgent) &&
                             crosses_org db (ad_agent_group_id row) (ad_target_id row)) in
  if cross : bool then throw (Err "cross-org destination refused (ADR-0052)")
  else
    let* clash := query (λ db, sql_exists (is_dest (ad_agent_group_id row) (ad_local_name row))
                                 (agent_destinations db)) in
    if clash : bool then throw (SqliteConstraint "agent_destinations")
    else modify (λ db, set_agent_destinations (agent_destinations db ++ [row]) db).

(*@ src/src/modules/agent-to-agent/db/agent-destinations.ts 67-71 getDestinations *)
Definition getDestinations (agentGroupId : string) (db : CentralDb) : list AgentDestination :=
  sql_where (λ d, bool_decide (ad_agent_group_id d = agentGroupId)) (agent_destinations db).

(*@ src/src/modules/agent-to-agent/db/agent-destinations.ts 73-77 getDestinationByName *)
Definition getDestinationByName (agentGroupId localName : string) (db : CentralDb)
    : option AgentDestination :=
  sql_first (is_dest agentGroupId localName) (agent_destinations db).

(*@ src/src/modules/agent-to-agent/db/agent-destinations.ts 80-88 getDestinationByTarget *)
Definition getDestinationByTarget (agentGroupId : string) (ty : TargetType) (targetId : string)
    (db : CentralDb) : option AgentDestination :=
  sql_first (is_target agentGroupId ty targetId) (agent_destinations db).

(*@ src/src/modules/agent-to-agent/db/agent-destinations.ts 91-96 hasDestination *)
Definition hasDestination (agentGroupId : string) (ty : TargetType) (targetId : string)
    (db : CentralDb) : bool :=
  sql_exists (is_target agentGroupId ty targetId) (agent_destinations db).

(*@ src/src/modules/agent-to-agent/db/agent-destinations.ts 103-107 deleteDestination *)
Definition deleteDestination (agentGroupId localName : string) : dbM unit :=
  modify (λ db, set_agent_destinations
    (sql_delete (is_dest agentGroupId localName) (agent_destinations db)) db).

(*@ src/src/modules/agent-to-agent/db/agent-destinations.ts 119-123 deleteAllDestinationsTouching *)
Definition deleteAllDestinationsTouching (agentGroupId : string) : dbM unit :=
  modify (λ db, set_agent_destinations
    (sql_delete (λ d, bool_decide (ad_agent_group_id d = agentGroupId) ||
                      (bool_decide (ad_target_type d = TargetAgent) &&
                       bool_decide (ad_target_id d = agentGroupId))) (agent_destinations db)) db).

(*@ src/src/modules/agent-to-agent/db/agent-destinations.ts 132-139 getDestinationReferencers *)
Definition getDestinationReferencers (targetAgentGroupId : string) (db : CentralDb) : list string :=
  remove_dups (map ad_agent_group_id
    (sql_where (λ d, bool_decide (ad_target_type d = TargetAgent) &&
                     bool_decide (ad_target_id d = targetAgentGroupId) &&
                     negb (bool_decide (ad_agent_group_id d = targetAgentGroupId)))
       (agent_destinations db))).

(** [[a-z0-9]] *)
Definition name_char (c : ascii) : bool :=
  let n := nat_of_ascii c in
  ((97 <=? n) && (n <=? 122))%nat || ((48 <=? n) && (n <=? 57))%nat.

(** [s.replace(/[^a-z0-9]+/g, '-')] on the letters of [s]; [run] says that the
    last letter was in a run being replaced. *)
Fixpoint dash_runs (run : bool) (s : string) : string :=
  match s with
  | EmptyString => EmptyString
  | String c s' =>
      if name_char c then String c (dash_runs false s')
      else if run then dash_runs true s'
      else String "-" (dash_runs true s')
  end.

Fixpoint strip_dashes (s : string) : string :=
  match s with
  | String "-" s' => strip_dashes s'
  | _ => s
  end.
Fixpoint rev_string (s acc : string) : string :=
  match s with
  | EmptyString => acc
  | String c s' => rev_string s' (String c acc)
  end.

(*@ src/src/modules/agent-to-agent/db/agent-destinations.ts 142-149 normalizeName *)
Definition normalizeName (name : string) : string :=
  let s := dash_runs false (toLowerCase name) in
  let s1 := strip_dashes s in
  let s2 := rev_string (strip_dashes (rev_string s1 "")) "" in
  if bool_decide (s2 = "") then "unnamed" else s2.

(** ** messaging_groups *)

(** A new group carries no [denied_at]. *)
(*@ src/src/db/messaging-groups.ts 21-28 createMessagingGroup *)
Definition createMessagingGroup (g : MessagingGroup) : dbM unit :=
  let row := mkMessagingGroup (mg_id g) (mg_channel_type g) (mg_platform_id g) (mg_name g)
    (mg_is_group g) (mg_unknown_sender_policy g) None (mg_created_at g) in
  let* clash := query (λ db, sql_exists (λ r,
    bool_decide (mg_id r = mg_id g) ||
    (bool_decide (mg_channel_type r = mg_channel_type g) &&
     bool_decide (mg_platform_id r = mg_platform_id g))) (messaging_groups db)) in
  if clash : bool then throw (SqliteConstraint "messaging_groups")
  else modify (λ db, set_messaging_groups (messaging_groups db ++ [row]) db).

(*@ src/src/db/messaging-groups.ts 30-32 getMessagingGroup *)
Definition getMessagingGroup (id : string) (db : CentralDb) : option MessagingGroup :=
  sql_first (λ r, bool_decide (mg_id r = id)) (messaging_groups db).

Definition on_platform (channelType platformId : string) (r : MessagingGroup) : bool :=
  bool_decide (mg_channel_type r = channelType) && bool_decide (mg_platform_id r = platformId).

(*@ src/src/db/messaging-groups.ts 34-38 getMessagingGroupByPlatform *)
Definition getMessagingGroupByPlatform (channelType platformId : string) (db : CentralDb)
    : option MessagingGroup :=
  sql_first (on_platform channelType platformId) (messaging_groups db).

(*@ src/src/db/messaging-groups.ts 53-69 getMessagingGroupWithAgentCount *)
Definition getMessagingGroupWithAgentCount (channelType platformId : string) (db : CentralDb)
    : option (MessagingGroup * nat) :=
  match sql_first (on_platform channelType platformId) (messaging_groups db) with
  | None => None
  | Some mg => Some (mg, sql_changes (λ a, bool_decide (mga_messaging_group_id a = mg_id mg))
                           (messaging_group_agents db))
  end.

(** NULL names sort first. *)
(*@ src/src/db/messaging-groups.ts 71-73 getAllMessagingGroups *)
Definition getAllMessagingGroups (db : CentralDb) : list MessagingGroup :=
  sql_order_by (λ a b, match mg_name a, mg_name b with
                       | None, Some _ => true
                       | Some x, Some y => String.ltb x y
                       | _, None => false
                       end) (messaging_groups db).

(*@ src/src/db/messaging-groups.ts 75-77 getMessagingGroupsByChannel *)
Definition getMessagingGroupsByChannel (channelType : string) (db : CentralDb) : list MessagingGroup :=
  sql_where (λ r, bool_decide (mg_channel_type r = channelType)) (messaging_groups db).

(*@ src/src/db/messaging-groups.ts 79-97 updateMessagingGroup *)
Definition updateMessagingGroup (id : string) (name : option (option string)) (is_group : option bool)
    (policy : option UnknownSenderPolicy) : dbM unit :=
  modify (λ db, set_messaging_groups
    (sql_update (λ r, bool_decide (mg_id r = id))
       (λ r, mkMessagingGroup (mg_id r) (mg_channel_type r) (mg_platform_id r)
               (default (mg_name r) name) (default (mg_is_group r) is_group)
               (default (mg_unknown_sender_policy r) policy) (mg_denied_at r) (mg_created_at r))
       (messaging_groups db)) db).

(** The rows of the modelled tables that reference the group keep it. *)
(*@ src/src/db/messaging-groups.ts 99-101 deleteMessagingGroup *)
Definition deleteMessagingGroup (id : string) : dbM unit :=
  let* used := query (λ db,
    sql_exists (λ r, bool_decide (mg_id r = id)) (messaging_groups db) &&
    (sql_exists (λ r, bool_decide (mga_messaging_group_id r = id)) (messaging_group_agents db) ||
     sql_exists (λ r, bool_decide (ud_messaging_group_id r = id)) (user_dms db) ||
     sql_exists (λ r, sql_eq (s_messaging_group_id r) (Some id)) (sessions db) ||
     sql_exists (λ r, bool_decide (ps_messaging_group_id r = id)) (pending_sender_approvals db) ||
     sql_exists (λ r, bool_decide (pc_messaging_group_id r = id)) (pending_channel_approvals db))) in
  if used : bool then throw (SqliteConstraint "messaging_groups")
  else modify (λ db, set_messaging_groups
         (sql_delete (λ r, bool_decide (mg_id r = id)) (messaging_groups db)) db).

(*@ src/src/db/messaging-groups.ts 113-115 setMessagingGroupDeniedAt *)
Definition setMessagingGroupDeniedAt (id : string) (deniedAt : option time) : dbM unit :=
  modify (λ db, set_messaging_groups
    (sql_update (λ r, bool_decide (mg_id r = id))
       (λ r, mkMessagingGroup (mg_id r) (mg_channel_type r) (mg_platform_id r) (mg_name r)
               (mg_is_group r) (mg_unknown_sender_policy r) deniedAt (mg_created_at r))
       (messaging_groups db)) db).

(** ** messaging_group_agents *)

(** [`${base}-${suffix}`] *)
Definition suffixed (base : string) (suffix : nat) : string :=
  base +:+ "-" +:+ pretty (Z.of_nat suffix).

(** The [while] loop from [localName]: the first free candidate.  The names in
    use are finitely many, so [S (length ...)] turns find one. *)
Fixpoint free_name (fuel : nat) (taken : string → bool) (base : string) (localName : string)
    (suffix : nat) : option string :=
  match fuel with
  | O => None
  | S fuel' => if taken localName then free_name fuel' taken base (suffixed base suffix) (S suffix)
               else Some localName
  end.

(*@ src/src/db/messaging-groups.ts 174-180 localName *)
Definition pick_name (agentGroupId base : string) (db : CentralDb) : option string :=
  free_name (S (length (agent_destinations db)))
    (λ n, bool_decide (is_Some (getDestinationByName agentGroupId n db))) base base 2.

(*@ src/src/db/messaging-groups.ts 132-145 messaging_group_agents *)
Definition insert_wiring (mga : MessagingGroupAgent) : dbM unit :=
  let* ok := query (λ db,
    negb (sql_exists (λ r, bool_decide (mga_id r = mga_id mga) ||
      (bool_decide (mga_messaging_group_id r = mga_messaging_group_id mga) &&
       bool_decide (mga_agent_group_id r = mga_agent_group_id mga))) (messaging_group_agents db)) &&
    fk mg_id (messaging_groups db) (Some (mga_messaging_group_id mga)) &&
    fk ag_id (agent_groups db) (Some (mga_agent_group_id mga))) in
  if ok : bool then modify (λ db, set_messaging_group_agents (messaging_group_agents db ++ [mga]) db)
  else throw (SqliteConstraint "messaging_group_agents").

(*@ src/src/db/messaging-groups.ts 131-189 createMessagingGroupAgent *)
Definition createMessagingGroupAgent (mga : MessagingGroupAgent) : dbM unit :=
  insert_wiring mga ;;
  let* installed := query (λ db, hasTable db "agent_destinations") in
  if negb installed then ret tt
  else
    let* existing := query (getDestinationByTarget (mga_agent_group_id mga) TargetChannel
                              (mga_messaging_group_id mga)) in
    match existing with
    | Some _ => ret tt
    | None =>
        let* mg := query (getMessagingGroup (mga_messaging_group_id mga)) in
        match mg with
        | None => ret tt
        | Some mg =>
            let base := normalizeName
              (default (mg_channel_type mg +:+ "-" +:+ take_string 8 (mga_messaging_group_id mga))
                 (js_or (mg_name mg) None)) in
            let* name := query (pick_name (mga_agent_group_id mga) base) in
            match name with
            | None => throw (Err "out of fuel")
            | Some localName =>
                createDestination (mkAgentDestination (mga_agent_group_id mga) localName TargetChannel
                  (mga_messaging_group_id mga) (mga_created_at mga))
            end
        end
    end.

(*@ src/src/db/messaging-groups.ts 191-195 getMessagingGroupAgents *)
Definition getMessagingGroupAgents (messagingGroupId : string) (db : CentralDb)
    : list MessagingGroupAgent :=
  sql_order_by (λ a b, mga_priority b <? mga_priority a)
    (sql_where (λ r, bool_decide (mga_messaging_group_id r = messagingGroupId))
       (messaging_group_agents db)).

(*@ src/src/db/messaging-groups.ts 197-204 getMessagingGroupAgentByPair *)
Definition getMessagingGroupAgentByPair (messagingGroupId agentGroupId : string) (db : CentralDb)
    : option MessagingGroupAgent :=
  sql_first (λ r, bool_decide (mga_messaging_group_id r = messagingGroupId) &&
                  bool_decide (mga_agent_group_id r = agentGroupId)) (messaging_group_agents db).

(*@ src/src/db/messaging-groups.ts 206-209 getMessagingGroupAgent *)
Definition getMessagingGroupAgent (id : string) (db : CentralDb) : option MessagingGroupAgent :=
  sql_first (λ r, bool_decide (mga_id r = id)) (messaging_group_agents db).

Record WiringUpdate := mkWiringUpdate {
  wu_engage_mode : option EngageMode;
  wu_engage_pattern : option (option string);
  wu_sender_scope : option SenderScope;
  wu_ignored_message_policy : option IgnoredMessagePolicy;
  wu_session_mode : option SessionMode;
  wu_priority : option Z }.

(*@ src/src/db/messaging-groups.ts 211-234 updateMessagingGroupAgent *)
Definition updateMessagingGroupAgent (id : string) (u : WiringUpdate) : dbM unit :=
  modify (λ db, set_messaging_group_agents
    (sql_update (λ r, bool_decide (mga_id r = id))
       (λ r, mkMessagingGroupAgent (mga_id r) (mga_messaging_group_id r) (mga_agent_group_id r)
               (coalesce (wu_engage_mode u) (mga_engage_mode r))
               (default (mga_engage_pattern r) (wu_engage_pattern u))
               (coalesce (wu_sender_scope u) (mga_sender_scope r))
               (coalesce (wu_ignored_message_policy u) (mga_ignored_message_policy r))
               (default (mga_session_mode r) (wu_session_mode u))
               (default (mga_priority r) (wu_priority u)) (mga_created_at r))
       (messaging_group_agents db)) db).

(*@ src/src/db/messaging-groups.ts 236-238 deleteMessagingGroupAgent *)
Definition deleteMessagingGroupAgent (id : string) : dbM unit :=
  modify (λ db, set_messaging_group_agents
    (sql_delete (λ r, bool_decide (mga_id r = id)) (messaging_group_agents db)) db).

(*@ src/src/db/messaging-groups.ts 241-249 getMessagingGroupsByAgentGroup *)
Definition getMessagingGroupsByAgentGroup (agentGroupId : string) (db : CentralDb)
    : list MessagingGroup :=
  flat_map (λ mg, map (λ _, mg)
    (sql_where (λ a, bool_decide (mga_messaging_group_id a = mg_id mg) &&
                     bool_decide (mga_agent_group_id a = agentGroupId)) (messaging_group_agents db)))
    (messaging_groups db).
