(* ===== verification/Fs.v ===== *)
(** * The file system the host and the containers share

    What the modelled code uses of Node's [fs] and [path]: a store of files,
    directories and symbolic links addressed by absolute paths, with the link
    resolution of the kernel (40 links, then ELOOP).  A path is the list of its
    components; [path.join] of an absolute path and plain components is [++]. *)
From Stdlib Require Import Ascii.
From S2P Require Import Prelude JsString Types Central.

Local Open Scope string_scope.
Local Open Scope Z_scope.
Local Open Scope list_scope.

Abbreviation fpath := (list string) (only parsing).

Inductive node :=
| NFile (data : string)
| NDir
| NLink (absolute : bool) (target : list string).
#[export] Instance node_eq : EqDecision node.
Proof. solve_decision. Defined.

Abbreviation Fs := (gmap (list string) node) (only parsing).
Definition fsM (A : Type) : Type := prog (gmap (list string) node) exn A.

Definition parent (p : list string) : list string := removelast p.
Definition basename (p : list string) : string := List.last p "".

(** The real path of [rest] from the real directory [cur], through at most [n]
    links. *)
Fixpoint walk (n : nat) (fs : Fs) : list string → list string → option (list string) :=
  fix go (cur rest : list string) : option (list string) :=
    match rest with
    | [] => Some cur
    | c :: rest' =>
        if bool_decide (c = ".") then go cur rest'
        else if bool_decide (c = "..") then go (parent cur) rest'
        else match fs !! (cur ++ [c]) with
             | None => None
             | Some NDir => go (cur ++ [c]) rest'
             | Some (NFile _) => match rest' with [] => Some (cur ++ [c]) | _ => None end
             | Some (NLink absolute target) =>
                 match n with
                 | O => None
                 | S n' => walk n' fs (if absolute then [] else cur) (target ++ rest')
                 end
             end
    end.

(** [fs.realpathSync]: [None] when it throws. *)
Definition realpath (fs : Fs) (p : list string) : option (list string) := walk 40 fs [] p.

Arguments realpath : simpl never.

(** What is at a real path; the root is a directory. *)
Definition at_real (fs : Fs) (q : list string) : option node :=
  match q with [] => Some NDir | _ => fs !! q end.

(** [fs.existsSync], which follows links. *)
Definition existsSync (fs : Fs) (p : list string) : bool := bool_decide (is_Some (realpath fs p)).

(** [fs.lstatSync]: the links before the last component are followed. *)
Definition lstat (fs : Fs) (p : list string) : option node :=
  match p with
  | [] => Some NDir
  | _ => match realpath fs (parent p) with
         | Some q => fs !! (q ++ [basename p])
         | None => None
         end
  end.

Arguments existsSync : simpl never.
Arguments lstat : simpl never.

Definition is_dir (o : option node) : bool := match o with Some NDir => true | _ => false end.
Definition is_file (o : option node) : bool := match o with Some (NFile _) => true | _ => false end.

(** [fs.mkdirSync(p, { recursive: true })], on the reversed path. *)
Fixpoint mkdirp_rev (rp : list string) : fsM unit :=
  match rp with
  | [] => ret tt
  | c :: rp' =>
      let p := rev rp in
      let* here := gets (λ fs, realpath fs p) in
      match here with
      | Some q =>
          let* dir := gets (λ fs, is_dir (at_real fs q)) in
          if dir : bool then ret tt else throw (Err "EEXIST")
      | None =>
          mkdirp_rev rp' ;;
          let* up := gets (λ fs, realpath fs (rev rp')) in
          match up with
          | None => throw (Err "ENOENT")
          | Some q =>
              let* free := gets (λ fs, bool_decide (fs !! (q ++ [c]) = None) && is_dir (at_real fs q)) in
              if free : bool then modify (λ fs, <[q ++ [c] := NDir]> fs) else throw (Err "EEXIST")
          end
      end
  end.
Definition mkdirp (p : list string) : fsM unit := mkdirp_rev (rev p).

(** [fs.writeFileSync(p, data, { flag: 'wx' })]: exclusive creation, which
    does not follow a link at the last component. *)
Definition write_new (p : list string) (data : string) : fsM unit :=
  let* up := gets (λ fs, realpath fs (parent p)) in
  match up with
  | None => throw (Err "ENOENT")
  | Some q =>
      let* dir := gets (λ fs, is_dir (at_real fs q)) in
      let* taken := gets (λ fs, bool_decide (is_Some (fs !! (q ++ [basename p])))) in
      if negb dir then throw (Err "ENOTDIR")
      else if taken then throw (Err "EEXIST")
      else modify (λ fs, <[q ++ [basename p] := NFile data]> fs)
  end.

(** [fs.writeFileSync(p, data)]: what is there is overwritten, through a link. *)
Definition write_file (p : list string) (data : string) : fsM unit :=
  let* here := gets (λ fs, realpath fs p) in
  match here with
  | None => write_new p data
  | Some q =>
      let* dir := gets (λ fs, is_dir (at_real fs q)) in
      if dir : bool then throw (Err "EISDIR") else modify (λ fs, <[q := NFile data]> fs)
  end.

(** [fs.readFileSync] of a path, following links. *)
Definition readFile (fs : Fs) (p : list string) : option string :=
  match realpath fs p with
  | Some q => match at_real fs q with Some (NFile d) => Some d | _ => None end
  | None => None
  end.

(** [fs.copyFileSync], and [fs.cpSync(src, dst, { recursive: true })] of a
    directory: what is below it is put below [dst], replacing what is there. *)
Definition copy_file (src dst : list string) : fsM unit :=
  let* data := gets (λ fs, readFile fs src) in
  match data with
  | None => throw (Err "ENOENT")
  | Some d => write_file dst d
  end.
Definition cp_r (src dst : list string) : fsM unit :=
  mkdirp dst ;;
  let* q := gets (λ fs, realpath fs src) in
  let* d := gets (λ fs, realpath fs dst) in
  match q, d with
  | Some q, Some d =>
      modify (λ fs, map_fold (λ k v acc, if bool_decide (q `prefix_of` k ∧ q ≠ k)
                                         then <[d ++ drop (length q) k := v]> acc else acc) fs fs)
  | _, _ => throw (Err "ENOENT")
  end.

(** [fs.rmSync(p, { recursive: true, force: true })] of a real path: what is
    at it and below it, links inside being removed and not followed. *)
Definition rm_rf (q : list string) : fsM unit :=
  modify (λ fs, filter (λ kv : list string * node, ¬ (q `prefix_of` kv.1)) fs).

(** ** path *)

(** The components of [path.relative(parent, child)], for real paths. *)
Fixpoint relative (from to : list string) : list string :=
  match from, to with
  | x :: from', y :: to' => if bool_decide (x = y) then relative from' to' else map (λ _, "..") from ++ to
  | [], _ => to
  | _, [] => map (λ _, "..") from
  end.

(** [relative === '' || (!relative.startsWith('..') && !path.isAbsolute(relative))] *)
(*@ src/src/session-manager.ts 44-47 isPathInside *)
Definition isPathInside (parent child : list string) : bool :=
  match relative parent child with
  | [] => true
  | c :: _ => negb (startsWith c "..")
  end.

(** [Buffer.from(s, 'base64')]: characters outside both alphabets are skipped,
    and [=] ends the data. *)
Definition base64_value (c : ascii) : option Z :=
  let n := Z.of_nat (nat_of_ascii c) in
  if (65 <=? n) && (n <=? 90) then Some (n - 65)
  else if (97 <=? n) && (n <=? 122) then Some (n - 71)
  else if (48 <=? n) && (n <=? 57) then Some (n + 4)
  else if (n =? 43) || (n =? 45) then Some 62
  else if (n =? 47) || (n =? 95) then Some 63
  else None.
Fixpoint base64_bits (s : string) (acc bits : Z) : string :=
  match s with
  | EmptyString => EmptyString
  | String c s' =>
      if bool_decide (c = "="%char) then EmptyString
      else match base64_value c with
           | None => base64_bits s' acc bits
           | Some v =>
               let acc := Z.lor (Z.shiftl acc 6) v in
               let bits := bits + 6 in
               if 8 <=? bits then
                 let rest := bits - 8 in
                 String (ascii_of_nat (Z.to_nat (Z.shiftr acc rest)))
                   (base64_bits s' (Z.land acc (Z.ones rest)) rest)
               else base64_bits s' acc bits
           end
  end.
Definition from_base64 (s : string) : string := base64_bits s 0 0.

Example from_base64_ex : from_base64 "aGVsbG8=" = "hello" ∧ from_base64 "aGk" = "hi".
Proof. vm_compute. done. Qed.

(** ** Resolution below a directory without links *)

(** Every prefix of [root] is a directory, and no component is a dot. *)
Definition plain (fs : Fs) (root : list string) : Prop :=
  (∀ p c q, root = p ++ c :: q → fs !! (p ++ [c]) = Some NDir) ∧ ("." ∉ root) ∧ (".." ∉ root).

Lemma walk_plain n fs cur root rest :
  (∀ p c q, root = p ++ c :: q → fs !! (cur ++ p ++ [c]) = Some NDir) → "." ∉ root → ".." ∉ root →
  walk n fs cur (root ++ rest) = walk n fs (cur ++ root) rest.
Proof.
  revert cur. induction root as [|c root IH]; intros cur Hd H1 H2; simpl.
  { by rewrite app_nil_r. }
  apply not_elem_of_cons in H1 as [? ?]. apply not_elem_of_cons in H2 as [? ?].
  assert (walk n fs cur (c :: root ++ rest) = walk n fs (cur ++ [c]) (root ++ rest)) as ->.
  { pose proof (Hd [] c root eq_refl) as Hc. simpl in Hc.
    destruct n; simpl; rewrite !bool_decide_eq_false_2 by done; by rewrite Hc. }
  rewrite IH; [by rewrite <-app_assoc| |done..].
  intros p c' q ->. rewrite <-!app_assoc. apply (Hd (c :: p) c' q). done.
Qed.
Lemma realpath_plain fs root rest :
  plain fs root → realpath fs (root ++ rest) = walk 40 fs root rest.
Proof. intros (Hd & H1 & H2). apply (walk_plain 40 fs [] root rest); auto. Qed.
Lemma realpath_root fs root : plain fs root → realpath fs root = Some root.
Proof. intros H. rewrite <-(app_nil_r root) at 1. by rewrite realpath_plain. Qed.

Lemma lstat_plain fs root c : plain fs root → lstat fs (root ++ [c]) = fs !! (root ++ [c]).
Proof.
  intros H. unfold lstat, parent, basename. rewrite removelast_last, last_last.
  rewrite realpath_root by done. by destruct (root ++ [c]) eqn:E; [destruct root|].
Qed.

Lemma plain_snoc fs root c :
  plain fs root → fs !! (root ++ [c]) = Some NDir → c ≠ "." → c ≠ ".." → plain fs (root ++ [c]).
Proof.
  intros (Hd & H1 & H2) Hc ? ?. split_and!.
  - intros p c' q E. destruct q as [|x q] using rev_ind.
    + apply app_inj_tail in E as [-> ->]. done.
    + clear IHq. rewrite app_comm_cons, app_assoc in E. apply app_inj_tail in E as [-> ->].
      by apply (Hd p c' q).
  - rewrite elem_of_app. set_solver.
  - rewrite elem_of_app. set_solver.
Qed.

Lemma plain_mono fs fs' root :
  (∀ p, fs !! p = Some NDir → fs' !! p = Some NDir) → plain fs root → plain fs' root.
Proof. intros H (Hd & ? & ?). split_and!; [|done..]. intros p c q E. apply H. by eapply Hd. Qed.

Lemma relative_prefix p q : relative p (p ++ q) = q.
Proof. induction p as [|x p IH]; simpl; [by destruct q|]. by rewrite bool_decide_eq_true_2. Qed.

Lemma isPathInside_prefix p q : isPathInside p q = true → p `prefix_of` q.
Proof.
  unfold isPathInside. revert q. induction p as [|x p IH]; intros q; [intros _; apply prefix_nil|].
  destruct q as [|y q]; simpl; [done|]. destruct_if; [|done]. to_prop. subst.
  intros H. by apply prefix_cons, IH.
Qed.

(** ** More of Node's [fs]: links, directories, renames

    What the code that sets up a group's directories uses beyond [Fs].  A call
    that does not follow the last component of a path says so. *)

Local Open Scope prog_scope.

(** The entry a path names: its last component in the real directory before. *)
Definition entry_of (fs : gmap (list string) node) (p : list string) : option (list string) :=
  option_map (λ q, q ++ [basename p]) (realpath fs (parent p)).
Definition with_entry {A} (p : list string) (k : list string → fsM A) : fsM A :=
  let* e := gets (λ fs, entry_of fs p) in
  match e with Some e => k e | None => throw (Err "ENOENT") end.

(** [fs.unlinkSync(p)]: not followed. *)
Definition unlink (p : list string) : fsM unit :=
  with_entry p (λ e,
    let* there := gets (λ fs, fs !! e) in
    match there with
    | None => throw (Err "ENOENT")
    | Some NDir => throw (Err "EISDIR")
    | Some _ => modify (λ fs, delete e fs)
    end).
(** [fs.symlinkSync(target, p)], of an absolute target. *)
Definition symlink (target p : list string) : fsM unit :=
  with_entry p (λ e,
    let* there := gets (λ fs, fs !! e) in
    match there with
    | Some _ => throw (Err "EEXIST")
    | None => modify (λ fs, <[e := NLink true target]> fs)
    end).
(** [fs.readlinkSync(p)], [None] when it throws. *)
Definition readlink (fs : gmap (list string) node) (p : list string) : option (bool * list string) :=
  match lstat fs p with Some (NLink absolute target) => Some (absolute, target) | _ => None end.
(** [fs.lstatSync(p)] does not throw. *)
Definition lexists (fs : gmap (list string) node) (p : list string) : bool := bool_decide (is_Some (lstat fs p)).

(** [fs.renameSync(src, dst)], of a file or a link: neither end is followed, and
    what is at the destination is replaced. *)
Definition rename (src dst : list string) : fsM unit :=
  with_entry src (λ s, with_entry dst (λ d,
    let* what := gets (λ fs, fs !! s) in
    let* there := gets (λ fs, fs !! d) in
    match what, there with
    | None, _ => throw (Err "ENOENT")
    | Some NDir, _ => throw (Err "ENOTSUP")
    | Some _, Some NDir => throw (Err "EISDIR")
    | Some v, _ => modify (λ fs, <[d := v]> (delete s fs))
    end)).

(** [fs.readdirSync(p)], [None] when it throws; the order is the system's. *)
Definition readdir (fs : gmap (list string) node) (p : list string) : option (list string) :=
  match realpath fs p with
  | Some q =>
      if is_dir (at_real fs q)
      then Some (omap (λ kv : list string * node,
                   if bool_decide (parent kv.1 = q ∧ kv.1 ≠ []) then Some (basename kv.1) else None) (map_to_list fs))
      else None
  | None => None
  end.

(** [fs.rmSync(p, { recursive: true, force: true })]: the last component is not
    followed. *)
Definition rm_force (p : list string) : fsM unit :=
  let* e := gets (λ fs, entry_of fs p) in
  match e with Some e => rm_rf e | None => ret tt end.

(** [mkdirSync(p, { recursive: true })] unless it is there. *)
Definition ensure_dir (p : list string) : fsM bool :=
  let* there := gets (λ fs, existsSync fs p) in
  if there : bool then ret false else mkdirp p ;; ret true.
(** [writeFileSync] unless it is there. *)
Definition ensure_file (p : list string) (data : string) : fsM bool :=
  let* there := gets (λ fs, existsSync fs p) in
  if there : bool then ret false else write_file p data ;; ret true.

Example planted_link_ex :
  let fs := {[ ["g"] := NDir; ["etc"] := NDir; ["etc"; "x"] := NFile "old"; ["g"; "l"] := NLink true ["etc"; "x"] ]} in
  (write_file ["g"; "l"] "new" fs).2 !! ["etc"; "x"] = Some (NFile "new").
Proof. vm_compute. done. Qed.
