(* ===== verification/ContainerConfig.v ===== *)
(** * The configuration of a group's containers (src/container-config.ts)

    [groups/<folder>/container.json], read with defaults and normalised, and
    written back indented.  The object that is read is its properties in order,
    [None] being [undefined]: such a property is there and is not written. *)
From Stdlib Require Import QArith Qround Ascii.
From stdpp Require Import pretty.
From S2P Require Import Prelude JsString Json JsonProofs JsonIndent Types Central Fs SafeText.

Local Open Scope string_scope.
Local Open Scope Z_scope.
Local Open Scope list_scope.
Local Open Scope prog_scope.

Definition ContainerConfig := list (string * option json).

Fixpoint cfg_set (k : string) (v : option json) (c : ContainerConfig) : ContainerConfig :=
  match c with
  | [] => [(k, v)]
  | (k', w) :: c' => if bool_decide (k = k') then (k', v) :: c' else (k', w) :: cfg_set k v c'
  end.
Fixpoint cfg_get (k : string) (c : ContainerConfig) : option json :=
  match c with
  | [] => None
  | (k', v) :: c' => if bool_decide (k = k') then v else cfg_get k c'
  end.
Definition spread (l : list (string * json)) : ContainerConfig := map (λ kv, (kv.1, Some kv.2)) l.
(** What [JSON.stringify] keeps. *)
Definition written (c : ContainerConfig) : list (string * json) :=
  omap (λ kv, option_map (pair kv.1) kv.2) c.

(** [v ?? d], and [v?.k]. *)
Definition or_default (d : json) (v : option json) : json :=
  match v with None | Some JNull => d | Some v => v end.
Definition opt_get (k : string) (v : option json) : option json :=
  match v with Some (JObj l) => obj_get k l | _ => None end.
Definition plain_object (v : option json) : option (list (string * json)) :=
  match v with Some (JObj l) => Some l | _ => None end.

Definition empty_config_json : list (string * json) :=
  [("mcpServers", JObj []); ("packages", JObj [("apt", JArr []); ("npm", JArr [])]);
   ("additionalMounts", JArr []); ("skills", JStr "all")].
(*@ src/src/container-config.ts 220-227 emptyConfig *)
Definition emptyConfig : ContainerConfig := spread empty_config_json.

(** ** Normalising a field *)

(** One of the texts of a list. *)
Definition one_text (allowed : list string) (v : option json) : option json :=
  match v with
  | Some (JStr s) => if bool_decide (s ∈ allowed) then Some (JStr s) else None
  | _ => None
  end.
(*@ src/src/container-config.ts 229-231 normalizeMemoryMode *)
Definition normalizeMemoryMode : option json → option json := one_text ["workspace"; "gateway"].
(*@ src/src/container-config.ts 233-235 normalizeA2aSessionMode *)
Definition normalizeA2aSessionMode : option json → option json := one_text ["agent-shared"; "root-session"].

(** [/^[a-zA-Z0-9_.-]+$/] *)
Definition word (s : string) : bool :=
  name_like (λ n, upper n || lower n || num n || one_of "_.-" n)
    (λ n, upper n || lower n || num n || one_of "_.-" n) None (bytes s).
(*@ src/src/container-config.ts 243-250 normalizeOciRuntime *)
Definition normalizeOciRuntime (v : option json) : option json :=
  match v with
  | Some (JStr s) => if word (trim s) then Some (JStr (trim s)) else None
  | _ => None
  end.

(*@ src/src/container-config.ts 396-400 normalizeNetwork *)
Definition normalizeNetwork (v : option json) : option json :=
  match v with
  | Some (JStr s) => if bool_decide (trim s = "") then None else Some (JStr (trim s))
  | _ => None
  end.

(*@ src/src/container-config.ts 430-443 normalizeSkills *)
Definition normalizeSkills (raw : option json) : json :=
  match raw with
  | Some (JArr l) => JArr (filter (λ v, (match v with JStr s => word s | _ => false end) = true) l)
  | _ => JStr "all"
  end.

(*@ src/src/container-config.ts 519-519 progressiveDisclosure *)
Definition normalizeDisclosure (v : option json) : json :=
  match v with
  | Some (JStr s) => if bool_decide (s = "lean") then JStr "lean" else JBool false
  | Some (JBool b) => JBool b
  | _ => JBool false
  end.

(** ** Values as JavaScript uses them *)

(** The text of an element in [join]. *)
Fixpoint element_text (v : json) : string :=
  match v with
  | JNull => ""
  | JBool b => if b then "true" else "false"
  | JNum n => pretty n
  | JFrac lit => lit
  | JStr s => s
  | JArr l => String.concat "," (map element_text l)
  | JObj _ => "[object Object]"
  end.
(** [v.length]: [None] is [undefined]. *)
Definition js_len (v : json) : option Z :=
  match v with
  | JArr l => Some (Z.of_nat (length l))
  | JStr s => Some (js_length s)
  | _ => None
  end.
Definition is_empty (v : json) : bool := bool_decide (js_len v = Some 0).
Definition has_some (v : json) : bool := match js_len v with Some n => 0 <? n | None => false end.
(** The elements of an array; the methods of one are called on anything else. *)
Definition array_items (v : json) : outcome exn (list json) :=
  match v with JArr l => Ok l | _ => Throw (Err "TypeError") end.

(** ** The models *)

Definition refuse_config {A} (msg : string) : outcome exn A := Throw (Err msg).
Definition obind {A B} (o : outcome exn A) (k : A → outcome exn B) : outcome exn B :=
  match o with Ok a => k a | Throw e => Throw e end.
Notation "'let!' x := m 'in' k" := (obind m (λ x, k)) (at level 10, x pattern, m at level 200, k at level 200).

(*@ src/src/container-config.ts 252-255 requiredRoutingString *)
Definition requiredRoutingString (v : option json) (field : string) : outcome exn string :=
  match v with
  | Some (JStr s) => if bool_decide (trim s = "") then refuse_config (field +:+ " is required") else Ok (trim s)
  | _ => refuse_config (field +:+ " is required")
  end.

Section numbers.
(** The number of a literal that is no integer in decimal digits. *)
Context (frac_value : string → Q).

(** [Number.isInteger]: a literal such as [1e3] is one as well. *)
Definition integer_of (v : json) : option Z :=
  match v with
  | JNum n => Some n
  | JFrac lit => let q := frac_value lit in if Qeq_bool q (inject_Z (Qfloor q)) then Some (Qfloor q) else None
  | _ => None
  end.
(*@ src/src/container-config.ts 257-263 optionalRoutingInteger *)
Definition optionalRoutingInteger (v : option json) (field : string) (min max : Z) : outcome exn (option json) :=
  match v with
  | None => Ok None
  | Some v =>
      match integer_of v with
      | Some n => if (n <? min) || (max <? n) then refuse_config (field +:+ " must be an integer") else Ok (Some v)
      | None => refuse_config (field +:+ " must be an integer")
      end
  end.

(*@ src/src/container-config.ts 265-269 routingAction *)
Definition routingAction (v : option json) (field : string) : outcome exn (option json) :=
  match v with
  | None => Ok None
  | _ => match one_text ["clarify"; "reject"] v with
         | Some a => Ok (Some a)
         | None => refuse_config (field +:+ " must be clarify or reject")
         end
  end.

(** [path.posix.normalize]: the segments left, last first; above the root of an
    absolute path there is nothing. *)
Fixpoint resolve_segments (absolute : bool) (l acc : list string) : list string :=
  match l with
  | [] => acc
  | s :: l' =>
      resolve_segments absolute l'
        (if bool_decide (s = "") || bool_decide (s = ".") then acc
         else if bool_decide (s = "..") then
           match acc with
           | top :: acc' => if bool_decide (top = "..") then ".." :: acc else acc'
           | [] => if absolute then [] else [".."]
           end
         else s :: acc)
  end.
Definition posix_normalize (s : string) : string :=
  let absolute := startsWith s "/" in
  let segments := split_on "/" s in
  let body := String.concat "/" (rev (resolve_segments absolute segments [])) in
  let slash := if bool_decide (List.last segments "" = "") && negb (bool_decide (s = "")) then "/" else "" in
  if absolute then (if bool_decide (body = "") then "/" else "/" +:+ body +:+ slash)
  else if bool_decide (body = "") then (if bool_decide (slash = "") then "." else "./")
  else body +:+ slash.
(** [s.replaceAll('\\', '/')] *)
Fixpoint slashes (s : string) : string :=
  match s with
  | EmptyString => EmptyString
  | String c s' => String (if bool_decide (byte c = 92) then "/"%char else c) (slashes s')
  end.

(*@ src/src/container-config.ts 271-279 routingPromptFile *)
Definition routingPromptFile (v : option json) : outcome exn string :=
  let! raw := requiredRoutingString v "llm.routing.promptFile" in
  if startsWith raw "/" then refuse_config "llm.routing.promptFile must be relative"
  else
    let normalized := posix_normalize (slashes raw) in
    if bool_decide (normalized = "..") || startsWith normalized "../" || negb (startsWith normalized "prompts/")
    then refuse_config "llm.routing.promptFile must stay inside prompts/"
    else Ok normalized.

Definition transports : list string := ["responses"; "chat-completions"].
(** A transport that is given and none of them is refused. *)
Definition transport_of (v : option json) (field : string) : outcome exn (option json) :=
  match v, one_text transports v with
  | Some _, None => refuse_config (field +:+ " must be responses or chat-completions")
  | _, t => Ok t
  end.
(** [...(v !== undefined ? { k: v } : {})] *)
Definition given (k : string) (v : option json) : list (string * json) :=
  match v with Some v => [(k, v)] | None => [] end.
(** A text that is not blank, trimmed. *)
Definition nonblank (v : option json) : option string :=
  match v with
  | Some (JStr s) => if bool_decide (trim s = "") then None else Some (trim s)
  | _ => None
  end.

(*@ src/src/container-config.ts 290-308 execution *)
Definition normalize_execution (v : option json) : outcome exn (option json) :=
  match plain_object v with
  | Some execution =>
      match nonblank (obj_get "provider" execution) with
      | Some provider =>
          let! transport := transport_of (obj_get "transport" execution) "llm.execution.transport" in
          Ok (Some (JObj ([("provider", JStr provider)] ++
            given "model" (option_map JStr (nonblank (obj_get "model" execution))) ++ given "transport" transport)))
      | None => Ok None
      end
  | None => Ok None
  end.

Definition unit_number (v : json) : bool :=
  match v with
  | JNum n => (0 <=? n) && (n <=? 1)
  | JFrac lit => Qle_bool 0 (frac_value lit) && Qle_bool (frac_value lit) 1
  | _ => false
  end.

(*@ src/src/container-config.ts 310-382 routing *)
Definition normalize_routing (v : option json) : outcome exn (option json) :=
  match plain_object v with
  | Some routing =>
      let at_ k := obj_get k routing in
      match at_ "enabled" with
      | Some (JBool true) =>
          let context := option_map JObj (plain_object (at_ "context")) in
          let confidence := option_map JObj (plain_object (at_ "confidence")) in
          let fallback := option_map JObj (plain_object (at_ "fallback")) in
          let! transport := transport_of (at_ "transport") "llm.routing.transport" in
          let! timeoutMs := optionalRoutingInteger (at_ "timeoutMs") "llm.routing.timeoutMs" 1000 120000 in
          let! retryTimes := optionalRoutingInteger (at_ "retryTimes") "llm.routing.retryTimes" 0 3 in
          let! maxMessages := optionalRoutingInteger (opt_get "maxMessages" context) "llm.routing.context.maxMessages" 1 10 in
          let! maxChars := optionalRoutingInteger (opt_get "maxChars" context) "llm.routing.context.maxChars" 1000 50000 in
          let! threshold := match opt_get "threshold" confidence with
                            | None => Ok None
                            | Some t => if unit_number t then Ok (Some t)
                                        else refuse_config "llm.routing.confidence.threshold must be a finite number in [0, 1]"
                            end in
          let! below := routingAction (opt_get "belowThresholdAction" confidence)
                          "llm.routing.confidence.belowThresholdAction" in
          let! fallbackValue := routingAction (opt_get "action" fallback) "llm.routing.fallback.action" in
          let! provider := requiredRoutingString (at_ "provider") "llm.routing.provider" in
          let! model := requiredRoutingString (at_ "model") "llm.routing.model" in
          let! promptFile := routingPromptFile (at_ "promptFile") in
          Ok (Some (JObj ([("enabled", JBool true); ("provider", JStr provider); ("model", JStr model);
                           ("promptFile", JStr promptFile)] ++
            given "transport" transport ++ given "timeoutMs" timeoutMs ++ given "retryTimes" retryTimes ++
            given "context" (option_map (λ _, JObj (given "maxMessages" maxMessages ++ given "maxChars" maxChars)) context) ++
            given "confidence" (option_map (λ _, JObj (given "threshold" threshold ++ given "belowThresholdAction" below)) confidence) ++
            given "fallback" (option_map (λ a, JObj [("action", a)]) fallbackValue))))
      | _ => Ok None
      end
  | None => Ok None
  end.

(*@ src/src/container-config.ts 285-385 normalizeDualLlmConfig *)
Definition normalizeDualLlmConfig (v : option json) : outcome exn (option json) :=
  match plain_object v with
  | None => Ok None
  | Some raw =>
      let! execution := normalize_execution (obj_get "execution" raw) in
      let! routing := normalize_routing (obj_get "routing" raw) in
      match execution, routing with
      | None, None => Ok None
      | _, _ => Ok (Some (JObj (given "execution" execution ++ given "routing" routing)))
      end
  end.

(** ** Limits *)

(** A number above zero. *)
Definition positive (v : option json) : option json :=
  match v with
  | Some (JNum n) => if 0 <? n then Some (JNum n) else None
  | Some (JFrac lit) => if Qle_bool (frac_value lit) 0 then None else Some (JFrac lit)
  | _ => None
  end.
Definition floor_of (v : json) : json :=
  match v with JFrac lit => JNum (Qfloor (frac_value lit)) | _ => v end.
(** An array has none of the properties. *)
(*@ src/src/container-config.ts 402-416 normalizeResources *)
Definition normalizeResources (v : option json) : option json :=
  match given "memoryMb" (option_map floor_of (positive (opt_get "memoryMb" v))) ++
        given "cpus" (positive (opt_get "cpus" v)) ++
        given "pidsLimit" (option_map floor_of (positive (opt_get "pidsLimit" v))) with
  | [] => None
  | l => Some (JObj l)
  end.

(** ** Reading and writing *)

(** The literal of the return: [llm] is what is normalised or, failing that, the
    object of the file. *)
Definition overrides (raw : list (string * json)) (llm : option json) : ContainerConfig :=
  let at_ k := obj_get k raw in
  [("mcpServers", Some (or_default (JObj []) (at_ "mcpServers")));
   ("backendGateway", at_ "backendGateway");
   ("packages", Some (JObj [("apt", or_default (JArr []) (opt_get "apt" (at_ "packages")));
                            ("npm", or_default (JArr []) (opt_get "npm" (at_ "packages")))]));
   ("imageTag", at_ "imageTag");
   ("additionalMounts", Some (or_default (JArr []) (at_ "additionalMounts")));
   ("skills", Some (normalizeSkills (at_ "skills")));
   ("provider", at_ "provider");
   ("llm", match llm with Some l => Some l | None => option_map JObj (plain_object (at_ "llm")) end);
   ("groupName", at_ "groupName"); ("assistantName", at_ "assistantName");
   ("memoryMode", normalizeMemoryMode (at_ "memoryMode"));
   ("a2aSessionMode", normalizeA2aSessionMode (at_ "a2aSessionMode"));
   ("ociRuntime", normalizeOciRuntime (at_ "ociRuntime"));
   ("agentGroupId", at_ "agentGroupId"); ("maxMessagesPerPrompt", at_ "maxMessagesPerPrompt");
   ("resources", normalizeResources (at_ "resources"));
   ("network", normalizeNetwork (at_ "network"));
   ("env", at_ "env");
   ("progressiveDisclosure", Some (normalizeDisclosure (at_ "progressiveDisclosure")))].
(*@ src/src/container-config.ts 489-521 readContainerConfig *)
Definition config_of (raw : list (string * json)) : outcome exn ContainerConfig :=
  let! llm := normalizeDualLlmConfig (obj_get "llm" raw) in
  Ok (fold_left (λ c kv, cfg_set kv.1 kv.2 c) (overrides raw llm) (spread raw)).

Context (GROUPS_DIR : list string).

(*@ src/src/container-config.ts 418-420 configPath *)
Definition configPath (folder : string) : list string := GROUPS_DIR ++ [folder; "container.json"].

(** [${p}.corrupt] *)
Definition corruptPath (folder : string) : list string := GROUPS_DIR ++ [folder; "container.json.corrupt"].

(*@ src/src/container-config.ts 459-521 readContainerConfig *)
Definition readContainerConfig (folder : string) : fsM ContainerConfig :=
  let p := configPath folder in
  let* there := gets (λ fs, existsSync fs p) in
  if negb there then ret emptyConfig
  else
    let* data := gets (λ fs, readFile fs p) in
    match data ≫= JSON_parse with
    | Some (JObj raw) => match config_of raw with Ok c => ret c | Throw e => throw e end
    | _ =>
        try_catch (match data with Some d => write_new (corruptPath folder) d | None => throw (Err "EISDIR") end)
          (λ _, ret tt) ;;
        throw (Err "container-config: failed to parse")
    end.

Definition config_text (c : ContainerConfig) : string :=
  JSON_stringify_indent (JObj (written c)) +:+ String (Ascii.ascii_of_nat 10) EmptyString.
(*@ src/src/container-config.ts 528-533 writeContainerConfig *)
Definition writeContainerConfig (folder : string) (config : ContainerConfig) : fsM unit :=
  let* there := gets (λ fs, existsSync fs (GROUPS_DIR ++ [folder])) in
  (if there : bool then ret tt else mkdirp (GROUPS_DIR ++ [folder])) ;;
  write_file (configPath folder) (config_text config).

(** [mutate] may throw. *)
(*@ src/src/container-config.ts 540-545 updateContainerConfig *)
Definition updateContainerConfig (folder : string) (mutate : ContainerConfig → outcome exn ContainerConfig)
    : fsM ContainerConfig :=
  let* config := readContainerConfig folder in
  match mutate config with
  | Throw e => throw e
  | Ok config => writeContainerConfig folder config ;; ret config
  end.

(*@ src/src/container-config.ts 551-556 initContainerConfig *)
Definition initContainerConfig (folder : string) : fsM bool :=
  let* there := gets (λ fs, existsSync fs (configPath folder)) in
  if there : bool then ret false else writeContainerConfig folder emptyConfig ;; ret true.
End numbers.
