(* ===== verification/ContainerConfigProofs.v ===== *)
(** * What a rewrite of the configuration keeps (src/container-config.ts) *)
From Stdlib Require Import QArith Qround Ascii.
From S2P Require Import Prelude JsString Json JsonProofs JsonIndent Types Central Fs SafeText ContainerConfig.

Local Open Scope string_scope.
Local Open Scope Z_scope.
Local Open Scope list_scope.
Local Open Scope prog_scope.

(** ** Properties of the object *)

Lemma cfg_get_set k k' v c : cfg_get k (cfg_set k' v c) = if bool_decide (k = k') then v else cfg_get k c.
Proof.
  induction c as [|[k0 w] c IH]; cbn [cfg_set cfg_get]; [by destruct_if|].
  repeat (destruct_if; to_prop; cbn [cfg_get]); subst; rewrite ?bool_decide_eq_true_2, ?bool_decide_eq_false_2 by congruence; try done.
  all: rewrite ?IH; repeat (destruct_if; to_prop); congruence.
Qed.
Lemma cfg_set_twice k v w c : cfg_set k v (cfg_set k w c) = cfg_set k v c.
Proof.
  induction c as [|[k0 x] c IH]; cbn [cfg_set]; [by rewrite bool_decide_eq_true_2|].
  destruct_if; to_prop; cbn [cfg_set]; [by rewrite bool_decide_eq_true_2|].
  by rewrite bool_decide_eq_false_2, IH.
Qed.
Lemma cfg_set_keys k v c : k ∈ map fst (cfg_set k v c) ∧ ∀ k', k' ∈ map fst (cfg_set k v c) ↔ k' = k ∨ k' ∈ map fst c.
Proof.
  induction c as [|[k0 w] c IH]; cbn [cfg_set map fst]; [set_solver|].
  destruct_if; to_prop; cbn [map fst]; [set_solver|]. destruct IH as [I1 I2]. split; [set_solver|].
  intros k'. rewrite !elem_of_cons, I2. set_solver.
Qed.
Lemma cfg_set_NoDup k v c : NoDup (map fst c) → NoDup (map fst (cfg_set k v c)).
Proof.
  induction c as [|[k0 w] c IH]; cbn [cfg_set map fst]; intros H.
  { constructor; [set_solver|constructor]. }
  apply NoDup_cons in H as [H1 H2]. destruct_if; to_prop; cbn [map fst]; constructor; auto.
  destruct (cfg_set_keys k v c) as [_ E]. rewrite E. set_solver.
Qed.
Lemma cfg_get_absent k c : k ∉ map fst c → cfg_get k c = None.
Proof. induction c as [|[k0 w] c IH]; cbn; [done|]. intros H. destruct_if; to_prop; set_solver. Qed.

(** What [o] gives for [k], if it is one of its properties. *)
Fixpoint prop_of (k : string) (o : ContainerConfig) : option (option json) :=
  match o with
  | [] => None
  | (k', v) :: o' => if bool_decide (k = k') then Some v else prop_of k o'
  end.
Lemma prop_of_None k o : prop_of k o = None ↔ k ∉ map fst o.
Proof.
  induction o as [|[k0 w] o IH]; cbn; [set_solver|]. destruct_if; to_prop; [set_solver|]. rewrite IH. set_solver.
Qed.
Lemma assign_get k o : NoDup (map fst o) → ∀ c,
  cfg_get k (fold_left (λ c kv, cfg_set kv.1 kv.2 c) o c) = match prop_of k o with Some v => v | None => cfg_get k c end.
Proof.
  induction o as [|[k0 w] o IH]; cbn [fold_left prop_of map fst]; intros H c; [done|].
  apply NoDup_cons in H as [H1 H2]. rewrite IH by done. cbn [fst snd]. rewrite cfg_get_set.
  destruct_if; to_prop; [|done]. subst. by rewrite (proj2 (prop_of_None k0 o)).
Qed.
Lemma assign_NoDup o : ∀ c, NoDup (map fst c) → NoDup (map fst (fold_left (λ c kv, cfg_set kv.1 kv.2 c) o c)).
Proof. induction o as [|kv o IH]; cbn; [done|]. intros c H. by apply IH, cfg_set_NoDup. Qed.

Lemma obj_get_absent k l : k ∉ map fst l → obj_get k l = None.
Proof.
  induction l as [|[k0 w] l IH]; cbn; [done|]. intros H. rewrite IH by set_solver. rewrite bool_decide_eq_false_2; set_solver.
Qed.
Lemma spread_get k l : NoDup (map fst l) → cfg_get k (spread l) = obj_get k l.
Proof.
  induction l as [|[k0 w] l IH]; cbn; [done|]. intros [H1 H2]%NoDup_cons. destruct_if; to_prop.
  - subst. by rewrite obj_get_absent.
  - fold (spread l). rewrite IH by done. by destruct (obj_get k l).
Qed.
Lemma spread_keys l : map fst (spread l) = map fst l.
Proof. induction l as [|[k0 w] l IH]; cbn; [done|]. f_equal. exact IH. Qed.
Lemma written_keys c k : k ∈ map fst (written c) → k ∈ map fst c.
Proof.
  induction c as [|[k0 [w|]] c IH]; cbn; [done|..]; fold (written c); set_solver.
Qed.
Lemma written_NoDup c : NoDup (map fst c) → NoDup (map fst (written c)).
Proof.
  induction c as [|[k0 [w|]] c IH]; cbn; [done|..]; fold (written c); intros [H1 H2]%NoDup_cons; [|auto].
  constructor; [|auto]. intros H. by apply H1, written_keys.
Qed.
Lemma written_get k c : NoDup (map fst c) → obj_get k (written c) = cfg_get k c.
Proof.
  induction c as [|[k0 w] c IH]; [done|]. cbn [map fst]. intros [H1 H2]%NoDup_cons.
  assert (obj_get k0 (written c) = None) as E by (apply obj_get_absent; by intros ?%written_keys).
  cbn [cfg_get]. unfold written. cbn [omap list_omap]. fold (written c). cbn [fst snd]. destruct w as [w|]; cbn [option_map].
  - cbn [obj_get]. rewrite IH by done. destruct_if; to_prop; [subst; rewrite <-IH, E by done; done|].
    by destruct (cfg_get k c).
  - rewrite IH by done. destruct_if; to_prop; [|done]. subst. by rewrite <-IH, E.
Qed.

(** ** Trimmed texts *)

Lemma strip_bytes_app p l r : strip_bytes p l = Some r → ∃ h, l = h ++ r ∧ strip_bytes p h = Some [].
Proof.
  revert l. induction p as [|x p IH]; intros l; [intros [= <-]; by exists []|].
  destruct l as [|y l]; [done|]. cbn [strip_bytes]. destruct_if; [|done].
  intros (h & -> & H)%IH. exists (y :: h). cbn [strip_bytes app]. by rewrite Heqb.
Qed.
Lemma strip_bytes_ext p l l' r : strip_bytes p l = Some r → strip_bytes p (l ++ l') = Some (r ++ l').
Proof.
  revert l. induction p as [|x p IH]; intros l; [by intros [= <-]|].
  destruct l as [|y l]; [done|]. cbn [strip_bytes app]. destruct_if; [|done]. apply IH.
Qed.

Lemma strip_any_ext ps l l' : strip_any ps (l ++ l') = None → strip_any ps l = None.
Proof.
  induction ps as [|p ps IH]; cbn [strip_any]; [done|]. destruct (strip_bytes p l) as [r|] eqn:E.
  - by rewrite (strip_bytes_ext p l l' r E).
  - destruct (strip_bytes p (l ++ l')); [done|]. apply IH.
Qed.
Lemma strip_any_some ps l r : [] ∉ ps → strip_any ps l = Some r → (length r < length l)%nat ∧ ∃ h, l = h ++ r.
Proof.
  induction ps as [|p ps IH]; cbn [strip_any]; intros Hp; [done|]. destruct (strip_bytes p l) as [r'|] eqn:E.
  - intros [= <-]. apply strip_bytes_app in E as (h & -> & E). split; [|by exists h].
    destruct h as [|c h]; [|rewrite length_app; cbn; lia]. destruct p; [set_solver|done].
  - apply IH. set_solver.
Qed.
Lemma drop_ws_spec ps n l :
  [] ∉ ps → (length l <= n)%nat → strip_any ps (drop_ws ps n l) = None ∧ ∃ h, l = h ++ drop_ws ps n l.
Proof.
  intros Hp. revert l. induction n as [|n IH]; intros l Hn; cbn [drop_ws].
  - destruct l as [|c l]; [|cbn in Hn; lia]. split; [|by exists []].
    destruct (strip_any ps []) as [r|] eqn:E; [|done]. apply strip_any_some in E as [E _]; [cbn in E; lia|done].
  - destruct (strip_any ps l) as [r|] eqn:E; [|split; [done|by exists []]].
    apply strip_any_some in E as [E [h Eh]]; [|done]. destruct (IH r ltac:(lia)) as [H1 [h' H2]]. split; [done|].
    exists (h ++ h'). rewrite <-(assoc_L (++)), <-H2. done.
Qed.
Lemma drop_ws_stop ps n l : strip_any ps l = None → drop_ws ps n l = l.
Proof. intros H. destruct n; cbn; [done|]. by rewrite H. Qed.

Lemma trim_trim s : trim (trim s) = trim s.
Proof.
  assert ([] ∉ ws_chars) as Hw by (unfold ws_chars; set_solver).
  assert ([] ∉ map (@rev nat) ws_chars) as Hr by (cbn; set_solver).
  unfold trim. rewrite String.list_ascii_of_string_of_list_ascii.
  set (l := String.list_ascii_of_string s). set (l1 := drop_ws ws_chars (length l) l).
  set (l2 := drop_ws (map (@rev nat) ws_chars) (length l1) (rev l1)).
  destruct (drop_ws_spec ws_chars (length l) l Hw (le_n _)) as [E1 _]. fold l1 in E1.
  destruct (drop_ws_spec (map (@rev nat) ws_chars) (length l1) (rev l1) Hr) as [E2 [h E3]];
    [by rewrite length_rev|]. fold l2 in E2, E3.
  assert (l1 = rev l2 ++ rev h) as E4 by (rewrite <-rev_app_distr, <-E3; by rewrite rev_involutive).
  rewrite (drop_ws_stop ws_chars _ (rev l2)) by (eapply strip_any_ext; by rewrite <-E4).
  rewrite rev_involutive. by rewrite drop_ws_stop.
Qed.

(** ** Normalised fields *)

Section numbers.
Context (frac_value : string → Q).

(** The value a property is read as; [llm] aside, it depends on nothing else. *)
Definition field (k : string) (v : option json) : option json :=
  match prop_of k (overrides frac_value (given k v) None) with Some w => w | None => v end.

Lemma given_get k v : obj_get k (given k v) = v.
Proof. destruct v; cbn; [|done]. by rewrite bool_decide_eq_true_2. Qed.

Lemma prop_of_overrides raw llm k : k ≠ "llm" →
  match prop_of k (overrides frac_value raw llm) with Some w => w | None => obj_get k raw end = field k (obj_get k raw).
Proof.
  intros Hk. unfold field, overrides. cbn [prop_of].
  repeat (case_bool_decide; [subst; try (by destruct Hk); by rewrite ?given_get|]). done.
Qed.
Lemma prop_of_llm raw llm :
  prop_of "llm" (overrides frac_value raw llm) =
  Some (match llm with Some l => Some l | None => option_map JObj (plain_object (obj_get "llm" raw)) end).
Proof. done. Qed.
Lemma overrides_NoDup raw llm : NoDup (map fst (overrides frac_value raw llm)).
Proof. cbn. repeat (constructor; [set_solver|]). constructor. Qed.

(** No limit of the file is a fraction below one. *)
Definition whole_limits (resources : option json) : Prop :=
  ∀ k lit, k ∈ ["memoryMb"; "pidsLimit"] → opt_get k resources = Some (JFrac lit) → Qle_bool 1 (frac_value lit) = true.

Lemma opt_get_apt a n : opt_get "apt" (Some (JObj [("apt", a); ("npm", n)])) = Some a.
Proof. done. Qed.
Lemma opt_get_npm a n : opt_get "npm" (Some (JObj [("apt", a); ("npm", n)])) = Some n.
Proof. done. Qed.
Lemma one_text_idem allowed v : one_text allowed (one_text allowed v) = one_text allowed v.
Proof. destruct v as [[]|]; cbn; try done. destruct_if; cbn; [by rewrite Heqb|done]. Qed.
Lemma or_default_idem d v : d ≠ JNull → or_default d (Some (or_default d v)) = or_default d v.
Proof. intros H. destruct v as [[]|]; cbn; try done; by destruct d. Qed.
Lemma skills_idem v : normalizeSkills (Some (normalizeSkills v)) = normalizeSkills v.
Proof.
  destruct v as [[]|]; cbn; try done. f_equal. set (P := λ v, _). rewrite list_filter_filter. apply list_filter_iff. tauto.
Qed.
Lemma oci_idem v : normalizeOciRuntime (normalizeOciRuntime v) = normalizeOciRuntime v.
Proof. destruct v as [[]|]; cbn; try done. destruct (word (trim s)) eqn:E; cbn; [by rewrite trim_trim, E|done]. Qed.
Lemma network_idem v : normalizeNetwork (normalizeNetwork v) = normalizeNetwork v.
Proof. destruct v as [[]|]; cbn; try done. destruct_if; cbn; [done|]. by rewrite trim_trim, Heqb. Qed.
Lemma disclosure_idem v : normalizeDisclosure (Some (normalizeDisclosure v)) = normalizeDisclosure v.
Proof. destruct v as [[]|]; cbn; try done. destruct_if; done. Qed.

Lemma positive_floor_idem v lim :
  (∀ lit, v = Some (JFrac lit) → Qle_bool 1 (frac_value lit) = true) →
  option_map (floor_of frac_value) (positive frac_value v) = Some lim →
  option_map (floor_of frac_value) (positive frac_value (Some lim)) = Some lim.
Proof.
  intros Hw. destruct v as [[| |n|lit| | |]|]; cbn; try done.
  - destruct (0 <? n) eqn:E; [|done]. intros [= <-]. cbn. by rewrite E.
  - specialize (Hw lit eq_refl). destruct (Qle_bool (frac_value lit) 0) eqn:E; [done|]. intros [= <-]. cbn.
    apply Qle_bool_iff in Hw. assert (1 ≤ Qfloor (frac_value lit)) as H.
    { apply (Z.le_trans _ (Qfloor 1)); [done|]. by apply Qfloor_resp_le. }
    by rewrite (proj2 (Z.ltb_lt _ _)) by lia.
Qed.
Lemma positive_idem v c : positive frac_value v = Some c → positive frac_value (Some c) = Some c.
Proof. destruct v as [[| |n|lit| | |]|]; cbn; try done; destruct_if; try done; intros [= <-]; cbn; by rewrite Heqb. Qed.
Lemma resources_idem v : whole_limits v → normalizeResources frac_value (normalizeResources frac_value v) = normalizeResources frac_value v.
Proof.
  intros Hw. unfold normalizeResources at 2 3.
  set (m := option_map _ (positive _ (opt_get "memoryMb" v))). set (cpu := positive _ (opt_get "cpus" v)).
  set (p := option_map _ (positive _ (opt_get "pidsLimit" v))).
  assert (∀ x, m = Some x → option_map (floor_of frac_value) (positive frac_value (Some x)) = Some x) as Hm.
  { intros x. apply positive_floor_idem. intros lit. apply Hw. set_solver. }
  assert (∀ x, p = Some x → option_map (floor_of frac_value) (positive frac_value (Some x)) = Some x) as Hp.
  { intros x. apply positive_floor_idem. intros lit. apply Hw. set_solver. }
  assert (∀ x, cpu = Some x → positive frac_value (Some x) = Some x) as Hc by (intros x; apply positive_idem).
  clearbody m cpu p. unfold normalizeResources.
  destruct m as [m|], cpu as [cpu|], p as [p|]; cbn [given app opt_get obj_get];
    repeat match goal with |- context [bool_decide (?a = ?b)] =>
      let r := eval vm_compute in (bool_decide (a = b)) in change (bool_decide (a = b)) with r; cbn match end;
    rewrite ?(Hm _ eq_refl), ?(Hp _ eq_refl), ?(Hc _ eq_refl); done.
Qed.

Lemma field_idem k v : k ≠ "llm" → (k = "resources" → whole_limits v) → field k (field k v) = field k v.
Proof.
  intros Hk Hw. unfold field, overrides. cbn [prop_of].
  repeat (case_bool_decide; [subst; try (by destruct Hk); rewrite ?given_get|]); try done;
    rewrite ?or_default_idem, ?skills_idem, ?oci_idem, ?network_idem, ?disclosure_idem by done; try done.
  all: try apply one_text_idem.
  - rewrite opt_get_apt, opt_get_npm. by rewrite !or_default_idem.
  - apply resources_idem. auto.
Qed.
(** ** Reading what was written *)

(** The block is in normal form, or is left as it is. *)
Definition llm_settled (v : option json) : Prop :=
  normalizeDualLlmConfig frac_value v = Ok None ∨ normalizeDualLlmConfig frac_value v = Ok v.
Definition llm_kept (v llm : option json) : option json :=
  match llm with Some l => Some l | None => option_map JObj (plain_object v) end.

Lemma llm_reread v llm :
  llm_settled v → normalizeDualLlmConfig frac_value v = Ok llm →
  ∃ llm', normalizeDualLlmConfig frac_value (llm_kept v llm) = Ok llm' ∧ llm_kept (llm_kept v llm) llm' = llm_kept v llm.
Proof.
  intros Hs E. destruct llm as [l|].
  - destruct Hs as [Hs|Hs]; rewrite E in Hs; [done|]. injection Hs as <-. by exists (Some l).
  - destruct v as [[]|]; cbn; by exists None.
Qed.

Lemma config_get raw c : config_of frac_value raw = Ok c → NoDup (map fst raw) →
  NoDup (map fst c) ∧ (∀ k, k ≠ "llm" → cfg_get k c = field k (obj_get k raw)) ∧
  ∃ llm, normalizeDualLlmConfig frac_value (obj_get "llm" raw) = Ok llm ∧ cfg_get "llm" c = llm_kept (obj_get "llm" raw) llm.
Proof.
  unfold config_of, obind. intros E Hn. destruct (normalizeDualLlmConfig _ _) as [llm|] eqn:El; [|done].
  assert (fold_left (λ c kv, cfg_set kv.1 kv.2 c) (overrides frac_value raw llm) (spread raw) = c) as <- by congruence.
  pose proof (overrides_NoDup raw llm) as Ho. split_and!.
  - apply assign_NoDup. by rewrite spread_keys.
  - intros k Hk. rewrite assign_get, spread_get by done. by apply prop_of_overrides.
  - exists llm. split; [done|]. by rewrite assign_get, prop_of_llm.
Qed.

(** Of a configuration that was read and changed, what [k] is read as next. *)
Lemma config_reread raw c c' :
  config_of frac_value raw = Ok c → NoDup (map fst raw) → llm_settled (obj_get "llm" raw) →
  NoDup (map fst c') → cfg_get "llm" c' = cfg_get "llm" c →
  ∃ c'', config_of frac_value (written c') = Ok c'' ∧ cfg_get "llm" c'' = cfg_get "llm" c ∧
    ∀ k, k ≠ "llm" → cfg_get k c'' = field k (cfg_get k c').
Proof.
  intros E Hn Hs Hn' Hl. destruct (config_get raw c E Hn) as (_ & _ & llm & E1 & E2).
  destruct (llm_reread _ _ Hs E1) as (llm' & E3 & E4).
  assert (∃ c'', config_of frac_value (written c') = Ok c'') as [c'' E5].
  { unfold config_of, obind. rewrite written_get, Hl, E2, E3 by done. by eexists. }
  exists c''. split; [done|]. destruct (config_get _ _ E5 (written_NoDup _ Hn')) as (_ & Hf & llm'' & E6 & E7).
  rewrite written_get, Hl, E2 in E6, E7 by done. split; [congruence|].
  intros k Hk. rewrite Hf, written_get by done. done.
Qed.
Lemma kept_reread raw c c' c'' k :
  config_of frac_value raw = Ok c → NoDup (map fst raw) → whole_limits (obj_get "resources" raw) →
  cfg_get "llm" c'' = cfg_get "llm" c → (k ≠ "llm" → cfg_get k c'' = field k (cfg_get k c')) →
  cfg_get k c' = cfg_get k c → cfg_get k c'' = cfg_get k c.
Proof.
  intros E Hn Hw Hl Hf Hk. destruct (decide (k = "llm")) as [->|Hk']; [done|]. rewrite Hf, Hk by done.
  destruct (config_get raw c E Hn) as (_ & Hr & _). rewrite Hr by done. apply field_idem; [done|]. by intros ->.
Qed.

(** An execution block and a routing block that is not enabled: only the first
    is read, and the next rewrite deletes the other. *)
Theorem dormant_routing_is_deleted raw c l e :
  config_of frac_value raw = Ok c → NoDup (map fst raw) → obj_get "llm" raw = Some (JObj l) →
  normalize_execution (obj_get "execution" l) = Ok (Some e) →
  opt_get "enabled" (obj_get "routing" l) ≠ Some (JBool true) →
  cfg_get "llm" c = Some (JObj [("execution", e)]).
Proof.
  intros E Hn Hl He Hr. destruct (config_get raw c E Hn) as (_ & _ & llm & E1 & ->). rewrite Hl in E1.
  unfold normalizeDualLlmConfig in E1. cbn [plain_object obind] in E1. rewrite He in E1. cbn [obind] in E1.
  assert (normalize_routing frac_value (obj_get "routing" l) = Ok None) as Hroute.
  { unfold normalize_routing. destruct (obj_get "routing" l) as [[]|]; cbn [plain_object]; try done.
    cbn [opt_get] in Hr. by destruct (obj_get "enabled" l0) as [[|[]| | | | |]|]. }
  rewrite Hroute in E1. injection E1 as <-. done.
Qed.

(** ** What is written is well formed *)

Definition wf_opt (v : option json) : Prop := match v with Some w => wf_json w | None => True end.

Lemma wf_arr l : wf_json (JArr l) ↔ Forall wf_json l.
Proof.
  unfold wf_json. rewrite !every_arr, !Forall_forall. split.
  - intros [[_ H1] [_ H2]] x Hx. auto.
  - intros H. split; (split; [done|]); intros x Hx; by apply H.
Qed.
Lemma wf_obj l : wf_json (JObj l) ↔ NoDup (map fst l) ∧ Forall (λ kv, wf_json kv.2) l.
Proof.
  unfold wf_json. rewrite !every_obj, !Forall_forall. cbn [keys_ok literal_ok]. split.
  - intros [[_ H1] [Hn H2]]. split; [done|]. intros x Hx. auto.
  - intros [Hn H]. split; (split; [done|]); intros x Hx; by apply H.
Qed.
Lemma obj_get_elem k l v : obj_get k l = Some v → (k, v) ∈ l.
Proof.
  induction l as [|[k' w] l IH]; cbn [obj_get]; [done|]. destruct (obj_get k l) as [w'|].
  - intros [= <-]. right. auto.
  - destruct_if; to_prop; [|done]. intros [= ->]. subst. left.
Qed.
Lemma wf_get k l : wf_json (JObj l) → wf_opt (obj_get k l).
Proof.
  intros [_ H]%wf_obj. destruct (obj_get k l) as [v|] eqn:E; [|done]. rewrite Forall_forall in H.
  by apply (H (k, v)), obj_get_elem.
Qed.
Lemma wf_opt_get k v : wf_opt v → wf_opt (opt_get k v).
Proof. destruct v as [[]|]; cbn [opt_get]; try done. apply wf_get. Qed.
Lemma wf_default d v : wf_json d → wf_opt v → wf_json (or_default d v).
Proof. by destruct v as [[]|]. Qed.
Lemma wf_empty_arr : wf_json (JArr []).
Proof. apply wf_arr. constructor. Qed.
Lemma wf_empty_obj : wf_json (JObj []).
Proof. apply wf_obj. split; constructor. Qed.
Lemma wf_one_text allowed v : wf_opt (one_text allowed v).
Proof. destruct v as [[]|]; cbn; try done. by destruct_if. Qed.
Lemma wf_positive v : wf_opt v → wf_opt (positive frac_value v).
Proof. destruct v as [[]|]; cbn; try done; by destruct_if. Qed.
Lemma wf_floor v : wf_opt v → wf_opt (option_map (floor_of frac_value) (positive frac_value v)).
Proof. destruct v as [[]|]; cbn; try done; by destruct_if. Qed.
Lemma wf_given k v : wf_opt v → Forall (λ kv, wf_json kv.2) (given k v).
Proof. destruct v; cbn; [intros H; by constructor|constructor]. Qed.

Lemma field_wf k v : wf_opt v → wf_opt (field k v).
Proof.
  intros Hv. unfold field, overrides. cbn [prop_of].
  repeat (case_bool_decide; [subst; rewrite ?given_get|]); try done; try apply wf_one_text; cbn [wf_opt].
  all: try (apply wf_default; [apply wf_empty_obj || apply wf_empty_arr|done]).
  - apply wf_obj. split; [cbn; repeat (constructor; [set_solver|]); constructor|].
    repeat (constructor; [cbn [snd]; apply wf_default; [apply wf_empty_arr|by apply wf_opt_get]|]). constructor.
  - destruct v as [[]|]; cbn; try (by split). apply wf_arr in Hv. apply wf_arr, Forall_forall. intros x [_ Hx]%list_elem_of_filter.
    rewrite Forall_forall in Hv. auto.
  - by destruct v as [[]|].
  - destruct v as [[]|]; cbn; try done. by destruct_if.
  - unfold normalizeResources. set (l := given "memoryMb" _ ++ _).
    assert (wf_json (JObj l)) as Hl; [|by destruct l]. apply wf_obj. split.
    + subst l. unfold given. repeat case_match; cbn; repeat (constructor; [set_solver|]); constructor.
    + subst l. rewrite !Forall_app. split_and!; apply wf_given; auto using wf_floor, wf_positive, wf_opt_get.
  - destruct v as [[]|]; cbn; try done. by destruct_if.
  - destruct v as [[]|]; cbn; try (by split). destruct_if; by split.
Qed.

Lemma cfg_elem k v c : NoDup (map fst c) → (k, v) ∈ c → cfg_get k c = v.
Proof.
  induction c as [|[k' w] c IH]; [set_solver|]. cbn [map fst cfg_get]. intros [H1 H2]%NoDup_cons [[= -> ->]|H]%elem_of_cons.
  - by rewrite bool_decide_eq_true_2.
  - destruct_if; to_prop; [|auto]. subst. destruct H1. apply list_elem_of_fmap. by exists (k', v).
Qed.
Lemma written_wf c : NoDup (map fst c) → (∀ k, wf_opt (cfg_get k c)) → wf_json (JObj (written c)).
Proof.
  intros Hn H. apply wf_obj. split; [by apply written_NoDup|]. apply Forall_forall. intros [k v] Hin.
  unfold written in Hin. apply list_elem_of_omap in Hin as ([k' [w|]] & Hin & E); [|done]. injection E as <- <-.
  specialize (H k'). by rewrite (cfg_elem k' (Some w) c Hn Hin) in H.
Qed.
Lemma config_wf raw c : config_of frac_value raw = Ok c → wf_json (JObj raw) → llm_settled (obj_get "llm" raw) →
  ∀ k, wf_opt (cfg_get k c).
Proof.
  intros E Hw Hs k. pose proof Hw as [Hn _]%wf_obj. destruct (config_get raw c E Hn) as (_ & Hf & llm & E1 & E2).
  pose proof (wf_get k raw Hw) as Hk. destruct (decide (k = "llm")) as [->|Hne]; [|rewrite Hf by done; by apply field_wf].
  rewrite E2. destruct llm as [l|]; cbn [llm_kept wf_opt].
  - destruct Hs as [Hs|Hs]; rewrite E1 in Hs; [done|]. injection Hs as Hs. by rewrite <-Hs in Hk.
  - by destruct (obj_get "llm" raw) as [[]|].
Qed.

(** ** In the file *)

Context (GROUPS_DIR : list string).

Lemma config_path_in folder : configPath GROUPS_DIR folder = (GROUPS_DIR ++ [folder]) ++ ["container.json"].
Proof. unfold configPath. by rewrite <-(assoc_L (++)). Qed.

Lemma realpath_file fs dir name data :
  plain fs dir → name ≠ "." → name ≠ ".." → fs !! (dir ++ [name]) = Some (NFile data) →
  realpath fs (dir ++ [name]) = Some (dir ++ [name]).
Proof.
  intros Hd H1 H2 E. rewrite realpath_plain by done. cbn [walk].
  rewrite !bool_decide_eq_false_2 by done. by rewrite E.
Qed.
Lemma at_real_snoc fs dir name : at_real fs (dir ++ [name]) = fs !! (dir ++ [name]).
Proof. unfold at_real. by destruct (dir ++ [name]) eqn:E; [destruct dir|]. Qed.
Lemma read_file_at fs dir name data :
  plain fs dir → name ≠ "." → name ≠ ".." → fs !! (dir ++ [name]) = Some (NFile data) →
  readFile fs (dir ++ [name]) = Some data.
Proof. intros Hd H1 H2 E. unfold readFile. by rewrite (realpath_file fs dir name data), at_real_snoc, E. Qed.
Lemma write_file_at fs dir name data data' :
  plain fs dir → name ≠ "." → name ≠ ".." → fs !! (dir ++ [name]) = Some (NFile data) →
  write_file (dir ++ [name]) data' fs = (Ok tt, <[dir ++ [name] := NFile data']> fs).
Proof.
  intros Hd H1 H2 E. unfold write_file. rewrite bind_gets, (realpath_file fs dir name data) by done.
  rewrite bind_gets, at_real_snoc, E. done.
Qed.
Lemma plain_write fs dir p data data' :
  plain fs dir → fs !! p = Some (NFile data) → plain (<[p := NFile data']> fs) dir.
Proof.
  intros H E. refine (plain_mono _ _ _ _ H). intros q Hq. rewrite lookup_insert_ne; [done|]. congruence.
Qed.

Lemma read_config fs folder text raw :
  plain fs (GROUPS_DIR ++ [folder]) → fs !! configPath GROUPS_DIR folder = Some (NFile text) →
  JSON_parse text = Some (JObj raw) →
  readContainerConfig frac_value GROUPS_DIR folder fs =
    (match config_of frac_value raw with Ok c => Ok c | Throw e => Throw e end, fs).
Proof.
  intros Hd E Hp. unfold readContainerConfig. rewrite bind_gets. rewrite config_path_in in E |- *.
  unfold existsSync at 1. rewrite (realpath_file fs _ _ text), bool_decide_eq_true_2 by done. cbn [negb].
  rewrite bind_gets, (read_file_at fs _ _ text) by done. cbn [mbind option_bind]. rewrite Hp.
  by destruct (config_of frac_value raw).
Qed.
Lemma write_config fs folder text c :
  plain fs (GROUPS_DIR ++ [folder]) → fs !! configPath GROUPS_DIR folder = Some (NFile text) →
  writeContainerConfig GROUPS_DIR folder c fs = (Ok tt, <[configPath GROUPS_DIR folder := NFile (config_text c)]> fs).
Proof.
  intros Hd E. unfold writeContainerConfig. rewrite bind_gets. unfold existsSync.
  rewrite realpath_root, bool_decide_eq_true_2 by done. rewrite bind_ret. rewrite config_path_in in E |- *.
  by apply (write_file_at fs _ _ text).
Qed.
Lemma config_text_parses c : wf_json (JObj (written c)) → JSON_parse (config_text c) = Some (JObj (written c)).
Proof. apply indent_line_roundtrip. Qed.

(** The configuration of a file, changed by [mutate] and read again. *)
Lemma update_reread folder fs text raw mutate c c' :
  plain fs (GROUPS_DIR ++ [folder]) → fs !! configPath GROUPS_DIR folder = Some (NFile text) →
  JSON_parse text = Some (JObj raw) → config_of frac_value raw = Ok c →
  llm_settled (obj_get "llm" raw) → whole_limits (obj_get "resources" raw) →
  mutate c = Ok c' → NoDup (map fst c') → (∀ k, cfg_get k c' = cfg_get k c ∨ wf_opt (cfg_get k c')) →
  cfg_get "llm" c' = cfg_get "llm" c →
  let fs' := <[configPath GROUPS_DIR folder := NFile (config_text c')]> fs in
  updateContainerConfig frac_value GROUPS_DIR folder mutate fs = (Ok c', fs') ∧
  ∃ c'', readContainerConfig frac_value GROUPS_DIR folder fs' = (Ok c'', fs') ∧
    (∀ k, cfg_get k c' = cfg_get k c → cfg_get k c'' = cfg_get k c) ∧
    ∀ k, k ≠ "llm" → cfg_get k c'' = field k (cfg_get k c').
Proof.
  intros Hd Ef Hp E Hs Hw Em Hn Hwk Hl fs'.
  assert (Hwf : wf_json (JObj (written c'))).
  { apply written_wf; [done|]. intros k. destruct (Hwk k) as [->|]; [|done]. apply (config_wf raw); auto. by apply parsed_wf in Hp. }
  assert (Hraw : NoDup (map fst raw)) by (apply (parsed_wf _ _) in Hp as [_ Hp]; by apply every_obj in Hp as [Hp _]).
  split.
  - unfold updateContainerConfig. rewrite bind_case, (read_config fs folder text raw), E, Em by done.
    by rewrite bind_case, (write_config fs folder text c') by done.
  - destruct (config_reread raw c c' E Hraw Hs Hn Hl) as (c'' & E' & Hl'' & Hf). exists c''. split_and!.
    + unfold fs'. rewrite (read_config _ folder (config_text c') (written c')), E'; [done|..].
      * by eapply plain_write.
      * by rewrite lookup_insert_eq.
      * by apply config_text_parses.
    + intros k Hk. by apply (kept_reread raw c c' c'' k); auto.
    + done.
Qed.
End numbers.

(** A limit of half a megabyte is read as no limit at all, and is gone after the
    next rewrite. *)
Theorem small_limit_is_none :
  let half (_ : string) : Q := 1 # 2 in
  let raw := [("resources", JObj [("memoryMb", JFrac "0.5")])] in
  match config_of half raw with
  | Ok c => cfg_get "resources" c = Some (JObj [("memoryMb", JNum 0)]) ∧
            match config_of half (written c) with Ok c' => cfg_get "resources" c' = None | Throw _ => False end
  | Throw _ => False
  end.
Proof. vm_compute. done. Qed.
