(* ===== verification/Attachments.v ===== *)
(** * Attachments across the container boundary (src/session-manager.ts,
    src/attachment-safety.ts, src/attachment-naming.ts, and the forwarding of
    src/modules/agent-to-agent/agent-route.ts)

    The session directory is mounted writable into its container, so whatever
    is below it may be a link the agent planted.  The container is taken to be
    still between two calls of one of these functions. *)
From Stdlib Require Import Ascii.
From stdpp Require Import pretty.
From S2P Require Import Prelude JsString Json Types Central Fs.

Local Open Scope string_scope.
Local Open Scope Z_scope.
Local Open Scope list_scope.
Local Open Scope prog_scope.

(** ** Names *)

Definition has_char (c : ascii) (s : string) : bool := bool_decide (is_Some (index_of c s)).

(** The separators and NUL are excluded, so [path.basename(name) === name]. *)
(*@ src/src/attachment-safety.ts 18-23 isSafeAttachmentName *)
Definition isSafeAttachmentName (name : string) : bool :=
  if bool_decide (name = "") then false
  else if bool_decide (name = ".") || bool_decide (name = "..") then false
  else negb (has_char "/" name || has_char "\" name || has_char "000" name).

(*@ src/src/attachment-naming.ts 20-37 MIME_TO_EXT *)
Definition MIME_TO_EXT : list (string * string) :=
  [("image/jpeg", "jpg"); ("image/png", "png"); ("image/webp", "webp"); ("image/gif", "gif");
   ("image/heic", "heic"); ("audio/ogg", "ogg"); ("audio/mpeg", "mp3"); ("audio/wav", "wav");
   ("audio/mp4", "m4a"); ("video/mp4", "mp4"); ("video/webm", "webm"); ("video/quicktime", "mov");
   ("application/pdf", "pdf"); ("text/plain", "txt"); ("application/json", "json");
   ("application/zip", "zip")].
(*@ src/src/attachment-naming.ts 44-52 TYPE_TO_EXT *)
Definition TYPE_TO_EXT : list (string * string) :=
  [("image", "jpg"); ("photo", "jpg"); ("sticker", "webp"); ("voice", "ogg"); ("audio", "mp3");
   ("video", "mp4"); ("animation", "mp4")].

(** [table[k] ?? ''], for a key that is none of Object.prototype's. *)
Definition table_get (k : string) (t : list (string * string)) : string :=
  match List.find (λ e, bool_decide (e.1 = k)) t with Some e => e.2 | None => "" end.

(*@ src/src/attachment-naming.ts 54-58 extForMime *)
Definition extForMime (mime : option json) : string :=
  match mime with
  | Some (JStr m) =>
      if bool_decide (m = "") then ""
      else table_get (toLowerCase (trim (List.hd "" (split_on ";" m)))) MIME_TO_EXT
  | _ => ""
  end.

(*@ src/src/attachment-naming.ts 63-68 ext *)
Definition derivedName (now : time) (att : list (string * json)) : string :=
  let ext := extForMime (obj_get "mimeType" att) in
  let ext := if bool_decide (ext = "") then
               match obj_get "type" att with
               | Some (JStr ty) => table_get (toLowerCase ty) TYPE_TO_EXT
               | _ => ""
               end
             else ext in
  if bool_decide (ext = "") then "attachment-" +:+ pretty now
  else "attachment-" +:+ pretty now +:+ "." +:+ ext.

(*@ src/src/attachment-naming.ts 60-69 deriveAttachmentName *)
Definition deriveAttachmentName (now : time) (att : list (string * json)) : string :=
  match obj_get "name" att with
  | Some (JStr explicit) => if bool_decide (explicit = "") then derivedName now att else explicit
  | _ => derivedName now att
  end.

(** ** The session directory *)

(*@ src/src/session-manager.ts 50-52 sessionsBaseDir *)
Definition sessionsBaseDir (DATA_DIR : list string) : list string := DATA_DIR ++ ["v2-sessions"].
(*@ src/src/session-manager.ts 111-113 sessionDir *)
Definition sessionDir (DATA_DIR : list string) (agentGroupId sessionId : string) : list string :=
  sessionsBaseDir DATA_DIR ++ [agentGroupId; sessionId].

Inductive IoKind := Inbox | Outbox.
Definition kind_name (k : IoKind) : string := match k with Inbox => "inbox" | Outbox => "outbox" end.

(** The checks on the component, once it is there. *)
(*@ src/src/session-manager.ts 87-103 stat *)
Definition checkIoRoot (root kindPath : list string) : fsM (option (list string)) :=
  let* stat := gets (λ fs, lstat fs kindPath) in
  match stat with
  | None => throw (Err "ENOENT")
  | Some NDir =>
      let* realRoot := gets (λ fs, realpath fs root) in
      let* realKind := gets (λ fs, realpath fs kindPath) in
      match realRoot, realKind with
      | Some realRoot, Some realKind =>
          if isPathInside realRoot realKind then ret (Some realKind) else ret None
      | _, _ => throw (Err "ENOENT")
      end
  | Some _ => ret None
  end.

(** [null] is [None], as is everything the [catch] swallows. *)
(*@ src/src/session-manager.ts 77-108 resolveSessionIoRoot *)
Definition resolveSessionIoRoot (root : list string) (kind : IoKind) (ensure : bool)
    : fsM (option (list string)) :=
  let kindPath := root ++ [kind_name kind] in
  try_catch
    (let* exists_ := gets (λ fs, existsSync fs kindPath) in
     (if ensure && negb exists_ then mkdirp kindPath else ret tt) ;;
     checkIoRoot root kindPath)
    (λ _, ret None).

(** ** Inbound: from content into the inbox *)

Definition obj_del (k : string) (l : list (string * json)) : list (string * json) :=
  List.filter (λ kv, negb (bool_decide (kv.1 = k))) l.

(** The checks between the inbox root and the write: the message's directory,
    made when missing, or [None] when it is refused. *)
(*@ src/src/session-manager.ts 433-462 inboxDir *)
Definition prepareInboxDir (realInboxBase : list string) (messageId : string)
    : fsM (option (list string)) :=
  let inboxDir := realInboxBase ++ [messageId] in
  let* exists_ := gets (λ fs, existsSync fs inboxDir) in
  let* stat := gets (λ fs, lstat fs inboxDir) in
  if exists_ && negb (is_dir stat) then ret None
  else
    let* made := try_catch (mkdirp inboxDir ;; ret true) (λ _, ret false) in
    if negb made then ret None
    else
      let* real := gets (λ fs, realpath fs inboxDir) in
      match real with
      | None => ret None
      | Some realInboxDir =>
          if isPathInside realInboxBase realInboxDir then ret (Some inboxDir) else ret None
      end.

(** One turn of the loop: the attachment as it is afterwards, and whether it
    changed.  [null.data] throws. *)
(*@ src/src/session-manager.ts 414-487 att *)
Definition extractOne (root : list string) (now : time) (messageId : string) (att : json)
    : fsM (json * bool) :=
  match att with
  | JNull => throw TypeError
  | JObj fields =>
      match obj_get "data" fields with
      | Some (JStr data) =>
          let rawName := deriveAttachmentName now fields in
          let filename := if isSafeAttachmentName rawName then rawName
                          else "attachment-" +:+ pretty now in
          let* base := resolveSessionIoRoot root Inbox true in
          match base with
          | None => ret (att, false)
          | Some realInboxBase =>
              let* dir := prepareInboxDir realInboxBase messageId in
              match dir with
              | None => ret (att, false)
              | Some inboxDir =>
                  let* written := try_catch
                    (write_new (inboxDir ++ [filename]) (from_base64 data) ;; ret true)
                    (λ e, match e with
                          | Err msg => if bool_decide (msg = "EEXIST") then ret false else throw e
                          | _ => throw e
                          end) in
                  if written : bool then
                    ret (JObj (obj_del "data"
                           (obj_set "localPath" (JStr ("inbox/" +:+ messageId +:+ "/" +:+ filename))
                              (obj_set "name" (JStr filename) fields))), true)
                  else ret (att, false)
              end
          end
      | _ => ret (att, false)
      end
  | _ => ret (att, false)
  end.

Fixpoint extractAll (root : list string) (now : time) (messageId : string) (atts : list json)
    : fsM (list json * bool) :=
  match atts with
  | [] => ret ([], false)
  | att :: rest =>
      let* (att', c) := extractOne root now messageId att in
      let* (rest', c') := extractAll root now messageId rest in
      ret (att' :: rest', c || c')
  end.

(** [parsed.attachments] throws on a content that is [null]. *)
(*@ src/src/session-manager.ts 392-490 extractAttachmentFiles *)
Definition extractAttachmentFiles (root : list string) (now : time) (messageId contentStr : string)
    : fsM string :=
  match JSON_parse contentStr with
  | None => ret contentStr
  | Some parsed =>
      match jget "attachments" parsed with
      | AThrow => throw TypeError
      | AValue (Some (JArr attachments)) =>
          if negb (isSafeAttachmentName messageId) then ret contentStr
          else
            let* (atts, changed) := extractAll root now messageId attachments in
            match parsed with
            | JObj l => if changed : bool
                        then ret (JSON_stringify (JObj (obj_set "attachments" (JArr atts) l)))
                        else ret contentStr
            | _ => ret contentStr
            end
      | AValue _ => ret contentStr
      end
  end.

(** ** Outbound: from the outbox *)

(** [None] is [undefined]. *)
(*@ src/src/session-manager.ts 626-644 outboxDir *)
Definition outboxDirOf (fs : Fs) (realOutboxBase : list string) (messageId : string)
    : option (list string * list string) :=
  let outboxDir := realOutboxBase ++ [messageId] in
  if negb (existsSync fs outboxDir) then None
  else match lstat fs outboxDir, realpath fs outboxDir with
       | Some NDir, Some realOutboxDir =>
           if isPathInside realOutboxBase realOutboxDir then Some (outboxDir, realOutboxDir) else None
       | _, _ => None
       end.

(*@ src/src/session-manager.ts 647-669 filename *)
Definition readOne (fs : Fs) (outboxDir realOutboxDir : list string) (filename : string)
    : list (string * string) :=
  if negb (isSafeAttachmentName filename) then []
  else
    let filePath := outboxDir ++ [filename] in
    match lstat fs filePath, realpath fs filePath with
    | Some (NFile _), Some realFilePath =>
        if isPathInside realOutboxDir realFilePath then
          match readFile fs realFilePath with Some d => [(filename, d)] | None => [] end
        else []
    | _, _ => []
    end.

(*@ src/src/session-manager.ts 609-671 readOutboxFiles *)
Definition readOutboxFiles (root : list string) (messageId : string) (filenames : list string)
    : fsM (option (list (string * string))) :=
  if negb (isSafeAttachmentName messageId) then ret None
  else
    let* base := resolveSessionIoRoot root Outbox false in
    match base with
    | None => ret None
    | Some realOutboxBase =>
        let* dir := gets (λ fs, outboxDirOf fs realOutboxBase messageId) in
        match dir with
        | None => ret None
        | Some (outboxDir, realOutboxDir) =>
            let* files := gets (λ fs, flat_map (readOne fs outboxDir realOutboxDir) filenames) in
            ret (match files with [] => None | _ => Some files end)
        end
    end.

(*@ src/src/session-manager.ts 679-708 clearOutbox *)
Definition clearOutbox (root : list string) (messageId : string) : fsM unit :=
  if negb (isSafeAttachmentName messageId) then ret tt
  else
    let* base := resolveSessionIoRoot root Outbox false in
    match base with
    | None => ret tt
    | Some realOutboxBase =>
        let* dir := gets (λ fs, outboxDirOf fs realOutboxBase messageId) in
        match dir with
        | None => ret tt
        | Some (_, realOutboxDir) => rm_rf realOutboxDir
        end
    end.

(** ** Between two agents *)

(*@ src/src/modules/agent-to-agent/agent-route.ts 67-72 ForwardedAttachment *)
Definition ForwardedAttachment (messageId filename : string) : json :=
  JObj [("name", JStr filename); ("filename", JStr filename); ("type", JStr "file");
        ("localPath", JStr ("inbox/" +:+ messageId +:+ "/" +:+ filename))].

(** [fs.copyFileSync(src, dst, COPYFILE_EXCL)], which follows [src]. *)
Definition copy_new (src dst : list string) : fsM unit :=
  let* data := gets (λ fs, readFile fs src) in
  match data with
  | None => throw (Err "ENOENT")
  | Some d => write_new dst d
  end.

(** One turn of the loop over the file names. *)
(*@ src/src/modules/agent-to-agent/agent-route.ts 132-179 filename *)
Definition forwardOne (realSourceOutbox sourceDir targetInboxDir : list string)
    (targetMessageId filename : string) : fsM (list json) :=
  if negb (isSafeAttachmentName filename) then ret []
  else
    let src := sourceDir ++ [filename] in
    let* exists_ := gets (λ fs, existsSync fs src) in
    if negb exists_ then ret []
    else
      let* stat := gets (λ fs, lstat fs src) in
      let* real := gets (λ fs, realpath fs src) in
      match stat, real with
      | Some (NFile _), Some real =>
          if isPathInside realSourceOutbox real then
            copy_new src (targetInboxDir ++ [filename]) ;;
            ret [ForwardedAttachment targetMessageId filename]
          else ret []
      | _, _ => ret []
      end.

Fixpoint forwardEach (realSourceOutbox sourceDir targetInboxDir : list string)
    (targetMessageId : string) (filenames : list string) : fsM (list json) :=
  match filenames with
  | [] => ret []
  | f :: rest =>
      let* a := forwardOne realSourceOutbox sourceDir targetInboxDir targetMessageId f in
      let* b := forwardEach realSourceOutbox sourceDir targetInboxDir targetMessageId rest in
      ret (a ++ b)
  end.

(*@ src/src/modules/agent-to-agent/agent-route.ts 85-181 forwardAttachedFiles *)
Definition forwardAttachedFiles (srcRoot : list string) (srcMessageId : string)
    (filenames : list string) (dstRoot : list string) (dstMessageId : string) : fsM (list json) :=
  match filenames with
  | [] => ret []
  | _ =>
      let* src := resolveSessionIoRoot srcRoot Outbox false in
      match src with
      | None => ret []
      | Some realSourceOutbox =>
          if negb (isSafeAttachmentName srcMessageId) || negb (isSafeAttachmentName dstMessageId)
          then ret []
          else
            let sourceDir := realSourceOutbox ++ [srcMessageId] in
            let* there := gets (λ fs, existsSync fs sourceDir) in
            if negb there then ret []
            else
              let* dst := resolveSessionIoRoot dstRoot Inbox true in
              match dst with
              | None => ret []
              | Some realTargetInbox =>
                  let targetInboxDir := realTargetInbox ++ [dstMessageId] in
                  mkdirp targetInboxDir ;;
                  forwardEach realSourceOutbox sourceDir targetInboxDir dstMessageId filenames
              end
      end
  end.

Definition strings_of (l : list json) : list string :=
  flat_map (λ j, match j with JStr s => [s] | _ => [] end) l.

(** [parsed.files] throws on a content that is [null]. *)
(*@ src/src/modules/agent-to-agent/agent-route.ts 518-555 forwardFileAttachments *)
Definition forwardFileAttachments (srcRoot : list string) (msgId content : string)
    (dstRoot : list string) (a2aMsgId : string) : fsM string :=
  match JSON_parse content with
  | None => ret content
  | Some parsed =>
      match jget "files" parsed with
      | AThrow => throw TypeError
      | AValue (Some (JArr files)) =>
          match strings_of files, parsed with
          | [], _ => ret content
          | filenames, JObj l =>
              let* attachments := forwardAttachedFiles srcRoot msgId filenames dstRoot a2aMsgId in
              let existing := match obj_get "attachments" l with Some (JArr a) => a | _ => [] end in
              ret (JSON_stringify (JObj (obj_set "attachments" (JArr (existing ++ attachments)) l)))
          | _, _ => ret content
          end
      | AValue _ => ret content
      end
  end.

(** ** The attachment paths stay inside the session

    For a session root that is a real directory, whatever the agent planted
    below it. *)

Lemma safe_not_dots n : isSafeAttachmentName n = true → n ≠ "." ∧ n ≠ "..".
Proof.
  unfold isSafeAttachmentName. destruct_if; [done|]. destruct_if; [done|]. intros _. by to_prop.
Qed.

Lemma plain_at_real fs R : plain fs R → at_real fs R = Some NDir.
Proof.
  intros (Hd & _). destruct R as [|c q] using rev_ind; [done|].
  unfold at_real. rewrite (Hd q c [] eq_refl). by destruct (q ++ [c]) eqn:E; [destruct q|].
Qed.

(** Making a directory in a plain one adds at most that directory. *)
Lemma mkdirp_plain fs R c :
  plain fs R →
  (mkdirp (R ++ [c]) fs).2 = fs ∨
  fs !! (R ++ [c]) = None ∧ mkdirp (R ++ [c]) fs = (Ok tt, <[R ++ [c] := NDir]> fs).
Proof.
  intros HR. unfold mkdirp. rewrite rev_unit. cbn [mkdirp_rev].
  assert (rev (c :: rev R) = R ++ [c]) as -> by (cbn; by rewrite rev_involutive).
  unfold bind, gets. destruct (realpath fs (R ++ [c])) as [q|] eqn:E.
  { destruct (is_dir (at_real fs q)); simpl; by left. }
  assert (mkdirp_rev (rev R) fs = (Ok tt, fs)) as ->.
  { destruct R as [|x R] using rev_ind; [done|]. rewrite rev_unit. cbn [mkdirp_rev].
    assert (rev (x :: rev R) = R ++ [x]) as -> by (cbn; by rewrite rev_involutive).
    unfold bind, gets. rewrite (realpath_root _ _ HR). by rewrite (plain_at_real _ _ HR). }
  cbn. rewrite rev_involutive, (realpath_root _ _ HR), (plain_at_real _ _ HR), andb_true_r.
  destruct (bool_decide_reflect (fs !! (R ++ [c]) = None)) as [Hn|Hn]; simpl; [|by left].
  right. by split.
Qed.

(** ** Growing a file system in allowed places only *)

Section extend.
Context (root : list string) (allowed : list string → Prop).

Definition extends (fs fs' : Fs) : Prop :=
  ∀ p, fs' !! p = fs !! p ∨ fs !! p = None ∧ allowed p.

Definition grown (fs0 fs : Fs) : Prop := plain fs root ∧ extends fs0 fs.

Lemma extends_refl fs : extends fs fs.
Proof. intros p. by left. Qed.
Lemma extends_insert fs0 fs p n :
  extends fs0 fs → fs !! p = None → allowed p → extends fs0 (<[p := n]> fs).
Proof.
  intros He Hp Ha q. destruct (decide (q = p)) as [->|Hq].
  - right. split; [|done]. destruct (He p) as [E|[E _]]; congruence.
  - rewrite lookup_insert_ne by done. apply He.
Qed.
Lemma plain_insert fs R p n : fs !! p = None → plain fs R → plain (<[p := n]> fs) R.
Proof.
  intros Hp. apply plain_mono. intros q Hq. rewrite lookup_insert_ne; [done|]. congruence.
Qed.
Lemma grown_insert fs0 fs p n :
  grown fs0 fs → fs !! p = None → allowed p → grown fs0 (<[p := n]> fs).
Proof. intros [HR He] Hp Ha. split; [by apply plain_insert|by apply extends_insert]. Qed.

Lemma mkdirp_grown fs0 fs R c :
  grown fs0 fs → plain fs R → allowed (R ++ [c]) → grown fs0 (mkdirp (R ++ [c]) fs).2.
Proof.
  intros Hg HR Ha. destruct (mkdirp_plain fs R c HR) as [->|[Hn ->]]; [done|].
  by apply grown_insert.
Qed.
Lemma mkdirp_plain_R fs R R' c :
  plain fs R → plain fs R' → plain (mkdirp (R ++ [c]) fs).2 R'.
Proof.
  intros HR HR'. destruct (mkdirp_plain fs R c HR) as [->|[Hn ->]]; [done|]. by apply plain_insert.
Qed.

Lemma checkIoRoot_spec fs kind :
  plain fs root →
  let K := root ++ [kind_name kind] in
  checkIoRoot root K fs = (Ok (Some K), fs) ∧ plain fs K ∨
  checkIoRoot root K fs = (Ok None, fs) ∨ ∃ e, checkIoRoot root K fs = (Throw e, fs).
Proof.
  intros HR K. unfold checkIoRoot, bind, gets. unfold K. rewrite (lstat_plain _ _ _ HR).
  destruct (fs !! (root ++ [kind_name kind])) as [[]|] eqn:E; [by eauto| |by eauto|by eauto].
  rewrite (realpath_root _ _ HR).
  assert (plain fs (root ++ [kind_name kind])) as HK by (apply plain_snoc; [done..| |]; by destruct kind).
  rewrite (realpath_root _ _ HK). unfold isPathInside. rewrite relative_prefix. left.
  by destruct kind.
Qed.

(** The session I/O root, once resolved, is the plain subdirectory, and making
    it adds at most that directory. *)
Lemma resolve_spec fs kind ensure :
  plain fs root →
  let K := root ++ [kind_name kind] in
  let res := resolveSessionIoRoot root kind ensure fs in
  (res.2 = fs ∨ ensure = true ∧ fs !! K = None ∧ res.2 = <[K := NDir]> fs) ∧
  (res.1 = Ok None ∨ res.1 = Ok (Some K) ∧ plain res.2 K).
Proof.
  intros HR K.
  assert (resolveSessionIoRoot root kind ensure fs =
    match (if ensure && negb (existsSync fs K) then mkdirp K else ret tt) fs with
    | (Ok _, s1) => match checkIoRoot root K s1 with
                    | (Ok a, s') => (Ok a, s') | (Throw e, s') => (Ok None, s') end
    | (Throw e, s1) => (Ok None, s1)
    end) as ->.
  { unfold resolveSessionIoRoot, try_catch, bind, gets. fold K. cbn.
    by destruct (ensure && _); [destruct (mkdirp K fs) as [[]]|]. }
  assert (∀ fs1, plain fs1 root →
    let r := match checkIoRoot root K fs1 with
             | (Ok a, s') => (Ok a, s') | (Throw e, s') => (Ok (E:=exn) None, s') end in
    r.2 = fs1 ∧ (r.1 = Ok None ∨ r.1 = Ok (Some K) ∧ plain r.2 K)) as Hchk.
  { intros fs1 H1. destruct (checkIoRoot_spec fs1 kind H1) as [[E ?]|[E|[e E]]]; fold K in E;
      rewrite E; cbn; auto. }
  destruct (ensure && negb (existsSync fs K)) eqn:Eb; [|destruct (Hchk fs HR); cbn; auto].
  apply andb_true_iff in Eb as [-> _].
  destruct (mkdirp_plain fs root (kind_name kind) HR) as [E|[Hn E]]; fold K in E.
  - destruct (mkdirp K fs) as [[u|e] fs1]; cbn in E; subst fs1; [|by cbn; auto].
    destruct (Hchk fs HR); auto.
  - rewrite E. destruct (Hchk (<[K:=NDir]> fs)) as [E1 E2]; [by apply plain_insert|].
    split; [right; auto|done].
Qed.
End extend.

(** ** Inbound *)

(** Where the attachments of message [id] may be put. *)
Definition inbox_path (root : list string) (id : string) (p : list string) : Prop :=
  p = root ++ ["inbox"] ∨ p = (root ++ ["inbox"]) ++ [id] ∨
  ∃ f, p = ((root ++ ["inbox"]) ++ [id]) ++ [f].

Lemma prepareInboxDir_spec fs base id :
  plain fs base → isSafeAttachmentName id = true →
  let D := base ++ [id] in
  let res := prepareInboxDir base id fs in
  (res.2 = fs ∨ fs !! D = None ∧ res.2 = <[D := NDir]> fs) ∧
  (res.1 = Ok None ∨ res.1 = Ok (Some D) ∧ plain res.2 D).
Proof.
  intros HB Hid D. destruct (safe_not_dots _ Hid) as [Hd1 Hd2].
  set (fin fs1 := match realpath fs1 D with
     | Some r => if isPathInside base r then Some D else None | None => None end).
  assert (prepareInboxDir base id fs =
    if existsSync fs D && negb (is_dir (fs !! D)) then (Ok None, fs)
    else match mkdirp D fs with
         | (Ok _, fs1) => (Ok (fin fs1), fs1)
         | (Throw _, fs1) => (Ok None, fs1)
         end) as ->.
  { unfold prepareInboxDir, try_catch, bind, gets. fold D. cbn. unfold D at 2.
    rewrite (lstat_plain _ _ _ HB). fold D. destruct_if; [done|].
    destruct (mkdirp D fs) as [[u|e] fs1]; cbn; [|done]. unfold fin.
    destruct (realpath fs1 D); [|done]. by destruct_if. }
  destruct (existsSync fs D && negb (is_dir (fs !! D))) eqn:E1; [cbn; auto|].
  assert (∀ fs1, plain fs1 D → fin fs1 = None ∨ fin fs1 = Some D) as Hfin.
  { intros fs1 HD. unfold fin. destruct (realpath fs1 D); [|by left]. destruct_if; auto. }
  assert (∀ fs1, plain fs1 base → fs1 !! D = Some NDir → plain fs1 D) as HplD.
  { intros fs1 H1 H2. by apply plain_snoc. }
  destruct (mkdirp_plain fs base id HB) as [E|[Hn E]]; fold D in E.
  - destruct (mkdirp D fs) as [[u|e] fs1] eqn:Em; cbn in E; subst fs1; [|cbn; auto].
    cbn. split; [by left|]. destruct (fs !! D) as [n|] eqn:ED.
    + destruct (is_dir (Some n)) eqn:En.
      * destruct n; try done. destruct (Hfin fs) as [->|Hf]; [by apply HplD|by left|].
        right. split; [by rewrite Hf|by apply HplD].
      * rewrite andb_true_r in E1. unfold existsSync in E1. to_prop. left. unfold fin.
        destruct (realpath fs D); [|done]. destruct E1; eauto.
    + left. unfold fin. rewrite <-(app_nil_r D). unfold D. rewrite <-app_assoc.
      rewrite (realpath_plain _ _ _ HB). cbn. rewrite !bool_decide_eq_false_2 by done.
      fold D. by rewrite ED.
  - fold D in Hn. rewrite E. cbn. split; [by right|].
    assert (plain (<[D:=NDir]> fs) D) as HD.
    { apply HplD; [by apply plain_insert|]. by rewrite lookup_insert_eq. }
    destruct (Hfin _ HD) as [->| ->]; auto.
Qed.

Lemma write_new_plain fs D f data :
  plain fs D →
  write_new (D ++ [f]) data fs =
  if bool_decide (is_Some (fs !! (D ++ [f]))) then (Throw (Err "EEXIST"), fs)
  else (Ok tt, <[D ++ [f] := NFile data]> fs).
Proof.
  intros HD. unfold write_new, bind, gets, parent, basename. rewrite removelast_last, last_last.
  rewrite (realpath_root _ _ HD), (plain_at_real _ _ HD). cbn. by destruct_if.
Qed.

Section inbound.
Context (root : list string) (now : time) (id : string).

Lemma extractOne_grown fs0 att :
  isSafeAttachmentName id = true →
  preserves (grown root (inbox_path root id) fs0) (extractOne root now id att).
Proof.
  intros Hid fs [HR He]. unfold extractOne. destruct att as [| | | | | |fields]; try done.
  destruct (obj_get "data" fields) as [[| | | |data| |]|]; try done.
  set (f := if isSafeAttachmentName _ then _ else _).
  unfold bind at 1. destruct (resolve_spec root fs Inbox true HR) as [Hg Hr].
  change (kind_name Inbox) with "inbox" in *. set (B := root ++ ["inbox"]) in *.
  destruct (resolveSessionIoRoot root Inbox true fs) as [r fs1]. cbn [fst snd] in *.
  assert (grown root (inbox_path root id) fs0 fs1) as Hg1.
  { destruct Hg as [->|(_ & Hn & ->)]; [by split|]. apply grown_insert; [by split|done|by left]. }
  destruct Hr as [->|[-> HB]]; [done|]. cbn beta iota.
  unfold bind at 1. destruct (prepareInboxDir_spec fs1 B id HB Hid) as [Hg2 Hr2].
  destruct (prepareInboxDir B id fs1) as [r2 fs2]. cbn [fst snd] in *.
  assert (grown root (inbox_path root id) fs0 fs2) as Hg3.
  { destruct Hg2 as [->|[Hn ->]]; [done|]. apply grown_insert; [done|done|]. right. by left. }
  destruct Hr2 as [->|[-> HD]]; [done|]. cbn beta iota.
  unfold bind at 1, try_catch, bind at 1. rewrite (write_new_plain _ _ _ _ HD).
  destruct_if; cbn; [done|]. apply grown_insert; [done| |right; right; by exists f].
  apply bool_decide_eq_false in Heqb. by destruct (fs2 !! _) eqn:E; [destruct Heqb|].
Qed.

Lemma extractAll_grown fs0 atts :
  isSafeAttachmentName id = true →
  preserves (grown root (inbox_path root id) fs0) (extractAll root now id atts).
Proof.
  intros Hid. induction atts as [|a atts IH]; cbn; [apply preserves_ret|].
  apply preserves_bind; [by apply extractOne_grown|]. intros [a' c].
  apply preserves_bind; [apply IH|]. intros [l c']. apply preserves_ret.
Qed.
End inbound.

(** C31: Saving the attachments of an inbound message only ever creates: the
    inbox, the message's own directory in it, and files directly in that
    directory.  Nothing that exists is overwritten or removed, and no link the
    agent planted below the session root takes a write anywhere else, whatever
    the message id, the content and the file names are. *)
Theorem inbound_attachments_contained (root : list string) (now : time) (id content : string)
    (fs : gmap (list string) node) (p : list string) :
  plain fs root →
  let fs' := (extractAttachmentFiles root now id content fs).2 in
  fs' !! p ≠ fs !! p → fs !! p = None ∧ isSafeAttachmentName id = true ∧ inbox_path root id p.
Proof.
  intros HR fs' Hp. unfold fs', extractAttachmentFiles in *. clear fs'.
  destruct (JSON_parse content) as [j|]; [|done].
  destruct (jget "attachments" j) as [|[[| | | | |atts|]|]]; try done.
  destruct (isSafeAttachmentName id) eqn:Hid; cbn [negb] in *; [|done].
  pose proof (extractAll_grown root now id fs atts Hid fs (conj HR (extends_refl _ fs))) as [_ He].
  assert ((bind (extractAll root now id atts) (λ '(atts, changed),
    match j with
    | JObj l => if changed : bool then ret (JSON_stringify (JObj (obj_set "attachments" (JArr atts) l)))
                else ret content
    | _ => ret content end) fs).2 = (extractAll root now id atts fs).2) as E.
  { unfold bind. destruct (extractAll root now id atts fs) as [[[l c]|e] fs1]; [|done].
    destruct j; try done. by destruct c. }
  rewrite E in Hp. destruct (He p) as [H|[H1 H2]]; [done|auto].
Qed.

(** A session whose inbox the agent filled with links out of it. *)
Definition planted : gmap (list string) node :=
  list_to_map [(["d"], NDir); (["d"; "s"], NDir); (["etc"], NDir);
               (["d"; "s"; "inbox"], NDir);
               (["d"; "s"; "inbox"; "m"], NLink true ["etc"]);
               (["d"; "s"; "outbox"], NDir); (["d"; "s"; "outbox"; "m"], NLink true ["etc"])].
Definition quoted (s : string) : string := String (Ascii.ascii_of_nat 34) (s +:+ String (Ascii.ascii_of_nat 34) "").
Definition payload : string :=
  JSON_stringify (JObj [("attachments", JArr [JObj [("name", JStr "f"); ("data", JStr "aGk=")]])]).

Lemma planted_plain : plain planted ["d"; "s"].
Proof.
  split_and!; [|by apply (bool_decide_unpack _)..]. intros p c q E.
  destruct p as [|a [|b p]]; simplify_eq/=; [by vm_compute..|]. by destruct p.
Qed.

Example inbound_attachments_contained_witness :
  let fs' := (extractAttachmentFiles ["d"; "s"] 5 "n" payload planted).2 in
  fs' !! ["d"; "s"; "inbox"; "n"; "f"] ≠ planted !! ["d"; "s"; "inbox"; "n"; "f"] ∧
  planted !! ["d"; "s"; "inbox"; "n"; "f"] = None ∧ isSafeAttachmentName "n" = true ∧
  inbox_path ["d"; "s"] "n" ["d"; "s"; "inbox"; "n"; "f"].
Proof.
  split; [vm_compute; discriminate|].
  apply (inbound_attachments_contained ["d"; "s"] 5 "n" payload planted ["d"; "s"; "inbox"; "n"; "f"]
           planted_plain).
  vm_compute. discriminate.
Defined.

(** ** Outbound *)

Lemma outboxDirOf_plain fs base id r :
  plain fs base → isSafeAttachmentName id = true →
  outboxDirOf fs base id = Some r →
  r = (base ++ [id], base ++ [id]) ∧ plain fs (base ++ [id]).
Proof.
  intros HB Hid. destruct (safe_not_dots _ Hid). unfold outboxDirOf.
  rewrite (lstat_plain _ _ _ HB). destruct_if; [done|].
  destruct (fs !! (base ++ [id])) as [[]|] eqn:E; [done| |done|done].
  assert (plain fs (base ++ [id])) as HD by by apply plain_snoc.
  rewrite (realpath_root _ _ HD). destruct_if; [|done]. intros [= <-]. done.
Qed.

Lemma resolve_outbox root fs :
  plain fs root →
  let K := root ++ ["outbox"] in
  resolveSessionIoRoot root Outbox false fs = (Ok None, fs) ∨
  resolveSessionIoRoot root Outbox false fs = (Ok (Some K), fs) ∧ plain fs K.
Proof.
  intros HR K. destruct (resolve_spec root fs Outbox false HR) as [Hg Hr].
  change (kind_name Outbox) with "outbox" in *. fold K in Hg, Hr.
  destruct (resolveSessionIoRoot root Outbox false fs) as [r fs1]. cbn in *.
  destruct Hg as [->|(? & _)]; [|done]. destruct Hr as [->|[-> HK]]; auto.
Qed.

Lemma clearOutbox_cases root id fs :
  plain fs root →
  let D := (root ++ ["outbox"]) ++ [id] in
  clearOutbox root id fs = (Ok tt, fs) ∨
  isSafeAttachmentName id = true ∧
  clearOutbox root id fs =
    (Ok tt, filter (λ kv : list string * node, ¬ (D `prefix_of` kv.1)) fs).
Proof.
  intros HR D. unfold clearOutbox. destruct (isSafeAttachmentName id) eqn:Hid; cbn [negb]; [|by left].
  unfold bind, gets. destruct (resolve_outbox root fs HR) as [E1|[E1 HK]]; rewrite E1; [by left|].
  destruct (outboxDirOf fs (root ++ ["outbox"]) id) as [r|] eqn:E; [|by left].
  apply outboxDirOf_plain in E as [-> HD]; [|done..]. by right.
Qed.

(** Clearing the outbox of a delivered message removes only what is at or
    below [outbox/<message id>] of its own session, and it never throws: a
    link planted at any place of the path makes it do nothing. *)
Theorem clear_outbox_contained (root : list string) (id : string) (fs : gmap (list string) node)
    (p : list string) :
  plain fs root →
  (clearOutbox root id fs).1 = Ok tt ∧
  let fs' := (clearOutbox root id fs).2 in
  fs' !! p ≠ fs !! p →
  isSafeAttachmentName id = true ∧ ((root ++ ["outbox"]) ++ [id]) `prefix_of` p ∧ fs' !! p = None.
Proof.
  intros HR. destruct (clearOutbox_cases root id fs HR) as [->|[Hid ->]]; [done|].
  split; [done|]. cbn. set (D := (root ++ ["outbox"]) ++ [id]). intros Hp.
  destruct (decide (D `prefix_of` p)) as [Hd|Hd].
  - split_and!; [done..|]. apply map_lookup_filter_None. right. intros n _ Hn. by apply Hn.
  - exfalso. apply Hp. destruct (fs !! p) as [n|] eqn:En.
    + by apply map_lookup_filter_Some.
    + apply map_lookup_filter_None. by left.
Qed.

Example clear_outbox_contained_witness :
  (clearOutbox ["d"; "s"] "m" planted).1 = Ok tt ∧
  ((clearOutbox ["d"; "s"] "m" planted).2 !! ["etc"] ≠ planted !! ["etc"] →
   isSafeAttachmentName "m" = true ∧ ["d"; "s"; "outbox"; "m"] `prefix_of` ["etc"] ∧
   (clearOutbox ["d"; "s"] "m" planted).2 !! ["etc"] = None).
Proof. apply (clear_outbox_contained ["d"; "s"] "m" planted ["etc"]). exact planted_plain. Defined.

(** C32: What is read from the outbox for delivery is the content of a regular
    file directly in [outbox/<message id>] of the message's own session, under
    a name the message listed: no link is followed to any other file. *)
Theorem outbox_reads_contained (root : list string) (id : string) (filenames : list string)
    (fs : gmap (list string) node) (files : list (string * string)) (name data : string) :
  plain fs root →
  (readOutboxFiles root id filenames fs).1 = Ok (Some files) → (name, data) ∈ files →
  name ∈ filenames ∧ fs !! (root ++ ["outbox"; id; name]) = Some (NFile data).
Proof.
  intros HR. unfold readOutboxFiles. destruct (isSafeAttachmentName id) eqn:Hid; cbn [negb]; [|done].
  unfold bind, gets. destruct (resolve_outbox root fs HR) as [E1|[E1 HK]]; rewrite E1; [done|].
  destruct (outboxDirOf fs (root ++ ["outbox"]) id) as [r|] eqn:E; [|done].
  apply outboxDirOf_plain in E as [-> HD]; [|done..]. cbn.
  set (D := (root ++ ["outbox"]) ++ [id]) in *. intros Hf Hin.
  assert (files = flat_map (readOne fs D D) filenames) as ->.
  { destruct (flat_map (readOne fs D D) filenames); simplify_eq; done. }
  apply list_elem_of_In, in_flat_map in Hin as (f & Hf' & Hin). apply list_elem_of_In in Hf', Hin.
  unfold readOne in Hin. destruct (isSafeAttachmentName f) eqn:Hsf; cbn [negb] in Hin; [|set_solver].
  destruct (safe_not_dots _ Hsf). rewrite (lstat_plain _ _ _ HD) in Hin.
  destruct (fs !! (D ++ [f])) as [[d| |]|] eqn:Ef; try set_solver.
  assert (realpath fs (D ++ [f]) = Some (D ++ [f])) as Er.
  { rewrite (realpath_plain _ _ _ HD). cbn. rewrite !bool_decide_eq_false_2 by done. by rewrite Ef. }
  rewrite Er in Hin. destruct (isPathInside D (D ++ [f])); [|set_solver].
  assert (at_real fs (D ++ [f]) = Some (NFile d)) as Ea.
  { unfold at_real. destruct (D ++ [f]) eqn:E0; [by destruct D|done]. }
  unfold readFile in Hin. rewrite Er, Ea in Hin. apply list_elem_of_singleton in Hin. simplify_eq.
  split; [done|]. unfold D in Ef. by rewrite <-!app_assoc in Ef.
Qed.

Definition with_file : gmap (list string) node :=
  <[["d"; "s"; "outbox"; "n"] := NDir]> (<[["d"; "s"; "outbox"; "n"; "f"] := NFile "x"]>
    (<[["d"; "s"; "outbox"; "n"; "l"] := NLink true ["etc"; "p"]]>
      (<[["etc"; "p"] := NFile "secret"]> planted))).

Example outbox_reads_contained_witness :
  "f" ∈ ["l"; "f"] ∧ with_file !! (["d"; "s"] ++ ["outbox"; "n"; "f"]) = Some (NFile "x").
Proof.
  apply (outbox_reads_contained ["d"; "s"] "n" ["l"; "f"] with_file [("f", "x")] "f" "x").
  - unfold with_file. do 4 (apply plain_insert; [by vm_compute|]). exact planted_plain.
  - vm_compute. reflexivity.
  - left.
Defined.

(** Forwarding between two agents checks the target's inbox but not the
    message's directory in it: with a link planted at [inbox/<message id>] of
    the receiving session, the forwarded file is written where the link
    points, outside the session, while the same link stops the inbound path. *)
Theorem forward_follows_planted_link :
  let src := ["d"; "t"] in let dst := ["d"; "s"] in
  let fs := <[["d"; "t"] := NDir]> (<[["d"; "t"; "outbox"] := NDir]>
    (<[["d"; "t"; "outbox"; "o"] := NDir]>
      (<[["d"; "t"; "outbox"; "o"; "f"] := NFile "bytes"]> planted))) in
  (forwardAttachedFiles src "o" ["f"] dst "m" fs).2 !! ["etc"; "f"] = Some (NFile "bytes") ∧
  (extractAttachmentFiles dst 5 "m" payload fs).2 = fs.
Proof. intros src dst fs. split; apply (bool_decide_unpack _); vm_compute; exact I. Qed.
