(* ===== verification/SessionManager.v ===== *)
(** * Sessions and their files (src/session-manager.ts,
    src/modules/agent-to-agent/write-destinations.ts)

    The state of the host: the central database, the two databases of every
    session by (agent group, session), and the file system.  Ids the code draws
    with [Date.now()] and [Math.random()] are arguments. *)
From S2P Require Import Prelude JsString Json Types Central Permissions SessionDb ContainerDb SessionDbProofs Sessions Destinations Fs Attachments.

Local Open Scope string_scope.
Local Open Scope Z_scope.
Local Open Scope list_scope.
Local Open Scope prog_scope.

Record World := mkWorld {
  w_db : CentralDb;
  w_in : gmap (string * string) InboundDb;
  w_out : gmap (string * string) OutboundDb;
  w_fs : gmap (list string) node }.
Definition wM (A : Type) : Type := prog World exn A.

Definition set_db (db : CentralDb) (w : World) : World := mkWorld db (w_in w) (w_out w) (w_fs w).
Definition set_in (m : gmap (string * string) InboundDb) (w : World) : World :=
  mkWorld (w_db w) m (w_out w) (w_fs w).
Definition set_out (m : gmap (string * string) OutboundDb) (w : World) : World :=
  mkWorld (w_db w) (w_in w) m (w_fs w).
Definition set_fs (fs : gmap (list string) node) (w : World) : World :=
  mkWorld (w_db w) (w_in w) (w_out w) fs.

(** A statement on the central database, on one session's databases, or on the
    file system.  A database that is not there cannot be opened. *)
Definition central {A} (m : dbM A) : wM A :=
  λ w, let '(r, db) := m (w_db w) in (r, set_db db w).
Definition inbound {A} (key : string * string) (m : inM A) : wM A :=
  λ w, match w_in w !! key with
       | None => (Throw (Err "unable to open database file"), w)
       | Some d => let '(r, d') := m d in (r, set_in (<[key := d']> (w_in w)) w)
       end.
Definition outbound {A} (key : string * string) (m : outM A) : wM A :=
  λ w, match w_out w !! key with
       | None => (Throw (Err "unable to open database file"), w)
       | Some d => let '(r, d') := m d in (r, set_out (<[key := d']> (w_out w)) w)
       end.
Definition files {A} (m : fsM A) : wM A :=
  λ w, let '(r, fs) := m (w_fs w) in (r, set_fs fs w).
(** A read of the central database, of inbound.db, of outbound.db. *)
Definition db_get {A} (f : CentralDb → A) : wM A := gets (λ w, f (w_db w)).
Definition in_get {A} (key : string * string) (f : InboundDb → A) : wM A := inbound key (gets f).
Definition out_get {A} (key : string * string) (f : OutboundDb → A) : wM A := outbound key (gets f).

(** ** Resolving a session *)

(*@ src/src/session-manager.ts 142-146 isUserScopedSessionMode *)
Definition isUserScopedSessionMode (mode : SessionMode) : bool :=
  match mode with SMper_user | SMper_user_per_thread => true | _ => false end.

(** The existing session of lines 181-209, if any. *)
(*@ src/src/session-manager.ts 181-209 existing *)
Definition existingSession (agentGroupId : string) (messagingGroupId threadId : option string)
    (sessionMode : SessionMode) (ownerUserId rootSessionId : option string) (db : CentralDb)
    : option Session :=
  if truthy rootSessionId then findSessionForAgentRoot agentGroupId (default "" rootSessionId) db
  else if bool_decide (sessionMode = SMagent_shared) then findSessionByAgentGroup agentGroupId db
  else if truthy messagingGroupId then
    let lookupThreadId := match sessionMode with
                          | SMshared | SMper_user => None
                          | _ => threadId
                          end in
    if isUserScopedSessionMode sessionMode
    then findSessionForAgentOwner agentGroupId (default "" messagingGroupId)
           (default "" ownerUserId) lookupThreadId db
    else findSessionForAgent agentGroupId (default "" messagingGroupId) lookupThreadId db
  else None.

(** [id] is [generateId()] and [conv] the minted conversation id. *)
(*@ src/src/session-manager.ts 211-230 session *)
Definition freshSession (now : time) (id conv agentGroupId : string)
    (messagingGroupId threadId : option string) (sessionMode : SessionMode)
    (ownerUserId rootSessionId : option string) (sourceDepth : option Z) : Session :=
  let lookupThreadId := match sessionMode with
                        | SMper_thread | SMper_user_per_thread => threadId
                        | _ => None
                        end in
  mkSession id agentGroupId messagingGroupId lookupThreadId
    (if truthy rootSessionId then ownerUserId
     else if isUserScopedSessionMode sessionMode then ownerUserId else None)
    (Some (default id rootSessionId))
    (if truthy rootSessionId then None else Some conv)
    None active stopped None None
    (match sourceDepth with None => 0 | Some d => d + 1 end) now.

Section manager.
Context (DATA_DIR : list string).

Definition key_dir (key : string * string) : list string := sessionDir DATA_DIR key.1 key.2.

(** [CREATE TABLE IF NOT EXISTS] on a database that may be there already. *)
(*@ src/src/db/session-db.ts 13-18 ensureSchema *)
Definition ensureSchemas (key : string * string) : wM unit :=
  modify (λ w, set_in (<[key := default emptyInbound (w_in w !! key)]> (w_in w)) w) ;;
  modify (λ w, set_out (<[key := default emptyOutbound (w_out w !! key)]> (w_out w)) w).

(*@ src/src/session-manager.ts 249-256 initSessionFolder *)
Definition initSessionFolder (agentGroupId sessionId : string) : wM unit :=
  let dir := sessionDir DATA_DIR agentGroupId sessionId in
  files (mkdirp dir) ;;
  files (mkdirp (dir ++ ["outbox"])) ;;
  ensureSchemas (agentGroupId, sessionId).

(** The session, and whether it was created. *)
(*@ src/src/session-manager.ts 168-246 resolveSession *)
Definition resolveSession (now : time) (id conv agentGroupId : string)
    (messagingGroupId threadId : option string) (sessionMode : SessionMode)
    (ownerUserId rootSessionId : option string) (sourceDepth : option Z) : wM (Session * bool) :=
  if isUserScopedSessionMode sessionMode && negb (truthy ownerUserId)
  then throw (Err "ownerUserId is required for session_mode")
  else
    let* existing := db_get (existingSession agentGroupId messagingGroupId threadId sessionMode
                               ownerUserId rootSessionId) in
    match existing with
    | Some s => ret (s, false)
    | None =>
        let session := freshSession now id conv agentGroupId messagingGroupId threadId sessionMode
                         ownerUserId rootSessionId sourceDepth in
        central (createSession session) ;;
        initSessionFolder agentGroupId id ;;
        ret (session, true)
    end.

(** ** Projections into inbound.db *)

(*@ src/src/session-manager.ts 276-292 platformId *)
Definition routingOf (session : Session) (db : CentralDb) : Routing :=
  let mg := if truthy (s_messaging_group_id session)
            then getMessagingGroup (default "" (s_messaging_group_id session)) db else None in
  mkRouting (option_map mg_channel_type mg) (option_map mg_platform_id mg) (s_thread_id session).

(*@ src/src/session-manager.ts 269-297 writeSessionRouting *)
Definition writeSessionRouting (agentGroupId sessionId : string) : wM unit :=
  let key := (agentGroupId, sessionId) in
  let* there := gets (λ w, bool_decide (is_Some (w_in w !! key))) in
  if negb there then ret tt
  else
    let* session := db_get (getSession sessionId) in
    match session with
    | None => ret tt
    | Some session =>
        let* routing := db_get (routingOf session) in
        inbound key (upsertSessionRouting routing)
    end.

(** One destination as the container sees it, [None] when its target is gone. *)
(*@ src/src/modules/agent-to-agent/write-destinations.ts 26-50 resolved *)
Definition projectDestination (db : CentralDb) (row : AgentDestination) : option DestinationRow :=
  match ad_target_type row with
  | TargetChannel =>
      match getMessagingGroup (ad_target_id row) db with
      | None => None
      | Some mg => Some (mkDestinationRow (ad_local_name row)
                     (Some (default (ad_local_name row) (mg_name mg))) TargetChannel
                     (Some (mg_channel_type mg)) (Some (mg_platform_id mg)) None)
      end
  | TargetAgent =>
      match getAgentGroup db (ad_target_id row) with
      | None => None
      | Some ag => Some (mkDestinationRow (ad_local_name row) (Some (ag_name ag)) TargetAgent
                     None None (Some (ag_id ag)))
      end
  end.

(*@ src/src/modules/agent-to-agent/write-destinations.ts 19-59 writeDestinations *)
Definition writeDestinations (agentGroupId sessionId : string) : wM unit :=
  let key := (agentGroupId, sessionId) in
  let* there := gets (λ w, bool_decide (is_Some (w_in w !! key))) in
  if negb there then ret tt
  else
    let* resolved := db_get (λ db, omap (projectDestination db) (getDestinations agentGroupId db)) in
    inbound key (replaceDestinations resolved).

(** ** Messages *)

(** The object literal that is passed to [insertMessage]. *)
(*@ src/src/session-manager.ts 306-372 writeSessionMessage *)
Definition writeSessionMessage (now : time) (agentGroupId sessionId : string) (m : InMessage)
    : wM unit :=
  let key := (agentGroupId, sessionId) in
  let* content := files (extractAttachmentFiles (key_dir key) now (im_id m) (im_content m)) in
  inbound key (insertMessage
    (mkInMessage (im_id m) (im_kind m) (im_timestamp m) (im_platformId m) (im_channelType m)
       (im_threadId m) content (im_processAfter m) (im_recurrence m)
       (Some (default true (im_trigger m))) (im_sourceSessionId m) (im_originUserId m)
       (im_conversationThreadId m))) ;;
  central (updateSession sessionId
    (mkSessionUpdate None None (Some (Some now)) None None)).

(** The fields of a message that are given; the others are absent. *)
Definition plain_message (id kind : string) (timestamp : stext) (content : string) : InMessage :=
  mkInMessage id kind timestamp None None None content None None None None None None.

(** [id] is the generated [sys-resp-...] id. *)
(*@ src/src/session-manager.ts 578-596 writeSystemResponse *)
Definition writeSystemResponse (now : time) (id agentGroupId sessionId requestId status : string)
    (result : json) : wM unit :=
  writeSessionMessage now agentGroupId sessionId
    (plain_message id "system" (TIso now)
       (JSON_stringify (JObj [("type", JStr "question_response"); ("questionId", JStr requestId);
                              ("status", JStr status); ("result", result)]))).

Record DirectMessage := mkDirectMessage {
  dm_id : string;
  dm_kind : string;
  dm_platformId : option string;
  dm_channelType : option string;
  dm_threadId : option string;
  dm_content : string;
  dm_inReplyTo : option string }.

(** [COALESCE(MAX(seq), 0) + 2] *)
Definition directSeq (d : OutboundDb) : Z := max_seq (map mo_seq (messages_out d)) + 2.

(** [INSERT OR IGNORE] of the row, over the open database. *)
(*@ src/src/session-manager.ts 547-558 messages_out *)
Definition insertDirect (now : time) (m : DirectMessage) : outM unit :=
  let* seq := gets directSeq in
  let r := mkMessageOut (dm_id m) seq (dm_inReplyTo m) (TSql (sql_now now)) None None (dm_kind m)
             (dm_platformId m) (dm_channelType m) (dm_threadId m) (dm_content m) None in
  let* clash := gets (λ d, sql_exists (λ r', bool_decide (mo_id r' = mo_id r) ||
                                            bool_decide (mo_seq r' = mo_seq r)) (messages_out d)) in
  if clash : bool then ret tt else modify (λ d, set_messages_out (messages_out d ++ [r]) d).

(** [busy] says that the container holds the lock past the 500 ms. *)
(*@ src/src/session-manager.ts 531-568 writeOutboundDirect *)
Definition writeOutboundDirect (now : time) (busy : bool) (agentGroupId sessionId : string)
    (m : DirectMessage) : wM bool :=
  try_catch
    ((if busy then throw (Err "database is locked")
      else outbound (agentGroupId, sessionId) (insertDirect now m)) ;;
     ret true)
    (λ _, ret false).

(** ** Container status *)

(*@ src/src/session-manager.ts 711-713 markContainerRunning *)
Definition markContainerRunning (now : time) (sessionId : string) : wM unit :=
  central (updateSession sessionId (mkSessionUpdate None (Some running) (Some (Some now)) None None)).
(*@ src/src/session-manager.ts 716-718 markContainerIdle *)
Definition markContainerIdle (sessionId : string) : wM unit :=
  central (updateSession sessionId (mkSessionUpdate None (Some idle) None None None)).
(*@ src/src/session-manager.ts 721-723 markContainerStopped *)
Definition markContainerStopped (sessionId : string) : wM unit :=
  central (updateSession sessionId (mkSessionUpdate None (Some stopped) None None None)).
End manager.

(** ** Which session a message lands in *)

(** ** Lookups *)

Lemma newest_Some p db s : newest p db = Some s → s ∈ sessions db ∧ p s = true.
Proof. unfold newest. by intros H%sql_first_by_Some%elem_of_sql_where. Qed.
Lemma newest_None p db s : newest p db = None → s ∈ sessions db → p s = false.
Proof.
  unfold newest. intros H%sql_first_by_None Hs. apply not_true_is_false. intros Hp.
  assert (Hin : s ∈ sql_where p (sessions db)) by by apply elem_of_sql_where.
  rewrite H in Hin. by apply not_elem_of_nil in Hin.
Qed.
Lemma newest_only p db s :
  newest p db = None → p s = true → newest p (set_sessions (sessions db ++ [s]) db) = Some s.
Proof.
  unfold newest. intros H%sql_first_by_None Hp. cbn. unfold sql_where in *.
  by rewrite List.filter_app, H; cbn; rewrite Hp.
Qed.

(** What the lookup of each mode promises about the session it returns. *)
Definition belongs (agentGroupId : string) (messagingGroupId threadId : option string)
    (mode : SessionMode) (ownerUserId rootSessionId : option string) (s : Session) : Prop :=
  s_agent_group_id s = agentGroupId ∧ s_status s = active ∧
  if truthy rootSessionId then s_root_session_id s = rootSessionId
  else match mode with
       | SMagent_shared => True
       | SMshared => s_messaging_group_id s = messagingGroupId ∧ s_thread_id s = None ∧
                     s_owner_user_id s = None
       | SMper_user => s_messaging_group_id s = messagingGroupId ∧ s_thread_id s = None ∧
                       s_owner_user_id s = ownerUserId
       | SMper_thread => s_messaging_group_id s = messagingGroupId ∧ s_owner_user_id s = None ∧
                         (threadId ≠ Some "" → s_thread_id s = threadId)
       | SMper_user_per_thread => s_messaging_group_id s = messagingGroupId ∧
                         s_owner_user_id s = ownerUserId ∧
                         (threadId ≠ Some "" → s_thread_id s = threadId)
       end.

Lemma truthy_default o : truthy o = true → Some (default "" o) = o.
Proof. by destruct o. Qed.
Lemma thread_matches_eq t s : thread_matches t s = true → t ≠ Some "" → s_thread_id s = t.
Proof.
  unfold thread_matches. destruct (truthy t) eqn:E.
  - intros (x & -> & ->)%sql_eq_true. done.
  - intros H%sql_is_true Ht. rewrite H. destruct t as [x|]; [|done]. cbn in E. to_prop. congruence.
Qed.

Lemma existing_belongs ag mg th mode own root db s :
  existingSession ag mg th mode own root db = Some s →
  (isUserScopedSessionMode mode = true → truthy own = true) →
  belongs ag mg th mode own root s ∧ s ∈ sessions db.
Proof.
  unfold existingSession, belongs. destruct (truthy root) eqn:Er.
  { intros [Hs Hp]%newest_Some _. cbn in Hp. to_prop. unfold is_active in *. to_prop.
    rewrite truthy_default in * by done. split_and!; congruence. }
  intros H Hown. destruct mode; cbn [isUserScopedSessionMode bool_decide] in H, Hown;
    repeat (rewrite bool_decide_eq_false_2 in H by done).
  3: { rewrite bool_decide_eq_true_2 in H by done. apply newest_Some in H as [Hs Hp]. cbn in Hp.
       to_prop. unfold is_active in *. by to_prop. }
  all: destruct (truthy mg) eqn:Em; [|done]; apply sql_first_Some in H as [Hs Hp]; cbn in Hp; to_prop;
    unfold is_active in *; to_prop; repeat rewrite truthy_default in * by auto.
  all: split; [|done]; split_and!; try congruence.
  all: try (by apply thread_matches_eq). all: by unfold thread_matches in *; cbn in *; to_prop.
Qed.

Lemma fresh_belongs now id conv ag mg th mode own root depth :
  belongs ag mg th mode own root (freshSession now id conv ag mg th mode own root depth).
Proof.
  unfold belongs, freshSession. cbn. split_and!; [done..|]. destruct (truthy root) eqn:Er.
  - by destruct root.
  - by destruct mode.
Qed.

Lemma createSession_ok s db u db' :
  s_root_session_id s ≠ None →
  createSession s db = (Ok u, db') → db' = set_sessions (sessions db ++ [s]) db ∧
  sql_exists (λ r, bool_decide (s_id r = s_id s)) (sessions db) = false.
Proof.
  intros Hr. unfold createSession, bind, query, gets. cbn. destruct_if; [|done]. intros [= <- <-].
  apply andb_true_iff in Heqb as [[H _]%andb_true_iff _]. to_prop. split; [|done].
  destruct s; cbn in *. by destruct s_root_session_id.
Qed.

Section files.
Context (DATA_DIR : list string).

Lemma ensureSchemas_db key w : w_db (ensureSchemas key w).2 = w_db w.
Proof. done. Qed.
Lemma initSessionFolder_db ag id w : w_db (initSessionFolder DATA_DIR ag id w).2 = w_db w.
Proof.
  unfold initSessionFolder, files, bind. destruct (mkdirp _ (w_fs w)) as [[u|e] fs1]; [|done].
  cbn. destruct (mkdirp _ fs1) as [[u'|e] fs2]; done.
Qed.
End files.

(** A run of [resolveSession] that returns: an existing session and no change,
    or a fresh one, appended. *)
Lemma resolveSession_cases DATA_DIR now id conv ag mg th mode own root depth w s created w' :
  resolveSession DATA_DIR now id conv ag mg th mode own root depth w = (Ok (s, created), w') →
  (isUserScopedSessionMode mode = true → truthy own = true) ∧
  (created = false ∧ w' = w ∧ existingSession ag mg th mode own root (w_db w) = Some s ∨
   created = true ∧ existingSession ag mg th mode own root (w_db w) = None ∧
   s = freshSession now id conv ag mg th mode own root depth ∧
   w_db w' = set_sessions (sessions (w_db w) ++ [s]) (w_db w)).
Proof.
  unfold resolveSession.
  destruct (isUserScopedSessionMode mode && negb (truthy own)) eqn:Eo; [done|].
  intros H. split.
  { intros Hm. rewrite Hm in Eo. cbn in Eo. by to_prop. }
  revert H. unfold bind at 1, db_get, gets at 1.
  destruct (existingSession ag mg th mode own root (w_db w)) as [s0|].
  { intros [= <- <- <-]. by left. }
  set (fs := freshSession now id conv ag mg th mode own root depth). unfold bind, central.
  destruct (createSession fs (w_db w)) as [[u|e] db1] eqn:Ec; [|done].
  apply createSession_ok in Ec as [-> _]; [|done].
  set (w1 := set_db _ w). pose proof (initSessionFolder_db DATA_DIR ag id w1) as Hi.
  destruct (initSessionFolder DATA_DIR ag id w1) as [[u'|e] w2]; [|done]. cbn in Hi.
  intros [= <- <- <-]. right. done.
Qed.

(** C28: Every message lands in a session of its own agent and its own lane:
    whatever [resolveSession] returns is an active session of that agent
    group; outside agent-shared mode it has the conversation, thread and owner
    the mode calls for, so no user, thread or chat is served another's
    session; a user-scoped mode without a user is an error that changes
    nothing; and no other session row is touched. *)
Theorem resolve_session_isolates DATA_DIR (now : time) (id conv ag : string)
    (mg th : option string) (mode : SessionMode) (own root : option string) (depth : option Z)
    (w : World) :
  match resolveSession DATA_DIR now id conv ag mg th mode own root depth w with
  | (Ok (s, created), w') =>
      belongs ag mg th mode own root s ∧
      sessions (w_db w') = sessions (w_db w) ++ (if created : bool then [s] else []) ∧
      s ∈ sessions (w_db w') ∧
      (isUserScopedSessionMode mode = true → truthy own = true)
  | (Throw e, w') =>
      (isUserScopedSessionMode mode = true → truthy own = false → w' = w)
  end.
Proof.
  destruct (resolveSession _ _ _ _ _ _ _ _ _ _ _ w) as [[[s created]|e] w'] eqn:E.
  - destruct (resolveSession_cases _ _ _ _ _ _ _ _ _ _ _ _ _ _ _ E) as [Ho [(-> & -> & H)|(-> & _ & -> & Hw)]].
    + apply existing_belongs in H as [? ?]; [|done]. rewrite app_nil_r. done.
    + rewrite Hw. cbn. split; [apply fresh_belongs|]. split; [done|]. split; [|done].
      apply elem_of_app. right. left.
  - intros Hm Ht. unfold resolveSession in E. rewrite Hm, Ht in E. by injection E.
Qed.

(** ** Asking twice *)

Lemma existing_after_fresh now id conv ag mg th mode own root depth db :
  existingSession ag mg th mode own root db = None →
  (isUserScopedSessionMode mode = true → truthy own = true) →
  truthy root = true ∨ mode = SMagent_shared ∨ truthy mg = true →
  th ≠ Some "" →
  let s := freshSession now id conv ag mg th mode own root depth in
  existingSession ag mg th mode own root (set_sessions (sessions db ++ [s]) db) = Some s.
Proof.
  intros H Hown Hlane Hth s.
  pose proof (fresh_belongs now id conv ag mg th mode own root depth) as Hb. fold s in Hb.
  unfold belongs in Hb. destruct Hb as (Hag & Hact & Hlk). unfold existingSession in *.
  destruct (truthy root) eqn:Er.
  { apply newest_only; [done|]. unfold is_active. rewrite Hag, Hact, Hlk.
    destruct root as [r|]; [|done]. cbn. by rewrite !bool_decide_eq_true_2. }
  destruct (bool_decide (mode = SMagent_shared)) eqn:Em.
  { apply newest_only; [done|]. unfold is_active. rewrite Hag, Hact. by rewrite !bool_decide_eq_true_2. }
  to_prop. destruct Hlane as [|[|Hmg]]; [done..|]. rewrite Hmg in *.
  assert (∀ p, p s = true → sql_first p (sessions db) = None → sql_first p (sessions db ++ [s]) = Some s)
    as Hf by (intros p Hp Hn; by rewrite sql_first_app, Hn, Hp).
  assert (∀ t, thread_matches t s = true ↔ (if truthy t then s_thread_id s = t else s_thread_id s = None)) as Ht.
  { intros t. unfold thread_matches. destruct t as [x|]; cbn; [|apply sql_is_true].
    destruct_if; [|apply sql_is_true]. rewrite sql_eq_true. naive_solver. }
  destruct mode; try done; cbn [isUserScopedSessionMode] in *;
    apply Hf; try done; unfold is_active; destruct Hlk as (-> & ? & ?); rewrite Hag, Hact;
    rewrite !andb_true_iff, Ht, !bool_decide_eq_true, sql_eq_true, ?sql_is_true;
    rewrite ?sql_eq_true; split_and!; try done; try (by exists (default "" mg); rewrite truthy_default);
    try (exists (default "" own); rewrite truthy_default by auto; done).
  all: destruct th as [x|]; cbn; [|naive_solver]; destruct_if; [naive_solver|to_prop; congruence].
Qed.

(** Asking again for the same lane gives the same session: after a call of
    [resolveSession] that returned, the same call, at any later time and with
    any newly generated ids, returns that session, creates nothing and changes
    nothing.  The lane must name a chat unless it is agent-shared or rooted,
    and the empty text is not a thread. *)
Theorem resolve_session_stable DATA_DIR (now now' : time) (id conv id' conv' ag : string)
    (mg th : option string) (mode : SessionMode) (own root : option string)
    (depth depth' : option Z) (w w' : World) (s : Session) (created : bool) :
  truthy root = true ∨ mode = SMagent_shared ∨ truthy mg = true →
  th ≠ Some "" →
  resolveSession DATA_DIR now id conv ag mg th mode own root depth w = (Ok (s, created), w') →
  resolveSession DATA_DIR now' id' conv' ag mg th mode own root depth' w' = (Ok (s, false), w').
Proof.
  intros Hlane Hth E.
  destruct (resolveSession_cases _ _ _ _ _ _ _ _ _ _ _ _ _ _ _ E) as [Ho Hc].
  assert (existingSession ag mg th mode own root (w_db w') = Some s) as Hex.
  { destruct Hc as [(_ & -> & H)|(_ & Hn & -> & ->)]; [done|]. by apply existing_after_fresh. }
  unfold resolveSession. assert (isUserScopedSessionMode mode && negb (truthy own) = false) as ->.
  { destruct (isUserScopedSessionMode mode); [|done]. by rewrite Ho. }
  unfold bind, db_get, gets. by rewrite Hex.
Qed.

(** The worlds of the witnesses: one agent wired to one chat, in /data. *)
Definition base_db : CentralDb :=
  set_agent_groups [mkAgentGroup "a" "A" "a" None 0 None None]
    (set_messaging_groups [mkMessagingGroup "m" "feishu" "oc_1" None true public None 0] emptyDb).
Definition base_world : World := mkWorld base_db ∅ ∅ {[ ["data"] := NDir ]}.
Definition resolve_as (now : time) (id : string) (mode : SessionMode) (own : option string) :=
  resolveSession ["data"] now id "conv" "a" (Some "m") None mode own None None.
Definition lane_A : Session :=
  freshSession 1 "s1" "conv" "a" (Some "m") None SMper_user (Some "u:A") None None.

Example resolve_session_stable_witness :
  let w' := (resolve_as 1 "s1" SMper_user (Some "u:A") base_world).2 in
  resolve_as 9 "s2" SMper_user (Some "u:A") w' = (Ok (lane_A, false), w').
Proof.
  apply (resolve_session_stable ["data"] 1 9 "s1" "conv" "s2" "conv" "a" (Some "m") None SMper_user
           (Some "u:A") None None None base_world
           (resolve_as 1 "s1" SMper_user (Some "u:A") base_world).2 lane_A true).
  - by right; right.
  - done.
  - vm_compute. reflexivity.
Defined.

(** The agent-shared lookup is not limited to shared sessions: in an agent
    group that one chat is wired to per user and another agent-shared, an
    agent-shared message of any chat joins the newest private session of
    another user, and the session it gets is owned by that user. *)
Theorem agent_shared_joins_private :
  let w1 := (resolve_as 1 "s1" SMper_user (Some "u:A") base_world).2 in
  let r := resolveSession ["data"] 2 "s2" "conv" "a" (Some "m2") None SMagent_shared None None None w1 in
  r = (Ok (lane_A, false), w1) ∧ s_owner_user_id lane_A = Some "u:A".
Proof. vm_compute. done. Qed.

(** ** Writing *)

(** A message written to a session is in that session's inbound.db, pending,
    with the identity fields it was given and the next even number, and
    due at once when it has no delay and triggers; no other session's
    databases, no outbound.db and no central row but the activity time of
    that session is changed. *)
Theorem session_message_written DATA_DIR sqlite_datetime (now now' : time) (ag sid : string)
    (m : InMessage) (d : InboundDb) (w w' : World) :
  w_in w !! (ag, sid) = Some d →
  writeSessionMessage DATA_DIR now ag sid m w = (Ok tt, w') →
  (∃ r, w_in w' = <[(ag, sid) := set_messages_in (messages_in d ++ [r]) d]> (w_in w) ∧
        mi_id r = im_id m ∧ mi_status r = RPending ∧ mi_seq r = nextEvenSeq d ∧
        mi_origin_user_id r = im_originUserId m ∧ mi_source_session_id r = im_sourceSessionId m ∧
        mi_channel_type r = im_channelType m ∧ mi_kind r = im_kind m ∧
        (im_processAfter m = None → im_trigger m ≠ Some false →
           (0 < countDueMessages sqlite_datetime now' (set_messages_in (messages_in d ++ [r]) d))%nat)) ∧
  w_out w' = w_out w ∧
  sessions (w_db w') = map (λ s, if bool_decide (s_id s = sid)
    then apply_session_update (mkSessionUpdate None None (Some (Some now)) None None) s else s)
    (sessions (w_db w)).
Proof.
  intros Hd. unfold writeSessionMessage, bind, files, inbound, central, updateSession, modify.
  destruct (extractAttachmentFiles _ _ _ _ (w_fs w)) as [[c|e] fs1]; [|done]. cbn [w_in set_fs].
  rewrite Hd. unfold insertMessage, bind, gets. rewrite insert_row_eq.
  destruct_if; [done|]. cbn. intros [= <-]. cbn. split; [|done].
  eexists. split; [reflexivity|]. cbn. split_and!; try done.
  intros Hpa Htr. unfold countDueMessages. cbn. unfold sql_changes.
  rewrite List.filter_app, length_app. cbn. unfold is_due. cbn. rewrite Hpa.
  assert (default true (Some (default true (im_trigger m))) = true) as E
    by (cbn; destruct (im_trigger m) as [[]|]; done).
  cbn in E. rewrite E, bool_decide_eq_true_2 by done. cbn. lia.
Qed.

Definition hello : InMessage :=
  mkInMessage "msg" "chat" (TIso 5) (Some "oc_1") (Some "feishu") None "{}" None None None None None None.

Example session_message_written_witness :
  let w1 := (resolve_as 1 "s1" SMper_user (Some "u:A") base_world).2 in
  let w2 := (writeSessionMessage ["data"] 5 "a" "s1" hello w1).2 in
  (∃ r, w_in w2 = <[("a", "s1") := set_messages_in (messages_in emptyInbound ++ [r]) emptyInbound]> (w_in w1) ∧
        mi_id r = "msg" ∧ mi_status r = RPending ∧ mi_seq r = nextEvenSeq emptyInbound ∧
        mi_origin_user_id r = None ∧ mi_source_session_id r = None ∧
        mi_channel_type r = Some "feishu" ∧ mi_kind r = "chat" ∧
        (im_processAfter hello = None → im_trigger hello ≠ Some false →
          (0 < countDueMessages (λ _, None) 9 (set_messages_in (messages_in emptyInbound ++ [r]) emptyInbound))%nat)) ∧
  w_out w2 = w_out w1 ∧
  sessions (w_db w2) = map (λ s, if bool_decide (s_id s = "s1")
    then apply_session_update (mkSessionUpdate None None (Some (Some 5)) None None) s else s)
    (sessions (w_db w1)).
Proof.
  apply (session_message_written ["data"] (λ _, None) 5 9 "a" "s1" hello emptyInbound
    (resolve_as 1 "s1" SMper_user (Some "u:A") base_world).2
    (writeSessionMessage ["data"] 5 "a" "s1" hello (resolve_as 1 "s1" SMper_user (Some "u:A") base_world).2).2).
  - vm_compute. reflexivity.
  - vm_compute. reflexivity.
Defined.

(** A reply the host writes directly breaks the numbering: on a session
    whose container has sent nothing yet it takes number 2, the number of the
    first inbound message, so the container resolves the number of the reply
    to that message's id and channel. *)
Theorem direct_reply_takes_inbound_number :
  let w1 := (resolve_as 1 "s1" SMper_user (Some "u:A") base_world).2 in
  let w2 := (writeSessionMessage ["data"] 5 "a" "s1" hello w1).2 in
  let w3 := (writeOutboundDirect 6 false "a" "s1"
               (mkDirectMessage "deny" "chat" (Some "oc_1") (Some "feishu") None "{}" None) w2).2 in
  ∃ i o, w_in w3 !! ("a", "s1") = Some i ∧ w_out w3 !! ("a", "s1") = Some o ∧
    map mo_seq (messages_out o) = [2] ∧ map mo_id (messages_out o) = ["deny"] ∧
    getMessageIdBySeq i o 2 = Some "msg".
Proof. do 2 eexists. vm_compute. done. Qed.
