(* ===== verification/AgentRoute.v ===== *)
(** * Agent-to-agent routing (src/modules/agent-to-agent/agent-route.ts,
    origin-user.ts)

    A message one agent writes for another: the checks on the edge, the session
    of the target it lands in, and the human it is attributed to.  What the
    container wrote (the message, its claimed origin, its reply anchor) is
    arbitrary; the source's inbound.db is the host's own. *)
From S2P Require Import Prelude JsString Json Types Central Permissions SessionDb SessionDbProofs Sessions Destinations Fs Attachments SessionManager.

Local Open Scope string_scope.
Local Open Scope Z_scope.
Local Open Scope list_scope.
Local Open Scope prog_scope.

(** ** The origin user *)

(*@ src/src/modules/agent-to-agent/origin-user.ts 43-69 namespacedOriginOf *)
Definition namespacedOriginOf (row : MessageIn) : option string :=
  if truthy (mi_origin_user_id row) then mi_origin_user_id row
  else if sql_is (mi_channel_type row) (Some "agent") then None
  else match JSON_parse (mi_content row) with
       | None => None
       | Some parsed =>
           match jget "sender" parsed, jget "senderId" parsed with
           | AValue sender, AValue senderId =>
               if bool_decide (jstring sender = Some "system") then None
               else
                 let raw := trim (default "" (jstring senderId)) in
                 if bool_decide (raw = "") then None
                 else if includes raw ":" || negb (truthy (mi_channel_type row)) then Some raw
                 else Some (default "" (mi_channel_type row) +:+ ":" +:+ raw)
           | _, _ => None
           end
       end.

(** [kind IN ('chat', 'chat-sdk')] *)
Definition is_chat (r : MessageIn) : bool :=
  bool_decide (mi_kind r = "chat") || bool_decide (mi_kind r = "chat-sdk").

(*@ src/src/modules/agent-to-agent/origin-user.ts 71-83 resolveOriginUserId *)
Definition resolveOriginUserId (d : InboundDb) : option string :=
  match sql_first_by seq_desc (sql_where is_chat (messages_in d)) with
  | None => None
  | Some row => namespacedOriginOf row
  end.

(** The set, as the list it is filled from. *)
(*@ src/src/modules/agent-to-agent/origin-user.ts 102-117 collectLegitimateOrigins *)
Definition collectLegitimateOrigins (d : InboundDb) : list string :=
  List.filter (λ id, truthy (Some id))
    (omap namespacedOriginOf (sql_where is_chat (messages_in d))).

(** ** The message and the limits *)

(*@ src/src/modules/agent-to-agent/agent-route.ts 183-210 RoutableAgentMessage *)
Record RoutableAgentMessage := mkRoutable {
  ra_id : string;
  ra_platform_id : option string;
  ra_content : string;
  ra_in_reply_to : option string;
  ra_origin_user_id : option string }.

(*@ src/src/modules/agent-to-agent/agent-route.ts 50-50 DEFAULT_MAX_SPAWN_DEPTH *)
Definition DEFAULT_MAX_SPAWN_DEPTH : Z := 2.

(** [raw] is [process.env.AGENTDESK_MAX_SPAWN_DEPTH]. *)
(*@ src/src/modules/agent-to-agent/agent-route.ts 59-65 resolveMaxSpawnDepth *)
Definition resolveMaxSpawnDepth (raw : option string) : Z :=
  if negb (truthy raw) then DEFAULT_MAX_SPAWN_DEPTH
  else match parseInt (default "" raw) with
       | None => DEFAULT_MAX_SPAWN_DEPTH
       | Some parsed => if parsed <? 1 then DEFAULT_MAX_SPAWN_DEPTH else parsed
       end.

(** What [readContainerConfig] returns of container.json, as far as the
    modelled code reads it. *)
(*@ src/src/container-config.ts 25-54 BackendGatewayConfig *)
Record BackendGatewayConfig := mkGateway {
  gw_baseUrl : option string;
  gw_signingKey : option string }.
(*@ src/src/container-config.ts 117-254 ContainerConfig *)
Record GroupConfig := mkGroupConfig {
  gc_a2aSessionMode : option A2aSessionMode;
  gc_allow_roster_dm : option string;
  gc_backendGateway : option BackendGatewayConfig }.

Section route.
Context (DATA_DIR : list string).
(** [readContainerConfig] of a folder: it throws on a corrupt file. *)
Context (group_config : string → outcome exn GroupConfig).
(** The environment's AGENTDESK_MAX_SPAWN_DEPTH. *)
Context (env_max_depth : option string).

(*@ src/src/modules/agent-to-agent/agent-route.ts 340-344 getTargetA2aSessionMode *)
Definition getTargetA2aSessionMode (db : CentralDb) (targetAgentGroupId : string)
    : outcome exn A2aSessionMode :=
  match getAgentGroup db targetAgentGroupId with
  | None => Ok A2aAgentShared
  | Some target =>
      match group_config (ag_folder target) with
      | Ok cfg => Ok (default A2aAgentShared (gc_a2aSessionMode cfg))
      | Throw e => Throw e
      end
  end.

(** ** The target session *)

(** The session the source's own rows point back at, read from inbound.db. *)
(*@ src/src/modules/agent-to-agent/agent-route.ts 236-250 originSessionId *)
Definition anchorOf (msg : RoutableAgentMessage) (targetAgentGroupId : string) (d : InboundDb)
    : option string :=
  let direct := if truthy (ra_in_reply_to msg)
                then getInboundSourceSessionId (default "" (ra_in_reply_to msg)) d else None in
  if truthy direct then direct else getMostRecentPeerSourceSessionId targetAgentGroupId d.

(** Both sides have an owner, and it is not the same. *)
(*@ src/src/modules/agent-to-agent/agent-route.ts 264-266 srcOwner *)
Definition owners_differ (a b : Session) : bool :=
  match s_owner_user_id a, s_owner_user_id b with
  | Some x, Some y => negb (bool_decide (x = y))
  | _, _ => false
  end.

(** The anchored session when it may be used. *)
(*@ src/src/modules/agent-to-agent/agent-route.ts 251-276 candidate *)
Definition anchoredSession (sourceSession : Session) (targetAgentGroupId : string)
    (anchor : option string) (db : CentralDb) : option Session :=
  if truthy anchor then
    match getSession (default "" anchor) db with
    | Some candidate =>
        if bool_decide (s_agent_group_id candidate = targetAgentGroupId) &&
           bool_decide (s_status candidate = active) && negb (owners_differ sourceSession candidate)
        then Some candidate else None
    | None => None
    end
  else None.

(** [id] and [conv] are drawn when a session is created. *)
(*@ src/src/modules/agent-to-agent/agent-route.ts 235-334 resolveTargetSession *)
Definition resolveTargetSession (now : time) (id conv : string) (msg : RoutableAgentMessage)
    (sourceSession : Session) (targetAgentGroupId : string) : wM Session :=
  let* anchor := in_get (s_agent_group_id sourceSession, s_id sourceSession)
                   (anchorOf msg targetAgentGroupId) in
  let* anchored := db_get (anchoredSession sourceSession targetAgentGroupId anchor) in
  match anchored with
  | Some candidate => ret candidate
  | None =>
      let rootId := default (s_id sourceSession) (s_root_session_id sourceSession) in
      let resolve owner root :=
        let* (s, _) := resolveSession DATA_DIR now id conv targetAgentGroupId None None SMagent_shared
                         owner root (Some (s_spawn_depth sourceSession)) in
        ret s in
      let* mode := db_get (λ db, getTargetA2aSessionMode db targetAgentGroupId) in
      match mode with
      | Throw e => throw e
      | Ok A2aRootSession => resolve (s_owner_user_id sourceSession) (Some rootId)
      | Ok A2aAgentShared =>
          if truthy (s_owner_user_id sourceSession) then
            let* sameOwner := db_get (findNewestOwnedSessionForAgent targetAgentGroupId
                                        (default "" (s_owner_user_id sourceSession))) in
            match sameOwner with
            | Some s => ret s
            | None =>
                let* sharedLane := db_get (findNewestOwnerlessSessionForAgent targetAgentGroupId) in
                match sharedLane with
                | Some s => ret s
                | None => resolve (s_owner_user_id sourceSession) (Some rootId)
                end
            end
          else resolve None None
      end
  end.

(** ** Routing *)

(** The checks of lines 347-393, in order: [None] passes. *)
(*@ src/src/modules/agent-to-agent/agent-route.ts 347-393 targetAgentGroupId *)
Definition edgeRefusal (db : CentralDb) (msg : RoutableAgentMessage) (session : Session)
    : option string :=
  if negb (truthy (ra_platform_id msg)) then Some "missing a target agent group id"
  else
    let target := default "" (ra_platform_id msg) in
    let self := bool_decide (target = s_agent_group_id session) in
    if negb self && negb (hasDestination (s_agent_group_id session) TargetAgent target db)
    then Some "unauthorized agent-to-agent"
    else if bool_decide (getAgentGroup db target = None) then Some "target agent group not found"
    else if negb self && crosses_org db (s_agent_group_id session) target
    then Some "cross-org agent-to-agent refused (ADR-0052)"
    else if negb self && (resolveMaxSpawnDepth env_max_depth <=? s_spawn_depth session)
    then Some "spawn-depth cap exceeded"
    else None.

(** The human the message is attributed to. *)
(*@ src/src/modules/agent-to-agent/agent-route.ts 428-460 originUserId *)
Definition attributedOrigin (msg : RoutableAgentMessage) (session : Session) (d : InboundDb)
    : option string :=
  let claimed := ra_origin_user_id msg in
  let validated := if truthy claimed && bool_decide (default "" claimed ∈ collectLegitimateOrigins d)
                   then claimed else None in
  let found := if truthy validated then validated else resolveOriginUserId d in
  if truthy found then found else s_owner_user_id session.

Record Draws := mkDraws { draw_session : string; draw_conv : string; draw_a2a : string }.

(** The session that is woken, when its row is still there. *)
(*@ src/src/modules/agent-to-agent/agent-route.ts 346-508 routeAgentMessage *)
Definition routeAgentMessage (now : time) (draws : Draws) (msg : RoutableAgentMessage)
    (session : Session) : wM (option Session) :=
  let src := (s_agent_group_id session, s_id session) in
  let target := default "" (ra_platform_id msg) in
  let* refusal := db_get (λ db, edgeRefusal db msg session) in
  match refusal with
  | Some reason => throw (Err reason)
  | None =>
      let* targetSession := resolveTargetSession now (draw_session draws) (draw_conv draws) msg
                              session target in
      let* forwardedContent := files (forwardFileAttachments (key_dir DATA_DIR src) (ra_id msg)
        (ra_content msg) (key_dir DATA_DIR (target, s_id targetSession)) (draw_a2a draws)) in
      let* originUserId := in_get src (attributedOrigin msg session) in
      let* conversation := in_get src latestConversationThreadId in
      writeSessionMessage DATA_DIR now target (s_id targetSession)
        (mkInMessage (draw_a2a draws) "chat" (TIso now) (Some (s_agent_group_id session))
           (Some "agent") None forwardedContent None None None (Some (s_id session)) originUserId
           conversation) ;;
      (if truthy conversation
       then central (setSessionConversationThreadId (s_id targetSession) (default "" conversation))
       else ret tt) ;;
      (if bool_decide (target = s_agent_group_id session) then ret tt
       else central (recordEnterpriseAudit now "agent_delegation" None (Some (s_agent_group_id session))
              originUserId
              (Some (JObj [("from", JStr (s_agent_group_id session)); ("to", JStr target);
                           ("sourceSessionId", JStr (s_id session));
                           ("targetSessionId", JStr (s_id targetSession));
                           ("a2aMsgId", JStr (draw_a2a draws));
                           ("spawnDepth", JNum (s_spawn_depth session))])))) ;;
      db_get (getSession (s_id targetSession))
  end.
End route.

(** ** What agent-to-agent routing guarantees

    Over arbitrary container output: only permitted edges carry a message, no
    message crosses into another user's lane, and no identity is attributed
    that the host did not see. *)

(** ** Runs over the world *)

Lemma bind_run {S E A B} (m : prog S E A) (k : A → prog S E B) s r s' :
  bind m k s = (r, s') →
  (∃ e, m s = (Throw e, s') ∧ r = Throw e) ∨ ∃ a s1, m s = (Ok a, s1) ∧ k a s1 = (r, s').
Proof. unfold bind. destruct (m s) as [[a|e] s1]; intros H; [right; eauto|left; naive_solver]. Qed.
Lemma db_get_run {A} (f : CentralDb → A) w r w' : db_get f w = (r, w') → r = Ok (f (w_db w)) ∧ w' = w.
Proof. by intros [= <- <-]. Qed.
Lemma in_get_run {A} key (f : InboundDb → A) w r w' :
  in_get key f w = (r, w') →
  (w_in w !! key = None ∧ (∃ e, r = Throw e) ∧ w' = w) ∨
  ∃ d, w_in w !! key = Some d ∧ r = Ok (f d) ∧ w' = w.
Proof.
  unfold in_get, inbound. destruct (w_in w !! key) as [d|] eqn:E; intros [= <- <-]; [|left; eauto].
  right. exists d. split_and!; [done..|]. unfold set_in. rewrite insert_id by done. by destruct w.
Qed.
Lemma files_run {A} (m : fsM A) w r w' :
  files m w = (r, w') → w_db w' = w_db w ∧ w_in w' = w_in w ∧ w_out w' = w_out w.
Proof. unfold files. destruct (m (w_fs w)). by intros [= <- <-]. Qed.

(** What a session row keeps for life. *)
Definition lane (s : Session) : string * string * option string * option string :=
  (s_id s, s_agent_group_id s, s_owner_user_id s, s_root_session_id s).
Definition lanes (w : World) := map lane (sessions (w_db w)).

Lemma map_lane_update p f l : (∀ s, lane (f s) = lane s) → map lane (sql_update p f l) = map lane l.
Proof. intros H. unfold sql_update. rewrite map_map. apply map_ext. intros s. by case_match. Qed.

Lemma writeSessionMessage_run D now ag sid m w r w' :
  writeSessionMessage D now ag sid m w = (r, w') →
  lanes w' = lanes w ∧
  (w_in w' = w_in w ∨
   ∃ d c fs', w_in w !! (ag, sid) = Some d ∧
     extractAttachmentFiles (key_dir D (ag, sid)) now (im_id m) (im_content m) (w_fs w) = (Ok c, fs') ∧
     w_in w' = <[(ag, sid) := set_messages_in (messages_in d ++
       [mkMessageIn (im_id m) (nextEvenSeq d) (im_kind m) (im_timestamp m) RPending (im_processAfter m)
          (im_recurrence m) (Some (im_id m)) 0 (default true (im_trigger m)) (im_platformId m)
          (im_channelType m) (im_threadId m) c (im_sourceSessionId m) (im_originUserId m)
          (im_conversationThreadId m)]) d]> (w_in w)).
Proof.
  unfold writeSessionMessage. intros [(e & H & ->)|(c & w1 & Hf & H)]%bind_run.
  { apply files_run in H as (H1 & H2 & _). unfold lanes. rewrite H1. auto. }
  assert (∃ fs', extractAttachmentFiles (key_dir D (ag, sid)) now (im_id m) (im_content m) (w_fs w)
                   = (Ok c, fs')) as [fs' Hx].
  { unfold files in Hf. destruct (extractAttachmentFiles _ _ _ _ _) as [rr fs']. simplify_eq. eauto. }
  apply files_run in Hf as (H1 & H2 & _).
  assert (lanes w1 = lanes w) as Hl1 by (unfold lanes; by rewrite H1). rewrite <-H2, <-Hl1.
  revert H. intros [(e & H & ->)|(u & w2 & Hi & H)]%bind_run.
  - unfold inbound in H. destruct (w_in w1 !! (ag, sid)) as [d|] eqn:Ed; [|simplify_eq; auto].
    unfold insertMessage, bind, gets in H. rewrite insert_row_eq in H. destruct (sql_exists _ _); [|done].
    simplify_eq. cbn. rewrite insert_id by done. auto.
  - unfold inbound in Hi. destruct (w_in w1 !! (ag, sid)) as [d|] eqn:Ed; [|done].
    unfold insertMessage, bind, gets in Hi. rewrite insert_row_eq in Hi.
    destruct (sql_exists _ _); [done|]. injection Hi as _ <-.
    unfold central, updateSession, modify in H. injection H as _ <-. split.
    + unfold lanes. cbn. by apply map_lane_update.
    + right. exists d, c, fs'. split_and!; [by rewrite H2 in Ed|done|done].
Qed.

(** ** The edge *)

Lemma edgeRefusal_None env db msg s :
  edgeRefusal env db msg s = None ↔
  let target := default "" (ra_platform_id msg) in
  truthy (ra_platform_id msg) = true ∧ getAgentGroup db target ≠ None ∧
  (target = s_agent_group_id s ∨
   hasDestination (s_agent_group_id s) TargetAgent target db = true ∧
   crosses_org db (s_agent_group_id s) target = false ∧
   s_spawn_depth s < resolveMaxSpawnDepth env).
Proof.
  unfold edgeRefusal. destruct (truthy (ra_platform_id msg)); cbn [negb]; [|naive_solver].
  set (target := default "" (ra_platform_id msg)).
  destruct (bool_decide_reflect (target = s_agent_group_id s)) as [Hs|Hs]; cbn [negb andb];
    destruct (bool_decide_reflect (getAgentGroup db target = None)) as [Hg|Hg].
  - naive_solver.
  - naive_solver.
  - destruct (hasDestination _ _ _ _); naive_solver.
  - destruct (hasDestination _ _ _ _); cbn [negb]; [|naive_solver].
    destruct (crosses_org _ _ _); [naive_solver|].
    destruct (Z.leb_spec (resolveMaxSpawnDepth env) (s_spawn_depth s)); [|naive_solver].
    split; [done|]. intros (_ & _ & [?|(_ & _ & ?)]); [done|lia].
Qed.

(** A message goes over an edge only if the edge is permitted: routing
    returns only when the target exists and either is the source's own group,
    or is one of its destinations, in no other organization, below the depth
    cap (never less than one); and a refusal changes nothing at all. *)
Theorem routes_only_permitted_edges D cfg env (now : time) (draws : Draws)
    (msg : RoutableAgentMessage) (s : Session) (w : World) :
  let target := default "" (ra_platform_id msg) in
  let permitted := truthy (ra_platform_id msg) = true ∧ getAgentGroup (w_db w) target ≠ None ∧
    (target = s_agent_group_id s ∨
     hasDestination (s_agent_group_id s) TargetAgent target (w_db w) = true ∧
     crosses_org (w_db w) (s_agent_group_id s) target = false ∧
     s_spawn_depth s < resolveMaxSpawnDepth env) in
  let r := routeAgentMessage D cfg env now draws msg s w in
  1 ≤ resolveMaxSpawnDepth env ∧
  (permitted ∨ (∃ reason, r.1 = Throw (Err reason)) ∧ r.2 = w).
Proof.
  intros target permitted r. split.
  { unfold resolveMaxSpawnDepth, DEFAULT_MAX_SPAWN_DEPTH. destruct_if; [lia|].
    destruct (parseInt _); [|lia]. destruct_if; lia. }
  destruct (edgeRefusal env (w_db w) msg s) as [reason|] eqn:E.
  - right. unfold r, routeAgentMessage, bind, db_get, gets. rewrite E. cbn. eauto.
  - left. by apply edgeRefusal_None.
Qed.

(** ** The lane *)

(** Sessions of one root conversation have one owner. *)
Definition roots_agree (w : World) : Prop :=
  ∀ s1 s2, s1 ∈ sessions (w_db w) → s2 ∈ sessions (w_db w) →
    s_root_session_id s1 ≠ None → s_root_session_id s1 = s_root_session_id s2 →
    s_owner_user_id s1 = s_owner_user_id s2.
(** Every session has a root, and [id] is none of them. *)
Definition new_root (id : string) (w : World) : Prop :=
  ∀ s, s ∈ sessions (w_db w) → s_root_session_id s ≠ Some id.
Definition rooted (w : World) : Prop :=
  ∀ s, s ∈ sessions (w_db w) → truthy (s_root_session_id s) = true.

Lemma lanes_elem w w' s :
  lanes w' = lanes w → s ∈ sessions (w_db w') → ∃ s0, s0 ∈ sessions (w_db w) ∧ lane s0 = lane s.
Proof.
  intros E Hs. assert (Hin : lane s ∈ lanes w) by (rewrite <-E; by apply list_elem_of_fmap_2).
  apply list_elem_of_fmap in Hin as (s0 & Hl & Hs0). by exists s0.
Qed.
Lemma roots_agree_lanes w w' : lanes w' = lanes w → roots_agree w ∧ rooted w → roots_agree w' ∧ rooted w'.
Proof.
  intros E [H Hr]. split.
  - intros s1 s2 H1 H2 H3 H4. destruct (lanes_elem w w' s1 E H1) as (a & Ha & La).
    destruct (lanes_elem w w' s2 E H2) as (b & Hb & Lb). injection La as _ _ <- ?. injection Lb as _ _ <- ?.
    apply H; congruence.
  - intros s Hs. destruct (lanes_elem w w' s E Hs) as (a & Ha & La). injection La as _ _ _ <-. by apply Hr.
Qed.

(** Returning or throwing, a resolve changes the central database by at most
    the fresh session. *)
Lemma resolveSession_db D now id conv ag mg th mode own root depth w r w' :
  resolveSession D now id conv ag mg th mode own root depth w = (r, w') →
  w_db w' = w_db w ∨
  w_db w' = set_sessions (sessions (w_db w) ++
    [freshSession now id conv ag mg th mode own root depth]) (w_db w).
Proof.
  intros H. unfold resolveSession in H.
  destruct (isUserScopedSessionMode mode && _); [injection H as _ <-; by left|].
  apply bind_run in H as [(e & H & _)|(ex & w1 & H & Hk)]; apply db_get_run in H as [E1 ->]; [done|].
  injection E1 as ->. destruct (existingSession _ _ _ _ _ _ _); [injection Hk as _ <-; by left|].
  apply bind_run in Hk as [(e & H & _)|(u & w1 & H & Hk)];
    unfold central in H; destruct (createSession _ (w_db w)) as [[u'|e'] db1] eqn:Ec; try done.
  { left. injection H as _ <-. cbn. revert Ec. unfold createSession, bind, query, gets. cbn.
    destruct_if; by intros [= _ <-]. }
  apply createSession_ok in Ec as [-> _]; [|done]. injection H as _ <-. right.
  set (w1 := set_db _ w) in *. pose proof (initSessionFolder_db D ag id w1) as Hi.
  apply bind_run in Hk as [(e & H & _)|(u2 & w2 & H & Hk)]; [by rewrite H in Hi|].
  rewrite H in Hi. by injection Hk as _ <-.
Qed.

Lemma resolve_roots_agree D now id conv ag mg th mode own root depth w r w' :
  resolveSession D now id conv ag mg th mode own root depth w = (r, w') →
  new_root id w → id ≠ "" →
  (truthy root = true → ∃ s, s ∈ sessions (w_db w) ∧ s_root_session_id s = root ∧ s_owner_user_id s = own) →
  root ≠ Some "" →
  roots_agree w ∧ rooted w → roots_agree w' ∧ rooted w'.
Proof.
  intros H Hnew Hid Hroot Hne Hw.
  assert (∀ s, (s_root_session_id s = Some (default id root)) →
     s_owner_user_id s = (if truthy root then own else if isUserScopedSessionMode mode then own else None) →
     ∀ w2, w_db w2 = set_sessions (sessions (w_db w) ++ [s]) (w_db w) → roots_agree w2 ∧ rooted w2) as Hadd.
  { intros s Hr Ho w2 E. destruct Hw as [Ha Hrt].
    assert (∀ a, a ∈ sessions (w_db w) → s_root_session_id a = s_root_session_id s →
              s_owner_user_id a = s_owner_user_id s) as Hs.
    { intros a Hin Eq. rewrite Hr in Eq. destruct (truthy root) eqn:Et.
      - destruct (Hroot eq_refl) as (b & Hb & Hbr & Hbo). rewrite Ho, <-Hbo.
        apply Ha; [done..|congruence|]. rewrite Hbr, Eq. by destruct root.
      - destruct root as [x|]; [|by destruct (Hnew a Hin)]. cbn in Et. to_prop. congruence. }
    split.
    - intros s1 s2. rewrite E. cbn. rewrite !elem_of_app, !list_elem_of_singleton.
      intros [H1| ->] [H2| ->] Hn Eq; [by apply Ha|by apply Hs|symmetry; by apply Hs|done].
    - intros s1. rewrite E. cbn. rewrite elem_of_app, list_elem_of_singleton.
      intros [H1| ->]; [by apply Hrt|]. rewrite Hr. destruct root as [x|]; cbn; apply negb_true_iff,
        bool_decide_eq_false_2; congruence. }
  destruct (resolveSession_db _ _ _ _ _ _ _ _ _ _ _ _ _ _ H) as [E|E].
  - destruct Hw as [Ha Hrt]. split; [intros s1 s2|intros s]; rewrite E; auto.
  - eapply Hadd; [| |exact E]; done.
Qed.

(** The target session of a message: its owner is the source's, or it has
    none, when the source is owned. *)
Lemma resolveTarget_lane D cfg now id conv msg s target w t w' :
  roots_agree w → rooted w → s ∈ sessions (w_db w) →
  resolveTargetSession D cfg now id conv msg s target w = (Ok t, w') →
  truthy (s_owner_user_id s) = true →
  s_agent_group_id t = target ∧
  (s_owner_user_id t = None ∨ s_owner_user_id t = s_owner_user_id s).
Proof.
  intros Ha Hrt Hs H Ho. unfold resolveTargetSession in H.
  apply bind_run in H as [(e & _ & ?)|(anchor & w1 & H & Hk)]; [done|].
  apply in_get_run in H as [(_ & [e ?] & _)|(d & _ & _ & ->)]; [done|].
  apply bind_run in Hk as [(e & _ & ?)|(anchored & w1 & H & Hk)]; [done|].
  apply db_get_run in H as [[= ->] ->].
  destruct (anchoredSession s target anchor (w_db w)) as [c|] eqn:Ec.
  { injection Hk as <- _. unfold anchoredSession in Ec. destruct (truthy anchor); [|done].
    destruct (getSession _ _) as [c'|]; [|done]. destruct (_ && _) eqn:?; [|done]. simplify_eq. to_prop.
    split; [done|]. unfold owners_differ in *.
    destruct (s_owner_user_id s) as [x|], (s_owner_user_id c) as [y|];
      try done; auto. to_prop. subst. auto. }
  apply bind_run in Hk as [(e & _ & ?)|(mode & w1 & H & Hk)]; [done|].
  apply db_get_run in H as [[= ->] ->].
  assert (∀ r, (let* (t0, _) := resolveSession D now id conv target None None SMagent_shared
      (s_owner_user_id s) (Some (default (s_id s) (s_root_session_id s))) (Some (s_spawn_depth s)) in
      ret t0) w = (Ok t, r) → s_agent_group_id t = target ∧ (s_owner_user_id t = None ∨
      s_owner_user_id t = s_owner_user_id s)) as Hres.
  { intros r H. apply bind_run in H as [(e & _ & ?)|([t' c] & w1 & H & Hr)]; [done|].
    injection Hr as -> _. apply resolveSession_cases in H as [_ [(_ & _ & He)|(_ & _ & -> & _)]].
    - apply existing_belongs in He as [(Hag & _ & Hroot) Hin]; [|done]. split; [done|]. right.
      assert (truthy (Some (default (s_id s) (s_root_session_id s))) = true) as Et.
      { specialize (Hrt s Hs). by destruct (s_root_session_id s). }
      rewrite Et in Hroot. apply Ha; [done|done|congruence|].
      rewrite Hroot. specialize (Hrt s Hs). by destruct (s_root_session_id s).
    - split; [done|]. cbn. rewrite <-(truthy_default (s_owner_user_id s)) by done.
      specialize (Hrt s Hs). destruct (s_root_session_id s) as [x|]; [|done].
      cbn in Hrt |- *. rewrite Hrt. auto. }
  destruct (getTargetA2aSessionMode _ _ _) as [[]|]; [|by eapply Hres|done]. rewrite Ho in Hk.
  apply bind_run in Hk as [(e & _ & ?)|(same & w1 & H & Hk)]; [done|].
  apply db_get_run in H as [[= ->] ->].
  destruct (findNewestOwnedSessionForAgent _ _ _) as [c|] eqn:Ew.
  { injection Hk as <- _. apply newest_Some in Ew as [_ Hp]. to_prop. rewrite truthy_default in * by done.
    split; [done|right; congruence]. }
  apply bind_run in Hk as [(e & _ & ?)|(shared & w1 & H & Hk)]; [done|].
  apply db_get_run in H as [[= ->] ->].
  destruct (findNewestOwnerlessSessionForAgent _ _) as [c|] eqn:Eo.
  { injection Hk as <- _. apply newest_Some in Eo as [_ Hp]. to_prop. auto. }
  by eapply Hres.
Qed.

(** ** Everything the host does, with arbitrary container output *)

Section steps.
Context (D : list string) (cfg : string → outcome exn GroupConfig) (env : option string).
(** The users who really wrote to the host. *)
Context (real : string → Prop).

Definition identity_ok (row : MessageIn) : Prop :=
  is_chat row = true → ∀ u, namespacedOriginOf row = Some u → truthy (Some u) = true → real u.

Definition host_inv (w : World) : Prop :=
  (roots_agree w ∧ rooted w) ∧
  (∀ key d row, w_in w !! key = Some d → row ∈ messages_in d → identity_ok row) ∧
  (∀ s u, s ∈ sessions (w_db w) → s_owner_user_id s = Some u → truthy (Some u) = true → real u).

(** The row [writeSessionMessage] inserts for [m], its content being [c]. *)
Definition written (m : InMessage) (seq : Z) (c : string) : MessageIn :=
  mkMessageIn (im_id m) seq (im_kind m) (im_timestamp m) RPending (im_processAfter m)
    (im_recurrence m) (Some (im_id m)) 0 (default true (im_trigger m)) (im_platformId m)
    (im_channelType m) (im_threadId m) c (im_sourceSessionId m) (im_originUserId m)
    (im_conversationThreadId m).

(** The host resolves a chat's session, writes a channel message of a real
    user, or routes any message any container wrote. *)
Inductive host_step (w : World) : World → Prop :=
| hs_resolve now id conv ag mg th mode own depth :
    new_root id w → id ≠ "" → (∀ u, own = Some u → truthy (Some u) = true → real u) →
    host_step w (resolveSession D now id conv ag mg th mode own None depth w).2
| hs_channel now ag sid m :
    (∀ seq c fs', extractAttachmentFiles (key_dir D (ag, sid)) now (im_id m) (im_content m) (w_fs w)
                    = (Ok c, fs') → identity_ok (written m seq c)) →
    host_step w (writeSessionMessage D now ag sid m w).2
| hs_route now draws msg s :
    s ∈ sessions (w_db w) → new_root (draw_session draws) w → draw_session draws ≠ "" →
    host_step w (routeAgentMessage D cfg env now draws msg s w).2.

Lemma inv_same w w' : lanes w' = lanes w → w_in w' = w_in w → host_inv w → host_inv w'.
Proof.
  intros Hl Hi (H1 & H2 & H3). split_and!.
  - by apply (roots_agree_lanes w w').
  - by apply (roots_agree_lanes w w').
  - by rewrite Hi.
  - intros s u Hs Hu. destruct (lanes_elem w w' s Hl Hs) as (a & Ha & La). injection La as _ _ Ho _.
    apply (H3 a); congruence.
Qed.

Lemma inv_write now ag sid m w r w' :
  (∀ seq c fs', extractAttachmentFiles (key_dir D (ag, sid)) now (im_id m) (im_content m) (w_fs w)
                  = (Ok c, fs') → identity_ok (written m seq c)) →
  writeSessionMessage D now ag sid m w = (r, w') → host_inv w → host_inv w'.
Proof.
  intros Hm H Hinv. destruct (writeSessionMessage_run _ _ _ _ _ _ _ _ H) as [Hl [Hi|Hi]].
  { by apply (inv_same w). }
  destruct Hi as (d & c & fs' & Hd & Hx & Hi).
  assert (host_inv (set_in (w_in w) w')) as (H1 & H2 & H3) by by apply (inv_same w).
  split_and!; [apply H1|apply H1| |exact H3].
  intros key d' row Hk Hrow. rewrite Hi in Hk. apply lookup_insert_Some in Hk as [[<- <-]|[_ Hk]].
  - apply elem_of_app in Hrow as [Hrow|Hrow]; [by apply (H2 (ag, sid) d)|].
    apply list_elem_of_singleton in Hrow as ->. by eapply (Hm _ c fs').
  - by apply (H2 key d').
Qed.

(** Programs that add no row to any inbound.db. *)
Definition rows_kept (w w' : World) : Prop :=
  ∀ k d row, w_in w' !! k = Some d → row ∈ messages_in d →
  ∃ d0, w_in w !! k = Some d0 ∧ row ∈ messages_in d0.
Definition no_rows_added {A} (m : wM A) : Prop := ∀ w, rows_kept w (m w).2.

Lemma rows_kept_in w w' : w_in w' = w_in w → rows_kept w w'.
Proof. intros E k d row Hk Hr. rewrite E in Hk. eauto. Qed.
Lemma nra_bind {A B} (m : wM A) (k : A → wM B) :
  no_rows_added m → (∀ a, no_rows_added (k a)) → no_rows_added (bind m k).
Proof.
  intros Hm Hk w. unfold bind. specialize (Hm w). destruct (m w) as [[a|e] w1]; [|exact Hm].
  intros key d row H1 H2. destruct (Hk a w1 key d row H1 H2) as (d1 & H3 & H4). by apply (Hm key d1).
Qed.
Lemma nra_ret {A} (a : A) : no_rows_added (ret a).
Proof. intros w. by apply rows_kept_in. Qed.
Lemma nra_throw {A} (e : exn) : no_rows_added (throw (A:=A) e).
Proof. intros w. by apply rows_kept_in. Qed.
Lemma nra_db_get {A} (f : CentralDb → A) : no_rows_added (db_get f).
Proof. intros w. by apply rows_kept_in. Qed.
Lemma nra_central {A} (m : dbM A) : no_rows_added (central m).
Proof. intros w. apply rows_kept_in. unfold central. by destruct (m (w_db w)). Qed.
Lemma nra_files {A} (m : fsM A) : no_rows_added (files m).
Proof. intros w. apply rows_kept_in. unfold files. by destruct (m (w_fs w)). Qed.
Lemma nra_ensure key : no_rows_added (ensureSchemas key).
Proof.
  intros w k d row. cbn. intros [[<- <-]|[_ H]]%lookup_insert_Some Hr; [|eauto].
  destruct (w_in w !! key) as [d0|]; [eauto|]. by apply not_elem_of_nil in Hr.
Qed.
Hint Resolve nra_bind nra_ret nra_throw nra_db_get nra_central nra_files nra_ensure : prog.

Lemma nra_resolve now id conv ag mg th mode own root depth :
  no_rows_added (resolveSession D now id conv ag mg th mode own root depth).
Proof.
  unfold resolveSession, initSessionFolder. destruct (isUserScopedSessionMode mode && _); [auto with prog|].
  apply nra_bind; [auto with prog|]. by intros [s|]; auto 10 with prog.
Qed.

Lemma inv_resolve now id conv ag mg th mode own root depth w r w' :
  new_root id w → id ≠ "" →
  (truthy root = true → ∃ s, s ∈ sessions (w_db w) ∧ s_root_session_id s = root ∧ s_owner_user_id s = own) →
  root ≠ Some "" → (∀ u, own = Some u → truthy (Some u) = true → real u) →
  resolveSession D now id conv ag mg th mode own root depth w = (r, w') → host_inv w → host_inv w'.
Proof.
  intros Hn Hid Hroot Hne Hown H (H1 & H2 & H3).
  pose proof (resolve_roots_agree _ _ _ _ _ _ _ _ _ _ _ _ _ _ H Hn Hid Hroot Hne H1) as H1'.
  pose proof (nra_resolve now id conv ag mg th mode own root depth w) as Hr. rewrite H in Hr.
  split_and!; [apply H1'|apply H1'| |].
  - intros k d row Hk Hrow. destruct (Hr k d row Hk Hrow) as (d0 & ? & ?). by apply (H2 k d0).
  - intros s u Hs Hu Ht. destruct (resolveSession_db _ _ _ _ _ _ _ _ _ _ _ _ _ _ H) as [E|E];
      rewrite E in Hs; [by apply (H3 s)|]. cbn in Hs.
    apply elem_of_app in Hs as [Hs|Hs]; [by apply (H3 s)|]. apply list_elem_of_singleton in Hs as ->.
    cbn in Hu. apply Hown; [|done]. destruct (truthy root); [done|]. by destruct mode.
Qed.

Lemma inv_resolveTarget now id conv msg s target w r w' :
  s ∈ sessions (w_db w) → new_root id w → id ≠ "" →
  resolveTargetSession D cfg now id conv msg s target w = (r, w') → host_inv w → host_inv w'.
Proof.
  intros Hs Hn Hid H Hinv. pose proof Hinv as ([Ha Hrt] & _ & H3). unfold resolveTargetSession in H.
  apply bind_run in H as [(e & H & _)|(anchor & w1 & H & Hk)].
  { by apply in_get_run in H as [(_ & _ & ->)|(? & _ & _ & ->)]. }
  assert (w1 = w) as -> by by apply in_get_run in H as [(_ & _ & ->)|(? & _ & _ & ->)].
  clear H. apply bind_run in Hk as [(e & H & _)|(c & w1 & H & Hk)]; apply db_get_run in H as [_ ->]; [done|].
  destruct c as [c|]; [by injection Hk as _ <-|].
  apply bind_run in Hk as [(e & H & _)|(mode & w1 & H & Hk)]; apply db_get_run in H as [_ ->]; [done|].
  assert (∀ own root rr ww, (own = None ∧ root = None ∨
      own = s_owner_user_id s ∧ root = Some (default (s_id s) (s_root_session_id s))) →
    (let* (t0, _) := resolveSession D now id conv target None None SMagent_shared own root
       (Some (s_spawn_depth s)) in ret t0) w = (rr, ww) → host_inv ww) as Hres.
  { intros own root rr ww Hor H.
    assert (∃ r0, resolveSession D now id conv target None None SMagent_shared own root
              (Some (s_spawn_depth s)) w = (r0, ww)) as [r0 H0].
    { apply bind_run in H as [(e & H & _)|([t0 c0] & w2 & H & Hk2)]; [eauto|].
      injection Hk2 as _ <-. eauto. }
    specialize (Hrt s Hs). destruct (s_root_session_id s) as [x|] eqn:Ex; [|done].
    apply (inv_resolve _ _ _ _ _ _ _ _ _ _ _ _ _ Hn Hid) in H0; [done| | | |done];
      destruct Hor as [[-> ->]|[-> ->]]; try done.
    - intros _. exists s. by rewrite Ex.
    - cbn in *. to_prop. congruence.
    - intros u Hu. by apply (H3 s). }
  destruct mode as [[]|]; [|by eapply Hres; [right|]|by injection Hk as _ <-].
  destruct (truthy (s_owner_user_id s)); [|by eapply Hres; [left|]].
  apply bind_run in Hk as [(e & H & _)|(c & w1 & H & Hk)]; apply db_get_run in H as [_ ->]; [done|].
  destruct c as [c|]; [by injection Hk as _ <-|].
  apply bind_run in Hk as [(e & H & _)|(c & w1 & H & Hk)]; apply db_get_run in H as [_ ->]; [done|].
  destruct c as [c|]; [by injection Hk as _ <-|]. by eapply Hres; [right|].
Qed.

(** The attributed human is one the host saw in the source session, or its owner. *)
Lemma attributed_real msg s w d u :
  host_inv w → (∀ v, s_owner_user_id s = Some v → truthy (Some v) = true → real v) →
  w_in w !! (s_agent_group_id s, s_id s) = Some d →
  attributedOrigin msg s d = Some u → truthy (Some u) = true → real u.
Proof.
  intros (_ & H2 & H3) Hs Hd H Ht. unfold attributedOrigin in H.
  set (validated := if _ && _ then _ else _) in H.
  assert (∀ v, validated = Some v → real v) as Hval.
  { intros v Hv. unfold validated in Hv. destruct (_ && _) eqn:E; [|done].
    apply andb_true_iff in E as [_ E]. to_prop. rewrite Hv in E. cbn in E.
    unfold collectLegitimateOrigins in E. apply list_elem_of_In, filter_In in E as [E Ev].
    apply list_elem_of_In, list_elem_of_omap in E as (row & Hrow & Hu).
    apply elem_of_sql_where in Hrow as [Hrow Hc]. by apply (H2 _ d row Hd Hrow). }
  destruct (truthy validated) eqn:Ev.
  - rewrite Ev in H. by apply Hval.
  - destruct (truthy (resolveOriginUserId d)) eqn:Er; [|by apply Hs].
    unfold resolveOriginUserId in H, Er. destruct (sql_first_by _ _) as [row|] eqn:E; [|done].
    apply sql_first_by_Some, elem_of_sql_where in E as [Hrow Hc]. by apply (H2 _ d row Hd Hrow).
Qed.

Lemma inv_route now draws msg s w :
  s ∈ sessions (w_db w) → new_root (draw_session draws) w → draw_session draws ≠ "" →
  host_inv w → host_inv (routeAgentMessage D cfg env now draws msg s w).2.
Proof.
  intros Hs Hn Hid Hinv. pose proof Hinv as (_ & _ & H3).
  destruct (routeAgentMessage D cfg env now draws msg s w) as [r w'] eqn:H. cbn [snd].
  unfold routeAgentMessage in H.
  apply bind_run in H as [(e & H & _)|(ref & w1 & H & Hk)]; apply db_get_run in H as [_ ->]; [done|].
  destruct ref; [by injection Hk as _ <-|].
  apply bind_run in Hk as [(e & H & _)|(t & w1 & H & Hk)].
  { by eapply inv_resolveTarget. }
  assert (host_inv w1) as Hi1 by by eapply inv_resolveTarget. clear H.
  apply bind_run in Hk as [(e & H & _)|(fc & w2 & H & Hk)];
    apply files_run in H as (Hdb & Hin & _);
    [by apply (inv_same w1); [unfold lanes; rewrite Hdb| |]|].
  assert (host_inv w2) as Hi2 by by apply (inv_same w1); [unfold lanes; rewrite Hdb| |].
  clear Hdb Hin Hi1. apply bind_run in Hk as [(e & H & _)|(origin & w3 & H & Hk)];
    apply in_get_run in H as [(_ & [? ?] & ->)|(d & Hd & Ho & ->)]; try done.
  injection Ho as ->.
  apply bind_run in Hk as [(e & H & _)|(conv & w3 & H & Hk)];
    apply in_get_run in H as [(_ & [? ?] & ->)|(d' & _ & _ & ->)]; try done.
  assert (∀ seq c, identity_ok (written (mkInMessage (draw_a2a draws) "chat" (TIso now)
      (Some (s_agent_group_id s)) (Some "agent") None fc None None None (Some (s_id s))
      (attributedOrigin msg s d) conv) seq c)) as Hrow.
  { intros seq c _ u Hu Ht. unfold namespacedOriginOf in Hu. cbn in Hu.
    destruct (truthy (attributedOrigin msg s d)) eqn:Ea; [|done].
    eapply attributed_real; [exact Hi2| |exact Hd|exact Hu|done]. intros v Hv. by apply (H3 s). }
  apply bind_run in Hk as [(e & H & _)|(u & w3 & H & Hk)].
  { eapply inv_write; [|exact H|done]. intros seq c fs' _. apply Hrow. }
  assert (host_inv w3) as Hi3.
  { eapply inv_write; [|exact H|done]. intros seq c fs' _. apply Hrow. }
  clear H Hi2.
  assert (∀ A (m : dbM A) ww rr w4, central m ww = (rr, w4) →
    map lane (sessions (m (w_db ww)).2) = lanes ww → host_inv ww → host_inv w4) as Hcen.
  { intros A m ww rr w4 Hc Hl. unfold central in Hc. destruct (m (w_db ww)) as [o db].
    injection Hc as _ <-. by apply inv_same. }
  apply bind_run in Hk as [(e & H & _)|(u2 & w4 & H & Hk)].
  { destruct (truthy conv); [|done]. eapply Hcen; [exact H| |done]. cbn. by apply map_lane_update. }
  assert (host_inv w4) as Hi4.
  { destruct (truthy conv); [|by injection H as _ <-].
    eapply Hcen; [exact H| |done]. cbn. by apply map_lane_update. }
  clear H Hi3. apply bind_run in Hk as [(e & H & _)|(u3 & w5 & H & Hk)].
  { destruct (bool_decide _); [done|]. by eapply Hcen; [exact H| |]. }
  assert (host_inv w5) as Hi5.
  { destruct (bool_decide _); [by injection H as _ <-|]. by eapply Hcen; [exact H| |]. }
  by apply db_get_run in Hk as [_ ->].
Qed.

Lemma inv_step w w' : host_step w w' → host_inv w → host_inv w'.
Proof.
  intros [now id conv ag mg th mode own depth Hn Hid Hown|now ag sid m Hm|now draws msg s Hs Hn Hid] Hinv.
  - destruct (resolveSession _ _ _ _ _ _ _ _ _ _ _ _) as [r w2] eqn:E.
    by eapply inv_resolve in E.
  - destruct (writeSessionMessage _ _ _ _ _ _) as [r w2] eqn:E. by eapply inv_write.
  - by apply inv_route.
Qed.

Definition no_sessions (w : World) : Prop := sessions (w_db w) = [] ∧ w_in w = ∅.

Lemma reachable_inv w0 w : no_sessions w0 → rtc host_step w0 w → host_inv w.
Proof.
  intros [Hs Hi] Hr. apply (rtc_invariant host_step host_inv inv_step w0 w Hr). split_and!.
  - intros s1 s2 H1. rewrite Hs in H1. by apply not_elem_of_nil in H1.
  - intros s1 H1. rewrite Hs in H1. by apply not_elem_of_nil in H1.
  - intros k d row Hk. rewrite Hi in Hk. by rewrite lookup_empty in Hk.
  - intros s u H1. rewrite Hs in H1. by apply not_elem_of_nil in H1.
Qed.
End steps.

(** C1: No identity is forged across hops.  However the containers fill in
    their messages (target, content, reply anchor, claimed origin), after any
    sequence of session resolutions, channel messages of real users and
    agent-to-agent hops from a fresh host, every human a chat row of any
    session is attributed to is a real user, and so is every session owner. *)
Theorem identities_are_real D cfg env (real : string → Prop) (w0 w : World) :
  no_sessions w0 → rtc (host_step D cfg env real) w0 w →
  (∀ key d row u, w_in w !! key = Some d → row ∈ messages_in d → is_chat row = true →
     namespacedOriginOf row = Some u → truthy (Some u) = true → real u) ∧
  (∀ s u, s ∈ sessions (w_db w) → s_owner_user_id s = Some u → truthy (Some u) = true → real u).
Proof.
  intros H0 Hr. destruct (reachable_inv D cfg env real w0 w H0 Hr) as (_ & H2 & H3).
  split; [|done]. intros key d row u Hk Hrow Hc Hu Ht. by apply (H2 key d row Hk Hrow Hc u).
Qed.

(** C2: Private lanes never cross.  In every state such a sequence reaches, a
    message from a session owned by a user goes, whatever its content and its
    reply anchor say and in both a2a session modes, to a session of the target
    group that the same user owns or that nobody owns. *)
Theorem lanes_never_cross D cfg env (real : string → Prop) (w0 w : World) (now : time)
    (id conv : string) (msg : RoutableAgentMessage) (s : Session) (target : string)
    (t : Session) (w' : World) :
  no_sessions w0 → rtc (host_step D cfg env real) w0 w →
  s ∈ sessions (w_db w) → truthy (s_owner_user_id s) = true →
  resolveTargetSession D cfg now id conv msg s target w = (Ok t, w') →
  s_agent_group_id t = target ∧
  (s_owner_user_id t = None ∨ s_owner_user_id t = s_owner_user_id s).
Proof.
  intros H0 Hr Hs Ho H. destruct (reachable_inv D cfg env real w0 w H0 Hr) as ([Ha Hrt] & _ & _).
  by eapply resolveTarget_lane.
Qed.

(** ** Concrete runs *)

(** Agents [a] and [b], a chat wired to [a], and a destination from [a] to [b]. *)
Definition pair_db : CentralDb :=
  set_agent_destinations [mkAgentDestination "a" "bee" TargetAgent "b" 0]
    (set_agent_groups [mkAgentGroup "a" "A" "a" None 0 None None; mkAgentGroup "b" "B" "b" None 0 None None]
       (set_messaging_groups [mkMessagingGroup "m" "feishu" "oc_1" None true public None 0] emptyDb)).
Definition pair_world : World := mkWorld pair_db ∅ ∅ {[ ["data"] := NDir ]}.
Definition is_A (u : string) : Prop := u = "feishu:A".
Definition no_cfg (_ : string) : outcome exn GroupConfig := Ok (mkGroupConfig None None None).

(** User A's private session in [a], A's message, and a hop to [b] in which the
    container claims to speak for a victim. *)
Definition from_A : InMessage :=
  mkInMessage "in1" "chat" (TIso 5) (Some "oc_1") (Some "feishu") None
    (JSON_stringify (JObj [("senderId", JStr "A"); ("text", JStr "hi")])) None None None None None None.
Definition forged : RoutableAgentMessage :=
  mkRoutable "out1" (Some "b") "{}" None (Some "feishu:victim").
Definition w_1 : World :=
  (resolveSession ["data"] 1 "s1" "conv" "a" (Some "m") None SMper_user (Some "feishu:A") None None pair_world).2.
Definition w_2 : World := (writeSessionMessage ["data"] 5 "a" "s1" from_A w_1).2.
Definition s_1 : Session :=
  apply_session_update (mkSessionUpdate None None (Some (Some 5)) None None)
    (freshSession 1 "s1" "conv" "a" (Some "m") None SMper_user (Some "feishu:A") None None).
Definition w_3 : World :=
  (routeAgentMessage ["data"] no_cfg None 6 (mkDraws "s2" "conv2" "a2a1") forged s_1 w_2).2.

Lemma run_A : rtc (host_step ["data"] no_cfg None is_A) pair_world w_2.
Proof.
  eapply rtc_l; [|eapply rtc_l; [|apply rtc_refl]].
  - apply (hs_resolve _ _ _ _ _ 1 "s1" "conv" "a" (Some "m") None SMper_user (Some "feishu:A") None).
    + intros s Hs. by apply not_elem_of_nil in Hs.
    + done.
    + intros u [= <-]. done.
  - apply (hs_channel _ _ _ _ _ 5 "a" "s1" from_A). intros seq c fs' Hx.
    apply (f_equal fst) in Hx. vm_compute in Hx. injection Hx as <-.
    intros _ u Hu. vm_compute in Hu. by injection Hu as <-.
Qed.
Lemma s_1_in : s_1 ∈ sessions (w_db w_2).
Proof. apply list_elem_of_In. vm_compute. by left. Qed.
Lemma run_AB : rtc (host_step ["data"] no_cfg None is_A) pair_world w_3.
Proof.
  eapply rtc_r; [exact run_A|]. apply (hs_route _ _ _ _ _ 6 (mkDraws "s2" "conv2" "a2a1") forged s_1).
  - exact s_1_in.
  - intros s Hs. vm_compute in Hs. apply list_elem_of_singleton in Hs as ->. done.
  - done.
Qed.

Example identities_are_real_witness :
  (∀ key d row u, w_in w_3 !! key = Some d → row ∈ messages_in d → is_chat row = true →
     namespacedOriginOf row = Some u → truthy (Some u) = true → is_A u) ∧
  (∀ s u, s ∈ sessions (w_db w_3) → s_owner_user_id s = Some u → truthy (Some u) = true → is_A u).
Proof.
  apply (identities_are_real ["data"] no_cfg None is_A pair_world w_3 (conj eq_refl eq_refl) run_AB).
Defined.

(** The hop did write a row in [b]'s session, attributed to A and not to the
    claimed victim. *)
Example forged_claim_dropped :
  option_map (λ d, map mi_origin_user_id (messages_in d)) (w_in w_3 !! ("b", "s2")) = Some [Some "feishu:A"].
Proof. vm_compute. reflexivity. Qed.

Definition lane_b : Session :=
  freshSession 6 "s2" "conv2" "b" None None SMagent_shared (Some "feishu:A") (Some "s1") (Some 0).

Example lanes_never_cross_witness :
  s_agent_group_id lane_b = "b" ∧
  (s_owner_user_id lane_b = None ∨ s_owner_user_id lane_b = s_owner_user_id s_1).
Proof.
  apply (lanes_never_cross ["data"] no_cfg None is_A pair_world w_2 6 "s2" "conv2" forged s_1 "b" lane_b
    (resolveTargetSession ["data"] no_cfg 6 "s2" "conv2" forged s_1 "b" w_2).2 (conj eq_refl eq_refl) run_A s_1_in).
  - reflexivity.
  - vm_compute. reflexivity.
Defined.

(** The protection ends at an ownerless source: a message from a shared
    session (here an unattended one, with no human in it) to a group in
    agent-shared mode goes to the newest session of any owner, so it is
    written into user A's private session of that group. *)
Theorem ownerless_source_joins_private_lane :
  let shared := freshSession 0 "sh" "c" "b" (Some "m") None SMshared None None None in
  let w := (resolveSession ["data"] 0 "sh" "c" "b" (Some "m") None SMshared None None None w_2).2 in
  let r := resolveTargetSession ["data"] no_cfg 6 "s9" "c9"
             (mkRoutable "out2" (Some "a") "{}" None None) shared "a" w in
  s_owner_user_id shared = None ∧ option_map s_id (match r.1 with Ok t => Some t | _ => None end) = Some "s1" ∧
  option_map s_owner_user_id (match r.1 with Ok t => Some t | _ => None end) = Some (Some "feishu:A").
Proof. vm_compute. done. Qed.
