(* ===== verification/Classification.v ===== *)
(** * The classification log (src/db/classification-log.ts,
    src/modules/classification-log/index.ts, src/trusted-actor.ts)

    What a frontdesk agent says it decided.  The agent writes the content; the
    host records it under an actor it can vouch for. *)
From S2P Require Import Prelude JsString Json Types Central SessionDb SessionManager AgentRoute.

Local Open Scope string_scope.
Local Open Scope Z_scope.
Local Open Scope list_scope.
Local Open Scope prog_scope.

Abbreviation fields := (list (string * json)) (only parsing).

(** ** The table *)

Definition set_outcome (ref : string) (r : ClassificationRow) : ClassificationRow :=
  let e := cl_entry r in
  mkClassificationRow (cl_occurred_at r)
    (mkClassification (cl_classificationId e) (cl_sessionId e) (cl_agentGroupId e) (cl_userId e)
       (cl_channelType e) (cl_platformId e) (cl_threadId e) (cl_userMessage e)
       (cl_recommendedWorker e) (cl_confidence e) (cl_candidates e) (cl_reasoning e) (cl_action e)
       (Some ref) (cl_escalationReason e) (cl_urgencyLevel e) (cl_feedbackKind e)
       (cl_conversationThreadId e)).

(** The entry as it is stored: three texts are cut, and empty ones are NULL. *)
Definition stored (e : ClassificationLogEntry) : ClassificationLogEntry :=
  let cut n o := if truthy o then option_map (js_slice n) o else None in
  mkClassification (cl_classificationId e) (cl_sessionId e) (cl_agentGroupId e) (cl_userId e)
    (cl_channelType e) (cl_platformId e) (cl_threadId e) (cut 500 (cl_userMessage e))
    (cl_recommendedWorker e) (cl_confidence e) (cl_candidates e) (cut 1000 (cl_reasoning e))
    (cl_action e) (cl_outcomeRef e) (cut 500 (cl_escalationReason e)) (cl_urgencyLevel e)
    (cl_feedbackKind e) (cl_conversationThreadId e).

(** [classification_id] has a UNIQUE index, in which NULLs do not clash. *)
(*@ src/src/db/classification-log.ts 47-78 recordClassification *)
Definition recordClassification (now : time) (entry : ClassificationLogEntry) : dbM unit :=
  let* clash := query (λ db, sql_exists
    (λ r, sql_eq (cl_classificationId (cl_entry r)) (cl_classificationId entry))
    (classification_log db)) in
  if clash : bool then throw (SqliteConstraint "classification_log")
  else modify (λ db, set_classification_log
         (classification_log db ++ [mkClassificationRow now (stored entry)]) db).

(*@ src/src/db/classification-log.ts 85-89 findClassificationById *)
Definition findClassificationById (classificationId : string) (db : CentralDb)
    : option ClassificationRow :=
  sql_first (λ r, sql_eq (cl_classificationId (cl_entry r)) (Some classificationId))
    (classification_log db).

(** [WHERE classification_id = ? AND session_id = ? AND (outcome_ref IS NULL OR
    outcome_ref = '')] *)
Definition linkable (classificationId sessionId : string) (r : ClassificationRow) : bool :=
  sql_eq (cl_classificationId (cl_entry r)) (Some classificationId) &&
  sql_eq (cl_sessionId (cl_entry r)) (Some sessionId) && negb (truthy (cl_outcomeRef (cl_entry r))).

(*@ src/src/db/classification-log.ts 100-111 linkOutcome *)
Definition linkOutcome (classificationId outcomeRef sessionId : string) : dbM bool :=
  let p := linkable classificationId sessionId in
  let* n := query (λ db, sql_changes p (classification_log db)) in
  modify (λ db, set_classification_log
    (sql_update p (set_outcome outcomeRef) (classification_log db)) db) ;;
  ret (0 <? Z.of_nat n).

(*@ src/src/db/classification-log.ts 5-8 purgeClassificationLog *)
Definition purgeClassificationLog (olderThanMs : Z) (now : time) : dbM nat :=
  let old r := cl_occurred_at r <? now - olderThanMs in
  let* n := query (λ db, sql_changes old (classification_log db)) in
  modify (λ db, set_classification_log (sql_delete old (classification_log db)) db) ;;
  ret n.

(*@ src/src/db/classification-log.ts 113-119 ClassificationQueryOptions *)
Record ClassificationQueryOptions := mkClassificationQuery {
  cq_limit : option Z;
  cq_userId : option string;
  cq_recommendedWorker : option string;
  cq_action : option string;
  cq_since : option time }.

(*@ src/src/db/classification-log.ts 121-145 queryClassificationLog *)
Definition queryClassificationLog (o : ClassificationQueryOptions) (db : CentralDb)
    : list ClassificationRow :=
  let given v (x : option string) := negb (truthy v) || sql_eq x v in
  let matches r :=
    given (cq_userId o) (cl_userId (cl_entry r)) &&
    given (cq_recommendedWorker o) (cl_recommendedWorker (cl_entry r)) &&
    given (cq_action o) (Some (cl_action (cl_entry r))) &&
    match cq_since o with None => true | Some t => t <=? cl_occurred_at r end in
  let limit := Z.max 1 (Z.min (default 100 (cq_limit o)) 1000) in
  take (Z.to_nat limit) (reverse (sql_where matches (classification_log db))).

(** ** The actor *)

(** [d] is the session's inbound.db. *)
(*@ src/src/trusted-actor.ts 31-67 resolveTrustedActor *)
Definition resolveTrustedActor (session : Session) (claimedUserId : option string) (d : InboundDb)
    : option string :=
  if truthy (s_owner_user_id session) then s_owner_user_id session
  else if negb (truthy claimedUserId) then None
  else if bool_decide (default "" claimedUserId ∈ collectLegitimateOrigins d) then claimedUserId
  else None.

(** ** Reading the content *)

(*@ src/src/modules/classification-log/index.ts 65-68 readString *)
Definition readText (content : fields) (key : string) : option string :=
  match obj_get key content with
  | Some (JStr s) => if bool_decide (s = "") then None else Some s
  | _ => None
  end.

(** Every number literal is taken to be finite. *)
(*@ src/src/modules/classification-log/index.ts 70-73 readNumber *)
Definition readNumber (content : fields) (key : string) : option json :=
  match obj_get key content with
  | Some (JNum n) => Some (JNum n)
  | Some (JFrac l) => Some (JFrac l)
  | _ => None
  end.

(*@ src/src/modules/classification-log/index.ts 75-80 readStringArray *)
Definition readTexts (content : fields) (key : string) : option (list string) :=
  match obj_get key content with
  | Some (JArr l) =>
      match omap (λ v, jstring (Some v)) l with [] => None | out => Some out end
  | _ => None
  end.

(** [typeof raw === 'string' && allowed.includes(raw) ? raw : other] *)
Definition coerce (allowed : list string) (other : string) (raw : option json) : string :=
  match jstring raw with
  | Some s => if bool_decide (s ∈ allowed) then s else other
  | None => other
  end.

(*@ src/src/modules/classification-log/index.ts 31-31 ACTIONS *)
Definition ACTIONS : list string := ["delegate"; "clarify"; "reject"; "answer_self"].
(*@ src/src/modules/classification-log/index.ts 82-86 toAction *)
Definition toAction (raw : option json) : string := coerce ACTIONS "delegate" raw.
(*@ src/src/modules/classification-log/index.ts 36-38 coerceUrgency *)
Definition coerceUrgency (raw : option json) : string :=
  coerce ["low"; "medium"; "high"; "critical"] "unknown" raw.
(*@ src/src/modules/classification-log/index.ts 43-45 coerceFeedbackKind *)
Definition coerceFeedbackKind (raw : option json) : string :=
  coerce ["misroute"; "nack"] "unknown" raw.


(** ** The delivery actions *)

(** [try { recordClassification } catch { }], and whether it was written. *)
Definition try_record (now : time) (entry : ClassificationLogEntry) : wM bool :=
  try_catch (central (recordClassification now entry) ;; ret true) (λ _, ret false).

Definition session_key (session : Session) : string * string :=
  (s_agent_group_id session, s_id session).

Definition trusted_user (content : fields) (session : Session) : wM (option string) :=
  in_get (session_key session) (resolveTrustedActor session (readText content "userId")).

(*@ src/src/modules/classification-log/index.ts 88-137 handleClassifyIntent *)
Definition handleClassifyIntent (now : time) (content : fields) (session : Session) : wM unit :=
  let action := toAction (obj_get "action_taken" content) in
  let* trustedUserId := trusted_user content session in
  let given := readText content "outcomeRef" in
  let outcomeRef := if (bool_decide (action = "reject") || bool_decide (action = "answer_self"))
                       && negb (truthy given)
                    then Some ("self:" +:+ action) else given in
  try_record now
    (mkClassification (readText content "classificationId") (Some (s_id session))
       (Some (s_agent_group_id session)) trustedUserId (readText content "channelType")
       (readText content "platformId") (readText content "threadId") (readText content "userMessage")
       (readText content "recommendedWorker") (readNumber content "confidence")
       (readTexts content "candidates") (readText content "reasoning") action outcomeRef
       None None None (s_conversation_thread_id session)) ;;
  ret tt.

(*@ src/src/modules/classification-log/index.ts 153-207 handleEscalate *)
Definition handleEscalate (now : time) (content : fields) (session : Session) : wM unit :=
  let* trustedUserId := trusted_user content session in
  let reason := readText content "escalation_reason" in
  let urgency := coerceUrgency (obj_get "urgency_level" content) in
  try_record now
    (mkClassification (readText content "classificationId") (Some (s_id session))
       (Some (s_agent_group_id session)) trustedUserId (readText content "channelType")
       (readText content "platformId") (readText content "threadId") (readText content "userMessage")
       None None None None "escalate" (Some "escalated") reason (Some urgency) None
       (s_conversation_thread_id session)) ;;
  central (recordEnterpriseAudit now "agent_escalation" None (Some (s_agent_group_id session))
    trustedUserId
    (Some (JObj [("reason", jopt reason); ("urgency", JStr urgency);
                 ("sourceSessionId", JStr (s_id session));
                 ("classificationId", jopt (readText content "classificationId"))]))).

(*@ src/src/modules/classification-log/index.ts 227-292 handleRoutingFeedback *)
Definition handleRoutingFeedback (now : time) (content : fields) (session : Session) : wM unit :=
  let* trustedUserId := trusted_user content session in
  let kind := coerceFeedbackKind (obj_get "feedback_kind" content) in
  let reason := readText content "feedback_reason" in
  let suggestedTarget := readText content "suggested_target" in
  let misroutedClassificationId := readText content "classificationId" in
  try_record now
    (mkClassification misroutedClassificationId (Some (s_id session))
       (Some (s_agent_group_id session)) trustedUserId (readText content "channelType")
       (readText content "platformId") (readText content "threadId") None
       (option_map (js_slice 120) suggestedTarget) None None reason "routing_feedback"
       (Some ("feedback:" +:+ kind)) None None (Some kind) (s_conversation_thread_id session)) ;;
  central (recordEnterpriseAudit now "agent_routing_feedback" None (Some (s_agent_group_id session))
    trustedUserId
    (Some (JObj [("kind", JStr kind); ("reason", jopt reason);
                 ("suggestedTarget", jopt suggestedTarget);
                 ("misroutedClassificationId", jopt misroutedClassificationId);
                 ("sourceSessionId", JStr (s_id session))]))).

(** ** What the log guarantees *)

(** The host can vouch for [u] as an actor of the session: its owner, or an
    identity it wrote to the session's inbound.db itself. *)
Definition vouched (w : World) (session : Session) (u : option string) : Prop :=
  match u with
  | None => True
  | Some x => s_owner_user_id session = Some x ∨
              ∃ d, w_in w !! session_key session = Some d ∧ x ∈ collectLegitimateOrigins d
  end.

Lemma resolveTrustedActor_vouched w session claimed d :
  w_in w !! session_key session = Some d → vouched w session (resolveTrustedActor session claimed d).
Proof.
  intros Hd. unfold resolveTrustedActor, vouched.
  destruct_if; [destruct (s_owner_user_id session); [by left|done]|].
  destruct_if; [done|]. destruct_if; [|done]. to_prop. destruct claimed as [c|]; [|done].
  right. by exists d.
Qed.

(** A recording step adds rows of the actor [u] and nothing else. *)
Definition records (u : option string) (w w' : World) : Prop :=
  (∀ r, r ∈ classification_log (w_db w') →
     r ∈ classification_log (w_db w) ∨ cl_userId (cl_entry r) = u) ∧
  (∀ r, r ∈ enterprise_audit (w_db w') → r ∈ enterprise_audit (w_db w) ∨ ea_actor r = u) ∧
  w_in w' = w_in w ∧ w_out w' = w_out w ∧ w_fs w' = w_fs w ∧
  ∃ log audit, w_db w' = set_classification_log log (set_enterprise_audit audit (w_db w)).

Lemma try_record_records now entry w :
  ∃ b, try_record now entry w = (Ok b, (try_record now entry w).2) ∧
       records (cl_userId entry) w (try_record now entry w).2.
Proof.
  unfold try_record, try_catch, central, recordClassification, query, gets, modify, throw, ret, bind.
  cbn. match goal with |- context [@sql_exists ?R ?p ?t] => destruct (@sql_exists R p t) end; cbn; eexists; (split; [done|]).
  - split; [by left|]. split; [by left|]. do 3 (split; [done|]).
    exists (classification_log (w_db w)), (enterprise_audit (w_db w)). by destruct w as [[]].
  - split; [intros r [?|Hr%list_elem_of_singleton]%elem_of_app; [by left|subst; by right]|].
    split; [by left|]. do 3 (split; [done|]).
    eexists _, (enterprise_audit (w_db w)). by destruct w as [[]].
Qed.

Lemma records_audit now u event mg ag details w w' :
  records u w w' →
  records u w (central (recordEnterpriseAudit now event mg ag u details) w').2.
Proof.
  intros (Hc & Ha & Hi & Ho & Hf & log & audit & Hdb). unfold central, recordEnterpriseAudit, modify. cbn.
  split; [done|]. split.
  { intros r [?|Hr%list_elem_of_singleton]%elem_of_app; [by apply Ha|subst; by right]. }
  do 3 (split; [done|]). rewrite Hdb. by do 2 eexists.
Qed.

(** The three handlers run one recording under the resolved actor. *)
Lemma handlers_record now content session w d h :
  w_in w !! session_key session = Some d →
  h ∈ [handleClassifyIntent; handleEscalate; handleRoutingFeedback] →
  let res := h now content session w in
  res.1 = Ok tt ∧ records (resolveTrustedActor session (readText content "userId") d) w res.2.
Proof.
  intros Hd Hh. cbn zeta.
  assert (trusted_user content session w
          = (Ok (resolveTrustedActor session (readText content "userId") d), w)) as Hu.
  { unfold trusted_user, in_get, inbound, gets. rewrite Hd. destruct w. unfold set_in. cbn in *.
    by rewrite (insert_id _ _ _ Hd). }
  assert (∀ entry, cl_userId entry = resolveTrustedActor session (readText content "userId") d →
    ∃ b w', try_record now entry w = (Ok b, w') ∧
            records (resolveTrustedActor session (readText content "userId") d) w w') as Hr.
  { intros entry He. rewrite <-He. destruct (try_record_records now entry w) as (b & Hb & Hrec).
    exists b, (try_record now entry w).2. done. }
  repeat (apply elem_of_cons in Hh as [->|Hh]); [| | |by apply not_elem_of_nil in Hh];
    unfold handleClassifyIntent, handleEscalate, handleRoutingFeedback, bind; rewrite Hu;
    match goal with |- context [try_record now ?e w] =>
      destruct (Hr e eq_refl) as (b & w' & -> & Hw') end; (split; [done|]); [exact Hw'|..];
    by apply records_audit.
Qed.

(** The audit holds no actor the agent made up: whatever user id the
    content of a classification, escalation or routing feedback claims, the
    rows it adds to the classification log and to the enterprise audit carry
    the owner of the session, an identity the host itself wrote to the
    session's inbound.db, or none; and nothing else is written. *)
Theorem recorded_actors_are_real now content session w d h :
  w_in w !! session_key session = Some d →
  h ∈ [handleClassifyIntent; handleEscalate; handleRoutingFeedback] →
  let w' := (h now content session w).2 in
  (∀ r, r ∈ classification_log (w_db w') →
     r ∈ classification_log (w_db w) ∨ vouched w session (cl_userId (cl_entry r))) ∧
  (∀ r, r ∈ enterprise_audit (w_db w') →
     r ∈ enterprise_audit (w_db w) ∨ vouched w session (ea_actor r)) ∧
  sessions (w_db w') = sessions (w_db w) ∧ w_in w' = w_in w ∧ w_out w' = w_out w ∧ w_fs w' = w_fs w.
Proof.
  intros Hd Hh. cbn zeta.
  destruct (handlers_record now content session w d h Hd Hh) as (_ & Hc & Ha & Hi & Ho & Hf & log & audit & Hdb).
  pose proof (resolveTrustedActor_vouched w session (readText content "userId") d Hd) as Hv.
  split; [intros r [?| ->]%Hc; auto|]. split; [intros r [?| ->]%Ha; auto|].
  rewrite Hdb. auto.
Qed.

(** A worker that attaches the classification it answers to, as its
    runtime does, is never recorded: the id column is unique, so the insert of
    its routing feedback fails while the original row stands, the failure is
    swallowed, and the log stays as it was. *)
Theorem correlated_feedback_not_recorded now content session w d id original :
  w_in w !! session_key session = Some d →
  findClassificationById id (w_db w) = Some original →
  readText content "classificationId" = Some id →
  let res := handleRoutingFeedback now content session w in
  res.1 = Ok tt ∧ classification_log (w_db res.2) = classification_log (w_db w).
Proof.
  intros Hd Horig Hid. cbn zeta.
  split; [refine (proj1 (handlers_record now content session w d _ Hd _)); do 2 right; left|].
  apply sql_first_Some in Horig as [Hin Hsame]. to_prop. simplify_eq.
  unfold handleRoutingFeedback, bind, trusted_user, in_get, inbound, gets. rewrite Hd.
  unfold try_record, try_catch, recordClassification, recordEnterpriseAudit, central, query, gets, bind. cbn.
  rewrite Hid. rewrite (proj2 (sql_exists_true _ _)); [done|].
  exists original. split; [done|]. apply sql_eq_true. eauto.
Qed.

(** The first outcome stays: a second link of the same classification in the
    same session writes nothing. *)
Lemma linkOutcome_once id a b session db :
  a ≠ "" →
  let db1 := (linkOutcome id a session db).2 in
  linkOutcome id b session db1 = (Ok false, db1).
Proof.
  intros Ha db1.
  assert (∀ r, r ∈ classification_log db1 → linkable id session r = false) as Hnone.
  { intros r (r0 & _ & ->)%elem_of_sql_update. destruct_if; [|done].
    unfold linkable, set_outcome. cbn. rewrite (bool_decide_eq_false_2 (a = "")) by done. cbn.
    by rewrite andb_false_r. }
  clearbody db1. unfold linkOutcome, bind, query, gets, modify, ret. cbn -[sql_changes sql_update].
  rewrite (proj2 (sql_changes_zero _ _) Hnone), sql_update_id.
  - by destruct db1.
  - intros r Hr Hp. by rewrite (Hnone r Hr) in Hp.
Qed.

(** A shared session whose inbound.db has one message of [ou_ann]. *)
Definition desk : Session :=
  mkSession "s" "a" (Some "m") None None (Some "s") None None active running None None 0 0.
Definition ann_row : MessageIn :=
  mkMessageIn "m1" 2 "chat" (TIso 0) RPending None None None 0 true (Some "p") (Some "feishu") None
    (JSON_stringify (JObj [("senderId", JStr "ou_ann"); ("text", JStr "hi")])) None None None.
Definition desk_world : World :=
  mkWorld emptyDb {[("a", "s") := set_messages_in [ann_row] emptyInbound]} ∅ ∅.
Definition classified_world : World :=
  (handleClassifyIntent 5 [("classificationId", JStr "cls-1"); ("action_taken", JStr "delegate")]
     desk desk_world).2.

(** [ou_ann] is vouched for and [ou_eve] is not. *)
Example recorded_actors_witness :
  let claim u := (handleEscalate 6 [("userId", JStr u)] desk desk_world).2 in
  map ea_actor (enterprise_audit (w_db (claim "feishu:ou_ann"))) = [Some "feishu:ou_ann"] ∧
  map ea_actor (enterprise_audit (w_db (claim "feishu:ou_eve"))) = [None] ∧
  sessions (w_db (claim "feishu:ou_eve")) = [].
Proof.
  split; [vm_compute; reflexivity|]. split; [vm_compute; reflexivity|].
  refine (proj1 (proj2 (proj2 (recorded_actors_are_real 6 [("userId", JStr "feishu:ou_eve")] desk
    desk_world (set_messages_in [ann_row] emptyInbound) handleEscalate _ _)))).
  - vm_compute. reflexivity.
  - right; left.
Defined.

Example correlated_feedback_witness :
  let content := [("classificationId", JStr "cls-1"); ("feedback_kind", JStr "misroute")] in
  let res := handleRoutingFeedback 9 content desk classified_world in
  res.1 = Ok tt ∧ classification_log (w_db res.2) = classification_log (w_db classified_world).
Proof.
  refine (correlated_feedback_not_recorded 9
    [("classificationId", JStr "cls-1"); ("feedback_kind", JStr "misroute")] desk classified_world
    (set_messages_in [ann_row] emptyInbound) "cls-1" _ _ eq_refl eq_refl).
  vm_compute. reflexivity.
Defined.
