(* ===== verification/Host.v ===== *)
(** * The host between two awaits

    The asynchronous code of the host runs to its next [await] without
    interruption; there the channel adapter, the gateway and every other part
    of the host may act.  [Turn] is what an await brings: the answer, what
    everything else did to the databases and the files meanwhile, and the time
    at which the code resumes.  A theorem about a program of this file is about
    every sequence of turns. *)
From S2P Require Import Prelude Json Types Events Central SessionManager AgentRoute.

Local Open Scope string_scope.
Local Open Scope Z_scope.
Local Open Scope list_scope.
Local Open Scope prog_scope.

(** The error classes the delivery code tells apart. *)
(*@ src/src/delivery.ts 76-81 DeliveryTimeoutError *)
Inductive failure :=
| ContractError (reason : string)
| TimeoutError
| OtherError (e : exn).

(** How [adapter.deliver] ends, within the timeout or not. *)
Inductive reply :=
| Replied (platformMessageId : option string)
| TimedOut
| Failed (e : exn).

(** How a request to the gateway ends. *)
Inductive fetched :=
| Fetched (status : Z) (body : string)
| FetchFailed (aborted : bool).

(** [t_member] is [None] when [isMember] throws, and [Some None] when it
    answers [undefined]; [t_text] answers [openDM] and [resolveChannelName],
    [t_woke] answers
    [wakeContainer]; [t_ids] are the ids the code generates, by their use. *)
Record Turn := mkTurn {
  t_now : time;
  t_reply : reply;
  t_member : option (option bool);
  t_fetched : fetched;
  t_text : option (option string);
  t_woke : bool;
  t_ids : string → string;
  t_draws : Draws;
  t_world : World → World }.

(** The delivery adapter: [isMember] is optional. *)
(*@ src/src/delivery.ts 163-183 ChannelDeliveryAdapter *)
Inductive Adapter := NoAdapter | AdapterSet (has_isMember : bool).

(** A call of [adapter.deliver], with the time and the state it was made in. *)
Record Sent := mkSent {
  sn_channelType : string;
  sn_platformId : string;
  sn_threadId : option string;
  sn_kind : string;
  sn_content : string;
  sn_files : option (list (string * string));
  sn_at : time;
  sn_world : World }.

(** The private chat a name is awaited from. *)
(*@ src/src/modules/permissions/index.ts 61-65 PendingNameInput *)
Record PendingNameInput := mkPendingName {
  pn_channelMgId : string;
  pn_dmChannelType : string;
  pn_dmPlatformId : string }.

(** An asynchronous call that is started and not awaited.  It does nothing but
    read before its first [await], and what it reads is not written until its
    caller awaits, so it may as well start there.  The kill of a container is
    awaited; what it does to the slots is in [ContainerSlots]. *)
Inductive Job :=
| RequestSenderApproval (messagingGroupId agentGroupId senderIdentity : string)
    (senderName : option json) (event : InboundEvent)
| RequestChannelApproval (messagingGroupId : string) (event : InboundEvent)
| Subscribe (channelType platformId threadId : string)
| ResolveCredential (approvalId : string) (approve : bool)
| KillContainer (sessionId reason : string).

(** [h_members] is the membership cache, [h_inflight] the set of the sessions
    being drained, [h_awaiting] the users a name is awaited from, and
    [h_credentials] the credential requests that wait for a click; [h_woken] are
    the sessions the code woke, [h_jobs] the calls it started. *)
Record Host := mkHost {
  h_world : World;
  h_turn : nat;
  h_adapter : Adapter;
  h_members : gmap string (bool * time);
  h_inflight : gset string;
  h_awaiting : gmap string PendingNameInput;
  h_credentials : gset string;
  h_sent : list Sent;
  h_woken : list string;
  h_jobs : list Job }.

Definition hostM (A : Type) : Type := prog Host failure A.

Definition set_world (w : World) (h : Host) : Host :=
  mkHost w (h_turn h) (h_adapter h) (h_members h) (h_inflight h)
    (h_awaiting h) (h_credentials h) (h_sent h) (h_woken h) (h_jobs h).
Definition set_members (m : gmap string (bool * time)) (h : Host) : Host :=
  mkHost (h_world h) (h_turn h) (h_adapter h) m (h_inflight h)
    (h_awaiting h) (h_credentials h) (h_sent h) (h_woken h) (h_jobs h).
Definition set_inflight (s : gset string) (h : Host) : Host :=
  mkHost (h_world h) (h_turn h) (h_adapter h) (h_members h) s
    (h_awaiting h) (h_credentials h) (h_sent h) (h_woken h) (h_jobs h).
Definition set_awaiting (m : gmap string PendingNameInput) (h : Host) : Host :=
  mkHost (h_world h) (h_turn h) (h_adapter h) (h_members h) (h_inflight h)
    m (h_credentials h) (h_sent h) (h_woken h) (h_jobs h).
Definition set_credentials (s : gset string) (h : Host) : Host :=
  mkHost (h_world h) (h_turn h) (h_adapter h) (h_members h) (h_inflight h)
    (h_awaiting h) s (h_sent h) (h_woken h) (h_jobs h).
Definition add_sent (s : Sent) (h : Host) : Host :=
  mkHost (h_world h) (h_turn h) (h_adapter h) (h_members h) (h_inflight h)
    (h_awaiting h) (h_credentials h) (h_sent h ++ [s]) (h_woken h) (h_jobs h).
Definition add_woken (id : string) (h : Host) : Host :=
  mkHost (h_world h) (h_turn h) (h_adapter h) (h_members h) (h_inflight h)
    (h_awaiting h) (h_credentials h) (h_sent h) (h_woken h ++ [id]) (h_jobs h).
Definition add_job (j : Job) (h : Host) : Host :=
  mkHost (h_world h) (h_turn h) (h_adapter h) (h_members h) (h_inflight h)
    (h_awaiting h) (h_credentials h) (h_sent h) (h_woken h) (h_jobs h ++ [j]).

(** A synchronous program over the world, and reads of it. *)
Definition run {A} (m : wM A) : hostM A :=
  λ h, match m (h_world h) with
       | (Ok a, w) => (Ok a, set_world w h)
       | (Throw e, w) => (Throw (OtherError e), set_world w h)
       end.
Definition db_read {A} (f : CentralDb → A) : hostM A := gets (λ h, f (w_db (h_world h))).

Definition of_outcome {A} (o : outcome exn A) : hostM A :=
  match o with Ok a => ret a | Throw e => throw (OtherError e) end.

Section turns.
Context (turns : nat → Turn).

Definition turn_of (h : Host) : Turn := turns (h_turn h).

(** [Date.now()] *)
Definition clock : hostM time := gets (λ h, t_now (turn_of h)).
Definition draws : hostM Draws := gets (λ h, t_draws (turn_of h)).
Definition fresh_id (use : string) : hostM string := gets (λ h, t_ids (turn_of h) use).

(** [await]: take the answer and let the rest of the host run. *)
Definition resume (h : Host) : Host :=
  mkHost (t_world (turn_of h) (h_world h)) (S (h_turn h)) (h_adapter h) (h_members h) (h_inflight h)
    (h_awaiting h) (h_credentials h) (h_sent h) (h_woken h) (h_jobs h).
Definition await {A} (answer : Turn → A) : hostM A := λ h, (Ok (answer (turn_of h)), resume h).

(** [await adapter.deliver(...)], under [withDeliveryTimeout] when [timed]. *)
(*@ src/src/delivery.ts 90-104 withDeliveryTimeout *)
Definition adapter_deliver (timed : bool) (channelType platformId : string)
    (threadId : option string) (kind content : string) (files : option (list (string * string)))
    : hostM (option string) :=
  modify (λ h, add_sent (mkSent channelType platformId threadId kind content files
                           (t_now (turn_of h)) (h_world h)) h) ;;
  let* answer := await t_reply in
  match answer with
  | Replied id => ret id
  | TimedOut => if timed : bool then throw TimeoutError else throw (OtherError (Err "timeout"))
  | Failed e => throw (OtherError e)
  end.

(** [adapter.deliver(...).catch(() => {})], not awaited. *)
Definition adapter_cast (channelType platformId : string) (threadId : option string)
    (kind content : string) : hostM unit :=
  modify (λ h, add_sent (mkSent channelType platformId threadId kind content None
                           (t_now (turn_of h)) (h_world h)) h).

(** [await wakeContainer(session)], and the same not awaited. *)
Definition wake_container (sessionId : string) : hostM bool :=
  modify (add_woken sessionId) ;; await t_woke.
Definition wake_cast (sessionId : string) : hostM unit := modify (add_woken sessionId).
End turns.

(** [void f(...)] *)
Definition start (j : Job) : hostM unit := modify (add_job j).

(** ** Runs only add to the log *)

(** From [h], [m] makes only adapter calls that satisfy [P]. *)
Definition sends_at {A} (P : Sent → Prop) (m : hostM A) (h : Host) : Prop :=
  ∃ l, h_sent (m h).2 = h_sent h ++ l ∧ Forall P l.
Definition sends {A} (P : Sent → Prop) (m : hostM A) : Prop := ∀ h, sends_at P m h.

Create HintDb host.

Section sends.
Context (turns : nat → Turn) (P : Sent → Prop).

Lemma sends_quiet {A} (m : hostM A) : (∀ h, h_sent (m h).2 = h_sent h) → sends P m.
Proof. intros H h. exists []. by rewrite H, app_nil_r. Qed.
Lemma sends_ret {A} (a : A) : sends P (ret a).
Proof. by apply sends_quiet. Qed.
Lemma sends_throw {A} e : sends P (throw (A:=A) e).
Proof. by apply sends_quiet. Qed.
Lemma sends_gets {A} (f : Host → A) : sends P (gets f).
Proof. by apply sends_quiet. Qed.
Lemma sends_db_read {A} (f : CentralDb → A) : sends P (db_read f).
Proof. by apply sends_quiet. Qed.
Lemma sends_run {A} (m : wM A) : sends P (run m).
Proof. apply sends_quiet. intros h. unfold run. by destruct (m (h_world h)) as [[a|e] w]. Qed.
Lemma sends_clock : sends P (clock turns).
Proof. by apply sends_quiet. Qed.
Lemma sends_draws : sends P (draws turns).
Proof. by apply sends_quiet. Qed.
Lemma sends_fresh_id use : sends P (fresh_id turns use).
Proof. by apply sends_quiet. Qed.
Lemma sends_await {A} (f : Turn → A) : sends P (await turns f).
Proof. by apply sends_quiet. Qed.
Lemma sends_set_members f : sends P (modify (λ h, set_members (f h) h)).
Proof. by apply sends_quiet. Qed.
Lemma sends_set_inflight f : sends P (modify (λ h, set_inflight (f h) h)).
Proof. by apply sends_quiet. Qed.
Lemma sends_add_woken id : sends P (modify (add_woken id)).
Proof. by apply sends_quiet. Qed.
Lemma sends_set_awaiting f : sends P (modify (λ h, set_awaiting (f h) h)).
Proof. by apply sends_quiet. Qed.
Lemma sends_start j : sends P (start j).
Proof. by apply sends_quiet. Qed.
Lemma sends_at_bind {A B} (m : hostM A) (k : A → hostM B) h :
  sends_at P m h → (∀ a h1, m h = (Ok a, h1) → sends_at P (k a) h1) → sends_at P (bind m k) h.
Proof.
  intros (l1 & H1 & HP1) Hk. unfold sends_at, bind.
  destruct (m h) as [[a|e] h1]; simpl in *; [|by exists l1].
  destruct (Hk a h1 eq_refl) as (l2 & H2 & HP2). exists (l1 ++ l2).
  rewrite H2, H1, app_assoc. split; [done|]. by apply Forall_app.
Qed.
Lemma sends_bind {A B} (m : hostM A) (k : A → hostM B) :
  sends P m → (∀ a, sends P (k a)) → sends P (bind m k).
Proof. intros Hm Hk h. apply sends_at_bind; [apply Hm|]. intros a h1 _. apply Hk. Qed.
Lemma sends_try {A} (m : hostM A) (k : failure → hostM A) :
  sends P m → (∀ e, sends P (k e)) → sends P (try_catch m k).
Proof.
  intros Hm Hk h. destruct (Hm h) as (l1 & H1 & HP1). unfold sends_at, try_catch.
  destruct (m h) as [[a|e] h1]; simpl in *; [by exists l1|].
  destruct (Hk e h1) as (l2 & H2 & HP2). exists (l1 ++ l2).
  rewrite H2, H1, app_assoc. split; [done|]. by apply Forall_app.
Qed.
Lemma sends_for_each {A} (l : list A) (body : A → hostM unit) :
  (∀ x, x ∈ l → sends P (body x)) → sends P (for_each l body).
Proof.
  induction l as [|x l IH]; intros Hb; simpl; [apply sends_ret|].
  apply sends_bind; [apply Hb; left|]. intros _. apply IH. intros y Hy. apply Hb. by right.
Qed.
(** One adapter call, in the state the caller is in. *)
Lemma sends_at_deliver timed ct pid th kind content fs h :
  P (mkSent ct pid th kind content fs (t_now (turn_of turns h)) (h_world h)) →
  sends_at P (adapter_deliver turns timed ct pid th kind content fs) h.
Proof.
  intros HP. eexists [_]. split; [|apply Forall_singleton; exact HP].
  unfold adapter_deliver, bind, modify, await, throw, ret. cbn.
  repeat case_match; simplify_eq/=; done.
Qed.
Lemma sends_at_try {A} (m : hostM A) (k : failure → hostM A) h :
  sends_at P m h → (∀ e, sends P (k e)) → sends_at P (try_catch m k) h.
Proof.
  intros (l1 & H1 & HP1) Hk. unfold sends_at, try_catch.
  destruct (m h) as [[a|e] h1]; simpl in *; [by exists l1|].
  destruct (Hk e h1) as (l2 & H2 & HP2). exists (l1 ++ l2).
  rewrite H2, H1, app_assoc. split; [done|]. by apply Forall_app.
Qed.
End sends.
#[export] Hint Resolve sends_ret sends_throw sends_gets sends_db_read sends_run sends_clock sends_draws sends_fresh_id
  sends_await sends_set_members sends_set_inflight sends_add_woken sends_set_awaiting sends_start
  sends_bind sends_try : host.

Lemma sends_at_weaken {A} (P Q : Sent → Prop) (m : hostM A) h :
  (∀ s, P s → Q s) → sends_at P m h → sends_at Q m h.
Proof.
  intros H (l & Hl & HP). exists l. split; [done|]. eapply Forall_impl; [exact HP|]. auto.
Qed.
Lemma sends_weaken {A} (P Q : Sent → Prop) (m : hostM A) :
  (∀ s, P s → Q s) → sends P m → sends Q m.
Proof. intros H Hm h. by eapply sends_at_weaken. Qed.

(** ** Running one step *)

Lemma run_ok {A} (m : wM A) h a h' :
  run m h = (Ok a, h') → ∃ w, m (h_world h) = (Ok a, w) ∧ h' = set_world w h.
Proof. unfold run. destruct (m (h_world h)) as [[b|e] w]; intros [= <- <-]. by exists w. Qed.
Lemma host_bind_ok {A B} (m : hostM A) (k : A → hostM B) h b h' :
  bind m k h = (Ok b, h') → ∃ a h1, m h = (Ok a, h1) ∧ k a h1 = (Ok b, h').
Proof. apply bind_ok_inv. Qed.
