(* ===== verification/ProgressStatus.v ===== *)
(** * The progress reaction (src/modules/progress-status/index.ts)

    While an agent works on a message, the message carries a reaction; a row
    remembers it until the first reply, or a failure, takes it away. *)
From S2P Require Import Prelude JsString Json Types Central SessionManager Host.
From Stdlib Require Import Ascii.

Local Open Scope string_scope.
Local Open Scope list_scope.
Local Open Scope prog_scope.

(*@ src/src/modules/progress-status/index.ts 50-59 getReaction *)
Definition getReaction (sessionId : string) (db : CentralDb) : option ProgressReactionRow :=
  sql_first (λ r, bool_decide (pr_session_id r = sessionId)) (progress_reactions db).

(*@ src/src/modules/progress-status/index.ts 61-64 hasReaction *)
Definition hasReaction (sessionId : string) (db : CentralDb) : bool :=
  sql_exists (λ r, bool_decide (pr_session_id r = sessionId)) (progress_reactions db).

(** [INSERT OR REPLACE]: the old row of the session goes. *)
(*@ src/src/modules/progress-status/index.ts 66-83 saveReaction *)
Definition saveReaction (row : ProgressReactionRow) : dbM unit :=
  modify (λ db, set_progress_reactions
    (sql_delete (λ r, bool_decide (pr_session_id r = pr_session_id row)) (progress_reactions db) ++
     [row]) db).

(*@ src/src/modules/progress-status/index.ts 85-87 deleteReaction *)
Definition deleteReaction (sessionId : string) : dbM unit :=
  modify (λ db, set_progress_reactions
    (sql_delete (λ r, bool_decide (pr_session_id r = sessionId)) (progress_reactions db)) db).

(** [raw] is AGENTDESK_PROGRESS_STATUS_CHANNELS. *)
(*@ src/src/modules/progress-status/index.ts 89-100 parseEnabledChannels *)
Definition parseEnabledChannels (raw : option string) : list string :=
  if negb (truthy raw) then ["feishu"]
  else
    let normalized := toLowerCase (trim (default "" raw)) in
    if bool_decide (normalized = "") || bool_decide (normalized = "default") then ["feishu"]
    else if bool_decide (normalized ∈ ["none"; "off"; "false"]) then []
    else List.filter (λ v, negb (bool_decide (v = ""))) (map trim (split_on "," normalized)).

Section progress.
Context (process_env : string → option string) (turns : nat → Turn).

(*@ src/src/modules/progress-status/index.ts 102-104 enabledFor *)
Definition enabledFor (channelType : string) : bool :=
  bool_decide (toLowerCase channelType ∈
    parseEnabledChannels (process_env "AGENTDESK_PROGRESS_STATUS_CHANNELS")).

(*@ src/src/modules/progress-status/index.ts 106-113 resolveReactionEmoji *)
Definition resolveReactionEmoji (channelType : string) : option string :=
  if bool_decide (toLowerCase channelType = "feishu") then
    js_or (option_map trim (process_env "AGENTDESK_PROGRESS_STATUS_FEISHU_EMOJI")) (Some "THINKING")
  else None.

(** [sourceMessageId] is a string, which may be empty. *)
(*@ src/src/modules/progress-status/index.ts 115-165 maybeStartProgressStatus *)
Definition maybeStartProgressStatus (sessionId channelType platformId : string)
    (threadId : option string) (sourceMessageId : string) : hostM unit :=
  let* adapter := gets h_adapter in
  let* there := db_read (hasReaction sessionId) in
  match adapter, resolveReactionEmoji channelType with
  | AdapterSet _, Some emoji =>
      if negb (enabledFor channelType) || bool_decide (sourceMessageId = "") || there then ret tt
      else
        let* reactionId := try_catch
          (adapter_deliver turns false channelType platformId threadId "chat"
             (JSON_stringify (JObj [("operation", JStr "reaction"); ("action", JStr "add");
                                    ("messageId", JStr sourceMessageId); ("emoji", JStr emoji)])) None)
          (λ _, ret None) in
        if negb (truthy reactionId) then ret tt
        else
          let* now := clock turns in
          run (central (saveReaction (mkProgressReaction sessionId channelType platformId threadId
                 sourceMessageId (default "" reactionId) emoji now)))
  | _, _ => ret tt
  end.

(*@ src/src/modules/progress-status/index.ts 167-201 clearProgressReaction *)
Definition clearProgressReaction (sessionId : string) : hostM unit :=
  let* entry := db_read (getReaction sessionId) in
  match entry with
  | None => ret tt
  | Some r =>
      let* adapter := gets h_adapter in
      match adapter with
      | NoAdapter => run (central (deleteReaction sessionId))
      | AdapterSet _ =>
          try_catch
            (adapter_deliver turns false (pr_channel_type r) (pr_platform_id r) (pr_thread_id r) "chat"
               (JSON_stringify (JObj [("operation", JStr "reaction"); ("action", JStr "remove");
                                      ("messageId", JStr (pr_source_message_id r));
                                      ("reactionId", JStr (pr_reaction_id r));
                                      ("emoji", JStr (pr_emoji r))])) None ;;
             ret tt)
            (λ _, ret tt) ;;
          run (central (deleteReaction sessionId))
      end
  end.
End progress.
