(* ===== verification/Roster.v ===== *)
(** * Roster direct messages: scope, consent, invitations, gateway
    (src/roster-dm.ts, src/roster-gateway.ts, src/roster-invite.ts,
    src/channels/feishu/roster-consent.ts)

    A container may send a private message to a participant who consented.  It
    names a slot and never a person: the host holds the grant. *)
From S2P Require Import Prelude JsString Json Types Central Permissions DmGrants SessionDb Sessions Destinations SessionManager AgentRoute Host.
From stdpp Require Import pretty.
From Stdlib Require Import Ascii.

Local Open Scope string_scope.
Local Open Scope Z_scope.
Local Open Scope list_scope.
Local Open Scope prog_scope.

Definition is_true (s : string) : bool := bool_decide (toLowerCase (trim s) = "true").

Section config.
(** [readContainerConfig] of a folder: it throws on a corrupt file. *)
Context (group_config : string → outcome exn GroupConfig).
Context (env : RosterEnv).

(** ** Per-group switches *)

(*@ src/src/roster-dm.ts 50-60 rosterDmEnabledForGroup *)
Definition rosterDmEnabledForGroup (agentGroupId : string) (db : CentralDb) : outcome exn bool :=
  match getAgentGroup db agentGroupId with
  | None => Ok false
  | Some group =>
      match group_config (ag_folder group) with
      | Throw e => Throw e
      | Ok cfg =>
          match gc_allow_roster_dm cfg with
          | Some v => Ok (is_true v)
          | None => Ok (is_true (default "" (env_raw env "ALLOW_ROSTER_DM")))
          end
      end
  end.

(*@ src/src/roster-dm.ts 90-94 isRootSessionModeForRosterDm *)
Definition isRootSessionModeForRosterDm (agentGroupId : string) (db : CentralDb)
    : outcome exn bool :=
  match getAgentGroup db agentGroupId with
  | None => Ok false
  | Some group =>
      match group_config (ag_folder group) with
      | Throw e => Throw e
      | Ok cfg => Ok (bool_decide (default A2aAgentShared (gc_a2aSessionMode cfg) = A2aRootSession))
      end
  end.

(*@ src/src/roster-dm.ts 70-80 assertRootSessionForRosterDm *)
Definition assertRootSessionForRosterDm (agentGroupId : string) (db : CentralDb) : outcome exn unit :=
  match rosterDmEnabledForGroup agentGroupId db with
  | Throw e => Throw e
  | Ok false => Ok tt
  | Ok true =>
      match isRootSessionModeForRosterDm agentGroupId db with
      | Throw e => Throw e
      | Ok true => Ok tt
      | Ok false => Throw (Err "roster-dm requires a2aSessionMode='root-session'")
      end
  end.

(*@ src/src/roster-dm.ts 321-326 rosterVerifyMembershipEnabled *)
Definition rosterVerifyMembershipEnabled : bool :=
  is_true (default "" (env_raw env "ROSTER_VERIFY_MEMBERSHIP")).
(*@ src/src/roster-gateway.ts 45-50 rosterGatewayAuthorityEnabled *)
Definition rosterGatewayAuthorityEnabled : bool :=
  is_true (default "" (env_raw env "ROSTER_GATEWAY_AUTHORITY")).

(** ** Scope, target and origin *)

(*@ src/src/roster-dm.ts 106-108 hostScopeForSession *)
Definition hostScopeForSession (session : Session) : string :=
  default (s_id session) (s_root_session_id session).

(*@ src/src/roster-dm.ts 168-184 looksLikeRawPlatformId *)
Definition looksLikeRawPlatformId (value : option string) : bool :=
  if negb (truthy value) then false
  else
    let v := trim (default "" value) in
    if bool_decide (v = "") then false
    else existsb (startsWith (toLowerCase v))
           ["feishu:"; "ou_"; "oc_"; "p2p:"; "chat:"; "open_id:"; "user:"; "dm:"; "group:"].

(*@ src/src/roster-dm.ts 186-190 ConsentTarget *)
Record ConsentTarget := mkConsentTarget {
  ct_participantOpenId : string;
  ct_dmPlatformId : string;
  ct_channelType : string }.

(*@ src/src/roster-dm.ts 206-218 parseConsentTarget *)
Definition parseConsentTarget (openId : option string) : option ConsentTarget :=
  let id := trim (default "" openId) in
  if bool_decide (id = "") then None
  else if negb (startsWith id "ou_") then None
  else
    let dmPlatformId := "feishu:p2p:" +:+ id in
    if negb (startsWith dmPlatformId "feishu:p2p:") then None
    else if negb (bool_decide (drop_string (String.length "feishu:p2p:") dmPlatformId = id)) then None
    else Some (mkConsentTarget id dmPlatformId "feishu").

(*@ src/src/roster-dm.ts 336-343 originGroupPlatformIdForGrant *)
Definition originGroupPlatformIdForGrant (grant : DmGrantRow) (db : CentralDb) : option string :=
  if truthy (g_origin_platform_id grant) then g_origin_platform_id grant
  else match getSession (g_scope_id grant) db with
       | None => None
       | Some session =>
           if negb (truthy (s_messaging_group_id session)) then None
           else match getMessagingGroup (default "" (s_messaging_group_id session)) db with
                | Some mg => if mg_is_group mg
                             then Some (mg_channel_type mg +:+ ":" +:+ mg_platform_id mg) else None
                | None => None
                end
       end.

(** The channel type and the platform id. *)
(*@ src/src/roster-dm.ts 360-365 originGroupForSession *)
Definition originGroupForSession (session : Session) (db : CentralDb) : option (string * string) :=
  if negb (truthy (s_messaging_group_id session)) then None
  else match getMessagingGroup (default "" (s_messaging_group_id session)) db with
       | Some mg =>
           if mg_is_group mg && bool_decide (mg_channel_type mg = "feishu")
           then Some (mg_channel_type mg, mg_channel_type mg +:+ ":" +:+ mg_platform_id mg)
           else None
       | None => None
       end.

(** The projection of the live grants into inbound.db: slot labels only. *)
(*@ src/src/roster-dm.ts 133-157 writeRosterSlots *)
Definition writeRosterSlots (now : time) (agentGroupId sessionId : string) : wM unit :=
  let key := (agentGroupId, sessionId) in
  let* enabled := db_get (rosterDmEnabledForGroup agentGroupId) in
  match enabled with
  | Throw e => throw e
  | Ok false => ret tt
  | Ok true =>
      let* there := gets (λ w, bool_decide (is_Some (w_in w !! key))) in
      if negb there then ret tt
      else
        let* session := db_get (getSession sessionId) in
        match session with
        | None => ret tt
        | Some session =>
            let* grants := db_get (λ db, listLiveGrantsForScope db (hostScopeForSession session) now) in
            inbound key (replaceRosterSlots (map (λ g, mkRosterSlotRow (g_slot_label g)
              (if g_max_sends g =? 0 then None else Some (g_max_sends g - g_sends_used g))
              (g_expires_at g)) grants))
        end
  end.

(** ** Opting out *)

(*@ src/src/roster-dm.ts 291-304 optOutParticipant *)
Definition optOutParticipant (now : time) (participantOpenId : string) (scopeId : option string)
    : dbM nat :=
  let id := trim participantOpenId in
  if bool_decide (id = "") || negb (startsWith id "ou_") then ret 0%nat
  else if truthy scopeId then revokeParticipantInScope now (default "" scopeId) id
  else
    let* grants := query (λ db, listLiveGrantsForParticipant db id) in
    fold_left (λ (acc : dbM nat) grant,
      let* revoked := acc in
      let* n := revokeParticipantInScope now (g_scope_id grant) id in
      ret (revoked + n)%nat) grants (ret 0%nat).

(** ** Consent *)

(** The string reader of the Feishu adapter. *)
(*@ src/src/channels/feishu/primitives.ts 57-59 readString *)
Definition read_trimmed (value : option json) : option string :=
  match value with
  | Some (JStr s) => if bool_decide (trim s = "") then None else Some (trim s)
  | _ => None
  end.

(** [oi_expiresAt] is the text; [maxSends] is kept when it is an integer. *)
(*@ src/src/channels/feishu/roster-consent.ts 35-47 RosterOptInPayload *)
Record RosterOptInPayload := mkOptIn {
  oi_scopeId : string;
  oi_slotLabel : string;
  oi_agentGroupId : string;
  oi_expectedUserId : option string;
  oi_expiresAt : option string;
  oi_maxSends : option Z }.

(** [Math.floor] of a number literal that is not an integer is [floor_lit]. *)
(*@ src/src/channels/feishu/roster-consent.ts 56-70 parseRosterOptIn *)
Definition parseRosterOptIn (floor_lit : string → option Z) (value : json)
    : option RosterOptInPayload :=
  match value with
  | JObj l =>
      if negb (bool_decide (jstring (obj_get "kind" l) = Some "roster.optin")) then None
      else match read_trimmed (obj_get "scopeId" l), read_trimmed (obj_get "slotLabel" l),
                 read_trimmed (obj_get "agentGroupId" l) with
           | Some scopeId, Some slotLabel, Some agentGroupId =>
               Some (mkOptIn scopeId slotLabel agentGroupId (read_trimmed (obj_get "expectedUserId" l))
                       (read_trimmed (obj_get "expiresAt" l))
                       (match obj_get "maxSends" l with
                        | Some (JNum n) => if 0 <? n then Some n else None
                        | Some (JFrac lit) => floor_lit lit
                        | _ => None
                        end))
           | _, _, _ => None
           end
  | _ => None
  end.

(*@ src/src/channels/feishu/roster-consent.ts 93-97 ConsentResult *)
Inductive ConsentResult :=
| ConsentOk (grantId : string)
| ConsentRefused (reason : string).

(*@ src/src/channels/feishu.ts 104-107 cardActionOperatorAllowed *)
Definition cardActionOperatorAllowed (expectedUserId : option string) (operatorUserId : string) : bool :=
  if negb (truthy expectedUserId) then true
  else negb (bool_decide (operatorUserId = "")) && bool_decide (Some operatorUserId = expectedUserId).

(** [dmPlatformId.replace(/[^a-zA-Z0-9_]/g, '_')], on the UTF-16 units: every
    byte of an ASCII text, and one underscore per unit of any other. *)
Fixpoint plain_id (s : string) : string :=
  match s with
  | EmptyString => EmptyString
  | String c s' =>
      let n := nat_of_ascii c in
      if ((48 <=? n) && (n <=? 57) || (65 <=? n) && (n <=? 90) || (97 <=? n) && (n <=? 122)
          || (n =? 95))%nat then String c (plain_id s')
      else if ((128 <=? n) && (n <? 192))%nat then plain_id s'
      else if (240 <=? n)%nat then "__" +:+ plain_id s'
      else "_" +:+ plain_id s'
  end.

(*@ src/src/channels/feishu/roster-consent.ts 79-91 ensureP2pMessagingGroup *)
Definition ensureP2pMessagingGroup (now : time) (dmPlatformId : string) : dbM unit :=
  let* existing := query (getMessagingGroupByPlatform "feishu" dmPlatformId) in
  match existing with
  | Some _ => ret tt
  | None => createMessagingGroup
      (mkMessagingGroup ("mg-roster-" +:+ plain_id dmPlatformId) "feishu" dmPlatformId None false
         Types.strict None now)
  end.

(** [id] is drawn for the grant; [stamp_of] reads the expiry text. *)
(*@ src/src/channels/feishu/roster-consent.ts 208-249 mintGrant *)
Definition mintGrant (stamp_of : string → stamp) (now : time) (id : string)
    (optIn : RosterOptInPayload) (target : ConsentTarget) (consentSource : DmConsentSource)
    (inboundMsgId : string) (originUserId originPlatformId : option string) : dbM ConsentResult :=
  ensureP2pMessagingGroup now (ct_dmPlatformId target) ;;
  let* grantId := insertDmGrant now id
    (mkInsertDmGrantArgs (oi_scopeId optIn) (oi_agentGroupId optIn) (oi_slotLabel optIn)
       (ct_participantOpenId target) (ct_dmPlatformId target) (Some (ct_channelType target))
       consentSource inboundMsgId originUserId originPlatformId (oi_maxSends optIn)
       (option_map stamp_of (oi_expiresAt optIn))) in
  match grantId with
  | None => ret (ConsentRefused "slot_or_participant_taken")
  | Some g => ret (ConsentOk g)
  end.

(*@ src/src/channels/feishu/roster-consent.ts 105-148 captureP2pIngressConsent *)
Definition captureP2pIngressConsent (stamp_of : string → stamp) (now : time) (id : string)
    (optIn : RosterOptInPayload) (senderOpenId : option string) (inboundMsgId : string)
    (isGroup : bool) (originUserId originPlatformId : option string) : dbM ConsentResult :=
  if isGroup then ret (ConsentRefused "group_intent_only")
  else match parseConsentTarget senderOpenId with
       | None => ret (ConsentRefused "bad_open_id")
       | Some target => mintGrant stamp_of now id optIn target P2pIngress inboundMsgId
                          originUserId originPlatformId
       end.

(*@ src/src/channels/feishu/roster-consent.ts 157-206 captureDirectedCardConsent *)
Definition captureDirectedCardConsent (stamp_of : string → stamp) (now : time) (id : string)
    (optIn : RosterOptInPayload) (operatorOpenId : option string) (inboundMsgId : string)
    (originUserId originPlatformId : option string) : dbM ConsentResult :=
  if negb (truthy (oi_expectedUserId optIn)) then ret (ConsentRefused "unscoped_card")
  else
    let operator := default "" operatorOpenId in
    if negb (cardActionOperatorAllowed (oi_expectedUserId optIn) operator)
    then ret (ConsentRefused "operator_mismatch")
    else match parseConsentTarget (Some operator) with
         | None => ret (ConsentRefused "bad_open_id")
         | Some target => mintGrant stamp_of now id optIn target DirectedCard inboundMsgId
                            originUserId originPlatformId
         end.

(** ** The gateway *)

(*@ src/src/roster-gateway.ts 62-64 gatewayHasSigningKey *)
Definition gatewayHasSigningKey (gateway : BackendGatewayConfig) : bool :=
  negb (bool_decide (trim (default "" (gw_signingKey gateway)) = "")).

(** The target is the channel type and the platform id, each when given. *)
(*@ src/src/roster-gateway.ts 75-86 AuthorizeDmDecision *)
Inductive AuthorizeDmDecision :=
| Deny (reason : string)
| Allow (target : option (option string * option string)).

(*@ src/src/roster-gateway.ts 167-186 interpretDecision *)
Definition interpretDecision (body : json) : AuthorizeDmDecision :=
  match body with
  | JObj obj =>
      if bool_decide (jstring (obj_get "decision" obj) = Some "allow") ||
         match obj_get "allow" obj with Some (JBool true) => true | _ => false end
      then match obj_get "target" obj with
           | Some (JObj t) => Allow (Some (jstring (obj_get "channelType" t),
                                           jstring (obj_get "dmPlatformId" t)))
           | Some (JArr _) => Allow (Some (None, None))
           | _ => Allow None
           end
      else Deny (default "gateway_denied" (jstring (obj_get "reason" obj)))
  | JArr _ => Deny "gateway_denied"
  | _ => Deny "gateway_bad_shape"
  end.

(** [baseUrl.replace(/\/+$/, '')] *)
Fixpoint drop_slashes (s : string) : string :=
  match s with
  | EmptyString => EmptyString
  | String c s' =>
      match drop_slashes s' with
      | EmptyString => if Ascii.eqb c "/" then EmptyString else String c EmptyString
      | rest => String c rest
      end
  end.

(** The decision from how the request ends. *)
(*@ src/src/roster-gateway.ts 131-157 fetchImpl *)
Definition decide_fetch (f : fetched) : AuthorizeDmDecision :=
  match f with
  | FetchFailed aborted => Deny (if aborted : bool then "gateway_timeout" else "gateway_unreachable")
  | Fetched status body =>
      if negb ((200 <=? status) && (status <=? 299)) then Deny ("gateway_http_" +:+ pretty status)
      else if bool_decide (body = "") then interpretDecision (JObj [])
      else match JSON_parse body with
           | None => Deny "gateway_bad_json"
           | Some parsed => interpretDecision parsed
           end
  end.

Section turns.
Context (turns : nat → Turn).

(*@ src/src/roster-gateway.ts 99-159 authorizeDm *)
Definition authorizeDm (gateway : BackendGatewayConfig) : hostM AuthorizeDmDecision :=
  if bool_decide (drop_slashes (default "" (gw_baseUrl gateway)) = "")
  then ret (Deny "gateway_no_base_url")
  else await turns (λ t, decide_fetch (t_fetched t)).

(** ** Invitations *)

(*@ src/src/roster-invite.ts 49-49 INVITE_CARD_TTL_MS *)
Definition INVITE_CARD_TTL_MS : Z := 24 * 60 * 60 * 1000.

(** The [reject] of the handler: an audit row. *)
(*@ src/src/roster-invite.ts 69-73 reject *)
Definition invite_reject (session : Session) (reason : string)
    (participantOpenId slotLabel dmPlatformId : option string) : hostM unit :=
  let* now := clock turns in
  run (central (recordDmAudit now
    (mkDmAuditEntry (hostScopeForSession session) (Some (s_agent_group_id session))
       (Some (s_id session)) slotLabel None participantOpenId dmPlatformId None rejected
       (Some reason)))).

Definition slot_of (content : list (string * json)) (key : string) : option string :=
  read_trimmed (obj_get key content).

(** The consent card, every field of it from the host but the slot label. *)
(*@ src/src/roster-invite.ts 132-149 optIn *)
Definition invite_card (now : time) (session : Session) (member slotLabel : string) : json :=
  JObj [("type", JStr "roster_invite"); ("slotLabel", JStr slotLabel);
        ("optIn", JObj [("kind", JStr "roster.optin");
                        ("scopeId", JStr (hostScopeForSession session));
                        ("slotLabel", JStr slotLabel);
                        ("agentGroupId", JStr (s_agent_group_id session));
                        ("expectedUserId", JStr member);
                        ("expiresAt", JStr (text_of (TIso (now + INVITE_CARD_TTL_MS))))])].

(** [adapter.isMember] where it exists: a throw is an [undefined]. *)
(*@ src/src/roster-invite.ts 110-116 isMember *)
Definition ask_member (has_isMember : bool) : hostM (option bool) :=
  if has_isMember then await turns (λ t, default None (t_member t)) else ret None.

(** The send of the card, once every guard has passed. *)
(*@ src/src/roster-invite.ts 127-168 handleRosterInvite *)
Definition send_invite (session : Session) (origin : string * string) (member slotLabel : string)
    : hostM unit :=
  let* now := clock turns in
  run (central (recordInviteConsumption now (hostScopeForSession session) (resolveDeployQuota env))) ;;
  let* sent := try_catch
    (adapter_deliver turns false origin.1 origin.2 None "roster.invite"
       (JSON_stringify (invite_card now session member slotLabel)) None ;; ret true)
    (λ _, ret false) in
  if negb sent then ret tt
  else
    let* now' := clock turns in
    run (central (recordDmAudit now'
      (mkDmAuditEntry (hostScopeForSession session) (Some (s_agent_group_id session))
         (Some (s_id session)) (Some slotLabel) None (Some member) (Some origin.2) None
         delivered None))).

(*@ src/src/roster-invite.ts 59-169 handleRosterInvite *)
Definition handleRosterInvite (content : list (string * json)) (session : Session) : hostM unit :=
  let ag := s_agent_group_id session in
  let scopeId := hostScopeForSession session in
  let* enabled := db_read (rosterDmEnabledForGroup ag) in
  let* enabled := of_outcome enabled in
  if negb enabled then invite_reject session "flag_disabled" None None None
  else
    let* root := db_read (isRootSessionModeForRosterDm ag) in
    let* root := of_outcome root in
    if negb root then invite_reject session "agent_shared_mode" None None None
    else
      let* origin := db_read (originGroupForSession session) in
      match origin with
      | None => invite_reject session "ambiguous_origin" None None None
      | Some origin =>
          let memberRaw := trim (default "" (jstring (obj_get "member" content))) in
          match parseConsentTarget (Some memberRaw) with
          | None => invite_reject session "bad_member"
                      (if bool_decide (memberRaw = "") then None else Some memberRaw) None None
          | Some target =>
              let member := ct_participantOpenId target in
              match slot_of content "slotLabel" with
              | None => invite_reject session "bad_slot" (Some member) None None
              | Some slotLabel =>
                  let* existing := db_read (λ db, getByParticipant db scopeId member) in
                  match existing with
                  | Some _ => invite_reject session "already_invited" (Some member) (Some slotLabel) None
                  | None =>
                      let* adapter := gets h_adapter in
                      match adapter with
                      | NoAdapter => invite_reject session "no_adapter" (Some member) (Some slotLabel) None
                      | AdapterSet has_isMember =>
                          let* isMember := ask_member has_isMember in
                          if negb (bool_decide (isMember = Some true))
                          then invite_reject session "not_member" (Some member) (Some slotLabel)
                                 (Some origin.2)
                          else
                            let* now := clock turns in
                            let* rate := run (central (checkInviteRate now scopeId (resolveDeployQuota env))) in
                            match rate with
                            | RateBlocked _ =>
                                invite_reject session "rate_limited" (Some member) (Some slotLabel) None
                            | RateAllowed => send_invite session origin member slotLabel
                            end
                      end
                  end
              end
          end
      end.
End turns.
End config.

(** The group a Feishu membership query is about, [None] when it is refused:
    the part of the adapter's [isMember] before the first request. *)
(*@ src/src/channels/feishu.ts 1104-1110 isMember *)
Definition member_query (platformId userHandle : string) : option string :=
  if negb (startsWith (trim userHandle) "ou_") then None
  else
    let raw := if startsWith platformId "feishu:" then drop_string (String.length "feishu:") platformId
               else platformId in
    if startsWith raw "p2p:" || negb (startsWith raw "oc_") then None else Some raw.

(** The platform id of an inbound Feishu event. *)
(*@ src/src/channels/feishu/primitives.ts 331-341 normalizeFeishuPlatformId *)
Definition normalizeFeishuPlatformId (chatId : string) (p2p : bool) (senderOpenId : option string)
    : option string :=
  if p2p then
    let senderId := trim (default "" senderOpenId) in
    if bool_decide (senderId = "") then None else Some ("feishu:p2p:" +:+ senderId)
  else Some ("feishu:" +:+ chatId).
