(* ===== verification/Delivery.v ===== *)
(** * Delivery (src/delivery.ts, src/channels/ask-question.ts)

    A row of outbound.db is written by the container, so all of it is
    arbitrary.  One drain takes the due rows of a session in order and either
    routes each one (to a channel, to an agent, to a handler of the host) or
    records its failure and stops. *)
From S2P Require Import Prelude JsString Json OutboundContract Types Central Permissions DmGrants SessionDb Sessions Destinations Fs Attachments SessionManager AgentRoute Classification Host ProgressStatus Roster.
From Stdlib Require Import Ascii.

Local Open Scope string_scope.
Local Open Scope Z_scope.
Local Open Scope list_scope.
Local Open Scope prog_scope.

(** ** The text *)

(** Case-insensitive [p] at the start of [l]: what follows it. *)
Fixpoint strip_ci (p l : list ascii) : option (list ascii) :=
  match p, l with
  | [], _ => Some l
  | c :: p', d :: l' => if Ascii.eqb c (byte_lower d) then strip_ci p' l' else None
  | _, _ => None
  end.
Definition bytes (s : string) : list ascii := String.list_ascii_of_string s.

(** [think>] or [thinking>] after an opening. *)
Definition tag (opening : string) (l : list ascii) : option (list ascii) :=
  match strip_ci (bytes opening) l with
  | None => None
  | Some r => match strip_ci (bytes ">") r with
              | Some r' => Some r'
              | None => strip_ci (bytes "ing>") r
              end
  end.
Fixpoint find_close (l : list ascii) : option (list ascii) :=
  match tag "</think" l with
  | Some r => Some r
  | None => match l with [] => None | _ :: l' => find_close l' end
  end.

(** [/<think(?:ing)?>[\s\S]*?<\/think(?:ing)?>/gi], replaced by nothing. *)
Fixpoint drop_pairs (fuel : nat) (l : list ascii) : list ascii :=
  match fuel, l with
  | S fuel, c :: l' =>
      match tag "<think" l with
      | Some r => match find_close r with
                  | Some r' => drop_pairs fuel r'
                  | None => c :: drop_pairs fuel l'
                  end
      | None => c :: drop_pairs fuel l'
      end
  | _, _ => []
  end.
(** [/<\/?think(?:ing)?>/gi], replaced by nothing. *)
Fixpoint drop_tags (fuel : nat) (l : list ascii) : list ascii :=
  match fuel, l with
  | S fuel, c :: l' =>
      match tag "<think" l with
      | Some r => drop_tags fuel r
      | None => match tag "</think" l with
                | Some r => drop_tags fuel r
                | None => c :: drop_tags fuel l'
                end
      end
  | _, _ => []
  end.

(*@ src/src/delivery.ts 494-499 stripThinkTags *)
Definition stripThinkTags (text : string) : string :=
  let l := bytes text in
  trim (String.string_of_list_ascii (drop_tags (length l) (drop_pairs (length l) l))).

Example stripThinkTags_ex :
  stripThinkTags "<THINK>plan</think> Hi <thinking>x</thinking>there</think>" = "Hi there".
Proof. reflexivity. Qed.

(** The content with its text scrubbed, as it is sent. *)
(*@ src/src/delivery.ts 765-771 outboundContent *)
Definition scrubbed (raw : string) (content : list (string * json)) : string :=
  match obj_get "text" content with
  | Some (JStr text) =>
      let cleaned := stripThinkTags text in
      if bool_decide (cleaned = text) then raw
      else JSON_stringify (JObj (obj_set "text" (JStr cleaned) content))
  | _ => raw
  end.

(*@ src/src/delivery.ts 509-515 isForgedRosterOptInCard *)
Definition isForgedRosterOptInCard (content : list (string * json)) : bool :=
  bool_decide (jstring (obj_get "type" content) = Some "roster_invite") ||
  match obj_get "optIn" content with
  | Some (JObj optIn) => bool_decide (jstring (obj_get "kind" optIn) = Some "roster.optin")
  | _ => false
  end.

(** ** Questions *)

(** [raw.key] as an entry when it is defined, and [raw.key ?? label]. *)
Definition entry (k : string) (v : option json) : list (string * json) :=
  match v with Some v => [(k, v)] | None => [] end.
Definition coalesce_json (a b : option json) : option json :=
  match a with None | Some JNull => b | Some v => Some v end.

(*@ src/src/channels/ask-question.ts 35-45 normalizeOption *)
Definition normalizeOption (raw : json) : outcome exn json :=
  match raw with
  | JStr s => Ok (JObj [("label", JStr s); ("selectedLabel", JStr s); ("value", JStr s)])
  | JNull => Throw TypeError
  | _ =>
      let field k := match jget k raw with AValue v => v | AThrow => None end in
      let label := field "label" in
      Ok (JObj (entry "label" label ++
                entry "selectedLabel" (coalesce_json (field "selectedLabel") label) ++
                entry "value" (coalesce_json (field "value") label)))
  end.

(*@ src/src/channels/ask-question.ts 47-49 normalizeOptions *)
Fixpoint normalizeOptions (raws : list json) : outcome exn (list json) :=
  match raws with
  | [] => Ok []
  | raw :: raws' =>
      match normalizeOption raw, normalizeOptions raws' with
      | Ok o, Ok os => Ok (o :: os)
      | Throw e, _ | _, Throw e => Throw e
      end
  end.

(** The row of a question card, persisted for the answer. *)
(*@ src/src/delivery.ts 691-722 questionId *)
Definition track_question (now : time) (msg : MessageOut) (session : Session)
    (content : list (string * json)) : dbM unit :=
  match readString content "questionId" (required_max 256) with
  | FBad _ => ret tt
  | FOk questionId =>
      match readString content "title" (required_max 1024), obj_get "options" content with
      | FOk title, Some (JArr rawOptions) =>
          if bool_decide (title = "") then ret tt
          else match normalizeOptions rawOptions with
               | Throw e => throw e
               | Ok options =>
                   createPendingQuestion
                     (mkPendingQuestion questionId (s_id session) (mo_id msg) (mo_platform_id msg)
                        (mo_channel_type msg) (mo_thread_id msg) title options now) ;;
                   ret tt
               end
      | _, _ => ret tt
      end
  end.

(** ** Closing the loop of a classification *)

(*@ src/src/delivery.ts 1223-1227 EXPECTED_ACTION_BY_SURFACE *)
Inductive ReconcileSurface := agent_send | ask_user_question | channel_send.
Definition EXPECTED_ACTION_BY_SURFACE (s : ReconcileSurface) : string :=
  match s with
  | agent_send => "delegate" | ask_user_question => "clarify" | channel_send => "answer_self"
  end.

(*@ src/src/delivery.ts 1229-1281 reconcileClassification *)
Definition reconcileClassification (content : list (string * json)) (outcomeRef : string)
    (surface : ReconcileSurface) (sessionId : string) : dbM unit :=
  match obj_get "_classificationId" content with
  | Some (JStr classificationId) =>
      if bool_decide (classificationId = "") then ret tt
      else
        let* row := query (findClassificationById classificationId) in
        match row with
        | None => ret tt
        | Some row =>
            if negb (sql_is (cl_sessionId (cl_entry row)) (Some sessionId)) then ret tt
            else if negb (bool_decide (cl_action (cl_entry row) = EXPECTED_ACTION_BY_SURFACE surface))
            then ret tt
            else linkOutcome classificationId outcomeRef sessionId ;; ret tt
        end
  | _ => ret tt
  end.

(** ** Retries *)

(*@ src/src/config.ts 71-71 DELIVERY_MAX_ATTEMPTS *)
Definition DELIVERY_MAX_ATTEMPTS : Z := 10.
(*@ src/src/config.ts 72-76 DELIVERY_BACKOFF_SCHEDULE_SEC *)
Definition DELIVERY_BACKOFF_SCHEDULE_SEC : list Z := [60; 300; 1800; 7200; 21600].

(*@ src/src/delivery.ts 441-442 backoffSec *)
Definition backoffSec (attempts : Z) : Z :=
  nth (Z.to_nat (Z.min (attempts - 1) (Z.of_nat (length DELIVERY_BACKOFF_SCHEDULE_SEC) - 1)))
    DELIVERY_BACKOFF_SCHEDULE_SEC 0.

Definition failure_notice : string :=
  JSON_stringify (JObj [("text", JStr
    "⚠️ I couldn't deliver my last reply — it kept failing, so I stopped retrying. Please ask again.")]).

(** A row whose outcome the user sees. *)
Definition user_facing (msg : MessageOut) : bool :=
  negb (bool_decide (mo_kind msg = "system")) && negb (sql_is (mo_channel_type msg) (Some "agent")).

(** What an audit row of a rejection adds. *)
Record RejectExtra := mkExtra {
  rx_slotLabel : option string;
  rx_grantId : option string;
  rx_participantOpenId : option string;
  rx_dmPlatformId : option string }.
Definition no_extra : RejectExtra := mkExtra None None None None.
Definition grant_extra (slotLabel : string) (g : DmGrantRow) : RejectExtra :=
  mkExtra (Some slotLabel) (Some (g_id g)) (Some (g_participant_open_id g)) (Some (g_dm_platform_id g)).

(*@ src/src/delivery.ts 128-128 MEMBERSHIP_CACHE_TTL_MS *)
Definition MEMBERSHIP_CACHE_TTL_MS : Z := 30000.

Section delivery.
Context (DATA_DIR : list string).
Context (group_config : string → outcome exn GroupConfig).
Context (env : RosterEnv).
(** The environment's AGENTDESK_MAX_SPAWN_DEPTH. *)
Context (env_max_depth : option string).
(** The registered delivery actions. *)
Context (actionHandlers : string → option (list (string * json) → Session → hostM unit)).
Context (turns : nat → Turn).

Definition audit (scopeId : string) (session : Session) (messageOutId : string)
    (decision : DmAuditDecision) (reason : option string) (x : RejectExtra) : hostM unit :=
  let* now := clock turns in
  run (central (recordDmAudit now
    (mkDmAuditEntry scopeId (Some (s_agent_group_id session)) (Some (s_id session)) (rx_slotLabel x)
       (rx_grantId x) (rx_participantOpenId x) (rx_dmPlatformId x) (Some messageOutId) decision
       reason))).

(** ** Roster messages *)

Definition roster_reject {A} (session : Session) (msg : MessageOut) (reason : string)
    (x : RejectExtra) : hostM A :=
  audit (hostScopeForSession session) session (mo_id msg) rejected (Some reason) x ;;
  throw (OtherError (Err ("roster-dm rejected (" +:+ reason +:+ ")"))).

(*@ src/src/delivery.ts 131-156 isMemberCached *)
Definition isMemberCached (has_isMember : bool) (channelType groupPlatformId userHandle : string)
    : hostM (option bool) :=
  if negb has_isMember then ret None
  else
    let key := channelType +:+ "|" +:+ groupPlatformId +:+ "|" +:+ userHandle in
    let* now := clock turns in
    let* hit := gets (λ h, h_members h !! key) in
    let ask :=
      let* value := await turns (λ t, default None (t_member t)) in
      match value with
      | Some v => modify (λ h, set_members (<[key := (v, now + MEMBERSHIP_CACHE_TTL_MS)]> (h_members h)) h) ;;
                  ret value
      | None => ret value
      end in
    match hit with
    | Some (v, expiresAt) => if now <? expiresAt then ret (Some v) else ask
    | None => ask
    end.

(** The gates up to the target shape: the slot and its grant. *)
(*@ src/src/delivery.ts 848-928 deliverRosterMessage *)
Definition roster_grant (msg : MessageOut) (session : Session) (content : list (string * json))
    : hostM (string * DmGrantRow) :=
  let reject := roster_reject session msg in
  let ag := s_agent_group_id session in
  let* enabled := db_read (rosterDmEnabledForGroup group_config env ag) in
  let* enabled := of_outcome enabled in
  if negb enabled then reject "flag_disabled" no_extra
  else
    let* root := db_read (isRootSessionModeForRosterDm group_config ag) in
    let* root := of_outcome root in
    if negb root then reject "agent_shared_mode" no_extra
    else if truthy (option_map text_of (mo_deliver_after msg)) || truthy (mo_recurrence msg)
    then reject "scheduled_or_recurring" no_extra
    else match slot_of content "slot" with
    | None => reject "missing_slot" no_extra
    | Some slotLabel =>
        if looksLikeRawPlatformId (mo_platform_id msg)
        then reject "raw_platform_id" (mkExtra None None None (mo_platform_id msg))
        else
          let* now := clock turns in
          let* live := db_read (λ db, checkGrantLive db (hostScopeForSession session) slotLabel now) in
          match live with
          | GrantDead reason => reject reason (mkExtra (Some slotLabel) None None None)
          | GrantLive grant =>
              let* mg := db_read (getMessagingGroupByPlatform (g_channel_type grant) (g_dm_platform_id grant)) in
              match mg with
              | None => reject "no_grant" (grant_extra slotLabel grant)
              | Some mg =>
                  if mg_is_group mg then reject "not_p2p_open_id" (grant_extra slotLabel grant)
                  else if negb (bool_decide (g_channel_type grant = "feishu")) ||
                          negb (startsWith (g_participant_open_id grant) "ou_") ||
                          negb (bool_decide ("feishu:p2p:" +:+ g_participant_open_id grant
                                             = g_dm_platform_id grant))
                  then reject "target_mismatch" (grant_extra slotLabel grant)
                  else ret (slotLabel, grant)
              end
          end
    end.

(** The target the gateway names, checked like the grant's. *)
(*@ src/src/delivery.ts 972-990 tmg *)
Definition gateway_target (msg : MessageOut) (session : Session) (slotLabel : string)
    (grant : DmGrantRow) (channelType : option string) (pid : string) : hostM (string * string) :=
  let ct := default (g_channel_type grant) channelType in
  let* tmg := db_read (getMessagingGroupByPlatform ct pid) in
  if negb (bool_decide (ct = "feishu")) || negb (startsWith (toLowerCase pid) "feishu:p2p:ou_") ||
     match tmg with Some mg => mg_is_group mg | None => true end
  then roster_reject session msg "gateway_target_invalid"
         (mkExtra (Some slotLabel) (Some (g_id grant)) (Some (g_participant_open_id grant)) (Some pid))
  else ret (ct, pid).

(** The destination: the grant's, or the one of the gateway that has the say. *)
(*@ src/src/delivery.ts 932-995 deliverChannelType *)
Definition roster_destination (msg : MessageOut) (session : Session) (slotLabel : string)
    (grant : DmGrantRow) : hostM (string * string) :=
  let local := (g_channel_type grant, g_dm_platform_id grant) in
  if negb (rosterGatewayAuthorityEnabled env) then ret local
  else
    let* group := db_read (λ db, getAgentGroup db (s_agent_group_id session)) in
    let* cfg := of_outcome (match group with
                            | Some g => match group_config (ag_folder g) with
                                        | Ok cfg => Ok (gc_backendGateway cfg)
                                        | Throw e => Throw e
                                        end
                            | None => Ok None
                            end) in
    match cfg with
    | Some gateway =>
        if negb (truthy (gw_baseUrl gateway)) then ret local
        else if negb (gatewayHasSigningKey gateway)
        then roster_reject session msg "gateway_unsigned_authority"
               (mkExtra (Some slotLabel) None None None)
        else
          let* decision := authorizeDm turns gateway in
          match decision with
          | Deny _ => roster_reject session msg "gateway_denied" (grant_extra slotLabel grant)
          | Allow target =>
              match target with
              | Some (ct, Some pid) =>
                  if bool_decide (pid = "") then ret local
                  else gateway_target msg session slotLabel grant ct pid
              | _ => ret local
              end
          end
    | None => ret local
    end.

(** The membership re-check; a definite no tears the grant down. *)
(*@ src/src/delivery.ts 1034-1056 stillMember *)
Definition roster_membership (has_isMember : bool) (msg : MessageOut) (session : Session)
    (slotLabel : string) (grant : DmGrantRow) : hostM unit :=
  if negb (rosterVerifyMembershipEnabled env) then ret tt
  else
    let* originGroup := db_read (originGroupPlatformIdForGrant grant) in
    if negb (truthy originGroup) then ret tt
    else
      let group := default "" originGroup in
      let* stillMember := isMemberCached has_isMember (g_channel_type grant) group
                            (g_participant_open_id grant) in
      if bool_decide (stillMember = Some false) then
        let* now := clock turns in
        run (central (revokeParticipantInScope now (hostScopeForSession session)
                        (g_participant_open_id grant))) ;;
        modify (λ h, set_members (delete (g_channel_type grant +:+ "|" +:+ group +:+ "|" +:+
                                          g_participant_open_id grant) (h_members h)) h) ;;
        roster_reject session msg "not_in_scope" (grant_extra slotLabel grant)
      else ret tt.

(*@ src/src/delivery.ts 1000-1012 rateKeys *)
Definition roster_keys (session : Session) (grant : DmGrantRow) : RateKeys := λ k,
  match k with
  | Kgrant => g_id grant
  | Kscope => hostScopeForSession session
  | Kparticipant => g_participant_open_id grant
  | Kdeploy => dq_key (resolveDeployQuota env)
  end.
Definition roster_windows : RateWindows := λ k,
  match k with
  | Kdeploy => dq_window (resolveDeployQuota env)
  | _ => DEFAULT_RATE_WINDOWS k
  end.

(** Reserve, send, and give the reservation back when this attempt made it and
    the send failed outright. *)
(*@ src/src/delivery.ts 1073-1162 deliverRosterMessage *)
Definition roster_send (msg : MessageOut) (session : Session) (content : list (string * json))
    (slotLabel : string) (grant : DmGrantRow) (dest : string * string) : hostM (option string) :=
  let keys := roster_keys session grant in
  let quota := resolveDeployQuota env in
  let* reservedAt := clock turns in
  let* reservation := run (central (reserveRosterSend reservedAt (mo_id msg) (g_id grant) keys
                                      roster_windows quota)) in
  match reservation with
  | NotReserved reason _ => roster_reject session msg reason (grant_extra slotLabel grant)
  | Reserved fresh =>
      let* platformMsgId := try_catch
        (adapter_deliver turns true dest.1 dest.2 None (mo_kind msg)
           (scrubbed (mo_content msg) content) None)
        (λ err, match err with
                | TimeoutError => throw TimeoutError
                | _ => (if fresh : bool
                        then run (central (rollbackRosterReservation reservedAt (mo_id msg)
                                             (g_id grant) keys roster_windows quota)) ;; ret tt
                        else ret tt) ;;
                       throw err
                end) in
      audit (hostScopeForSession session) session (mo_id msg) delivered None
        (mkExtra (Some slotLabel) (Some (g_id grant)) (Some (g_participant_open_id grant)) (Some dest.2)) ;;
      ret platformMsgId
  end.

(*@ src/src/delivery.ts 834-1163 deliverRosterMessage *)
Definition deliverRosterMessage (msg : MessageOut) (session : Session)
    (content : list (string * json)) : hostM (option string) :=
  let* (slotLabel, grant) := roster_grant msg session content in
  let* dest := roster_destination msg session slotLabel grant in
  let* adapter := gets h_adapter in
  match adapter with
  | NoAdapter => roster_reject session msg "no_adapter" (grant_extra slotLabel grant)
  | AdapterSet has_isMember =>
      roster_membership has_isMember msg session slotLabel grant ;;
      roster_send msg session content slotLabel grant dest
  end.

(** ** One message *)

(*@ src/src/delivery.ts 1288-1312 handleSystemAction *)
Definition handleSystemAction (content : list (string * json)) (session : Session) : hostM unit :=
  match readString content "action" (required_max 128) with
  | FBad _ => ret tt
  | FOk action => match actionHandlers action with
                  | Some registered => registered content session
                  | None => ret tt
                  end
  end.

(** Routing to another agent; the wake is awaited. *)
(*@ src/src/delivery.ts 555-570 routeAgentMessage *)
Definition route_to_agent (msg : MessageOut) (session : Session) (content : list (string * json))
    : hostM unit :=
  let* installed := db_read (λ db, hasTable db "agent_destinations") in
  if negb installed then throw (OtherError (Err "agent-to-agent module not installed"))
  else
    let* logged := db_read (λ db, hasTable db "classification_log") in
    (if logged : bool
     then run (central (reconcileClassification content (mo_id msg) agent_send (s_id session)))
     else ret tt) ;;
    await turns (λ _, tt) ;;
    let* now := clock turns in
    let* d := draws turns in
    let* woken := run (routeAgentMessage DATA_DIR group_config env_max_depth now d
      (mkRoutable (mo_id msg) (mo_platform_id msg) (mo_content msg) (mo_in_reply_to msg)
         (mo_origin_user_id msg)) session) in
    match woken with
    | Some s => modify (add_woken (s_id s)) ;; await turns (λ _, tt)
    | None => ret tt
    end.

(** May the session send to this channel destination? *)
(*@ src/src/delivery.ts 631-678 isOriginChat *)
Definition channel_gate (msg : MessageOut) (session : Session) (ct pid : string) : hostM unit :=
  let ag := s_agent_group_id session in
  let* bypass :=
    (if bool_decide (ct = "feishu") && startsWith (toLowerCase pid) "feishu:p2p:"
     then let* enabled := db_read (rosterDmEnabledForGroup group_config env ag) in of_outcome enabled
     else ret false) in
  if bypass : bool then
    audit (hostScopeForSession session) session (mo_id msg) rejected (Some "channel_branch_p2p_bypass")
      (mkExtra None None None (Some pid)) ;;
    throw (OtherError (Err "roster-dm: direct p2p channel send"))
  else
    let* mg := db_read (getMessagingGroupByPlatform ct pid) in
    match mg with
    | None => throw (OtherError (Err "unknown messaging group"))
    | Some mg =>
        let* installed := db_read (λ db, hasTable db "agent_destinations") in
        let* allowed := db_read (hasDestination ag TargetChannel (mg_id mg)) in
        if negb (sql_is (s_messaging_group_id session) (Some (mg_id mg))) && installed && negb allowed
        then throw (OtherError (Err "unauthorized channel destination"))
        else ret tt
    end.

(** What is recorded of a card or a classified reply before it is sent. *)
(*@ src/src/delivery.ts 680-734 reconcileClassification *)
Definition record_before_send (msg : MessageOut) (session : Session)
    (content : list (string * json)) : hostM unit :=
  let* now := clock turns in
  let ask := bool_decide (jstring (obj_get "type" content) = Some "ask_question") in
  let* logged := db_read (λ db, hasTable db "classification_log") in
  let* questions := db_read (λ db, hasTable db "pending_questions") in
  (if ask && logged
   then run (central (reconcileClassification content (mo_id msg) ask_user_question (s_id session)))
   else ret tt) ;;
  (if ask && jtruthy (obj_get "questionId" content) && questions
   then run (central (track_question now msg session content)) else ret tt) ;;
  (if truthy (jstring (obj_get "_classificationId" content)) && logged
   then run (central (reconcileClassification content (mo_id msg) channel_send (s_id session)))
   else ret tt).

(*@ src/src/delivery.ts 757-807 files *)
Definition channel_send_message (msg : MessageOut) (session : Session)
    (content : list (string * json)) (ct pid : string) : hostM (option string) :=
  let root := key_dir DATA_DIR (s_agent_group_id session, s_id session) in
  let* sent_files :=
    match obj_get "files" content with
    | Some (JArr (f :: fs)) => run (files (readOutboxFiles root (mo_id msg) (strings_of (f :: fs))))
    | _ => ret None
    end in
  adapter_deliver turns true ct pid (mo_thread_id msg) (mo_kind msg)
    (scrubbed (mo_content msg) content) sent_files.

(*@ src/src/delivery.ts 517-809 deliverMessage *)
Definition deliverMessage (msg : MessageOut) (session : Session) : hostM (option string) :=
  let* adapter := gets h_adapter in
  if match adapter with NoAdapter => true | _ => false end then ret None
  else match parseOutboundContent (mo_content msg) with
  | Refused reason => throw (ContractError reason)
  | Admitted_content content =>
      if bool_decide (mo_kind msg = "system") then handleSystemAction content session ;; ret None
      else if sql_is (mo_channel_type msg) (Some "agent")
      then route_to_agent msg session content ;; ret None
      else if bool_decide (mo_kind msg = "roster") then deliverRosterMessage msg session content
      else if isForgedRosterOptInCard content then
        audit (hostScopeForSession session) session (mo_id msg) rejected (Some "forged_optin_card")
          (mkExtra None None None (mo_platform_id msg)) ;;
        throw (OtherError (Err "roster-dm: refusing a container-authored roster opt-in card"))
      else
        let ct := default "" (mo_channel_type msg) in
        let pid := default "" (mo_platform_id msg) in
        let routed := truthy (mo_channel_type msg) && truthy (mo_platform_id msg) in
        (if routed then channel_gate msg session ct pid else ret tt) ;;
        record_before_send msg session content ;;
        if negb routed then ret None
        else channel_send_message msg session content ct pid
  end.

(** ** One drain *)

Definition inbound_key (session : Session) : string * string :=
  (s_agent_group_id session, s_id session).

(** The delivered row first, the clean-up after it. *)
(*@ src/src/delivery.ts 344-380 deliverMessage *)
Definition deliver_row (msg : MessageOut) (session : Session) : hostM unit :=
  let key := inbound_key session in
  if bool_decide (mo_kind msg = "llm-usage") then
    let* now := clock turns in
    run (inbound key (markDelivered now (mo_id msg) None))
  else
    let* platformMsgId := deliverMessage msg session in
    let* now := clock turns in
    run (inbound key (markDelivered now (mo_id msg) platformMsgId)) ;;
    try_catch (run (files (clearOutbox (key_dir DATA_DIR key) (mo_id msg)))) (λ _, ret tt) ;;
    if user_facing msg then clearProgressReaction turns (s_id session) else ret tt.

(** The note to the user that a reply is given up. *)
(*@ src/src/delivery.ts 420-438 notifyErr *)
Definition notify_failure (msg : MessageOut) : hostM unit :=
  let* adapter := gets h_adapter in
  if match adapter with NoAdapter => false | _ => true end
     && truthy (mo_channel_type msg) && truthy (mo_platform_id msg)
  then try_catch
         (adapter_deliver turns false (default "" (mo_channel_type msg)) (default "" (mo_platform_id msg))
            (mo_thread_id msg) "chat" failure_notice None ;; ret tt)
         (λ _, ret tt)
  else ret tt.

(*@ src/src/delivery.ts 381-453 catch *)
Definition on_failure (msg : MessageOut) (session : Session) (err : failure) : hostM unit :=
  let key := inbound_key session in
  let* before := run (in_get key (getDeliveryAttempts (mo_id msg))) in
  let attempts := before + 1 in
  let permanent := match err with ContractError _ => true | _ => false end in
  let* now := clock turns in
  if permanent || (DELIVERY_MAX_ATTEMPTS <=? attempts) then
    run (inbound key (markDeliveryFailed now (mo_id msg) attempts None)) ;;
    if user_facing msg then clearProgressReaction turns (s_id session) ;; notify_failure msg else ret tt
  else run (inbound key (markDeliveryFailed now (mo_id msg) attempts (Some (backoffSec attempts)))).

(** The loop, which stops at the first failure. *)
(*@ src/src/delivery.ts 337-470 drainFn *)
Fixpoint drain_rows (session : Session) (undelivered : list MessageOut) : hostM unit :=
  match undelivered with
  | [] => ret tt
  | msg :: rest =>
      let* went := try_catch (deliver_row msg session ;; ret true)
                     (λ err, on_failure msg session err ;; ret false) in
      if went : bool then drain_rows session rest else ret tt
  end.

(** The rows a drain starts from, [None] when the databases are not there. *)
(*@ src/src/delivery.ts 308-335 undelivered *)
Definition undelivered_rows (now : time) (session : Session) (w : World) : option (list MessageOut) :=
  match w_out w !! inbound_key session, w_in w !! inbound_key session with
  | Some o, Some i =>
      let bad := getUndeliverableIds now DELIVERY_MAX_ATTEMPTS i in
      Some (List.filter (λ m, negb (bool_decide (mo_id m ∈ bad))) (getDueOutboundMessages now o))
  | _, _ => None
  end.

(*@ src/src/delivery.ts 303-485 drainSession *)
Definition drainSession (session : Session) : hostM unit :=
  let* agentGroup := db_read (λ db, getAgentGroup db (s_agent_group_id session)) in
  match agentGroup with
  | None => ret tt
  | Some _ =>
      let* now := clock turns in
      let* rows := gets (λ h, undelivered_rows now session (h_world h)) in
      match rows with
      | None => ret tt
      | Some undelivered => drain_rows session undelivered
      end
  end.

(*@ src/src/delivery.ts 290-301 deliverSessionMessages *)
Definition deliverSessionMessages (session : Session) : hostM unit :=
  let* busy := gets (λ h, bool_decide (s_id session ∈ h_inflight h)) in
  if busy : bool then ret tt
  else
    modify (λ h, set_inflight ({[s_id session]} ∪ h_inflight h) h) ;;
    let done_ := modify (λ h, set_inflight (h_inflight h ∖ {[s_id session]}) h) in
    try_catch (drainSession session ;; done_) (λ e, done_ ;; throw e).

(** One worker over the sessions it takes off the queue: a failing drain does
    not stop the others. *)
(*@ src/src/delivery.ts 250-264 deliverSessionMessages *)
Definition drain_worker (sessions : list Session) : hostM unit :=
  for_each sessions (λ session,
    try_catch (deliverSessionMessages session) (λ _, ret tt)).
End delivery.
