(* ===== verification/DeliveryProofs.v ===== *)
(** * What delivery guarantees

    Over arbitrary rows of outbound.db and arbitrary turns: nobody is sent a
    message the session may not send, a drain delivers a prefix of its rows,
    and a roster message is charged once. *)
From S2P Require Import Prelude JsString Json OutboundContract Types Central Permissions DmGrants DmGrantsProofs SessionDb Sessions Destinations Fs Attachments SessionManager AgentRoute Classification Host ProgressStatus Roster Delivery.

Local Open Scope string_scope.
Local Open Scope Z_scope.
Local Open Scope list_scope.
Local Open Scope prog_scope.

(** Run the next steps of a hypothesis [m h = (Ok a, h')]. *)
Ltac step_ok H :=
  let a := fresh "a" in let h1 := fresh "h" in let E := fresh "E" in
  apply host_bind_ok in H as (a & h1 & E & H).

Section safety.
Context (DATA_DIR : list string) (group_config : string → outcome exn GroupConfig).
Context (env : RosterEnv) (env_max_depth : option string).
Context (actionHandlers : string → option (list (string * json) → Session → hostM unit)).
Context (turns : nat → Turn).

Section quiet.
Context (P : Sent → Prop).

Lemma sends_audit scope s id d r x : sends P (audit turns scope s id d r x).
Proof. unfold audit. auto with host. Qed.
Lemma sends_reject {A} s msg reason x : sends P (roster_reject (A:=A) turns s msg reason x).
Proof. unfold roster_reject. apply sends_bind; [apply sends_audit|auto with host]. Qed.
Lemma sends_of_outcome {A} (o : outcome exn A) : sends P (of_outcome o).
Proof. destruct o; simpl; auto with host. Qed.
Hint Resolve sends_audit sends_reject sends_of_outcome : host.

(** Follow the structure of a program that makes no adapter call. *)
Ltac quiet :=
  repeat first
    [ apply sends_bind; [solve [auto with host]|intros ?]
    | solve [auto with host]
    | match goal with
      | |- sends _ (let* _ := (if ?b then _ else _) in _) => destruct b
      | |- sends _ (if ?b then _ else _) => destruct b
      | |- sends _ (match ?x with _ => _ end) => destruct x
      | |- sends _ (let x := _ in _) => cbn zeta
      end ].

Lemma sends_member has ct g u : sends P (isMemberCached turns has ct g u).
Proof. unfold isMemberCached. quiet. Qed.
Lemma sends_roster_grant msg s c : sends P (roster_grant group_config env turns msg s c).
Proof. unfold roster_grant. quiet. Qed.
Lemma sends_authorize g : sends P (authorizeDm turns g).
Proof. unfold authorizeDm. quiet. Qed.
Hint Resolve sends_member sends_roster_grant sends_authorize : host.
Lemma sends_gateway_target msg s l g ct pid : sends P (gateway_target turns msg s l g ct pid).
Proof. unfold gateway_target. quiet. Qed.
Hint Resolve sends_gateway_target : host.
Lemma sends_destination msg s l g : sends P (roster_destination group_config env turns msg s l g).
Proof. unfold roster_destination. quiet. Qed.
Lemma sends_membership has msg s l g : sends P (roster_membership env turns has msg s l g).
Proof. unfold roster_membership. quiet. Qed.
Lemma sends_route msg s c :
  sends P (route_to_agent DATA_DIR group_config env_max_depth turns msg s c).
Proof. unfold route_to_agent. quiet. Qed.
Lemma sends_gate msg s ct pid : sends P (channel_gate group_config env turns msg s ct pid).
Proof. unfold channel_gate. quiet. Qed.
Lemma sends_record msg s c : sends P (record_before_send turns msg s c).
Proof. unfold record_before_send. quiet. Qed.
End quiet.
#[local] Hint Resolve sends_audit sends_reject sends_of_outcome sends_member sends_roster_grant
  sends_destination sends_membership sends_route sends_gate sends_record : host.

(** ** Who a message may go to *)

(** The session may send to this channel, in the state the call is made in. *)
Definition channel_allowed (session : Session) (ct pid : string) (db : CentralDb) : Prop :=
  ∃ mg, getMessagingGroupByPlatform ct pid db = Some mg ∧
    (s_messaging_group_id session = Some (mg_id mg) ∨
     hasTable db "agent_destinations" = false ∨
     hasDestination (s_agent_group_id session) TargetChannel (mg_id mg) db = true) ∧
    (ct = "feishu" → startsWith (toLowerCase pid) "feishu:p2p:" = true →
     rosterDmEnabledForGroup group_config env (s_agent_group_id session) db = Ok false).

(** Two databases that agree on what [channel_allowed] reads. *)
Definition same_edges (db db' : CentralDb) : Prop :=
  messaging_groups db' = messaging_groups db ∧ agent_destinations db' = agent_destinations db ∧
  agent_groups db' = agent_groups db ∧ installed db' = installed db.
Lemma channel_allowed_ext session ct pid db db' :
  same_edges db db' → channel_allowed session ct pid db → channel_allowed session ct pid db'.
Proof.
  intros (H1 & H2 & H3 & H4) (mg & Hmg & Hor & Hp). exists mg.
  unfold getMessagingGroupByPlatform, hasDestination, hasTable, rosterDmEnabledForGroup, getAgentGroup in *.
  by rewrite H1, H2, H3, H4.
Qed.

Lemma channel_gate_ok msg session ct pid h h' :
  channel_gate group_config env turns msg session ct pid h = (Ok tt, h') →
  h' = h ∧ channel_allowed session ct pid (w_db (h_world h)).
Proof.
  unfold channel_gate. intros H. step_ok H.
  assert (h0 = h ∧ (ct = "feishu" → startsWith (toLowerCase pid) "feishu:p2p:" = true →
            rosterDmEnabledForGroup group_config env (s_agent_group_id session) (w_db (h_world h)) = Ok a))
    as [-> Hp].
  { destruct (_ && _) eqn:Hc; to_prop.
    - step_ok E. injection E0 as <- <-.
      destruct (rosterDmEnabledForGroup _ _ _ _) as [b|e] eqn:Er; [|done]. by injection E as <- <-.
    - injection E as <- <-. split; [done|]. intros -> Hs. rewrite Hs in Hc.
      by rewrite bool_decide_eq_true_2 in Hc. }
  destruct a; [by step_ok H|]. step_ok H. injection E0 as <- <-. destruct (getMessagingGroupByPlatform _ _ _) as [mg|] eqn:Emg; [|done].
  do 2 step_ok H. injection E0 as <- <-. injection E1 as <- <-.
  destruct (_ && _) eqn:Hc; [done|]. injection H as <-. split; [done|].
  exists mg. split; [done|]. split; [|done].
  apply andb_false_iff in Hc as [Hc|Hc]; [apply andb_false_iff in Hc as [Hc|Hc]|]; to_prop; auto.
Qed.

(** Programs over the central database that leave the edges alone. *)
Lemma edges_modify db0 (f : CentralDb → CentralDb) :
  (∀ db, same_edges db0 db → same_edges db0 (f db)) → preserves (same_edges db0) (modify (E:=exn) f).
Proof. intros H db. apply H. Qed.
Lemma edges_link db0 a b c : preserves (same_edges db0) (linkOutcome a b c).
Proof.
  unfold linkOutcome, query. apply preserves_bind; [auto with prog|]. intros n.
  apply preserves_bind; [by apply edges_modify|auto with prog].
Qed.
Lemma edges_reconcile db0 c o sf id : preserves (same_edges db0) (reconcileClassification c o sf id).
Proof.
  unfold reconcileClassification, query. split_match; auto with prog.
  apply preserves_bind; [auto with prog|]. intros [row|]; [|auto with prog].
  do 2 (destruct_if; [auto with prog|]). apply preserves_bind; [apply edges_link|auto with prog].
Qed.
Lemma edges_track db0 now msg s c : preserves (same_edges db0) (track_question now msg s c).
Proof.
  unfold track_question. split_match; auto with prog.
  apply preserves_bind; [|auto with prog]. unfold createPendingQuestion, query.
  apply preserves_bind; [auto with prog|]. intros [|]; [auto with prog|].
  apply preserves_bind; [auto with prog|]. intros [|]; [|auto with prog].
  apply preserves_bind; [by apply edges_modify|auto with prog].
Qed.

Lemma run_central_edges (m : dbM unit) h r h' :
  (∀ db0, preserves (same_edges db0) m) → run (central m) h = (r, h') →
  same_edges (w_db (h_world h)) (w_db (h_world h')).
Proof.
  intros Hm H. unfold run, central in H. specialize (Hm (w_db (h_world h)) (w_db (h_world h))).
  destruct (m (w_db (h_world h))) as [r0 db1]. cbn in *.
  destruct r0; injection H as <- <-; apply Hm; by repeat split.
Qed.
Lemma same_edges_trans a b c : same_edges a b → same_edges b c → same_edges a c.
Proof. intros (?&?&?&?) (?&?&?&?). repeat split; congruence. Qed.

Lemma record_before_send_edges msg session c h h' :
  record_before_send turns msg session c h = (Ok tt, h') →
  same_edges (w_db (h_world h)) (w_db (h_world h')).
Proof.
  unfold record_before_send. intros H. do 3 (step_ok H; injection E as <- <-).
  assert (∀ (b : bool) m h1 u h2, (∀ db0, preserves (same_edges db0) m) →
    (if b then run (central m) else ret tt) h1 = (Ok u, h2) →
    same_edges (w_db (h_world h1)) (w_db (h_world h2))) as Hif.
  { intros [] m h1 u h2 Hm Hr; [by eapply run_central_edges|]. injection Hr as _ <-. by repeat split. }
  step_ok H. apply Hif in E; [|by intros; apply edges_reconcile].
  step_ok H. apply Hif in E0; [|by intros; apply edges_track].
  apply Hif in H; [|by intros; apply edges_reconcile].
  eauto using same_edges_trans.
Qed.

(** ** Roster messages *)

(** A reservation that succeeds stands. *)
Lemma reserve_marks now m g keys W q db fresh db1 :
  reserveRosterSend now m g keys W q db = (Ok (Reserved fresh), db1) →
  hasRosterReservation db1 m = true.
Proof.
  unfold reserveRosterSend, try_catch, transaction.
  destruct (reserve_body now m g keys W q db) as [[r|e] db2] eqn:E; [|destruct e; done].
  intros [= -> ->]. revert E. unfold reserve_body. intros E.
  apply bind_ok_inv in E as (b & d & Eb & E). injection Eb as <- <-.
  destruct (hasRosterReservation db m) eqn:Hh; [by injection E as <- <-|].
  apply bind_ok_inv in E as (? & d1 & _ & E). apply bind_ok_inv in E as (? & d2 & _ & E).
  apply bind_ok_inv in E as (? & d3 & _ & E). apply bind_ok_inv in E as (? & d4 & Em & E).
  injection E as _ <-. unfold bumpLedger, modify in Em. injection Em as _ <-. apply has_bump_marker.
Qed.

(** What the gates establish, in one synchronous run. *)
Lemma roster_grant_ok msg session c h slotLabel g h' :
  roster_grant group_config env turns msg session c h = (Ok (slotLabel, g), h') →
  h' = h ∧ rosterDmEnabledForGroup group_config env (s_agent_group_id session) (w_db (h_world h)) = Ok true ∧
  checkGrantLive (w_db (h_world h)) (hostScopeForSession session) slotLabel (t_now (turn_of turns h))
    = GrantLive g ∧
  g_channel_type g = "feishu" ∧ startsWith (g_participant_open_id g) "ou_" = true ∧
  g_dm_platform_id g = "feishu:p2p:" +:+ g_participant_open_id g ∧ slot_of c "slot" = Some slotLabel.
Proof.
  unfold roster_grant. intros H. step_ok H. injection E as <- <-.
  destruct (rosterDmEnabledForGroup _ _ _ _) as [en|e] eqn:Een; [|by step_ok H]. step_ok H.
  injection E as <- <-. destruct en; [|by step_ok H]. cbn [negb] in H.
  step_ok H. injection E as <- <-. step_ok H.
  destruct (isRootSessionModeForRosterDm _ _ _) as [root|e]; [|done]. injection E as <- <-.
  destruct root; [|by step_ok H]. cbn [negb] in H.
  destruct (_ || _); [by step_ok H|]. destruct (slot_of c "slot") as [sl|] eqn:Hsl; [|by step_ok H].
  destruct (looksLikeRawPlatformId _); [by step_ok H|].
  step_ok H. injection E as <- <-. step_ok H. injection E as <- <-.
  destruct (checkGrantLive _ _ _ _) as [gr|reason] eqn:El; [|by step_ok H].
  step_ok H. injection E as <- <-. destruct (getMessagingGroupByPlatform _ _ _) as [mg|]; [|by step_ok H].
  destruct (mg_is_group mg); [by step_ok H|]. destruct (_ || _) eqn:Ht; [by step_ok H|].
  injection H as <- <- <-. to_prop. by repeat split.
Qed.

Lemma lower_p2p u : startsWith u "ou_" = true →
  startsWith (toLowerCase ("feishu:p2p:" +:+ u)) "feishu:p2p:ou_" = true.
Proof. intros [v ->]%startsWith_inv. apply (startsWith_app "feishu:p2p:ou_" (toLowerCase v)). Qed.

(** The destination is a private chat; the grant's own one without a gateway. *)
Lemma roster_destination_ok msg session sl g h dest h' :
  g_channel_type g = "feishu" → startsWith (g_participant_open_id g) "ou_" = true →
  g_dm_platform_id g = "feishu:p2p:" +:+ g_participant_open_id g →
  roster_destination group_config env turns msg session sl g h = (Ok dest, h') →
  dest.1 = "feishu" ∧ startsWith (toLowerCase dest.2) "feishu:p2p:ou_" = true ∧
  (rosterGatewayAuthorityEnabled env = false → dest = ("feishu", g_dm_platform_id g) ∧ h' = h).
Proof.
  intros Hc Hu Hd. unfold roster_destination. rewrite Hc. intros H.
  assert (∀ hh, ret ("feishu", g_dm_platform_id g) hh = (Ok (E:=failure) dest, h') →
    dest.1 = "feishu" ∧ startsWith (toLowerCase dest.2) "feishu:p2p:ou_" = true ∧
    dest = ("feishu", g_dm_platform_id g) ∧ h' = hh) as Hlocal.
  { intros hh [= <- <-]. split; [done|]. split; [|done]. rewrite Hd. by apply lower_p2p. }
  destruct (rosterGatewayAuthorityEnabled env); cbn [negb] in H.
  2: { apply Hlocal in H as (?&?&?&?). auto. }
  enough (dest.1 = "feishu" ∧ startsWith (toLowerCase dest.2) "feishu:p2p:ou_" = true) as [? ?]
    by (by split_and!).
  step_ok H. injection E as <- <-. step_ok H.
  destruct a as [gw|]; [|by apply Hlocal in H as (?&?&_)].
  destruct (negb (truthy _)); [by apply Hlocal in H as (?&?&_)|].
  destruct (negb _); [by step_ok H|]. step_ok H.
  destruct a as [r|[[ct [pid|]]|]]; [by step_ok H| |by apply Hlocal in H as (?&?&_)..].
  destruct (bool_decide (pid = "")); [by apply Hlocal in H as (?&?&_)|].
  unfold gateway_target in H. step_ok H. destruct (_ || _) eqn:Ht; [by step_ok H|].
  injection H as <- <-. to_prop. by rewrite Hc in *.
Qed.

(** A roster message goes to a private chat, under a standing reservation. *)
Definition roster_allowed (msg : MessageOut) (s : Sent) : Prop :=
  mo_kind msg = "roster" ∧ sn_channelType s = "feishu" ∧
  startsWith (toLowerCase (sn_platformId s)) "feishu:p2p:ou_" = true ∧
  hasRosterReservation (w_db (sn_world s)) (mo_id msg) = true.

Lemma sends_roster_send msg session c sl g dest h :
  mo_kind msg = "roster" → dest.1 = "feishu" → startsWith (toLowerCase dest.2) "feishu:p2p:ou_" = true →
  sends_at (roster_allowed msg) (roster_send env turns msg session c sl g dest) h.
Proof.
  intros Hk Hc Hp. unfold roster_send. apply sends_at_bind; [apply sends_clock|]. intros at_ h0 _.
  apply sends_at_bind; [apply sends_run|]. intros res h1 Hres.
  apply run_ok in Hres as (w & Hres & ->). unfold central in Hres.
  destruct (reserveRosterSend _ _ _ _ _ _ _) as [[r|] db] eqn:Er; [|done]. injection Hres as <- <-.
  destruct r as [fresh|reason key]; [|apply sends_reject].
  apply sends_at_bind.
  - apply sends_at_try.
    + apply sends_at_deliver. split; [done|]. split; [done|]. split; [done|]. by eapply reserve_marks.
    + intros []; try apply sends_throw; (apply sends_bind; [destruct fresh|]; auto with host).
  - intros id h2 _. apply sends_bind; auto with host.
Qed.

Lemma sends_roster msg session c h :
  mo_kind msg = "roster" →
  sends_at (roster_allowed msg) (deliverRosterMessage group_config env turns msg session c) h.
Proof.
  intros Hk. unfold deliverRosterMessage. apply sends_at_bind; [apply sends_roster_grant|].
  intros [sl g] h0 (-> & _ & _ & Hc & Hu & Hd & _)%roster_grant_ok.
  apply sends_at_bind; [apply sends_destination|]. intros dest h1 Hdest.
  apply roster_destination_ok in Hdest as (H1 & H2 & _); [|done..].
  apply sends_at_bind; [apply sends_gets|]. intros [|has] h2 _; [apply sends_reject|].
  apply sends_at_bind; [apply sends_membership|]. intros _ h3 _. by apply sends_roster_send.
Qed.

(** Any other message goes where the row says, if the session may send there. *)
Definition channel_sent (session : Session) (msg : MessageOut) (s : Sent) : Prop :=
  mo_channel_type msg = Some (sn_channelType s) ∧ mo_platform_id msg = Some (sn_platformId s) ∧
  channel_allowed session (sn_channelType s) (sn_platformId s) (w_db (sn_world s)) ∧
  ∃ content, parseOutboundContent (mo_content msg) = Admitted_content content ∧
             isForgedRosterOptInCard content = false.

Definition allowed (session : Session) (msg : MessageOut) (s : Sent) : Prop :=
  channel_sent session msg s ∨ roster_allowed msg s.

Context (H : Sent → Prop).
Hypothesis handlers_send : ∀ a f, actionHandlers a = Some f → ∀ c s, sends H (f c s).

Lemma truthy_default_Some o : truthy o = true → o = Some (default "" o).
Proof. by destruct o. Qed.

Lemma sends_channel msg session c h :
  parseOutboundContent (mo_content msg) = Admitted_content c → isForgedRosterOptInCard c = false →
  truthy (mo_channel_type msg) = true → truthy (mo_platform_id msg) = true →
  channel_allowed session (default "" (mo_channel_type msg)) (default "" (mo_platform_id msg))
    (w_db (h_world h)) →
  sends_at (channel_sent session msg)
    (channel_send_message DATA_DIR turns msg session c (default "" (mo_channel_type msg))
       (default "" (mo_platform_id msg))) h.
Proof.
  intros Hp Hf Hc Hpid Ha. unfold channel_send_message. apply sends_at_bind.
  { split_match; auto with host; apply sends_ret || apply sends_run. }
  intros fs h1 Hfs. apply sends_at_deliver.
  split; [by apply truthy_default_Some|]. split; [by apply truthy_default_Some|]. cbn. split; [|eauto].
  replace (w_db (h_world h1)) with (w_db (h_world h)); [done|].
  assert (∀ m : fsM (option (list (string * string))), run (files m) h = (Ok fs, h1) →
    w_db (h_world h) = w_db (h_world h1)) as Hrun.
  { intros m (w & Hm & ->)%run_ok. unfold files in Hm.
    destruct (m (w_fs (h_world h))) as [r fs']. by injection Hm as _ <-. }
  destruct (obj_get "files" c) as [[]|]; try (by injection Hfs as _ <-).
  destruct l; [by injection Hfs as _ <-|by eapply Hrun].
Qed.

Lemma sends_deliverMessage msg session :
  sends (λ s, H s ∨ allowed session msg s)
    (deliverMessage DATA_DIR group_config env env_max_depth actionHandlers turns msg session).
Proof using handlers_send.
  intros h. unfold deliverMessage. apply sends_at_bind; [apply sends_gets|]. intros ad h0 Hg.
  injection Hg as <- <-. destruct (match h_adapter h with NoAdapter => true | _ => false end); [apply sends_ret|].
  destruct (parseOutboundContent (mo_content msg)) as [c|] eqn:Hp; [|apply sends_throw].
  destruct (bool_decide (mo_kind msg = "system")).
  { apply sends_bind; [|auto with host]. eapply sends_weaken; [by left|]. unfold handleSystemAction.
    destruct (readString _ _ _); [|auto with host].
    destruct (actionHandlers value) as [f|] eqn:Hf; [by eapply handlers_send|auto with host]. }
  destruct (sql_is _ _); [apply sends_bind; auto with host|].
  destruct (bool_decide (mo_kind msg = "roster")) eqn:Hk.
  { to_prop. eapply sends_at_weaken; [|by apply sends_roster]. intros s Hs. right. by right. }
  destruct (isForgedRosterOptInCard c) eqn:Hf; [apply sends_bind; auto with host|].
  destruct (truthy (mo_channel_type msg)) eqn:Hct, (truthy (mo_platform_id msg)) eqn:Hpid; cbn [andb negb].
  2-4: apply sends_bind; [auto with host|]; intros _; apply sends_bind; auto with host.
  apply sends_at_bind; [apply sends_gate|]. intros [] h1 [-> Ha]%channel_gate_ok.
  apply sends_at_bind; [apply sends_record|]. intros [] h2 He%record_before_send_edges.
  eapply sends_at_weaken; [|apply sends_channel]; try done; [by right; left|].
  by eapply channel_allowed_ext.
Qed.

(** The two calls the host makes of its own: the note that a reply is given
    up, and the removal of a reaction it had put. *)
Definition notice (msg : MessageOut) (s : Sent) : Prop :=
  sn_content s = failure_notice ∧ sn_kind s = "chat" ∧ sn_files s = None ∧ user_facing msg = true ∧
  mo_channel_type msg = Some (sn_channelType s) ∧ mo_platform_id msg = Some (sn_platformId s).
Definition unreact (session : Session) (s : Sent) : Prop :=
  ∃ r, r ∈ progress_reactions (w_db (sn_world s)) ∧ pr_session_id r = s_id session ∧
       sn_channelType s = pr_channel_type r ∧ sn_platformId s = pr_platform_id r.

Lemma sends_clear session :
  sends (unreact session) (clearProgressReaction turns (s_id session)).
Proof.
  intros h. unfold clearProgressReaction. apply sends_at_bind; [apply sends_db_read|].
  intros e h0 He. injection He as <- <-.
  destruct (getReaction (s_id session) (w_db (h_world h))) as [r|] eqn:Er; [|apply sends_ret].
  apply sends_at_bind; [apply sends_gets|]. intros ad h0 Hg. injection Hg as <- <-.
  destruct (h_adapter h); [apply sends_run|].
  apply sends_at_bind; [|intros; apply sends_run]. apply sends_at_try; [|auto with host].
  apply sends_at_bind; [|intros; apply sends_ret]. apply sends_at_deliver.
  apply sql_first_Some in Er as [Hin Hid]. to_prop. by exists r.
Qed.
Lemma sends_notify msg :
  user_facing msg = true → sends (notice msg) (notify_failure turns msg).
Proof.
  intros Hu h. unfold notify_failure. apply sends_at_bind; [apply sends_gets|]. intros ad h0 Hg.
  injection Hg as <- <-. destruct (_ && _) eqn:Hc; [|apply sends_ret]. to_prop.
  apply sends_at_try; [|auto with host]. apply sends_at_bind; [|intros; apply sends_ret].
  apply sends_at_deliver. repeat split; try done; by apply truthy_default_Some.
Qed.

(** What one row may cause. *)
Definition row_sends (session : Session) (msg : MessageOut) (s : Sent) : Prop :=
  H s ∨ allowed session msg s ∨ notice msg s ∨ unreact session s.

Lemma sends_deliver_row msg session :
  sends (row_sends session msg)
    (deliver_row DATA_DIR group_config env env_max_depth actionHandlers turns msg session).
Proof using handlers_send.
  unfold deliver_row. destruct (bool_decide _); [apply sends_bind; auto with host|].
  apply sends_bind.
  { eapply sends_weaken; [|apply sends_deliverMessage]. unfold row_sends. tauto. }
  intros id. apply sends_bind; [auto with host|]. intros now. apply sends_bind; [auto with host|].
  intros _. apply sends_bind; [auto with host|]. intros _. destruct (user_facing msg); [|auto with host].
  eapply sends_weaken; [|apply sends_clear]. unfold row_sends. tauto.
Qed.
Lemma sends_on_failure msg session err :
  sends (row_sends session msg) (on_failure turns msg session err).
Proof.
  unfold on_failure. apply sends_bind; [auto with host|]. intros before.
  apply sends_bind; [auto with host|]. intros now. destruct (_ || _); [|auto with host].
  apply sends_bind; [auto with host|]. intros _. destruct (user_facing msg) eqn:Hu; [|auto with host].
  apply sends_bind.
  - eapply sends_weaken; [|apply sends_clear]. unfold row_sends. tauto.
  - intros _. eapply sends_weaken; [|by apply sends_notify]. unfold row_sends. tauto.
Qed.

(** C6: Nobody is sent what the session may not send.  Over arbitrary rows of
    outbound.db and whatever the rest of the host does at the awaits, each
    call of the channel adapter in a drain is one of four: a call a registered
    action makes; the removal of a reaction the host recorded for the session;
    the fixed note that a reply is given up; or the message of a row, in which
    case, at that very moment, either the messaging group it names exists and
    is the session's own chat or a destination of its agent group, it is no
    private chat while roster messages are enabled and its content is no forged
    consent card, or it is a roster message to a private chat under a standing
    reservation. *)
Theorem only_authorized_sends session rows :
  sends (λ s, ∃ msg, msg ∈ rows ∧ row_sends session msg s)
    (drain_rows DATA_DIR group_config env env_max_depth actionHandlers turns session rows).
Proof using handlers_send.
  induction rows as [|msg rows IH]; simpl; [apply sends_ret|].
  assert (∀ s, row_sends session msg s → ∃ m, m ∈ msg :: rows ∧ row_sends session m s) as Hhd.
  { intros s Hs. exists msg. split; [left|done]. }
  apply sends_bind.
  - eapply sends_weaken; [exact Hhd|]. apply sends_try; [|intros e];
      (apply sends_bind; [|auto with host]); [apply sends_deliver_row|apply sends_on_failure].
  - intros []; [|auto with host]. eapply sends_weaken; [|exact IH].
    intros s (m & Hm & Hs). exists m. split; [by right|done].
Qed.
End safety.
