(* ===== verification/DeliveryRetry.v ===== *)
(** * What a drain leaves in the delivered table

    The part of delivery that is about retries: under an environment that does
    not write the session's delivered rows (the in-flight set keeps other
    drains of the session out), a drain marks a prefix of its rows, and at
    most one failure. *)
From S2P Require Import Prelude JsString Json OutboundContract Types Central Permissions DmGrants SessionDb Sessions Destinations Fs Attachments SessionManager AgentRoute Classification Host ProgressStatus Roster Delivery.

Local Open Scope string_scope.
Local Open Scope Z_scope.
Local Open Scope list_scope.
Local Open Scope prog_scope.

(** ** The rows of one message *)

Definition row_for (id : string) (rows : list DeliveredRow) : option DeliveredRow :=
  sql_first (has_out id) rows.
Definition attempts_for (id : string) (rows : list DeliveredRow) : Z :=
  match row_for id rows with Some r => dl_attempts r | None => 0 end.
(** No success is recorded for the message. *)
Definition open_for (id : string) (rows : list DeliveredRow) : Prop :=
  ∀ r, row_for id rows = Some r → dl_status r = DFailed.

(** The rows after an upsert of [session-db.ts]. *)
Definition upserted (id : string) (fresh : DeliveredRow) (f : DeliveredRow → DeliveredRow)
    (rows : list DeliveredRow) : list DeliveredRow :=
  if sql_exists (has_out id) rows
  then sql_update (λ r, has_out id r && bool_decide (dl_status r = DFailed)) f rows
  else rows ++ [fresh].

Lemma upsert_rows id fresh f d :
  (upsert_failed id fresh f d) = (Ok tt, set_delivered_rows (upserted id fresh f (delivered_rows d)) d).
Proof. unfold upsert_failed, upserted, modify. by destruct (sql_exists _ _). Qed.

Lemma has_out_true id r : has_out id r = true ↔ dl_message_out_id r = id.
Proof. apply bool_decide_eq_true. Qed.

Lemma row_for_upserted_ne id id' fresh f rows :
  id' ≠ id → dl_message_out_id fresh = id → (∀ r, dl_message_out_id (f r) = dl_message_out_id r) →
  row_for id' (upserted id fresh f rows) = row_for id' rows.
Proof.
  intros Hne Hfresh Hf. unfold row_for, upserted. destruct (sql_exists _ _).
  - rewrite sql_first_update by (intros r; unfold has_out; by rewrite Hf).
    destruct (sql_first (has_out id') rows) as [r|] eqn:E; [|done]. apply sql_first_Some in E as [_ E].
    apply has_out_true in E. simpl. unfold has_out. by rewrite bool_decide_eq_false_2 by congruence.
  - rewrite sql_first_app. destruct (sql_first _ _); [done|].
    unfold has_out. by rewrite bool_decide_eq_false_2 by congruence.
Qed.
Lemma row_for_upserted id fresh f rows :
  open_for id rows → dl_message_out_id fresh = id → (∀ r, dl_message_out_id (f r) = dl_message_out_id r) →
  row_for id (upserted id fresh f rows) =
  Some (match row_for id rows with Some r => f r | None => fresh end).
Proof.
  intros Ho Hfresh Hf. unfold open_for, row_for, upserted in *. rewrite sql_exists_first.
  destruct (sql_first (has_out id) rows) as [r|] eqn:E.
  - rewrite sql_first_update, E by (intros r'; unfold has_out; by rewrite Hf). simpl.
    rewrite (Ho r eq_refl). apply sql_first_Some in E as [_ ->]. by rewrite bool_decide_eq_true_2.
  - rewrite sql_first_app, E, (proj2 (has_out_true _ _)); done.
Qed.

Lemma attempts_read id d :
  open_for id (delivered_rows d) → getDeliveryAttempts id d = attempts_for id (delivered_rows d).
Proof.
  unfold getDeliveryAttempts, attempts_for, open_for, row_for, sql_first.
  induction (delivered_rows d) as [|x l IH]; simpl; [done|]. intros Ho.
  destruct (has_out id x) eqn:Hx; simpl.
  - rewrite (Ho x eq_refl), bool_decide_eq_true_2 by done. done.
  - by apply IH.
Qed.

(** ** Programs that leave the delivered rows of a session alone *)

Section keeps.
Context (key : string * string).

Definition rows_at (w : World) : option (list DeliveredRow) := delivered_rows <$> (w_in w !! key).
Definition wkeeps {A} (m : wM A) : Prop := ∀ rows, preserves (λ w, rows_at w = Some rows) m.

Lemma wkeeps_gets {A} (f : World → A) : wkeeps (gets f).
Proof. intros rows. auto with prog. Qed.
Lemma wkeeps_ret {A} (a : A) : wkeeps (ret a).
Proof. intros rows. auto with prog. Qed.
Lemma wkeeps_throw {A} e : wkeeps (throw (A:=A) e).
Proof. intros rows. auto with prog. Qed.
Lemma wkeeps_bind {A B} (m : wM A) (k : A → wM B) : wkeeps m → (∀ a, wkeeps (k a)) → wkeeps (bind m k).
Proof. intros Hm Hk rows. apply preserves_bind; [apply Hm|]. intros a. apply Hk. Qed.
Lemma wkeeps_central {A} (m : dbM A) : wkeeps (central m).
Proof. intros rows w Hw. unfold central. by destruct (m (w_db w)). Qed.
Lemma wkeeps_files {A} (m : fsM A) : wkeeps (files m).
Proof. intros rows w Hw. unfold files. by destruct (m (w_fs w)). Qed.
Lemma wkeeps_inbound {A} key' (m : inM A) :
  (∀ d, delivered_rows (m d).2 = delivered_rows d) → wkeeps (inbound key' m).
Proof.
  intros Hm rows w Hw. unfold inbound. destruct (w_in w !! key') as [d|] eqn:Ed; [|done].
  specialize (Hm d). destruct (m d) as [r d']. cbn in *. unfold rows_at in *. cbn.
  destruct (decide (key' = key)) as [->|].
  - rewrite lookup_insert, decide_True by done. rewrite Ed in Hw. cbn in *. congruence.
  - by rewrite lookup_insert_ne.
Qed.
Lemma wkeeps_in_get {A} key' (f : InboundDb → A) : wkeeps (in_get key' f).
Proof. by apply wkeeps_inbound. Qed.
Lemma wkeeps_schemas key' : wkeeps (ensureSchemas key').
Proof.
  unfold ensureSchemas. apply wkeeps_bind; intros; intros rows w Hw; [|done].
  unfold rows_at in *. cbn. destruct (decide (key' = key)) as [->|].
  - rewrite lookup_insert, decide_True by done. by destruct (w_in w !! key).
  - by rewrite lookup_insert_ne.
Qed.
End keeps.
#[export] Hint Resolve wkeeps_gets wkeeps_ret wkeeps_throw wkeeps_bind wkeeps_central wkeeps_files
  wkeeps_in_get wkeeps_schemas : host.
#[export] Hint Extern 1 (wkeeps _ (db_get _)) => apply wkeeps_gets : host.

Lemma insertMessage_rows m d : delivered_rows (insertMessage m d).2 = delivered_rows d.
Proof.
  unfold insertMessage, insert_row, bind, gets, modify, throw. cbn. by destruct (sql_exists _ _).
Qed.

Section route.
Context (key : string * string) (D : list string) (cfg : string → outcome exn GroupConfig).

Lemma wkeeps_resolve now id conv ag mg th mode own root depth :
  wkeeps key (resolveSession D now id conv ag mg th mode own root depth).
Proof.
  unfold resolveSession. destruct (_ && _); [auto with host|]. apply wkeeps_bind; [auto with host|].
  intros [s|]; [auto with host|]. apply wkeeps_bind; [auto with host|]. intros _.
  apply wkeeps_bind; [|auto with host]. unfold initSessionFolder. auto 6 with host.
Qed.
Lemma wkeeps_write now ag s m : wkeeps key (writeSessionMessage D now ag s m).
Proof.
  unfold writeSessionMessage. apply wkeeps_bind; [auto with host|]. intros c.
  apply wkeeps_bind; [|auto with host]. apply wkeeps_inbound. apply insertMessage_rows.
Qed.
Lemma wkeeps_target now id conv msg s target :
  wkeeps key (resolveTargetSession D cfg now id conv msg s target).
Proof.
  unfold resolveTargetSession. apply wkeeps_bind; [auto with host|]. intros anchor.
  apply wkeeps_bind; [auto with host|]. intros [c|]; [auto with host|].
  assert (∀ own root, wkeeps key (let* (t, _) := resolveSession D now id conv target None None
    SMagent_shared own root (Some (s_spawn_depth s)) in ret t)) as Hr.
  { intros own root. apply wkeeps_bind; [apply wkeeps_resolve|]. intros [t b]. auto with host. }
  apply wkeeps_bind; [auto with host|]. intros [[]|]; [|apply Hr|auto with host].
  destruct (truthy _); [|apply Hr]. apply wkeeps_bind; [auto with host|]. intros [c|]; [auto with host|].
  apply wkeeps_bind; [auto with host|]. intros [c|]; [auto with host|]. apply Hr.
Qed.
Lemma wkeeps_route env now d msg s : wkeeps key (routeAgentMessage D cfg env now d msg s).
Proof.
  unfold routeAgentMessage. apply wkeeps_bind; [auto with host|]. intros [r|]; [auto with host|].
  apply wkeeps_bind; [apply wkeeps_target|]. intros t. apply wkeeps_bind; [auto with host|]. intros c.
  apply wkeeps_bind; [auto with host|]. intros o. apply wkeeps_bind; [auto with host|]. intros conv.
  apply wkeeps_bind; [apply wkeeps_write|]. intros _.
  apply wkeeps_bind; [destruct (truthy _); auto with host|]. intros _.
  apply wkeeps_bind; [destruct (bool_decide _); auto with host|]. auto with host.
Qed.
End route.

(** ** Host programs *)

Section drain.
Context (DATA_DIR : list string) (group_config : string → outcome exn GroupConfig).
Context (env : RosterEnv) (env_max_depth : option string).
Context (actionHandlers : string → option (list (string * json) → Session → hostM unit)).
Context (turns : nat → Turn) (session : Session).
Let key := inbound_key session.

Definition hkeeps {A} (m : hostM A) : Prop :=
  ∀ rows, preserves (λ h, rows_at key (h_world h) = Some rows) m.

(** Nothing else writes the session's delivered rows during the drain. *)
Hypothesis turns_keep : ∀ n w, rows_at key (t_world (turns n) w) = rows_at key w.
Hypothesis handlers_keep : ∀ a f, actionHandlers a = Some f → ∀ c, hkeeps (f c session).

Lemma hkeeps_run {A} (m : wM A) : wkeeps key m → hkeeps (run m).
Proof.
  intros Hm rows h Hh. unfold run. specialize (Hm rows (h_world h) Hh).
  by destruct (m (h_world h)) as [[a|e] w].
Qed.
Lemma hkeeps_ret {A} (a : A) : hkeeps (ret a).
Proof. intros rows. auto with prog. Qed.
Lemma hkeeps_throw {A} e : hkeeps (throw (A:=A) e).
Proof. intros rows. auto with prog. Qed.
Lemma hkeeps_gets {A} (f : Host → A) : hkeeps (gets f).
Proof. intros rows. auto with prog. Qed.
Lemma hkeeps_db_read {A} (f : CentralDb → A) : hkeeps (db_read f).
Proof. apply hkeeps_gets. Qed.
Lemma hkeeps_members f : hkeeps (modify (λ h, set_members (f h) h)).
Proof. by intros rows h Hh. Qed.
Lemma hkeeps_woken id : hkeeps (modify (add_woken id)).
Proof. by intros rows h Hh. Qed.
Lemma hkeeps_await {A} (f : Turn → A) : hkeeps (await turns f).
Proof using turns_keep. intros rows h Hh. cbn. unfold turn_of. by rewrite turns_keep. Qed.
Lemma hkeeps_bind {A B} (m : hostM A) (k : A → hostM B) :
  hkeeps m → (∀ a, hkeeps (k a)) → hkeeps (bind m k).
Proof. intros Hm Hk rows. apply preserves_bind; [apply Hm|]. intros a. apply Hk. Qed.
Lemma hkeeps_try {A} (m : hostM A) (k : failure → hostM A) :
  hkeeps m → (∀ e, hkeeps (k e)) → hkeeps (try_catch m k).
Proof. intros Hm Hk rows. apply preserves_try; [apply Hm|]. intros e. apply Hk. Qed.
Lemma hkeeps_deliver timed ct pid th kind c fs : hkeeps (adapter_deliver turns timed ct pid th kind c fs).
Proof using turns_keep.
  unfold adapter_deliver. apply hkeeps_bind; [by intros rows h Hh|]. intros _.
  apply hkeeps_bind; [apply hkeeps_await|]. intros [id| |e]; [apply hkeeps_ret| |apply hkeeps_throw].
  destruct timed; apply hkeeps_throw.
Qed.
Hint Resolve hkeeps_run hkeeps_ret hkeeps_throw hkeeps_gets hkeeps_db_read hkeeps_members hkeeps_woken
  hkeeps_await hkeeps_bind hkeeps_try hkeeps_deliver : host.
Hint Extern 1 (hkeeps (clock _)) => apply hkeeps_gets : host.
Hint Extern 1 (hkeeps (draws _)) => apply hkeeps_gets : host.

(** Follow the structure of a program. *)
Ltac keep :=
  repeat first
    [ apply hkeeps_bind; [solve [auto with host]|intros ?]
    | apply hkeeps_try; [|intros ?]
    | solve [auto with host]
    | match goal with
      | |- hkeeps (let* _ := (if ?b then _ else _) in _) => destruct b
      | |- hkeeps (let* _ := match ?x with _ => _ end in _) => destruct x
      | |- hkeeps (if ?b then _ else _) => destruct b
      | |- hkeeps (match ?x with _ => _ end) => destruct x
      | |- hkeeps (bind (bind _ _) _) => apply hkeeps_bind; [|intros ?]
      | |- hkeeps (bind (try_catch _ _) _) => apply hkeeps_bind; [|intros ?]
      | |- hkeeps (let x := _ in _) => cbn zeta
      end ].

Lemma hkeeps_audit scope s id d r x : hkeeps (audit turns scope s id d r x).
Proof using turns_keep. unfold audit. keep. Qed.
Hint Resolve hkeeps_audit : host.
Lemma hkeeps_reject {A} s msg reason x : hkeeps (roster_reject (A:=A) turns s msg reason x).
Proof using turns_keep. unfold roster_reject. keep. Qed.
Lemma hkeeps_outcome {A} (o : outcome exn A) : hkeeps (of_outcome o).
Proof. destruct o; simpl; auto with host. Qed.
Hint Resolve hkeeps_reject hkeeps_outcome : host.
Lemma hkeeps_member has ct g u : hkeeps (isMemberCached turns has ct g u).
Proof using turns_keep. unfold isMemberCached. keep. Qed.
Lemma hkeeps_gateway_target msg s l g ct pid : hkeeps (gateway_target turns msg s l g ct pid).
Proof using turns_keep. unfold gateway_target. keep. Qed.
Lemma hkeeps_authorize g : hkeeps (authorizeDm turns g).
Proof using turns_keep. unfold authorizeDm. keep. Qed.
Hint Resolve hkeeps_member hkeeps_gateway_target hkeeps_authorize : host.
Lemma hkeeps_roster_grant msg s c : hkeeps (roster_grant group_config env turns msg s c).
Proof using turns_keep. unfold roster_grant. keep. Qed.
Lemma hkeeps_destination msg s l g : hkeeps (roster_destination group_config env turns msg s l g).
Proof using turns_keep. unfold roster_destination. keep. Qed.
Lemma hkeeps_membership has msg s l g : hkeeps (roster_membership env turns has msg s l g).
Proof using turns_keep. unfold roster_membership. keep. Qed.
Lemma hkeeps_roster_send msg s c l g d : hkeeps (roster_send env turns msg s c l g d).
Proof using turns_keep. unfold roster_send. keep. Qed.
Hint Resolve hkeeps_roster_grant hkeeps_destination hkeeps_membership hkeeps_roster_send : host.
Lemma hkeeps_roster msg s c : hkeeps (deliverRosterMessage group_config env turns msg s c).
Proof using turns_keep. unfold deliverRosterMessage. keep. Qed.
Lemma hkeeps_route msg s c : hkeeps (route_to_agent DATA_DIR group_config env_max_depth turns msg s c).
Proof using turns_keep.
  unfold route_to_agent. keep. apply hkeeps_bind; [apply hkeeps_run, wkeeps_route|intros ?]. keep.
  apply hkeeps_bind; [apply hkeeps_run, wkeeps_route|intros ?]. keep.
Qed.
Lemma hkeeps_gate msg s ct pid : hkeeps (channel_gate group_config env turns msg s ct pid).
Proof using turns_keep. unfold channel_gate. keep. Qed.
Lemma hkeeps_record msg s c : hkeeps (record_before_send turns msg s c).
Proof using turns_keep. unfold record_before_send. keep. Qed.
Lemma hkeeps_channel msg s c ct pid : hkeeps (channel_send_message DATA_DIR turns msg s c ct pid).
Proof using turns_keep. unfold channel_send_message. keep. Qed.
Hint Resolve hkeeps_roster hkeeps_route hkeeps_gate hkeeps_record hkeeps_channel : host.
Lemma hkeeps_system c : hkeeps (handleSystemAction actionHandlers c session).
Proof using handlers_keep.
  unfold handleSystemAction. destruct (readString _ _ _) as [a|]; [|auto with host].
  destruct (actionHandlers a) as [f|] eqn:Hf; [by eapply handlers_keep|auto with host].
Qed.
Hint Resolve hkeeps_system : host.
Lemma hkeeps_deliverMessage msg :
  hkeeps (deliverMessage DATA_DIR group_config env env_max_depth actionHandlers turns msg session).
Proof using turns_keep handlers_keep. unfold deliverMessage. keep. Qed.
Lemma hkeeps_clear id : hkeeps (clearProgressReaction turns id).
Proof using turns_keep. unfold clearProgressReaction. keep. Qed.
Lemma hkeeps_notify msg : hkeeps (notify_failure turns msg).
Proof using turns_keep. unfold notify_failure. keep. Qed.

Lemma clear_returns id h : (clearProgressReaction turns id h).1 = Ok tt.
Proof.
  unfold clearProgressReaction, bind, db_read, gets. destruct (getReaction id _) as [r|]; [|done].
  destruct (h_adapter h); [done|]. unfold try_catch, bind.
  destruct (adapter_deliver turns _ _ _ _ _ _ _ h) as [[a|e] h1]; done.
Qed.
Lemma notify_returns msg h : (notify_failure turns msg h).1 = Ok tt.
Proof.
  unfold notify_failure, bind, gets. destruct (_ && _); [|done]. unfold try_catch, bind, ret.
  by destruct (adapter_deliver turns _ _ _ _ _ _ _ h) as [[a|e] h1].
Qed.

(** An upsert of the delivered table, run on the host. *)
Lemma run_upsert id fresh f rows h :
  rows_at key (h_world h) = Some rows →
  ∃ h', run (inbound key (upsert_failed id fresh f)) h = (Ok tt, h') ∧
        rows_at key (h_world h') = Some (upserted id fresh f rows).
Proof.
  intros Hr. unfold run, inbound. unfold rows_at in Hr.
  destruct (w_in (h_world h) !! key) as [d|] eqn:Ed; [|done]. injection Hr as <-.
  rewrite upsert_rows. eexists. split; [done|]. unfold rows_at. cbn.
  by rewrite lookup_insert, decide_True by done.
Qed.

(** The delivered rows after a success and after a failure of [msg]. *)
Definition marked (id : string) (rows rows' : list DeliveredRow) : Prop :=
  ∃ r, row_for id rows' = Some r ∧ dl_status r = DDelivered ∧
       ∀ id', id' ≠ id → row_for id' rows' = row_for id' rows.
Definition failed_once (id : string) (rows rows' : list DeliveredRow) : Prop :=
  ∃ r, row_for id rows' = Some r ∧ dl_status r = DFailed ∧
       dl_attempts r = attempts_for id rows + 1 ∧
       (DELIVERY_MAX_ATTEMPTS ≤ dl_attempts r → dl_next_retry_at r = None) ∧
       ∀ id', id' ≠ id → row_for id' rows' = row_for id' rows.

Lemma mark_rows now pid id rows h :
  rows_at key (h_world h) = Some rows → open_for id rows → ∃ rows' h',
    run (inbound key (markDelivered now id pid)) h = (Ok tt, h') ∧
    rows_at key (h_world h') = Some rows' ∧ marked id rows rows'.
Proof.
  intros H0 Ho. unfold markDelivered.
  match goal with |- context [upsert_failed ?i ?fr ?f] =>
    destruct (run_upsert i fr f rows h H0) as (h' & -> & Hr'); exists (upserted i fr f rows), h' end.
  split; [done|]. split; [done|]. eexists. rewrite row_for_upserted by done. split; [reflexivity|].
  split; [by destruct (row_for _ _)|]. intros id' Hne. by apply row_for_upserted_ne.
Qed.

Lemma deliver_row_rows msg rows h r h' :
  rows_at key (h_world h) = Some rows → open_for (mo_id msg) rows →
  deliver_row DATA_DIR group_config env env_max_depth actionHandlers turns msg session h = (r, h') →
  match r with
  | Ok _ => ∃ rows', rows_at key (h_world h') = Some rows' ∧ marked (mo_id msg) rows rows'
  | Throw _ => rows_at key (h_world h') = Some rows
  end.
Proof using turns_keep handlers_keep.
  intros Hr Ho. unfold deliver_row. fold key. destruct (bool_decide _).
  { unfold bind, clock, gets. intros E.
    destruct (mark_rows (t_now (turn_of turns h)) None (mo_id msg) rows h Hr Ho) as (rows' & h1 & E' & ? & ?).
    rewrite E' in E. injection E as <- <-. eauto. }
  unfold bind at 1. pose proof (hkeeps_deliverMessage msg rows h Hr) as Hk.
  destruct (deliverMessage _ _ _ _ _ _ msg session h) as [[pid|e] h1]; cbn in Hk; [|by intros [= <- <-]].
  unfold bind at 1, clock, gets. unfold bind at 1.
  destruct (mark_rows (t_now (turn_of turns h1)) pid (mo_id msg) rows h1 Hk Ho) as (rows' & h2 & -> & Hr2 & Hm).
  unfold bind. assert (hkeeps (try_catch (run (files (clearOutbox (key_dir DATA_DIR key) (mo_id msg))))
    (λ _, ret tt))) as Hc by (apply hkeeps_try; intros; [apply hkeeps_run, wkeeps_files|apply hkeeps_ret]).
  specialize (Hc rows' h2 Hr2). revert Hc.
  destruct (try_catch _ _ h2) as [[u|e] h3] eqn:Et; cbn.
  - intros Hc. destruct (user_facing msg); [|intros [= <- <-]; eauto].
    pose proof (clear_returns (s_id session) h3) as Hok.
    pose proof (hkeeps_clear (s_id session) rows' h3 Hc) as Hc2. intros E. rewrite E in Hok, Hc2.
    cbn in *. subst r. eauto.
  - exfalso. unfold try_catch in Et. by destruct (run _ h2) as [[]].
Qed.

Lemma on_failure_rows msg err rows h :
  rows_at key (h_world h) = Some rows → open_for (mo_id msg) rows →
  ∃ h' rows', on_failure turns msg session err h = (Ok tt, h') ∧
    rows_at key (h_world h') = Some rows' ∧ failed_once (mo_id msg) rows rows'.
Proof using turns_keep.
  intros Hr Ho. unfold on_failure.
  assert (run (in_get key (getDeliveryAttempts (mo_id msg))) h = (Ok (attempts_for (mo_id msg) rows), h)) as Ha.
  { unfold run, in_get, inbound, gets. unfold rows_at in Hr.
    destruct (w_in (h_world h) !! key) as [d|] eqn:Ed; [|done]. injection Hr as Hr. cbn.
    subst rows. rewrite attempts_read by done. unfold set_in. rewrite insert_id by done.
    by destruct h as [[]]. }
  unfold bind at 1. fold key. rewrite Ha. unfold bind at 1, clock, gets.
  assert (∀ now b, (DELIVERY_MAX_ATTEMPTS ≤ attempts_for (mo_id msg) rows + 1 → b = None) →
    ∃ h' rows', run (inbound key (markDeliveryFailed now (mo_id msg) (attempts_for (mo_id msg) rows + 1) b)) h
      = (Ok tt, h') ∧ rows_at key (h_world h') = Some rows' ∧ failed_once (mo_id msg) rows rows') as Hf.
  { intros now b Hb. unfold markDeliveryFailed.
    match goal with |- context [upsert_failed ?i ?fr ?f] =>
      destruct (run_upsert i fr f rows h Hr) as (h' & -> & Hr'); exists h', (upserted i fr f rows) end.
    split; [done|]. split; [done|]. eexists. rewrite row_for_upserted by done. split; [reflexivity|].
    split; [|split; [|split]].
    - destruct (row_for _ _) as [r|] eqn:Er; [exact (Ho r Er)|done].
    - by destruct (row_for _ _).
    - intros Hle. rewrite Hb; [by destruct (row_for _ _)|]. by destruct (row_for _ _).
    - intros id' Hne. by apply row_for_upserted_ne. }
  destruct (_ || _) eqn:Hp.
  - destruct (Hf (t_now (turn_of turns h)) None) as (h1 & rows' & E & Hr1 & Hfail); [done|].
    unfold bind at 1. rewrite E. destruct (user_facing msg); [|by exists h1, rows'].
    unfold bind. pose proof (clear_returns (s_id session) h1) as Hok.
    pose proof (hkeeps_clear (s_id session) rows' h1 Hr1) as Hc.
    destruct (clearProgressReaction turns (s_id session) h1) as [r h2]. cbn in Hok, Hc. subst r.
    pose proof (notify_returns msg h2) as Hok2. pose proof (hkeeps_notify msg rows' h2 Hc) as Hc2.
    destruct (notify_failure turns msg h2) as [r h3]. cbn in Hok2, Hc2. subst r. by exists h3, rows'.
  - apply Hf. apply orb_false_iff in Hp as [_ Hp]. lia.
Qed.

End drain.
