(* ===== verification/RosterProofs.v ===== *)
(** * Delivery: live consent, concrete drains, and the consent of a person

    A roster message without gateway and membership check goes out under the
    grant as it stands at that moment.  The rest of the file runs drains on a
    concrete host: the witnesses of the delivery theorems and what the runs
    show. *)
From S2P Require Import Prelude JsString Json OutboundContract Types Central Permissions DmGrants DmGrantsProofs SessionDb Sessions Destinations Fs Attachments SessionManager AgentRoute Classification Host ProgressStatus Roster Delivery DeliveryProofs DeliveryRetry.

Local Open Scope string_scope.
Local Open Scope Z_scope.
Local Open Scope list_scope.
Local Open Scope prog_scope.

(** ** Live consent *)

Section consent.
Context (group_config : string → outcome exn GroupConfig) (env : RosterEnv) (turns : nat → Turn).

(** A send of a roster message under a grant that is live in [db]. *)
Definition consented_send (db : CentralDb) (session : Session) (msg : MessageOut)
    (content : list (string * json)) (s : Sent) : Prop :=
  ∃ slotLabel g,
    slot_of content "slot" = Some slotLabel ∧
    checkGrantLive db (hostScopeForSession session) slotLabel (sn_at s) = GrantLive g ∧
    sn_channelType s = "feishu" ∧ sn_platformId s = "feishu:p2p:" +:+ g_participant_open_id g ∧
    rosterDmEnabledForGroup group_config env (s_agent_group_id session) db = Ok true ∧
    hasRosterReservation (w_db (sn_world s)) (mo_id msg) = true.

(** C27: A roster message reaches only a person whose consent is live.  With the
    gateway's say and the membership check off, every adapter call of a roster
    message goes, on the feishu channel, to the private chat of the
    participant whose grant holds the slot the message names in the session's
    own scope, and that grant is live at the time of the call: consented,
    neither revoked nor expired nor used up; roster messages are enabled for
    the group, and the send is reserved against the limits. *)
Theorem dm_sent_under_live_consent msg session c h :
  rosterGatewayAuthorityEnabled env = false → rosterVerifyMembershipEnabled env = false →
  sends_at (consented_send (w_db (h_world h)) session msg c)
    (deliverRosterMessage group_config env turns msg session c) h.
Proof.
  intros Hg Hv. unfold deliverRosterMessage. apply sends_at_bind; [apply sends_roster_grant|].
  intros [sl g] h0 (-> & Hen & Hlive & Hc & Hu & Hd & Hslot)%roster_grant_ok.
  apply sends_at_bind; [apply sends_destination|]. intros dest h1 Hdest.
  apply roster_destination_ok in Hdest as (_ & _ & Hdest); [|done..].
  destruct (Hdest Hg) as [-> ->]. apply sends_at_bind; [apply sends_gets|]. intros ad h1 [= <- <-].
  destruct (h_adapter h); [apply sends_reject|]. apply sends_at_bind; [apply sends_membership|].
  intros [] h1. unfold roster_membership. rewrite Hv. intros [= <-].
  unfold roster_send. apply sends_at_bind; [apply sends_clock|]. intros at_ h0 [= <- <-].
  apply sends_at_bind; [apply sends_run|]. intros res h1 (w & Hres & ->)%run_ok. unfold central in Hres.
  destruct (reserveRosterSend _ _ _ _ _ _ _) as [[r|] db] eqn:Er; [|done]. injection Hres as <- <-.
  destruct r as [fresh|reason key]; [|apply sends_reject]. apply sends_at_bind.
  - apply sends_at_try.
    + apply sends_at_deliver. exists sl, g. cbn. rewrite <-Hd. repeat split; try done. by eapply reserve_marks.
    + intros []; try apply sends_throw; (apply sends_bind; [destruct fresh|]; auto with host).
  - intros id h2 _. apply sends_bind; [apply sends_audit|auto with host].
Qed.
End consent.

(** ** A concrete host *)

(** Agent [a] with a chat and the private chats of Ada and Eve, of which Ada
    consented in the scope of session [s1] for slot [ada]. *)
Definition ada_grant : DmGrantRow :=
  mkDmGrantRow "g1" "s1" "a" "ada" "ou_ada" "feishu:p2p:ou_ada" "feishu" DirectedCard "m0" None
    (Some "feishu:oc_1") 0 None None 5 0.
Definition chats : list MessagingGroup :=
  [mkMessagingGroup "m" "feishu" "feishu:oc_1" None true public None 0;
   mkMessagingGroup "pa" "feishu" "feishu:p2p:ou_ada" None false Types.strict None 0;
   mkMessagingGroup "pe" "feishu" "feishu:p2p:ou_eve" None false Types.strict None 0].
Definition host_db : CentralDb :=
  set_dm_grants [ada_grant]
    (set_agent_groups [mkAgentGroup "a" "A" "a" None 0 None None] (set_messaging_groups chats emptyDb)).
Definition s1 : Session := plain_session "s1" "a" (Some "m") None None None.
Definition host_world (db : CentralDb) : World :=
  mkWorld db {[ ("a", "s1") := emptyInbound ]} {[ ("a", "s1") := emptyOutbound ]} {[ ["data"] := NDir ]}.
Definition host_of (w : World) : Host := mkHost w 0 (AdapterSet true) ∅ ∅ ∅ ∅ [] [] [].
Definition quiet_turn (now : time) (r : reply) (member : option (option bool)) (f : World → World) : Turn :=
  mkTurn now r member (FetchFailed false) None true id (mkDraws "s2" "c2" "x2") f.

(** Roster messages are on, in the root-session mode they ask for. *)
Definition roster_cfg (_ : string) : outcome exn GroupConfig :=
  Ok (mkGroupConfig (Some A2aRootSession) (Some "true") None).
Definition no_env : RosterEnv := mkRosterEnv (λ _, None) (λ _, None).
Definition member_env : RosterEnv :=
  mkRosterEnv (λ k, if bool_decide (k = "ROSTER_VERIFY_MEMBERSHIP") then Some "true" else None) (λ _, None).
Definition no_actions (_ : string) : option (list (string * json) → Session → hostM unit) := None.

Definition out_row (id kind : string) (ct pid : option string) (content : string) : MessageOut :=
  mkMessageOut id 1 None (TIso 0) None None kind pid ct None content None.
Definition hi (id pid : string) : MessageOut :=
  out_row id "chat" (Some "feishu") (Some pid) (JSON_stringify (JObj [("text", JStr "hi")])).
Definition roster_hi (id : string) : MessageOut :=
  out_row id "roster" None None
    (JSON_stringify (JObj [("slot", JStr "ada"); ("text", JStr "hi")])).

Definition drain (cfg : string → outcome exn GroupConfig) (env : RosterEnv) (turns : nat → Turn)
    (rows : list MessageOut) (h : Host) : outcome failure unit * Host :=
  drain_rows ["data"] cfg env None no_actions turns s1 rows h.
(** Every send answers. *)
Definition calm (_ : nat) : Turn := quiet_turn 1000 (Replied (Some "om")) None id.
Definition sent_to (h : Host) : list string := map sn_platformId (h_sent h).

Example drain_ex :
  let h := (drain roster_cfg no_env calm [hi "o1" "feishu:oc_1"; roster_hi "o2"; hi "o3" "feishu:p2p:ou_eve";
                                          hi "o4" "feishu:oc_1"] (host_of (host_world host_db))).2 in
  sent_to h = ["feishu:oc_1"; "feishu:p2p:ou_ada"].
Proof. vm_compute. reflexivity. Qed.

Lemma no_actions_send a f : no_actions a = Some f → ∀ c s, sends (λ _, False) (f c s).
Proof. done. Qed.

(** Of the four rows above, two go out, each where its session may send. *)
Example only_authorized_sends_witness :
  ∃ l, h_sent (drain roster_cfg no_env calm [hi "o1" "feishu:oc_1"; roster_hi "o2"] (host_of (host_world host_db))).2 = l ∧
    length l = 2%nat ∧
    Forall (λ s, ∃ msg, msg ∈ [hi "o1" "feishu:oc_1"; roster_hi "o2"] ∧
                        row_sends roster_cfg no_env (λ _, False) s1 msg s) l.
Proof.
  destruct (only_authorized_sends ["data"] roster_cfg no_env None no_actions calm (λ _, False) no_actions_send
    s1 [hi "o1" "feishu:oc_1"; roster_hi "o2"] (host_of (host_world host_db))) as (l & Hl & HF).
  exists l. split; [exact Hl|]. split; [|exact HF].
  apply (f_equal (@length Sent)) in Hl. vm_compute in Hl. symmetry. exact Hl.
Defined.
Example dm_sent_under_live_consent_witness :
  ∃ l, h_sent (deliverRosterMessage roster_cfg no_env calm (roster_hi "o1") s1
                 [("slot", JStr "ada"); ("text", JStr "hi")] (host_of (host_world host_db))).2 = l ∧
    length l = 1%nat ∧
    Forall (consented_send roster_cfg no_env host_db s1 (roster_hi "o1")
              [("slot", JStr "ada"); ("text", JStr "hi")]) l.
Proof.
  destruct (dm_sent_under_live_consent roster_cfg no_env calm (roster_hi "o1") s1
    [("slot", JStr "ada"); ("text", JStr "hi")] (host_of (host_world host_db)) eq_refl eq_refl) as (l & Hl & HF).
  exists l. split; [exact Hl|]. split; [|exact HF].
  apply (f_equal (@length Sent)) in Hl. vm_compute in Hl. symmetry. exact Hl.
Defined.

(** The fourth row of these is never tried: the third one failed. *)
Definition burst : list MessageOut :=
  [hi "o1" "feishu:oc_1"; roster_hi "o2"; hi "o3" "feishu:p2p:ou_eve"; hi "o4" "feishu:oc_1"].

(** ** What the runs show *)

(** The note that a reply is given up goes past the access check.  A row
    of the container whose content is no JSON is given up at the first
    attempt, and the note about it goes to the platform id the row names: here
    to a person the agent has no destination for and who never consented, to
    whom the same session may send nothing else. *)
Theorem failure_note_bypasses_acl :
  let bad := out_row "o1" "chat" (Some "feishu") (Some "feishu:p2p:ou_eve") "{" in
  let h0 := host_of (host_world host_db) in
  let h := (drain roster_cfg no_env calm [bad] h0).2 in
  map (λ s, (sn_platformId s, sn_content s)) (h_sent h) = [("feishu:p2p:ou_eve", failure_notice)] ∧
  h_sent (drain roster_cfg no_env calm [hi "o1" "feishu:p2p:ou_eve"] h0).2 = [].
Proof. vm_compute. split; reflexivity. Qed.

(** Ada withdraws while the host asks whether she is still in the group. *)
Definition ada_leaves (w : World) : World :=
  mkWorld (revokeParticipantInScope 1500 "s1" "ou_ada" (w_db w)).2 (w_in w) (w_out w) (w_fs w).
Definition slow_then_leaves (n : nat) : Turn :=
  match n with
  | 0%nat => quiet_turn 1000 (Replied None) (Some (Some true)) id
  | 1%nat => quiet_turn 1100 TimedOut None id
  | 2%nat => quiet_turn 60000 (Replied None) (Some (Some true)) ada_leaves
  | _ => quiet_turn 60100 (Replied (Some "om")) None id
  end.

(** A retry can send after the consent is withdrawn.  The first attempt of
    a roster message times out, which leaves its reservation standing; on the
    retry the participant withdraws while the membership check waits for its
    answer.  The standing reservation is taken as it is and the message goes
    out although the grant is revoked; a message without one is refused at the
    same point. *)
Theorem withdrawn_consent_still_sends :
  let h0 := host_of (host_world host_db) in
  let h1 := (drain roster_cfg member_env slow_then_leaves [roster_hi "o1"] h0).2 in
  let h2 := (drain roster_cfg member_env slow_then_leaves [roster_hi "o1"] h1).2 in
  (∃ s, last (h_sent h2) = Some s ∧ sn_platformId s = "feishu:p2p:ou_ada" ∧
        checkGrantLive (w_db (sn_world s)) "s1" "ada" (sn_at s) = GrantDead "revoked") ∧
  length (h_sent h1) = 1%nat ∧ length (h_sent h2) = 2%nat ∧
  h_sent (drain roster_cfg member_env slow_then_leaves [roster_hi "o2"] h1).2 = h_sent h1.
Proof.
  cbv zeta. split; [|vm_compute; split_and!; reflexivity].
  eexists. split; [vm_compute; reflexivity|]. vm_compute. split; reflexivity.
Qed.

(** ** Consent and invitations

    A grant is only ever minted for the person who acted, an invitation goes to
    the session's own chat and can be accepted by the invited person alone,
    and, with the platform ids the router stores, no invitation is sent at
    all. *)

(** ** Minting *)

(** The grant is the one [a] asks for, open again. *)
Definition granted (a : InsertDmGrantArgs) (g : DmGrantRow) : Prop :=
  g_scope_id g = ia_scopeId a ∧ g_slot_label g = ia_slotLabel a ∧
  g_participant_open_id g = ia_participantOpenId a ∧ g_dm_platform_id g = ia_dmPlatformId a ∧
  g_consent_source g = ia_consentSource a ∧ g_revoked_at g = None ∧ g_expires_at g = ia_expiresAt a.

Lemma audit_grants now k o ag u d db : dm_grants (recordEnterpriseAudit now k o ag u d db).2 = dm_grants db.
Proof. done. Qed.

Lemma insert_granted now id a db g :
  g ∈ dm_grants (insertDmGrant now id a db).2 → g ∈ dm_grants db ∨ granted a g.
Proof.
  intros Hg. assert (g ∈ dm_grants (upsert_grant now id a db).2) as Hu.
  { revert Hg. unfold insertDmGrant, bind at 1, try_catch, bind at 1.
    destruct (upsert_grant now id a db) as [[[]|e] db1]; cbn; [|done].
    unfold bind at 1, query, gets. destruct (getBySlot db1 _ _) as [r|]; [|done].
    by destruct (negb _). }
  revert Hu. unfold upsert_grant, bind, query, gets.
  destruct (getBySlot db (ia_scopeId a) (ia_slotLabel a)) as [r|] eqn:Hr.
  - intros (r' & Hin & ->)%elem_of_sql_update. destruct (_ && _) eqn:Hp; [right|by left].
    apply andb_true_iff in Hp as [Hs _]. unfold at_slot in Hs. to_prop. by repeat split.
  - destruct (sql_exists _ _); [by left|]. intros [Hin| ->%list_elem_of_singleton]%elem_of_app; [by left|].
    right. by repeat split.
Qed.

(** A person's own identity: trimmed, and the private chat that goes with it. *)
Definition own_grant (optIn : RosterOptInPayload) (source : DmConsentSource) (openId : string)
    (g : DmGrantRow) : Prop :=
  g_scope_id g = oi_scopeId optIn ∧ g_slot_label g = oi_slotLabel optIn ∧
  g_participant_open_id g = trim openId ∧ startsWith (trim openId) "ou_" = true ∧
  g_dm_platform_id g = "feishu:p2p:" +:+ trim openId ∧ g_consent_source g = source ∧ g_revoked_at g = None.

Section consent.
Context (stamp_of : string → stamp).

Lemma ensure_grants now pid db : dm_grants (ensureP2pMessagingGroup now pid db).2 = dm_grants db.
Proof.
  unfold ensureP2pMessagingGroup, createMessagingGroup, bind, query, gets, throw, modify.
  destruct (getMessagingGroupByPlatform _ _ db); [done|]. by destruct (sql_exists _ _).
Qed.

Lemma mint_own now id optIn openId target source inb ou op db g :
  parseConsentTarget (Some openId) = Some target →
  g ∈ dm_grants (mintGrant stamp_of now id optIn target source inb ou op db).2 →
  g ∈ dm_grants db ∨ own_grant optIn source openId g.
Proof.
  unfold parseConsentTarget. change (default "" (Some openId)) with openId. destruct (bool_decide _); [done|].
  destruct (startsWith (trim openId) "ou_") eqn:Hou; [|done]. cbn [negb].
  destruct (negb _); [done|]. destruct (negb _); [done|]. intros [= <-]. unfold mintGrant, bind at 1.
  pose proof (ensure_grants now ("feishu:p2p:" +:+ trim openId) db) as He. cbn [ct_dmPlatformId].
  destruct (ensureP2pMessagingGroup _ _ db) as [[u|e] db1]; cbn [snd] in He; [|cbn; rewrite He; tauto].
  rewrite <-He. intros Hg. match type of Hg with context [insertDmGrant now id ?a] =>
    destruct (insert_granted now id a db1 g) as [H|(H1&H2&H3&H4&H5&H6&_)];
      [|by left|right; cbn in *; by repeat split] end.
  revert Hg. unfold bind. destruct (insertDmGrant now id _ db1) as [[[gid|]|e] db2]; done.
Qed.

(** Consent is given for oneself only.  Whatever the two consent captures
    are called with, each grant there is afterwards was there before or is for
    the very person who acted: the operator of the card, who is the person the
    card was meant for, or the sender of a private message; it sits in the
    scope and the slot of the opt-in and sends to that person's own private
    chat.  A message in a group and a card that names nobody change nothing. *)
Theorem consent_only_for_oneself now id optIn who inb ou op db g :
  (∀ isGroup, g ∈ dm_grants (captureP2pIngressConsent stamp_of now id optIn who inb isGroup ou op db).2 →
     g ∈ dm_grants db ∨
     isGroup = false ∧ ∃ sender, who = Some sender ∧ own_grant optIn P2pIngress sender g) ∧
  (g ∈ dm_grants (captureDirectedCardConsent stamp_of now id optIn who inb ou op db).2 →
     g ∈ dm_grants db ∨
     ∃ operator, who = Some operator ∧ oi_expectedUserId optIn = Some operator ∧
                 own_grant optIn DirectedCard operator g).
Proof.
  split.
  - intros isGroup. unfold captureP2pIngressConsent. destruct isGroup; [by left|].
    destruct who as [sender|]; [|by left].
    destruct (parseConsentTarget (Some sender)) as [target|] eqn:Ht; [|by left].
    intros [H|H]%(mint_own _ _ _ sender); [by left| |done]. right. eauto.
  - unfold captureDirectedCardConsent. destruct (truthy (oi_expectedUserId optIn)) eqn:Hx; [|by left].
    cbn [negb]. unfold cardActionOperatorAllowed. rewrite Hx. cbn [negb].
    destruct (bool_decide (default "" who = "")) eqn:Hne; [by left|].
    destruct (bool_decide (Some (default "" who) = _)) eqn:Hop; [|by left]. cbn [negb andb]. to_prop.
    destruct who as [operator|]; [|by destruct Hne].
    change (default "" (Some operator)) with operator in *.
    destruct (parseConsentTarget (Some operator)) as [target|] eqn:Ht; [|by left].
    intros [H|H]%(mint_own _ _ _ operator); [by left| |done]. right. eauto.
Qed.
End consent.

(** ** Invitations *)

Section invite.
Context (group_config : string → outcome exn GroupConfig) (env : RosterEnv) (turns : nat → Turn).

Lemma sends_invite_reject P session reason p s d :
  sends P (invite_reject turns session reason p s d).
Proof. unfold invite_reject. auto with host. Qed.

(** An adapter call of an invitation, decided in [db]. *)
Definition invite_sent (db : CentralDb) (content : list (string * json)) (session : Session) (s : Sent)
    : Prop :=
  originGroupForSession session db = Some (sn_channelType s, sn_platformId s) ∧
  sn_kind s = "roster.invite" ∧
  rosterDmEnabledForGroup group_config env (s_agent_group_id session) db = Ok true ∧
  ∃ target slotLabel,
    parseConsentTarget (Some (trim (default "" (jstring (obj_get "member" content))))) = Some target ∧
    getByParticipant db (hostScopeForSession session) (ct_participantOpenId target) = None ∧
    slot_of content "slotLabel" = Some slotLabel ∧
    sn_content s = JSON_stringify (invite_card (sn_at s) session (ct_participantOpenId target) slotLabel).

(** The handler, up to the membership question: [P] holds of every call if it
    holds of those made after the answer. *)
Lemma sends_invite P content session h :
  (∀ origin target slotLabel has h1,
     originGroupForSession session (w_db (h_world h)) = Some origin →
     rosterDmEnabledForGroup group_config env (s_agent_group_id session) (w_db (h_world h)) = Ok true →
     parseConsentTarget (Some (trim (default "" (jstring (obj_get "member" content))))) = Some target →
     getByParticipant (w_db (h_world h)) (hostScopeForSession session) (ct_participantOpenId target) = None →
     slot_of content "slotLabel" = Some slotLabel →
     ask_member turns has h = (Ok (Some true), h1) →
     ∀ h2, sends_at P (send_invite env turns session origin (ct_participantOpenId target) slotLabel) h2) →
  sends_at P (handleRosterInvite group_config env turns content session) h.
Proof.
  intros Hs. unfold handleRosterInvite. apply sends_at_bind; [apply sends_db_read|]. intros en h0 [= <- <-].
  apply sends_at_bind; [apply sends_of_outcome|]. intros b h0 Hb.
  destruct (rosterDmEnabledForGroup _ _ _ _) as [en|e] eqn:Hen; [|done]. injection Hb as <- <-.
  destruct en; [cbn [negb]|apply sends_invite_reject]. apply sends_at_bind; [apply sends_db_read|].
  intros root h0 [= <- <-]. apply sends_at_bind; [apply sends_of_outcome|]. intros b h0 Hb.
  assert (h0 = h) as ->. { by destruct (isRootSessionModeForRosterDm _ _ _); [injection Hb as _ <-|]. }
  destruct (negb b); [apply sends_invite_reject|]. apply sends_at_bind; [apply sends_db_read|].
  intros origin h0 [= <- <-]. destruct (originGroupForSession _ _) as [origin|] eqn:Ho; [|apply sends_invite_reject].
  cbv zeta. destruct (parseConsentTarget _) as [target|] eqn:Ht; [|apply sends_invite_reject].
  destruct (slot_of content "slotLabel") as [sl|] eqn:Hsl; [|apply sends_invite_reject].
  apply sends_at_bind; [apply sends_db_read|]. intros ex h0 [= <- <-].
  destruct (getByParticipant _ _ _) eqn:Hg; [apply sends_invite_reject|].
  apply sends_at_bind; [apply sends_gets|]. intros ad h0 [= <- <-].
  destruct (h_adapter h) as [|has]; [apply sends_invite_reject|]. apply sends_at_bind.
  { unfold ask_member. destruct has; auto with host; apply sends_await || apply sends_ret. }
  intros m h1 Hm. destruct (bool_decide (m = Some true)) eqn:Hmt; [to_prop; cbn [negb]|apply sends_invite_reject].
  apply sends_at_bind; [apply sends_clock|]. intros now h2 _. apply sends_at_bind; [apply sends_run|].
  intros rate h3 _. destruct rate; [apply (Hs origin target sl has h1); try done; by rewrite Hm, Hmt|apply sends_invite_reject].
Qed.

(** An invitation goes to the session's own chat and nowhere else.  Every
    adapter call of the invitation handler goes to the group chat the session
    is wired to; it is a consent card the host composed, for the person the
    container named, who has a well-formed open id and no grant in the scope
    yet, while roster messages are enabled for the group; the container's
    other fields do not reach it. *)
Theorem invite_reaches_own_chat content session h :
  sends_at (invite_sent (w_db (h_world h)) content session)
    (handleRosterInvite group_config env turns content session) h.
Proof.
  apply sends_invite. intros origin target sl has h1 Ho Hen Ht Hg Hsl _ h2. unfold send_invite.
  apply sends_at_bind; [apply sends_clock|]. intros now h3 [= <- <-].
  apply sends_at_bind; [apply sends_run|]. intros n h3 (w & _ & ->)%run_ok. apply sends_at_bind.
  - apply sends_at_try; [|auto with host]. apply sends_at_bind; [|auto with host; intros; apply sends_ret].
    apply sends_at_deliver. unfold invite_sent. cbn. destruct origin. split_and!; try done. by exists target, sl.
  - intros [] h3 _; cbn [negb]; [|apply sends_ret]. apply sends_bind; auto with host.
Qed.

(** The adapter answers [undefined] to a question it refuses to ask. *)
Definition refuses_malformed (origin : option (string * string)) (h : Host) : Prop :=
  ∀ ct pid u, origin = Some (ct, pid) → member_query pid u = None →
    t_member (turn_of turns h) = Some None.

Lemma doubled_prefix chat u : member_query ("feishu:" +:+ "feishu:" +:+ chat) u = None.
Proof. unfold member_query. by destruct (negb _). Qed.

(** No invitation is ever sent.  The router stores a Feishu group under
    [feishu:] and the chat id, and the invitation handler puts the channel
    type in front of that once more, so the membership question names no
    group the adapter accepts; it answers [undefined], and every invitation
    of a session in such a group is refused, also for its members. *)
Theorem invites_never_sent content session h mg chat mid :
  s_messaging_group_id session = Some mid →
  getMessagingGroup mid (w_db (h_world h)) = Some mg →
  Some (mg_platform_id mg) = normalizeFeishuPlatformId chat false None →
  refuses_malformed (originGroupForSession session (w_db (h_world h))) h →
  sends_at (λ _, False) (handleRosterInvite group_config env turns content session) h.
Proof.
  intros Hmid Hmg Hpid Hr. apply sends_invite. intros origin target sl has h1 Ho _ Ht _ _ Hask. exfalso.
  assert (∃ ct, origin = (ct, "feishu:" +:+ "feishu:" +:+ chat)) as (ct & ->).
  { unfold originGroupForSession in Ho. rewrite Hmid in Ho.
    destruct (negb _); [done|]. change (default "" (Some mid)) with mid in Ho. rewrite Hmg in Ho.
    destruct (_ && _) eqn:Hc; [|done]. to_prop. injection Hpid as Hpid. injection Ho as <-.
    exists "feishu". rewrite Hpid. by match goal with H : mg_channel_type mg = _ |- _ => rewrite H end. }
  specialize (Hr _ _ "" Ho (doubled_prefix chat "")). unfold ask_member in Hask. destruct has; [|done].
  unfold await in Hask. rewrite Hr in Hask. done.
Qed.
End invite.

(** Ada is a member, and roster messages are enabled: her invitation is refused
    all the same. *)
Definition eager (_ : nat) : Turn := quiet_turn 1000 (Replied (Some "om")) (Some None) id.
Definition invite_ada : list (string * json) :=
  [("action", JStr "roster.invite"); ("member", JStr "ou_new"); ("slotLabel", JStr "new")].
Example invites_never_sent_witness :
  let r := handleRosterInvite roster_cfg no_env eager invite_ada s1 (host_of (host_world host_db)) in
  map (λ a, da_reason (da_entry a)) (dm_audit (w_db (h_world r.2))) = [Some "not_member"] ∧
  sends_at (λ _, False) (handleRosterInvite roster_cfg no_env eager invite_ada s1)
    (host_of (host_world host_db)).
Proof.
  split; [vm_compute; reflexivity|].
  apply (invites_never_sent roster_cfg no_env eager invite_ada s1 (host_of (host_world host_db))
           (mkMessagingGroup "m" "feishu" "feishu:oc_1" None true public None 0) "oc_1" "m"); try reflexivity.
  intros ct pid u _ _. reflexivity.
Defined.
