(* ===== verification/Sha.v ===== *)
(** * SHA-1, as [createHash('sha1')] computes it

    Words are integers in [0, 2^32), with the wrap-around written out. *)
From Stdlib Require Import Ascii.
From S2P Require Import Prelude JsString.

Local Open Scope Z_scope.
Local Open Scope list_scope.

Definition w32 (x : Z) : Z := Z.land x 4294967295.
Definition rol (n x : Z) : Z := w32 (Z.lor (Z.shiftl x n) (Z.shiftr x (32 - n))).
Definition not32 (x : Z) : Z := Z.lxor x 4294967295.

Definition byte_codes (s : string) : list Z :=
  map (λ c, Z.of_nat (nat_of_ascii c)) (String.list_ascii_of_string s).

(** The big-endian bytes of [x], [n] of them. *)
Fixpoint be_bytes (n : nat) (x : Z) : list Z :=
  match n with O => [] | S n' => be_bytes n' (Z.shiftr x 8) ++ [Z.land x 255] end.

(** The message, one bit, zeros, and the length in bits. *)
Definition padded (m : list Z) : list Z :=
  let zeros := Z.to_nat ((55 - Z.of_nat (length m)) mod 64) in
  m ++ [128] ++ repeat 0 zeros ++ be_bytes 8 (8 * Z.of_nat (length m)).

Fixpoint words (l : list Z) : list Z :=
  match l with
  | a :: b :: c :: d :: l' => (((a * 256 + b) * 256 + c) * 256 + d) :: words l'
  | _ => []
  end.
Fixpoint blocks (fuel : nat) (l : list Z) : list (list Z) :=
  match fuel, l with
  | S fuel', _ :: _ => take 16 l :: blocks fuel' (drop 16 l)
  | _, _ => []
  end.

(** The schedule, its latest word first. *)
Fixpoint schedule (n : nat) (ws : list Z) : list Z :=
  match n with
  | O => ws
  | S n' => schedule n'
      (rol 1 (Z.lxor (Z.lxor (nth 2 ws 0) (nth 7 ws 0)) (Z.lxor (nth 13 ws 0) (nth 15 ws 0))) :: ws)
  end.

Record chain := mkChain { h0 : Z; h1 : Z; h2 : Z; h3 : Z; h4 : Z }.

(** The mixing function and the constant of round [t]. *)
Definition mix (t : Z) (b c d : Z) : Z :=
  if t <? 20 then Z.lor (Z.land b c) (Z.land (not32 b) d)
  else if t <? 40 then Z.lxor b (Z.lxor c d)
  else if t <? 60 then Z.lor (Z.land b c) (Z.lor (Z.land b d) (Z.land c d))
  else Z.lxor b (Z.lxor c d).
Definition konst (t : Z) : Z :=
  if t <? 20 then 1518500249 else if t <? 40 then 1859775393
  else if t <? 60 then 2400959708 else 3395469782.

Definition round (s : chain) (tw : Z * Z) : chain :=
  let '(t, w) := tw in
  mkChain (w32 (rol 5 (h0 s) + mix t (h1 s) (h2 s) (h3 s) + h4 s + konst t + w))
    (h0 s) (rol 30 (h1 s)) (h2 s) (h3 s).
Definition compress (s : chain) (block : list Z) : chain :=
  let ws := rev (schedule 64 (rev block)) in
  let r := fold_left round (combine (map Z.of_nat (seq 0 80)) ws) s in
  mkChain (w32 (h0 s + h0 r)) (w32 (h1 s + h1 r)) (w32 (h2 s + h2 r)) (w32 (h3 s + h3 r))
    (w32 (h4 s + h4 r)).

Definition hex_char (n : Z) : ascii :=
  ascii_of_nat (Z.to_nat (if n <? 10 then 48 + n else 87 + n)).
Fixpoint hex (l : list Z) : string :=
  match l with
  | [] => EmptyString
  | b :: l' => String (hex_char (b / 16)) (String (hex_char (b mod 16)) (hex l'))
  end.

(** [createHash('sha1').update(s).digest('hex')] *)
Definition sha1_hex (s : string) : string :=
  let ws := words (padded (byte_codes s)) in
  let r := fold_left compress (blocks (length ws) ws)
             (mkChain 1732584193 4023233417 2562383102 271733878 3285377520) in
  hex (flat_map (be_bytes 4) [h0 r; h1 r; h2 r; h3 r; h4 r]).

Example sha1_abc : sha1_hex "abc" = "a9993e364706816aba3e25717850c26c9cd0d89d"%string.
Proof. vm_compute. reflexivity. Qed.
Example sha1_two_blocks :
  sha1_hex "abcdbcdecdefdefgefghfghighijhijkijkljklmklmnlmnomnopnopq" =
  "84983e441c3bd26ebaae4aa1f95129e5e54670f1"%string.
Proof. vm_compute. reflexivity. Qed.

(** ** SHA-256 and HMAC-SHA256, as [node:crypto] computes them

    Words are integers in [0, 2^32).  The padding and the blocks are those of
    SHA-1. *)

Definition ror (n x : Z) : Z := w32 (Z.lor (Z.shiftr x n) (Z.shiftl x (32 - n))).
Definition xor3 (a b c : Z) : Z := Z.lxor a (Z.lxor b c).

(** The first 32 bits of the fractional parts of the cube roots of the first 64
    primes. *)
Definition round_constants : list Z :=
  [1116352408; 1899447441; 3049323471; 3921009573; 961987163; 1508970993; 2453635748; 2870763221;
   3624381080; 310598401; 607225278; 1426881987; 1925078388; 2162078206; 2614888103; 3248222580;
   3835390401; 4022224774; 264347078; 604807628; 770255983; 1249150122; 1555081692; 1996064986;
   2554220882; 2821834349; 2952996808; 3210313671; 3336571891; 3584528711; 113926993; 338241895;
   666307205; 773529912; 1294757372; 1396182291; 1695183700; 1986661051; 2177026350; 2456956037;
   2730485921; 2820302411; 3259730800; 3345764771; 3516065817; 3600352804; 4094571909; 275423344;
   430227734; 506948616; 659060556; 883997877; 958139571; 1322822218; 1537002063; 1747873779;
   1955562222; 2024104815; 2227730452; 2361852424; 2428436474; 2756734187; 3204031479; 3329325298].

Definition nthz (i : nat) (ws : list Z) : Z := nth i ws 0.

(** The schedule, its latest word first. *)
Fixpoint schedule256 (n : nat) (ws : list Z) : list Z :=
  match n with
  | O => ws
  | S n' =>
      let s0 := let x := nthz 14 ws in xor3 (ror 7 x) (ror 18 x) (Z.shiftr x 3) in
      let s1 := let x := nthz 1 ws in xor3 (ror 17 x) (ror 19 x) (Z.shiftr x 10) in
      schedule256 n' (w32 (nthz 15 ws + s0 + nthz 6 ws + s1) :: ws)
  end.

(** The eight words of the state, first to last. *)
Definition round256 (st : list Z) (kw : Z * Z) : list Z :=
  match st with
  | [a; b; c; d; e; f; g; h] =>
      let s1 := xor3 (ror 6 e) (ror 11 e) (ror 25 e) in
      let ch := Z.lxor (Z.land e f) (Z.land (not32 e) g) in
      let t1 := h + s1 + ch + kw.1 + kw.2 in
      let s0 := xor3 (ror 2 a) (ror 13 a) (ror 22 a) in
      let maj := xor3 (Z.land a b) (Z.land a c) (Z.land b c) in
      [w32 (t1 + s0 + maj); a; b; c; w32 (d + t1); e; f; g]
  | _ => st
  end.
Definition compress256 (st block : list Z) : list Z :=
  let ws := rev (schedule256 48 (rev block)) in
  zip_with (λ x y, w32 (x + y)) st (fold_left round256 (combine round_constants ws) st).

Definition sha256_bytes (m : list Z) : list Z :=
  let ws := words (padded m) in
  flat_map (be_bytes 4)
    (fold_left compress256 (blocks (length ws) ws)
       [1779033703; 3144134277; 1013904242; 2773480762; 1359893119; 2600822924; 528734635; 1541459225]).

(** [createHash('sha256').update(s).digest('hex')] *)
Definition sha256_hex (s : string) : string := hex (sha256_bytes (byte_codes s)).

(** [createHmac('sha256', key).update(s).digest('hex')] *)
Definition hmac_sha256_hex (key s : string) : string :=
  let k := byte_codes key in
  let k := if (length k <=? 64)%nat then k else sha256_bytes k in
  let k := k ++ repeat 0 (64 - length k) in
  hex (sha256_bytes (map (Z.lxor 92) k ++ sha256_bytes (map (Z.lxor 54) k ++ byte_codes s))).

Example sha256_abc :
  sha256_hex "abc" = "ba7816bf8f01cfea414140de5dae2223b00361a396177a9cb410ff61f20015ad"%string.
Proof. vm_compute. reflexivity. Qed.
Example sha256_two_blocks :
  sha256_hex "abcdbcdecdefdefgefghfghighijhijkijkljklmklmnlmnomnopnopq" =
  "248d6a61d20638b8e5c026930c3e6039a33ce45964ff2167f6ecedd419db06c1"%string.
Proof. vm_compute. reflexivity. Qed.
Example hmac_rfc4231 :
  hmac_sha256_hex "Jefe" "what do ya want for nothing?" =
  "5bdcc146bf60754e6a042426089575c75a003f089d2739839dec58b964ec3843"%string.
Proof. vm_compute. reflexivity. Qed.
