(* ===== verification/Autowire.v ===== *)
(** * Wiring of new chats to the front desk (src/enterprise-autowire.ts)

    A chat nobody wired is connected to the front desk, or to an agent of its
    own, when the deployment says so.  The whole module is synchronous. *)
From S2P Require Import Prelude JsString Json Types Events Central Permissions SessionDb Sessions Destinations Fs SessionManager Sha.
From Stdlib Require Import Ascii.

Local Open Scope string_scope.
Local Open Scope Z_scope.
Local Open Scope list_scope.
Local Open Scope prog_scope.

(** ** Configuration *)

(*@ src/src/enterprise-autowire.ts 39-54 EnterpriseAutowireConfig *)
Record EnterpriseAutowireConfig := mkAutowireConfig {
  aw_frontdeskFolder : string;
  aw_autoWireChannels : list string;
  aw_autoWireP2p : bool;
  aw_autoWireGroups : bool;
  aw_groupSessionMode : SessionMode;
  aw_groupStrategy : string;
  aw_allowPolicyDowngrade : bool }.

(*@ src/src/enterprise-autowire.ts 64-70 parseBoolean *)
Definition parseBoolean (value : option string) (fallback : bool) : bool :=
  if negb (truthy value) then fallback
  else
    let normalized := toLowerCase (trim (default "" value)) in
    if bool_decide (normalized ∈ ["1"; "true"; "yes"; "on"]) then true
    else if bool_decide (normalized ∈ ["0"; "false"; "no"; "off"]) then false
    else fallback.

(*@ src/src/enterprise-autowire.ts 72-78 parseChannelSet *)
Definition parseChannelSet (value : option string) : list string :=
  List.filter (λ part, negb (bool_decide (part = "")))
    (map (λ part, toLowerCase (trim part)) (split_on "," (default "" (js_or value (Some "feishu"))))).

(*@ src/src/enterprise-autowire.ts 80-93 parseGroupSessionMode *)
Definition parseGroupSessionMode (value : option string) : SessionMode :=
  match option_map trim value with
  | Some "shared" => SMshared
  | Some "per-thread" => SMper_thread
  | Some "per-user-per-thread" => SMper_user_per_thread
  | _ => SMper_user
  end.

Definition mode_name (m : SessionMode) : string :=
  match m with
  | SMshared => "shared" | SMper_thread => "per-thread" | SMagent_shared => "agent-shared"
  | SMper_user => "per-user" | SMper_user_per_thread => "per-user-per-thread"
  end.
Definition engage_name (m : EngageMode) : string :=
  match m with
  | EngagePattern => "pattern" | EngageMention => "mention" | EngageMentionSticky => "mention-sticky"
  end.
Definition policy_text (p : UnknownSenderPolicy) : string :=
  match p with strict => "strict" | request_approval => "request_approval" | public => "public" end.

(*@ src/src/enterprise-autowire.ts 151-158 slugifyPlatformId *)
Definition slugifyPlatformId (platformId : string) : string :=
  let s := dash_runs false (toLowerCase platformId) in
  let s := rev_string (strip_dashes (rev_string (strip_dashes s) "")) "" in
  if bool_decide (s = "") then "group" else s.

(*@ src/src/enterprise-autowire.ts 172-175 perGroupAgentFolder *)
Definition perGroupAgentFolder (frontdeskFolder platformId : string) : string :=
  frontdeskFolder +:+ "-g-" +:+ slugifyPlatformId platformId +:+ "-" +:+
  take_string 8 (sha1_hex platformId).

(** An operator's strategy; it is synchronous. *)
(*@ src/src/enterprise-autowire.ts 332-336 GroupAgentStrategy *)
Definition GroupAgentStrategy : Type := AgentGroup → MessagingGroup → InboundEvent → wM AgentGroup.

Section autowire.
(** [process.env[key] ?? dotenv[key]] *)
Context (envValue : string → option string).
(** DEFAULT_FRONTDESK_FOLDER of src/branding.ts. *)
Context (DEFAULT_FRONTDESK_FOLDER : string).
Context (GROUPS_DIR : list string).
Context (initGroupFilesystem : AgentGroup → fsM unit).
(** The strategies registered by operators. *)
Context (customStrategies : string → option GroupAgentStrategy).

(*@ src/src/branding.ts 128-131 resolveFrontdeskFolderFromGroups *)
Definition resolveFrontdeskFolderFromGroups (configured : option string) : string :=
  default "" (js_or (option_map trim configured) (Some DEFAULT_FRONTDESK_FOLDER)).

(*@ src/src/enterprise-autowire.ts 95-115 readConfig *)
Definition readConfig : EnterpriseAutowireConfig :=
  mkAutowireConfig
    (resolveFrontdeskFolderFromGroups (envValue "ENTERPRISE_FRONTDESK_FOLDER"))
    (parseChannelSet (envValue "ENTERPRISE_AUTO_WIRE_CHANNELS"))
    (parseBoolean (envValue "ENTERPRISE_AUTO_WIRE_P2P") false)
    (parseBoolean (envValue "ENTERPRISE_AUTO_WIRE_GROUPS") false)
    (parseGroupSessionMode (envValue "ENTERPRISE_AUTO_WIRE_GROUP_SESSION_MODE"))
    (default "" (js_or (option_map trim (envValue "ENTERPRISE_AUTO_WIRE_GROUP_STRATEGY"))
       (Some (if parseBoolean (envValue "ENTERPRISE_AUTO_WIRE_GROUP_ISOLATED") false
              then "per-group" else "shared"))))
    (parseBoolean (envValue "ENTERPRISE_AUTO_WIRE_ALLOW_POLICY_DOWNGRADE") true).

Definition is_group_event (event : InboundEvent) : bool := bool_decide (ev_isGroup event = Some true).

(*@ src/src/enterprise-autowire.ts 117-122 shouldAutowire *)
Definition shouldAutowire (config : EnterpriseAutowireConfig) (event : InboundEvent) : bool :=
  if bool_decide (aw_frontdeskFolder config = "") then false
  else if negb (bool_decide (toLowerCase (ev_channelType event) ∈ aw_autoWireChannels config)) then false
  else if is_group_event event
  then aw_autoWireGroups config && bool_decide (ev_isMention event = Some true)
  else aw_autoWireP2p config.

(** [id] is the generated id. *)
(*@ src/src/enterprise-autowire.ts 124-149 buildAutoWiring *)
Definition buildAutoWiring (now : time) (id : string) (config : EnterpriseAutowireConfig)
    (messagingGroupId agentGroupId : string) (isGroup : bool) : MessagingGroupAgent :=
  mkMessagingGroupAgent id messagingGroupId agentGroupId
    (Some (if isGroup then EngageMentionSticky else EngagePattern))
    (if isGroup then None else Some ".") (Some SenderAll) (Some IgnoredDrop)
    (if isGroup then aw_groupSessionMode config else SMper_user) 100 now.

(** ** A group's own agent *)

(** One edge of the front desk: the clone gets it, and the worker the way back. *)
(*@ src/src/enterprise-autowire.ts 285-320 edge *)
Definition clone_edge (now : time) (clone : AgentGroup) (edge : AgentDestination) : dbM unit :=
  let* named := query (getDestinationByName (ag_id clone) (ad_local_name edge)) in
  match named with
  | Some _ => ret tt
  | None => createDestination (mkAgentDestination (ag_id clone) (ad_local_name edge) TargetAgent
              (ad_target_id edge) now)
  end ;;
  let* back := query (getDestinationByTarget (ad_target_id edge) TargetAgent (ag_id clone)) in
  match back with
  | Some _ => ret tt
  | None =>
      let* name := query (pick_name (ad_target_id edge) (normalizeName (ag_folder clone))) in
      match name with
      | None => throw (Err "out of fuel")
      | Some localName => createDestination
          (mkAgentDestination (ad_target_id edge) localName TargetAgent (ag_id clone) now)
      end
  end.

(*@ src/src/enterprise-autowire.ts 282-321 cloneFrontdeskDelegationEdges *)
Definition cloneFrontdeskDelegationEdges (now : time) (frontdesk clone : AgentGroup) : dbM unit :=
  let* installed := query (λ db, hasTable db "agent_destinations") in
  if negb installed then ret tt
  else
    let* edges := query (getDestinations (ag_id frontdesk)) in
    for_each edges (λ edge,
      if negb (bool_decide (ad_target_type edge = TargetAgent)) ||
         bool_decide (ad_target_id edge = ag_id frontdesk) then ret tt
      else try_catch (clone_edge now clone edge) (λ _, ret tt)).

Definition group_path (folder : string) (rest : list string) : list string :=
  GROUPS_DIR ++ folder :: rest.

(** The prompts and the configuration of the front desk, the prompts first. *)
(*@ src/src/enterprise-autowire.ts 235-246 container_json *)
Definition clone_config (from to : string) : fsM unit :=
  try_catch
    (let* prompts := gets (λ fs, existsSync fs (group_path from ["prompts"])) in
     (if prompts : bool then cp_r (group_path from ["prompts"]) (group_path to ["prompts"]) else ret tt) ;;
     let* config := gets (λ fs, existsSync fs (group_path from ["container.json"])) in
     if config : bool
     then copy_file (group_path from ["container.json"]) (group_path to ["container.json"])
     else ret tt)
    (λ _, ret tt).

(*@ src/src/enterprise-autowire.ts 207-260 group *)
Definition provision_clone (now : time) (frontdesk : AgentGroup) (mg : MessagingGroup) (folder : string)
    : wM AgentGroup :=
  let group := mkAgentGroup ("ag-" +:+ folder)
    (default "" (js_or (option_map trim (mg_name mg)) (Some ("Group " +:+ mg_platform_id mg))))
    folder (ag_agent_provider frontdesk) now (ag_organization_id frontdesk) (ag_role frontdesk) in
  let* raced := try_catch (central (createAgentGroup group) ;; ret None)
    (λ e, let* raced := db_get (λ db, getAgentGroupByFolder db folder) in
          match raced with Some g => ret (Some g) | None => throw e end) in
  match raced with
  | Some g => ret g
  | None =>
      files (initGroupFilesystem group) ;;
      files (clone_config (ag_folder frontdesk) folder) ;;
      central (cloneFrontdeskDelegationEdges now frontdesk group) ;;
      central (recordEnterpriseAudit now "autowire_group_agent_provisioned" (Some (mg_id mg))
        (Some (ag_id group)) None
        (Some (JObj [("folder", JStr folder); ("clonedFrom", JStr (ag_folder frontdesk));
                     ("organizationId", jopt (ag_organization_id group))]))) ;;
      ret group
  end.

(*@ src/src/enterprise-autowire.ts 192-261 resolveOrCreatePerGroupAgent *)
Definition resolveOrCreatePerGroupAgent (now : time) (frontdesk : AgentGroup) (mg : MessagingGroup)
    : wM AgentGroup :=
  let folder := perGroupAgentFolder (ag_folder frontdesk) (mg_platform_id mg) in
  let* existing := db_get (λ db, getAgentGroupByFolder db folder) in
  match existing with
  | Some existing =>
      match ag_role existing, ag_role frontdesk with
      | None, Some role =>
          central (setAgentGroupRole (ag_id existing) (Some role)) ;;
          let* healed := db_get (λ db, getAgentGroupByFolder db folder) in
          ret (default existing healed)
      | _, _ => ret existing
      end
  | None => provision_clone now frontdesk mg folder
  end.

(** The strategy of a name, and the name it goes by: an unknown name falls back
    to the shared front desk.  A registration replaces a built-in one. *)
(*@ src/src/enterprise-autowire.ts 420-430 strategy *)
Definition strategy_of (now : time) (name : string) : string * GroupAgentStrategy :=
  let shared := default (λ frontdesk _ _, ret frontdesk) (customStrategies "shared") in
  match customStrategies name with
  | Some s => (name, s)
  | None =>
      if bool_decide (name = "per-group")
      then (name, λ frontdesk mg _, resolveOrCreatePerGroupAgent now frontdesk mg)
      else ("shared", shared)
  end.

(** ** Wiring *)

Definition with_policy (policy : UnknownSenderPolicy) (mg : MessagingGroup) : MessagingGroup :=
  mkMessagingGroup (mg_id mg) (mg_channel_type mg) (mg_platform_id mg) (mg_name mg) (mg_is_group mg)
    policy (mg_denied_at mg) (mg_created_at mg).

Definition channel_details (event : InboundEvent) : list (string * json) :=
  [("channelType", JStr (ev_channelType event)); ("platformId", JStr (ev_platformId event))].

(** The chat opens to everybody, and the wiring is made. *)
(*@ src/src/enterprise-autowire.ts 438-480 maybeAutowireEnterpriseFrontdesk *)
Definition wire_chat (now : time) (id : string) (config : EnterpriseAutowireConfig)
    (mg : MessagingGroup) (event : InboundEvent) (strategyName : string) (target : AgentGroup)
    : wM MessagingGroup :=
  let isGroup := is_group_event event in
  let audit name details := central (recordEnterpriseAudit now name (Some (mg_id mg))
                              (Some (ag_id target)) None (Some (JObj (channel_details event ++ details)))) in
  (if bool_decide (mg_unknown_sender_policy mg = public) then ret tt
   else
     central (updateMessagingGroup (mg_id mg) None None (Some public)) ;;
     audit "autowire_policy_downgrade"
       [("previousPolicy", JStr (policy_text (mg_unknown_sender_policy mg))); ("newPolicy", JStr "public")]) ;;
  let wiring := buildAutoWiring now id config (mg_id mg) (ag_id target) isGroup in
  central (createMessagingGroupAgent wiring) ;;
  audit "autowire_frontdesk"
    [("isGroup", JBool isGroup); ("strategy", JStr strategyName);
     ("sessionMode", JStr (mode_name (mga_session_mode wiring)));
     ("engageMode", JStr (engage_name (default EngagePattern (mga_engage_mode wiring))))] ;;
  ret (with_policy public mg).

(** Whether the chat is wired now, and the group as the caller sees it: the
    policy of the object it passed is changed in place. *)
(*@ src/src/enterprise-autowire.ts 352-481 maybeAutowireEnterpriseFrontdesk *)
Definition maybeAutowireEnterpriseFrontdesk (now : time) (id : string) (mg : MessagingGroup)
    (event : InboundEvent) : wM (bool * MessagingGroup) :=
  let config := readConfig in
  if negb (shouldAutowire config event) then ret (false, mg)
  else if bool_decide (is_Some (mg_denied_at mg)) then ret (false, mg)
  else
    let* desk := db_get (λ db, getAgentGroupByFolder db (aw_frontdeskFolder config)) in
    match desk with
    | None => ret (false, mg)
    | Some desk =>
        if negb (bool_decide (mg_unknown_sender_policy mg = public)) &&
           negb (aw_allowPolicyDowngrade config) then
          central (recordEnterpriseAudit now "autowire_policy_downgrade_skipped" (Some (mg_id mg))
            (Some (ag_id desk)) None
            (Some (JObj (channel_details event ++
               [("previousPolicy", JStr (policy_text (mg_unknown_sender_policy mg)))])))) ;;
          ret (false, mg)
        else
          let '(strategyName, strategy) :=
            if is_group_event event then strategy_of now (aw_groupStrategy config)
            else ("shared", λ frontdesk _ _, ret frontdesk) in
          let* target := strategy desk mg event in
          let* wired := db_get (λ db, bool_decide (is_Some
                          (getMessagingGroupAgentByPair (mg_id mg) (ag_id target) db))) in
          if wired : bool then ret (true, mg)
          else
            let* mg' := wire_chat now id config mg event strategyName target in
            ret (true, mg')
    end.
End autowire.
