(* ===== verification/Approvals.v ===== *)
(** * Approvals (src/modules/approvals/, src/modules/permissions/user-dm.ts,
    src/channels/ask-question.ts)

    Who is asked, how the card reaches them, and what a click on it does.  A
    request for an approval is a row and a card in a private chat; a credential
    request of the OneCLI gateway is a promise that waits for the click, with a
    row beside it.  The handlers other modules register by action, and the text
    of an error, are parameters. *)
From S2P Require Import Prelude JsString Json Types Events Central Permissions SessionDb Sessions Destinations SessionManager Host.

From Stdlib Require Import Ascii.

Local Open Scope string_scope.
Local Open Scope Z_scope.
Local Open Scope list_scope.
Local Open Scope prog_scope.

(** ** Private chats (src/modules/permissions/user-dm.ts) *)

Section dm.
Context (turns : nat → Turn) (channel_adapter : string → option ChannelAdapter).

Definition registered (channelType : string) : bool :=
  bool_decide (is_Some (channel_adapter channelType)).

(** The channel type and the handle of a user. *)
(*@ src/src/modules/permissions/user-dm.ts 136-149 parseUserId *)
Definition parseUserId (user : User) : option (string * string) :=
  match index_of ":"%char (u_id user) with
  | None => None
  | Some idx =>
      let prefix := take_string idx (u_id user) in
      let handle := drop_string (S idx) (u_id user) in
      if bool_decide (prefix = "") || bool_decide (handle = "") then None
      else if negb (registered prefix) && negb (bool_decide (u_kind user = "")) &&
              registered (u_kind user) then Some (u_kind user, u_id user)
      else Some (prefix, handle)
  end.

(** The platform id of the chat; the call is awaited whichever way it ends. *)
(*@ src/src/modules/permissions/user-dm.ts 118-134 resolveDmPlatformId *)
Definition resolveDmPlatformId (channelType handle : string) : hostM (option string) :=
  match channel_adapter channelType with
  | None => await turns (λ _, None)
  | Some adapter =>
      if ca_openDM adapter then await turns (λ t, default None (t_text t))
      else await turns (λ _, Some handle)
  end.

(** The chat of [dmPlatformId], found or created, becomes the user's. *)
(*@ src/src/modules/permissions/user-dm.ts 81-111 mg *)
Definition adopt_dm (user : User) (channelType dmPlatformId : string) : hostM MessagingGroup :=
  let* now := clock turns in
  let* found := db_read (getMessagingGroupByPlatform channelType dmPlatformId) in
  let* mg := match found with
             | Some mg => ret mg
             | None =>
                 let* mgId := fresh_id turns "mg" in
                 let mg := mkMessagingGroup mgId channelType dmPlatformId (u_display_name user)
                             false Types.strict None now in
                 run (central (createMessagingGroup mg)) ;; ret mg
             end in
  run (central (upsertUserDm (mkUserDm (u_id user) channelType (mg_id mg) now))) ;;
  ret mg.

(*@ src/src/modules/permissions/user-dm.ts 52-112 ensureUserDm *)
Definition ensureUserDm (userId : string) : hostM (option MessagingGroup) :=
  let* user := db_read (λ db, getUser db userId) in
  match user with
  | None => ret None
  | Some user =>
      match parseUserId user with
      | None => ret None
      | Some (channelType, handle) =>
          let* cached := db_read (λ db, match getUserDm db userId channelType with
                                        | Some r => getMessagingGroup (ud_messaging_group_id r) db
                                        | None => None
                                        end) in
          match cached with
          | Some mg => ret (Some mg)
          | None =>
              let* dmPlatformId := resolveDmPlatformId channelType handle in
              if negb (truthy dmPlatformId) then ret None
              else
                let* mg := adopt_dm user channelType (default "" dmPlatformId) in
                ret (Some mg)
          end
      end
  end.

(** ** Picking an approver (src/modules/approvals/primitive.ts) *)

(*@ src/src/modules/approvals/primitive.ts 109-132 pickApprover *)
Definition pickApprover (db : CentralDb) (agentGroupId : option string) : list string :=
  set_of (
    (if truthy agentGroupId then
       let ag := default "" agentGroupId in
       map ur_user_id (getAdminsOfAgentGroup db ag) ++
       (let org := orgOfAgentGroup db ag in
        if truthy org then getOrgAdmins db (default "" org) else [])
     else []) ++
    map ur_user_id (getGlobalAdmins db) ++ map ur_user_id (getOwners db)).

(*@ src/src/modules/approvals/primitive.ts 160-163 channelTypeOf *)
Definition channelTypeOf (userId : string) : string :=
  match index_of ":"%char userId with None => "" | Some idx => take_string idx userId end.

(** The first of [approvers] that [keep] admits and that a chat is found for. *)
Fixpoint first_reachable (keep : string → bool) (approvers : list string)
    : hostM (option (string * MessagingGroup)) :=
  match approvers with
  | [] => ret None
  | userId :: rest =>
      if keep userId then
        let* mg := ensureUserDm userId in
        match mg with
        | Some mg => ret (Some (userId, mg))
        | None => first_reachable keep rest
        end
      else first_reachable keep rest
  end.

(*@ src/src/modules/approvals/primitive.ts 142-158 pickApprovalDelivery *)
Definition pickApprovalDelivery (approvers : list string) (originChannelType : string)
    : hostM (option (string * MessagingGroup)) :=
  let* same := if bool_decide (originChannelType = "") then ret None
               else first_reachable
                      (λ userId, bool_decide (channelTypeOf userId = originChannelType)) approvers in
  match same with
  | Some target => ret (Some target)
  | None => first_reachable (λ _, true) approvers
  end.

(** ** Cards (src/channels/ask-question.ts) *)

(** The one user who may act on the card: the handle without its channel. *)
(*@ src/src/channels/ask-question.ts 85-90 approverExpectedUserId *)
Definition approverExpectedUserId (approverUserId : string) : option string :=
  if bool_decide (approverUserId = "") then None
  else
    let handle := trim (match index_of ":"%char approverUserId with
                        | Some idx => drop_string (S idx) approverUserId
                        | None => approverUserId
                        end) in
    if bool_decide (handle = "") then None else Some handle.

Definition option_json (o : NormalizedOption) : json :=
  JObj [("label", JStr (no_label o)); ("selectedLabel", JStr (no_selectedLabel o));
        ("value", JStr (no_value o))].

(*@ src/src/channels/ask-question.ts 51-66 AskQuestionPayload *)
Definition ask_question_card (questionId title question : string) (options : list NormalizedOption)
    (expectedUserId : option string) : json :=
  JObj ([("type", JStr "ask_question"); ("questionId", JStr questionId); ("title", JStr title);
         ("question", JStr question); ("options", JArr (map option_json options))] ++
        jfield "expectedUserId" expectedUserId).

(** [adapter.deliver] of a card to a chat: whether it went through. *)
Definition deliver_card (mg : MessagingGroup) (content : json) : hostM bool :=
  try_catch
    (adapter_deliver turns false (mg_channel_type mg) (mg_platform_id mg) None "chat-sdk"
       (JSON_stringify content) None ;; ret true)
    (λ _, ret false).
End dm.

(** All three properties are given, so normalising an option changes nothing. *)
(*@ src/src/modules/approvals/primitive.ts 38-41 APPROVAL_OPTIONS *)
Definition APPROVAL_OPTIONS : list NormalizedOption :=
  [mkNormalizedOption "Approve" "✅ Approved" "approve";
   mkNormalizedOption "Reject" "❌ Rejected" "reject"].

(** ** Asking *)

Section approvals.
Context (DATA_DIR : list string) (turns : nat → Turn)
  (channel_adapter : string → option ChannelAdapter).

Definition system_note (text : string) : string :=
  JSON_stringify (JObj [("text", JStr text); ("sender", JStr "system"); ("senderId", JStr "system")]).

(** A system chat message in the session's inbox; [use] names the id. *)
Definition write_note (use : string) (session : Session) (text : string) : hostM unit :=
  let* now := clock turns in
  let* id := fresh_id turns use in
  run (writeSessionMessage DATA_DIR now (s_agent_group_id session) (s_id session)
    (mkInMessage id "chat" (TIso now) (Some (s_agent_group_id session)) (Some "agent") None
       (system_note text) None None None None None None)).

(*@ src/src/modules/approvals/primitive.ts 168-182 notifyAgent *)
Definition notifyAgent (session : Session) (text : string) : hostM unit :=
  write_note "sys" session text ;;
  let* fresh := db_read (getSession (s_id session)) in
  match fresh with
  | Some fresh => wake_cast (s_id fresh)
  | None => ret tt
  end.

(** The agent's name is an option too; it is only logged. *)
(*@ src/src/modules/approvals/primitive.ts 184-195 RequestApprovalOptions *)
Record RequestApprovalOptions := mkRequestApproval {
  ra_session : Session;
  ra_action : string;
  ra_payload : json;
  ra_title : string;
  ra_question : string }.

(** The row and the card of a request, once the approver is found. *)
(*@ src/src/modules/approvals/primitive.ts 222-261 requestApproval *)
Definition post_approval (opts : RequestApprovalOptions) (approver : string) (dm : MessagingGroup)
    : hostM unit :=
  let* now := clock turns in
  let* approvalId := fresh_id turns "appr" in
  run (central (createPendingApproval
    (mkPendingApproval approvalId (Some (s_id (ra_session opts))) approvalId (ra_action opts)
       (JSON_stringify (ra_payload opts)) now None None None None None ApPending (ra_title opts)
       APPROVAL_OPTIONS))) ;;
  let* adapter := gets h_adapter in
  match adapter with
  | NoAdapter => ret tt
  | AdapterSet _ =>
      let* ok := deliver_card turns dm
        (ask_question_card approvalId (ra_title opts) (ra_question opts) APPROVAL_OPTIONS
           (approverExpectedUserId approver)) in
      if ok : bool then ret tt
      else notifyAgent (ra_session opts)
             (ra_action opts +:+ " failed: could not deliver approval request to " +:+ approver +:+ ".")
  end.

(*@ src/src/modules/approvals/primitive.ts 203-264 requestApproval *)
Definition requestApproval (opts : RequestApprovalOptions) : hostM unit :=
  let session := ra_session opts in
  let* approvers := db_read (λ db, pickApprover db (Some (s_agent_group_id session))) in
  match approvers with
  | [] => notifyAgent session
            (ra_action opts +:+ " failed: no owner or admin configured to approve.")
  | _ =>
      let* originChannelType := db_read (λ db,
        if truthy (s_messaging_group_id session) then
          match getMessagingGroup (default "" (s_messaging_group_id session)) db with
          | Some mg => mg_channel_type mg
          | None => ""
          end
        else "") in
      let* target := pickApprovalDelivery turns channel_adapter approvers originChannelType in
      match target with
      | None => notifyAgent session
                  (ra_action opts +:+ " failed: no DM channel found for any eligible approver.")
      | Some (approver, dm) => post_approval opts approver dm
      end
  end.

(** ** Credential requests (src/modules/approvals/onecli-approvals.ts) *)

(*@ src/src/modules/approvals/onecli-approvals.ts 38-38 ONECLI_ACTION *)
Definition ONECLI_ACTION : string := "onecli_credential".

(** The gateway's request, its agent also as the object that is stored. *)
Record ApprovalRequest := mkApprovalRequest {
  rq_id : string;
  rq_method : string;
  rq_host : string;
  rq_path : string;
  rq_bodyPreview : option string;
  rq_agent_externalId : option string;
  rq_agent_name : string;
  rq_agent : json;
  rq_expiresAt : time }.

(** What the gateway is told: at once, or when the promise of this id settles. *)
Inductive Decision := Approve | DenyNow | Waits (approvalId : string).

Definition newline : string := String (Ascii.ascii_of_nat 10) EmptyString.

(*@ src/src/modules/approvals/onecli-approvals.ts 276-288 buildQuestion *)
Definition buildQuestion (request : ApprovalRequest) (agentName : string) : string :=
  String.concat newline
    (["Credential access request"; "Agent: " +:+ agentName; "```";
      rq_method request +:+ " " +:+ rq_host request +:+ rq_path request; "```"] ++
     (if truthy (rq_bodyPreview request)
      then ["Body:"; "```"; default "" (rq_bodyPreview request); "```"] else [])).

(*@ src/src/modules/approvals/onecli-approvals.ts 129-234 handleRequest *)
Definition handleRequest (request : ApprovalRequest) : hostM Decision :=
  let* adapter := gets h_adapter in
  match adapter with
  | NoAdapter => ret DenyNow
  | AdapterSet _ =>
      let* originGroup := db_read (λ db,
        if truthy (rq_agent_externalId request)
        then getAgentGroup db (default "" (rq_agent_externalId request)) else None) in
      let agentGroupId := option_map ag_id originGroup in
      let* approvers := db_read (λ db, pickApprover db agentGroupId) in
      match approvers with
      | [] => ret DenyNow
      | _ =>
          let* target := pickApprovalDelivery turns channel_adapter approvers "" in
          match target with
          | None => ret DenyNow
          | Some (approver, dm) =>
              let* approvalId := fresh_id turns "oa" in
              let question := buildQuestion request
                (match originGroup with Some g => ag_name g | None => rq_agent_name request end) in
              let* sent := try_catch
                (let* id := adapter_deliver turns false (mg_channel_type dm) (mg_platform_id dm) None
                   "chat-sdk" (JSON_stringify
                     (ask_question_card approvalId "Credentials Request" question APPROVAL_OPTIONS
                        (approverExpectedUserId approver))) None in
                 ret (Some id))
                (λ _, ret None) in
              match sent with
              | None => ret DenyNow
              | Some platformMessageId =>
                  let* now := clock turns in
                  run (central (createPendingApproval
                    (mkPendingApproval approvalId None (rq_id request) ONECLI_ACTION
                       (JSON_stringify (JObj ([("oneCliRequestId", JStr (rq_id request));
                          ("method", JStr (rq_method request)); ("host", JStr (rq_host request));
                          ("path", JStr (rq_path request))] ++
                          jfield "bodyPreview" (rq_bodyPreview request) ++
                          [("agent", rq_agent request); ("approver", JStr approver)])))
                       now agentGroupId (Some (mg_channel_type dm)) (Some (mg_platform_id dm))
                       platformMessageId (Some (rq_expiresAt request)) ApPending
                       "Credentials Request" APPROVAL_OPTIONS))) ;;
                  modify (λ h, set_credentials ({[approvalId]} ∪ h_credentials h) h) ;;
                  ret (Waits approvalId)
              end
          end
      end
  end.

(*@ src/src/modules/approvals/onecli-approvals.ts 74-99 resolveOneCLIApproval *)
Definition resolveOneCLIApproval (approvalId selectedOption : string) (actorUserId : option string)
    : hostM bool :=
  let* waits := gets (λ h, bool_decide (approvalId ∈ h_credentials h)) in
  if negb waits then ret false
  else
    modify (λ h, set_credentials (h_credentials h ∖ {[approvalId]}) h) ;;
    let approved := bool_decide (selectedOption = "approve") in
    let* now := clock turns in
    run (central (updatePendingApprovalStatus approvalId
                    (if approved then ApApproved else ApRejected))) ;;
    run (central (recordEnterpriseAudit now "approval_resolved" None None actorUserId
      (Some (JObj [("approvalId", JStr approvalId); ("action", JStr ONECLI_ACTION);
                   ("result", JStr (if approved then "approved" else "rejected"))])))) ;;
    run (central (deletePendingApproval approvalId)) ;;
    start (ResolveCredential approvalId approved) ;;
    ret true.

(*@ src/src/modules/approvals/onecli-approvals.ts 247-264 editCardExpired *)
Definition editCardExpired (row : PendingApproval) (reason : string) : hostM unit :=
  let* adapter := gets h_adapter in
  match adapter with
  | NoAdapter => ret tt
  | AdapterSet _ =>
      if negb (truthy (pa_platform_message_id row) && truthy (pa_channel_type row) &&
               truthy (pa_platform_id row)) then ret tt
      else
        try_catch
          (adapter_deliver turns false (default "" (pa_channel_type row))
             (default "" (pa_platform_id row)) None "chat-sdk"
             (JSON_stringify (JObj [("operation", JStr "edit");
                ("messageId", JStr (default "" (pa_platform_message_id row)));
                ("text", JStr ("Expired (" +:+ reason +:+ ")"))])) None ;; ret tt)
          (λ _, ret tt)
  end.

(*@ src/src/modules/approvals/onecli-approvals.ts 236-245 expireApproval *)
Definition expireApproval (approvalId reason : string) : hostM unit :=
  let* row := db_read (λ db, sql_first (λ r, bool_decide (pa_approval_id r = approvalId))
                               (getPendingApprovalsByAction ONECLI_ACTION db)) in
  match row with
  | None => ret tt
  | Some row =>
      run (central (updatePendingApprovalStatus approvalId ApExpired)) ;;
      editCardExpired row reason ;;
      run (central (deletePendingApproval approvalId))
  end.

(** The timer of a credential request fires. *)
(*@ src/src/modules/approvals/onecli-approvals.ts 223-230 timer *)
Definition credential_timeout (approvalId : string) : hostM unit :=
  let* waits := gets (λ h, bool_decide (approvalId ∈ h_credentials h)) in
  if negb waits then ret tt
  else
    modify (λ h, set_credentials (h_credentials h ∖ {[approvalId]}) h) ;;
    start (ResolveCredential approvalId false) ;;
    try_catch (expireApproval approvalId "no response") (λ _, ret tt).

(*@ src/src/modules/approvals/onecli-approvals.ts 266-274 sweepStaleApprovals *)
Definition sweepStaleApprovals : hostM unit :=
  let* rows := db_read (getPendingApprovalsByAction ONECLI_ACTION) in
  for_each rows (λ row,
    editCardExpired row "host restarted" ;;
    run (central (deletePendingApproval (pa_approval_id row)))).

(** ** Answering (src/modules/approvals/response-handler.ts) *)

(** A handler gets the session, the payload, the approver and [notify]. *)
(*@ src/src/modules/approvals/primitive.ts 57-57 ApprovalHandler *)
Definition ApprovalHandler : Type :=
  Session → json → string → (string → hostM unit) → hostM unit.

Context (getApprovalHandler : string → option ApprovalHandler).
Context (error_message : failure → string).

Definition status_name (s : ApprovalStatus) : string :=
  match s with
  | ApPending => "pending" | ApApproved => "approved"
  | ApRejected => "rejected" | ApExpired => "expired"
  end.

(*@ src/src/modules/approvals/response-handler.ts 107-121 auditDecision *)
Definition auditDecision (session : Session) (approval : PendingApproval) (userId : string)
    (result outcome : string) (error : option string) : hostM unit :=
  let* now := clock turns in
  run (central (recordEnterpriseAudit now "approval_resolved" None (Some (s_agent_group_id session))
    (if bool_decide (userId = "") then None else Some userId)
    (Some (JObj ([("approvalId", JStr (pa_approval_id approval)); ("action", JStr (pa_action approval));
                  ("result", JStr result); ("outcome", JStr outcome)] ++
                 (if truthy error then jfield "error" error else [])))))).

Definition drop_approval (approval : PendingApproval) : hostM unit :=
  run (central (deletePendingApproval (pa_approval_id approval))).

(** The decision is recorded, the row goes, and the agent is woken. *)
Definition close_approval (session : Session) (approval : PendingApproval)
    (userId result outcome : string) (error : option string) : hostM unit :=
  auditDecision session approval userId result outcome error ;;
  drop_approval approval ;;
  wake_container turns (s_id session) ;;
  ret tt.

(** The handler runs; its outcome and the text of its error. *)
(*@ src/src/modules/approvals/response-handler.ts 146-157 outcome *)
Definition apply_approval (handler : ApprovalHandler) (session : Session)
    (approval : PendingApproval) (userId : string) : hostM (string * option string) :=
  let notify := write_note "appr-note" session in
  match JSON_parse (pa_payload approval) with
  | None => throw (OtherError (Err "SyntaxError"))
  | Some payload =>
      try_catch (handler session payload userId notify ;; ret ("applied", None))
        (λ e,
           let errorMsg := error_message e in
           notify ("Your " +:+ pa_action approval +:+ " was approved, but applying it failed: " +:+
                   errorMsg +:+ ".") ;;
           ret ("apply_failed", Some errorMsg))
  end.

(*@ src/src/modules/approvals/response-handler.ts 77-162 handleRegisteredApproval *)
Definition handleRegisteredApproval (approval : PendingApproval) (selectedOption userId : string)
    : hostM unit :=
  let* session := db_read (λ db, if truthy (pa_session_id approval)
                                 then getSession (default "" (pa_session_id approval)) db else None) in
  match session with
  | None => drop_approval approval
  | Some session =>
      let notify := write_note "appr-note" session in
      if negb (bool_decide (selectedOption = "approve")) then
        notify ("Your " +:+ pa_action approval +:+ " request was rejected by admin.") ;;
        close_approval session approval userId "rejected" "rejected_by_admin" None
      else match getApprovalHandler (pa_action approval) with
           | None =>
               notify ("Your " +:+ pa_action approval +:+
                       " was approved, but no handler is installed to apply it.") ;;
               close_approval session approval userId "approved" "no_handler" None
           | Some handler =>
               let* out := apply_approval handler session approval userId in
               close_approval session approval userId "approved" out.1 out.2
           end
  end.

(** A click on a card whose row is no longer pending. *)
(*@ src/src/modules/approvals/response-handler.ts 42-64 handleApprovalsResponse *)
Definition refuse_stale (approval : PendingApproval) (userId : option string) : hostM unit :=
  let* now := clock turns in
  run (central (recordEnterpriseAudit now "approval_resolved" None (pa_agent_group_id approval) userId
    (Some (JObj [("approvalId", JStr (pa_approval_id approval)); ("action", JStr (pa_action approval));
                 ("result", JStr "rejected");
                 ("outcome", JStr ("stale_click_" +:+ status_name (pa_status approval)));
                 ("sessionId", jopt (pa_session_id approval))])))) ;;
  drop_approval approval.

(*@ src/src/modules/approvals/response-handler.ts 26-75 handleApprovalsResponse *)
Definition handleApprovalsResponse (payload : ResponsePayload) : hostM bool :=
  let* credential := resolveOneCLIApproval (rp_questionId payload) (rp_value payload) (rp_userId payload) in
  if credential : bool then ret true
  else
    let* approval := db_read (getPendingApproval (rp_questionId payload)) in
    match approval with
    | None => ret false
    | Some approval =>
        if negb (bool_decide (pa_status approval = ApPending)) then
          refuse_stale approval (rp_userId payload) ;; ret true
        else if bool_decide (pa_action approval = ONECLI_ACTION) then
          drop_approval approval ;; ret true
        else
          handleRegisteredApproval approval (rp_value payload) (default "" (rp_userId payload)) ;;
          ret true
    end.
End approvals.
