(* ===== verification/FeishuCards.v ===== *)
(** * Cards of the Feishu channel (src/channels/feishu/primitives.ts)

    How a question becomes a card: the text is rewritten so that line breaks
    show, and each answer is a button that carries what a click on it means. *)
From S2P Require Import Prelude JsString Json JsonProofs Types Central.
From stdpp Require Import pretty.
From Stdlib Require Import Ascii.

Local Open Scope string_scope.
Local Open Scope Z_scope.
Local Open Scope list_scope.

(** [/\r\n?/g] and [/\\r\\n|\\n|\\r/g], both to a line feed. *)
Fixpoint fold_returns (l : chars) : chars :=
  match l with
  | 13 :: 10 :: l' => 10 :: fold_returns l'
  | 13 :: l' => 10 :: fold_returns l'
  | c :: l' => c :: fold_returns l'
  | [] => []
  end.
Fixpoint fold_escapes (l : chars) : chars :=
  match l with
  | 92 :: 114 :: 92 :: 110 :: l' => 10 :: fold_escapes l'
  | 92 :: 110 :: l' => 10 :: fold_escapes l'
  | 92 :: 114 :: l' => 10 :: fold_escapes l'
  | c :: l' => c :: fold_escapes l'
  | [] => []
  end.
(*@ src/src/channels/feishu/primitives.ts 465-467 normalizeCardText *)
Definition normalizeCardText (text : string) : string := of_codes (fold_escapes (fold_returns (codes text))).

Example normalize_ex :
  normalizeCardText "a\nb\r\nc" =
  "a" +:+ String (ascii_of_nat 10) ("b" +:+ String (ascii_of_nat 10) "c").
Proof. vm_compute. done. Qed.

(*@ src/src/channels/feishu/primitives.ts 469-484 buildMarkdownCard *)
Definition buildMarkdownCard (text : string) (title : option string) : json :=
  JObj ([("schema", JStr "2.0"); ("config", JObj [("width_mode", JStr "fill")]);
         ("body", JObj [("elements", JArr [JObj [("tag", JStr "markdown");
            ("content", JStr (normalizeCardText text))]])])] ++
        (if truthy title then [("header", JObj [("title", JObj [("tag", JStr "plain_text");
            ("content", JStr (default "" title))]); ("template", JStr "blue")])] else [])).

(*@ src/src/channels/feishu/primitives.ts 506-518 actions *)
Definition ask_button (questionId : string) (expectedUserId : option string) (expiresAt : option Z)
    (index : nat) (option : NormalizedOption) : json :=
  JObj [("tag", JStr "button");
        ("text", JObj [("tag", JStr "plain_text"); ("content", JStr (no_label option))]);
        ("type", JStr (if (index =? 0)%nat then "primary" else "default"));
        ("value", JObj ([("kind", JStr "card.ask_question"); ("questionId", JStr questionId);
           ("selectedOption", JStr (no_value option)); ("selectedLabel", JStr (no_selectedLabel option))] ++
           (if truthy expectedUserId then jfield "expectedUserId" expectedUserId else []) ++
           match expiresAt with
           | Some n => if n =? 0 then [] else [("expiresAt", JNum n)]
           | None => []
           end))].
Definition ask_markdown (question : string) : json :=
  JObj [("tag", JStr "markdown"); ("content", JStr (normalizeCardText question))].
(*@ src/src/channels/feishu/primitives.ts 486-523 buildFeishuAskQuestionCardWithPayloads *)
Definition buildFeishuAskQuestionCardWithPayloads (title questionId question : string)
    (options : list NormalizedOption) (expectedUserId : option string) (expiresAt : option Z) : json :=
  JObj [("schema", JStr "2.0"); ("config", JObj [("width_mode", JStr "fill")]);
        ("header", JObj [("title", JObj [("tag", JStr "plain_text"); ("content", JStr title)]);
                         ("template", JStr "blue")]);
        ("body", JObj [("elements", JArr [ask_markdown question;
           JObj [("tag", JStr "action");
                 ("actions", JArr (imap (ask_button questionId expectedUserId expiresAt) options))]])])].

(** The text for a channel without buttons; [replyHint] is the localised line. *)
(*@ src/src/channels/feishu/primitives.ts 438-454 buildAskQuestionFallbackText *)
Definition buildAskQuestionFallbackText (title question : string) (options : list NormalizedOption)
    (replyHint : option string) : string :=
  String.concat (String (ascii_of_nat 10) EmptyString)
    ([if bool_decide (trim question = "") then trim title else trim question; ""] ++
     imap (λ i o, pretty (Z.of_nat i + 1) +:+ ". " +:+ no_label o) options ++
     [""; default "Reply with the option number or its text." replyHint]).

(** ** Texts the rewriting leaves alone *)

(** No carriage return, and every backslash before a double quote. *)
Fixpoint calm (l : chars) : bool :=
  match l with
  | [] => true
  | 13 :: _ => false
  | 92 :: 34 :: l' => calm l'
  | 92 :: _ => false
  | _ :: l' => calm l'
  end.

Lemma calm_cons c l : c ≠ 13 → c ≠ 92 → calm (c :: l) = calm l.
Proof. intros ??. cbn [calm]. repeat case_match; done. Qed.
Lemma calm_cases l :
  calm l = true →
  l = [] ∨ (∃ l', l = 92 :: 34 :: l' ∧ calm l' = true) ∨ ∃ c l', l = c :: l' ∧ c ≠ 13 ∧ c ≠ 92 ∧ calm l' = true.
Proof.
  destruct l as [|c l]; [by left|]. intros H. right. destruct (decide (c = 13)) as [->|]; [done|].
  destruct (decide (c = 92)) as [->|]; [|right; exists c, l; by rewrite calm_cons in H].
  left. cbn [calm] in H. repeat case_match; try done. by eexists.
Qed.
Lemma calm_ind (P : chars → Prop) :
  P [] → (∀ l, calm l = true → P l → P (92 :: 34 :: l)) →
  (∀ c l, c ≠ 13 → c ≠ 92 → calm l = true → P l → P (c :: l)) → ∀ l, calm l = true → P l.
Proof.
  intros H0 H1 H2 l. remember (length l) as n eqn:En. revert l En.
  induction n as [n IH] using lt_wf_ind. intros l -> H.
  destruct (calm_cases l H) as [->|[(l' & -> & H')|(c & l' & -> & ? & ? & H')]]; [done|..].
  - apply H1, (IH (length l')); [done|cbn; lia|done..].
  - apply H2, (IH (length l')); [done|done|done|cbn; lia|done|done].
Qed.
Lemma calm_app l1 l2 : calm l1 = true → calm (l1 ++ l2) = calm l2.
Proof.
  intros H. revert l1 H. apply calm_ind; [done|intros l _ IH; exact IH|].
  intros c l H1 H2 _ IH. cbn [app]. by rewrite calm_cons.
Qed.
Lemma fold_returns_calm l : calm l = true → fold_returns l = l.
Proof.
  intros H. revert l H. apply calm_ind; [done|intros l _ IH; cbn; by rewrite IH|].
  intros c l H1 H2 _ IH. cbn [fold_returns]. repeat case_match; congruence.
Qed.
Lemma fold_escapes_calm l : calm l = true → fold_escapes l = l.
Proof.
  intros H. revert l H. apply calm_ind; [done|intros l _ IH; cbn; by rewrite IH|].
  intros c l H1 H2 _ IH. cbn [fold_escapes]. repeat case_match; congruence.
Qed.
Lemma normalize_calm s : calm (codes s) = true → normalizeCardText s = s.
Proof.
  intros H. unfold normalizeCardText. by rewrite fold_returns_calm, fold_escapes_calm, of_codes_codes.
Qed.
