(* ===== verification/ContainerImage.v ===== *)
(** * The image of a group (src/container-runner.ts, buildAgentGroupImage)

    The packages of the group's configuration become the layer of an image of
    its own, and the image is written down in the configuration.  What the
    docker build of a file ends with is a parameter. *)
From S2P Require Import Prelude JsString Json JsonProofs JsonIndent Types Central Permissions Fs SessionManager Host ContainerConfig.
From Stdlib Require Import Ascii QArith.
From stdpp Require Import pretty.

Local Open Scope string_scope.
Local Open Scope Z_scope.
Local Open Scope list_scope.
Local Open Scope prog_scope.

Definition nl : string := String (Ascii.ascii_of_nat 10) EmptyString.

Definition packages_of (manager : string) (c : ContainerConfig) : json :=
  default (JArr []) (opt_get manager (cfg_get "packages" c)).

Section image.
Context (frac_value : string → Q) (GROUPS_DIR DATA_DIR : list string) (turns : nat → Turn).
Context (CONTAINER_IMAGE CONTAINER_IMAGE_BASE : string).
(** What the docker build of a file ends with: of the tag and the text, at a turn. *)
Context (docker_build : nat → string → string → option exn).

Definition apt_line (apt : list json) : string :=
  "RUN apt-get update && apt-get install -y " +:+ String.concat " " (map element_text apt) +:+
  " && rm -rf /var/lib/apt/lists/*" +:+ nl.
Definition npm_line (npm : list json) : string :=
  "RUN " +:+ String.concat " && "
    (map (λ p, "echo 'only-built-dependencies[]=" +:+ element_text p +:+ "' >> /root/.npmrc") npm) +:+
  " && pnpm install -g " +:+ String.concat " " (map element_text npm) +:+ nl.

(*@ src/src/container-runner.ts 1473-1493 dockerfile *)
Definition dockerfile_of (c : ContainerConfig) : outcome exn string :=
  let apt := packages_of "apt" c in
  let npm := packages_of "npm" c in
  if is_empty apt && is_empty npm then Throw (Err "No packages to install. Use install_packages first.")
  else
    let! apt_part := if has_some apt then let! l := array_items apt in Ok (apt_line l) else Ok "" in
    let! npm_part := if has_some npm then let! l := array_items npm in Ok (npm_line l) else Ok "" in
    Ok ("FROM " +:+ CONTAINER_IMAGE +:+ nl +:+ "USER root" +:+ nl +:+ apt_part +:+ npm_part +:+ "USER node" +:+ nl).

Definition imageTag (agentGroupId : string) : string := CONTAINER_IMAGE_BASE +:+ ":" +:+ agentGroupId.

(** The file is there while the build runs. *)
(*@ src/src/container-runner.ts 1499-1510 buildAgentGroupImage *)
Definition docker_build_of (agentGroupId dockerfile : string) : hostM unit :=
  let tmpDockerfile := DATA_DIR ++ ["Dockerfile." +:+ agentGroupId] in
  run (files (write_file tmpDockerfile dockerfile)) ;;
  let* ended := gets (λ h, docker_build (h_turn h) (imageTag agentGroupId) dockerfile) in
  run (files (unlink tmpDockerfile)) ;;
  match ended with
  | Some e => throw (OtherError e)
  | None => ret tt
  end.

(** Nothing is awaited inside: the build blocks the process. *)
(*@ src/src/container-runner.ts 1469-1517 buildAgentGroupImage *)
Definition buildAgentGroupImage (agentGroupId : string) : hostM unit :=
  let* agentGroup := db_read (λ db, getAgentGroup db agentGroupId) in
  match agentGroup with
  | None => throw (OtherError (Err "Agent group not found"))
  | Some agentGroup =>
      let* containerConfig := run (files (readContainerConfig frac_value GROUPS_DIR (ag_folder agentGroup))) in
      let* dockerfile := of_outcome (dockerfile_of containerConfig) in
      docker_build_of agentGroupId dockerfile ;;
      run (files (writeContainerConfig GROUPS_DIR (ag_folder agentGroup)
        (cfg_set "imageTag" (Some (JStr (imageTag agentGroupId))) containerConfig)))
  end.

(** [await] of a program that awaited nothing itself: the promise settles, and
    the rest of the host runs. *)
Definition awaited {A} (m : hostM A) : hostM A := λ h, ((m h).1, resume turns (m h).2).

(** [await killContainer(sessionId, reason)] *)
(*@ src/src/container-runner.ts 540-553 killContainer *)
Definition kill_container (sessionId reason : string) : hostM unit :=
  awaited (start (KillContainer sessionId reason)).
End image.
