(* ===== verification/SelfMod.v ===== *)
(** * Self modification (src/modules/self-mod/)

    An agent asks for packages or for an MCP server; the host checks what it
    asked for, shows it to an approver, and applies it when it is approved. *)
From S2P Require Import Prelude JsString Json JsonProofs JsonIndent OutboundContract Types Events Central Permissions SessionDb Sessions Fs SessionManager Host Approvals SafeText ContainerConfig ContainerImage.
From Stdlib Require Import Ascii QArith.

Local Open Scope string_scope.
Local Open Scope Z_scope.
Local Open Scope list_scope.
Local Open Scope prog_scope.

(*@ src/src/modules/self-mod/request.ts 53-53 MAX_PACKAGES *)
Definition MAX_PACKAGES : Z := 20.
(*@ src/src/modules/self-mod/request.ts 93-95 MAX_ARGS *)
Definition MAX_ARGS : Z := 32.
Definition MAX_ENV_ENTRIES : Z := 32.
Definition MAX_FIELD_LEN : Z := 512.

(*@ src/src/modules/self-mod/request.ts 98-98 FENCE *)
Definition FENCE : string := "```".
(*@ src/src/modules/self-mod/request.ts 108-110 disclose *)
Definition disclose (payload : json) : string :=
  FENCE +:+ nl +:+ JSON_stringify_indent payload +:+ nl +:+ FENCE.

(** [[...name].filter(ch => SAFE_TEXT_RE.test(ch)).join('')] *)
Definition keep_safe (name : string) : string :=
  of_codes (concat (map utf8 (List.filter safe_point (code_points (bytes name))))).
(*@ src/src/modules/self-mod/request.ts 120-124 scrubDisplayName *)
Definition scrubDisplayName (name : string) : string :=
  let trimmed := js_slice 64 (trim (keep_safe name)) in
  if bool_decide (trimmed = "") then "unnamed agent" else trimmed.

Example scrub_ex : scrubDisplayName "a`b\c" = "abc" ∧ scrubDisplayName "``" = "unnamed agent".
Proof. vm_compute. done. Qed.

Definition texts (l : list string) : json := JArr (map JStr l).
Definition text_record (l : list (string * string)) : json := JObj (map (λ e, (e.1, JStr e.2)) l).

Definition pattern_opts (required : bool) (maxItems maxLength : Z) (pattern : string → bool) : ReadOpts :=
  mkReadOpts required (Some maxItems) (Some maxLength) (Some pattern) None.
Definition text_opts (required : bool) (maxLength : Z) (pattern : string → bool) : ReadOpts :=
  mkReadOpts required None (Some maxLength) (Some pattern) None.

(** ** What is asked for *)

(** What the checks let through: the packages and the reason, or the server. *)
Record Packages := mkPackages { pk_apt : list string; pk_npm : list string; pk_reason : string }.
Record Server := mkServer {
  sv_name : string; sv_command : string; sv_args : list string; sv_env : list (string * string) }.

Definition fbind {A B} (r : FieldResult A) (k : A → FieldResult B) : FieldResult B :=
  match r with FOk a => k a | FBad reason => FBad reason end.

(*@ src/src/modules/self-mod/request.ts 136-150 handleInstallPackages *)
Definition read_packages (content : list (string * json)) : FieldResult Packages :=
  fbind (readStringArray content "apt" (pattern_opts false MAX_PACKAGES 128 APT_RE)) (λ apt,
  fbind (readStringArray content "npm" (pattern_opts false MAX_PACKAGES 128 NPM_RE)) (λ npm,
  fbind (readString content "reason" (text_opts false 1024 SAFE_TEXT_RE)) (λ reason,
    let n := Z.of_nat (length apt) + Z.of_nat (length npm) in
    if n =? 0 then FBad "at least one apt or npm package is required"
    else if MAX_PACKAGES <? n then FBad "max 20 packages per request"
    else FOk (mkPackages apt npm reason)))).

(*@ src/src/modules/self-mod/request.ts 174-194 handleAddMcpServer *)
Definition read_server (content : list (string * json)) : FieldResult Server :=
  fbind (readString content "name" (text_opts true 64 MCP_NAME_RE)) (λ name,
  fbind (readString content "command" (text_opts true 256 SAFE_TEXT_RE)) (λ command,
    if bool_decide (command = "") then FBad (q "command" +:+ " must not be empty")
    else
  fbind (readStringArray content "args" (pattern_opts false MAX_ARGS MAX_FIELD_LEN SAFE_TEXT_RE)) (λ args,
  fbind (readStringRecord content "env" (Some MAX_ENV_ENTRIES) (Some MAX_FIELD_LEN)
           (Some ENV_KEY_RE) (Some SAFE_TEXT_RE)) (λ env,
    FOk (mkServer name command args env))))).

Definition packages_json (p : Packages) : json := JObj [("apt", texts (pk_apt p)); ("npm", texts (pk_npm p))].
(*@ src/src/modules/self-mod/request.ts 156-156 payload *)
Definition packages_payload (p : Packages) : json :=
  JObj [("apt", texts (pk_apt p)); ("npm", texts (pk_npm p)); ("reason", JStr (pk_reason p))].
(*@ src/src/modules/self-mod/request.ts 200-200 entry *)
Definition server_entry (s : Server) : list (string * json) :=
  [("command", JStr (sv_command s)); ("args", texts (sv_args s)); ("env", text_record (sv_env s))].
(*@ src/src/modules/self-mod/request.ts 206-206 payload *)
Definition server_payload (s : Server) : json := JObj (("name", JStr (sv_name s)) :: server_entry s).

(*@ src/src/modules/self-mod/request.ts 158-163 question *)
Definition packages_question (agentName : string) (p : Packages) : string :=
  "Agent " +:+ q (scrubDisplayName agentName) +:+
  " wants to install packages and rebuild its container image." +:+ nl +:+
  "This applies to the agent GROUP — every user of this agent gets the new image." +:+ nl +:+ nl +:+
  "Exactly this will be added to container.json:" +:+ nl +:+ disclose (packages_json p) +:+
  (if bool_decide (pk_reason p = "") then ""
   else nl +:+ nl +:+ "Reason given by the agent:" +:+ nl +:+ disclose (JStr (pk_reason p))).
(*@ src/src/modules/self-mod/request.ts 208-213 question *)
Definition server_question (agentName : string) (s : Server) : string :=
  "Agent " +:+ q (scrubDisplayName agentName) +:+ " wants to wire a new MCP server into its runtime." +:+ nl +:+
  "This applies to the agent GROUP — it will run in every user's container for this " +:+
  "agent, with the arguments and environment shown below." +:+ nl +:+ nl +:+
  "Exactly this will be written to container.json under mcpServers." +:+ q (sv_name s) +:+ ":" +:+ nl +:+
  disclose (JObj (server_entry s)).

Section selfmod.
Context (frac_value : string → Q) (GROUPS_DIR DATA_DIR : list string) (turns : nat → Turn)
  (channel_adapter : string → option ChannelAdapter) (CONTAINER_IMAGE CONTAINER_IMAGE_BASE : string)
  (docker_build : nat → string → string → option exn) (error_message : failure → string).

Local Abbreviation notify_agent := (notifyAgent DATA_DIR turns).

(*@ src/src/modules/self-mod/request.ts 225-228 reject *)
Definition reject (session : Session) (action reason : string) : hostM unit :=
  notify_agent session (action +:+ " failed: " +:+ reason +:+ ".").

(*@ src/src/modules/self-mod/request.ts 126-165 handleInstallPackages *)
Definition handleInstallPackages (content : list (string * json)) (session : Session) : hostM unit :=
  let* agentGroup := db_read (λ db, getAgentGroup db (s_agent_group_id session)) in
  match agentGroup with
  | None => notify_agent session "install_packages failed: agent group not found."
  | Some agentGroup =>
      match read_packages content with
      | FBad reason => reject session "install_packages" reason
      | FOk p => requestApproval DATA_DIR turns channel_adapter
          (mkRequestApproval session "install_packages" (packages_payload p) "Install Packages Request"
             (packages_question (ag_name agentGroup) p))
      end
  end.

(*@ src/src/modules/self-mod/request.ts 167-215 handleAddMcpServer *)
Definition handleAddMcpServer (content : list (string * json)) (session : Session) : hostM unit :=
  let* agentGroup := db_read (λ db, getAgentGroup db (s_agent_group_id session)) in
  match agentGroup with
  | None => notify_agent session "add_mcp_server failed: agent group not found."
  | Some agentGroup =>
      match read_server content with
      | FBad reason => reject session "add_mcp_server" reason
      | FOk s => requestApproval DATA_DIR turns channel_adapter
          (mkRequestApproval session "add_mcp_server" (server_payload s) "Add MCP Request"
             (server_question (ag_name agentGroup) s))
      end
  end.

(** ** What is applied *)

(** [payload.k], thrown on [null]. *)
Definition payload_get (k : string) (payload : json) : outcome exn (option json) :=
  match jget k payload with AThrow => Throw (Err "TypeError") | AValue v => Ok v end.

(** [...v]: a text is spread into its characters. *)
Definition spread_of (v : json) : outcome exn (list json) :=
  match v with
  | JArr l => Ok l
  | JStr s => Ok (map (λ n, JStr (of_codes (utf8 n))) (code_points (bytes s)))
  | _ => Throw (Err "TypeError")
  end.
(** [if (payload[manager]) cfg.packages[manager].push(...payload[manager])] *)
Definition push_packages (manager : string) (payload : json) (c : ContainerConfig) : outcome exn ContainerConfig :=
  let! v := payload_get manager payload in
  if negb (jtruthy v) then Ok c
  else
    let! more := spread_of (default JNull v) in
    let! here := array_items (packages_of manager c) in
    Ok (cfg_set "packages" (option_map (λ packages,
          match packages with
          | JObj l => JObj (obj_set manager (JArr (here ++ more)) l)
          | v => v
          end) (cfg_get "packages" c)) c).
(*@ src/src/modules/self-mod/apply.ts 27-30 applyInstallPackages *)
Definition add_packages (payload : json) (c : ContainerConfig) : outcome exn ContainerConfig :=
  let! c := push_packages "apt" payload c in
  push_packages "npm" payload c.

(** [v || d] *)
Definition js_default (d : json) (v : option json) : json := if jtruthy v then default d v else d.
(** [cfg.mcpServers[payload.name] = {...}]: a name that is no text is made one,
    and what is assigned to an array is not written. *)
(*@ src/src/modules/self-mod/apply.ts 74-80 applyAddMcpServer *)
Definition add_server (payload : json) (c : ContainerConfig) : outcome exn ContainerConfig :=
  let! name := payload_get "name" payload in
  let! command := payload_get "command" payload in
  let! args := payload_get "args" payload in
  let! env := payload_get "env" payload in
  let entry := JObj (given "command" command ++
                     [("args", js_default (JArr []) args); ("env", js_default (JObj []) env)]) in
  let key := match name with Some v => element_text v | None => "undefined" end in
  match cfg_get "mcpServers" c with
  | Some (JObj l) => Ok (cfg_set "mcpServers" (Some (JObj (obj_set key entry l))) c)
  | Some (JArr _) => Ok c
  | _ => Throw (Err "TypeError")
  end.

(** [[...(payload.apt || []), ...(payload.npm || [])].join(', ')] *)
(*@ src/src/modules/self-mod/apply.ts 32-35 pkgs *)
Definition pkgs_of (payload : json) : outcome exn string :=
  let! apt := payload_get "apt" payload in
  let! npm := payload_get "npm" payload in
  let! a := spread_of (js_default (JArr []) apt) in
  let! n := spread_of (js_default (JArr []) npm) in
  Ok (String.concat ", " (map element_text (a ++ n))).

Definition installed_note (pkgs : string) : string :=
  JSON_stringify (JObj [("text", JStr ("Packages installed (" +:+ pkgs +:+
    ") and container rebuilt. Verify the new packages are available (e.g. run them or check versions) and report the result to the user."));
    ("sender", JStr "system"); ("senderId", JStr "system")]).

(** The rebuild, and the message that wakes the agent five seconds later. *)
(*@ src/src/modules/self-mod/apply.ts 37-58 applyInstallPackages *)
Definition rebuild (session : Session) (pkgs : string) : hostM unit :=
  awaited turns (buildAgentGroupImage frac_value GROUPS_DIR DATA_DIR CONTAINER_IMAGE CONTAINER_IMAGE_BASE
                   docker_build (s_agent_group_id session)) ;;
  kill_container turns (s_id session) "rebuild applied" ;;
  let* now := clock turns in
  let* id := fresh_id turns "appr-note" in
  run (writeSessionMessage DATA_DIR now (s_agent_group_id session) (s_id session)
    (mkInMessage id "chat" (TIso now) (Some (s_agent_group_id session)) (Some "agent") None
       (installed_note pkgs) (Some (TSql ((now + 5000) / 1000))) None None None None None)).

(*@ src/src/modules/self-mod/apply.ts 21-66 applyInstallPackages *)
Definition applyInstallPackages : ApprovalHandler := λ session payload userId notify,
  let* agentGroup := db_read (λ db, getAgentGroup db (s_agent_group_id session)) in
  match agentGroup with
  | None => notify "install_packages approved but agent group missing."
  | Some agentGroup =>
      run (files (updateContainerConfig frac_value GROUPS_DIR (ag_folder agentGroup) (add_packages payload))) ;;
      let* pkgs := of_outcome (pkgs_of payload) in
      try_catch (rebuild session pkgs)
        (λ e, notify ("Packages added to config (" +:+ pkgs +:+ ") but rebuild failed: " +:+ error_message e +:+
                      ". Tell the user — an admin will need to retry the install_packages request or inspect the build logs."))
  end.

(*@ src/src/modules/self-mod/apply.ts 68-85 applyAddMcpServer *)
Definition applyAddMcpServer : ApprovalHandler := λ session payload userId notify,
  let* agentGroup := db_read (λ db, getAgentGroup db (s_agent_group_id session)) in
  match agentGroup with
  | None => notify "add_mcp_server approved but agent group missing."
  | Some agentGroup =>
      run (files (updateContainerConfig frac_value GROUPS_DIR (ag_folder agentGroup) (add_server payload))) ;;
      kill_container turns (s_id session) "mcp server added" ;;
      notify ("MCP server " +:+ q (match payload_get "name" payload with
                                   | Ok (Some v) => element_text v
                                   | _ => "undefined"
                                   end) +:+
              " added. Your container will restart with it on the next message.")
  end.

(*@ src/src/modules/self-mod/index.ts 29-30 registerApprovalHandler *)
Definition self_mod_handlers (action : string) : option ApprovalHandler :=
  if bool_decide (action = "install_packages") then Some applyInstallPackages
  else if bool_decide (action = "add_mcp_server") then Some applyAddMcpServer
  else None.
End selfmod.
