(* ===== verification/UnknownSenders.v ===== *)
(** * Unknown senders and unknown channels
    (src/modules/permissions/sender-approval.ts, channel-approval.ts,
    db/pending-sender-approvals.ts, db/pending-channel-approvals.ts)

    A stranger who writes into a wired chat, and a chat that is wired to no
    agent, are put before an approver: a row that holds the message, and a card.
    The row is also the guard against a second card. *)
From S2P Require Import Prelude JsString Json Types Events Central Permissions SessionDb Sessions Destinations Fs SessionManager Host Approvals.
From stdpp Require Import pretty.

Local Open Scope string_scope.
Local Open Scope Z_scope.
Local Open Scope list_scope.
Local Open Scope prog_scope.

(** ** Values of a message's JSON *)

(** [String(v)] *)
Fixpoint to_text (j : json) : string :=
  match j with
  | JNull => "null"
  | JBool b => if b then "true" else "false"
  | JNum n => pretty n
  | JFrac lit => lit
  | JStr s => s
  | JArr l => String.concat "," (map (λ v, match v with JNull => "" | _ => to_text v end) l)
  | JObj _ => "[object Object]"
  end.

(** A value bound to a TEXT column: a number is a REAL there, and what is no
    string, number or null cannot be bound. *)
Definition bind_text (v : option json) : outcome exn (option string) :=
  match v with
  | None | Some JNull => Ok None
  | Some (JStr s) => Ok (Some s)
  | Some (JNum n) => Ok (Some (pretty n +:+ ".0"))
  | Some (JFrac lit) => Ok (Some lit)
  | _ => Throw TypeError
  end.

(** ** pending_sender_approvals *)

(*@ src/src/modules/permissions/db/pending-sender-approvals.ts 28-43 createPendingSenderApproval *)
Definition createPendingSenderApproval (row : PendingSenderApproval) : dbM unit :=
  let* ok := query (λ db,
    negb (sql_exists (λ r, bool_decide (ps_id r = ps_id row) ||
      (bool_decide (ps_messaging_group_id r = ps_messaging_group_id row) &&
       bool_decide (ps_sender_identity r = ps_sender_identity row))) (pending_sender_approvals db)) &&
    fk mg_id (messaging_groups db) (Some (ps_messaging_group_id row)) &&
    fk ag_id (agent_groups db) (Some (ps_agent_group_id row))) in
  if ok : bool then
    modify (λ db, set_pending_sender_approvals (pending_sender_approvals db ++ [row]) db)
  else throw (SqliteConstraint "pending_sender_approvals").

(*@ src/src/modules/permissions/db/pending-sender-approvals.ts 45-48 getPendingSenderApproval *)
Definition getPendingSenderApproval (id : string) (db : CentralDb) : option PendingSenderApproval :=
  sql_first (λ r, bool_decide (ps_id r = id)) (pending_sender_approvals db).

(*@ src/src/modules/permissions/db/pending-sender-approvals.ts 50-55 hasInFlightSenderApproval *)
Definition hasInFlightSenderApproval (messagingGroupId senderIdentity : string) (db : CentralDb) : bool :=
  sql_exists (λ r, bool_decide (ps_messaging_group_id r = messagingGroupId) &&
                   bool_decide (ps_sender_identity r = senderIdentity)) (pending_sender_approvals db).

(*@ src/src/modules/permissions/db/pending-sender-approvals.ts 57-59 deletePendingSenderApproval *)
Definition deletePendingSenderApproval (id : string) : dbM unit :=
  modify (λ db, set_pending_sender_approvals
    (sql_delete (λ r, bool_decide (ps_id r = id)) (pending_sender_approvals db)) db).

(** ** pending_channel_approvals *)

Definition of_channel (messagingGroupId : string) (r : PendingChannelApproval) : bool :=
  bool_decide (pc_messaging_group_id r = messagingGroupId).

(*@ src/src/modules/permissions/db/pending-channel-approvals.ts 26-39 createPendingChannelApproval *)
Definition createPendingChannelApproval (row : PendingChannelApproval) : dbM unit :=
  let* ok := query (λ db,
    negb (sql_exists (of_channel (pc_messaging_group_id row)) (pending_channel_approvals db)) &&
    fk mg_id (messaging_groups db) (Some (pc_messaging_group_id row)) &&
    fk ag_id (agent_groups db) (Some (pc_agent_group_id row))) in
  if ok : bool then
    modify (λ db, set_pending_channel_approvals (pending_channel_approvals db ++ [row]) db)
  else throw (SqliteConstraint "pending_channel_approvals").

(*@ src/src/modules/permissions/db/pending-channel-approvals.ts 41-45 getPendingChannelApproval *)
Definition getPendingChannelApproval (messagingGroupId : string) (db : CentralDb)
    : option PendingChannelApproval :=
  sql_first (of_channel messagingGroupId) (pending_channel_approvals db).

(*@ src/src/modules/permissions/db/pending-channel-approvals.ts 47-52 hasInFlightChannelApproval *)
Definition hasInFlightChannelApproval (messagingGroupId : string) (db : CentralDb) : bool :=
  sql_exists (of_channel messagingGroupId) (pending_channel_approvals db).

(*@ src/src/modules/permissions/db/pending-channel-approvals.ts 54-58 updatePendingChannelApprovalCard *)
Definition updatePendingChannelApprovalCard (messagingGroupId title : string)
    (options : list NormalizedOption) : dbM unit :=
  modify (λ db, set_pending_channel_approvals
    (sql_update (of_channel messagingGroupId)
       (λ r, mkPendingChannelApproval (pc_messaging_group_id r) (pc_agent_group_id r)
               (pc_original_message r) (pc_approver_user_id r) (pc_created_at r) title options)
       (pending_channel_approvals db)) db).

(*@ src/src/modules/permissions/db/pending-channel-approvals.ts 60-62 deletePendingChannelApproval *)
Definition deletePendingChannelApproval (messagingGroupId : string) : dbM unit :=
  modify (λ db, set_pending_channel_approvals
    (sql_delete (of_channel messagingGroupId) (pending_channel_approvals db)) db).

(** ** Asking about a sender *)

(*@ src/src/modules/permissions/sender-approval.ts 41-44 APPROVAL_OPTIONS *)
Definition SENDER_OPTIONS : list NormalizedOption :=
  [mkNormalizedOption "Allow" "✅ Allowed" "approve";
   mkNormalizedOption "Deny" "❌ Denied" "reject"].

Section flows.
Context (turns : nat → Turn) (channel_adapter : string → option ChannelAdapter).

(** The row and the card, once the approver is found; [originMg] was read
    before the search. *)
(*@ src/src/modules/permissions/sender-approval.ts 93-162 requestSenderApproval *)
Definition post_sender_approval (originMg : option MessagingGroup)
    (messagingGroupId agentGroupId senderIdentity : string) (senderName : option json)
    (event : InboundEvent) (approver : string) (dm : MessagingGroup) : hostM unit :=
  let* approvalId := fresh_id turns "nsa" in
  let senderDisplay := match senderName with
                       | Some (JStr s) => if bool_decide (s = "") then senderIdentity else s
                       | _ => senderIdentity
                       end in
  let originChannelType := match originMg with Some mg => mg_channel_type mg | None => "" end in
  let originName := default ("a " +:+ originChannelType +:+ " channel")
                      (match originMg with Some mg => mg_name mg | None => None end) in
  let question := senderDisplay +:+ " wants to talk to your agent in " +:+ originName +:+ ". Allow?" in
  let* sender_name := of_outcome (bind_text senderName) in
  let* now := clock turns in
  run (central (createPendingSenderApproval
    (mkPendingSenderApproval approvalId messagingGroupId agentGroupId senderIdentity sender_name
       (store_event event) approver now "👤 New sender" SENDER_OPTIONS))) ;;
  let* adapter := gets h_adapter in
  match adapter with
  | NoAdapter => ret tt
  | AdapterSet _ =>
      let* ok := deliver_card turns dm
        (ask_question_card approvalId "👤 New sender" question SENDER_OPTIONS
           (approverExpectedUserId approver)) in
      if ok : bool then ret tt
      else run (central (deletePendingSenderApproval approvalId))
  end.

(*@ src/src/modules/permissions/sender-approval.ts 58-163 requestSenderApproval *)
Definition requestSenderApproval (messagingGroupId agentGroupId senderIdentity : string)
    (senderName : option json) (event : InboundEvent) : hostM unit :=
  let* inFlight := db_read (hasInFlightSenderApproval messagingGroupId senderIdentity) in
  if inFlight : bool then ret tt
  else
    let* approvers := db_read (λ db, pickApprover db (Some agentGroupId)) in
    match approvers with
    | [] => ret tt
    | _ =>
        let* originMg := db_read (getMessagingGroup messagingGroupId) in
        let originChannelType := match originMg with Some mg => mg_channel_type mg | None => "" end in
        let* target := pickApprovalDelivery turns channel_adapter approvers originChannelType in
        match target with
        | None => ret tt
        | Some (approver, dm) =>
            post_sender_approval originMg messagingGroupId agentGroupId senderIdentity senderName
              event approver dm
        end
    end.

(** ** Asking about a channel *)

(*@ src/src/modules/permissions/channel-approval.ts 71-71 CONNECT_PREFIX *)
Definition CONNECT_PREFIX : string := "connect:".
(*@ src/src/modules/permissions/channel-approval.ts 72-72 NEW_AGENT_VALUE *)
Definition NEW_AGENT_VALUE : string := "new_agent".
(*@ src/src/modules/permissions/channel-approval.ts 73-73 CHOOSE_EXISTING_VALUE *)
Definition CHOOSE_EXISTING_VALUE : string := "choose_existing".
(*@ src/src/modules/permissions/channel-approval.ts 74-74 REJECT_VALUE *)
Definition REJECT_VALUE : string := "reject".

Definition connect_option (g : AgentGroup) (label : string) : NormalizedOption :=
  mkNormalizedOption label ("✅ Connected to " +:+ ag_name g) (CONNECT_PREFIX +:+ ag_id g).

(*@ src/src/modules/permissions/channel-approval.ts 89-115 buildApprovalOptions *)
Definition buildApprovalOptions (agentGroups : list AgentGroup) : list NormalizedOption :=
  match agentGroups with
  | [g] => [connect_option g ("Connect to " +:+ ag_name g)]
  | _ => [mkNormalizedOption "Choose existing agent" "📋 Choosing…" CHOOSE_EXISTING_VALUE]
  end ++
  [mkNormalizedOption "Connect new agent" "🆕 Connecting new agent…" NEW_AGENT_VALUE;
   mkNormalizedOption "Reject" "🙅 Rejected" REJECT_VALUE].

(*@ src/src/modules/permissions/channel-approval.ts 271-283 buildAgentSelectionOptions *)
Definition buildAgentSelectionOptions (agentGroups : list AgentGroup) : list NormalizedOption :=
  map (λ g, connect_option g (ag_name g)) agentGroups ++
  [mkNormalizedOption "Cancel" "🙅 Cancelled" REJECT_VALUE].

(*@ src/src/modules/permissions/channel-approval.ts 117-129 buildQuestionText *)
Definition buildQuestionText (isGroup : bool) (senderName channelName : option string)
    (channelType : string) : string :=
  let who := default "Someone" senderName in
  if isGroup then
    let where_ := if truthy channelName then default "" channelName +:+ " on " +:+ channelType
                  else "a " +:+ channelType +:+ " channel" in
    who +:+ " mentioned your bot in " +:+ where_ +:+ ". How would you like to handle this channel?"
  else who +:+ " sent your bot a DM on " +:+ channelType +:+ ". How would you like to handle it?".

(** [parsed.senderName ?? parsed.sender]; a content that is no JSON, or [null],
    has none. *)
(*@ src/src/modules/permissions/channel-approval.ts 196-202 senderName *)
Definition channel_sender_name (content : string) : option string :=
  match JSON_parse content with
  | None => None
  | Some parsed =>
      let nullish v := match v with Some JNull => None | v => v end in
      match jget "senderName" parsed, jget "sender" parsed with
      | AValue a, AValue b =>
          option_map to_text (match nullish a with Some v => Some v | None => nullish b end)
      | _, _ => None
      end
  end.

(** The name of the channel, asked of its adapter when it is not known. *)
(*@ src/src/modules/permissions/channel-approval.ts 169-183 originMg *)
Definition learn_channel_name (originMg : option MessagingGroup) : hostM (option string) :=
  match originMg with
  | None => ret None
  | Some mg =>
      if truthy (mg_name mg) then ret (mg_name mg)
      else match channel_adapter (mg_channel_type mg) with
           | Some adapter =>
               if ca_resolveChannelName adapter then
                 let* name := await turns (λ t, default None (t_text t)) in
                 if truthy name then
                   run (central (updateMessagingGroup (mg_id mg) (Some name) None None)) ;; ret name
                 else ret (mg_name mg)
               else ret (mg_name mg)
           | None => ret (mg_name mg)
           end
  end.

(** The row and the card, once the approver is found; the rest was read before. *)
(*@ src/src/modules/permissions/channel-approval.ts 194-263 requestChannelApproval *)
Definition post_channel_approval (originMg : option MessagingGroup) (channelName : option string)
    (agentGroups : list AgentGroup) (referenceGroup : AgentGroup) (messagingGroupId : string)
    (event : InboundEvent) (approver : string) (dm : MessagingGroup) : hostM unit :=
  let isGroup := default (match originMg with Some mg => mg_is_group mg | None => false end)
                   (ev_isGroup event) in
  let originChannelType := match originMg with Some mg => mg_channel_type mg | None => "" end in
  let title := if isGroup then "📣 Bot mentioned in new channel" else "💬 New direct message" in
  let question := buildQuestionText isGroup (channel_sender_name (ev_content event)) channelName
                    originChannelType in
  let* visibleGroups := db_read (λ db,
    List.filter (λ g, allowed (canAccessAgentGroup db approver (ag_id g))) agentGroups) in
  let options := buildApprovalOptions visibleGroups in
  let* now := clock turns in
  run (central (createPendingChannelApproval
    (mkPendingChannelApproval messagingGroupId (ag_id referenceGroup) (store_event event) approver
       now title options))) ;;
  let* adapter := gets h_adapter in
  match adapter with
  | NoAdapter => ret tt
  | AdapterSet _ =>
      let* ok := deliver_card turns dm
        (ask_question_card messagingGroupId title question options (approverExpectedUserId approver)) in
      if ok : bool then ret tt
      else run (central (deletePendingChannelApproval messagingGroupId))
  end.

(*@ src/src/modules/permissions/channel-approval.ts 138-264 requestChannelApproval *)
Definition requestChannelApproval (messagingGroupId : string) (event : InboundEvent) : hostM unit :=
  let* inFlight := db_read (hasInFlightChannelApproval messagingGroupId) in
  if inFlight : bool then ret tt
  else
    let* agentGroups := db_read getAllAgentGroups in
    match agentGroups with
    | [] => ret tt
    | referenceGroup :: _ =>
        let* approvers := db_read (λ db, pickApprover db (Some (ag_id referenceGroup))) in
        match approvers with
        | [] => ret tt
        | _ =>
            let* originMg := db_read (getMessagingGroup messagingGroupId) in
            let originChannelType := match originMg with Some mg => mg_channel_type mg | None => "" end in
            let* channelName := learn_channel_name originMg in
            let* target := pickApprovalDelivery turns channel_adapter approvers originChannelType in
            match target with
            | None => ret tt
            | Some (approver, dm) =>
                post_channel_approval originMg channelName agentGroups referenceGroup messagingGroupId
                  event approver dm
            end
        end
    end.

(** ** A new agent for a channel *)

(** [initGroupFilesystem], which only works on files. *)
Context (initGroupFilesystem : AgentGroup → fsM unit).

(*@ src/src/modules/permissions/channel-approval.ts 78-85 toFolder *)
Definition toFolder (name : string) : string := normalizeName name.

(*@ src/src/modules/permissions/channel-approval.ts 290-296 folder *)
Definition pick_folder (name : string) (db : CentralDb) : option string :=
  free_name (S (length (agent_groups db)))
    (λ f, bool_decide (is_Some (getAgentGroupByFolder db f))) (toFolder name) (toFolder name) 2.

(*@ src/src/modules/permissions/channel-approval.ts 289-314 createNewAgentGroup *)
Definition createNewAgentGroup (now : time) (agId name : string) (organizationId : option string)
    : wM AgentGroup :=
  let* folder := db_get (pick_folder name) in
  match folder with
  | None => throw (Err "out of fuel")
  | Some folder =>
      let ag := mkAgentGroup agId name folder None now organizationId None in
      central (createAgentGroup ag) ;;
      let* row := db_get (λ db, getAgentGroup db agId) in
      files (initGroupFilesystem (default ag row)) ;;
      ret (default ag row)
  end.
End flows.
