(* ===== verification/Ingress.v ===== *)
(** * Who may write to an agent (src/modules/permissions/index.ts)

    The hooks the permissions module puts into the router: who the sender is,
    whether the agent hears them, what happens to a stranger, and the two cards
    an approver answers.  An admitted message is routed again: [routeInbound]
    is the router, an argument here and tied in Router.v. *)
From S2P Require Import Prelude JsString Json Types Events Central Permissions SessionDb Sessions Destinations Fs SessionManager Host Approvals UnknownSenders.

Local Open Scope string_scope.
Local Open Scope Z_scope.
Local Open Scope list_scope.
Local Open Scope prog_scope.

(** ** The sender *)

(** Property access that throws on [null]. *)
Definition prop (k : string) (j : json) : hostM (option json) :=
  match jget k j with AThrow => throw (OtherError TypeError) | AValue v => ret v end.

Definition quoted (s : string) : string :=
  let q := String (Ascii.ascii_of_nat 34) EmptyString in q +:+ s +:+ q.

Definition or_else {A} (a b : option A) : option A := match a with Some _ => a | None => b end.

(** The handle and the name a message carries; [None] for the handle of a
    message that names nobody. *)
(*@ src/src/modules/permissions/index.ts 79-92 extractAndUpsertUser *)
Definition sender_fields (content : json) : option string * option string :=
  let field k j := match jget k j with AValue v => jstring v | AThrow => None end in
  let author k := match jget "author" content with
                  | AValue (Some a) => field k a
                  | _ => None
                  end in
  (or_else (field "senderId" content) (or_else (field "sender" content) (author "userId")),
   or_else (field "senderName" content) (or_else (author "fullName") (author "userName"))).

(** A handle with a colon is taken for an id that is already namespaced. *)
(*@ src/src/modules/permissions/index.ts 94-94 userId *)
Definition namespaced (channelType rawHandle : string) : string :=
  if includes rawHandle ":" then rawHandle else channelType +:+ ":" +:+ rawHandle.

Section ingress.
Context (turns : nat → Turn) (channel_adapter : string → option ChannelAdapter)
  (initGroupFilesystem : AgentGroup → fsM unit).

(*@ src/src/modules/permissions/index.ts 68-104 extractAndUpsertUser *)
Definition extractAndUpsertUser (event : InboundEvent) : hostM (option string) :=
  match JSON_parse (ev_content event) with
  | None => ret None
  | Some JNull => throw (OtherError TypeError)
  | Some content =>
      let '(rawHandle, senderName) := sender_fields content in
      if negb (truthy rawHandle) then ret None
      else
        let userId := namespaced (ev_channelType event) (default "" rawHandle) in
        let* known := db_read (λ db, bool_decide (is_Some (getUser db userId))) in
        (if known : bool then ret tt
         else
           let* now := clock turns in
           run (central (upsertUser (mkUser userId (ev_channelType event) senderName now)))) ;;
        ret (Some userId)
  end.

(*@ src/src/modules/permissions/index.ts 106-112 safeParseContent *)
Definition safeParseContent (raw : string) : json :=
  match JSON_parse raw with Some j => j | None => JObj [("text", JStr raw)] end.

(** ** The gates *)

(*@ src/src/router.ts 102-102 AccessGateResult *)
Inductive AccessGateResult := GateAllowed | GateRefused (reason : string).
Definition gate_allowed (r : AccessGateResult) : bool :=
  match r with GateAllowed => true | GateRefused _ => false end.

Definition policy_name (p : UnknownSenderPolicy) : string :=
  match p with strict => "strict" | request_approval => "request_approval" | public => "public" end.
Definition decision_reason (d : AccessDecision) : string :=
  match d with
  | AllowedOwner => "owner" | AllowedGlobalAdmin => "global_admin" | AllowedOrgAdmin => "org_admin"
  | AllowedAdminOfGroup => "admin_of_group" | AllowedMember => "member"
  | DeniedUnknownUser => "unknown_user" | DeniedNotMember => "not_member"
  | DeniedOperabilityOnly => "operability_only" | DeniedCrossOrg => "cross_org_denied"
  end.

(*@ src/src/modules/permissions/index.ts 114-170 handleUnknownSender *)
Definition handleUnknownSender (mg : MessagingGroup) (userId : option string) (agentGroupId : string)
    (event : InboundEvent) : hostM unit :=
  let* senderName := prop "sender" (safeParseContent (ev_content event)) in
  match mg_unknown_sender_policy mg with
  | public => ret tt
  | policy =>
      let* now := clock turns in
      let* sender_name := of_outcome (bind_text senderName) in
      run (central (recordDroppedMessage now (ev_channelType event) (ev_platformId event) userId
             sender_name ("unknown_sender_" +:+ policy_name policy) (Some (mg_id mg))
             (Some agentGroupId))) ;;
      if bool_decide (policy = request_approval) && truthy userId then
        start (RequestSenderApproval (mg_id mg) agentGroupId (default "" userId) senderName event)
      else ret tt
  end.

(*@ src/src/modules/permissions/index.ts 181-186 publicIngressAllowed *)
Definition publicIngressAllowed (db : CentralDb) (userId : option string) (agentGroupId : string)
    : bool :=
  match orgOfAgentGroup db agentGroupId with
  | None => true
  | Some org =>
      truthy userId &&
      (let u := default "" userId in isMemberOfOrg db u org || isOwner db u || isGlobalAdmin db u)
  end.

(*@ src/src/modules/permissions/index.ts 188-213 setAccessGate *)
Definition accessGate (event : InboundEvent) (userId : option string) (mg : MessagingGroup)
    (agentGroupId : string) : hostM AccessGateResult :=
  if bool_decide (mg_unknown_sender_policy mg = public) then
    let* ok := db_read (λ db, publicIngressAllowed db userId agentGroupId) in
    ret (if ok : bool then GateAllowed else GateRefused "cross_org_public")
  else if negb (truthy userId) then
    handleUnknownSender mg None agentGroupId event ;;
    ret (GateRefused "unknown_user")
  else
    let* decision := db_read (λ db, canAccessAgentGroup db (default "" userId) agentGroupId) in
    if allowed decision then ret GateAllowed
    else
      handleUnknownSender mg userId agentGroupId event ;;
      ret (GateRefused (decision_reason decision)).

(** A wiring of before migration 008 has no scope, which is not ['all']. *)
(*@ src/src/modules/permissions/index.ts 223-236 setSenderScopeGate *)
Definition senderScopeGate (db : CentralDb) (userId : option string) (agent : MessagingGroupAgent)
    : AccessGateResult :=
  if bool_decide (mga_sender_scope agent = Some SenderAll) then
    if publicIngressAllowed db userId (mga_agent_group_id agent) then GateAllowed
    else GateRefused "cross_org_scope_all"
  else if negb (truthy userId) then GateRefused "unknown_user_scope"
  else
    let decision := canAccessAgentGroup db (default "" userId) (mga_agent_group_id agent) in
    if allowed decision then GateAllowed
    else GateRefused ("sender_scope_" +:+ decision_reason decision).

(** ** The two cards *)

Section replay.
Context (routeInbound : InboundEvent → hostM unit).

(** The clicker under their namespaced id, and whether they may decide. *)
(*@ src/src/modules/permissions/index.ts 261-263 clickerId *)
Definition clicker (payload : ResponsePayload) : option string :=
  if truthy (rp_userId payload)
  then Some (rp_channelType payload +:+ ":" +:+ default "" (rp_userId payload)) else None.
(*@ src/src/modules/permissions/index.ts 342-344 isAuthorized *)
Definition may_decide (db : CentralDb) (clickerId : option string) (approver agentGroupId : string)
    : bool :=
  match clickerId with
  | None => false
  | Some c => bool_decide (c = approver) || hasAdminPrivilege db c agentGroupId
  end.

(** Membership of the group, and of its organization. *)
(*@ src/src/modules/permissions/index.ts 276-285 handleSenderApprovalResponse *)
Definition enrol (userId agentGroupId addedBy : string) : hostM unit :=
  let* now := clock turns in
  run (central (addMember (mkAgentGroupMember userId agentGroupId (Some addedBy) now))) ;;
  let* admitOrg := db_read (λ db, orgOfAgentGroup db agentGroupId) in
  if truthy admitOrg
  then run (central (addOrgMember now (default "" admitOrg) userId (Some addedBy)))
  else ret tt.

(** The stored message is routed again; whatever goes wrong is only logged. *)
(*@ src/src/modules/permissions/index.ts 297-302 handleSenderApprovalResponse *)
Definition replay (original_message : string) : hostM unit :=
  match load_event original_message with
  | None => ret tt
  | Some event => try_catch (routeInbound event) (λ _, ret tt)
  end.

(*@ src/src/modules/permissions/index.ts 252-314 handleSenderApprovalResponse *)
Definition handleSenderApprovalResponse (payload : ResponsePayload) : hostM bool :=
  let* row := db_read (getPendingSenderApproval (rp_questionId payload)) in
  match row with
  | None => ret false
  | Some row =>
      let clickerId := clicker payload in
      let* ok := db_read (λ db, may_decide db clickerId (ps_approver_user_id row) (ps_agent_group_id row)) in
      if negb ok then ret true
      else if bool_decide (rp_value payload = "approve") then
        enrol (ps_sender_identity row) (ps_agent_group_id row) (default "" clickerId) ;;
        run (central (deletePendingSenderApproval (ps_id row))) ;;
        replay (ps_original_message row) ;;
        ret true
      else
        run (central (deletePendingSenderApproval (ps_id row))) ;;
        ret true
  end.

Definition drop_channel_row (row : PendingChannelApproval) : hostM unit :=
  run (central (deletePendingChannelApproval (pc_messaging_group_id row))).

(** The wiring of the channel to the agent, its triggering sender admitted, and
    the message routed again.  The source has these lines twice. *)
(*@ src/src/modules/permissions/index.ts 489-550 handleChannelApprovalResponse *)
Definition wire_and_replay (row : PendingChannelApproval) (targetAgentGroupId approverId : string)
    : hostM unit :=
  match load_event (pc_original_message row) with
  | None => drop_channel_row row
  | Some event =>
      let isGroup := bool_decide (is_Some (ev_threadId event)) in
      let* mgaId := fresh_id turns "mga" in
      let* now := clock turns in
      run (central (createMessagingGroupAgent
        (mkMessagingGroupAgent mgaId (pc_messaging_group_id row) targetAgentGroupId
           (Some (if isGroup then EngageMentionSticky else EngagePattern))
           (if isGroup then None else Some ".") (Some SenderKnown) (Some IgnoredAccumulate)
           SMshared 0 now))) ;;
      let* senderUserId := extractAndUpsertUser event in
      (if truthy senderUserId then enrol (default "" senderUserId) targetAgentGroupId approverId
       else ret tt) ;;
      drop_channel_row row ;;
      try_catch (routeInbound event) (λ _, ret tt)
  end.

(** The follow-up card, which is not scoped to the approver. *)
(*@ src/src/modules/permissions/index.ts 366-409 handleChannelApprovalResponse *)
Definition choose_existing (row : PendingChannelApproval) (approverId : string) : hostM unit :=
  let* approverDm := ensureUserDm turns channel_adapter (pc_approver_user_id row) in
  match approverDm with
  | None => ret tt
  | Some dm =>
      let* adapter := gets h_adapter in
      match adapter with
      | NoAdapter => ret tt
      | AdapterSet _ =>
          let* agentGroups := db_read (λ db,
            List.filter (λ g, allowed (canAccessAgentGroup db approverId (ag_id g)))
              (getAllAgentGroups db)) in
          let options := buildAgentSelectionOptions agentGroups in
          run (central (updatePendingChannelApprovalCard (pc_messaging_group_id row)
                 "📋 Choose an agent" options)) ;;
          deliver_card turns dm
            (ask_question_card (pc_messaging_group_id row) "📋 Choose an agent"
               "Which agent should handle this channel?" options None) ;;
          ret tt
      end
  end.

(** The prompt for a name; the reply is awaited from the approver's chat. *)
(*@ src/src/modules/permissions/index.ts 411-452 handleChannelApprovalResponse *)
Definition prompt_name (row : PendingChannelApproval) : hostM unit :=
  let* approverDm := ensureUserDm turns channel_adapter (pc_approver_user_id row) in
  match approverDm with
  | None => ret tt
  | Some dm =>
      let* adapter := gets h_adapter in
      match adapter with
      | NoAdapter => ret tt
      | AdapterSet _ =>
          modify (λ h, set_awaiting (<[pc_approver_user_id row :=
            mkPendingName (pc_messaging_group_id row) (mg_channel_type dm) (mg_platform_id dm)]>
            (h_awaiting h)) h) ;;
          let* ok := deliver_card turns dm
            (JObj [("text", JStr "Reply with the name for your new agent:")]) in
          if ok : bool then ret tt
          else modify (λ h, set_awaiting (delete (pc_approver_user_id row) (h_awaiting h)) h)
      end
  end.

(** The agent to connect, when it is there and the approver has access to it. *)
(*@ src/src/modules/permissions/index.ts 457-480 targetAgentGroupId *)
Definition connectable (db : CentralDb) (approverId targetAgentGroupId : string) : bool :=
  bool_decide (is_Some (getAgentGroup db targetAgentGroupId)) &&
  allowed (canAccessAgentGroup db approverId targetAgentGroupId).

(*@ src/src/modules/permissions/index.ts 338-551 handleChannelApprovalResponse *)
Definition handleChannelApprovalResponse (payload : ResponsePayload) : hostM bool :=
  let* row := db_read (getPendingChannelApproval (rp_questionId payload)) in
  match row with
  | None => ret false
  | Some row =>
      let clickerId := clicker payload in
      let* ok := db_read (λ db, may_decide db clickerId (pc_approver_user_id row) (pc_agent_group_id row)) in
      let approverId := default "" clickerId in
      let value := rp_value payload in
      (if negb ok then ret tt
       else if bool_decide (value = REJECT_VALUE) then
         let* now := clock turns in
         run (central (setMessagingGroupDeniedAt (pc_messaging_group_id row) (Some now))) ;;
         drop_channel_row row
       else if bool_decide (value = CHOOSE_EXISTING_VALUE) then choose_existing row approverId
       else if bool_decide (value = NEW_AGENT_VALUE) then prompt_name row
       else if negb (startsWith value CONNECT_PREFIX) then ret tt
       else
         let target := drop_string (String.length CONNECT_PREFIX) value in
         let* ok := db_read (λ db, connectable db approverId target) in
         if negb ok then drop_channel_row row else wire_and_replay row target approverId) ;;
      ret true
  end.

(** ** The reply with a name *)

(*@ src/src/modules/permissions/index.ts 569-575 text *)
Definition trimmed_text (content : string) : option string :=
  match JSON_parse content with
  | Some (JObj l) => option_map trim (jstring (obj_get "text" l))
  | _ => None
  end.

(** The new agent, wired, and the approver told; [pending] has been removed. *)
(*@ src/src/modules/permissions/index.ts 582-673 row *)
Definition create_named_agent (pending : PendingNameInput) (userId text : string) : hostM unit :=
  let* row := db_read (getPendingChannelApproval (pn_channelMgId pending)) in
  match row with
  | None => ret tt
  | Some row =>
      let* org := db_read (λ db, match orgsForUser db userId with [o] => Some o | _ => None end) in
      let* now := clock turns in
      let* agId := fresh_id turns "ag" in
      let* ag := run (createNewAgentGroup initGroupFilesystem now agId text org) in
      let parsed := bool_decide (is_Some (load_event (pc_original_message row))) in
      wire_and_replay row (ag_id ag) userId ;;
      if negb parsed then ret tt
      else
        let* adapter := gets h_adapter in
        match adapter with
        | NoAdapter => ret tt
        | AdapterSet _ =>
            let* dm := ensureUserDm turns channel_adapter (pc_approver_user_id row) in
            match dm with
            | None => ret tt
            | Some dm => adapter_cast turns (mg_channel_type dm) (mg_platform_id dm) None "chat-sdk"
                (JSON_stringify (JObj [("text", JStr ("✅ Agent " +:+ quoted (ag_name ag) +:+
                                                      " created and connected."))]))
            end
        end
  end.

(*@ src/src/modules/permissions/index.ts 559-674 setMessageInterceptor *)
Definition nameInterceptor (event : InboundEvent) : hostM bool :=
  let* userId := extractAndUpsertUser event in
  if negb (truthy userId) then ret false
  else
    let userId := default "" userId in
    let* pending := gets (λ h, h_awaiting h !! userId) in
    match pending with
    | None => ret false
    | Some pending =>
        if negb (bool_decide (ev_channelType event = pn_dmChannelType pending)) ||
           negb (bool_decide (ev_platformId event = pn_dmPlatformId pending)) then ret false
        else
          modify (λ h, set_awaiting (delete userId (h_awaiting h)) h) ;;
          let text := trimmed_text (ev_content event) in
          (if negb (truthy text) then ret tt
           else create_named_agent pending userId (default "" text)) ;;
          ret true
    end.
End replay.

(** ** The calls that are started *)

(*@ src/src/modules/permissions/index.ts 320-322 setChannelRequestGate *)
Definition run_job (j : Job) : hostM unit :=
  match j with
  | RequestSenderApproval mg ag who name event =>
      requestSenderApproval turns channel_adapter mg ag who name event
  | RequestChannelApproval mg event => requestChannelApproval turns channel_adapter mg event
  | Subscribe _ _ _ | ResolveCredential _ _ | KillContainer _ _ => ret tt
  end.
End ingress.

(** ** Ingress: who decides, and what a decision does

    A click of somebody who may not decide does nothing; an approval lets the
    sender through the gates before the message is routed again; and the list
    of approvers is exactly the people whose role makes them one. *)

Definition db_of (h : Host) : CentralDb := w_db (h_world h).
Definition with_db (db : CentralDb) (h : Host) : Host := set_world (set_db db (h_world h)) h.

(** A statement on the central database, run on the host. *)
Lemma run_central {A} (m : dbM A) h a db :
  m (db_of h) = (Ok a, db) → run (central m) h = (Ok a, with_db db h).
Proof. intros H. unfold run, central. unfold db_of in H. by rewrite H. Qed.
Lemma db_of_with db h : db_of (with_db db h) = db.
Proof. done. Qed.

(** ** Admitting *)

Lemma fk_some {R} (key : R → string) (t : list R) k :
  is_Some (sql_first (λ r, bool_decide (key r = k)) t) → fk key t (Some k) = true.
Proof. intros [r Hr]. unfold fk. rewrite sql_exists_first. by rewrite Hr. Qed.

(** The row is there afterwards, and nothing else changed. *)
Lemma addMember_adds row db :
  is_Some (getUser db (agm_user_id row)) → is_Some (getAgentGroup db (agm_agent_group_id row)) →
  fk u_id (users db) (agm_added_by row) = true →
  ∃ l, addMember row db = (Ok tt, set_agent_group_members l db) ∧
       sql_exists (member_row (agm_user_id row) (agm_agent_group_id row)) l = true.
Proof.
  intros Hu Hg Hb. unfold addMember, bind, query, gets. cbv beta iota zeta.
  destruct (sql_exists _ _) eqn:E.
  - exists (agent_group_members db). split; [by destruct db|done].
  - rewrite (fk_some u_id), (fk_some ag_id), Hb by done. cbv beta iota zeta delta [andb negb].
    exists (agent_group_members db ++ [row]). split; [done|].
    apply sql_exists_true. exists row. split; [apply elem_of_app; right; left|].
    unfold member_row. by rewrite !bool_decide_eq_true_2.
Qed.

Lemma addOrgMember_adds now org user by_ db :
  fk org_id (organizations db) (Some org) = true → is_Some (getUser db user) →
  fk u_id (users db) by_ = true →
  ∃ l a, addOrgMember now org user by_ db =
           (Ok tt, set_enterprise_audit a (set_organization_members l db)) ∧
         sql_exists (org_member_row org user) l = true.
Proof.
  intros Ho Hu Hb. unfold addOrgMember, bind, query, gets. cbv beta iota zeta.
  destruct (sql_exists _ _) eqn:E.
  - exists (organization_members db), (enterprise_audit db). split; [by destruct db|done].
  - rewrite Ho, Hb, (fk_some u_id) by done. cbv beta iota zeta delta [andb negb]. do 2 eexists. split; [done|].
    apply sql_exists_true. eexists. split; [apply elem_of_app; right; left|].
    unfold org_member_row. cbn. by rewrite !bool_decide_eq_true_2.
Qed.

(** A member of the group, and of its organization if it has one, has access. *)
Lemma member_has_access db u ag :
  is_Some (getUser db u) → hasMembershipRow db u ag = true →
  (∀ o, orgOfAgentGroup db ag = Some o → isMemberOfOrg db u o = true) →
  allowed (canAccessAgentGroup db u ag) = true.
Proof.
  intros [x Hx] Hm Ho. unfold canAccessAgentGroup. rewrite Hx.
  destruct (isOwner db u); [done|]. destruct (isGlobalAdmin db u); [done|].
  assert (in_org (orgOfAgentGroup db ag) (λ o, negb (isMemberOfOrg db u o)) = false) as ->.
  { destruct (orgOfAgentGroup db ag) as [o|]; [|done]. simpl. by rewrite Ho. }
  destruct (in_org _ _); [done|]. destruct (isAdminOfAgentGroup db u ag); [done|].
  assert (isMember db u ag = true) as ->; [|done]. unfold isMember. destruct_if; done.
Qed.

(** What an approval needs of the tables: the rows that its inserts refer to. *)
Definition admissible (db : CentralDb) (user ag added_by : string) : Prop :=
  is_Some (getUser db user) ∧ is_Some (getAgentGroup db ag) ∧ is_Some (getUser db added_by) ∧
  ∀ o, orgOfAgentGroup db ag = Some o → o ≠ "" ∧ is_Some (getOrganization db o).

Section ingress.
Context (turns : nat → Turn).

(** After [enrol] the user has access, and the rest of the tables is as it was. *)
Lemma admit_admits user ag by_ h :
  admissible (db_of h) user ag by_ →
  ∃ members orgs audit, let db := set_enterprise_audit audit (set_organization_members orgs
                                    (set_agent_group_members members (db_of h))) in
    enrol turns user ag by_ h = (Ok tt, with_db db h) ∧
    allowed (canAccessAgentGroup db user ag) = true.
Proof.
  intros (Hu & Hg & Hb & Ho). unfold enrol. erewrite bind_ok by done.
  destruct (addMember_adds (mkAgentGroupMember user ag (Some by_) (t_now (turn_of turns h))) (db_of h))
    as (l & Hl & Hin); [done..|by apply fk_some|]. cbn in Hin.
  erewrite bind_ok by (by apply run_central). erewrite bind_ok by done.
  change (orgOfAgentGroup _ ag) with (orgOfAgentGroup (db_of h) ag).
  destruct (orgOfAgentGroup (db_of h) ag) as [o|] eqn:Eo.
  - destruct (Ho o eq_refl) as [Hne Horg].
    assert (truthy (Some o) = true) as -> by (cbn; by rewrite bool_decide_eq_false_2). cbn [default].
    destruct (addOrgMember_adds (t_now (turn_of turns h)) o user (Some by_)
                (set_agent_group_members l (db_of h))) as (lo & a & Ha & Hino);
      [by apply fk_some|done|by apply fk_some|].
    exists l, lo, a. cbn zeta. split.
    + erewrite run_central by exact Ha. done.
    + apply member_has_access; [done|exact Hin|].
      intros o'. change (orgOfAgentGroup _ ag) with (orgOfAgentGroup (db_of h) ag). rewrite Eo.
      intros [= <-]. exact Hino.
  - exists l, (organization_members (db_of h)), (enterprise_audit (db_of h)). cbn zeta. split.
    + cbn [truthy]. unfold ret. by destruct (db_of h).
    + apply member_has_access; [done|exact Hin|].
      intros o'. change (orgOfAgentGroup _ ag) with (orgOfAgentGroup (db_of h) ag). by rewrite Eo.
Qed.

Section handlers.
Context (routeInbound : InboundEvent → hostM unit).

(** An approved sender passes the gates.  When the approver, or an admin of
    the group, clicks [approve], the stored message is routed again from a
    state in which the sender has access to the agent group: the access gate
    lets them through on any chat that is not public, the sender-scope gate on
    a wiring for known senders, and the request is gone, so that a second
    click finds nothing.  This holds in every organization setting, provided
    the rows the two membership inserts refer to are there. *)
Theorem approved_sender_is_admitted payload row h :
  getPendingSenderApproval (rp_questionId payload) (db_of h) = Some row →
  rp_value payload = "approve" →
  may_decide (db_of h) (clicker payload) (ps_approver_user_id row) (ps_agent_group_id row) = true →
  admissible (db_of h) (ps_sender_identity row) (ps_agent_group_id row) (default "" (clicker payload)) →
  ps_sender_identity row ≠ "" →
  ∃ h1, handleSenderApprovalResponse turns routeInbound payload h =
          (replay routeInbound (ps_original_message row) ;; ret true) h1 ∧
    getPendingSenderApproval (ps_id row) (db_of h1) = None ∧
    (∀ event mg, mg_unknown_sender_policy mg ≠ public →
       accessGate turns event (Some (ps_sender_identity row)) mg (ps_agent_group_id row) h1 =
       (Ok GateAllowed, h1)) ∧
    (∀ agent, mga_agent_group_id agent = ps_agent_group_id row → mga_sender_scope agent = Some SenderKnown →
       senderScopeGate (db_of h1) (Some (ps_sender_identity row)) agent = GateAllowed).
Proof.
  intros Hrow Hv Hmay Hadm Hne. unfold handleSenderApprovalResponse.
  erewrite bind_ok by done. change (w_db (h_world h)) with (db_of h). rewrite Hrow.
  erewrite bind_ok by done. change (w_db (h_world h)) with (db_of h). rewrite Hmay, Hv. cbn [negb].
  rewrite bool_decide_eq_true_2 by done.
  destruct (admit_admits _ _ _ _ Hadm) as (ms & os & au & Ha & Hacc).
  erewrite bind_ok by exact Ha.
  erewrite bind_ok by (by apply run_central).
  eexists. split; [reflexivity|]. split.
  { unfold getPendingSenderApproval. cbn. apply sql_first_deleted. }
  assert (truthy (Some (ps_sender_identity row)) = true) as Ht
    by (cbn; by rewrite bool_decide_eq_false_2).
  split.
  - intros event mg Hp. unfold accessGate. rewrite bool_decide_eq_false_2, Ht by done. cbn [negb].
    erewrite bind_ok by done. cbn [default].
    match goal with |- context [allowed ?d] =>
      replace (allowed d) with true by (symmetry; exact Hacc) end. done.
  - intros agent Hag Hs. unfold senderScopeGate. rewrite Hs, Hag, Ht. cbn [negb default].
    rewrite bool_decide_eq_false_2 by done.
    match goal with |- context [allowed ?d] =>
      replace (allowed d) with true by (symmetry; exact Hacc) end. done.
Qed.

(** C8: Only an approver decides.  A click on the card of an unknown sender, or
    of an unknown channel, is claimed and does nothing at all unless it comes
    from the approver the request was put to or from somebody with admin
    rights over its agent group: no member, no wiring, no denial, no message. *)
Theorem only_approvers_decide payload (h : Host) :
  (∀ row, getPendingSenderApproval (rp_questionId payload) (db_of h) = Some row →
     clicker payload ≠ Some (ps_approver_user_id row) →
     (∀ c, clicker payload = Some c → hasAdminPrivilege (db_of h) c (ps_agent_group_id row) = false) →
     handleSenderApprovalResponse turns routeInbound payload h = (Ok true, h)) ∧
  (∀ row adapters, getPendingChannelApproval (rp_questionId payload) (db_of h) = Some row →
     clicker payload ≠ Some (pc_approver_user_id row) →
     (∀ c, clicker payload = Some c → hasAdminPrivilege (db_of h) c (pc_agent_group_id row) = false) →
     handleChannelApprovalResponse turns adapters routeInbound payload h = (Ok true, h)).
Proof.
  assert (∀ approver ag, clicker payload ≠ Some approver →
    (∀ c, clicker payload = Some c → hasAdminPrivilege (db_of h) c ag = false) →
    may_decide (db_of h) (clicker payload) approver ag = false) as Hno.
  { intros approver ag Hne Hadm. unfold may_decide. destruct (clicker payload) as [c|]; [|done].
    rewrite Hadm by done. rewrite bool_decide_eq_false_2; [done|congruence]. }
  split.
  - intros row Hrow Hne Hadm. unfold handleSenderApprovalResponse. erewrite bind_ok by done.
    change (w_db (h_world h)) with (db_of h). rewrite Hrow. erewrite bind_ok by done.
    change (w_db (h_world h)) with (db_of h). by rewrite Hno.
  - intros row adapters Hrow Hne Hadm. unfold handleChannelApprovalResponse. erewrite bind_ok by done.
    change (w_db (h_world h)) with (db_of h). rewrite Hrow. erewrite bind_ok by done.
    change (w_db (h_world h)) with (db_of h). by rewrite Hno.
Qed.
End handlers.
End ingress.

(** ** Approvers *)

Lemma set_of_spec l : NoDup (set_of l) ∧ ∀ x, x ∈ set_of l ↔ x ∈ l.
Proof.
  unfold set_of. cut (∀ acc, NoDup acc →
    NoDup (fold_left (λ acc x, if bool_decide (x ∈ acc) then acc else acc ++ [x]) l acc) ∧
    ∀ x : string, x ∈ fold_left (λ acc x, if bool_decide (x ∈ acc) then acc else acc ++ [x]) l acc ↔
                  x ∈ acc ∨ x ∈ l).
  { intros H. destruct (H []) as [H1 H2]; [apply NoDup_nil_2|]. split; [done|]. intros x.
    rewrite H2. set_solver. }
  induction l as [|y l IH]; intros acc Hnd; simpl; [set_solver|].
  destruct (IH (if bool_decide (y ∈ acc) then acc else acc ++ [y])) as [H1 H2].
  { case_bool_decide; [done|]. apply NoDup_app. split; [done|]. split; [|apply NoDup_singleton].
    set_solver. }
  split; [done|]. intros x. rewrite H2. case_bool_decide; set_solver.
Qed.

(** Adding more leaves what was there in front. *)
Lemma set_of_app l1 l2 :
  ∃ l, set_of (l1 ++ l2) = set_of l1 ++ l ∧ ∀ x, x ∈ l ↔ x ∈ l2 ∧ x ∉ l1.
Proof.
  assert (∃ l, set_of (l1 ++ l2) = set_of l1 ++ l) as [l Hl].
  { unfold set_of. rewrite fold_left_app. generalize (fold_left (λ acc x,
      if bool_decide (x ∈ acc) then acc else acc ++ [x]) l1 []).
    induction l2 as [|y l2 IH]; intros acc; simpl; [exists []; by rewrite app_nil_r|].
    case_bool_decide; [apply IH|]. destruct (IH (acc ++ [y])) as [l ->].
    exists (y :: l). by rewrite <-app_assoc. }
  exists l. split; [done|]. intros x. destruct (set_of_spec (l1 ++ l2)) as [Hnd Hin].
  destruct (set_of_spec l1) as [_ H1]. specialize (Hin x). rewrite Hl in Hin, Hnd.
  rewrite !elem_of_app, H1 in Hin. apply NoDup_app in Hnd as (_ & Hd & _). split.
  - intros Hx. assert (x ∉ l1) by (intros H; apply (Hd x); [by apply H1|done]). naive_solver.
  - naive_solver.
Qed.

Lemma sql_exists_ext {R} (p q : R → bool) t : (∀ r, p r = q r) → sql_exists p t = sql_exists q t.
Proof. intros H. unfold sql_exists. induction t as [|r t IH]; simpl; [done|]. by rewrite H, IH. Qed.

(** A role row, as the lists of approvers select it. *)
Lemma elem_of_holders (p q : UserRole → bool) db u :
  (∀ r, q r = bool_decide (ur_user_id r = u) && p r) →
  u ∈ map ur_user_id (sql_order_by by_granted_at (sql_where p (user_roles db))) ↔
  sql_exists q (user_roles db) = true.
Proof.
  intros Hq. rewrite (sql_exists_ext _ _ _ Hq), sql_exists_true, list_elem_of_fmap. split.
  - intros (r & -> & Hr). apply elem_of_sql_order_by, elem_of_sql_where in Hr as [Hr Hp].
    exists r. split; [done|]. by rewrite Hp, bool_decide_eq_true_2.
  - intros (r & Hr & [Hu%bool_decide_eq_true Hp]%andb_true_iff). exists r. split; [done|].
    by apply elem_of_sql_order_by, elem_of_sql_where.
Qed.

(** The approvers of an agent group, in the order they are asked: first its
    own admins, then the admins of its organization, then the global admins,
    then the owners, nobody twice and nobody else. *)
Theorem approvers_by_rank db ag :
  ag ≠ "" → orgOfAgentGroup db ag ≠ Some "" →
  ∃ admins org_admins globals owners,
    pickApprover db (Some ag) = admins ++ org_admins ++ globals ++ owners ∧
    NoDup (pickApprover db (Some ag)) ∧
    (∀ u, u ∈ admins ↔ isAdminOfAgentGroup db u ag = true) ∧
    (∀ u, u ∈ org_admins ↔ in_org (orgOfAgentGroup db ag) (isOrgAdmin db u) = true ∧ u ∉ admins) ∧
    (∀ u, u ∈ globals ↔ isGlobalAdmin db u = true ∧ u ∉ admins ++ org_admins) ∧
    (∀ u, u ∈ owners ↔ isOwner db u = true ∧ u ∉ admins ++ org_admins ++ globals).
Proof.
  intros Hag Horg.
  set (A := map ur_user_id (getAdminsOfAgentGroup db ag)).
  set (B := match orgOfAgentGroup db ag with Some o => getOrgAdmins db o | None => [] end).
  set (C := map ur_user_id (getGlobalAdmins db)). set (D := map ur_user_id (getOwners db)).
  assert (pickApprover db (Some ag) = set_of (((A ++ B) ++ C) ++ D)) as E.
  { unfold pickApprover. cbn [truthy default]. rewrite bool_decide_eq_false_2 by done. cbn [negb].
    rewrite <-!app_assoc. f_equal. f_equal. f_equal. subst B.
    unfold id. destruct (orgOfAgentGroup db ag) as [o|]; [|done]. cbn [truthy].
    by rewrite bool_decide_eq_false_2 by congruence. }
  destruct (set_of_app ((A ++ B) ++ C) D) as (owners & E3 & H3).
  destruct (set_of_app (A ++ B) C) as (globals & E2 & H2).
  destruct (set_of_app A B) as (org_admins & E1 & H1).
  destruct (set_of_spec A) as [_ HA].
  assert (∀ u, u ∈ C ↔ isGlobalAdmin db u = true) as HC.
  { intros u. apply elem_of_holders. intros r. unfold role_of. by rewrite !andb_assoc. }
  assert (∀ u, u ∈ D ↔ isOwner db u = true) as HD.
  { intros u. apply elem_of_holders. intros r. unfold role_of. by rewrite !andb_assoc. }
  exists (set_of A), org_admins, globals, owners. split.
  { rewrite E, E3, E2, E1, <-!app_assoc. done. }
  split; [rewrite E; apply set_of_spec|]. split_and!; intros u.
  - rewrite HA. subst A. apply elem_of_holders. intros r. unfold role_of. by rewrite andb_assoc.
  - rewrite H1, HA. apply and_iff_compat_r. subst B. destruct (orgOfAgentGroup db ag) as [o|].
    + simpl. apply elem_of_holders. intros r. unfold role_of. by rewrite !andb_assoc.
    + split; [by intros ?%not_elem_of_nil|done].
  - rewrite H2, !elem_of_app, H1, HA, HC. destruct (decide (u ∈ A)), (decide (u ∈ B)); naive_solver.
  - rewrite H3, !elem_of_app, H2, H1, HA, HD, !elem_of_app.
    destruct (decide (u ∈ A)), (decide (u ∈ B)), (decide (u ∈ C)); naive_solver.
Qed.
