(* ===== verification/Interactive.v ===== *)
(** * Questions to the user (src/modules/interactive/, src/index.ts)

    A click on a question card, or the word [cancel], writes the answer the
    container polls for.  The last part is the order in which the handlers of a
    click are tried. *)
From S2P Require Import Prelude JsString Json Types Events Central Permissions SessionDb Sessions Destinations Fs SessionManager Host Approvals UnknownSenders Ingress.
From stdpp Require Import pretty.

Local Open Scope string_scope.
Local Open Scope Z_scope.
Local Open Scope list_scope.
Local Open Scope prog_scope.

Section interactive.
Context (DATA_DIR : list string) (turns : nat → Turn).

(*@ src/src/channels/ask-question.ts 19-19 CANCEL_SENTINEL *)
Definition CANCEL_SENTINEL : string := "__cancelled__".

(*@ src/src/modules/interactive/index.ts 32-57 resolvePendingQuestion *)
Definition resolvePendingQuestion (session : Session) (pq : PendingQuestion) (selectedOption : string)
    (userId : option string) (cancelled : bool) : hostM unit :=
  let* now := clock turns in
  run (writeSessionMessage DATA_DIR now (s_agent_group_id session) (s_id session)
    (mkInMessage ("qr-" +:+ pq_question_id pq +:+ "-" +:+ pretty now) "system" (TIso now)
       (pq_platform_id pq) (pq_channel_type pq) (pq_thread_id pq)
       (JSON_stringify (JObj ([("type", JStr "question_response");
                               ("questionId", JStr (pq_question_id pq));
                               ("selectedOption", JStr selectedOption);
                               ("userId", JStr (default "" userId))] ++
                              (if cancelled then [("cancelled", JBool true)] else []))))
       None None None None None None)) ;;
  run (central (deletePendingQuestion (pq_question_id pq))) ;;
  wake_container turns (s_id session) ;;
  ret tt.

(*@ src/src/modules/interactive/index.ts 59-80 handleInteractiveResponse *)
Definition handleInteractiveResponse (payload : ResponsePayload) : hostM bool :=
  let* installed := db_read (λ db, hasTable db "pending_questions") in
  let* pq := db_read (getPendingQuestion (rp_questionId payload)) in
  match pq with
  | Some pq =>
      if negb installed then ret false
      else
        let* session := db_read (getSession (pq_session_id pq)) in
        match session with
        | None => run (central (deletePendingQuestion (rp_questionId payload))) ;; ret true
        | Some session =>
            resolvePendingQuestion session pq (rp_value payload) (rp_userId payload) false ;; ret true
        end
  | None => ret false
  end.

(** ** Cancelling by a word *)

(*@ src/src/modules/interactive/cancel.ts 33-33 CANCEL_TOKENS *)
Definition CANCEL_TOKENS : list string := ["/cancel"; "cancel"; "取消"; "停止"].

(*@ src/src/modules/interactive/cancel.ts 35-42 readText *)
Definition readText (event : InboundEvent) : option string := trimmed_text (ev_content event).

(** The questions one by one, each in its own [try]; how many were cancelled. *)
(*@ src/src/modules/interactive/cancel.ts 64-78 pending *)
Fixpoint cancel_all (userId : string) (pending : list PendingQuestion) (cancelled : Z) : hostM Z :=
  match pending with
  | [] => ret cancelled
  | pq :: rest =>
      let* session := db_read (getSession (pq_session_id pq)) in
      match session with
      | None => cancel_all userId rest cancelled
      | Some session =>
          let* n := try_catch
            (resolvePendingQuestion session pq CANCEL_SENTINEL (Some userId) true ;; ret 1)
            (λ _, ret 0) in
          cancel_all userId rest (cancelled + n)
      end
  end.

(** [resolveSender] of the router. *)
Context (resolveSender : InboundEvent → hostM (option string)).

(*@ src/src/modules/interactive/cancel.ts 44-108 setMessageInterceptor *)
Definition cancelInterceptor (event : InboundEvent) : hostM bool :=
  let text := readText event in
  try_catch
    (if negb (truthy text) || negb (bool_decide (toLowerCase (default "" text) ∈ CANCEL_TOKENS))
     then ret false
     else
       let* userId := resolveSender event in
       if negb (truthy userId) then ret false
       else
         let* pending := db_read (findCancelablePendingQuestions (default "" userId)) in
         match pending with
         | [] => ret false
         | _ =>
             let* cancelled := cancel_all (default "" userId) pending 0 in
             let* adapter := gets h_adapter in
             (match adapter with
              | AdapterSet _ =>
                  if 0 <? cancelled then
                    adapter_cast turns (ev_channelType event) (ev_platformId event) (ev_threadId event)
                      "chat-sdk" (JSON_stringify (JObj [("text", JStr
                        ("Cancelled " +:+ pretty cancelled +:+ " pending request" +:+
                         (if 1 <? cancelled then "s" else "") +:+ "."))]))
                  else ret tt
              | NoAdapter => ret tt
              end) ;;
             ret true
         end)
    (λ _, ret false).
End interactive.

(** ** A click (src/index.ts) *)

(** The handlers in the order they were registered; a throw is passed over. *)
(*@ src/src/index.ts 52-62 dispatchResponse *)
Fixpoint dispatchResponse (handlers : list (ResponsePayload → hostM bool)) (payload : ResponsePayload)
    : hostM unit :=
  match handlers with
  | [] => ret tt
  | handler :: rest =>
      let* claimed := try_catch (handler payload) (λ _, ret false) in
      if claimed : bool then ret tt else dispatchResponse rest payload
  end.
