(* ===== verification/Router.v ===== *)
(** * The inbound router (src/router.ts)

    An event from a channel adapter: first the interceptors, then the chat it
    came from, who sent it, and for every agent wired to the chat whether it
    engages, whether the sender is admitted, and which session the message goes
    to.  The hooks other modules register are a record; the RegExp engine, and
    whether outbound.db is locked by the container, are parameters. *)
From S2P Require Import Prelude JsString Json Types Events Central Permissions SessionDb Sessions Destinations Fs SessionManager Host ProgressStatus Autowire Approvals UnknownSenders Ingress Interactive.

Local Open Scope string_scope.
Local Open Scope Z_scope.
Local Open Scope list_scope.
Local Open Scope prog_scope.

(** [channelRequestGate] only says whether one is registered: it is the start of
    [requestChannelApproval].  The sender-scope gate reads and does not write. *)
Record Hooks := mkHooks {
  hk_senderResolver : option (InboundEvent → hostM (option string));
  hk_accessGate : option (InboundEvent → option string → MessagingGroup → string → hostM AccessGateResult);
  hk_senderScopeGate : option (CentralDb → option string → MessagingGroupAgent → AccessGateResult);
  hk_interceptors : list (InboundEvent → hostM bool);
  hk_channelRequestGate : bool }.

(** What became of the message for one agent. *)
Inductive verdict := Engaged | Accumulated | Dropped.

(*@ src/src/router.ts 590-601 resolveEffectiveSessionMode *)
Definition resolveEffectiveSessionMode (sessionMode : SessionMode)
    (adapterSupportsThreads isGroupChat : bool) : SessionMode :=
  if negb adapterSupportsThreads || negb isGroupChat then sessionMode
  else match sessionMode with
       | SMagent_shared | SMper_thread | SMper_user_per_thread => sessionMode
       | SMper_user => SMper_user_per_thread
       | SMshared => SMper_thread
       end.

(** [parsed.text ?? fallback], as a text. *)
Definition text_or (fallback : string) (v : option json) : string :=
  match v with None | Some JNull => fallback | Some v => to_text v end.

Section router.
Context (DATA_DIR GROUPS_DIR : list string).
Context (turns : nat → Turn).
Context (channel_adapter : string → option ChannelAdapter).
(** [process.env[key]], and the same with [.env] behind it. *)
Context (process_env envValue : string → option string).
Context (initGroupFilesystem : AgentGroup → fsM unit).
Context (DEFAULT_FRONTDESK_FOLDER : string).
Context (customStrategies : string → option GroupAgentStrategy).
(** [new RegExp(pattern).test(text)]: [None] when the pattern does not compile. *)
Context (regexp_test : string → string → option bool).
(** [adminWithoutRolesAllowed()] of the command gate. *)
Context (escape_hatch : bool).
(** The container holds the lock of outbound.db past the timeout. *)
Context (outbound_busy : Host → bool).

(** ** Engagement *)

(*@ src/src/router.ts 625-683 evaluateEngage *)
Definition evaluateEngage (db : CentralDb) (agent : MessagingGroupAgent) (text : string)
    (isMention : bool) (mg : MessagingGroup) (threadId : option string) (mode : SessionMode)
    (userId : option string) : bool :=
  let ag := mga_agent_group_id agent in
  match mga_engage_mode agent with
  | Some EngagePattern =>
      let pat := default "." (mga_engage_pattern agent) in
      if bool_decide (pat = ".") then true else default false (regexp_test pat text)
  | Some EngageMention => isMention
  | Some EngageMentionSticky =>
      if isMention then true
      else if negb (mg_is_group mg) then false
      else match mode with
           | SMagent_shared => bool_decide (is_Some (findSessionByAgentGroup ag db))
           | SMper_user | SMper_user_per_thread =>
               truthy userId &&
               bool_decide (is_Some (findSessionForAgentOwner ag (mg_id mg) (default "" userId)
                 (match mode with SMper_user => None | _ => threadId end) db))
           | SMshared | SMper_thread =>
               bool_decide (is_Some (findSessionForAgent ag (mg_id mg)
                 (match mode with SMshared => None | _ => threadId end) db))
           end
  | None => false
  end.

(** ** One message into one session *)

(*@ src/src/router.ts 851-854 messageIdForAgent *)
Definition messageIdForAgent (baseId generated agentGroupId : string) : string :=
  (if bool_decide (baseId = "") then generated else baseId) +:+ ":" +:+ agentGroupId.

(** Where the reply goes: the event's own reply address when it has one. *)
(*@ src/src/router.ts 727-731 deliveryAddr *)
Definition deliveryAddr (event : InboundEvent) : DeliveryAddress :=
  default (mkAddress (ev_channelType event) (ev_platformId event) (ev_threadId event))
    (ev_replyTo event).

(** An admin command of somebody else: audited, and answered directly. *)
(*@ src/src/router.ts 740-775 deliverToAgent *)
Definition deny_command (session : Session) (ag : string) (event : InboundEvent)
    (userId : option string) (command : string) : hostM unit :=
  let* now := clock turns in
  run (central (recordEnterpriseAudit now "command_gate_deny" None (Some ag) userId
    (Some (JObj [("command", JStr command)])))) ;;
  let* id := fresh_id turns ("deny:" +:+ ag) in
  let* busy := gets outbound_busy in
  let to := deliveryAddr event in
  run (writeOutboundDirect now busy (s_agent_group_id session) (s_id session)
    (mkDirectMessage id "chat" (Some (to_platformId to)) (Some (to_channelType to)) (to_threadId to)
       (JSON_stringify (JObj [("text", JStr ("Permission denied: " +:+ command +:+
                                             " requires admin access."))]))
       (Some (ev_id event)))) ;;
  ret tt.

(** The typing indicator only repeats a call of the adapter and is left out. *)
(*@ src/src/router.ts 812-831 deliverToAgent *)
Definition wake_for (session : Session) (event : InboundEvent) : hostM unit :=
  maybeStartProgressStatus process_env turns (s_id session) (ev_channelType event)
    (ev_platformId event) (ev_threadId event) (ev_id event) ;;
  let* fresh := db_read (getSession (s_id session)) in
  match fresh with
  | None => ret tt
  | Some fresh =>
      let* woke := wake_container turns (s_id fresh) in
      if woke : bool then ret tt else clearProgressReaction turns (s_id fresh)
  end.

(*@ src/src/router.ts 778-791 deliverToAgent *)
Definition store_inbound (session : Session) (ag : string) (event : InboundEvent) (wake : bool)
    : hostM unit :=
  let* now := clock turns in
  let* generated := fresh_id turns ("msg:" +:+ ag) in
  let to := deliveryAddr event in
  run (writeSessionMessage DATA_DIR now (s_agent_group_id session) (s_id session)
    (mkInMessage (messageIdForAgent (ev_id event) generated ag) (ev_kind event)
       (TText (ev_timestamp event)) (Some (to_platformId to)) (Some (to_channelType to))
       (to_threadId to) (ev_content event) None None (Some wake) None None
       (s_conversation_thread_id session))).

(*@ src/src/router.ts 685-843 deliverToAgent *)
Definition deliverToAgent (ag : string) (mg : MessagingGroup) (event : InboundEvent)
    (userId : option string) (mode : SessionMode) (wake : bool) : hostM unit :=
  prop "text" (safeParseContent (ev_content event)) ;;
  if isUserScopedSessionMode mode && negb (truthy userId)
  then throw (OtherError (Err "userId is required for session_mode"))
  else
    let* now := clock turns in
    let* id := fresh_id turns ("sess:" +:+ ag) in
    let* conv := fresh_id turns ("conv:" +:+ ag) in
    let* resolved := run (resolveSession DATA_DIR now id conv ag (Some (mg_id mg))
                            (ev_threadId event) mode userId None None) in
    let session := resolved.1 in
    let* gate := db_read (λ db,
      if bool_decide (ev_kind event = "chat") || bool_decide (ev_kind event = "chat-sdk")
      then gateCommand escape_hatch db (ev_content event) userId ag else GatePass) in
    match gate with
    | GateFilter => ret tt
    | GateDeny command => deny_command session ag event userId command
    | GatePass =>
        store_inbound session ag event wake ;;
        if wake then wake_for session event else ret tt
    end.

(** ** The agents of a chat *)

Section hooks.
Context (hooks : Hooks).

(** What is known of the event when the agents are gone through. *)
Record Inbound := mkInbound {
  in_event : InboundEvent;
  in_mg : MessagingGroup;
  in_userId : option string;
  in_text : string;
  in_adapter : option ChannelAdapter }.

Definition in_mode (i : Inbound) (agent : MessagingGroupAgent) : SessionMode :=
  resolveEffectiveSessionMode (mga_session_mode agent)
    (match in_adapter i with Some a => ca_supportsThreads a | None => false end)
    (mg_is_group (in_mg i)).

Definition is_mention (event : InboundEvent) : bool := bool_decide (ev_isMention event = Some true).

Definition engages (db : CentralDb) (i : Inbound) (agent : MessagingGroupAgent) : bool :=
  evaluateEngage db agent (in_text i) (is_mention (in_event i)) (in_mg i) (ev_threadId (in_event i))
    (in_mode i agent) (in_userId i).

(** Both gates let the sender through; each is asked only when it matters. *)
(*@ src/src/router.ts 509-511 accessOk *)
Definition admitted (i : Inbound) (agent : MessagingGroupAgent) : hostM bool :=
  let* access := match hk_accessGate hooks with
                 | None => ret true
                 | Some gate =>
                     if isUserScopedSessionMode (in_mode i agent) &&
                        negb (bool_decide (is_Some (in_userId i))) then ret false
                     else
                       let* r := gate (in_event i) (in_userId i) (in_mg i) (mga_agent_group_id agent) in
                       ret (gate_allowed r)
                 end in
  let* scope := db_read (λ db, match hk_senderScopeGate hooks with
                               | None => true
                               | Some gate => gate_allowed (gate db (in_userId i) agent)
                               end) in
  ret (access && scope).

(** The first engaging sticky wiring of a thread has it subscribed. *)
(*@ src/src/router.ts 522-537 subscribed *)
Definition maybe_subscribe (i : Inbound) (agent : MessagingGroupAgent) (subscribed : bool) : hostM bool :=
  match in_adapter i, ev_threadId (in_event i) with
  | Some adapter, Some thread =>
      if negb subscribed && bool_decide (mga_engage_mode agent = Some EngageMentionSticky) &&
         ca_supportsThreads adapter && ca_subscribe adapter && mg_is_group (in_mg i)
      then start (Subscribe (ev_channelType (in_event i)) (ev_platformId (in_event i)) thread) ;; ret true
      else ret subscribed
  | _, _ => ret subscribed
  end.

(*@ src/src/router.ts 487-575 routeOneAgent *)
Definition routeOneAgent (i : Inbound) (agent : MessagingGroupAgent) (subscribed : bool)
    : hostM (verdict * bool) :=
  let* agentGroup := db_read (λ db, getAgentGroup db (mga_agent_group_id agent)) in
  match agentGroup with
  | None => ret (Dropped, subscribed)
  | Some _ =>
      let mode := in_mode i agent in
      let* engaged := db_read (λ db, engages db i agent) in
      let identityOk := negb (isUserScopedSessionMode mode) || bool_decide (is_Some (in_userId i)) in
      let deliver := deliverToAgent (mga_agent_group_id agent) (in_mg i) (in_event i) (in_userId i) mode in
      if engaged : bool then
        let* ok := admitted i agent in
        if ok && identityOk then
          deliver true ;;
          let* subscribed := maybe_subscribe i agent subscribed in
          ret (Engaged, subscribed)
        else ret (Dropped, subscribed)
      else if identityOk && bool_decide (mga_ignored_message_policy agent = Some IgnoredAccumulate) then
        deliver false ;; ret (Accumulated, subscribed)
      else ret (Dropped, subscribed)
  end.

(** The agents in their order, each in its own [try]; the number of agents the
    message reached. *)
(*@ src/src/router.ts 457-485 agents *)
Fixpoint fan_out (i : Inbound) (agents : list MessagingGroupAgent) (reached : nat) (subscribed : bool)
    : hostM nat :=
  match agents with
  | [] => ret reached
  | agent :: rest =>
      let* out := try_catch (routeOneAgent i agent subscribed) (λ _, ret (Dropped, subscribed)) in
      fan_out i rest (match out.1 with Dropped => reached | _ => S reached end) out.2
  end.

(** ** One event *)

(** A throw counts as not claimed. *)
(*@ src/src/router.ts 308-341 messageInterceptors *)
Fixpoint intercept (l : list (InboundEvent → hostM bool)) (event : InboundEvent) : hostM bool :=
  match l with
  | [] => ret false
  | f :: rest =>
      let* claimed := try_catch (f event) (λ _, ret false) in
      if claimed : bool then ret true else intercept rest event
  end.

Definition drop_message (event : InboundEvent) (userId : option string) (reason mgId : string)
    : hostM unit :=
  let* sender := prop "sender" (safeParseContent (ev_content event)) in
  let* now := clock turns in
  let* sender_name := of_outcome (bind_text sender) in
  run (central (recordDroppedMessage now (ev_channelType event) (ev_platformId event) userId
         sender_name reason (Some mgId) None)).

Definition autowire (mg : MessagingGroup) (event : InboundEvent) : hostM (bool * MessagingGroup) :=
  let* now := clock turns in
  let* id := fresh_id turns "mga" in
  run (maybeAutowireEnterpriseFrontdesk envValue DEFAULT_FRONTDESK_FOLDER GROUPS_DIR
         initGroupFilesystem customStrategies now id mg event).

(** The chat of the event and whether an agent is wired to it; [None] for
    plain talk in a chat the host does not know. *)
(*@ src/src/router.ts 350-390 found *)
Definition find_chat (event : InboundEvent) : hostM (option (MessagingGroup * bool)) :=
  let* found := db_read (getMessagingGroupWithAgentCount (ev_channelType event) (ev_platformId event)) in
  match found with
  | Some (mg, agentCount) =>
      if (agentCount =? 0)%nat then
        let* wired := autowire mg event in ret (Some (wired.2, wired.1))
      else ret (Some (mg, true))
  | None =>
      if negb (is_mention event) then ret None
      else
        let* mgId := fresh_id turns "mg" in
        let* now := clock turns in
        let mg := mkMessagingGroup mgId (ev_channelType event) (ev_platformId event) None
                    (default false (ev_isGroup event)) request_approval None now in
        run (central (createMessagingGroup mg)) ;;
        let* wired := autowire mg event in
        if wired.1 then ret (Some (wired.2, true))
        else let* wired := autowire wired.2 event in ret (Some (wired.2, wired.1))
  end.

(** Nobody is wired: the drop is recorded and the owner is asked. *)
(*@ src/src/router.ts 394-431 agentCount *)
Definition unwired (mg : MessagingGroup) (event : InboundEvent) : hostM unit :=
  if negb (is_mention event) then ret tt
  else if bool_decide (is_Some (mg_denied_at mg)) then ret tt
  else
    drop_message event None "no_agent_wired" (mg_id mg) ;;
    if hk_channelRequestGate hooks then start (RequestChannelApproval (mg_id mg) event) else ret tt.

(** Somebody is wired: the sender, the agents, and the record of a message that
    reached nobody. *)
(*@ src/src/router.ts 433-588 routeInboundInner *)
Definition route_wired (mg : MessagingGroup) (adapter : option ChannelAdapter) (event : InboundEvent)
    : hostM unit :=
  let* userId := match hk_senderResolver hooks with
                 | Some resolver => resolver event
                 | None => ret None
                 end in
  let* agents := db_read (getMessagingGroupAgents (mg_id mg)) in
  let* text := prop "text" (safeParseContent (ev_content event)) in
  let* reached := fan_out (mkInbound event mg userId (text_or "" text) adapter) agents 0 false in
  if (reached =? 0)%nat then drop_message event userId "no_agent_engaged" (mg_id mg) else ret tt.

(** The adapter's thread policy. *)
(*@ src/src/router.ts 345-348 adapter *)
Definition threaded (event : InboundEvent) : InboundEvent :=
  match channel_adapter (ev_channelType event) with
  | Some adapter => if ca_supportsThreads adapter then event else without_thread event
  | None => event
  end.

(*@ src/src/router.ts 305-588 routeInboundInner *)
Definition routeInboundInner (event : InboundEvent) : hostM unit :=
  let* claimed := intercept (hk_interceptors hooks) event in
  if claimed : bool then ret tt
  else
    let adapter := channel_adapter (ev_channelType event) in
    let event := threaded event in
    let* chat := find_chat event in
    match chat with
    | None => ret tt
    | Some (mg, false) => unwired mg event
    | Some (mg, true) => route_wired mg adapter event
    end.

(** ** The ledger of arrivals *)

(*@ src/src/router.ts 216-221 ingressDurabilityEnabled *)
Definition ingressDurabilityEnabled : bool :=
  let raw := toLowerCase (trim (default "" (envValue "INGRESS_DURABILITY"))) in
  negb (bool_decide (raw ∈ ["off"; "0"; "false"])).

(** [error_line] is [`${err.name}: ${err.message}`]. *)
Context (error_line : failure → string).

(*@ src/src/router.ts 241-303 routeInbound *)
Definition with_ledger (persistIngress : bool) (event : InboundEvent) (inner : hostM unit) : hostM unit :=
  let* ingressId :=
    if persistIngress && ingressDurabilityEnabled then
      let* now := clock turns in
      let* id := fresh_id turns "ingress" in
      try_catch
        (run (central (insertIngress now id (ev_channelType event) (ev_platformId event)
                         (ev_threadId event) (store_event event))) ;; ret (Some id))
        (λ _, ret None)
    else ret None in
  try_catch
    (inner ;;
     match ingressId with
     | Some id => run (central (deleteIngress id))
     | None => ret tt
     end)
    (λ e, match ingressId with
          | Some id => run (central (markIngressFailed id (error_line e)))
          | None => ret tt
          end ;; throw e).
End hooks.

(** The hooks get the router itself: an interceptor routes a stored message
    again.  Each round takes one name out of [h_awaiting], so the nesting is
    bounded by its size. *)
Context (hooks : (InboundEvent → hostM unit) → Hooks) (error_line : failure → string).

(*@ src/src/router.ts 241-303 routeInbound *)
Fixpoint routeInbound (fuel : nat) (persistIngress : bool) (event : InboundEvent) : hostM unit :=
  match fuel with
  | O => throw (OtherError (Err "out of fuel"))
  | S fuel' =>
      with_ledger error_line persistIngress event
        (routeInboundInner (hooks (routeInbound fuel' true)) event)
  end.
End router.

(** ** The hooks of the host (src/modules/index.ts)

    The permissions module registers before the cancel interceptor, whose
    [resolveSender] is the same sender resolver. *)
(*@ src/src/modules/index.ts 23-30 permissions *)
Definition host_hooks (DATA_DIR : list string) (turns : nat → Turn)
    (channel_adapter : string → option ChannelAdapter) (initGroupFilesystem : AgentGroup → fsM unit)
    (routeInbound : InboundEvent → hostM unit) : Hooks :=
  mkHooks (Some (extractAndUpsertUser turns)) (Some (accessGate turns)) (Some senderScopeGate)
    [nameInterceptor turns channel_adapter initGroupFilesystem routeInbound;
     cancelInterceptor DATA_DIR turns (extractAndUpsertUser turns)] true.
