(* ===== verification/RouterProofs.v ===== *)
(** * The router: who is heard, and that nobody is forgotten

    A wake needs an engaged and admitted sender, and what an engaged but
    refused sender wrote goes nowhere; the failure of one agent does not keep
    the message from the next; a sticky wiring engages exactly when a session
    would be found; and the nesting of replays ends. *)
From S2P Require Import Prelude JsString Json Types Events Central Permissions SessionDb Sessions Destinations Fs SessionManager Host ProgressStatus Autowire Approvals UnknownSenders Ingress Interactive Router.

Local Open Scope string_scope.
Local Open Scope list_scope.
Local Open Scope prog_scope.

(** ** What a program of the host leaves alone *)

Lemma preserves_run {A} (P : World → Prop) (m : wM A) :
  preserves P m → preserves (λ h, P (h_world h)) (run m).
Proof. intros Hm h Hh. specialize (Hm _ Hh). unfold run. by destruct (m (h_world h)) as [[a|e] w]. Qed.
Lemma preserves_central {A} (P : CentralDb → Prop) (m : dbM A) :
  preserves P m → preserves (λ w, P (w_db w)) (central m).
Proof. intros Hm w Hw. specialize (Hm _ Hw). unfold central. by destruct (m (w_db w)) as [r db]. Qed.

(** The sessions, their databases, the files, the sends and the wakes. *)
Definition traces (h : Host) :=
  (sessions (db_of h), w_in (h_world h), w_out (h_world h), w_fs (h_world h), h_sent h, h_woken h).

(** [m] leaves all of them alone. *)
Definition traceless {A} (m : hostM A) : Prop := ∀ t, preserves (λ h, traces h = t) m.

Lemma traceless_ret {A} (a : A) : traceless (ret a).
Proof. intros t. apply preserves_ret. Qed.
Lemma traceless_throw {A} e : traceless (throw (A:=A) e).
Proof. intros t. apply preserves_throw. Qed.
Lemma traceless_gets {A} (f : Host → A) : traceless (gets f).
Proof. intros t. apply preserves_gets. Qed.
Lemma traceless_db_read {A} (f : CentralDb → A) : traceless (db_read f).
Proof. intros t. apply preserves_gets. Qed.
Lemma traceless_start j : traceless (start j).
Proof. intros t. by apply preserves_modify. Qed.
Lemma traceless_bind {A B} (m : hostM A) (k : A → hostM B) :
  traceless m → (∀ a, traceless (k a)) → traceless (bind m k).
Proof. intros Hm Hk t. apply preserves_bind; [apply Hm|]. intros a. apply Hk. Qed.
Lemma traceless_central {A} (m : dbM A) :
  (∀ s, preserves (λ db, sessions db = s) m) → traceless (run (central m)).
Proof.
  intros Hm t h <-. unfold run, central, traces, db_of. specialize (Hm _ (w_db (h_world h)) eq_refl).
  destruct (m (w_db (h_world h))) as [[a|e] db]; cbn in *; by rewrite Hm.
Qed.
Lemma traceless_prop k j : traceless (prop k j).
Proof. unfold prop. destruct (jget k j); [apply traceless_throw|apply traceless_ret]. Qed.
Lemma traceless_outcome {A} (o : outcome exn A) : traceless (of_outcome o).
Proof. destruct o; [apply traceless_ret|apply traceless_throw]. Qed.

Lemma prop_ok k j h v h' : prop k j h = (Ok v, h') → h' = h.
Proof. unfold prop. destruct (jget k j); [done|]. by intros [= _ <-]. Qed.
Lemma of_outcome_ok {A} (o : outcome exn A) h v h' : of_outcome o h = (Ok v, h') → h' = h.
Proof. destruct o; [|done]. by intros [= _ <-]. Qed.

Lemma recordDropped_changes now ct pid u n r mg ag db :
  ∃ l, recordDroppedMessage now ct pid u n r mg ag db = (Ok tt, set_unregistered_senders l db).
Proof. unfold recordDroppedMessage, modify. cbn. case_match; by eexists. Qed.

Section router.
Context (DATA_DIR : list string) (turns : nat → Turn) (process_env : string → option string)
  (regexp_test : string → string → option bool) (escape_hatch : bool) (outbound_busy : Host → bool).

Lemma traceless_clock : traceless (clock turns).
Proof. intros t. apply preserves_gets. Qed.

Lemma traceless_unknown mg userId ag event : traceless (handleUnknownSender turns mg userId ag event).
Proof.
  unfold handleUnknownSender. apply traceless_bind; [apply traceless_prop|]. intros name.
  assert (∀ policy, traceless
    (let* now := clock turns in
     let* sender_name := of_outcome (bind_text name) in
     run (central (recordDroppedMessage now (ev_channelType event) (ev_platformId event) userId
       sender_name ("unknown_sender_" +:+ policy_name policy) (Some (mg_id mg)) (Some ag))) ;;
     if bool_decide (policy = request_approval) && truthy userId then
       start (RequestSenderApproval (mg_id mg) ag (default "" userId) name event)
     else ret tt)) as H.
  { intros policy. apply traceless_bind; [apply traceless_clock|]. intros now.
    apply traceless_bind; [apply traceless_outcome|]. intros sn. apply traceless_bind.
    - apply traceless_central. intros s. apply preserves_modify. intros db Hdb. cbn. by case_match.
    - intros _. destruct_if; [apply traceless_start|apply traceless_ret]. }
  destruct (mg_unknown_sender_policy mg); [apply H..|apply traceless_ret].
Qed.

(** ** The decision *)

(** The access gate's answer, and both gates' for one agent of the chat. *)
Definition access_ok (db : CentralDb) (mg : MessagingGroup) (userId : option string) (ag : string)
    : bool :=
  if bool_decide (mg_unknown_sender_policy mg = public) then publicIngressAllowed db userId ag
  else truthy userId && allowed (canAccessAgentGroup db (default "" userId) ag).
Definition sender_admitted (db : CentralDb) (i : Inbound) (agent : MessagingGroupAgent) : bool :=
  (negb (isUserScopedSessionMode (in_mode i agent)) || bool_decide (is_Some (in_userId i))) &&
  access_ok db (in_mg i) (in_userId i) (mga_agent_group_id agent) &&
  gate_allowed (senderScopeGate db (in_userId i) agent).

Lemma accessGate_spec event userId mg ag h :
  traceless (accessGate turns event userId mg ag) ∧
  ∀ r h', accessGate turns event userId mg ag h = (Ok r, h') →
    gate_allowed r = access_ok (db_of h) mg userId ag ∧
    (∀ u a, canAccessAgentGroup (db_of h') u a = canAccessAgentGroup (db_of h) u a) ∧
    (∀ u a, publicIngressAllowed (db_of h') u a = publicIngressAllowed (db_of h) u a).
Proof.
  split.
  - unfold accessGate. destruct_if.
    + apply traceless_bind; [apply traceless_db_read|intros ?]. apply traceless_ret.
    + destruct_if.
      * apply traceless_bind; [apply traceless_unknown|intros ?]. apply traceless_ret.
      * apply traceless_bind; [apply traceless_db_read|intros d]. destruct_if; [apply traceless_ret|].
        apply traceless_bind; [apply traceless_unknown|intros ?]. apply traceless_ret.
  - assert (∀ u h h', handleUnknownSender turns mg u ag event h = (Ok tt, h') →
      (∀ v a, canAccessAgentGroup (db_of h') v a = canAccessAgentGroup (db_of h) v a) ∧
      (∀ v a, publicIngressAllowed (db_of h') v a = publicIngressAllowed (db_of h) v a)) as Hun.
    { clear h. intros u h h' H. unfold handleUnknownSender in H.
      apply bind_ok_inv in H as (name & h0 & Hp & H).
      apply prop_ok in Hp as ->.
      destruct (mg_unknown_sender_policy mg); [..|by injection H as <-];
        (apply bind_ok_inv in H as (now & h0 & [= <- <-] & H);
         apply bind_ok_inv in H as (sn & h0 & Hs & H);
         apply of_outcome_ok in Hs as ->;
         apply bind_ok_inv in H as ([] & h0 & (w & Hw & ->)%run_ok & H);
         unfold central in Hw;
         match type of Hw with context [recordDroppedMessage ?a ?b ?c ?d ?e ?f ?g ?i ?db] =>
           destruct (recordDropped_changes a b c d e f g i db) as [l El]; rewrite El in Hw end;
         injection Hw as <-;
         destruct (_ && _) in H; injection H as <-; done). }
    intros r h' H. unfold accessGate in H. unfold access_ok. destruct (bool_decide (_ = public)).
    + apply bind_ok_inv in H as (b & h0 & [= <- <-] & [= <- <-]). fold (db_of h).
      by destruct (publicIngressAllowed (db_of h) userId ag).
    + destruct (truthy userId); cbn [negb andb] in *.
      * apply bind_ok_inv in H as (d & h0 & [= <- <-] & H). fold (db_of h) in H.
        destruct (allowed (canAccessAgentGroup (db_of h) (default "" userId) ag)); [by injection H as <- <-|].
        apply bind_ok_inv in H as ([] & h0 & Hu & [= <- <-]). split; [done|]. exact (Hun _ _ _ Hu).
      * apply bind_ok_inv in H as ([] & h0 & Hu & [= <- <-]). split; [done|]. exact (Hun _ _ _ Hu).
Qed.
(** ** One agent *)

Section gated.
Context (hooks : Hooks).
Hypothesis access_installed : hk_accessGate hooks = Some (accessGate turns).
Hypothesis scope_installed : hk_senderScopeGate hooks = Some senderScopeGate.

Lemma admitted_spec i agent h :
  traceless (admitted hooks i agent) ∧
  ∀ b h', admitted hooks i agent h = (Ok b, h') →
    b && (negb (isUserScopedSessionMode (in_mode i agent)) || bool_decide (is_Some (in_userId i))) =
    sender_admitted (db_of h) i agent.
Proof using access_installed scope_installed.
  unfold admitted. rewrite access_installed, scope_installed. split.
  - apply traceless_bind.
    + destruct (_ && _); [apply traceless_ret|]. apply traceless_bind; [apply accessGate_spec; exact h|].
      intros r. apply traceless_ret.
    + intros b. apply traceless_bind; [apply traceless_db_read|]. intros s. apply traceless_ret.
  - intros b h' H. unfold sender_admitted. apply bind_ok_inv in H as (a & h1 & Ha & H).
    apply bind_ok_inv in H as (s & h2 & [= <- <-] & [= <- <-]). fold (db_of h1).
    destruct (isUserScopedSessionMode _), (bool_decide (is_Some (in_userId i))) eqn:Eu; cbn [andb negb orb] in *;
      try (injection Ha as <- <-; by rewrite andb_comm);
      (apply bind_ok_inv in Ha as (r & h2 & Hg & [= <- <-]);
       destruct (accessGate_spec (in_event i) (in_userId i) (in_mg i) (mga_agent_group_id agent) h)
         as (_ & Hs); destruct (Hs _ _ Hg) as (-> & Hc & Hp);
       rewrite andb_true_r; unfold senderScopeGate; by rewrite ?Hc, ?Hp).
Qed.

(** A program that wakes nobody. *)
Definition wakeless {A} (m : hostM A) : Prop := ∀ w, preserves (λ h, h_woken h = w) m.
Lemma wakeless_bind {A B} (m : hostM A) (k : A → hostM B) :
  wakeless m → (∀ a, wakeless (k a)) → wakeless (bind m k).
Proof. intros Hm Hk w. apply preserves_bind; [apply Hm|]. intros a. apply Hk. Qed.
Lemma wakeless_run {A} (m : wM A) : wakeless (run m).
Proof. intros w h Hh. unfold run. by destruct (m (h_world h)) as [[a|e] x]. Qed.
Lemma wakeless_gets {A} (f : Host → A) : wakeless (gets f).
Proof. intros w. apply preserves_gets. Qed.
Lemma wakeless_ret {A} (a : A) : wakeless (ret a).
Proof. intros w. apply preserves_ret. Qed.
Lemma traceless_wakeless {A} (m : hostM A) : traceless m → wakeless m.
Proof.
  intros Hm w h <-. specialize (Hm (traces h) h eq_refl). unfold traces in Hm. by injection Hm.
Qed.

Lemma deliver_silently ag mg event userId mode :
  wakeless (deliverToAgent DATA_DIR turns process_env escape_hatch outbound_busy ag mg event userId mode false).
Proof.
  unfold deliverToAgent. apply wakeless_bind; [apply traceless_wakeless, traceless_prop|]. intros _.
  destruct (_ && _); [intros w; apply preserves_throw|].
  do 3 (apply wakeless_bind; [apply wakeless_gets|intros ?]).
  apply wakeless_bind; [apply wakeless_run|intros [s c]].
  apply wakeless_bind; [apply wakeless_gets|intros [| |cmd]].
  - unfold store_inbound. apply wakeless_bind; [|intros _; apply wakeless_ret].
    do 2 (apply wakeless_bind; [apply wakeless_gets|intros ?]). apply wakeless_run.
  - apply wakeless_ret.
  - unfold deny_command. apply wakeless_bind; [apply wakeless_gets|intros ?].
    apply wakeless_bind; [apply wakeless_run|intros ?].
    do 2 (apply wakeless_bind; [apply wakeless_gets|intros ?]).
    apply wakeless_bind; [apply wakeless_run|intros ?]. apply wakeless_ret.
Qed.

Abbreviation route_one := (routeOneAgent DATA_DIR turns process_env regexp_test escape_hatch outbound_busy hooks).

(** C3: Only an admitted sender is heard.  Whatever happens while the agents of
    a chat are gone through, an agent is woken for a message only if its wiring
    engages on it and both gates of the permissions module let the sender in on
    the database as it stands.  A message that engages and is refused leaves
    nothing behind: no session, no row in any session database, no attachment
    on the disk, no reply. *)
Theorem only_admitted_are_heard i agent subscribed h :
  let h' := (route_one i agent subscribed h).2 in
  (h_woken h' ≠ h_woken h →
     engages regexp_test (db_of h) i agent = true ∧ sender_admitted (db_of h) i agent = true) ∧
  (engages regexp_test (db_of h) i agent = true → sender_admitted (db_of h) i agent = false →
     traces h' = traces h).
Proof using access_installed scope_installed.
  cbn zeta. unfold routeOneAgent. erewrite bind_ok by done. fold (db_of h).
  destruct (getAgentGroup (db_of h) _) as [g|]; [|done].
  erewrite bind_ok by done. fold (db_of h).
  destruct (engages regexp_test (db_of h) i agent) eqn:Ee.
  - destruct (admitted_spec i agent h) as [Hq Hs].
    rewrite bind_case. pose proof (Hq (traces h) h eq_refl) as Ht. cbn beta in Ht.
    destruct (admitted hooks i agent h) as [[b|e] h1] eqn:Ea; cbn [snd] in Ht.
    + specialize (Hs _ _ eq_refl). rewrite Hs. destruct (sender_admitted (db_of h) i agent); [done|].
      cbn. split; [|done]. intros Hw. destruct Hw. unfold traces in Ht. by injection Ht.
    + cbn. split; [|done]. intros Hw. destruct Hw. unfold traces in Ht. by injection Ht.
  - split; [|done]. intros Hw. destruct Hw. destruct (_ && _); [|done].
    apply wakeless_bind; [apply deliver_silently|intros _; apply wakeless_ret|done].
Qed.
End gated.

(** ** The agents of a chat *)

(** The failure of one agent costs no other agent the message.  Going
    through the agents of a chat never fails; an agent whose routing throws, at
    whatever point, counts as not reached, and the next ones are gone through
    exactly as they are after an agent that was passed over. *)
Theorem one_failure_stops_nobody hooks i agents reached subscribed h :
  let fan := fan_out DATA_DIR turns process_env regexp_test escape_hatch outbound_busy hooks i in
  let one := routeOneAgent DATA_DIR turns process_env regexp_test escape_hatch outbound_busy hooks i in
  (∃ n h', fan agents reached subscribed h = (Ok n, h') ∧ (reached ≤ n ≤ reached + length agents)%nat) ∧
  ∀ agent rest, agents = agent :: rest →
    fan agents reached subscribed h =
    match one agent subscribed h with
    | (Ok (Dropped, s), h1) => fan rest reached s h1
    | (Ok (_, s), h1) => fan rest (S reached) s h1
    | (Throw _, h1) => fan rest reached subscribed h1
    end.
Proof.
  cbn zeta. split.
  - revert reached subscribed h. induction agents as [|agent rest IH]; intros reached subscribed h; simpl.
    { exists reached, h. split; [done|lia]. }
    unfold bind at 1, try_catch.
    destruct (routeOneAgent _ _ _ _ _ _ _ _ _ _ h) as [[[v s]|e] h1]; cbn.
    + destruct (IH (match v with Dropped => reached | _ => S reached end) s h1) as (n & h' & -> & Hn).
      exists n, h'. split; [done|]. destruct v; lia.
    + destruct (IH reached subscribed h1) as (n & h' & -> & Hn). exists n, h'. split; [done|lia].
  - intros agent rest ->. simpl. unfold bind, try_catch.
    by destruct (routeOneAgent _ _ _ _ _ _ _ _ _ _ h) as [[[[] s]|e] h1].
Qed.

(** ** Engagement *)

(** A sticky wiring follows its session.  Without a mention, a wiring that
    engages by mention and sticks to the conversation engages in a group
    exactly when the router, going on, would find an active session for the
    message in the wiring's mode instead of making a new one: the lookup that
    decides and the lookup that routes cannot disagree. *)
Theorem sticky_follows_session db agent text mg threadId mode userId :
  mga_engage_mode agent = Some EngageMentionSticky → mg_is_group mg = true → mg_id mg ≠ "" →
  (isUserScopedSessionMode mode = true → truthy userId = true) →
  evaluateEngage regexp_test db agent text false mg threadId mode userId =
  bool_decide (is_Some (existingSession (mga_agent_group_id agent) (Some (mg_id mg)) threadId mode
                          userId None db)).
Proof.
  intros He Hg Hid Hu. unfold evaluateEngage, existingSession. rewrite He, Hg. cbn [negb].
  assert (truthy (Some (mg_id mg)) = true) as -> by (cbn; by rewrite bool_decide_eq_false_2).
  change (truthy None) with false.
  destruct mode; cbn [isUserScopedSessionMode] in *; try rewrite Hu by done;
    repeat (rewrite bool_decide_eq_false_2 by done || rewrite bool_decide_eq_true_2 by done); reflexivity.
Qed.
End router.

(** ** Replays *)

Lemma bind_agree {S E A B} (m : prog S E A) (k1 k2 : A → prog S E B) s :
  (∀ a s', m s = (Ok a, s') → k1 a s' = k2 a s') → bind m k1 s = bind m k2 s.
Proof. intros H. rewrite !bind_case. destruct (m s) as [[a|e] s'] eqn:Em; [by apply H|done]. Qed.
Lemma try_agree {S E A} (m1 m2 : prog S E A) (k : E → prog S E A) s :
  m1 s = m2 s → try_catch m1 k s = try_catch m2 k s.
Proof. unfold try_catch. by intros ->. Qed.

(** A program that leaves the names awaited alone. *)
Definition patient {A} (m : hostM A) : Prop := ∀ h, h_awaiting (m h).2 = h_awaiting h.
Lemma patient_bind {A B} (m : hostM A) (k : A → hostM B) :
  patient m → (∀ a, patient (k a)) → patient (bind m k).
Proof.
  intros Hm Hk h. rewrite bind_case. specialize (Hm h). destruct (m h) as [[a|e] h']; [|done].
  rewrite Hk. exact Hm.
Qed.
Lemma patient_run {A} (m : wM A) : patient (run m).
Proof. intros h. unfold run. by destruct (m (h_world h)) as [[a|e] w]. Qed.
Lemma patient_gets {A} (f : Host → A) : patient (gets f).
Proof. done. Qed.
Lemma patient_ret {A} (a : A) : patient (ret a).
Proof. done. Qed.
Lemma patient_then {A B} (m : hostM A) (k1 k2 : A → hostM B) h :
  patient m → (∀ a h', h_awaiting h' = h_awaiting h → k1 a h' = k2 a h') → bind m k1 h = bind m k2 h.
Proof.
  intros Hm Hk. apply bind_agree. intros a h' E. apply Hk. specialize (Hm h). by rewrite E in Hm.
Qed.

Section replays.
Context (DATA_DIR GROUPS_DIR : list string) (turns : nat → Turn)
  (channel_adapter : string → option ChannelAdapter) (process_env envValue : string → option string)
  (init : AgentGroup → fsM unit) (DEFAULT_FRONTDESK_FOLDER : string)
  (customStrategies : string → option GroupAgentStrategy)
  (regexp_test : string → string → option bool) (escape_hatch : bool) (outbound_busy : Host → bool)
  (error_line : failure → string).

Lemma patient_extract event : patient (extractAndUpsertUser turns event).
Proof.
  unfold extractAndUpsertUser. destruct (JSON_parse _) as [[]|]; try done;
    (destruct (sender_fields _) as [raw name]; destruct (negb _); [done|];
     apply patient_bind; [apply patient_gets|intros known]; apply patient_bind; [|intros _; apply patient_ret];
     destruct known; [apply patient_ret|]; apply patient_bind; [apply patient_gets|intros now; apply patient_run]).
Qed.
Lemma patient_enrol u ag b : patient (enrol turns u ag b).
Proof.
  unfold enrol. apply patient_bind; [apply patient_gets|intros now].
  apply patient_bind; [apply patient_run|intros _]. apply patient_bind; [apply patient_gets|intros org].
  destruct (truthy org); [apply patient_run|apply patient_ret].
Qed.

Section two.
Context (R1 R2 : InboundEvent → hostM unit) (n : nat).
Hypothesis agree : ∀ e h, (size (h_awaiting h) < n)%nat → R1 e h = R2 e h.

Lemma wire_agree row target approver h :
  (size (h_awaiting h) < n)%nat →
  wire_and_replay turns R1 row target approver h = wire_and_replay turns R2 row target approver h.
Proof using agree.
  intros Hn. unfold wire_and_replay. destruct (load_event _) as [event|]; [|done]. cbn zeta.
  apply patient_then; [apply patient_gets|intros id h1 E1].
  apply patient_then; [apply patient_gets|intros now h2 E2].
  apply patient_then; [apply patient_run|intros _ h3 E3].
  apply patient_then; [apply patient_extract|intros u h4 E4].
  apply patient_then; [destruct (truthy u); [apply patient_enrol|apply patient_ret]|intros _ h5 E5].
  apply patient_then; [apply patient_run|intros _ h6 E6].
  apply try_agree, agree. congruence.
Qed.

Lemma name_agree event h :
  (size (h_awaiting h) < S n)%nat →
  nameInterceptor turns channel_adapter init R1 event h =
  nameInterceptor turns channel_adapter init R2 event h.
Proof using agree.
  intros Hn. unfold nameInterceptor.
  apply patient_then; [apply patient_extract|intros u h1 E1]. destruct (negb (truthy u)); [done|]. cbn zeta.
  apply bind_agree. intros pending h2 [= Ep <-]. destruct pending as [pending|]; [|done].
  destruct (_ || _); [done|]. apply bind_agree. intros [] h3 [= <-].
  rewrite !bind_case. destruct (negb (truthy (trimmed_text _))); [done|].
  match goal with |- match ?a with _ => _ end = match ?b with _ => _ end => replace a with b; [done|] end.
  symmetry. unfold create_named_agent.
  assert (size (h_awaiting (set_awaiting (delete (default "" u) (h_awaiting h1)) h1)) < n)%nat as Hs.
  { cbn. rewrite E1 in Ep. assert (size (h_awaiting h) ≠ 0%nat) by (apply map_size_ne_0_lookup; eauto).
    rewrite E1, map_size_delete_Some by (by eexists). lia. }
  revert Hs. generalize (set_awaiting (delete (default "" u) (h_awaiting h1)) h1). intros h2 Hs.
  apply patient_then; [apply patient_gets|intros row h3 E3]. destruct row as [row|]; [|done].
  apply patient_then; [apply patient_gets|intros org h4 E4].
  apply patient_then; [apply patient_gets|intros now h5 E5].
  apply patient_then; [apply patient_gets|intros agId h6 E6].
  apply patient_then; [apply patient_run|intros ag h7 E7]. cbn zeta.
  rewrite !bind_case. rewrite wire_agree by (replace (h_awaiting h7) with (h_awaiting h2) by congruence; done).
  done.
Qed.
End two.

Abbreviation router := (routeInbound DATA_DIR GROUPS_DIR turns channel_adapter process_env envValue init
  DEFAULT_FRONTDESK_FOLDER customStrategies regexp_test escape_hatch outbound_busy
  (host_hooks DATA_DIR turns channel_adapter init) error_line).

(** Replays end.  An interceptor of the host may route a stored message
    again, which runs the interceptors again.  The nesting is bounded by the
    number of names that are awaited when the event arrives: more rounds than
    that never change what routing it does, on any host. *)
Theorem replays_end fuel1 fuel2 persist event h :
  (size (h_awaiting h) < fuel1)%nat → (size (h_awaiting h) < fuel2)%nat →
  router fuel1 persist event h = router fuel2 persist event h.
Proof.
  revert fuel2 persist event h. induction fuel1 as [|f1 IH]; intros [|f2] persist event h H1 H2; [lia..|].
  cbn [routeInbound]. unfold with_ledger.
  apply patient_then.
  { destruct (persist && _); [|apply patient_ret]. do 2 (apply patient_bind; [apply patient_gets|intros ?]).
    intros h0. unfold try_catch, bind, run. by destruct (central _ _) as [[x|x] w]. }
  intros id h1 E1. apply try_agree. rewrite !bind_case.
  match goal with |- match ?a with _ => _ end = match ?b with _ => _ end => replace a with b; [done|] end.
  symmetry. unfold routeInboundInner. rewrite !bind_case.
  match goal with |- match ?a with _ => _ end = match ?b with _ => _ end => replace a with b; [done|] end.
  symmetry. cbn [hk_interceptors host_hooks intercept]. rewrite !bind_case.
  match goal with |- match ?a with _ => _ end = match ?b with _ => _ end => replace a with b; [done|] end.
  symmetry. apply try_agree. apply (name_agree _ _ (Nat.min f1 f2)); [|rewrite E1; lia].
  intros e h2 Hs. apply IH; lia.
Qed.
End replays.
