(* ===== verification/IngressRuns.v ===== *)
(** * Ingress: concrete runs

    A host with one agent [a] in a group chat of a messenger without threads,
    an owner, and a stranger: the witnesses of the ingress theorems, the path of
    a stranger's message from refusal through approval to the agent, and what
    the runs show. *)
From S2P Require Import Prelude JsString Json Types Events Central Permissions SessionDb Sessions Destinations Fs SessionManager AgentRoute Host Sha ProgressStatus Autowire Approvals UnknownSenders Ingress Interactive Router RouterProofs.

Local Open Scope string_scope.
Local Open Scope Z_scope.
Local Open Scope list_scope.
Local Open Scope prog_scope.

(** ** The host *)

Definition tg_adapter (ct : string) : option ChannelAdapter :=
  if bool_decide (ct = "tg") then Some (mkChannelAdapter false false false false) else None.
Definition no_var (_ : string) : option string := None.
Definition no_files (_ : AgentGroup) : fsM unit := ret tt.
Definition no_strategy (_ : string) : option GroupAgentStrategy := None.
Definition never (_ _ : string) : option bool := Some false.
Definition no_line (_ : failure) : string := "error".
Definition free (_ : Host) : bool := false.

(** Every await is answered and nothing else happens; ids carry the turn. *)
Definition still (n : nat) : Turn :=
  mkTurn (1000 + Z.of_nat n) (Replied (Some "om")) None (FetchFailed false) None true
    (λ use, use +:+ String (Ascii.ascii_of_nat (65 + n)) EmptyString) (mkDraws "s" "c" "x") id.

Definition person (id : string) : User := mkUser id "tg" None 0.
Definition chat_m : MessagingGroup := mkMessagingGroup "m" "tg" "chat" (Some "Team") true request_approval None 0.
Definition wiring_a : MessagingGroupAgent :=
  mkMessagingGroupAgent "w" "m" "a" (Some EngagePattern) (Some ".") (Some SenderKnown)
    (Some IgnoredDrop) SMshared 0 0.
Definition agent_a : AgentGroup := mkAgentGroup "a" "Desk" "desk" None 0 (Some "o") None.
Definition ingress_db : CentralDb :=
  set_installed ["agent_destinations"; "pending_questions"; "user_roles"]
  (set_organizations [mkOrganization "o" "Org" "org" 0]
  (set_agent_groups [agent_a] (set_messaging_groups [chat_m] (set_messaging_group_agents [wiring_a]
  (set_users [person "tg:own"; person "tg:mal"]
  (set_user_roles [mkUserRole "tg:own" owner None None None 0] emptyDb)))))).
Definition ingress_host (db : CentralDb) : Host :=
  mkHost (mkWorld db ∅ ∅ {[ ["data"] := NDir ]}) 0 (AdapterSet false) ∅ ∅ ∅ ∅ [] [] [].

Definition said (who text : string) : string :=
  JSON_stringify (JObj [("sender", JStr who); ("text", JStr text)]).
Definition event_of (platformId who text : string) (mention group : option bool) : InboundEvent :=
  mkInboundEvent "tg" platformId None "msg1" "chat" (said who text) "2026-01-01T00:00:00.000Z" mention
    group None.
Definition hello : InboundEvent := event_of "chat" "eve" "hello" (Some true) (Some true).

Definition route (event : InboundEvent) : hostM unit :=
  routeInbound ["data"] ["groups"] still tg_adapter no_var no_var no_files "front" no_strategy never false
    free (host_hooks ["data"] still tg_adapter no_files) no_line 3 true event.
(** The calls that were started, run to their end. *)
Definition run_jobs : hostM unit :=
  let* jobs := gets h_jobs in for_each jobs (run_job still tg_adapter).
Definition click (id value user : string) : ResponsePayload :=
  mkResponse id value (Some user) "tg" "" None.
Definition answer (payload : ResponsePayload) : hostM unit :=
  dispatchResponse [handleSenderApprovalResponse still route;
                    handleChannelApprovalResponse still tg_adapter route] payload.

(** The rows of every session inbox. *)
Definition inboxes (h : Host) : list (string * bool) :=
  flat_map (λ d, map (λ r, (mi_content r, mi_trigger r)) (messages_in d)) (map snd (map_to_list (w_in (h_world h)))).

(** The stranger writes, the owner is asked. *)
Definition asked : Host := ((route hello ;; run_jobs) (ingress_host ingress_db)).2.
Definition stranger_row : PendingSenderApproval :=
  mkPendingSenderApproval "nsaB" "m" "a" "tg:eve" (Some "eve") (store_event hello) "tg:own" 1001
    "👤 New sender" SENDER_OPTIONS.

(** The message is refused and nothing of it is stored; the card goes to the
    owner; a click of somebody else changes nothing; the owner's click brings
    the message to the agent, once, and leaves the ledger empty. *)
Example strangers_message_arrives :
  inboxes asked = [] ∧ h_woken asked = [] ∧ map sn_platformId (h_sent asked) = ["own"] ∧
  pending_sender_approvals (db_of asked) = [stranger_row] ∧
  answer (click "nsaB" "approve" "mal") asked = (Ok tt, asked) ∧
  let h := (answer (click "nsaB" "approve" "own") asked).2 in
  inboxes h = [(said "eve" "hello", true)] ∧ h_woken h = ["sess:aC"] ∧
  inbound_ingress (db_of h) = [] ∧
  inboxes (answer (click "nsaB" "approve" "own") h).2 = inboxes h.
Proof. cbv zeta. do 8 (split; [vm_compute; reflexivity|]). vm_compute. reflexivity. Qed.

(** ** Witnesses *)

Example approved_sender_is_admitted_witness :
  ∃ h1, handleSenderApprovalResponse still route (click "nsaB" "approve" "own") asked =
          (replay route (ps_original_message stranger_row) ;; ret true) h1 ∧
    getPendingSenderApproval "nsaB" (db_of h1) = None.
Proof.
  edestruct (approved_sender_is_admitted still route (click "nsaB" "approve" "own") stranger_row asked)
    as (h1 & E & Hn & _).
  - vm_compute. reflexivity.
  - reflexivity.
  - vm_compute. reflexivity.
  - split_and!; [vm_compute; by eexists..|].
    intros o Ho. vm_compute in Ho. injection Ho as <-. split; [done|]. vm_compute. by eexists.
  - done.
  - exists h1. split; [exact E|exact Hn].
Defined.
Example only_approvers_decide_witness :
  handleSenderApprovalResponse still route (click "nsaB" "approve" "mal") asked = (Ok true, asked) ∧
  length (pending_sender_approvals (db_of asked)) = 1%nat.
Proof.
  split; [|vm_compute; reflexivity].
  apply (proj1 (only_approvers_decide still route (click "nsaB" "approve" "mal") asked) stranger_row).
  - vm_compute. reflexivity.
  - vm_compute. discriminate.
  - intros c Hc. vm_compute in Hc. injection Hc as <-. vm_compute. reflexivity.
Defined.
Example approvers_by_rank_witness :
  pickApprover ingress_db (Some "a") = ["tg:own"] ∧
  ∃ admins org_admins globals owners,
    pickApprover ingress_db (Some "a") = admins ++ org_admins ++ globals ++ owners.
Proof.
  split; [vm_compute; reflexivity|].
  destruct (approvers_by_rank ingress_db "a") as (a & b & c & d & E & _); [done| |by exists a, b, c, d].
  vm_compute. discriminate.
Defined.

Definition inbound_of (user : option string) : Inbound :=
  mkInbound hello chat_m user "hello" (tg_adapter "tg").
Abbreviation one i agent h :=
  (routeOneAgent ["data"] still no_var never false free (host_hooks ["data"] still tg_adapter no_files route)
     i agent false h).
Example only_admitted_are_heard_witness :
  h_woken (one (inbound_of (Some "tg:own")) wiring_a (ingress_host ingress_db)).2 = ["sess:aA"] ∧
  engages never ingress_db (inbound_of (Some "tg:own")) wiring_a = true ∧
  sender_admitted ingress_db (inbound_of (Some "tg:own")) wiring_a = true ∧
  traces (one (inbound_of (Some "tg:mal")) wiring_a (ingress_host ingress_db)).2 =
    traces (ingress_host ingress_db).
Proof.
  split; [vm_compute; reflexivity|].
  destruct (only_admitted_are_heard ["data"] still no_var never false free
    (host_hooks ["data"] still tg_adapter no_files route) eq_refl eq_refl
    (inbound_of (Some "tg:own")) wiring_a false (ingress_host ingress_db)) as [H _].
  destruct (only_admitted_are_heard ["data"] still no_var never false free
    (host_hooks ["data"] still tg_adapter no_files route) eq_refl eq_refl
    (inbound_of (Some "tg:mal")) wiring_a false (ingress_host ingress_db)) as [_ H2].
  destruct H as [H1 H3].
  { intros E. apply (f_equal (@length string)) in E. vm_compute in E. discriminate. }
  split; [exact H1|]. split; [exact H3|]. apply H2; vm_compute; reflexivity.
Defined.
(** An agent whose sessions cannot be written does not stop the next one. *)
Example one_failure_stops_nobody_witness :
  let i := inbound_of (Some "tg:own") in
  let hooks := host_hooks ["data"] still tg_adapter no_files route in
  let fan := fan_out ["data"] still no_var never false free hooks i in
  [wiring_a; wiring_a] = wiring_a :: [wiring_a] ∧
  fan [wiring_a; wiring_a] 0%nat false (ingress_host ingress_db) =
  match routeOneAgent ["data"] still no_var never false free hooks i wiring_a false
          (ingress_host ingress_db) with
  | (Ok (Dropped, s), h1) => fan [wiring_a] 0%nat s h1
  | (Ok (_, s), h1) => fan [wiring_a] 1%nat s h1
  | (Throw _, h1) => fan [wiring_a] 0%nat false h1
  end.
Proof.
  cbv zeta. split; [reflexivity|].
  apply (proj2 (one_failure_stops_nobody ["data"] still no_var never false free
    (host_hooks ["data"] still tg_adapter no_files route) (inbound_of (Some "tg:own"))
    [wiring_a; wiring_a] 0%nat false (ingress_host ingress_db)) wiring_a [wiring_a]).
  reflexivity.
Defined.

Definition sticky_a : MessagingGroupAgent :=
  mkMessagingGroupAgent "w" "m" "a" (Some EngageMentionSticky) None (Some SenderAll)
    (Some IgnoredDrop) SMper_user 0 0.
Definition owned_db : CentralDb :=
  set_sessions [plain_session "s1" "a" (Some "m") None (Some "tg:own") None] ingress_db.
Example sticky_follows_session_witness :
  evaluateEngage never owned_db sticky_a "hi" false chat_m None SMper_user (Some "tg:own") = true ∧
  evaluateEngage never owned_db sticky_a "hi" false chat_m None SMper_user (Some "tg:own") =
  bool_decide (is_Some (existingSession "a" (Some "m") None SMper_user (Some "tg:own") None owned_db)).
Proof.
  split; [vm_compute; reflexivity|].
  apply (sticky_follows_session never owned_db sticky_a "hi" chat_m None SMper_user (Some "tg:own"));
    reflexivity || done.
Defined.
Example replays_end_witness :
  (size (h_awaiting (ingress_host ingress_db)) < 1)%nat ∧
  routeInbound ["data"] ["groups"] still tg_adapter no_var no_var no_files "front" no_strategy never false
    free (host_hooks ["data"] still tg_adapter no_files) no_line 1 true hello (ingress_host ingress_db) =
  route hello (ingress_host ingress_db).
Proof.
  split; [vm_compute; lia|].
  apply (replays_end ["data"] ["groups"] still tg_adapter no_var no_var no_files "front" no_strategy never
    false free no_line 1 3); vm_compute; lia.
Defined.

(** ** What the runs show *)

(** [mal] is an admin of agent [a] and no member of its organization. *)
Definition outsider_db : CentralDb :=
  set_user_roles [mkUserRole "tg:own" owner None None None 0;
                  mkUserRole "tg:mal" admin (Some "a") None None 0] ingress_db.

(** An admin from outside the organization can let strangers in.  An admin
    grant held outside the group's organization gives no access to the group
    and no admin rights over it; the holder is nevertheless the first approver
    the host asks, and their click makes a stranger a member of the group and
    of the organization, and hands the stranger's message to the agent. *)
Theorem outsider_admits_strangers :
  canAccessAgentGroup outsider_db "tg:mal" "a" = DeniedCrossOrg ∧
  hasAdminPrivilege outsider_db "tg:mal" "a" = false ∧
  let h1 := ((route hello ;; run_jobs) (ingress_host outsider_db)).2 in
  let h2 := (answer (click "nsaB" "approve" "mal") h1).2 in
  map sn_platformId (h_sent h1) = ["mal"] ∧ isMemberOfOrg (db_of h1) "tg:eve" "o" = false ∧
  isMemberOfOrg (db_of h2) "tg:eve" "o" = true ∧ inboxes h2 = [(said "eve" "hello", true)].
Proof. cbv zeta. do 5 (split; [vm_compute; reflexivity|]). vm_compute. reflexivity. Qed.

(** Talk in a chat the host does not know is not silent.  The router says
    that such a message leaves no row and no write; the interceptor of the
    permissions module has by then made its sender a user of the platform. *)
Theorem plain_talk_makes_users :
  let h := (route (event_of "elsewhere" "eve" "hi all" None (Some true)) (ingress_host ingress_db)).2 in
  messaging_groups (db_of h) = [chat_m] ∧ h_jobs h = [] ∧
  map u_id (users (db_of h)) = ["tg:own"; "tg:mal"; "tg:eve"].
Proof. vm_compute. repeat split; reflexivity. Qed.

(** A group of a messenger without threads is wired to every message.  The
    channel approval is documented to wire a group by mention; it takes a chat
    for a group when the stored event has a thread, which the router has
    removed on such messengers.  After the owner connects the group, a plain
    remark in it, with no mention, wakes the agent. *)
Theorem threadless_group_hears_all :
  let mention := event_of "room" "eve" "@bot hello" (Some true) (Some true) in
  let remark := mkInboundEvent "tg" "room" None "msg2" "chat" (said "eve" "lunch?")
                  "2026-01-01T00:01:00.000Z" (Some false) (Some true) None in
  let h1 := ((route mention ;; run_jobs) (ingress_host ingress_db)).2 in
  let h2 := (answer (click "mgA" "connect:a" "own") h1).2 in
  let h3 := (route remark h2).2 in
  map mg_is_group (messaging_groups (db_of h1)) = [true; true; false] ∧
  map mga_engage_mode (getMessagingGroupAgents "mgA" (db_of h2)) = [Some EngagePattern] ∧
  length (h_woken h3) = S (length (h_woken h2)).
Proof. cbv zeta. split; [|split]; vm_compute; reflexivity. Qed.

(** ** Approvals of actions *)

Definition s0 : Session := plain_session "s0" "a" (Some "m") None None None.
Definition acting_db : CentralDb := set_sessions [s0] ingress_db.
Definition acting_host : Host :=
  mkHost (mkWorld acting_db {[ ("a", "s0") := emptyInbound ]} {[ ("a", "s0") := emptyOutbound ]}
            {[ ["data"] := NDir ]}) 0 (AdapterSet false) ∅ ∅ ∅ ∅ [] [] [].
(** The action writes a note, once it has been done; doing it takes a while. *)
Definition slow_action (turns : nat → Turn) : ApprovalHandler :=
  λ _ _ _ notify, await turns (λ _, tt) ;; notify "installed".
Definition installer (turns : nat → Turn) (action : string) : option ApprovalHandler :=
  if bool_decide (action = "install") then Some (slow_action turns) else None.
Definition asked_to_install : Host :=
  (requestApproval ["data"] still tg_adapter
     (mkRequestApproval s0 "install" (JObj []) "Install" "May I?") acting_host).2.
Definition install_click (turns : nat → Turn) (who : option string) (h : Host) : Host :=
  (handleApprovalsResponse ["data"] turns (installer turns) (λ _, "error")
     (mkResponse "apprB" "approve" who "tg" "" None) h).2.

(** Anybody's click approves.  The card of a requested action goes to one
    approver; the handler of the click does not look at who clicked.  Here the
    request is put to the owner, and a user without any role, or nobody that
    could be identified, has the action carried out. *)
Theorem any_click_approves :
  map sn_platformId (h_sent asked_to_install) = ["own"] ∧
  hasAdminPrivilege acting_db "tg:mal" "a" = false ∧
  map fst (inboxes (install_click still (Some "mal") asked_to_install)) = [system_note "installed"] ∧
  map fst (inboxes (install_click still None asked_to_install)) = [system_note "installed"].
Proof. do 3 (split; [vm_compute; reflexivity|]). vm_compute. reflexivity. Qed.

(** While the action of the first click is under way, a second click arrives. *)
Definition clicked_again (n : nat) : Turn :=
  let t := still n in
  mkTurn (t_now t) (t_reply t) (t_member t) (t_fetched t) (t_text t) (t_woke t) (t_ids t) (t_draws t)
    (λ w, if bool_decide (n = 2%nat)
          then h_world (install_click (λ k, still (k + 10)) (Some "own")
                 (mkHost w 0 (AdapterSet false) ∅ ∅ ∅ ∅ [] [] []))
          else w).

(** Two clicks carry an action out twice.  The request stays pending until
    its action is done, so a second click that arrives while the first one's
    action is under way starts it again. *)
Theorem two_clicks_apply_twice :
  length (inboxes (install_click still (Some "own") asked_to_install)) = 1%nat ∧
  map fst (inboxes (install_click clicked_again (Some "own") asked_to_install)) =
    [system_note "installed"; system_note "installed"].
Proof. split; vm_compute; reflexivity. Qed.

(** A request nobody answers keeps its session forever.  The deletion of a
    session removes its questions but not its approval requests, which refer to
    it as well: while one is there the deletion throws and changes nothing, and
    the sweep that expires old requests leaves them there. *)
Theorem open_request_blocks_deletion db id request :
  request ∈ pending_approvals db → pa_session_id request = Some id → is_Some (getSession id db) →
  deleteSession id db = (Throw (SqliteConstraint "sessions"), db) ∧
  ∀ olderThanMs now, ∃ request',
    request' ∈ pending_approvals (expireStalePendingApprovals olderThanMs now db).2 ∧
    pa_session_id request' = Some id.
Proof.
  intros Hr Hid Hs. split.
  - by apply (deleteSession_blocked _ _ request).
  - intros ms now. unfold expireStalePendingApprovals, bind at 1, query, gets. cbn.
    set (l := sql_where _ _).
    cut (∀ l db, (∃ r, r ∈ pending_approvals db ∧ pa_session_id r = Some id) →
      ∃ r, r ∈ pending_approvals ((for_each (E:=exn) l (λ r, updatePendingApprovalStatus (pa_approval_id r)
             ApExpired) ;; ret l) db).2 ∧ pa_session_id r = Some id).
    { intros H. apply H. by exists request. }
    clear. intros rows. generalize rows at 2. induction rows as [|x rows IH]; intros all db (r & Hr & Hid); cbn.
    + by exists r.
    + apply IH. exists (if bool_decide (pa_approval_id r = pa_approval_id x)
                        then with_approval_status ApExpired r else r). split.
      * apply elem_of_sql_update. by exists r.
      * by destruct (bool_decide _).
Qed.
Example open_request_blocks_deletion_witness :
  ∃ db, length (pending_approvals db) = 1%nat ∧
    deleteSession "s0" db = (Throw (SqliteConstraint "sessions"), db).
Proof.
  exists (db_of asked_to_install). split; [vm_compute; reflexivity|].
  refine (proj1 (open_request_blocks_deletion (db_of asked_to_install) "s0"
    (mkPendingApproval "apprB" (Some "s0") "apprB" "install" (JSON_stringify (JObj [])) 1001 None None None
       None None ApPending "Install" APPROVAL_OPTIONS) _ _ _)).
  - vm_compute. left.
  - reflexivity.
  - vm_compute. by eexists.
Defined.

(** ** Agents of groups *)

(** Two groups can share the agent that is to keep them apart.  The folder
    of a group's own agent is documented to be distinct for distinct groups;
    it is made of the platform id without case and punctuation and of 32 bits
    of its hash.  For these two room ids it is the same, so the second group
    is given the agent, and with it the memory, of the first. *)
Theorem groups_share_an_agent :
  let room1 := "matrix:!QWeRtYuiopaSdfGhjk:example.org" in
  let room2 := "matrix:!QWERTYuIoPASdFGhJK:example.org" in
  let mg id room := mkMessagingGroup id "matrix" room None true public None 0 in
  let desk := mkAgentGroup "f" "Front" "front" None 0 None (Some frontdesk) in
  let w0 := mkWorld (set_agent_groups [desk] emptyDb) ∅ ∅ ∅ in
  let '(r1, w1) := resolveOrCreatePerGroupAgent ["groups"] no_files 1 desk (mg "m1" room1) w0 in
  let '(r2, w2) := resolveOrCreatePerGroupAgent ["groups"] no_files 2 desk (mg "m2" room2) w1 in
  room1 ≠ room2 ∧ r1 = r2 ∧ (∃ g, r1 = Ok g ∧ ag_id g = "ag-" +:+ perGroupAgentFolder "front" room1) ∧
  length (agent_groups (w_db w2)) = 2%nat.
Proof. vm_compute. split; [discriminate|]. split; [reflexivity|]. split; [|reflexivity]. by eexists. Qed.
