(* ===== verification/Replay.v ===== *)
(** * Nothing that arrives is lost (scripts/replay-inbound.ts, src/router.ts)

    The operator's tool that routes the rows of the ledger of arrivals again,
    what the ledger keeps of a message whose routing failed, and what the tool
    does without: it loads the router and not the modules, so no resolver, gate
    or interceptor is registered, and no adapter is there. *)
From S2P Require Import Prelude JsString Json JsonProofs Types Events Central Permissions SessionDb Sessions Destinations Fs SessionManager Host ProgressStatus Autowire Approvals UnknownSenders Ingress Interactive Router RouterProofs IngressRuns.

Local Open Scope string_scope.
Local Open Scope Z_scope.
Local Open Scope list_scope.
Local Open Scope prog_scope.

(** ** The tool *)

(** What router.ts holds when no module has registered. *)
(*@ src/src/router.ts 72-72 senderResolver *)
Definition no_hooks : Hooks := mkHooks None None None [] false.

Section replay.
(** [routeInbound(event, { persistIngress: false })], and the text of an error. *)
Context (routeInbound : InboundEvent → hostM unit) (error_line : failure → string).

(*@ src/scripts/replay-inbound.ts 107-131 replayRow *)
Definition replayRow (row : IngressRow) : hostM bool :=
  match load_event (ig_message_json row) with
  | None => ret false
  | Some event =>
      try_catch
        (routeInbound event ;;
         run (central (deleteIngress (ig_id row))) ;;
         ret true)
        (λ e,
         run (central (markIngressFailed (ig_id row) (error_line e))) ;;
         ret false)
  end.

(** The exit code, as whether it is 0. *)
(*@ src/scripts/replay-inbound.ts 133-141 replayOne *)
Definition replayOne (id : string) : hostM bool :=
  let* row := db_read (λ db, getIngress db id) in
  match row with
  | None => ret false
  | Some row => replayRow row
  end.

(** How many rows were replayed. *)
(*@ src/scripts/replay-inbound.ts 143-155 replayAll *)
Definition replayAll : hostM nat :=
  let* rows := db_read (λ db, listIngress db None (Some 1000)) in
  fold_left (λ m row, let* n := m in let* ok := replayRow row in ret (if ok : bool then S n else n))
    rows (ret 0%nat).
End replay.

(** ** The stored event *)

Lemma event_wf e : wf_json (event_json e).
Proof.
  destruct e as [c p [t|] id k co ts [m|] [g|] [[rc rp [rt|]]|]]; (split; cbn; split_and!; try done);
    apply (bool_decide_unpack _); vm_compute; exact I.
Qed.
Lemma load_store e : load_event (store_event e) = Some e.
Proof. unfold load_event, store_event. rewrite json_roundtrip by apply event_wf. apply json_event_json. Qed.

(** What was held back is routed as it arrived.  An event is stored as a
    text, with a pending approval and in the ledger of arrivals; the replay of
    the stored text is the routing of that very event. *)
Theorem stored_event_is_replayed routeInbound event h :
  load_event (store_event event) = Some event ∧
  replay routeInbound (store_event event) h = try_catch (routeInbound event) (λ _, ret tt) h.
Proof. unfold replay. by rewrite load_store. Qed.

(** ** The ledger *)

Lemma getIngress_failed id e db :
  getIngress (markIngressFailed id e db).2 id =
  option_map (λ r, mkIngressRow (ig_id r) (ig_channel_type r) (ig_platform_id r) (ig_thread_id r)
                     (ig_message_json r) (ig_received_at r) failed (ig_attempts r + 1)
                     (Some (take_string 2000 e))) (getIngress db id).
Proof.
  unfold getIngress, markIngressFailed, modify. cbn. rewrite sql_first_update by done.
  destruct (sql_first _ _) as [r|] eqn:E; [|done]. apply sql_first_Some in E as [_ Hr]. cbn. by rewrite Hr.
Qed.
Lemma getIngress_deleted id db : getIngress (deleteIngress id db).2 id = None.
Proof. apply sql_first_deleted. Qed.
Lemma insertIngress_ok now id c p t text db :
  getIngress db id = None →
  insertIngress now id c p t text db =
    (Ok id, set_inbound_ingress (inbound_ingress db ++ [mkIngressRow id c p t text now received 0 None]) db).
Proof.
  intros H. unfold insertIngress, bind, query, gets. cbn. rewrite sql_exists_first.
  unfold getIngress in H. by rewrite H.
Qed.

Section ledger.
Context (turns : nat → Turn) (envValue : string → option string) (error_line : failure → string).

(** The ledger forgets a message only when it has been routed.  The event
    is stored before it is routed; when the routing ends well its row is gone,
    and when it throws the row is there, marked failed, and holds the event as
    it arrived.  ([inner] may write what it likes, but not this row.) *)
Theorem ledger_keeps_the_unrouted event inner h :
  let id := t_ids (turns (h_turn h)) "ingress" in
  ingressDurabilityEnabled envValue = true → getIngress (db_of h) id = None →
  (∀ h', getIngress (db_of (inner h').2) id = getIngress (db_of h') id) →
  match with_ledger turns envValue error_line true event inner h with
  | (Ok _, h') => getIngress (db_of h') id = None
  | (Throw _, h') =>
      ∃ row, getIngress (db_of h') id = Some row ∧ ig_status row = failed ∧ ig_attempts row = 1 ∧
        load_event (ig_message_json row) = Some event
  end.
Proof.
  intros id Hon Hfree Hin. unfold with_ledger. rewrite Hon. cbn [andb].
  set (row := mkIngressRow id (ev_channelType event) (ev_platformId event) (ev_threadId event)
                (store_event event) (t_now (turns (h_turn h))) received 0 None).
  set (h1 := with_db (set_inbound_ingress (inbound_ingress (db_of h) ++ [row]) (db_of h)) h).
  erewrite bind_ok; [|].
  2: { instantiate (1 := h1). instantiate (1 := Some id).
       unfold clock, fresh_id, gets. rewrite !bind_case. cbv beta iota.
       unfold try_catch. erewrite bind_ok; [reflexivity|]. apply run_central, insertIngress_ok, Hfree. }
  assert (Hrow : getIngress (db_of h1) id = Some row).
  { unfold h1. rewrite db_of_with. unfold getIngress. cbn. rewrite sql_first_app.
    unfold getIngress in Hfree. rewrite Hfree. cbn. by rewrite bool_decide_eq_true_2. }
  specialize (Hin h1). rewrite Hrow in Hin. unfold try_catch. rewrite bind_case.
  destruct (inner h1) as [[[]|e] h2]; cbn in Hin.
  - unfold run, central. change (w_db (h_world h2)) with (db_of h2). cbn. apply getIngress_deleted.
  - erewrite bind_ok by (by apply run_central).
    exists (mkIngressRow id (ev_channelType event) (ev_platformId event) (ev_threadId event)
              (store_event event) (ig_received_at row) failed 1 (Some (take_string 2000 (error_line e)))).
    split_and!; [|done|done|apply load_store]. cbn [throw]. rewrite db_of_with.
    change (set_inbound_ingress _ _) with (markIngressFailed id (error_line e) (db_of h2)).2.
    by rewrite getIngress_failed, Hin.
Qed.
End ledger.

Section tool.
Context (routeInbound : InboundEvent → hostM unit) (error_line : failure → string).

(** The tool drops a row only when its message has been routed.  A row whose
    message is routed without a throw is deleted; one whose routing throws stays,
    failed and with one more attempt, and still holds the event; a row that does
    not exist, or whose text is not an event, changes nothing. *)
Theorem replay_drops_only_the_routed id h :
  match getIngress (db_of h) id with
  | None => replayOne routeInbound error_line id h = (Ok false, h)
  | Some row =>
      match load_event (ig_message_json row) with
      | None => replayOne routeInbound error_line id h = (Ok false, h)
      | Some event =>
          match routeInbound event h with
          | (Ok _, h1) =>
              replayOne routeInbound error_line id h =
                (Ok true, with_db (deleteIngress (ig_id row) (db_of h1)).2 h1) ∧
              getIngress (db_of (replayOne routeInbound error_line id h).2) id = None
          | (Throw e, h1) =>
              (replayOne routeInbound error_line id h).1 = Ok false ∧
              ∀ row', getIngress (db_of h1) id = Some row' →
                ∃ row'', getIngress (db_of (replayOne routeInbound error_line id h).2) id = Some row'' ∧
                  ig_message_json row'' = ig_message_json row' ∧ ig_status row'' = failed ∧
                  ig_attempts row'' = ig_attempts row' + 1
          end
      end
  end.
Proof.
  unfold replayOne, db_read. rewrite bind_case. unfold gets. change (w_db (h_world h)) with (db_of h).
  destruct (getIngress (db_of h) id) as [row|] eqn:Er; [|done]. unfold replayRow.
  assert (ig_id row = id) as Hid.
  { unfold getIngress in Er. apply sql_first_Some in Er as [_ Hr]. by apply bool_decide_eq_true in Hr. }
  destruct (load_event _) as [event|]; [|done].
  unfold try_catch. rewrite bind_case. destruct (routeInbound event h) as [[[]|e] h1].
  - erewrite bind_ok by (by apply run_central). cbn [ret snd]. rewrite db_of_with, Hid.
    split; [done|]. apply getIngress_deleted.
  - erewrite bind_ok by (by apply run_central). cbn [ret fst snd]. split; [done|].
    intros row' Hrow'. rewrite db_of_with, Hid.
    change (set_inbound_ingress _ _) with (markIngressFailed id (error_line e) (db_of h1)).2.
    rewrite getIngress_failed, Hrow'. by eexists.
Qed.
End tool.

(** ** What the tool routes past *)

(** The message of the stranger, when the host died before it was routed. *)
Definition orphaned : Host :=
  with_db (insertIngress 1000 "in1" "tg" "chat" None (store_event hello) ingress_db).2
    (ingress_host ingress_db).
(** The tool: no modules, no adapters. *)
Definition tool_route (event : InboundEvent) : hostM unit :=
  routeInbound ["data"] ["groups"] still (λ _, None) no_var no_var no_files "front" no_strategy never false
    free (λ _, no_hooks) no_line 3 false event.

(** The replay tool hears those the host refuses.  The router asks the gates
    that are registered, and the tool registers none.  The host refuses the
    message of a stranger and stores nothing of it; replayed from the ledger, the
    same message reaches the agent and wakes it, and the row is gone. *)
Theorem replay_skips_the_gates :
  inboxes (route hello (ingress_host ingress_db)).2 = [] ∧
  h_woken (route hello (ingress_host ingress_db)).2 = [] ∧
  let replayed := replayOne tool_route no_line "in1" orphaned in
  let h := replayed.2 in
  replayed.1 = Ok true ∧ inboxes h = [(said "eve" "hello", true)] ∧ length (h_woken h) = 1%nat ∧
  inbound_ingress (db_of h) = [].
Proof.
  cbv zeta. do 5 (split; [vm_compute; reflexivity|]). vm_compute. reflexivity.
Qed.

Example ledger_keeps_the_unrouted_witness :
  fst (with_ledger still no_var no_line true hello (throw (OtherError (Err "disk"))) (ingress_host ingress_db)) =
    Throw (OtherError (Err "disk")) ∧
  match with_ledger still no_var no_line true hello (throw (OtherError (Err "disk"))) (ingress_host ingress_db) with
  | (Ok _, h') => getIngress (db_of h') (t_ids (still 0) "ingress") = None
  | (Throw _, h') =>
      ∃ row, getIngress (db_of h') (t_ids (still 0) "ingress") = Some row ∧ ig_status row = failed ∧
        ig_attempts row = 1 ∧ load_event (ig_message_json row) = Some hello
  end.
Proof.
  split; [vm_compute; reflexivity|].
  apply (ledger_keeps_the_unrouted still no_var no_line hello (throw (OtherError (Err "disk")))
           (ingress_host ingress_db)); [vm_compute; reflexivity..|by intros h'].
Defined.
