(* ===== verification/ProxyTokens.v ===== *)
(** * Tokens of the signing proxy, and the gateway audit
    (src/db/gateway-proxy-token.ts, gateway-audit.ts)

    A container holds a token and not the signing key of its group.  The host
    keeps the hash of the token, the group it was minted for, and the address it
    was first used from. *)
From S2P Require Import Prelude JsString Json Types JsonProofs Central Sha.

Local Open Scope string_scope.
Local Open Scope Z_scope.
Local Open Scope list_scope.
Local Open Scope prog_scope.

(** ** Tokens *)

(*@ src/src/db/gateway-proxy-token.ts 42-47 MintedProxyToken *)
Record MintedProxyToken := mkMinted {
  mt_jti : string;
  mt_token : string;
  mt_expiresAt : time }.

(*@ src/src/db/gateway-proxy-token.ts 49-56 ProxyTokenRecord *)
Record ProxyTokenRecord := mkTokenRecord {
  tr_jti : string;
  tr_sessionId : string;
  tr_agentGroupId : string;
  tr_allowedPaths : list string;
  tr_sourceIp : option string;
  tr_expiresAt : time }.

(*@ src/src/db/gateway-proxy-token.ts 58-60 VerifyProxyTokenResult *)
Inductive VerifyProxyTokenResult :=
| TokenOk (record : ProxyTokenRecord)
| TokenUnknown | TokenExpired | TokenRevoked | TokenIpMismatch.

Definition with_revoked (now : time) (r : TokenRow) : TokenRow :=
  mkTokenRow (tk_jti r) (tk_token_sha256 r) (tk_session_id r) (tk_agent_group_id r) (tk_allowed_paths r)
    (tk_source_ip r) (tk_created_at r) (tk_expires_at r) (Some now).
Definition with_ip (ip : string) (r : TokenRow) : TokenRow :=
  mkTokenRow (tk_jti r) (tk_token_sha256 r) (tk_session_id r) (tk_agent_group_id r) (tk_allowed_paths r)
    (Some ip) (tk_created_at r) (tk_expires_at r) (tk_revoked_at r).

(** [revoked_at IS NULL], and the same of one session. *)
Definition live (r : TokenRow) : bool := bool_decide (tk_revoked_at r = None).
Definition live_of (sessionId : string) (r : TokenRow) : bool :=
  bool_decide (tk_session_id r = sessionId) && live r.

Definition update_tokens (p : TokenRow → bool) (f : TokenRow → TokenRow) : dbM nat :=
  let* n := query (λ db, sql_changes p (gateway_proxy_token db)) in
  modify (λ db, set_gateway_proxy_token (sql_update p f (gateway_proxy_token db)) db) ;;
  ret n.

(** [jti] and [secret] are the random bytes; they are drawn before the
    transaction starts. *)
(*@ src/src/db/gateway-proxy-token.ts 81-110 mintProxyToken *)
Definition mintProxyToken (now : time) (jti secret sessionId agentGroupId : string)
    (allowedPaths : list string) (ttlMs : Z) : dbM MintedProxyToken :=
  let token := jti +:+ "." +:+ secret in
  let expiresAt := now + ttlMs in
  transaction
    (update_tokens (live_of sessionId) (with_revoked now) ;;
     let* taken := query (λ db, sql_exists (λ r, bool_decide (tk_jti r = jti) ||
                      bool_decide (tk_token_sha256 r = sha256_hex token)) (gateway_proxy_token db)) in
     if taken : bool then throw (SqliteConstraint "gateway_proxy_token")
     else modify (λ db, set_gateway_proxy_token (gateway_proxy_token db ++
            [mkTokenRow jti (sha256_hex token) sessionId agentGroupId
               (JSON_stringify (JArr (map JStr allowedPaths))) None now expiresAt None]) db)) ;;
  ret (mkMinted jti token expiresAt).

Definition strings_of (text : string) : list string :=
  match JSON_parse text with
  | Some (JArr l) => omap (λ v, match v with JStr s => Some s | _ => None end) l
  | _ => []
  end.

(*@ src/src/db/gateway-proxy-token.ts 118-162 verifyProxyToken *)
Definition verifyProxyToken (rawToken sourceIp : string) (now : time) : dbM VerifyProxyTokenResult :=
  let* row := query (λ db,
    sql_first (λ r, bool_decide (tk_token_sha256 r = sha256_hex rawToken)) (gateway_proxy_token db)) in
  match row with
  | None => ret TokenUnknown
  | Some row =>
      if negb (live row) then ret TokenRevoked
      else if tk_expires_at row <=? now then ret TokenExpired
      else
        let record := mkTokenRecord (tk_jti row) (tk_session_id row) (tk_agent_group_id row)
                        (strings_of (tk_allowed_paths row)) (Some sourceIp) (tk_expires_at row) in
        match tk_source_ip row with
        | None =>
            update_tokens (λ r, bool_decide (tk_jti r = tk_jti row) && bool_decide (tk_source_ip r = None))
              (with_ip sourceIp) ;;
            ret (TokenOk record)
        | Some pinned =>
            if bool_decide (pinned = sourceIp) then ret (TokenOk record) else ret TokenIpMismatch
        end
  end.

(*@ src/src/db/gateway-proxy-token.ts 169-173 revokeProxyTokensForSession *)
Definition revokeProxyTokensForSession (sessionId : string) (now : time) : dbM nat :=
  update_tokens (live_of sessionId) (with_revoked now).

(*@ src/src/db/gateway-proxy-token.ts 182-186 revokeAllProxyTokens *)
Definition revokeAllProxyTokens (now : time) : dbM nat := update_tokens live (with_revoked now).

(*@ src/src/db/gateway-proxy-token.ts 192-195 purgeStaleProxyTokens *)
Definition purgeStaleProxyTokens (olderThanMs : Z) (now : time) : dbM nat :=
  let old r := tk_expires_at r <? now - olderThanMs in
  let* n := query (λ db, sql_changes old (gateway_proxy_token db)) in
  modify (λ db, set_gateway_proxy_token (sql_delete old (gateway_proxy_token db)) db) ;;
  ret n.

(** ** The audit *)

Definition add_audit (row : GatewayAuditRow) : dbM unit :=
  modify (λ db, set_gateway_audit (gateway_audit db ++ [row]) db).

(*@ src/src/db/gateway-audit.ts 3-16 GatewayAuditEntry *)
Record GatewayAuditEntry := mkAuditEntry {
  ae_sessionId : option string;
  ae_agentGroupId : option string;
  ae_userId : option string;
  ae_path : string;
  ae_operation : option string;
  ae_requesterSource : string;
  ae_status : AuditStatus;
  ae_httpStatus : option Z;
  ae_durationMs : option Z;
  ae_idempotencyKey : option string;
  ae_inputHash : option string;
  ae_errorMsg : option string }.

(*@ src/src/db/gateway-audit.ts 18-41 recordGatewayAudit *)
Definition recordGatewayAudit (entry : GatewayAuditEntry) (now : time) : dbM unit :=
  add_audit (mkGatewayAudit now (ae_sessionId entry) (ae_agentGroupId entry) (ae_userId entry)
    (ae_path entry) (ae_operation entry) (ae_requesterSource entry) (ae_status entry)
    (ae_httpStatus entry) (ae_durationMs entry) (ae_idempotencyKey entry) (ae_inputHash entry)
    (ae_errorMsg entry) None None None None None None).

(*@ src/src/db/gateway-audit.ts 59-75 GatewayProxyIntent *)
Record GatewayProxyIntent := mkIntent {
  gi_proxyRequestId : string;
  gi_sessionId : option string;
  gi_agentGroupId : option string;
  gi_signedAsGroup : option string;
  gi_tokenJti : option string;
  gi_path : string;
  gi_operation : option string;
  gi_userId : option string;
  gi_requesterSource : string;
  gi_requesterSourceCoerced : bool;
  gi_identityMismatch : bool;
  gi_idempotencyKey : option string;
  gi_inputHash : option string;
  gi_errorMsg : option string }.

Definition intent_row (intent : GatewayProxyIntent) (now : time) : GatewayAuditRow :=
  mkGatewayAudit now (gi_sessionId intent) (gi_agentGroupId intent) (gi_userId intent) (gi_path intent)
    (gi_operation intent) (gi_requesterSource intent) AuditPending None None (gi_idempotencyKey intent)
    (gi_inputHash intent) (gi_errorMsg intent) (gi_signedAsGroup intent) (gi_tokenJti intent)
    (Some (gi_proxyRequestId intent)) (Some (gi_identityMismatch intent))
    (Some (gi_requesterSourceCoerced intent)) (Some AuditIntent).

(*@ src/src/db/gateway-audit.ts 77-103 recordGatewayProxyIntent *)
Definition recordGatewayProxyIntent (intent : GatewayProxyIntent) (now : time) : dbM unit :=
  add_audit (intent_row intent now).

(*@ src/src/db/gateway-audit.ts 105-110 GatewayProxyOutcome *)
Record GatewayProxyOutcome := mkOutcome {
  go_status : AuditStatus;
  go_httpStatus : option Z;
  go_durationMs : option Z;
  go_errorMsg : option string }.

Definition with_audit_outcome (o : GatewayProxyOutcome) (r : GatewayAuditRow) : GatewayAuditRow :=
  mkGatewayAudit (ga_occurred_at r) (ga_session_id r) (ga_agent_group_id r) (ga_user_id r) (ga_path r)
    (ga_operation r) (ga_requester_source r) (go_status o) (go_httpStatus o) (go_durationMs o)
    (ga_idempotency_key r) (ga_input_hash r) (go_errorMsg o) (ga_signed_as_group r) (ga_token_jti r)
    (ga_proxy_request_id r) (ga_identity_mismatch r) (ga_requester_source_coerced r) (Some AuditFinal).
Definition at_intent (r : GatewayAuditRow) : bool := bool_decide (ga_audit_phase r = Some AuditIntent).

(*@ src/src/db/gateway-audit.ts 112-126 finalizeGatewayProxyAudit *)
Definition finalizeGatewayProxyAudit (proxyRequestId : string) (o : GatewayProxyOutcome) : dbM unit :=
  modify (λ db, set_gateway_audit
    (sql_update (λ r, bool_decide (ga_proxy_request_id r = Some proxyRequestId) && at_intent r)
       (with_audit_outcome o) (gateway_audit db)) db).

(*@ src/src/db/gateway-audit.ts 135-144 reconcileOrphanedProxyAudit *)
Definition reconcileOrphanedProxyAudit : dbM nat :=
  let orphan r := mkGatewayAudit (ga_occurred_at r) (ga_session_id r) (ga_agent_group_id r) (ga_user_id r)
    (ga_path r) (ga_operation r) (ga_requester_source r) AuditError (ga_http_status r) (ga_duration_ms r)
    (ga_idempotency_key r) (ga_input_hash r)
    (Some (default "" (ga_error_msg r) +:+ " [orphaned_intent_reconciled]")) (ga_signed_as_group r)
    (ga_token_jti r) (ga_proxy_request_id r) (ga_identity_mismatch r) (ga_requester_source_coerced r)
    (Some AuditFinal) in
  let* n := query (λ db, sql_changes at_intent (gateway_audit db)) in
  modify (λ db, set_gateway_audit (sql_update at_intent orphan (gateway_audit db)) db) ;;
  ret n.

(*@ src/src/db/gateway-audit.ts 155-158 purgeGatewayAudit *)
Definition purgeGatewayAudit (olderThanMs : Z) (now : time) : dbM nat :=
  let old r := ga_occurred_at r <? now - olderThanMs in
  let* n := query (λ db, sql_changes old (gateway_audit db)) in
  modify (λ db, set_gateway_audit (sql_delete old (gateway_audit db)) db) ;;
  ret n.

(*@ src/src/db/gateway-audit.ts 160-173 GatewayAuditQueryOptions *)
Record GatewayAuditQueryOptions := mkAuditQuery {
  aq_limit : option Z;
  aq_userId : option string;
  aq_operation : option string;
  aq_since : option time;
  aq_includeNonFinal : bool }.

(** The row id is the place in the table. *)
(*@ src/src/db/gateway-audit.ts 175-201 queryGatewayAudit *)
Definition queryGatewayAudit (o : GatewayAuditQueryOptions) (db : CentralDb) : list GatewayAuditRow :=
  let wanted {A} (v : option A) (p : A → bool) := match v with Some a => p a | None => true end in
  let limit := Z.max 1 (Z.min (default 100 (aq_limit o)) 1000) in
  take (Z.to_nat limit)
    (rev (sql_where (λ r,
       (aq_includeNonFinal o || negb (at_intent r)) &&
       (negb (truthy (aq_userId o)) || bool_decide (ga_user_id r = aq_userId o)) &&
       (negb (truthy (aq_operation o)) || bool_decide (ga_operation r = aq_operation o)) &&
       wanted (aq_since o) (λ t, t <=? ga_occurred_at r))
       (gateway_audit db))).

(** ** Tokens of the signing proxy: what holds in every history

    One live token for a session; a minted token stands for its session's group
    and paths; a revoked one never opens anything again; and a token answers to
    the first address that used it. *)

(** The statements that touch the table. *)
Inductive token_op :=
| OpMint (jti secret sessionId agentGroupId : string) (allowedPaths : list string) (ttlMs : Z)
| OpVerify (rawToken sourceIp : string)
| OpRevoke (sessionId : string)
| OpRevokeAll
| OpPurge (olderThanMs : Z).

Definition run_op (now : time) (op : token_op) : dbM unit :=
  match op with
  | OpMint jti secret s g paths ttl => mintProxyToken now jti secret s g paths ttl ;; ret tt
  | OpVerify raw ip => verifyProxyToken raw ip now ;; ret tt
  | OpRevoke s => revokeProxyTokensForSession s now ;; ret tt
  | OpRevokeAll => revokeAllProxyTokens now ;; ret tt
  | OpPurge ms => purgeStaleProxyTokens ms now ;; ret tt
  end.
Definition token_step (ok : token_op → Prop) (db db' : CentralDb) : Prop :=
  ∃ now op, ok op ∧ db' = (run_op now op db).2.

Notation tokens := gateway_proxy_token.

(** ** What a statement does to the table *)

Definition minted_row (now : time) (jti secret s g : string) (paths : list string) (ttl : Z) : TokenRow :=
  mkTokenRow jti (sha256_hex (jti +:+ "." +:+ secret)) s g (JSON_stringify (JArr (map JStr paths))) None now
    (now + ttl) None.
Lemma tokens_mint now jti secret s g paths ttl db :
  mintProxyToken now jti secret s g paths ttl db =
    (Throw (SqliteConstraint "gateway_proxy_token"), db) ∨
  ∃ db', mintProxyToken now jti secret s g paths ttl db =
      (Ok (mkMinted jti (jti +:+ "." +:+ secret) (now + ttl)), db') ∧
    tokens db' = sql_update (live_of s) (with_revoked now) (tokens db) ++ [minted_row now jti secret s g paths ttl] ∧
    ∀ r, r ∈ tokens db → tk_jti r ≠ jti ∧ tk_token_sha256 r ≠ sha256_hex (jti +:+ "." +:+ secret).
Proof.
  unfold mintProxyToken, transaction, update_tokens, bind, query, gets, modify, ret, throw.
  cbn -[sha256_hex sql_exists sql_update sql_changes].
  match goal with |- context [sql_exists ?p ?t] => destruct (sql_exists p t) eqn:E end; [by left|right].
  eexists. split; [done|]. split; [done|]. intros r Hr.
  assert (Hu : (if live_of s r then with_revoked now r else r) ∈
    sql_update (live_of s) (with_revoked now) (tokens db)) by (apply elem_of_sql_update; by exists r).
  rewrite sql_exists_false in E. specialize (E _ Hu).
  apply orb_false_iff in E as [H1%bool_decide_eq_false H2%bool_decide_eq_false].
  by destruct (live_of s r).
Qed.

(** A verification reads, or pins the address of the row it found. *)
Lemma tokens_verify raw ip now db :
  (∃ r, sql_first (λ r, bool_decide (tk_token_sha256 r = sha256_hex raw)) (tokens db) = Some r ∧
     live r = true ∧ now < tk_expires_at r ∧ default ip (tk_source_ip r) = ip ∧
     (verifyProxyToken raw ip now db).1 = Ok (TokenOk (mkTokenRecord (tk_jti r) (tk_session_id r)
       (tk_agent_group_id r) (strings_of (tk_allowed_paths r)) (Some ip) (tk_expires_at r))) ∧
     tokens (verifyProxyToken raw ip now db).2 =
       match tk_source_ip r with
       | None => sql_update (λ x, bool_decide (tk_jti x = tk_jti r) && bool_decide (tk_source_ip x = None))
                   (with_ip ip) (tokens db)
       | Some _ => tokens db
       end) ∨
  (verifyProxyToken raw ip now db).2 = db ∧
  ∀ record, (verifyProxyToken raw ip now db).1 ≠ Ok (TokenOk record).
Proof.
  unfold verifyProxyToken, update_tokens, bind, query, gets, modify, ret.
  cbn -[sha256_hex sql_first sql_update sql_changes].
  destruct (sql_first _ _) as [r|] eqn:Er; [|by right].
  destruct (live r) eqn:Hl; cbn [negb]; [|by right].
  destruct (Z.leb_spec (tk_expires_at r) now); [by right|].
  destruct (tk_source_ip r) as [pinned|] eqn:Ep.
  - destruct (decide (pinned = ip)) as [->|Hp].
    + rewrite bool_decide_eq_true_2 by done. left. exists r. by rewrite Ep.
    + rewrite bool_decide_eq_false_2 by done. by right.
  - left. exists r. by rewrite Ep.
Qed.

(** The effects, as changes of the table.  A pinned row keeps its address. *)
Inductive table_step (ok : token_op → Prop) (t : list TokenRow) : list TokenRow → Prop :=
| table_same : table_step ok t t
| table_revoke p now : table_step ok t (sql_update p (with_revoked now) t)
| table_pin p ip :
    (∀ r, p r = true → tk_source_ip r = None) → table_step ok t (sql_update p (with_ip ip) t)
| table_mint now jti secret s g paths ttl :
    ok (OpMint jti secret s g paths ttl) →
    (∀ r, r ∈ t → tk_jti r ≠ jti ∧ tk_token_sha256 r ≠ sha256_hex (jti +:+ "." +:+ secret)) →
    table_step ok t (sql_update (live_of s) (with_revoked now) t ++ [minted_row now jti secret s g paths ttl])
| table_purge p : table_step ok t (sql_delete p t).

Lemma then_done {A} (m : dbM A) db : ((m ;; ret tt) db).2 = (m db).2.
Proof. unfold bind, ret. by destruct (m db) as [[a|e] db']. Qed.
Lemma token_table ok db db' : token_step ok db db' → table_step ok (tokens db) (tokens db').
Proof.
  intros (now & op & Hop & ->). destruct op as [jti secret s g paths ttl|raw ip|s| |ms]; unfold run_op;
    rewrite then_done.
  - destruct (tokens_mint now jti secret s g paths ttl db) as [->|(db' & -> & Et & Hn)]; [constructor|].
    cbn [snd]. rewrite Et. by constructor.
  - destruct (tokens_verify raw ip now db) as [(r & _ & _ & _ & _ & _ & ->)|[-> _]]; [|constructor].
    destruct (tk_source_ip r); constructor. intros x [_ Hx%bool_decide_eq_true]%andb_true_iff. done.
  - apply table_revoke.
  - apply table_revoke.
  - apply table_purge.
Qed.
Lemma token_tables ok (P : list TokenRow → Prop) db0 db :
  (∀ t t', table_step ok t t' → P t → P t') → P (tokens db0) → rtc (token_step ok) db0 db → P (tokens db).
Proof.
  intros Hstep H0 H. induction H as [|x y z Hxy _ IH]; [done|]. apply IH. eapply Hstep; [|done].
  by eapply token_table.
Qed.

(** ** One live token for a session *)

Definition tokens_wf (t : list TokenRow) : Prop :=
  keys_unique tk_jti t ∧ keys_unique tk_token_sha256 t ∧
  ∀ r1 r2, r1 ∈ t → r2 ∈ t → live r1 = true → live r2 = true → tk_session_id r1 = tk_session_id r2 → r1 = r2.

Lemma wf_empty : tokens_wf [].
Proof. split_and!; [apply NoDup_nil_2..|]. intros r1 r2 H. by apply elem_of_nil in H. Qed.
Lemma wf_revoke p now t : tokens_wf t → tokens_wf (sql_update p (with_revoked now) t).
Proof.
  intros (Hj & Hh & Hl). split_and!; [by apply keys_unique_update..|].
  intros r1 r2 (x1 & H1 & ->)%elem_of_sql_update (x2 & H2 & ->)%elem_of_sql_update.
  destruct (p x1); [done|]. destruct (p x2); [done|]. by apply Hl.
Qed.
Lemma wf_step t t' : table_step (λ _, True) t t' → tokens_wf t → tokens_wf t'.
Proof.
  intros Hstep Hwf. destruct Hstep as [|p now|p ip _|now jti secret s g paths ttl _ Hn|p]; [done|by apply wf_revoke|..].
  - destruct Hwf as (Hj & Hh & Hl). split_and!; [by apply keys_unique_update..|].
    intros r1 r2 (x1 & H1 & ->)%elem_of_sql_update (x2 & H2 & ->)%elem_of_sql_update L1 L2 Hs.
    assert (x1 = x2) as -> by (apply Hl; try done; by destruct (p x1), (p x2)). done.
  - destruct (wf_revoke (live_of s) now t Hwf) as (Hj & Hh & Hl).
    assert (Hold : ∀ r, r ∈ sql_update (live_of s) (with_revoked now) t →
      tk_jti r ≠ jti ∧ tk_token_sha256 r ≠ sha256_hex (jti +:+ "." +:+ secret) ∧
      (live r = true → tk_session_id r ≠ s)).
    { intros r (x & Hx & ->)%elem_of_sql_update. destruct (Hn x Hx) as [Hn1 Hn2].
      destruct (live_of s x) eqn:El; [done|]. split_and!; [done..|]. intros Hlx Hs.
      unfold live_of in El. by rewrite Hlx, bool_decide_eq_true_2 in El. }
    split_and!; [apply keys_unique_insert; [done|]; intros r Hr; by apply Hold..|].
    intros r1 r2 [H1| ->%list_elem_of_singleton]%elem_of_app [H2| ->%list_elem_of_singleton]%elem_of_app L1 L2 Hs;
      [by apply Hl| | |done].
    + destruct (Hold r1 H1) as (_ & _ & Hne). by destruct (Hne L1).
    + destruct (Hold r2 H2) as (_ & _ & Hne). by destruct (Hne L2).
  - destruct Hwf as (Hj & Hh & Hl). split_and!; [by apply keys_unique_delete..|].
    intros r1 r2 [H1 _]%elem_of_sql_delete [H2 _]%elem_of_sql_delete. by apply Hl.
Qed.

(** C37: A session has one live token.  Whatever is minted, used, revoked and
    purged: ids and hashes stay unique, and two live tokens of one session are
    the same token, so a container that is started again leaves no second one. *)
Theorem one_live_token db0 db :
  tokens_wf (tokens db0) → rtc (token_step (λ _, True)) db0 db → tokens_wf (tokens db).
Proof. apply token_tables, wf_step. Qed.

(** ** A revoked token *)

Definition dead (raw : string) (t : list TokenRow) : Prop :=
  ∀ r, r ∈ t → tk_token_sha256 r = sha256_hex raw → live r = false.
Definition not_minted (raw : string) (op : token_op) : Prop :=
  match op with
  | OpMint jti secret _ _ _ _ => sha256_hex (jti +:+ "." +:+ secret) ≠ sha256_hex raw
  | _ => True
  end.
Lemma dead_step raw t t' : table_step (not_minted raw) t t' → dead raw t → dead raw t'.
Proof.
  intros Hstep Hd. destruct Hstep as [|p now|p ip _|now jti secret s g paths ttl Hok _|p]; [done|..].
  - intros r (x & Hx & ->)%elem_of_sql_update. destruct (p x); [done|]. by apply Hd.
  - intros r (x & Hx & ->)%elem_of_sql_update. destruct (p x); by apply (Hd x).
  - intros r [(x & Hx & ->)%elem_of_sql_update| ->%list_elem_of_singleton]%elem_of_app.
    + destruct (live_of s x); [done|]. by apply Hd.
    + intros H. by destruct (Hok H).
  - intros r [Hr _]%elem_of_sql_delete. by apply Hd.
Qed.

(** Revocation is final.  When a session's container has exited and its
    tokens are revoked, no token of the session is accepted again, from any
    address and at any time, whatever else is minted, used, revoked and purged;
    only drawing the same random bytes again could change that. *)
Theorem revocation_is_final sessionId now db raw db' :
  (∀ r, r ∈ tokens db → tk_token_sha256 r = sha256_hex raw → tk_session_id r = sessionId) →
  rtc (token_step (not_minted raw)) (revokeProxyTokensForSession sessionId now db).2 db' →
  ∀ ip later record, (verifyProxyToken raw ip later db').1 ≠ Ok (TokenOk record).
Proof.
  intros Hs Hr ip later record.
  assert (dead raw (tokens db')) as Hd.
  { eapply token_tables; [apply dead_step| |exact Hr].
    change (tokens (revokeProxyTokensForSession sessionId now db).2)
      with (sql_update (live_of sessionId) (with_revoked now) (tokens db)).
    intros r (x & Hx & ->)%elem_of_sql_update. destruct (live_of sessionId x) eqn:El; [done|].
    intros Hh. unfold live_of in El. rewrite bool_decide_eq_true_2 in El by (by apply Hs). done. }
  destruct (tokens_verify raw ip later db') as [(r & Hf & Hl & _)|[_ H]]; [|apply H].
  apply sql_first_Some in Hf as [Hr1 Hh%bool_decide_eq_true]. by rewrite (Hd r Hr1 Hh) in Hl.
Qed.

(** ** The first address *)

Definition pinned_to (raw ip : string) (t : list TokenRow) : Prop :=
  ∀ r, r ∈ t → tk_token_sha256 r = sha256_hex raw → tk_source_ip r = Some ip.
Lemma pinned_step raw ip t t' : table_step (not_minted raw) t t' → pinned_to raw ip t → pinned_to raw ip t'.
Proof.
  intros Hstep Hd. destruct Hstep as [|p now|p ip' Hp|now jti secret s g paths ttl Hok _|p]; [done|..].
  - intros r (x & Hx & ->)%elem_of_sql_update. destruct (p x); by apply (Hd x).
  - intros r (x & Hx & ->)%elem_of_sql_update. destruct (p x) eqn:Ep; [|by apply Hd].
    intros Hh. specialize (Hd x Hx Hh). by rewrite (Hp x Ep) in Hd.
  - intros r [(x & Hx & ->)%elem_of_sql_update| ->%list_elem_of_singleton]%elem_of_app.
    + destruct (live_of s x); by apply (Hd x).
    + intros H. by destruct (Hok H).
  - intros r [Hr _]%elem_of_sql_delete. by apply Hd.
Qed.

(** A token belongs to its first user.  Once a token has been accepted from
    an address, it is never accepted from another one. *)
Theorem token_stays_with_its_first_user raw ip now db record db' :
  tokens_wf (tokens db) →
  (verifyProxyToken raw ip now db).1 = Ok (TokenOk record) →
  rtc (token_step (not_minted raw)) (verifyProxyToken raw ip now db).2 db' →
  ∀ ip' later record', (verifyProxyToken raw ip' later db').1 = Ok (TokenOk record') → ip' = ip.
Proof.
  intros (Hj & Hh & _) Hv Hr ip' later record' Hv'.
  assert (pinned_to raw ip (tokens db')) as Hp.
  { eapply token_tables; [apply pinned_step| |exact Hr].
    destruct (tokens_verify raw ip now db) as [(r & Hf & _ & _ & Hip & _ & ->)|[_ H]]; [|by destruct (H record)].
    apply sql_first_Some in Hf as [Hr1 Hh1%bool_decide_eq_true].
    destruct (tk_source_ip r) as [pinned|] eqn:Ep; cbn in Hip.
    - subst pinned. intros x Hx Hhx.
      by rewrite (keys_unique_eq tk_token_sha256 _ x r Hh Hx Hr1) by congruence.
    - intros x (y & Hy & ->)%elem_of_sql_update Hhx.
      assert (tk_token_sha256 y = sha256_hex raw) as Hhy by (by destruct (_ && _)).
      assert (y = r) as -> by (apply (keys_unique_eq tk_token_sha256 (tokens db)); congruence).
      by rewrite Ep, !bool_decide_eq_true_2. }
  destruct (tokens_verify raw ip' later db') as [(r & Hf & _ & _ & Hip & _)|[_ H]]; [|by destruct (H record')].
  apply sql_first_Some in Hf as [Hr1 Hh1%bool_decide_eq_true]. by rewrite (Hp r Hr1 Hh1) in Hip.
Qed.

(** ** What a token stands for *)

Lemma strings_back l : strings_of (JSON_stringify (JArr (map JStr l))) = l.
Proof.
  unfold strings_of. rewrite json_roundtrip.
  - induction l as [|s l IH]; [done|]. cbn. by rewrite IH.
  - split; apply every_arr; (split; [done|]); apply Forall_map, Forall_true; done.
Qed.

(** A minted token stands for its session.  Minting with bytes that are not
    in the table gives a token that is accepted, from any first address and until
    it expires, for the session, the group and the paths it was minted for. *)
Theorem minted_token_is_accepted now jti secret s g paths ttl db ip later :
  (∀ r, r ∈ tokens db → tk_jti r ≠ jti ∧ tk_token_sha256 r ≠ sha256_hex (jti +:+ "." +:+ secret)) →
  later < now + ttl →
  ∃ minted db', mintProxyToken now jti secret s g paths ttl db = (Ok minted, db') ∧
    (verifyProxyToken (mt_token minted) ip later db').1 =
      Ok (TokenOk (mkTokenRecord jti s g paths (Some ip) (now + ttl))).
Proof.
  intros Hfree Hlater. destruct (tokens_mint now jti secret s g paths ttl db) as [E|(db' & E & Et & _)].
  - exfalso. revert E. unfold mintProxyToken, transaction, update_tokens, bind, query, gets, modify, ret, throw.
    cbn -[sha256_hex sql_exists sql_update sql_changes].
    match goal with |- context [sql_exists ?p ?t] => destruct (sql_exists p t) eqn:E end; [|done].
    apply sql_exists_true in E as (r & (x & Hx & ->)%elem_of_sql_update & Hr). destruct (Hfree x Hx) as [H1 H2].
    apply orb_true_iff in Hr as [H%bool_decide_eq_true|H%bool_decide_eq_true]; by destruct (live_of s x).
  - exists (mkMinted jti (jti +:+ "." +:+ secret) (now + ttl)), db'. split; [done|]. cbn [mt_token].
    unfold verifyProxyToken, update_tokens, bind, query, gets, modify, ret. rewrite Et, sql_first_app.
    assert (sql_first (λ r, bool_decide (tk_token_sha256 r = sha256_hex (jti +:+ "." +:+ secret)))
              (sql_update (live_of s) (with_revoked now) (tokens db)) = None) as ->.
    { destruct (sql_first _ _) as [r|] eqn:Ef; [|done].
      apply sql_first_Some in Ef as [(x & Hx & ->)%elem_of_sql_update H%bool_decide_eq_true].
      destruct (Hfree x Hx) as [_ H2]. by destruct (live_of s x). }
    unfold minted_row. cbn -[sha256_hex strings_of JSON_stringify sql_changes sql_update Z.leb].
    rewrite bool_decide_eq_true_2 by done. cbn -[sha256_hex strings_of JSON_stringify sql_changes sql_update Z.leb].
    rewrite (proj2 (Z.leb_gt (now + ttl) later)) by lia. by rewrite strings_back.
Qed.
