(* ===== verification/HostActions.v ===== *)
(** * What an agent may ask of the host (src/modules/scheduling/actions.ts,
    src/modules/agent-to-agent/create-agent.ts, src/modules/gateway-audit)

    A row of kind [system] names an action and carries its arguments; the
    delivery loop hands the content to the handler registered for it.  The
    container wrote every field. *)
From S2P Require Import Prelude JsString Json OutboundContract Types JsonProofs SafeText Central Permissions SessionDb Tasks TasksProofs Sessions Destinations Fs Attachments SessionManager AgentRoute Classification Host Approvals Ingress Router RouterProofs ProxyTokens.

Local Open Scope string_scope.
Local Open Scope Z_scope.
Local Open Scope list_scope.
Local Open Scope prog_scope.

(** [value || null] *)
Definition or_null (s : string) : option string := if bool_decide (s = "") then None else Some s.

(** [readString], whose refusal is logged and ends the handler. *)
Definition with_text (content : fields) (key : string) (opts : ReadOpts) (k : string → hostM unit)
    : hostM unit :=
  match readString content key opts with
  | FOk v => k v
  | FBad _ => ret tt
  end.

Section actions.
Context (DATA_DIR : list string) (turns : nat → Turn).

(** A statement on the session's inbound.db, at the time it runs. *)
Definition on_tasks {A} (session : Session) (m : time → inM A) : hostM A :=
  let* now := clock turns in run (inbound (session_key session) (m now)).

(** ** Scheduling *)

(*@ src/src/modules/scheduling/actions.ts 36-36 MAX_PROMPT_LEN *)
Definition MAX_PROMPT_LEN : Z := 64 * 1024.

Definition task_content (prompt script : string) : string :=
  JSON_stringify (JObj [("prompt", JStr prompt); ("script", jopt (or_null script))]).

(*@ src/src/modules/scheduling/actions.ts 50-95 handleScheduleTask *)
Definition handleScheduleTask (content : fields) (session : Session) : hostM unit :=
  with_text content "taskId" (required_max 128) (λ taskId,
  with_text content "processAfter" (required_max 64) (λ processAfter,
  with_text content "prompt" (optional_max MAX_PROMPT_LEN) (λ prompt,
  with_text content "script" (optional_max MAX_PROMPT_LEN) (λ script,
  with_text content "recurrence" (optional_max 128) (λ recurrence,
  with_text content "platformId" (optional_max 256) (λ platformId,
  with_text content "channelType" (optional_max 64) (λ channelType,
  with_text content "threadId" (optional_max 256) (λ threadId,
    on_tasks session (λ now, insertTask now
      (mkTask taskId (TText processAfter) (or_null recurrence) (or_null platformId)
         (or_null channelType) (or_null threadId) (task_content prompt script))))))))))).

(*@ src/src/modules/scheduling/actions.ts 97-106 handleCancelTask *)
Definition handleCancelTask (content : fields) (session : Session) : hostM unit :=
  with_text content "taskId" (required_max 128) (λ taskId, on_tasks session (λ _, cancelTask taskId)).
(*@ src/src/modules/scheduling/actions.ts 108-117 handlePauseTask *)
Definition handlePauseTask (content : fields) (session : Session) : hostM unit :=
  with_text content "taskId" (required_max 128) (λ taskId, on_tasks session (λ _, pauseTask taskId)).
(*@ src/src/modules/scheduling/actions.ts 119-128 handleResumeTask *)
Definition handleResumeTask (content : fields) (session : Session) : hostM unit :=
  with_text content "taskId" (required_max 128) (λ taskId, on_tasks session (λ _, resumeTask taskId)).

(** The fields of an update: an absent one is [Some None], a value of the wrong
    type is [None]; [null] clears a recurrence or a script. *)
Definition text_field (content : fields) (key : string) : option (option string) :=
  match obj_get key content with
  | None => Some None
  | Some (JStr s) => Some (Some s)
  | Some _ => None
  end.
Definition clearable_field (content : fields) (key : string) : option (option (option string)) :=
  match obj_get key content with
  | None => Some None
  | Some (JStr s) => Some (Some (Some s))
  | Some JNull => Some (Some None)
  | Some _ => None
  end.
(*@ src/src/modules/scheduling/actions.ts 145-159 update *)
Definition read_update (content : fields) : option TaskUpdate :=
  prompt ← text_field content "prompt";
  processAfter ← text_field content "processAfter";
  recurrence ← clearable_field content "recurrence";
  script ← clearable_field content "script";
  Some (mkTaskUpdate prompt script recurrence (option_map TText processAfter)).

(*@ src/src/modules/scheduling/actions.ts 130-186 handleUpdateTask *)
Definition handleUpdateTask (content : fields) (session : Session) : hostM unit :=
  with_text content "taskId" (required_max 128) (λ taskId,
    match read_update content with
    | None => ret tt
    | Some update =>
        let* touched := on_tasks session (λ _, updateTask taskId update) in
        if (touched =? 0)%nat then
          notifyAgent DATA_DIR turns session
            ("update_task: no live task matched id " +:+ q taskId +:+ ".")
        else ret tt
    end).

(** ** A new agent *)

(** [initGroupFilesystem(group, { instructions })] *)
Context (initGroupFilesystem : AgentGroup → option string → fsM unit).

(*@ src/src/modules/agent-to-agent/create-agent.ts 33-33 MAX_INSTRUCTIONS_LEN *)
Definition MAX_INSTRUCTIONS_LEN : Z := 64 * 1024.

(** The first free folder; there are no more agents than names tried. *)
(*@ src/src/modules/agent-to-agent/create-agent.ts 101-107 folder *)
Definition pick_agent_folder (localName : string) (db : CentralDb) : option string :=
  free_name (S (length (agent_groups db)))
    (λ f, bool_decide (is_Some (getAgentGroupByFolder db f))) localName localName 2.
(*@ src/src/modules/agent-to-agent/create-agent.ts 147-154 parentName *)
Definition pick_parent_name (agentGroupId : string) (db : CentralDb) : option string :=
  free_name (S (length (agent_destinations db)))
    (λ n, bool_decide (is_Some (getDestinationByName agentGroupId n db))) "parent" "parent" 2.

(** The group, its files and both edges.  A folder is made of letters, digits
    and dashes, so the check that it stays below the directory of the groups
    always holds. *)
(*@ src/src/modules/agent-to-agent/create-agent.ts 118-162 handleCreateAgent *)
Definition spawn_agent (now : time) (agentGroupId name localName folder : string)
    (instructions : option string) (sourceGroup : AgentGroup) : wM unit :=
  let newGroup := mkAgentGroup agentGroupId name folder None now (ag_organization_id sourceGroup)
                    (Some worker) in
  central (createAgentGroup newGroup) ;;
  files (initGroupFilesystem newGroup instructions) ;;
  central (createDestination
    (mkAgentDestination (ag_id sourceGroup) localName TargetAgent agentGroupId now)) ;;
  let* parentName := db_get (pick_parent_name agentGroupId) in
  match parentName with
  | None => throw (Err "out of fuel")
  | Some parentName => central (createDestination
      (mkAgentDestination agentGroupId parentName TargetAgent (ag_id sourceGroup) now))
  end.

(*@ src/src/modules/agent-to-agent/create-agent.ts 35-49 notifyAgent *)
Definition notify_creator (session : Session) (text : string) : hostM unit :=
  write_note DATA_DIR turns "sys" session text ;;
  let* fresh := db_read (getSession (s_id session)) in
  match fresh with
  | Some fresh => wake_cast (s_id fresh)
  | None => ret tt
  end.

(*@ src/src/modules/agent-to-agent/create-agent.ts 51-175 handleCreateAgent *)
Definition handleCreateAgent (content : fields) (session : Session) : hostM unit :=
  let nameR := readString content "name" (mkReadOpts true None (Some 64) (Some DISPLAY_NAME_RE) None) in
  let instructionsR := readString content "instructions" (optional_max MAX_INSTRUCTIONS_LEN) in
  let* sourceGroup := db_read (λ db, getAgentGroup db (s_agent_group_id session)) in
  match sourceGroup, nameR, instructionsR with
  | None, _, _ => notify_creator session "create_agent failed: source agent group not found."
  | Some _, FBad _, _ => notify_creator session
      "create_agent failed: name must be 1-64 characters with no line breaks, backticks, backslashes, or invisible formatting characters."
  | Some _, FOk _, FBad reason => notify_creator session ("create_agent failed: " +:+ reason +:+ ".")
  | Some sourceGroup, FOk name, FOk instructions =>
      let localName := normalizeName name in
      let* collision := db_read (getDestinationByName (ag_id sourceGroup) localName) in
      match collision with
      | Some _ => notify_creator session ("Cannot create agent " +:+ q name +:+
          ": you already have a destination named " +:+ q localName +:+ ".")
      | None =>
          let* folder := db_read (pick_agent_folder localName) in
          match folder with
          | None => throw (OtherError (Err "out of fuel"))
          | Some folder =>
              let* now := clock turns in
              let* agentGroupId := fresh_id turns "ag" in
              run (spawn_agent now agentGroupId name localName folder (or_null instructions) sourceGroup) ;;
              run (writeDestinations (s_agent_group_id session) (s_id session)) ;;
              notify_creator session ("Agent " +:+ q localName +:+
                " created. You can now message it with <message to=" +:+ q localName +:+
                ">...</message>.")
          end
      end
  end.

(** ** The audit of the gateway calls *)

(** [typeof value === 'number' && Number.isFinite(value)]; the number of a
    fraction is [frac_value]. *)
Context (frac_value : string → Z).
Definition audit_number (content : fields) (key : string) : option Z :=
  match obj_get key content with
  | Some (JNum n) => Some n
  | Some (JFrac lit) => Some (frac_value lit)
  | _ => None
  end.
Definition toStatus (raw : option json) : AuditStatus :=
  if bool_decide (jstring raw = Some "ok") then AuditOk else AuditError.

(*@ src/src/modules/gateway-audit/index.ts 34-74 handleGatewayAudit *)
Definition handleGatewayAudit (content : fields) (session : Session) : hostM unit :=
  match readText content "path", readText content "requesterSource" with
  | Some path, Some requesterSource =>
      let* now := clock turns in
      let* userId := run (trusted_user content session) in
      try_catch
        (run (central (recordGatewayAudit
           (mkAuditEntry (Some (s_id session)) (Some (s_agent_group_id session)) userId path
              (readText content "operation") requesterSource (toStatus (obj_get "status" content))
              (audit_number content "httpStatus") (audit_number content "durationMs")
              (readText content "idempotencyKey") (readText content "inputHash")
              (readText content "errorMsg")) now)))
        (λ _, ret tt)
  | _, _ => ret tt
  end.
End actions.

(** ** What an agent's requests can do

    An agent created by an agent lies inside its creator's organization, joined
    to its creator and to nobody else; a scheduling request touches the tasks of
    its own session and nothing else. *)

(** ** What a note to the session leaves alone *)

Lemma preserves_files {A : Type} (P : gmap (list string) node → Prop) (m : fsM A) :
  preserves P m → preserves (λ w, P (w_fs w)) (files m).
Proof. intros Hm w Hw. specialize (Hm _ Hw). unfold files. by destruct (m (w_fs w)) as [r fs]. Qed.
Lemma inbound_elsewhere {A} key (m : inM A) w : delete key (w_in (inbound key m w).2) = delete key (w_in w).
Proof.
  unfold inbound. destruct (w_in w !! key) as [d|]; [|done]. destruct (m d) as [r d']. cbn.
  by rewrite delete_insert_eq.
Qed.

(** The central database but for the sessions, and the inboxes of the others. *)
Definition around (session : Session) (w : World) : CentralDb * gmap (string * string) InboundDb :=
  (set_sessions [] (w_db w), delete (session_key session) (w_in w)).
Definition local (session : Session) {A} (m : wM A) : Prop :=
  ∀ v, preserves (λ w, around session w = v) m.
Definition aloof (session : Session) {A} (m : hostM A) : Prop :=
  ∀ v, preserves (λ h, around session (h_world h) = v) m.

Section local.
Context (session : Session).

Lemma local_bind {A B} (m : wM A) (k : A → wM B) :
  local session m → (∀ a, local session (k a)) → local session (bind m k).
Proof. intros Hm Hk v. apply preserves_bind; [apply Hm|]. intros a. apply Hk. Qed.
Lemma local_files {A : Type} (m : fsM A) : local session (files m).
Proof. intros v w Hw. unfold files. by destruct (m (w_fs w)). Qed.
Lemma local_gets {A} (f : World → A) : local session (gets f).
Proof. intros v. apply preserves_gets. Qed.
Lemma local_inbound {A} (m : inM A) : local session (inbound (session_key session) m).
Proof.
  intros v w <-. unfold around. rewrite inbound_elsewhere. f_equal. unfold inbound.
  destruct (w_in w !! _) as [d|]; [|done]. by destruct (m d).
Qed.
Lemma local_sessions {A} (m : dbM A) :
  (∀ v, preserves (λ db, set_sessions [] db = v) m) → local session (central m).
Proof.
  intros Hm v w <-. specialize (Hm _ (w_db w) eq_refl). unfold central.
  destruct (m (w_db w)) as [r db]. cbn in *. unfold around. cbn. by rewrite Hm.
Qed.
Lemma local_message DATA_DIR now m :
  local session (writeSessionMessage DATA_DIR now (s_agent_group_id session) (s_id session) m).
Proof.
  apply local_bind; [apply local_files|]. intros content. apply local_bind; [apply local_inbound|]. intros _.
  apply local_sessions. intros v. by apply preserves_modify.
Qed.
Lemma local_destinations : local session (writeDestinations (s_agent_group_id session) (s_id session)).
Proof.
  apply local_bind; [apply local_gets|]. intros b. destruct (negb b); [intros v; apply preserves_ret|].
  apply local_bind; [apply local_gets|]. intros l. apply local_inbound.
Qed.

Lemma aloof_bind {A B} (m : hostM A) (k : A → hostM B) :
  aloof session m → (∀ a, aloof session (k a)) → aloof session (bind m k).
Proof. intros Hm Hk v. apply preserves_bind; [apply Hm|]. intros a. apply Hk. Qed.
Lemma aloof_gets {A} (f : Host → A) : aloof session (gets f).
Proof. intros v. apply preserves_gets. Qed.
Lemma aloof_ret {A} (a : A) : aloof session (ret a).
Proof. intros v. apply preserves_ret. Qed.
Lemma aloof_run {A} (m : wM A) : local session m → aloof session (run m).
Proof. intros Hm v. apply (preserves_run (λ w, around session w = v)), Hm. Qed.
Lemma aloof_note DATA_DIR turns use text : aloof session (write_note DATA_DIR turns use session text).
Proof. do 2 (apply aloof_bind; [apply aloof_gets|intros ?]). apply aloof_run, local_message. Qed.
Lemma aloof_notify DATA_DIR turns text :
  aloof session (notifyAgent DATA_DIR turns session text) ∧ aloof session (notify_creator DATA_DIR turns session text).
Proof.
  assert (aloof session (write_note DATA_DIR turns "sys" session text ;;
    let* fresh := db_read (getSession (s_id session)) in
    match fresh with Some fresh => wake_cast (s_id fresh) | None => ret tt end)) as H; [|by split].
  apply aloof_bind; [apply aloof_note|]. intros _. apply aloof_bind; [apply aloof_gets|].
  intros [s|]; [by intros v h|apply aloof_ret].
Qed.
Lemma aloof_text content key opts k :
  (∀ v, aloof session (k v)) → aloof session (with_text content key opts k).
Proof. intros Hk. unfold with_text. destruct (readString _ _ _); [apply Hk|apply aloof_ret]. Qed.
Lemma aloof_tasks {A} turns (m : time → inM A) : aloof session (on_tasks turns session m).
Proof. apply aloof_bind; [apply aloof_gets|]. intros now. apply aloof_run, local_inbound. Qed.
End local.

(** ** Scheduling *)

(** The handlers of the scheduling module, by the action they are registered
    for. *)
(*@ src/src/modules/scheduling/index.ts 30-34 registerDeliveryAction *)
Definition scheduling_actions (DATA_DIR : list string) (turns : nat → Turn) (action : string)
    : option (fields → Session → hostM unit) :=
  if bool_decide (action = "schedule_task") then Some (handleScheduleTask turns)
  else if bool_decide (action = "cancel_task") then Some (handleCancelTask turns)
  else if bool_decide (action = "pause_task") then Some (handlePauseTask turns)
  else if bool_decide (action = "resume_task") then Some (handleResumeTask turns)
  else if bool_decide (action = "update_task") then Some (handleUpdateTask DATA_DIR turns)
  else None.

(** A note of the host to the agent of the session. *)
Definition is_note (session : Session) (r : MessageIn) : Prop :=
  mi_kind r = "chat" ∧ mi_channel_type r = Some "agent" ∧
  mi_platform_id r = Some (s_agent_group_id session) ∧ mi_origin_user_id r = None.
(** The rows of [d0] that are no tasks are all there, and besides them only
    notes. *)
Definition only_tasks (session : Session) (d0 d : InboundDb) : Prop :=
  keys_unique mi_id (messages_in d) ∧
  (∀ r, r ∈ messages_in d0 → mi_kind r ≠ "task" → r ∈ messages_in d) ∧
  (∀ r, r ∈ messages_in d → mi_kind r ≠ "task" → r ∈ messages_in d0 ∨ is_note session r).

Section only_tasks.
Context (session : Session) (d0 : InboundDb).

Lemma only_tasks_insert r :
  mi_kind r = "task" ∨ is_note session r → preserves (only_tasks session d0) (insert_row r).
Proof.
  intros Hr d (Hu & H1 & H2). unfold insert_row. rewrite bind_gets. destruct (sql_exists _ _) eqn:E; [done|].
  unfold modify. cbn [snd].
  assert (∀ r', r' ∈ messages_in d → mi_id r' ≠ mi_id r) as Hn.
  { intros r' Hr' Hid. rewrite <-not_true_iff_false in E. apply E, sql_exists_true. exists r'.
    split; [done|]. by rewrite bool_decide_eq_true_2. }
  split_and!; cbn.
  - apply keys_unique_insert; [done|]. intros r' Hr'. by apply Hn.
  - intros r' Hr' Hk. apply elem_of_app. left. by apply H1.
  - intros r' [Hr'| ->%list_elem_of_singleton]%elem_of_app Hk; [by apply H2|]. destruct Hr; [done|by right].
Qed.
Lemma only_tasks_update p f d :
  (∀ r, r ∈ messages_in d → p r = true → mi_kind r = "task") →
  (∀ r, mi_id (f r) = mi_id r ∧ mi_kind (f r) = mi_kind r) →
  only_tasks session d0 d → only_tasks session d0 (update_in p f d).2.
Proof.
  intros Hp Hf (Hu & H1 & H2). unfold update_in. rewrite bind_gets, bind_modify. cbn [ret snd].
  split_and!; cbn.
  - apply keys_unique_update; [|done]. intros r. apply Hf.
  - intros r Hr Hk. apply elem_of_sql_update. specialize (H1 r Hr Hk). exists r. split; [done|].
    destruct (p r) eqn:E; [|done]. by destruct Hk; apply Hp.
  - intros r (r' & Hr' & ->)%elem_of_sql_update Hk. destruct (p r') eqn:E; [|by apply H2].
    rewrite (proj2 (Hf r')) in Hk. by destruct Hk; apply Hp.
Qed.
End only_tasks.

(** The inbox of the session at the end is such a one. *)
Definition kept (session : Session) (d0 : InboundDb) (w : World) : Prop :=
  ∃ d, w_in w !! session_key session = Some d ∧ only_tasks session d0 d.

Section kept.
Context (session : Session) (d0 : InboundDb).

Lemma kept_inbound {A} (m : inM A) :
  preserves (only_tasks session d0) m → preserves (kept session d0) (inbound (session_key session) m).
Proof.
  intros Hm w (d & Hd & Ho). specialize (Hm d Ho). unfold inbound. rewrite Hd.
  destruct (m d) as [r d']. cbn in *. exists d'. split; [apply lookup_insert_eq|done].
Qed.
Lemma kept_tasks {A} turns (m : time → inM A) :
  (∀ now, preserves (only_tasks session d0) (m now)) →
  preserves (λ h, kept session d0 (h_world h)) (on_tasks turns session m).
Proof. intros Hm. apply preserves_bind; [apply preserves_gets|]. intros now. apply preserves_run, kept_inbound, Hm. Qed.
Lemma kept_notify DATA_DIR turns text :
  preserves (λ h, kept session d0 (h_world h)) (notifyAgent DATA_DIR turns session text).
Proof.
  assert (∀ use, preserves (λ h, kept session d0 (h_world h)) (write_note DATA_DIR turns use session text)) as Hn.
  { intros use. do 2 (apply preserves_bind; [apply preserves_gets|intros ?]). apply preserves_run.
    apply preserves_bind. { intros w Hw. unfold files. by destruct (extractAttachmentFiles _ _ _ _ _). }
    intros content. apply preserves_bind.
    - apply kept_inbound. unfold insertMessage. apply preserves_bind; [apply preserves_gets|]. intros seq.
      apply only_tasks_insert. by right.
    - intros _ w Hw. exact Hw. }
  apply preserves_bind; [apply Hn|]. intros _. apply preserves_bind; [apply preserves_gets|].
  intros [s|]; [by intros h|apply preserves_ret].
Qed.
Lemma kept_text content key opts k :
  (∀ v, preserves (λ h, kept session d0 (h_world h)) (k v)) →
  preserves (λ h, kept session d0 (h_world h)) (with_text content key opts k).
Proof. intros Hk. unfold with_text. destruct (readString _ _ _); [apply Hk|apply preserves_ret]. Qed.

(** A change of the tasks of a series. *)
Lemma only_tasks_series taskId p f :
  (∀ r, mi_id (f r) = mi_id r ∧ mi_kind (f r) = mi_kind r) →
  preserves (only_tasks session d0) (update_in (λ r, in_series taskId r && p r) f ;; ret tt).
Proof.
  intros Hf. apply preserves_bind; [|intros n; apply preserves_ret]. intros d. apply only_tasks_update; [|done].
  intros r _ [Hs _]%andb_true_iff. unfold in_series in Hs. by apply andb_true_iff in Hs as [_ ?%bool_decide_eq_true].
Qed.
Lemma only_tasks_updateTask taskId u : preserves (only_tasks session d0) (updateTask taskId u).
Proof.
  intros d Hd. unfold updateTask. rewrite bind_gets. case_match; [done|].
  set (rows := sql_where _ _).
  enough (preserves (λ d', only_tasks session d0 d' ∧
      ∀ r r', r ∈ rows → r' ∈ messages_in d' → mi_id r' = mi_id r → mi_kind r' = "task")
    (transaction (for_each rows (λ row,
       let* content := mergeContent u (mi_content row) in
       update_in (has_id (mi_id row)) (apply_update u content) ;; ret tt)) ;; ret (length rows))) as Hg.
  { apply Hg. split; [done|]. intros r r' [Hr Hs]%elem_of_sql_where Hr' E. destruct Hd as (Hu & _).
    rewrite (keys_unique_eq mi_id _ r' r Hu Hr' Hr E).
    apply andb_true_iff in Hs as [[_ Hs]%andb_true_iff _]. by apply bool_decide_eq_true in Hs. }
  apply preserves_bind; [|intros _; apply preserves_ret]. apply preserves_transaction, preserves_for_each.
  intros row Hrow. apply preserves_bind.
  { intros d' Hd'. by rewrite mergeContent_pure. }
  intros content. apply preserves_bind; [|intros _; apply preserves_ret].
  intros d' [Hd' Hk]. assert (∀ r, mi_id (apply_update u content r) = mi_id r ∧
    mi_kind (apply_update u content r) = mi_kind r) as Hf.
  { intros r. unfold apply_update. by destruct (tu_processAfter u), (tu_recurrence u). }
  split.
  - apply only_tasks_update; [|done|done]. intros r Hr E%bool_decide_eq_true. by apply (Hk row r).
  - intros r r' Hr. unfold update_in. rewrite bind_gets, bind_modify. cbn.
    intros (r0 & Hr0 & ->)%elem_of_sql_update E. destruct (has_id _ r0).
    + rewrite (proj1 (Hf r0)) in E. rewrite (proj2 (Hf r0)). by apply (Hk r r0).
    + by apply (Hk r r0).
Qed.
End kept.


(** ** Creating agents *)

(** [e] joins the two agents, in one direction or the other. *)
Definition joins (a b : string) (e : AgentDestination) : Prop :=
  ad_target_type e = TargetAgent ∧
  ((ad_agent_group_id e = a ∧ ad_target_id e = b) ∨ (ad_agent_group_id e = b ∧ ad_target_id e = a)).
(** [child] is new, a worker of the organization of [source] in a folder of its
    own, and [edges] are between the two. *)
Definition offspring (db : CentralDb) (source child : AgentGroup) (edges : list AgentDestination) : Prop :=
  getAgentGroup db (ag_id child) = None ∧ getAgentGroupByFolder db (ag_folder child) = None ∧
  ag_organization_id child = ag_organization_id source ∧ ag_role child = Some worker ∧
  Forall (joins (ag_id source) (ag_id child)) edges.
Definition grown (groups : list AgentGroup) (edges : list AgentDestination) (db : CentralDb) : CentralDb :=
  set_agent_destinations (agent_destinations db ++ edges) (set_agent_groups (agent_groups db ++ groups) db).

Lemma grown_nil db : grown [] [] db = db.
Proof. unfold grown. rewrite !app_nil_r. by destruct db. Qed.
Lemma createDestination_cases row db :
  (∃ e, createDestination row db = (Throw e, db)) ∨ createDestination row db = (Ok tt, grown [] [row] db).
Proof.
  unfold createDestination, query. rewrite bind_gets. case_match; [left; by eexists|].
  rewrite bind_gets. case_match; [left; by eexists|]. right. unfold grown. rewrite app_nil_r. by destruct db.
Qed.
Lemma createAgentGroup_cases g db :
  (∃ e, createAgentGroup g db = (Throw e, db)) ∨
  (createAgentGroup g db = (Ok tt, grown [g] [] db) ∧ getAgentGroup db (ag_id g) = None ∧
   getAgentGroupByFolder db (ag_folder g) = None).
Proof.
  unfold createAgentGroup, query. rewrite bind_gets. case_match eqn:E; [|left; by eexists]. right.
  apply andb_true_iff in E as [Hn%negb_true_iff _]. split.
  { unfold grown. rewrite app_nil_r. by destruct db. }
  assert (∀ g', g' ∈ agent_groups db → ag_id g' ≠ ag_id g ∧ ag_folder g' ≠ ag_folder g) as Hf.
  { intros g' Hg'. split; intros Eq; rewrite <-not_true_iff_false in Hn; apply Hn, sql_exists_true;
      exists g'; (split; [done|]); apply orb_true_iff; [left|right]; by apply bool_decide_eq_true_2. }
  unfold getAgentGroup, getAgentGroupByFolder.
  split; destruct (sql_first _ _) as [g'|] eqn:Eg; try done; apply sql_first_Some in Eg as [Hg' E%bool_decide_eq_true];
    by destruct (Hf g' Hg').
Qed.

Lemma grown_grown g1 e1 g2 e2 db : grown g2 e2 (grown g1 e1 db) = grown (g1 ++ g2) (e1 ++ e2) db.
Proof. unfold grown. cbn. by rewrite <-!app_assoc. Qed.

(** [m] adds edges that satisfy [J] to the central database and nothing else. *)
Definition adds_edges (J : AgentDestination → Prop) {A} (m : wM A) : Prop :=
  ∀ w, w_in (m w).2 = w_in w ∧ w_out (m w).2 = w_out w ∧
    ∃ edges, w_db (m w).2 = grown [] edges (w_db w) ∧ Forall J edges.

Section spawn.
Context (DATA_DIR : list string) (turns : nat → Turn)
  (initGroupFilesystem : AgentGroup → option string → fsM unit) (J : AgentDestination → Prop).

Lemma adds_none {A} (m : wM A) :
  (∀ w, w_in (m w).2 = w_in w ∧ w_out (m w).2 = w_out w ∧ w_db (m w).2 = w_db w) → adds_edges J m.
Proof.
  intros H w. destruct (H w) as (? & ? & ->). split_and!; [done..|]. exists []. by rewrite grown_nil.
Qed.
Lemma adds_bind {A B} (m : wM A) (k : A → wM B) :
  adds_edges J m → (∀ a, adds_edges J (k a)) → adds_edges J (bind m k).
Proof.
  intros Hm Hk w. destruct (Hm w) as (Hi & Ho & e1 & E1 & J1). rewrite bind_case.
  destruct (m w) as [[a|e] w1]; cbn [snd] in *; [|split_and!; [done..|]; by exists e1].
  destruct (Hk a w1) as (Hi2 & Ho2 & e2 & E2 & J2). rewrite Hi2, Ho2. split_and!; [done..|].
  exists (e1 ++ e2). rewrite E2, E1, grown_grown. split; [done|]. by apply Forall_app.
Qed.
Lemma adds_destination row : J row → adds_edges J (central (createDestination row)).
Proof.
  intros Hr w. unfold central. destruct (createDestination_cases row (w_db w)) as [[e E]|E]; rewrite E; cbn.
  - split_and!; [done..|]. exists []. by rewrite grown_nil.
  - split_and!; [done..|]. exists [row]. split; [done|]. by constructor.
Qed.
Lemma adds_files {A : Type} (m : fsM A) : adds_edges J (files m).
Proof. apply adds_none. intros w. unfold files. by destruct (m (w_fs w)). Qed.
Lemma adds_gets {A} (f : World → A) : adds_edges J (gets f).
Proof. by apply adds_none. Qed.
End spawn.

Section spawned.
Context (DATA_DIR : list string) (turns : nat → Turn)
  (initGroupFilesystem : AgentGroup → option string → fsM unit).

Lemma spawn_agent_spec now id name localName folder instructions source w :
  let w' := (spawn_agent initGroupFilesystem now id name localName folder instructions source w).2 in
  w_in w' = w_in w ∧ w_out w' = w_out w ∧
  ∃ groups edges, w_db w' = grown groups edges (w_db w) ∧
    (groups = [] ∧ edges = [] ∨
     ∃ child, groups = [child] ∧ ag_id child = id ∧ ag_folder child = folder ∧ ag_name child = name ∧
       offspring (w_db w) source child edges).
Proof.
  cbn zeta. unfold spawn_agent. set (child := mkAgentGroup _ _ _ _ _ _ _). rewrite bind_case.
  destruct (createAgentGroup_cases child (w_db w)) as [[e E]|(E & Hi & Hf)].
  { assert (central (createAgentGroup child) w = (Throw e, w)) as -> by (unfold central; rewrite E; by destruct w).
    split_and!; [done..|]. exists [], []. rewrite grown_nil. split; [done|by left]. }
  assert (central (createAgentGroup child) w = (Ok tt, set_db (grown [child] [] (w_db w)) w)) as ->
    by (unfold central; by rewrite E).
  match goal with |- context [bind (files ?f) ?k ?w1] =>
    assert (adds_edges (joins (ag_id source) id) (bind (files f) k)) as Ha end.
  { apply adds_bind; [apply adds_files|]. intros _. apply adds_bind; [apply adds_destination; split; [done|by left]|].
    intros _. apply adds_bind; [apply adds_gets|]. intros [n|]; [apply adds_destination; split; [done|by right]|].
    by apply adds_none. }
  destruct (Ha (set_db (grown [child] [] (w_db w)) w)) as (Hin & Hout & edges & Ed & HJ).
  rewrite Hin, Hout, Ed. split_and!; [done..|]. exists [child], edges. cbn [set_db w_db]. rewrite grown_grown.
  split; [done|]. right. exists child. by repeat split.
Qed.
End spawned.

Lemma around_grown session w w' groups edges :
  around session w' = (set_sessions [] (grown groups edges (w_db w)), delete (session_key session) (w_in w)) →
  ∃ rows, w_db w' = set_sessions rows (grown groups edges (w_db w)) ∧
    delete (session_key session) (w_in w') = delete (session_key session) (w_in w).
Proof.
  unfold around. intros H. pose proof (f_equal fst H) as E. pose proof (f_equal snd H) as Ei. cbn in E, Ei.
  exists (sessions (w_db w')). split; [|done].
  apply (f_equal (set_sessions (sessions (w_db w')))) in E. by destruct (w_db w').
Qed.

(** C17: An agent made by an agent stays in its tenant: whatever [create_agent] is
    asked, and whether it succeeds, is refused or throws half way, the central
    database gains at most one agent, new, a worker of the organization of the
    agent that asked, in a folder no other has, and at most edges between these
    two; no role, member, wiring or grant changes, no other edge, and no inbox of
    another session (modules/agent-to-agent/create-agent.ts). *)
Theorem spawned_agent_stays_in_tenant DATA_DIR turns initGroupFilesystem content session h :
  let h' := (handleCreateAgent DATA_DIR turns initGroupFilesystem content session h).2 in
  ∃ rows groups edges,
    db_of h' = set_sessions rows (grown groups edges (db_of h)) ∧
    delete (session_key session) (w_in (h_world h')) = delete (session_key session) (w_in (h_world h)) ∧
    (groups = [] ∧ edges = [] ∨
     ∃ source child, getAgentGroup (db_of h) (s_agent_group_id session) = Some source ∧ groups = [child] ∧
       offspring (db_of h) source child edges).
Proof.
  cbn zeta.
  enough (∃ groups edges, around session (h_world (handleCreateAgent DATA_DIR turns initGroupFilesystem content session h).2) =
      (set_sessions [] (grown groups edges (db_of h)), delete (session_key session) (w_in (h_world h))) ∧
    (groups = [] ∧ edges = [] ∨
     ∃ source child, getAgentGroup (db_of h) (s_agent_group_id session) = Some source ∧ groups = [child] ∧
       offspring (db_of h) source child edges)) as (groups & edges & (rows & E & Ei)%around_grown & Hg)
    by (by exists rows, groups, edges).
  assert (∀ m : hostM unit, aloof session m → ∃ groups edges, around session (h_world (m h).2) =
      (set_sessions [] (grown groups edges (db_of h)), delete (session_key session) (w_in (h_world h))) ∧
    (groups = [] ∧ edges = [] ∨
     ∃ source child, getAgentGroup (db_of h) (s_agent_group_id session) = Some source ∧ groups = [child] ∧
       offspring (db_of h) source child edges)) as Hnone.
  { intros m Hm. exists [], []. rewrite grown_nil. split; [by apply Hm|by left]. }
  assert (∀ text, aloof session (notify_creator DATA_DIR turns session text)) as Hn
    by (intros text; apply (proj2 (aloof_notify session DATA_DIR turns text))).
  unfold handleCreateAgent. unfold db_read at 1. rewrite bind_gets. fold (db_of h).
  destruct (getAgentGroup (db_of h) (s_agent_group_id session)) as [source|] eqn:Es; [|by apply Hnone].
  destruct (readString content "name" _) as [name|]; [|by apply Hnone].
  destruct (readString content "instructions" _) as [instructions|]; [|by apply Hnone].
  unfold db_read at 1. rewrite bind_gets. destruct (getDestinationByName _ _ _); [by apply Hnone|].
  unfold db_read at 1. rewrite bind_gets. fold (db_of h).
  destruct (pick_agent_folder _ _) as [folder|]; [|apply (Hnone (throw _)); intros v; apply preserves_throw].
  unfold clock, fresh_id. rewrite !bind_gets, bind_case.
  match goal with |- context [run (spawn_agent ?i ?n ?g ?a ?l ?f ?ins ?s)] =>
    pose proof (spawn_agent_spec i n g a l f ins s (h_world h)) as Hs; set (spawned := spawn_agent i n g a l f ins s) in * end.
  cbn zeta in Hs. destruct Hs as (Hi & _ & groups & edges & Hd & Hg).
  assert (around session (spawned (h_world h)).2 =
    (set_sessions [] (grown groups edges (db_of h)), delete (session_key session) (w_in (h_world h)))) as Ha
    by (unfold around; by rewrite Hd, Hi).
  exists groups, edges. split.
  - unfold run at 1. destruct (spawned (h_world h)) as [[[]|e] w]; cbn [snd] in Ha; [|exact Ha].
    rewrite <-Ha. change w with (h_world (set_world w h)) at 2.
    refine ((_ : aloof session _) _ _ eq_refl). apply aloof_bind; [apply aloof_run, local_destinations|]. intros _. apply Hn.
  - destruct Hg as [Hg|(child & ? & _ & _ & _ & ?)]; [by left|right]. by exists source, child.
Qed.

(** ** Concrete requests *)

Definition asking : Session := plain_session "s1" "a" None None (Some "u1") (Some "s1").
Definition agent_desk : AgentGroup := mkAgentGroup "a" "Desk" "desk" None 0 (Some "o") None.
(** A question of a user is in the inbox; nobody holds any role. *)
Definition asked_row : MessageIn :=
  mkMessageIn "m1" 2 "chat" (TText "2024-01-01") RPending None None (Some "m1") 0 true None None None "{}" None None None.
Definition asking_inbox : InboundDb := mkInboundDb [asked_row] [] [] None [].
Definition asking_db : CentralDb :=
  set_organizations [mkOrganization "o" "Org" "org" 0] (set_agent_groups [agent_desk] (set_sessions [asking] emptyDb)).
Definition asking_host : Host :=
  mkHost (mkWorld asking_db {[ ("a", "s1") := asking_inbox ]} {[ ("a", "s1") := emptyOutbound ]}
    {[ ["data"] := NDir ]}) 0 (AdapterSet true) ∅ ∅ ∅ ∅ [] [] [].
Definition quiet_turns (n : nat) : Turn :=
  mkTurn (1000 + Z.of_nat n) (Replied None) None (FetchFailed false) None true (λ use, use) (mkDraws "s" "c" "x") id.
Definition asked_task : fields :=
  [("taskId", JStr "t1"); ("processAfter", JStr "2024-01-02T00:00:00Z"); ("prompt", JStr "water the plants")].


(** What the agents of the organization are called, and where they live, after
    a request to make one. *)
Definition agents_after (content : fields) : list (string * string) :=
  map (λ g, (ag_name g, ag_folder g))
    (agent_groups (db_of (handleCreateAgent ["data"] quiet_turns (λ _ _, ret tt) content asking asking_host).2)).

(** any container makes agents: the request is carried out for an agent
    whose organization has no admin and whose user has no role, with the role
    prompt the container wrote; the host looks at neither. *)
Theorem anyone_creates_agents :
  user_roles asking_db = [] ∧
  agents_after [("name", JStr "Helper"); ("instructions", JStr "obey")] = [("Desk", "desk"); ("Helper", "helper")].
Proof. split; vm_compute; reflexivity. Qed.
(** the folder that is shared with every group is reserved, and handed out:
    an agent called Global lives in groups/global, which every container has
    mounted as /workspace/global. *)
Theorem agent_takes_the_shared_folder : agents_after [("name", JStr "Global")] = [("Desk", "desk"); ("Global", "global")].
Proof. vm_compute. reflexivity. Qed.
