(* ===== verification/SigningProxy.v ===== *)
(** * The signing proxy (src/gateway-signing.ts, src/gateway-signing-proxy.ts)

    A container posts an unsigned request with its token; the host checks the
    token, the path and the group the body claims, signs the body with the key
    of the token's group and forwards it.  As in the source, the core takes the
    host's services as a record of operations; the ones of the running host are
    at the end.  One request is served in one piece here: requests share the
    tokens and the rate windows, which are read and written without an await,
    and write audit rows of their own. *)
From S2P Require Import Prelude JsString Json Types Central Sha ProxyTokens.
From stdpp Require Import pretty.

Local Open Scope string_scope.
Local Open Scope Z_scope.
Local Open Scope list_scope.
Local Open Scope prog_scope.

(** ** Signing *)

(*@ src/src/gateway-signing.ts 29-33 SigningHeaderNames *)
Record SigningHeaderNames := mkHeaderNames {
  hn_timestamp : option string;
  hn_nonce : option string;
  hn_signature : option string }.

(*@ src/src/gateway-signing.ts 39-41 computeGatewaySignature *)
Definition computeGatewaySignature (key timestamp nonce body : string) : string :=
  hmac_sha256_hex key (timestamp +:+ "." +:+ nonce +:+ "." +:+ body).

(** [headers[k] = v] *)
Definition set_header (k v : string) (headers : list (string * string)) : list (string * string) :=
  if bool_decide (k ∈ map fst headers)
  then map (λ kv, if bool_decide (kv.1 = k) then (k, v) else kv) headers
  else headers ++ [(k, v)].
Definition header (k : string) (headers : list (string * string)) : option string :=
  option_map snd (List.find (λ kv : string * string, bool_decide (kv.1 = k)) headers).

(** [name || SIGNING_X_HEADER] *)
Definition header_name (custom : option string) (fallback : string) : string :=
  if truthy custom then default "" custom else fallback.

Section signing.
Context (PLATFORM_PROTOCOL_NAMESPACE : string).

(*@ src/src/gateway-signing.ts 24-26 SIGNING_TIMESTAMP_HEADER *)
Definition SIGNING_HEADER (part : string) : string := "x-" +:+ PLATFORM_PROTOCOL_NAMESPACE +:+ "-" +:+ part.

Definition timestamp_header (names : option SigningHeaderNames) : string :=
  header_name (names ≫= hn_timestamp) (SIGNING_HEADER "timestamp").
Definition nonce_header (names : option SigningHeaderNames) : string :=
  header_name (names ≫= hn_nonce) (SIGNING_HEADER "nonce").
Definition signature_header (names : option SigningHeaderNames) : string :=
  header_name (names ≫= hn_signature) (SIGNING_HEADER "signature").

(** [nonce] is the hex of the random bytes. *)
(*@ src/src/gateway-signing.ts 52-64 applyGatewaySigningHeaders *)
Definition applyGatewaySigningHeaders (headers : list (string * string)) (key body nonce : string)
    (names : option SigningHeaderNames) (now : time) : list (string * string) :=
  let timestamp := pretty (now / 1000) in
  set_header (signature_header names) (computeGatewaySignature key timestamp nonce body)
    (set_header (nonce_header names) nonce
      (set_header (timestamp_header names) timestamp headers)).
End signing.

(** ** Requests *)

(** The parts of [BackendGatewayConfig] the proxy reads. *)
(*@ src/src/container-config.ts 28-54 BackendGatewayConfig *)
Record BackendGatewayConfig := mkGateway {
  bg_baseUrl : string;
  bg_timeoutMs : option Z;
  bg_defaultHeaders : list (string * json);
  bg_signingKey : option string;
  bg_signingHeaders : option SigningHeaderNames }.

(*@ src/src/gateway-signing-proxy.ts 63-70 ALL_GATEWAY_PATHS *)
Definition ALL_GATEWAY_PATHS : list string :=
  ["/describe"; "/authorize"; "/task/status"; "/memory/get"; "/memory/search";
   "/execute"; "/bulk_execute"; "/memory/upsert"; "/memory/feedback"].

(*@ src/src/gateway-signing-proxy.ts 155-161 ProxyRequestInput *)
Record ProxyRequestInput := mkProxyInput {
  pi_method : string;
  pi_pathname : string;
  pi_token : option string;
  pi_sourceIp : string;
  pi_rawBody : string }.

(*@ src/src/gateway-signing-proxy.ts 163-168 ProxyRequestResult *)
Record ProxyRequestResult := mkProxyResult {
  px_httpStatus : Z;
  px_body : string;
  px_outcome : string }.

(** What leaves the proxy or becomes durable, in order. *)
Record Forward := mkForward {
  fw_target : string;
  fw_headers : list (string * string);
  fw_body : string }.
Inductive ProxyEvent :=
| EIntent (intent : GatewayProxyIntent)
| EForward (f : Forward)
| EFinal (proxyRequestId : string) (outcome : GatewayProxyOutcome).

(** The answer of the backend; a fetch that rejects was aborted or not. *)
Record Upstream := mkUpstream { up_ok : bool; up_status : Z; up_text : string }.
Inductive fault := Aborted | Fault (e : exn).

(*@ src/src/gateway-signing-proxy.ts 443-446 RateState *)
Record RateState := mkRate { rs_windowStart : time; rs_count : Z }.

(** The central database, the rate windows by token id, and what was done. *)
Record ProxyState := mkProxyState {
  p_db : CentralDb;
  p_buckets : gmap string RateState;
  p_events : list ProxyEvent }.
Definition proxyM (A : Type) : Type := prog ProxyState fault A.

(** [randomUUID] and the nonce are services too. *)
(*@ src/src/gateway-signing-proxy.ts 170-179 ProxyDeps *)
Record ProxyDeps := mkDeps {
  d_verifyToken : string → string → time → proxyM VerifyProxyTokenResult;
  d_resolveGateway : string → proxyM (option BackendGatewayConfig);
  d_recordIntent : GatewayProxyIntent → proxyM unit;
  d_finalize : string → GatewayProxyOutcome → proxyM unit;
  d_fetch : Forward → Z → proxyM Upstream;
  d_allowRate : string → time → proxyM bool;
  d_now : ProxyState → time;
  d_uuid : ProxyState → string;
  d_nonce : ProxyState → string }.

(*@ src/src/gateway-signing-proxy.ts 181-183 jsonError *)
Definition jsonError (httpStatus : Z) (code message outcome : string) : ProxyRequestResult :=
  mkProxyResult httpStatus
    (JSON_stringify (JObj [("error", JObj [("code", JStr code); ("message", JStr message)])])) outcome.

(*@ src/src/gateway-signing-proxy.ts 186-196 auditSafe *)
Definition auditSafe (m : proxyM unit) : proxyM unit := try_catch m (λ _, ret tt).

(** [url.replace(/\/+$/, '')] *)
Fixpoint drop_slashes (l : list Ascii.ascii) : list Ascii.ascii :=
  match l with
  | c :: l' => if bool_decide (c = Ascii.ascii_of_nat 47) then drop_slashes l' else l
  | [] => []
  end.
(*@ src/src/gateway-signing-proxy.ts 202-204 sanitizeBaseUrl *)
Definition sanitizeBaseUrl (url : string) : string :=
  String.string_of_list_ascii (rev (drop_slashes (rev (String.list_ascii_of_string url)))).

(** The members of the body the proxy looks at.  Property access is safe on
    every value but [null]: a body whose [agent] or [requester] is [null] is
    read with [?.]. *)
Definition member (k : string) (l : list (string * json)) : list (string * json) :=
  match obj_get k l with Some (JObj m) => m | _ => [] end.
Definition claimed_group (l : list (string * json)) : option string :=
  jstring (obj_get "agentGroupId" (member "agent" l)).
(*@ src/src/gateway-signing-proxy.ts 285-287 requesterSource *)
Definition requester_source (l : list (string * json)) : bool * string :=
  let raw := default "" (jstring (obj_get "requesterSource" l)) in
  if bool_decide (raw ∈ ["session"; "agent-asserted"]) then (false, raw) else (true, "agent-asserted").

(** The facts of the request every audit row has. *)
Definition intent_of (record : ProxyTokenRecord) (pathname : string) (l : list (string * json))
    (proxyRequestId inputHash : string) (signedAsGroup : option string) (mismatch : bool)
    (errorMsg : option string) : GatewayProxyIntent :=
  let '(coerced, source) := requester_source l in
  mkIntent proxyRequestId (Some (tr_sessionId record)) (Some (tr_agentGroupId record)) signedAsGroup
    (Some (tr_jti record)) pathname (jstring (obj_get "operation" l))
    (jstring (obj_get "userId" (member "requester" l))) source coerced mismatch
    (jstring (obj_get "idempotencyKey" l)) (Some inputHash) errorMsg.

Section proxy.
Context (PLATFORM_PROTOCOL_NAMESPACE : string) (deps : ProxyDeps).

(** The signed headers: the defaults of the group, then the signature. *)
(*@ src/src/gateway-signing-proxy.ts 355-365 headers *)
Definition signed_headers (gateway : BackendGatewayConfig) (key body nonce : string) (now : time)
    : list (string * string) :=
  applyGatewaySigningHeaders PLATFORM_PROTOCOL_NAMESPACE
    (fold_left (λ hs kv, match kv.2 with JStr v => set_header kv.1 v hs | _ => hs end)
       (bg_defaultHeaders gateway)
       [("content-type", "application/json"); ("accept", "application/json, text/plain;q=0.9, */*;q=0.8")])
    key body nonce (bg_signingHeaders gateway) now.

(** Forwarding, and the second phase of the audit. *)
(*@ src/src/gateway-signing-proxy.ts 398-437 processSigningProxyRequest *)
Definition forward (gateway : BackendGatewayConfig) (pathname proxyRequestId canonicalBody : string)
    (headers : list (string * string)) (startedAt : time) : proxyM ProxyRequestResult :=
  let target := sanitizeBaseUrl (bg_baseUrl gateway) +:+ pathname in
  try_catch
    (let* upstream := d_fetch deps (mkForward target headers canonicalBody)
                        (default 15000 (bg_timeoutMs gateway)) in
     let* ended := gets (d_now deps) in
     auditSafe (d_finalize deps proxyRequestId
       (mkOutcome (if up_ok upstream then AuditOk else AuditError) (Some (up_status upstream))
          (Some (ended - startedAt))
          (if up_ok upstream then None else Some ("backend " +:+ pretty (up_status upstream))))) ;;
     ret (mkProxyResult (up_status upstream) (up_text upstream)
            (if up_ok upstream then "signed" else "backend_error")))
    (λ e,
     let aborted := match e with Aborted => true | Fault _ => false end in
     let* ended := gets (d_now deps) in
     auditSafe (d_finalize deps proxyRequestId
       (mkOutcome AuditError (Some 502) (Some (ended - startedAt))
          (Some (if aborted : bool then "backend_timeout" else "backend_unreachable")))) ;;
     ret (jsonError 502 "BACKEND_UNAVAILABLE"
            (if aborted then "backend timed out" else "backend unreachable") "backend_error")).

(** The body is an object; the token and the path are accepted. *)
(*@ src/src/gateway-signing-proxy.ts 281-397 processSigningProxyRequest *)
Definition sign_request (record : ProxyTokenRecord) (pathname : string) (l : list (string * json))
    : proxyM ProxyRequestResult :=
  let canonicalBody := JSON_stringify (JObj l) in
  let group := tr_agentGroupId record in
  let* proxyRequestId := gets (d_uuid deps) in
  let inputHash := sha256_hex canonicalBody in
  let refuse signedAs mismatch intent_error status outcome code message :=
    auditSafe (d_recordIntent deps
      (intent_of record pathname l proxyRequestId inputHash signedAs mismatch (Some intent_error))) ;;
    auditSafe (d_finalize deps proxyRequestId (mkOutcome AuditError (Some status) None (Some outcome))) ;;
    ret (jsonError status code message outcome) in
  if bool_decide (claimed_group l ≠ Some group) then
    refuse None true ("claimed group " +:+ default "<none>" (claimed_group l) +:+ " != token group " +:+ group)
      409 "identity_mismatch" "IDENTITY_MISMATCH" "request agent group does not match session"
  else
    let* gateway := d_resolveGateway deps group in
    let key := (λ k, trim k) <$> (gateway ≫= bg_signingKey) in
    match gateway with
    | Some gw =>
        if negb (bool_decide (bg_baseUrl gw = "")) && truthy key then
          let* nonce := gets (d_nonce deps) in
          let* now := gets (d_now deps) in
          let headers := signed_headers gw (default "" key) canonicalBody nonce now in
          let* startedAt := gets (d_now deps) in
          let* recorded := try_catch
            (d_recordIntent deps
               (intent_of record pathname l proxyRequestId inputHash (Some group) false None) ;; ret true)
            (λ _, ret false) in
          if recorded : bool then forward gw pathname proxyRequestId canonicalBody headers startedAt
          else ret (jsonError 503 "AUDIT_UNAVAILABLE" "audit write failed; refusing to sign"
                      "audit_write_failed")
        else refuse (Some group) false "no host-side signing key for group" 502 "no_signing_key"
               "NO_SIGNING_KEY" "gateway not signable for this group"
    | None => refuse (Some group) false "no host-side signing key for group" 502 "no_signing_key"
                "NO_SIGNING_KEY" "gateway not signable for this group"
    end.

Definition token_error (reason outcome : string) : ProxyRequestResult :=
  jsonError 401 "UNAUTHORIZED" ("token " +:+ reason) outcome.

(*@ src/src/gateway-signing-proxy.ts 218-280 processSigningProxyRequest *)
Definition processSigningProxyRequest (input : ProxyRequestInput) : proxyM ProxyRequestResult :=
  if bool_decide (pi_method input ≠ "POST") then
    ret (jsonError 405 "METHOD_NOT_ALLOWED" "only POST is supported" "bad_request")
  else if negb (truthy (pi_token input)) then
    ret (jsonError 401 "UNAUTHORIZED" "missing proxy token" "unauthorized")
  else
    let* now := gets (d_now deps) in
    let* verified := d_verifyToken deps (default "" (pi_token input)) (pi_sourceIp input) now in
    match verified with
    | TokenUnknown => ret (token_error "unknown" "unauthorized")
    | TokenExpired => ret (token_error "expired" "unauthorized")
    | TokenRevoked => ret (token_error "revoked" "unauthorized")
    | TokenIpMismatch => ret (token_error "source_ip_mismatch" "source_ip_mismatch")
    | TokenOk record =>
        let* now := gets (d_now deps) in
        let* allowed := d_allowRate deps (tr_jti record) now in
        if negb allowed then
          ret (jsonError 429 "RATE_LIMITED" "per-token rate window exceeded" "rate_limited")
        else if negb (bool_decide (pi_pathname input ∈ ALL_GATEWAY_PATHS)) ||
                negb (bool_decide (pi_pathname input ∈ tr_allowedPaths record)) then
          ret (jsonError 403 "FORBIDDEN_PATH" ("path " +:+ pi_pathname input +:+ " not permitted")
                 "forbidden_path")
        else
          match JSON_parse (pi_rawBody input) with
          | Some (JObj l) => sign_request record (pi_pathname input) l
          | _ => ret (jsonError 400 "BAD_REQUEST" "body is not a JSON object" "bad_request")
          end
    end.

(** What the listener answers: a throw becomes a 500. *)
(*@ src/src/gateway-signing-proxy.ts 567-580 startGatewaySigningProxy *)
Definition answer (input : ProxyRequestInput) : proxyM ProxyRequestResult :=
  try_catch (processSigningProxyRequest input)
    (λ _, ret (mkProxyResult 500
       (JSON_stringify (JObj [("error", JObj [("code", JStr "PROXY_ERROR"); ("message", JStr "internal")])]))
       "bad_request")).
End proxy.

(** ** The rate windows *)

Definition set_buckets (m : gmap string RateState) (st : ProxyState) : ProxyState :=
  mkProxyState (p_db st) m (p_events st).

(** Windows that have passed are swept when there are too many. *)
(*@ src/src/gateway-signing-proxy.ts 448-464 makeRateLimiter *)
Definition allowRate (limit windowMs : Z) (jti : string) (now : time) (buckets : gmap string RateState)
    : bool * gmap string RateState :=
  let fresh :=
    let opened := <[jti := mkRate now 1]> buckets in
    (true, if (4096 <? size opened)%nat
           then filter (λ kv : string * RateState, now - rs_windowStart kv.2 < windowMs) opened
           else opened) in
  match buckets !! jti with
  | None => fresh
  | Some b =>
      if windowMs <=? now - rs_windowStart b then fresh
      else if limit <=? rs_count b then (false, buckets)
      else (true, <[jti := mkRate (rs_windowStart b) (rs_count b + 1)]> buckets)
  end.

(*@ src/src/gateway-signing-proxy.ts 472-476 normalizeIp *)
Definition normalizeIp (raw : option string) : string :=
  if negb (truthy raw) then "unknown"
  else let r := default "" raw in
       if startsWith r "::ffff:" then drop_string 7 r else r.

(** ** The services of the host *)

Definition on_db {A} (m : dbM A) : proxyM A := λ st,
  match m (p_db st) with
  | (Ok a, db) => (Ok a, mkProxyState db (p_buckets st) (p_events st))
  | (Throw e, db) => (Throw (Fault e), mkProxyState db (p_buckets st) (p_events st))
  end.
Definition event (e : ProxyEvent) : proxyM unit :=
  modify (λ st, mkProxyState (p_db st) (p_buckets st) (p_events st ++ [e])).

(** [clock], [uuid] and [nonce] are what the host draws, [audit_up] whether the
    audit can be written, [backend] the answer to a forward, [config] the gateway
    of a folder: [None] when its container.json cannot be read. *)
Section host.
Context (clock : ProxyState → time) (uuid nonce : ProxyState → string) (audit_up : ProxyState → bool).
Context (backend : Forward → ProxyState → outcome fault Upstream).
Context (config : string → option (option BackendGatewayConfig)).
Context (limit windowMs : Z).

Definition audited (e : ProxyEvent) (m : dbM unit) : proxyM unit :=
  let* up := gets audit_up in
  if up : bool then on_db m ;; event e else throw (Fault (SqliteConstraint "gateway_audit")).

(*@ src/src/gateway-signing-proxy.ts 207-211 resolveGatewayForGroup *)
Definition resolveGatewayForGroup (agentGroupId : string) : proxyM (option BackendGatewayConfig) :=
  let* group := gets (λ st, sql_first (λ g, bool_decide (ag_id g = agentGroupId)) (agent_groups (p_db st))) in
  match group with
  | None => ret None
  | Some g => match config (ag_folder g) with
              | None => throw (Fault (Err "container-config"))
              | Some gateway => ret gateway
              end
  end.

(*@ src/src/gateway-signing-proxy.ts 538-547 startGatewaySigningProxy *)
Definition host_deps : ProxyDeps := mkDeps
  (λ raw ip now, on_db (verifyProxyToken raw ip now))
  resolveGatewayForGroup
  (λ intent, let* now := gets clock in audited (EIntent intent) (recordGatewayProxyIntent intent now))
  (λ id outcome, audited (EFinal id outcome) (finalizeGatewayProxyAudit id outcome))
  (λ f _, event (EForward f) ;; λ st, (backend f st, st))
  (λ jti now, let* b := gets p_buckets in
              let '(ok, b') := allowRate limit windowMs jti now b in
              modify (set_buckets b') ;; ret ok)
  clock uuid nonce.

(** A token for a session, when the proxy is on. *)
(*@ src/src/gateway-signing-proxy.ts 130-148 mintSessionProxyToken *)
Definition mintSessionProxyToken (enabled : bool) (port ttlMs : Z) (jti secret sessionId agentGroupId : string)
    : proxyM (option (string * string * string)) :=
  if negb enabled then ret None
  else
    let* now := gets clock in
    let* minted := on_db (mintProxyToken now jti secret sessionId agentGroupId ALL_GATEWAY_PATHS ttlMs) in
    ret (Some (mt_token minted, "http://host.docker.internal:" +:+ pretty port, "host.docker.internal")).
End host.
