(* ===== verification/SigningProxyProofs.v ===== *)
(** * The signing proxy: what is signed, and that it is on record

    Proved against the interface of the host's services; the services of the
    running host satisfy it. *)
From stdpp Require Import pretty.
From S2P Require Import Prelude JsString Json Types JsonProofs Central Sha ProxyTokens SigningProxy.

Local Open Scope string_scope.
Local Open Scope Z_scope.
Local Open Scope list_scope.
Local Open Scope prog_scope.

(** ** What the services promise *)

Definition silent {A} (m : proxyM A) : Prop := ∀ st, p_events (m st).2 = p_events st.
(** [m] leaves [e] behind when it succeeds, and nothing when it throws. *)
Definition leaves {A} (e : ProxyEvent) (m : proxyM A) : Prop := ∀ st,
  match m st with
  | (Ok _, st') => p_events st' = p_events st ++ [e]
  | (Throw _, st') => p_events st' = p_events st
  end.
Class ProxyLaws (deps : ProxyDeps) := {
  law_verify : ∀ raw ip now, silent (d_verifyToken deps raw ip now);
  law_resolve : ∀ g, silent (d_resolveGateway deps g);
  law_rate : ∀ jti now, silent (d_allowRate deps jti now);
  law_intent : ∀ i, leaves (EIntent i) (d_recordIntent deps i);
  law_final : ∀ id o, leaves (EFinal id o) (d_finalize deps id o);
  law_fetch : ∀ f ms st, p_events (d_fetch deps f ms st).2 = p_events st ++ [EForward f] }.

(** ** Headers *)

Lemma header_set k v hs : header k (set_header k v hs) = Some v.
Proof.
  unfold header, set_header. case_bool_decide as Hk.
  - induction hs as [|[k' v'] hs IH]; [by cbn in Hk; apply elem_of_nil in Hk|]. cbn.
    destruct (decide (k' = k)) as [->|Hne].
    + rewrite (bool_decide_eq_true_2 (k = k)) by done. cbn. by rewrite bool_decide_eq_true_2.
    + rewrite (bool_decide_eq_false_2 (k' = k)) by done. cbn. rewrite bool_decide_eq_false_2 by done.
      apply IH. set_solver.
  - induction hs as [|[k' v'] hs IH]; cbn; [by rewrite bool_decide_eq_true_2|].
    rewrite bool_decide_eq_false_2 by set_solver. apply IH. set_solver.
Qed.
Lemma header_other k k' v hs : k ≠ k' → header k (set_header k' v hs) = header k hs.
Proof.
  intros Hne. unfold header, set_header. case_bool_decide as Hk.
  - clear Hk. induction hs as [|[k2 v2] hs IH]; [done|]. cbn. destruct (decide (k2 = k')) as [->|H2].
    + rewrite (bool_decide_eq_true_2 (k' = k')) by done. cbn. rewrite !bool_decide_eq_false_2 by done. apply IH.
    + rewrite (bool_decide_eq_false_2 (k2 = k')) by done. cbn. case_bool_decide; [done|]. apply IH.
  - induction hs as [|[k2 v2] hs IH]; cbn; [by rewrite bool_decide_eq_false_2|].
    case_bool_decide; [done|]. apply IH. set_solver.
Qed.

Section laws.
Context (PLATFORM_PROTOCOL_NAMESPACE : string) (deps : ProxyDeps) {laws : ProxyLaws deps}.
Abbreviation ns := PLATFORM_PROTOCOL_NAMESPACE.

Lemma auditSafe_leaves e (m : proxyM unit) st :
  leaves e m → ∃ st' tail, auditSafe m st = (Ok tt, st') ∧ p_events st' = p_events st ++ tail ∧
    (tail = [] ∨ tail = [e]).
Proof.
  intros Hm. specialize (Hm st). unfold auditSafe, try_catch. destruct (m st) as [[[]|x] st'].
  - exists st', [e]. auto.
  - exists st', []. rewrite app_nil_r. auto.
Qed.

(** [m] starts with a silent service. *)
Lemma silent_step {A B} (m : proxyM A) (k : A → proxyM B) st (P : list ProxyEvent → Prop) :
  silent m → P [] →
  (∀ a st', m st = (Ok a, st') → ∃ tr, p_events (k a st').2 = p_events st' ++ tr ∧ P tr) →
  ∃ tr, p_events (bind m k st).2 = p_events st ++ tr ∧ P tr.
Proof.
  intros Hm Hnil Hk. specialize (Hm st). unfold bind. destruct (m st) as [[a|e] st'] eqn:E; cbn in Hm.
  - destruct (Hk a st' eq_refl) as (tr & Htr & Hp). exists tr. by rewrite Htr, Hm.
  - exists []. by rewrite app_nil_r.
Qed.
Lemma reads {A B} (f : ProxyState → A) (k : A → proxyM B) st : bind (gets f) k st = k (f st) st.
Proof. done. Qed.

(** Nothing, or the second phase of the audit. *)
Definition final_only (id : string) (tail : list ProxyEvent) : Prop := tail = [] ∨ ∃ o, tail = [EFinal id o].
Lemma finalized {A} id o (r : A) st :
  ∃ tail, p_events ((auditSafe (d_finalize deps id o) ;; ret r) st).2 = p_events st ++ tail ∧ final_only id tail.
Proof using laws.
  destruct (auditSafe_leaves (EFinal id o) (d_finalize deps id o) st (law_final id o)) as (st' & tail & E & Ev & Ht).
  exists tail. unfold bind. rewrite E. cbn. split; [done|]. destruct Ht as [->| ->]; [by left|right; by eexists].
Qed.

Lemma forward_events gw path id body headers started st :
  ∃ tail, p_events (forward deps gw path id body headers started st).2 =
      p_events st ++ EForward (mkForward (sanitizeBaseUrl (bg_baseUrl gw) +:+ path) headers body) :: tail ∧
    final_only id tail.
Proof using laws.
  unfold forward. set (f := mkForward _ headers body). set (ms := default 15000 _).
  pose proof (law_fetch f ms st) as Hf. unfold try_catch. rewrite bind_case.
  assert (Hcons : ∀ st1 st2 tail, p_events st1 = p_events st ++ [EForward f] →
    p_events st2 = p_events st1 ++ tail → p_events st2 = p_events st ++ EForward f :: tail)
    by (intros st1 st2 tail -> ->; by rewrite <- (assoc_L (++))).
  destruct (d_fetch deps f ms st) as [[up|e] st1]; cbn in Hf.
  - rewrite reads.
    match goal with |- context [(auditSafe (d_finalize deps id ?o) ;; ret ?r) st1] =>
      pose proof (finalized id o r st1) as (tail & Ht & Hf2);
      destruct ((auditSafe (d_finalize deps id o) ;; ret r) st1) as [[a|e] st2] eqn:E end; cbn in Ht.
    + exists tail. split; [|done]. by eapply Hcons.
    + exfalso. revert E. rewrite bind_case.
      match goal with |- context [auditSafe ?m st1] =>
        destruct (auditSafe_leaves _ m st1 (law_final _ _)) as (st' & ? & -> & _) end. done.
  - rewrite reads.
    match goal with |- context [(auditSafe (d_finalize deps id ?o) ;; ret ?r) st1] =>
      pose proof (finalized id o r st1) as (tail & Ht & Hf2) end.
    exists tail. split; [|done]. by eapply Hcons.
Qed.

(** ** What is signed *)

(** [f] is the signed form of the body [l], on behalf of the group of [record],
    and the audit had it before it left. *)
Record signed_for (record : ProxyTokenRecord) (path : string) (l : list (string * json))
    (f : Forward) (tr : list ProxyEvent) : Prop := {
  sf_body : fw_body f = JSON_stringify (JObj l);
  sf_group : claimed_group l = Some (tr_agentGroupId record);
  sf_recorded : ∃ intent tail, tr = EIntent intent :: EForward f :: tail ∧
    final_only (gi_proxyRequestId intent) tail ∧
    gi_agentGroupId intent = Some (tr_agentGroupId record) ∧
    gi_signedAsGroup intent = Some (tr_agentGroupId record) ∧ gi_tokenJti intent = Some (tr_jti record) ∧
    gi_sessionId intent = Some (tr_sessionId record) ∧ gi_path intent = path ∧
    gi_inputHash intent = Some (sha256_hex (fw_body f));
  sf_key : ∃ gw key nonce now st0 st1,
    d_resolveGateway deps (tr_agentGroupId record) st0 = (Ok (Some gw), st1) ∧
    trim <$> bg_signingKey gw = Some key ∧ key ≠ "" ∧ bg_baseUrl gw ≠ "" ∧
    fw_target f = sanitizeBaseUrl (bg_baseUrl gw) +:+ path ∧
    fw_headers f = signed_headers ns gw key (fw_body f) nonce now ∧
    header (signature_header ns (bg_signingHeaders gw)) (fw_headers f) =
      Some (computeGatewaySignature key (pretty (now / 1000)) nonce (fw_body f)) }.

Lemma refused_events record path l id hash signedAs mismatch err status outcome code message st :
  ∃ tr, p_events ((auditSafe (d_recordIntent deps
      (intent_of record path l id hash signedAs mismatch err)) ;;
    auditSafe (d_finalize deps id (mkOutcome AuditError (Some status) None (Some outcome))) ;;
    ret (jsonError status code message outcome)) st).2 = p_events st ++ tr ∧ ∀ f, EForward f ∉ tr.
Proof using laws.
  rewrite bind_case.
  destruct (auditSafe_leaves _ _ st (law_intent (intent_of record path l id hash signedAs mismatch err)))
    as (st1 & t1 & -> & E1 & H1).
  destruct (finalized id (mkOutcome AuditError (Some status) None (Some outcome))
              (jsonError status code message outcome) st1) as (t2 & E2 & H2).
  exists (t1 ++ t2). rewrite E2, E1, <- (assoc_L (++)). split; [done|]. intros f.
  destruct H1 as [->| ->], H2 as [->|[o ->]]; set_solver.
Qed.

Lemma sign_request_events record path l st :
  ∃ tr, p_events (sign_request ns deps record path l st).2 = p_events st ++ tr ∧
    ∀ f, EForward f ∈ tr → signed_for record path l f tr.
Proof using laws.
  assert (Hno : ∀ tr, (∀ f, EForward f ∉ tr) → ∀ f, EForward f ∈ tr → signed_for record path l f tr)
    by (intros tr H f Hf; by destruct (H f)).
  unfold sign_request. rewrite reads. set (id := d_uuid deps st). cbv zeta.
  case_bool_decide as Hg.
  { destruct (refused_events record path l id (sha256_hex (JSON_stringify (JObj l))) None true
      (Some ("claimed group " +:+ default "<none>" (claimed_group l) +:+ " != token group " +:+
             tr_agentGroupId record)) 409 "identity_mismatch" "IDENTITY_MISMATCH"
      "request agent group does not match session" st) as (tr & E & H). exists tr. auto. }
  apply silent_step; [apply law_resolve|set_solver|]. intros gateway st1 Egw.
  assert (Hrefuse : ∃ tr, p_events ((auditSafe (d_recordIntent deps
      (intent_of record path l id (sha256_hex (JSON_stringify (JObj l))) (Some (tr_agentGroupId record)) false
        (Some "no host-side signing key for group"))) ;;
    auditSafe (d_finalize deps id (mkOutcome AuditError (Some 502) None (Some "no_signing_key"))) ;;
    ret (jsonError 502 "NO_SIGNING_KEY" "gateway not signable for this group" "no_signing_key")) st1).2 =
      p_events st1 ++ tr ∧ ∀ f, EForward f ∈ tr → signed_for record path l f tr).
  { destruct (refused_events record path l id (sha256_hex (JSON_stringify (JObj l)))
      (Some (tr_agentGroupId record)) false (Some "no host-side signing key for group") 502 "no_signing_key"
      "NO_SIGNING_KEY" "gateway not signable for this group" st1) as (tr & E & H). exists tr. auto. }
  destruct gateway as [gw|]; [|exact Hrefuse]. cbn [mbind option_bind].
  destruct (negb (bool_decide (bg_baseUrl gw = "")) && truthy ((λ k, trim k) <$> bg_signingKey gw)) eqn:Ek;
    [|exact Hrefuse].
  apply andb_true_iff in Ek as [Hurl%negb_true_iff%bool_decide_eq_false Hkey].
  destruct ((λ k, trim k) <$> bg_signingKey gw) as [key|] eqn:Eq; [|done]. cbn [default].
  rewrite !reads. set (intent := intent_of _ _ _ _ _ _ _ _). set (headers := signed_headers _ _ _ _ _ _).
  rewrite bind_case. unfold try_catch at 1. rewrite bind_case.
  pose proof (law_intent intent st1) as Hi. destruct (d_recordIntent deps intent st1) as [[[]|e] st2].
  - cbn [ret]. destruct (forward_events gw path id (JSON_stringify (JObj l)) headers (d_now deps st1) st2)
      as (tail & E & Ht).
    eexists (EIntent intent :: _). rewrite E, Hi, <- (assoc_L (++)). split; [done|]. intros f Hf.
    apply elem_of_cons in Hf as [?|Hf]; [done|]. apply elem_of_cons in Hf as [[= ->]|Hf];
      [|exfalso; destruct Ht as [->|[o ->]]; set_solver].
    constructor; cbn [fw_body fw_target fw_headers]; [done|by symmetry| |].
    + eexists intent, tail. split; [done|]. unfold intent, intent_of. destruct (requester_source l). done.
    + exists gw, key, (d_nonce deps st1), (d_now deps st1), st, st1. split_and!; try done; [by intros ->|].
      unfold headers, signed_headers, applyGatewaySigningHeaders. by rewrite header_set.
  - exists []. cbn. rewrite app_nil_r. split; [done|]. set_solver.
Qed.

(** What left the proxy was posted with an accepted token, and is signed for it. *)
Definition signed_trace (input : ProxyRequestInput) (tr : list ProxyEvent) : Prop :=
  ∀ f, EForward f ∈ tr →
    ∃ record l raw now st0 st1,
      pi_token input = Some raw ∧
      d_verifyToken deps raw (pi_sourceIp input) now st0 = (Ok (TokenOk record), st1) ∧
      pi_pathname input ∈ ALL_GATEWAY_PATHS ∧ pi_pathname input ∈ tr_allowedPaths record ∧
      JSON_parse (pi_rawBody input) = Some (JObj l) ∧ JSON_parse (fw_body f) = Some (JObj l) ∧
      signed_for record (pi_pathname input) l f tr.

(** C12: The proxy signs for the token's group and nothing else, and only what is
    on record.  Whatever a container posts: if something leaves the proxy, the
    token was accepted from that address, the path is one of the gateway's and of
    the token's, and the body, parsed again, is the object that was posted and
    names the group of the token; it is signed with that group's key, over
    exactly the bytes that are sent, and an audit row that names the group, the
    token, the path and the hash of these bytes was written before. *)
Theorem only_the_tokens_group_is_signed input st :
  ∃ tr, p_events (answer ns deps input st).2 = p_events st ++ tr ∧ signed_trace input tr.
Proof using laws.
  assert (signed_trace input []) as Hnil by (intros f Hf; set_solver).
  assert (Hret : ∀ (r : ProxyRequestResult) st', ∃ tr, p_events (ret (S:=ProxyState) (E:=fault) r st').2 = p_events st' ++ tr ∧ signed_trace input tr)
    by (intros r st'; exists []; by rewrite app_nil_r).
  cut (∃ tr, p_events (processSigningProxyRequest ns deps input st).2 = p_events st ++ tr ∧ signed_trace input tr).
  { intros H. unfold answer, try_catch. by destruct (processSigningProxyRequest ns deps input st) as [[r|e] st']. }
  unfold processSigningProxyRequest. case_bool_decide; [apply Hret|].
  destruct (truthy (pi_token input)) eqn:Et; cbn [negb]; [|apply Hret]. rewrite reads.
  destruct (pi_token input) as [raw|] eqn:Eraw; [|done]. cbn [default].
  apply silent_step; [apply law_verify|done|]. intros verified st1 Ev.
  destruct verified as [record| | | |]; try apply Hret. rewrite reads.
  apply silent_step; [apply law_rate|done|]. intros [] st2 _; cbn [negb]; [|apply Hret].
  destruct (negb _ || negb _) eqn:Ep; [apply Hret|].
  apply orb_false_iff in Ep as [H1%negb_false_iff%bool_decide_eq_true H2%negb_false_iff%bool_decide_eq_true].
  destruct (JSON_parse (pi_rawBody input)) as [[]|] eqn:Ej; try apply Hret.
  destruct (sign_request_events record (pi_pathname input) l st2) as (tr & E & Hs).
  exists tr. split; [done|]. intros f Hf. specialize (Hs f Hf).
  exists record, l, raw, (d_now deps st), st, st1. split_and!; try done.
  rewrite (sf_body _ _ _ _ _ Hs). by eapply reprint_parse.
Qed.
End laws.

(** The services of the host keep the promises. *)
#[export] Instance host_laws clock uuid nonce audit_up backend config limit windowMs :
  ProxyLaws (host_deps clock uuid nonce audit_up backend config limit windowMs).
Proof.
  assert (Hdb : ∀ A (m : dbM A), silent (on_db m))
    by (intros A m st; unfold on_db; by destruct (m (p_db st)) as [[a|e] db]).
  split; cbn [host_deps d_verifyToken d_resolveGateway d_allowRate d_recordIntent d_finalize d_fetch].
  - intros raw ip now. apply Hdb.
  - intros g st. unfold resolveGatewayForGroup. rewrite reads. destruct (sql_first _ _) as [ag|]; [|done].
    by destruct (config (ag_folder ag)).
  - intros jti now st. rewrite reads. by destruct (allowRate _ _ _ _ _) as [ok b].
  - intros i st. rewrite reads. unfold audited. rewrite reads. by destruct (audit_up st).
  - intros id o st. unfold audited. rewrite reads. by destruct (audit_up st).
  - intros f ms st. done.
Qed.

(** ** The rate windows *)

Section rate.
Context (limit windowMs : Z) (jti : string).
Hypothesis limit_pos : 1 <= limit.
Hypothesis window_pos : 0 < windowMs.

(** The times at which a request of [jti] was let through. *)
Fixpoint let_through (calls : list (string * time)) (buckets : gmap string RateState) : list time :=
  match calls with
  | [] => []
  | (j, t) :: calls' =>
      let '(ok, buckets') := allowRate limit windowMs j t buckets in
      (if ok && bool_decide (j = jti) then [t] else []) ++ let_through calls' buckets'
  end.

(** What one call does to the window of [jti]. *)
Lemma allowRate_other j t b :
  j ≠ jti → (allowRate limit windowMs j t b).2 !! jti = b !! jti ∨
    (∃ r, b !! jti = Some r ∧ windowMs <= t - rs_windowStart r) ∧
    (allowRate limit windowMs j t b).2 !! jti = None.
Proof using limit_pos window_pos.
  intros Hj. assert (Hfresh : (if (4096 <? size (<[j:=mkRate t 1]> b))%nat
      then filter (λ kv : string * RateState, t - rs_windowStart kv.2 < windowMs) (<[j:=mkRate t 1]> b)
      else <[j:=mkRate t 1]> b) !! jti = b !! jti ∨
      (∃ r, b !! jti = Some r ∧ windowMs <= t - rs_windowStart r) ∧
      (if (4096 <? size (<[j:=mkRate t 1]> b))%nat
      then filter (λ kv : string * RateState, t - rs_windowStart kv.2 < windowMs) (<[j:=mkRate t 1]> b)
      else <[j:=mkRate t 1]> b) !! jti = None).
  { destruct (_ <? _)%nat; [|left; by rewrite lookup_insert_ne].
    destruct (b !! jti) as [r|] eqn:Er.
    - destruct (decide (t - rs_windowStart r < windowMs)).
      + left. apply map_lookup_filter_Some. by rewrite lookup_insert_ne.
      + right. split; [exists r; split; [done|lia]|]. apply map_lookup_filter_None. right. intros x.
        rewrite lookup_insert_ne, Er by done. by intros [= <-].
    - left. apply map_lookup_filter_None. left. by rewrite lookup_insert_ne. }
  unfold allowRate. destruct (b !! j) as [r|]; [|exact Hfresh].
  destruct (_ <=? _); [exact Hfresh|]. destruct (_ <=? _); [by left|]. left. cbn. by rewrite lookup_insert_ne.
Qed.
Lemma allowRate_same t b :
  match b !! jti with
  | Some r =>
      if windowMs <=? t - rs_windowStart r
      then (allowRate limit windowMs jti t b).1 = true ∧
           (allowRate limit windowMs jti t b).2 !! jti = Some (mkRate t 1)
      else if limit <=? rs_count r then allowRate limit windowMs jti t b = (false, b)
      else allowRate limit windowMs jti t b = (true, <[jti := mkRate (rs_windowStart r) (rs_count r + 1)]> b)
  | None => (allowRate limit windowMs jti t b).1 = true ∧
            (allowRate limit windowMs jti t b).2 !! jti = Some (mkRate t 1)
  end.
Proof using window_pos.
  assert (Hfresh : (if (4096 <? size (<[jti:=mkRate t 1]> b))%nat
      then filter (λ kv : string * RateState, t - rs_windowStart kv.2 < windowMs) (<[jti:=mkRate t 1]> b)
      else <[jti:=mkRate t 1]> b) !! jti = Some (mkRate t 1)).
  { destruct (_ <? _)%nat; [|by rewrite lookup_insert_eq].
    apply map_lookup_filter_Some. rewrite lookup_insert_eq. split; [done|]. cbn. lia. }
  unfold allowRate. destruct (b !! jti) as [r|]; [|by split].
  destruct (_ <=? _); [by split|]. by destruct (_ <=? _).
Qed.

Definition not_before (t : time) (calls : list (string * time)) : Prop := Forall (λ c, t <= c.2) calls.
Definition in_order (calls : list (string * time)) : Prop := StronglySorted (λ a b, a.2 <= b.2) calls.
Lemma in_order_cons j t calls : in_order ((j, t) :: calls) → in_order calls ∧ not_before t calls.
Proof. intros H. inversion H; subst. split; [done|]. done. Qed.

Lemma let_through_after calls : ∀ t0 t b, not_before t0 calls → t ∈ let_through calls b → t0 <= t.
Proof using limit_pos window_pos.
  induction calls as [|[j t1] calls IH]; intros t0 t b Hc Ht; [set_solver|].
  apply Forall_cons in Hc as [H1 Hc]. cbn in H1, Ht. destruct (allowRate _ _ _ _ _) as [ok b'].
  apply elem_of_app in Ht as [Ht|Ht]; [|by eapply IH]. destruct (_ && _); set_solver.
Qed.
Lemma let_through_cons j t calls b :
  let_through ((j, t) :: calls) b =
  (if (allowRate limit windowMs j t b).1 && bool_decide (j = jti) then [t] else []) ++
  let_through calls (allowRate limit windowMs j t b).2.
Proof. cbn. by destruct (allowRate _ _ _ _ _). Qed.

(** What is let through when the slots of the open window are used up comes
    after the window. *)
Lemma window_elapses calls : ∀ b r k t,
  in_order calls → b !! jti = Some r → limit - rs_count r <= Z.of_nat k →
  let_through calls b !! k = Some t → rs_windowStart r + windowMs <= t.
Proof using limit_pos window_pos.
  induction calls as [|[j t0] calls IH]; intros b r k t Hs Hr Hk Ht; [done|].
  pose proof (list_elem_of_lookup_2 _ _ _ Ht) as Hin. rewrite let_through_cons in Ht.
  pose proof (in_order_cons _ _ _ Hs) as [Hs' Hnb].
  assert (Hlate : windowMs <= t0 - rs_windowStart r → rs_windowStart r + windowMs <= t).
  { intros Hw. assert (t0 <= t); [|lia]. eapply (let_through_after ((j, t0) :: calls)); [|exact Hin].
    constructor; [cbn; lia|done]. }
  destruct (decide (j = jti)) as [->|Hj].
  - pose proof (allowRate_same t0 b) as Ha. rewrite Hr in Ha. destruct (Z.leb_spec windowMs (t0 - rs_windowStart r)).
    { by apply Hlate. }
    destruct (Z.leb_spec limit (rs_count r)); rewrite Ha in Ht; cbn [fst snd andb app] in Ht.
    + by eapply IH.
    + rewrite bool_decide_eq_true_2 in Ht by done. destruct k as [|k]; [lia|]. cbn in Ht.
      eapply (IH _ (mkRate (rs_windowStart r) (rs_count r + 1)) k t Hs'); [|cbn; lia|exact Ht].
      by rewrite lookup_insert_eq.
  - rewrite (bool_decide_eq_false_2 (j = jti)), andb_false_r in Ht by done. cbn [app] in Ht.
    destruct (allowRate_other j t0 b Hj) as [E|[(r' & Er & Hw) _]].
    + eapply IH; [done| |done..]. by rewrite E.
    + rewrite Hr in Er. injection Er as <-. by apply Hlate.
Qed.

(** The slots of the open window that are left, and a whole window; at most a
    whole window when none is open. *)
Definition used (b : gmap string RateState) : Z := match b !! jti with Some r => rs_count r | None => 0 end.
Definition ahead (b : gmap string RateState) : Z :=
  match b !! jti with Some r => 2 * limit - rs_count r | None => limit end.
Definition counted (b : gmap string RateState) : Prop := ∀ r, b !! jti = Some r → 1 <= rs_count r <= limit.
Lemma two_windows calls : ∀ b k t now,
  in_order calls → not_before now calls → counted b → ahead b <= Z.of_nat k →
  let_through calls b !! k = Some t → now + windowMs <= t.
Proof using limit_pos window_pos.
  induction calls as [|[j t0] calls IH]; intros b k t now Hs Hnow Hc Hk Ht; [done|].
  rewrite let_through_cons in Ht. pose proof (in_order_cons _ _ _ Hs) as [Hs' Hnb].
  apply Forall_cons in Hnow as [Hn0 Hnow]. cbn in Hn0. unfold ahead in Hk.
  assert (Hfresh : limit <= Z.of_nat k → (allowRate limit windowMs jti t0 b).1 = true →
    (allowRate limit windowMs jti t0 b).2 !! jti = Some (mkRate t0 1) → j = jti → now + windowMs <= t).
  { intros Hlk E1 E2 ->. rewrite E1, bool_decide_eq_true_2 in Ht by done. cbn [andb app] in Ht.
    destruct k as [|k]; [lia|]. cbn in Ht. assert (t0 + windowMs <= t); [|lia].
    eapply (window_elapses calls _ (mkRate t0 1) k t Hs' E2); [cbn; lia|exact Ht]. }
  destruct (decide (j = jti)) as [->|Hj].
  - pose proof (allowRate_same t0 b) as Ha. destruct (b !! jti) as [r|] eqn:Er; [|apply Hfresh; naive_solver lia].
    specialize (Hc r Er). destruct (Z.leb_spec windowMs (t0 - rs_windowStart r)); [apply Hfresh; naive_solver lia|].
    destruct (Z.leb_spec limit (rs_count r)); rewrite Ha in Ht; cbn [fst snd andb app] in Ht.
    + apply (IH b k t now); try done; [intros r' Hr'; congruence|]. unfold ahead. by rewrite Er.
    + rewrite bool_decide_eq_true_2 in Ht by done. destruct k as [|k]; [lia|]. cbn in Ht.
      eapply (IH _ k t now); [done..| | |exact Ht].
      * intros r'. rewrite lookup_insert_eq. intros [= <-]. cbn. lia.
      * unfold ahead. rewrite lookup_insert_eq. cbn. lia.
  - rewrite (bool_decide_eq_false_2 (j = jti)), andb_false_r in Ht by done. cbn [app] in Ht.
    destruct (allowRate_other j t0 b Hj) as [E|[(r & Er & _) E]].
    + eapply (IH _ k t now); [done..| | |exact Ht]; unfold counted, ahead; by rewrite E.
    + eapply (IH _ k t now); [done..| | |exact Ht]; unfold counted, ahead; rewrite E; [done|].
      rewrite Er in Hk. specialize (Hc r Er). lia.
Qed.

Lemma counted_step j t b :
  counted b → counted (allowRate limit windowMs j t b).2 ∧
    ((allowRate limit windowMs j t b).1 = true → j = jti → 1 <= used (allowRate limit windowMs j t b).2).
Proof using limit_pos window_pos.
  intros Hc. unfold counted, used in *. destruct (decide (j = jti)) as [->|Hj].
  - assert (Hfresh : (allowRate limit windowMs jti t b).2 !! jti = Some (mkRate t 1) →
      (∀ r, (allowRate limit windowMs jti t b).2 !! jti = Some r → 1 <= rs_count r <= limit) ∧
      ((allowRate limit windowMs jti t b).1 = true → jti = jti →
       1 <= match (allowRate limit windowMs jti t b).2 !! jti with Some r => rs_count r | None => 0 end)).
    { intros ->. split; [intros r [= <-]|]; cbn; lia. }
    pose proof (allowRate_same t b) as Ha. destruct (b !! jti) as [r|] eqn:Er; [|apply Hfresh, Ha].
    specialize (Hc r eq_refl). destruct (_ <=? _); [apply Hfresh, Ha|].
    destruct (Z.leb_spec limit (rs_count r)); rewrite Ha; cbn [fst snd].
    + split; [|done]. intros r'. rewrite Er. by intros [= <-].
    + rewrite lookup_insert_eq. split; [intros r' [= <-]|]; cbn; lia.
  - split; [|done]. destruct (allowRate_other j t b Hj) as [->|[_ ->]]; done.
Qed.

(** C36: A token cannot flood the backend.  Whatever requests come, in whatever
    order of tokens, and however often the windows are swept: of the requests of
    one token that are let through, two that are twice the limit apart are a
    whole window apart in time. *)
Theorem rate_is_bounded calls i t1 t2 :
  in_order calls →
  let_through calls ∅ !! i = Some t1 → let_through calls ∅ !! (i + 2 * Z.to_nat limit)%nat = Some t2 →
  t1 + windowMs <= t2.
Proof using limit_pos window_pos.
  assert (Hc : counted ∅) by (intros r; by rewrite lookup_empty).
  revert i Hc. generalize (∅ : gmap string RateState) as b.
  induction calls as [|[j t0] calls IH]; intros b i Hc Hs H1 H2; [done|].
  rewrite let_through_cons in H1, H2. pose proof (in_order_cons _ _ _ Hs) as [Hs' Hnb].
  destruct (counted_step j t0 b Hc) as [Hc' Hu].
  destruct ((allowRate limit windowMs j t0 b).1 && bool_decide (j = jti)) eqn:Eok; cbn [app] in H1, H2;
    [|by eapply IH].
  apply andb_true_iff in Eok as [Eok Ej%bool_decide_eq_true]. specialize (Hu Eok Ej).
  destruct i as [|i]; cbn in H1; [|by eapply IH].
  injection H1 as <-. destruct (2 * Z.to_nat limit)%nat as [|k] eqn:Ek; [lia|]. cbn in H2.
  replace (0 + S k)%nat with (S k) in H2 by lia. cbn in H2.
  eapply (two_windows calls _ k t2 t0); [done..| |exact H2]. unfold ahead. unfold used in Hu.
  destruct (_ !! jti); lia.
Qed.
End rate.

(** ** The signing proxy: concrete runs

    A group with a key, a container with a token, and what it can and cannot
    have signed: the witnesses of the theorems on the proxy and its tokens. *)

Notation tokens := gateway_proxy_token.

(** ** The host *)

Definition desk : AgentGroup := mkAgentGroup "a" "Desk" "desk" None 0 (Some "o") None.
Definition desk_gateway : BackendGatewayConfig :=
  mkGateway "http://erp:8080/" None [("x-tenant", JStr "t1")] (Some " k3y ") None.
Definition desk_config (folder : string) : option (option BackendGatewayConfig) :=
  if bool_decide (folder = "desk") then Some (Some desk_gateway) else Some None.
Definition erp (_ : Forward) (_ : ProxyState) : outcome fault Upstream := Ok (mkUpstream true 200 "done").
Definition desk_deps (audit_up : bool) : ProxyDeps :=
  host_deps (λ _, 5000) (λ _, "req1") (λ _, "n0nce") (λ _, audit_up) erp desk_config 2 60000.

(** The token of session [s1] of the desk. *)
Definition mint (db : CentralDb) : CentralDb :=
  (mintProxyToken 1000 "j1" "secret" "s1" "a" ALL_GATEWAY_PATHS 3600000 db).2.
Definition desk_db : CentralDb := mint (set_agent_groups [desk] emptyDb).
Definition desk_state : ProxyState := mkProxyState desk_db ∅ [].

Definition posted (group : string) : string :=
  JSON_stringify (JObj [("agent", JObj [("agentGroupId", JStr group)]); ("operation", JStr "stock.read")]).
Definition request (group ip path : string) : ProxyRequestInput :=
  mkProxyInput "POST" path (Some "j1.secret") ip (posted group).
Definition serve (audit_up : bool) (input : ProxyRequestInput) (st : ProxyState) :=
  answer "agentdesk" (desk_deps audit_up) input st.

(** A request of the desk is signed with its key and forwarded; one that claims
    another group, comes from another address or asks for another path is not,
    nor is one that cannot be put on record. *)
Example proxy_serves :
  let st1 := (serve true (request "a" "10.0.0.2" "/execute") desk_state).2 in
  let refused r st := (px_httpStatus <$> match (serve true r st).1 with Ok p => Some p | _ => None end,
                       existsb (λ e, match e with EForward _ => true | _ => false end)
                         (drop (length (p_events st)) (p_events (serve true r st).2))) in
  map (λ e, match e with EForward f => Some (fw_target f, header "x-agentdesk-signature" (fw_headers f)) | _ => None end)
    (p_events st1) =
    [None; Some ("http://erp:8080/execute",
                 Some (computeGatewaySignature "k3y" "5" "n0nce" (posted "a"))); None] ∧
  map (λ r, (ga_audit_phase r, ga_status r, ga_signed_as_group r)) (gateway_audit (p_db st1)) =
    [(Some AuditFinal, AuditOk, Some "a")] ∧
  refused (request "b" "10.0.0.2" "/execute") st1 = (Some 409, false) ∧
  refused (request "a" "10.0.0.9" "/execute") st1 = (Some 401, false) ∧
  refused (request "a" "10.0.0.2" "/admin") st1 = (Some 403, false) ∧
  (serve false (request "a" "10.0.0.2" "/execute") desk_state).2 =
    mkProxyState (verifyProxyToken "j1.secret" "10.0.0.2" 5000 desk_db).2 {[ "j1" := mkRate 5000 1 ]} [].
Proof. cbv zeta. do 5 (split; [vm_compute; reflexivity|]). vm_compute. reflexivity. Qed.

Example only_the_tokens_group_is_signed_witness :
  length (p_events (serve true (request "a" "10.0.0.2" "/execute") desk_state).2) = 3%nat ∧
  ∃ tr, p_events (serve true (request "a" "10.0.0.2" "/execute") desk_state).2 = p_events desk_state ++ tr ∧
    signed_trace "agentdesk" (desk_deps true) (request "a" "10.0.0.2" "/execute") tr.
Proof.
  split; [vm_compute; reflexivity|].
  exact (only_the_tokens_group_is_signed "agentdesk" (desk_deps true)
           (request "a" "10.0.0.2" "/execute") desk_state (laws := host_laws _ _ _ _ _ _ _ _)).
Defined.

Definition burst : list (string * time) :=
  [("j1", 0); ("j1", 1); ("j1", 2); ("j2", 3); ("j1", 60000); ("j1", 60001); ("j1", 120000)].
Example rate_is_bounded_witness :
  let_through 2 60000 "j1" burst ∅ = [0; 1; 60000; 60001; 120000] ∧ 0 + 60000 <= 120000.
Proof.
  split; [vm_compute; reflexivity|].
  apply (rate_is_bounded 2 60000 "j1" ltac:(lia) ltac:(lia) burst 0); [|vm_compute; reflexivity..].
  unfold burst, in_order. repeat constructor; cbn; lia.
Defined.

(** ** Tokens *)

Definition started : CentralDb :=
  (run_op 1000 (OpMint "j1" "secret" "s1" "a" ALL_GATEWAY_PATHS 3600000) (set_agent_groups [desk] emptyDb)).2.
Definition history : CentralDb := (run_op 2000 (OpVerify "j1.secret" "10.0.0.2") started).2.
Example one_live_token_witness :
  length (tokens history) = 1%nat ∧ tokens_wf (tokens history).
Proof.
  split; [vm_compute; reflexivity|].
  apply (one_live_token (set_agent_groups [desk] emptyDb)); [apply wf_empty|].
  eapply rtc_l; [exists 1000, (OpMint "j1" "secret" "s1" "a" ALL_GATEWAY_PATHS 3600000); by split|].
  eapply rtc_l; [exists 2000, (OpVerify "j1.secret" "10.0.0.2"); by split|].
  apply rtc_refl.
Defined.

(** The container exits; another session starts; the token is tried again. *)
Definition exited : CentralDb := (revokeProxyTokensForSession "s1" 3000 started).2.
Example revocation_is_final_witness :
  (verifyProxyToken "j1.secret" "10.0.0.2" 2000 started).1 =
    Ok (TokenOk (mkTokenRecord "j1" "s1" "a" ALL_GATEWAY_PATHS (Some "10.0.0.2") 3601000)) ∧
  ∀ record, (verifyProxyToken "j1.secret" "10.0.0.2" 4000
    (run_op 3500 (OpMint "j2" "other" "s2" "a" ALL_GATEWAY_PATHS 3600000) exited).2).1 ≠ Ok (TokenOk record).
Proof.
  split; [vm_compute; reflexivity|].
  apply (revocation_is_final "s1" 3000 started "j1.secret").
  - assert (tokens started = [minted_row 1000 "j1" "secret" "s1" "a" ALL_GATEWAY_PATHS 3600000]) as ->
      by (vm_compute; reflexivity).
    by intros r ->%list_elem_of_singleton.
  - eapply rtc_l; [|apply rtc_refl].
    exists 3500, (OpMint "j2" "other" "s2" "a" ALL_GATEWAY_PATHS 3600000). split; [|done].
    vm_compute. discriminate.
Defined.

Example token_stays_witness :
  (verifyProxyToken "j1.secret" "10.0.0.9" 4000 history).1 = Ok TokenIpMismatch ∧
  ∀ ip record, (verifyProxyToken "j1.secret" ip 4000 history).1 = Ok (TokenOk record) → ip = "10.0.0.2".
Proof.
  split; [vm_compute; reflexivity|]. intros ip record.
  apply (token_stays_with_its_first_user "j1.secret" "10.0.0.2" 2000 started
    (mkTokenRecord "j1" "s1" "a" ALL_GATEWAY_PATHS (Some "10.0.0.2") 3601000) history).
  - apply (wf_step [] _).
    + assert (tokens started = sql_update (live_of "s1") (with_revoked 1000) [] ++
        [minted_row 1000 "j1" "secret" "s1" "a" ALL_GATEWAY_PATHS 3600000]) as -> by (vm_compute; reflexivity).
      apply table_mint; [done|]. intros r H. by apply elem_of_nil in H.
    + apply wf_empty.
  - vm_compute. reflexivity.
  - assert (history = (verifyProxyToken "j1.secret" "10.0.0.2" 2000 started).2) as -> by apply then_done.
    apply rtc_refl.
Defined.

Example minted_token_is_accepted_witness :
  ∃ minted db', mintProxyToken 1000 "j1" "secret" "s1" "a" ALL_GATEWAY_PATHS 3600000 emptyDb = (Ok minted, db') ∧
    (verifyProxyToken (mt_token minted) "10.0.0.2" 2000 db').1 =
      Ok (TokenOk (mkTokenRecord "j1" "s1" "a" ALL_GATEWAY_PATHS (Some "10.0.0.2") (1000 + 3600000))).
Proof.
  apply (minted_token_is_accepted 1000 "j1" "secret" "s1" "a" ALL_GATEWAY_PATHS 3600000 emptyDb "10.0.0.2" 2000);
    [|lia]. intros r H. by apply elem_of_nil in H.
Defined.
