(* ===== verification/SessionArchive.v ===== *)
(** * Archiving of idle sessions (src/session-archive.ts)

    An archive run is synchronous up to the start of [tar]; while the process
    runs, the router, the containers and every other part of the host act, and
    the runs of one sweep go on side by side.  A sweep starts all of them and
    then takes their ends in the order the processes exit. *)
From S2P Require Import Prelude JsString Json Types Central Permissions DmGrants SessionDb ContainerDb Sessions Destinations Fs Attachments SessionManager.

Local Open Scope string_scope.
Local Open Scope Z_scope.
Local Open Scope list_scope.
Local Open Scope prog_scope.

Definition ARCHIVE_BATCH_LIMIT : nat := 100.

(** [86_400_000 * days] before [now] *)
(*@ src/src/session-archive.ts 72-74 cutoffIso *)
Definition cutoffIso (days : Z) (now : time) : time := now - days * 86400000.

(** How a run ends: what the other parts of the host did meanwhile, what [tar]
    left at the target, and whether it exited with 0; [te_pick] chooses which
    of the processes still running this is. *)
Record TarEnd := mkTarEnd {
  te_pick : nat;
  te_meanwhile : World → World;
  te_written : option string;
  te_ok : bool }.

(** [ar_progress] is the set of the module, [ar_removed] the session
    directories removed, each with the row the run started from and the world
    at that moment. *)
Record Archiver := mkArchiver {
  ar_world : World;
  ar_progress : gset string;
  ar_removed : list (Session * World) }.
Definition arM (A : Type) : Type := prog Archiver exn A.

Definition set_ar_world (w : World) (a : Archiver) : Archiver :=
  mkArchiver w (ar_progress a) (ar_removed a).
Definition set_progress (s : gset string) (a : Archiver) : Archiver :=
  mkArchiver (ar_world a) s (ar_removed a).
Definition add_removed (s : Session) (a : Archiver) : Archiver :=
  mkArchiver (ar_world a) (ar_progress a) (ar_removed a ++ [(s, ar_world a)]).

(** A synchronous program over the world. *)
Definition on_world {A} (m : wM A) : arM A :=
  λ a, let '(r, w) := m (ar_world a) in (r, set_ar_world w a).
Definition read_db {A} (f : CentralDb → A) : arM A := gets (λ a, f (w_db (ar_world a))).

(** [fs.rmSync(p, { recursive: true, force: true })] of a path that may not
    be there; only the links before its last component are followed. *)
Definition rm_path (p : list string) : fsM unit :=
  let* up := gets (λ fs, realpath fs (parent p)) in
  match up with
  | Some q => rm_rf (q ++ [basename p])
  | None => ret tt
  end.

Section archive.
Context (DATA_DIR : list string).

(*@ src/src/session-archive.ts 50-52 archiveBaseDir *)
Definition archiveBaseDir : list string := DATA_DIR ++ ["v2-sessions-archive"].
(*@ src/src/session-archive.ts 54-56 archivePathFor *)
Definition archivePathFor (session : Session) : list string :=
  archiveBaseDir ++ [s_agent_group_id session; s_id session +:+ ".tar.gz"].

Definition key_of (session : Session) : string * string := (s_agent_group_id session, s_id session).
Definition src_of (session : Session) : list string :=
  sessionDir DATA_DIR (s_agent_group_id session) (s_id session).

(** The databases of a session are files of its directory. *)
Definition rm_session (session : Session) : wM unit :=
  files (rm_path (src_of session)) ;;
  modify (λ w, set_out (delete (key_of session) (w_out w))
                 (set_in (delete (key_of session) (w_in w)) w)).

(** Where the run is at its first [await]: another run owns the session; there
    is no directory; the target directory could not be made; [tar] runs. *)
Inductive Run := Owned | NoDirectory | Refused | Tarring.

(** The synchronous part of a run. *)
(*@ src/src/session-archive.ts 127-132 archiveSessionFiles *)
Definition archive_files_start (session : Session) : arM Run :=
  let* there := gets (λ a, existsSync (w_fs (ar_world a)) (src_of session)) in
  if negb there then ret NoDirectory
  else
    try_catch (on_world (files (mkdirp (parent (archivePathFor session)))) ;; ret Tarring)
      (λ _, ret Refused).
(*@ src/src/session-archive.ts 166-171 archiveSession *)
Definition archive_start (session : Session) : arM Run :=
  let* owned := gets (λ a, bool_decide (s_id session ∈ ar_progress a)) in
  if owned : bool then ret Owned
  else
    modify (λ a, set_progress ({[ s_id session ]} ∪ ar_progress a) a) ;;
    archive_files_start session.

(** The row has not moved since the candidates were read. *)
(*@ src/src/session-archive.ts 171-182 stillQuiescent *)
Definition stillQuiescent (session : Session) (db : CentralDb) : bool :=
  match getSession (s_id session) db with
  | Some fresh => bool_decide (s_status fresh = active) &&
                  bool_decide (s_container_status fresh = stopped) &&
                  bool_decide (s_last_active fresh = s_last_active session)
  | None => false
  end.

(** [child.on('close')]: a process that wrote nothing at all is not one that
    exits with 0. *)
(*@ src/src/session-archive.ts 86-101 spawnTarAsync *)
Definition tar_end (dst : list string) (te : TarEnd) : arM unit :=
  match te_written te with
  | Some data =>
      on_world (files (write_file dst data)) ;;
      if te_ok te then ret tt else throw (Err "tar exited")
  | None => throw (Err "tar exited")
  end.

(** After [tar]: the check, and the removal. *)
(*@ src/src/session-archive.ts 132-151 archiveSessionFiles *)
Definition archive_files_end (session : Session) (te : TarEnd) : arM unit :=
  let dst := archivePathFor session in
  tar_end dst te ;;
  let* quiet := read_db (stillQuiescent session) in
  if negb quiet then
    on_world (files (rm_path dst)) ;;
    throw (Err "session became active during archive")
  else
    modify (add_removed session) ;;
    on_world (rm_session session).

(** The row is flipped, and the grants of a scope that ends are revoked. *)
(*@ src/src/session-archive.ts 183-201 archiveSession *)
Definition archive_row (now : time) (session : Session) : dbM unit :=
  updateSession (s_id session)
    (mkSessionUpdate (Some archived) None None None (Some (Some now))) ;;
  let* grants := query (λ db, hasTable db "dm_grants") in
  if bool_decide (default (s_id session) (s_root_session_id session) = s_id session) && grants
  then revokeScope now (s_id session) ;; ret tt else ret tt.

(** The rest of a run, from the end of its [tar]; every error ends it with
    [false], and the set is cleared whichever way it ends. *)
(*@ src/src/session-archive.ts 166-219 archiveSession *)
Definition archive_end (now : time) (session : Session) (r : Run) (te : TarEnd) : arM bool :=
  match r with
  | Owned => ret false
  | _ =>
      modify (λ a, set_ar_world (te_meanwhile te (ar_world a)) a) ;;
      let* ok := try_catch
        ((match r with
          | Tarring => archive_files_end session te
          | NoDirectory => ret tt
          | _ => throw (Err "mkdir")
          end) ;;
         on_world (central (archive_row now session)) ;;
         ret true)
        (λ _, ret false) in
      modify (λ a, set_progress (ar_progress a ∖ {[ s_id session ]}) a) ;;
      ret ok
  end.

(** [candidates.map(archiveSession)]: every run up to its first [await]. *)
Fixpoint start_all (candidates : list Session) : arM (list (Session * Run)) :=
  match candidates with
  | [] => ret []
  | s :: rest =>
      let* r := archive_start s in
      let* runs := start_all rest in
      ret ((s, r) :: runs)
  end.

(** The run that ends next, and the others. *)
Fixpoint pick_run (k : nat) (runs : list (Session * Run))
    : option (Session * Run * list (Session * Run)) :=
  match runs with
  | [] => None
  | x :: rest =>
      match k with
      | O => Some (x, rest)
      | S k' => match pick_run k' rest with
                | Some (y, rest') => Some (y, x :: rest')
                | None => Some (x, rest)
                end
      end
  end.

(** [Promise.all]: the ends, one after the other in the order of the
    processes; [n] runs are left.  The number of runs that archived. *)
Fixpoint settle (now : time) (ends : nat → TarEnd) (n : nat) (runs : list (Session * Run))
    : arM nat :=
  match n with
  | O => ret 0%nat
  | S n' =>
      match pick_run (te_pick (ends n')) runs with
      | None => ret 0%nat
      | Some ((s, r), rest) =>
          let* ok := archive_end now s r (ends n') in
          let* m := settle now ends n' rest in
          ret ((if ok : bool then 1 else 0) + m)%nat
      end
  end.

(** The tarball goes before the row does. *)
(*@ src/src/session-archive.ts 213-229 hardDeleteArchivedSession *)
Definition hardDeleteArchivedSession (session : Session) : arM bool :=
  try_catch
    (let archivePath := archivePathFor session in
     let* there := gets (λ a, existsSync (w_fs (ar_world a)) archivePath) in
     (if there : bool then on_world (files (rm_path archivePath)) else ret tt) ;;
     on_world (central (deleteSession (s_id session))) ;;
     ret true)
    (λ _, ret false).

Fixpoint hard_delete_all (candidates : list Session) : arM nat :=
  match candidates with
  | [] => ret 0%nat
  | s :: rest =>
      let* ok := hardDeleteArchivedSession s in
      let* m := hard_delete_all rest in
      ret ((if ok : bool then 1 else 0) + m)%nat
  end.

Record LifecycleSweepResult := mkLifecycle {
  archivedCount_ : nat;
  hardDeleted_ : nat;
  activeRows : nat;
  archivedRows : nat }.

Definition count_of (st : SessionStatus) (counts : list (SessionStatus * nat)) : nat :=
  default 0%nat (option_map snd (List.find (λ c, bool_decide (c.1 = st)) counts)).

(** [ttlDays] and [hardDays] are the two settings, [0] when unset. *)
(*@ src/src/session-archive.ts 242-276 runSessionLifecycleSweep *)
Definition runSessionLifecycleSweep (ttlDays hardDays : Z) (ends : nat → TarEnd) (now : time)
    : arM LifecycleSweepResult :=
  let* counts := read_db countSessionsByStatus in
  let* n_archived :=
    (if 0 <? ttlDays then
       let* candidates := read_db (findArchivableSessions (cutoffIso ttlDays now) ARCHIVE_BATCH_LIMIT) in
       let* runs := start_all candidates in
       settle now ends (length runs) runs
     else ret 0%nat) in
  let* n_deleted :=
    (if 0 <? hardDays then
       let* candidates := read_db (findArchivedSessionsOlderThan (cutoffIso hardDays now) ARCHIVE_BATCH_LIMIT) in
       hard_delete_all candidates
     else ret 0%nat) in
  ret (mkLifecycle n_archived n_deleted (count_of active counts) (count_of archived counts)).
End archive.

(** ** Archiving removes only what is idle

    What a lifecycle sweep may remove, whatever the rest of the host does while
    its [tar] processes run; that the set of runs is cleared; that the hard
    deletion touches only what is past its retention; and two runs that show
    what archiving leaves behind. *)

Section proofs.
Context (DATA_DIR : list string).

(** ** Runs of a sweep *)

(** What a program does to the log and to the set. *)
Definition leaves {A} (m : arM A) : Prop :=
  ∀ a, ar_removed (m a).2 = ar_removed a ∧ ar_progress (m a).2 = ar_progress a.

Lemma leaves_on_world {A} (m : wM A) : leaves (on_world m).
Proof. intros a. unfold on_world. by destruct (m (ar_world a)). Qed.
Lemma leaves_ret {A} (x : A) : leaves (ret x).
Proof. done. Qed.
Lemma leaves_throw {A} e : leaves (throw (A:=A) e).
Proof. done. Qed.
Lemma leaves_gets {A} (f : Archiver → A) : leaves (gets f).
Proof. done. Qed.
Lemma leaves_bind {A B} (m : arM A) (k : A → arM B) :
  leaves m → (∀ x, leaves (k x)) → leaves (bind m k).
Proof.
  intros Hm Hk a. rewrite bind_case. specialize (Hm a). destruct (m a) as [[x|e] a1]; [|done].
  cbn in Hm. destruct Hm as [<- <-]. apply Hk.
Qed.
Lemma leaves_try {A} (m : arM A) (k : exn → arM A) :
  leaves m → (∀ e, leaves (k e)) → leaves (try_catch m k).
Proof.
  intros Hm Hk a. unfold try_catch. specialize (Hm a). destruct (m a) as [[x|e] a1]; [done|].
  cbn in Hm. destruct Hm as [<- <-]. apply Hk.
Qed.
Hint Resolve leaves_on_world leaves_ret leaves_throw leaves_gets leaves_bind leaves_try : arch.

Lemma leaves_tar_end dst te : leaves (tar_end dst te).
Proof. unfold tar_end. destruct (te_written te); [|auto with arch]. destruct (te_ok te); auto with arch. Qed.
Hint Resolve leaves_tar_end : arch.

(** A start takes the session into the set, unless it is there. *)
Definition owns (r : Run) : bool := match r with Owned => false | _ => true end.

Lemma archive_start_spec s a :
  ∃ r a', archive_start DATA_DIR s a = (Ok r, a') ∧ ar_removed a' = ar_removed a ∧
    w_db (ar_world a') = w_db (ar_world a) ∧
    (if owns r then s_id s ∉ ar_progress a ∧ ar_progress a' = {[ s_id s ]} ∪ ar_progress a
     else a' = a).
Proof.
  unfold archive_start, gets. rewrite bind_case. cbv iota beta.
  destruct (bool_decide (_ ∈ _)) eqn:Ep; to_prop; [by exists Owned, a|].
  unfold modify, archive_files_start, gets. rewrite !bind_case. cbn.
  destruct (existsSync _ _); cbn; [|by exists NoDirectory; eexists].
  unfold try_catch, bind, on_world, files, ret. cbn.
  destruct (mkdirp _ _) as [[x|e] fs]; cbn; by repeat eexists.
Qed.

(** An end removes the files only of a session that has not moved. *)
Lemma archive_end_spec now s r te a :
  ∃ ok a', archive_end DATA_DIR now s r te a = (Ok ok, a') ∧
    (ar_removed a' = ar_removed a ∨
     r = Tarring ∧ ∃ w, ar_removed a' = ar_removed a ++ [(s, w)] ∧ stillQuiescent s (w_db w) = true) ∧
    ar_progress a' = if owns r then ar_progress a ∖ {[ s_id s ]} else ar_progress a.
Proof.
  assert (∀ m : arM bool, leaves m → ∀ a0, ∃ ok a1, try_catch m (λ _, ret false) a0 = (Ok ok, a1) ∧
            ar_removed a1 = ar_removed a0 ∧ ar_progress a1 = ar_progress a0) as Htry.
  { intros m Hm a0. unfold try_catch. specialize (Hm a0). destruct (m a0) as [[x|e] a1]; cbn in *; eauto. }
  destruct r; cbn [archive_end owns]; [by exists false, a; auto|..]; rewrite bind_modify;
    set (a0 := set_ar_world _ a).
  1,2: match goal with |- context [try_catch ?m _] =>
         destruct (Htry m ltac:(auto with arch) a0) as (ok & a1 & E & Hr & Hp) end;
       rewrite bind_case, E; cbn; exists ok; eexists; (split; [done|]); cbn; rewrite Hr, Hp; auto.
  rewrite bind_case. unfold try_catch at 1, archive_files_end at 1.
  rewrite bind_case, bind_case. pose proof (leaves_tar_end (archivePathFor DATA_DIR s) te a0) as Ht.
  destruct (tar_end _ te a0) as [[[]|e] a1]; cbn in Ht; destruct Ht as [Hr Hp].
  2:{ cbn. exists false. eexists. split; [done|]. cbn. rewrite Hr, Hp. auto. }
  unfold read_db. cbv iota beta. rewrite bind_gets. destruct (stillQuiescent s _) eqn:Eq; cbn [negb].
  - rewrite bind_modify. set (a2 := add_removed s a1).
    pose proof (leaves_on_world (rm_session DATA_DIR s) a2) as H2.
    destruct (on_world _ a2) as [[[]|e] a3]; cbn in H2; destruct H2 as [H2r H2p].
    + rewrite bind_case. pose proof (leaves_on_world (central (archive_row now s)) a3) as H3.
      destruct (on_world _ a3) as [[[]|e] a4]; cbn in H3; destruct H3 as [H3r H3p];
      cbn; eexists _, _; (split; [done|]); cbn; rewrite H3r, H3p, H2r, H2p; cbn; rewrite Hr, Hp;
      (split; [right; eauto|done]).
    + cbn; eexists _, _; (split; [done|]); cbn; rewrite H2r, H2p; cbn; rewrite Hr, Hp;
      (split; [right; eauto|done]).
  - rewrite bind_case. pose proof (leaves_on_world (files (rm_path (archivePathFor DATA_DIR s))) a1) as H2.
    destruct (on_world _ a1) as [[x|e] a2]; cbn in H2; destruct H2 as [H2r H2p]; cbn;
    eexists _, _; (split; [done|]); cbn; rewrite H2r, H2p, Hr, Hp; auto.
Qed.

Definition taken (runs : list (Session * Run)) : gset string :=
  list_to_set (map (λ x, s_id x.1) (List.filter (λ x, owns x.2) runs)).

Lemma start_all_spec l a :
  ∃ runs a', start_all DATA_DIR l a = (Ok runs, a') ∧ map fst runs = l ∧ ar_removed a' = ar_removed a ∧
    ar_progress a' = taken runs ∪ ar_progress a ∧ taken runs ## ar_progress a.
Proof.
  revert a. induction l as [|s l IH]; intros a; cbn.
  { exists [], a. unfold taken. cbn. split_and!; [done..|set_solver|set_solver]. }
  destruct (archive_start_spec s a) as (r & a1 & E & Hr & _ & Hp). rewrite bind_case, E.
  destruct (IH a1) as (runs & a2 & E2 & Hm & Hr2 & Hp2 & Hd). rewrite bind_case, E2. cbn.
  exists ((s, r) :: runs), a2. split; [done|]. split; [by cbn; rewrite Hm|]. split; [congruence|].
  unfold taken in *. cbn [List.filter map snd fst]. destruct (owns r); cbn.
  - destruct Hp as [? Hp]. rewrite Hp2, Hp in *. set_solver.
  - subst a1. by rewrite Hp2.
Qed.

Lemma pick_run_Permutation k runs x rest : pick_run k runs = Some (x, rest) → runs ≡ₚ x :: rest.
Proof.
  revert k x rest. induction runs as [|y runs IH]; intros k x rest; cbn; [by destruct k|].
  destruct k; cbn; [by intros [= <- <-]|].
  destruct (pick_run k runs) as [[z rest']|] eqn:E; intros [= <- <-]; [|done].
  rewrite (IH _ _ _ E). constructor.
Qed.

Lemma settle_spec now ends n runs a :
  (length runs <= n)%nat →
  ∃ m a' log, settle DATA_DIR now ends n runs a = (Ok m, a') ∧ ar_removed a' = ar_removed a ++ log ∧
    Forall (λ x, x.1 ∈ map fst runs ∧ stillQuiescent x.1 (w_db x.2) = true) log ∧
    ar_progress a' = ar_progress a ∖ taken runs.
Proof.
  revert runs a. induction n as [|n IH]; intros runs a Hn; cbn.
  { destruct runs; [|cbn in Hn; lia]. exists 0%nat, a, []. rewrite app_nil_r. unfold taken. cbn.
    split_and!; [done..|set_solver]. }
  destruct (pick_run _ runs) as [[[s r] rest]|] eqn:E.
  2:{ exists 0%nat, a, []. destruct runs; [|destruct (te_pick (ends n)); cbn in E; repeat case_match; done].
      rewrite app_nil_r. unfold taken. cbn. split_and!; [done..|set_solver]. }
  apply pick_run_Permutation in E.
  destruct (archive_end_spec now s r (ends n) a) as (ok & a1 & E1 & Hlog & Hp). rewrite bind_case, E1.
  destruct (IH rest a1) as (m & a2 & log & E2 & Hr & Hall & Hp2).
  { apply Permutation_length in E. cbn in E. lia. }
  rewrite bind_case, E2. eexists _, _. cbn.
  assert (∀ x : Session * World, x.1 ∈ map fst rest → x.1 ∈ map fst runs) as Hin.
  { intros x Hx. rewrite E. cbn. by right. }
  assert (taken runs = (if owns r then {[ s_id s ]} else ∅) ∪ taken rest) as Ht.
  { unfold taken. apply leibniz_equiv. intros i. rewrite elem_of_list_to_set.
    assert (map (λ x, s_id x.1) (List.filter (λ x, owns x.2) runs) ≡ₚ
            map (λ x, s_id x.1) (List.filter (λ x, owns x.2) ((s, r) :: rest))) as ->.
    { apply Permutation_map. clear -E. induction E; cbn; repeat case_match; try constructor; auto.
      by etrans. }
    cbn. destruct (owns r); cbn; set_solver. }
  assert (ar_progress a2 = ar_progress a ∖ taken runs) as Hprog.
  { rewrite Hp2, Hp, Ht. destruct (owns r); set_solver. }
  destruct Hlog as [Hlog|(_ & w & Hlog & Hq)].
  - exists log. split; [done|]. rewrite Hr, Hlog. split; [done|]. split; [|done].
    eapply Forall_impl; [exact Hall|]. intros x [? ?]. auto.
  - exists ((s, w) :: log). split; [done|]. rewrite Hr, Hlog, <-app_assoc. split; [done|]. split; [|done].
    constructor; cbn.
    + rewrite E. cbn. split; [left|done].
    + eapply Forall_impl; [exact Hall|]. intros x [? ?]. auto.
Qed.

Lemma leaves_hard_delete s : leaves (hardDeleteArchivedSession DATA_DIR s).
Proof.
  unfold hardDeleteArchivedSession. apply leaves_try; [|auto with arch].
  apply leaves_bind; [auto with arch|]. intros []; auto with arch.
Qed.
Lemma leaves_hard_delete_all l : leaves (hard_delete_all DATA_DIR l).
Proof.
  induction l; cbn; auto with arch.
  apply leaves_bind; [apply leaves_hard_delete|]. intros b. auto with arch.
Qed.

(** The archiving half of a sweep. *)
Lemma sweep_spec ttlDays hardDays ends now a :
  ∃ res a' log, runSessionLifecycleSweep DATA_DIR ttlDays hardDays ends now a = (Ok res, a') ∧
    ar_progress a' = ar_progress a ∧ ar_removed a' = ar_removed a ++ log ∧
    Forall (λ x, x.1 ∈ findArchivableSessions (cutoffIso ttlDays now) ARCHIVE_BATCH_LIMIT (w_db (ar_world a)) ∧
                 0 < ttlDays ∧ stillQuiescent x.1 (w_db x.2) = true) log.
Proof.
  unfold runSessionLifecycleSweep, read_db. unfold gets at 1. rewrite bind_case.
  assert (∃ n a1 log,
    (if 0 <? ttlDays then
       let* candidates := gets (λ a, findArchivableSessions (cutoffIso ttlDays now) ARCHIVE_BATCH_LIMIT (w_db (ar_world a))) in
       let* runs := start_all DATA_DIR candidates in settle DATA_DIR now ends (length runs) runs
     else ret 0%nat) a = (Ok n, a1) ∧ ar_progress a1 = ar_progress a ∧ ar_removed a1 = ar_removed a ++ log ∧
    Forall (λ x, x.1 ∈ findArchivableSessions (cutoffIso ttlDays now) ARCHIVE_BATCH_LIMIT (w_db (ar_world a)) ∧
                 0 < ttlDays ∧ stillQuiescent x.1 (w_db x.2) = true) log) as (n & a1 & log & E & Hp & Hr & Hl).
  { destruct (Z.ltb_spec 0 ttlDays).
    2:{ exists 0%nat, a, []. by rewrite app_nil_r. }
    unfold gets. rewrite bind_case.
    destruct (start_all_spec (findArchivableSessions (cutoffIso ttlDays now) ARCHIVE_BATCH_LIMIT (w_db (ar_world a))) a)
      as (runs & a1 & E1 & Hm & Hr1 & Hp1 & Hd). rewrite bind_case, E1.
    destruct (settle_spec now ends (length runs) runs a1) as (m & a2 & log & E2 & Hr2 & Hl & Hp2); [done|].
    exists m, a2, log. split; [done|]. split; [rewrite Hp2, Hp1; set_solver|]. split; [by rewrite Hr2, Hr1|].
    rewrite Hm in Hl. eapply Forall_impl; [exact Hl|]. by intros x [? ?]. }
  rewrite bind_case, E. destruct (0 <? hardDays); [|by cbn; eauto 10].
  unfold gets. rewrite bind_case, bind_case.
  set (l := findArchivedSessionsOlderThan _ _ _).
  assert (∃ k, (hard_delete_all DATA_DIR l a1).1 = Ok k) as [k Hk].
  { generalize l a1. clear. induction l as [|s l IH]; intros a; cbn; [eauto|].
    rewrite bind_case. unfold hardDeleteArchivedSession at 1, try_catch.
    destruct (bind _ _ a) as [[ok|e] a2]; cbn; rewrite bind_case;
    destruct (IH a2) as [k Hk]; destruct (hard_delete_all DATA_DIR l a2) as [[?|?] ?]; cbn in *; eauto; done. }
  pose proof (leaves_hard_delete_all l a1) as [H1 H2]. destruct (hard_delete_all DATA_DIR l a1) as [r a2].
  cbn in *. subst r. eexists _, _, log. split; [done|]. by rewrite H1, H2.
Qed.

(** Archiving removes the files of idle sessions only, whatever happens
    while its processes run.  Let the rest of the host do anything to the
    databases and the files while the [tar] processes of a sweep run, and let
    them end in any order: whenever the sweep removes the directory of a
    session, the session row is there at that moment, it is active, its
    container is stopped, nothing has touched it since the sweep began, and it
    had been idle for longer than the configured number of days. *)
Theorem archiving_spares_the_woken ttlDays hardDays ends now a :
  let a' := (runSessionLifecycleSweep DATA_DIR ttlDays hardDays ends now a).2 in
  ∃ log, ar_removed a' = ar_removed a ++ log ∧
    ∀ s w, (s, w) ∈ log → 0 < ttlDays ∧
      s ∈ sessions (w_db (ar_world a)) ∧ idle_since s < now - ttlDays * 86400000 ∧
      ∃ fresh, getSession (s_id s) (w_db w) = Some fresh ∧ s_status fresh = active ∧
        s_container_status fresh = stopped ∧ s_last_active fresh = s_last_active s.
Proof.
  destruct (sweep_spec ttlDays hardDays ends now a) as (res & a' & log & E & _ & Hr & Hl).
  rewrite E. cbn. exists log. split; [done|]. intros s w Hin.
  rewrite Forall_forall in Hl. destruct (Hl _ Hin) as (Hc & Ht & Hq). cbn in *.
  unfold findArchivableSessions in Hc. apply elem_of_take in Hc as (i & Hc & _).
  apply list_elem_of_lookup_2, elem_of_sql_order_by, elem_of_sql_where in Hc as [Hs Hp]. to_prop.
  split; [done|]. split; [done|]. split; [unfold cutoffIso in *; lia|].
  unfold stillQuiescent in Hq. destruct (getSession _ _) as [fresh|]; [|done]. to_prop. eauto.
Qed.

(** A sweep always ends, and it leaves no session marked as being
    archived: whatever fails on the way, the set of the runs in progress is
    afterwards what it was before, so that a session the sweep could not
    archive is tried again by the next one. *)
Theorem sweep_releases_every_run ttlDays hardDays ends now a :
  ∃ res a', runSessionLifecycleSweep DATA_DIR ttlDays hardDays ends now a = (Ok res, a') ∧
    ar_progress a' = ar_progress a.
Proof.
  destruct (sweep_spec ttlDays hardDays ends now a) as (res & a' & log & E & Hp & _). eauto.
Qed.

(** A run whose session moved changes nothing but its own tarball: it
    returns [false], the row stays active and the session keeps its databases.  *)
Theorem aborted_run_keeps_the_session now s te a :
  stillQuiescent s (w_db (te_meanwhile te (ar_world a))) = false →
  let w := te_meanwhile te (ar_world a) in
  ∃ a', archive_end DATA_DIR now s Tarring te a = (Ok false, a') ∧
    w_db (ar_world a') = w_db w ∧ w_in (ar_world a') = w_in w ∧ w_out (ar_world a') = w_out w ∧
    ar_removed a' = ar_removed a.
Proof.
  intros Hq. cbn [archive_end]. rewrite bind_modify. set (a0 := set_ar_world _ a).
  assert (∀ (m : fsM unit) a1, ∃ r fs, on_world (files m) a1 = (r, set_ar_world (set_fs fs (ar_world a1)) a1)) as Hfs.
  { intros m a1. unfold on_world, files. destruct (m _) as [r fs]. eauto. }
  rewrite bind_case. unfold try_catch, archive_files_end. rewrite bind_case, bind_case.
  unfold tar_end. destruct (te_written te) as [data|]; [|by cbn; eauto 10].
  rewrite bind_case. destruct (Hfs (write_file (archivePathFor DATA_DIR s) data) a0) as (r & fs & ->).
  destruct r as [[]|e]; [|by cbn; eauto 10].
  destruct (te_ok te); [|by cbn; eauto 10]. unfold ret at 1, read_db. cbv iota beta. rewrite bind_gets.
  cbn [ar_world set_ar_world w_db set_fs]. subst a0. cbn [ar_world set_ar_world w_db set_fs]. rewrite Hq. cbn [negb].
  rewrite bind_case. match goal with |- context [on_world (files (rm_path _)) ?a1] =>
    destruct (Hfs (rm_path (archivePathFor DATA_DIR s)) a1) as (r & fs' & ->) end.
  destruct r as [[]|e]; cbn; eauto 10.
Qed.

End proofs.

(** ** Concrete runs *)

(** An idle session with its directory, and what is in its inbound.db. *)
Definition idle_session : Session :=
  mkSession "s0" "g" (Some "m") None None (Some "s0") None None active stopped (Some 0) None 0 0.
Definition idle_world (d : InboundDb) : World :=
  mkWorld (set_sessions [idle_session] emptyDb) {[ ("g", "s0") := d ]} {[ ("g", "s0") := emptyOutbound ]}
    (list_to_map [(["data"], NDir); (["data"; "v2-sessions"], NDir); (["data"; "v2-sessions"; "g"], NDir);
                  (["data"; "v2-sessions"; "g"; "s0"], NDir)]).
Definition quiet_end : TarEnd := mkTarEnd 0 (λ w, w) (Some "gz") true.
Definition day : Z := 86400000.

(** A message of the user while [tar] runs. *)
Definition message_meanwhile : TarEnd :=
  mkTarEnd 0 (λ w, (central (updateSession "s0" (mkSessionUpdate None None (Some (Some (31 * day))) None None)) w).2)
    (Some "gz") true.
Example aborted_run_witness :
  ∃ a', archive_end ["data"] (31 * day) idle_session Tarring message_meanwhile
          (mkArchiver (idle_world emptyInbound) {["s0"]} []) = (Ok false, a') ∧
        w_in (ar_world a') = {[ ("g", "s0") := emptyInbound ]} ∧ ar_removed a' = [].
Proof.
  destruct (aborted_run_keeps_the_session ["data"] (31 * day) idle_session message_meanwhile
    (mkArchiver (idle_world emptyInbound) {["s0"]} [])) as (a' & E & _ & Hi & _ & Hr); [vm_compute; reflexivity|].
  exists a'. split; [exact E|]. split; [exact Hi|exact Hr].
Defined.

(** Archiving forgets the tasks of a session.  Whatever its inbound.db
    holds, a task that is due later included, a session idle for the
    configured number of days is archived: its databases are gone, the sweep
    of the host no longer looks at it, and nothing ever runs the task. *)
Theorem archiving_forgets_tasks (scheduled : InboundDb) :
  let a := mkArchiver (idle_world scheduled) ∅ [] in
  let '(r, a') := runSessionLifecycleSweep ["data"] 30 0 (λ _, quiet_end) (31 * day) a in
  r = Ok (mkLifecycle 1 0 1 0) ∧ w_in (ar_world a') = ∅ ∧ getActiveSessions (w_db (ar_world a')) = [] ∧
  w_fs (ar_world a') !! ["data"; "v2-sessions-archive"; "g"; "s0.tar.gz"] = Some (NFile "gz").
Proof. vm_compute. repeat split. Qed.

(** A hard deletion can lose the tarball and keep the row.  The tarball is
    removed before the row is deleted, and the deletion throws while an
    approval request of the session is there: the row stays, marked as
    archived, the conversation it stands for is gone, and the next sweep tries
    again. *)
Theorem hard_delete_loses_the_tarball DATA_DIR s request a :
  let fs := w_fs (ar_world a) in
  plain fs (parent (archivePathFor DATA_DIR s)) → existsSync fs (archivePathFor DATA_DIR s) = true →
  is_Some (getSession (s_id s) (w_db (ar_world a))) →
  request ∈ pending_approvals (w_db (ar_world a)) → pa_session_id request = Some (s_id s) →
  ∃ a', hardDeleteArchivedSession DATA_DIR s a = (Ok false, a') ∧
    w_db (ar_world a') = w_db (ar_world a) ∧ w_fs (ar_world a') !! archivePathFor DATA_DIR s = None.
Proof.
  intros fs Hp He Hs Hr Hid. unfold hardDeleteArchivedSession, try_catch. rewrite bind_gets. fold fs. rewrite He.
  rewrite bind_case. unfold on_world at 1, files, rm_path. rewrite bind_gets. fold fs.
  rewrite realpath_root by done. cbn [rm_rf modify]. unfold modify. rewrite bind_case.
  unfold on_world, central. cbn [ar_world set_ar_world w_db set_fs].
  rewrite (deleteSession_blocked _ _ request) by done. cbn. eexists. split; [done|]. split; [done|].
  apply map_lookup_filter_None. right. intros x _. cbn. intros []. 
  unfold archivePathFor, parent, basename.
  change [s_agent_group_id s; s_id s +:+ ".tar.gz"] with ([s_agent_group_id s] ++ [s_id s +:+ ".tar.gz"]).
  rewrite app_assoc, removelast_last, last_last. done.
Qed.
Example hard_delete_loses_witness :
  let s := apply_session_update (mkSessionUpdate (Some archived) None None None (Some (Some 0))) idle_session in
  let request := mkPendingApproval "appr" (Some "s0") "appr" "install" "{}" 0 None None None None None ApPending "" [] in
  let w := mkWorld (set_pending_approvals [request] (set_sessions [s] emptyDb)) ∅ ∅
    (list_to_map [(["data"], NDir); (["data"; "v2-sessions-archive"], NDir); (["data"; "v2-sessions-archive"; "g"], NDir);
                  (["data"; "v2-sessions-archive"; "g"; "s0.tar.gz"], NFile "gz")]) in
  ∃ a', hardDeleteArchivedSession ["data"] s (mkArchiver w ∅ []) = (Ok false, a').
Proof.
  intros s request w. destruct (hard_delete_loses_the_tarball ["data"] s request (mkArchiver w ∅ []))
    as (a' & E & _); [|reflexivity|by eexists|left|reflexivity|by exists a'].
  split_and!; [|by vm_compute; set_solver..].
  intros p c q E. vm_compute in E.
  do 3 (destruct p as [|? p]; [injection E as <- _; vm_compute; reflexivity|injection E as <- E]). by destruct p.
Defined.
