(* ===== verification/ScopeRetention.v ===== *)
(** * Retention of the users' state scopes (src/scope-retention.ts,
    src/state-scope.ts)

    What is on the disk below [v2-scopes]: the directories of the agents, and in
    each of them the scopes with the time of their access marker.  A sweep is
    synchronous.  What can fail in it (listing a directory, stamping a marker,
    writing the audit, removing a tree) is a parameter, by scope. *)
From S2P Require Import Prelude JsString Json Types Central SessionDb Sessions Destinations Sha.

Local Open Scope string_scope.
Local Open Scope Z_scope.
Local Open Scope list_scope.
Local Open Scope prog_scope.

(** ** The directory of a user *)

(*@ src/src/state-scope.ts 58-67 userScopeKey *)
Definition userScopeKey (userId : string) : string :=
  let s := dash_runs false (toLowerCase userId) in
  let s := take_string 24 (rev_string (strip_dashes (rev_string (strip_dashes s) "")) "") in
  let slug := if bool_decide (s = "") then "user" else s in
  "u-" +:+ slug +:+ "-" +:+ take_string 8 (sha1_hex userId).

Inductive ScopeKind := GroupScope | UserScope.
Record StateScope := mkStateScope {
  sc_kind : ScopeKind;
  sc_workspaceDir : list string;
  sc_claudeDir : list string;
  sc_baseDir : option (list string) }.

Section scope.
Context (DATA_DIR GROUPS_DIR : list string).

(*@ src/src/state-scope.ts 111-113 scopesBaseDir *)
Definition scopesBaseDir (agentGroupId : string) : list string :=
  DATA_DIR ++ ["v2-scopes"; agentGroupId].

(*@ src/src/state-scope.ts 119-135 resolveStateScope *)
Definition resolveStateScope (agentGroup : AgentGroup) (session : Session) : StateScope :=
  if negb (truthy (s_owner_user_id session)) then
    mkStateScope GroupScope (GROUPS_DIR ++ [ag_folder agentGroup])
      (DATA_DIR ++ ["v2-sessions"; ag_id agentGroup; ".claude-shared"]) None
  else
    let base := scopesBaseDir (ag_id agentGroup) ++
                [userScopeKey (default "" (s_owner_user_id session))] in
    mkStateScope UserScope (base ++ ["workspace"]) (base ++ ["claude"]) (Some base).
End scope.

(** ** The sweep *)

(** The directories of the agents, [None] when there is no root, and the
    marker of every scope, [None] when it has none. *)
Record ScopeDisk := mkScopeDisk {
  sd_agents : option (list string);
  sd_scopes : gmap (string * string) (option time) }.

(** How a stamp ends: it is set; the marker could not be written; it was
    written, but its time could not be set. *)
Inductive Stamp := Stamped | NotWritten | NotDated.
(** How [rmSync] ends: the tree is gone, or it throws and leaves the scope with
    the given marker. *)
Inductive Removal := Removed | Stuck (marker : option time).

Record Faults := mkFaults {
  f_rootUnreadable : bool;
  f_unreadable : string → bool;
  f_stamp : string * string → Stamp;
  f_audit : string * string → bool;
  f_rm : string * string → Removal }.

(** [rt_audited] is [auditedPendingDelete]. *)
Record Retention := mkRetention {
  rt_db : CentralDb;
  rt_disk : ScopeDisk;
  rt_audited : gset string }.
Definition rtM (A : Type) : Type := prog Retention exn A.

Definition set_rt_db (db : CentralDb) (s : Retention) : Retention :=
  mkRetention db (rt_disk s) (rt_audited s).
Definition set_scopes (f : gmap (string * string) (option time) → gmap (string * string) (option time))
    (s : Retention) : Retention :=
  mkRetention (rt_db s) (mkScopeDisk (sd_agents (rt_disk s)) (f (sd_scopes (rt_disk s)))) (rt_audited s).
Definition set_audited (v : gset string) (s : Retention) : Retention :=
  mkRetention (rt_db s) (rt_disk s) v.

(** [`${agentGroupId}/${scopeKey}`] *)
Definition index_key (agentGroupId scopeKey : string) : string := agentGroupId +:+ "/" +:+ scopeKey.

Record ScopeIndex := mkScopeIndex {
  ix_live : gset string;
  ix_lastUse : gmap string time }.

(** The times of a session are texts the host wrote, which parse. *)
(*@ src/src/scope-retention.ts 127-143 indexScopes *)
Definition index_session (ix : ScopeIndex) (session : Session) : ScopeIndex :=
  if negb (truthy (s_owner_user_id session)) then ix
  else
    let key := index_key (s_agent_group_id session) (userScopeKey (default "" (s_owner_user_id session))) in
    let stamp := default (s_created_at session) (s_last_active session) in
    mkScopeIndex
      (if bool_decide (s_status session = active) then {[ key ]} ∪ ix_live ix else ix_live ix)
      (match ix_lastUse ix !! key with
       | Some prev => if prev <? stamp then <[key := stamp]> (ix_lastUse ix) else ix_lastUse ix
       | None => <[key := stamp]> (ix_lastUse ix)
       end).
(*@ src/src/scope-retention.ts 116-144 indexScopes *)
Definition indexScopes (db : CentralDb) : ScopeIndex :=
  fold_left index_session (getAllSessions db) (mkScopeIndex ∅ ∅).

Record ScopeSweepResult := mkScopeSweep {
  sr_scanned : nat;
  sr_adopted : nat;
  sr_removed : nat;
  sr_skippedLive : nat;
  sr_wouldRemove : nat }.
Definition no_sweep : ScopeSweepResult := mkScopeSweep 0 0 0 0 0.
Definition sr_add (a b : ScopeSweepResult) : ScopeSweepResult :=
  mkScopeSweep (sr_scanned a + sr_scanned b) (sr_adopted a + sr_adopted b) (sr_removed a + sr_removed b)
    (sr_skippedLive a + sr_skippedLive b) (sr_wouldRemove a + sr_wouldRemove b).

Section sweep.
Context (faults : Faults) (days : Z) (preview : bool) (now : time).

Definition cutoff : time := now - days * 24 * 60 * 60000.

(** Whether the stamp landed. *)
(*@ src/src/state-scope.ts 92-108 touchScopeAccess *)
Definition touchScopeAccess (scope : string * string) (atMs : time) : rtM bool :=
  match f_stamp faults scope with
  | Stamped => modify (set_scopes <[scope := Some atMs]>) ;; ret true
  | NotDated => modify (set_scopes <[scope := Some now]>) ;; ret false
  | NotWritten => ret false
  end.

(** The marker, or the stamp of the adoption, and the scopes adopted. *)
(*@ src/src/scope-retention.ts 245-273 sweepExpiredScopes *)
Definition adopt (ix : ScopeIndex) (scope : string * string) : rtM (time * nat) :=
  let* marker := gets (λ s, default None (sd_scopes (rt_disk s) !! scope)) in
  match marker with
  | Some accessed => ret (accessed, 0%nat)
  | None =>
      let accessed := default now (ix_lastUse ix !! index_key scope.1 scope.2) in
      if preview then ret (accessed, 0%nat)
      else
        let* stamped := touchScopeAccess scope accessed in
        ret (accessed, if stamped : bool then 1%nat else 0%nat)
  end.

(** The audit row of a removal; [false] when it cannot be written. *)
(*@ src/src/scope-retention.ts 292-311 sweepExpiredScopes *)
Definition audit_removal (scope : string * string) (accessed : time) : rtM bool :=
  let key := index_key scope.1 scope.2 in
  let* pending := gets (λ s, bool_decide (key ∈ rt_audited s)) in
  if pending : bool then ret true
  else if f_audit faults scope then ret false
  else
    modify (λ s, set_rt_db (recordEnterpriseAudit now "scope_retention_expired" None (Some scope.1) None
      (Some (JObj [("scopeKey", JStr scope.2); ("retainDays", JNum days);
                   ("lastAccessAt", JStr (text_of (TIso accessed)))])) (rt_db s)).2 s) ;;
    modify (λ s, set_audited ({[ key ]} ∪ rt_audited s) s) ;;
    ret true.

(*@ src/src/scope-retention.ts 313-336 sweepExpiredScopes *)
Definition remove_scope (scope : string * string) : rtM nat :=
  match f_rm faults scope with
  | Removed =>
      modify (set_scopes (delete scope)) ;;
      modify (λ s, set_audited (rt_audited s ∖ {[ index_key scope.1 scope.2 ]}) s) ;;
      ret 1%nat
  | Stuck marker => modify (set_scopes <[scope := marker]>) ;; ret 0%nat
  end.

(** One scope. *)
(*@ src/src/scope-retention.ts 234-337 sweepExpiredScopes *)
Definition sweep_scope (ix : ScopeIndex) (scope : string * string) : rtM ScopeSweepResult :=
  if bool_decide (index_key scope.1 scope.2 ∈ ix_live ix) then ret (mkScopeSweep 1 0 0 1 0)
  else
    let* seen := adopt ix scope in
    if cutoff <? seen.1 then ret (mkScopeSweep 1 seen.2 0 0 0)
    else if preview then ret (mkScopeSweep 1 seen.2 0 0 1)
    else
      let* audited := audit_removal scope seen.1 in
      if negb audited then ret (mkScopeSweep 1 seen.2 0 0 0)
      else
        let* removed := remove_scope scope in
        ret (mkScopeSweep 1 seen.2 removed 0 0).

Fixpoint sweep_scopes (ix : ScopeIndex) (scopes : list (string * string)) : rtM ScopeSweepResult :=
  match scopes with
  | [] => ret no_sweep
  | scope :: rest =>
      let* one := sweep_scope ix scope in
      let* others := sweep_scopes ix rest in
      ret (sr_add one others)
  end.

(** The scopes of an agent, when its directory can be listed. *)
(*@ src/src/scope-retention.ts 221-232 userDirs *)
Definition userDirs (agentGroupId : string) (disk : ScopeDisk) : list (string * string) :=
  if f_unreadable faults agentGroupId then []
  else List.filter (λ scope, bool_decide (scope.1 = agentGroupId)) (map fst (map_to_list (sd_scopes disk))).

Fixpoint sweep_agents (ix : ScopeIndex) (agents : list string) : rtM ScopeSweepResult :=
  match agents with
  | [] => ret no_sweep
  | agent :: rest =>
      let* scopes := gets (λ s, userDirs agent (rt_disk s)) in
      let* one := sweep_scopes ix scopes in
      let* others := sweep_agents ix rest in
      ret (sr_add one others)
  end.

(*@ src/src/scope-retention.ts 176-219 sweepExpiredScopes *)
Definition sweepExpiredScopes : rtM ScopeSweepResult :=
  if days =? 0 then ret no_sweep
  else
    let* agents := gets (λ s, sd_agents (rt_disk s)) in
    match agents with
    | None => ret no_sweep
    | Some agents =>
        let* ix := gets (λ s, indexScopes (rt_db s)) in
        if f_rootUnreadable faults then ret no_sweep else sweep_agents ix agents
    end.
End sweep.

(** ** Only abandoned scopes expire

    What a retention sweep may remove whatever fails on the way, that a preview
    changes nothing, and a collision of the directory keys. *)

(** The key of the scope a session mounts, and when it was last used. *)
Definition scope_of (session : Session) : option string :=
  if truthy (s_owner_user_id session)
  then Some (index_key (s_agent_group_id session) (userScopeKey (default "" (s_owner_user_id session))))
  else None.
Definition last_use (session : Session) : time := default (s_created_at session) (s_last_active session).

(** ** The index *)

Lemma index_session_eq ix s :
  index_session ix s =
    match scope_of s with
    | None => ix
    | Some key =>
        mkScopeIndex (if bool_decide (s_status s = active) then {[ key ]} ∪ ix_live ix else ix_live ix)
          (match ix_lastUse ix !! key with
           | Some prev => if prev <? last_use s then <[key := last_use s]> (ix_lastUse ix) else ix_lastUse ix
           | None => <[key := last_use s]> (ix_lastUse ix)
           end)
    end.
Proof. unfold index_session, scope_of. by destruct (truthy _). Qed.

Definition index_of_list (l : list Session) : ScopeIndex := fold_left index_session l (mkScopeIndex ∅ ∅).
Lemma index_of_snoc l s : index_of_list (l ++ [s]) = index_session (index_of_list l) s.
Proof. unfold index_of_list. by rewrite fold_left_app. Qed.

Lemma live_spec l s key :
  s ∈ l → s_status s = active → scope_of s = Some key → key ∈ ix_live (index_of_list l).
Proof.
  induction l as [|y l IH] using rev_ind; [set_solver|].
  rewrite index_of_snoc, index_session_eq. intros [Hin| ->%list_elem_of_singleton]%elem_of_app Ha Hk.
  - specialize (IH Hin Ha Hk). destruct (scope_of y); [|done]. cbn. destruct (bool_decide _); set_solver.
  - rewrite Hk. cbn. rewrite bool_decide_eq_true_2 by done. set_solver.
Qed.

(** The newest use of a key: some session has it, and none is later. *)
Definition newest_use (l : list Session) (key : string) (o : option time) : Prop :=
  match o with
  | Some t => (∃ s, s ∈ l ∧ scope_of s = Some key) ∧
              ∀ s, s ∈ l → scope_of s = Some key → last_use s <= t
  | None => ∀ s, s ∈ l → scope_of s ≠ Some key
  end.
Lemma lastUse_spec l key : newest_use l key (ix_lastUse (index_of_list l) !! key).
Proof.
  induction l as [|y l IH] using rev_ind.
  { cbn. rewrite lookup_empty. intros s Hs. set_solver. }
  rewrite index_of_snoc, index_session_eq. set (m := ix_lastUse (index_of_list l)) in *.
  assert (scope_of y ≠ Some key → ∀ o, newest_use l key o → newest_use (l ++ [y]) key o) as Hother.
  { intros Hy [t|]; cbn.
    - intros [(s & ? & ?) Hle]. split; [exists s; set_solver|].
      intros x [?| ->%list_elem_of_singleton]%elem_of_app; [auto|done].
    - intros Hn x [?| ->%list_elem_of_singleton]%elem_of_app; auto. }
  destruct (scope_of y) as [k|] eqn:Ek; [|by apply Hother]. cbn [ix_lastUse].
  destruct (decide (k = key)) as [->|Hk].
  2:{ destruct (m !! k); [destruct (_ <? _)|]; rewrite ?lookup_insert_ne by done;
      apply Hother; try done; congruence. }
  destruct (m !! key) as [prev|] eqn:E; cbn in IH.
  - destruct IH as [_ Hle]. destruct (Z.ltb_spec prev (last_use y)).
    + rewrite lookup_insert_eq. split; [exists y; set_solver|].
      intros x [?| ->%list_elem_of_singleton]%elem_of_app ?; [|lia]. etrans; [by apply Hle|lia].
    + rewrite E. split; [exists y; set_solver|].
      intros x [?| ->%list_elem_of_singleton]%elem_of_app ?; [auto|lia].
  - rewrite lookup_insert_eq. split; [exists y; set_solver|].
    intros x [?| ->%list_elem_of_singleton]%elem_of_app ?; [|lia]. exfalso. by eapply IH.
Qed.

(** ** The sweep *)

(** The audit row of the removal of a key. *)
Definition row_key (row : EnterpriseAuditRow) : option string :=
  match ea_agent_group_id row, ea_details row with
  | Some agent, Some (JObj (("scopeKey", JStr k) :: _)) => Some (index_key agent k)
  | _, _ => None
  end.
Definition recorded (key : string) (db : CentralDb) : Prop :=
  ∃ row, row ∈ enterprise_audit db ∧ ea_event_type row = "scope_retention_expired" ∧ row_key row = Some key.

Section sweep.
Context (faults : Faults) (days : Z) (preview : bool) (now : time) (ix : ScopeIndex) (s0 : Retention).

(** What the sweep can take for the last access of a scope. *)
Definition accessed_at (scope : string * string) (m : option time) (t : time) : Prop :=
  m = Some t ∨ m = None ∧ (t = default now (ix_lastUse ix !! index_key scope.1 scope.2) ∨ t = now).
Definition expired (scope : string * string) (m : option time) : Prop :=
  index_key scope.1 scope.2 ∉ ix_live ix ∧ ∃ t, accessed_at scope m t ∧ t <= cutoff days now.

Record swept (s : Retention) : Prop := {
  swept_scopes scope m : sd_scopes (rt_disk s0) !! scope = Some m →
    (∃ m', sd_scopes (rt_disk s) !! scope = Some m' ∧ (m' = m ∨ ∃ t, m' = Some t ∧ accessed_at scope m t)) ∨
    expired scope m ∧ (index_key scope.1 scope.2 ∈ rt_audited s0 ∨ recorded (index_key scope.1 scope.2) (rt_db s));
  swept_audited key : key ∈ rt_audited s → key ∈ rt_audited s0 ∨ recorded key (rt_db s);
  swept_kept : ∀ scope, preview = true → sd_scopes (rt_disk s) !! scope = sd_scopes (rt_disk s0) !! scope }.

Lemma swept_refl : swept s0.
Proof. split; [|auto|done]. intros scope m H. left. exists m. auto. Qed.

Lemma recorded_mono key db db' :
  (∀ row, row ∈ enterprise_audit db → row ∈ enterprise_audit db') → recorded key db → recorded key db'.
Proof. intros H (row & ? & ?). exists row. auto. Qed.

(** The three writes of a sweep. *)
Lemma swept_stamp s scope t :
  swept s → preview = false → (t = default now (ix_lastUse ix !! index_key scope.1 scope.2) ∨ t = now) →
  sd_scopes (rt_disk s) !! scope = Some None ∨ sd_scopes (rt_disk s) !! scope = None →
  swept (set_scopes <[scope := Some t]> s).
Proof.
  intros [H1 H2 H3] Hp Ht Hcur. split; [|done|congruence]. intros sc m Hm. destruct (H1 sc m Hm) as [(m' & E & Hm')|]; [|auto].
  destruct (decide (sc = scope)) as [->|].
  - destruct Hcur as [Hcur|Hcur]; [|congruence]. left. exists (Some t). cbn. rewrite lookup_insert_eq. split; [done|].
    right. exists t. split; [done|]. rewrite E in Hcur. injection Hcur as ->.
    destruct Hm' as [<-|(? & ? & _)]; [|done]. right. auto.
  - left. exists m'. cbn. by rewrite lookup_insert_ne.
Qed.
Lemma swept_record s scope accessed :
  swept s → swept (set_audited ({[ index_key scope.1 scope.2 ]} ∪ rt_audited s)
    (set_rt_db (recordEnterpriseAudit now "scope_retention_expired" None (Some scope.1) None
      (Some (JObj [("scopeKey", JStr scope.2); ("retainDays", JNum days);
                   ("lastAccessAt", JStr (text_of (TIso accessed)))])) (rt_db s)).2 s)).
Proof.
  intros [H1 H2 H3]. assert (∀ k, recorded k (rt_db s) → recorded k (recordEnterpriseAudit now
    "scope_retention_expired" None (Some scope.1) None
      (Some (JObj [("scopeKey", JStr scope.2); ("retainDays", JNum days);
                   ("lastAccessAt", JStr (text_of (TIso accessed)))])) (rt_db s)).2) as Hm.
  { intros k. apply recorded_mono. intros row Hr. cbn. apply elem_of_app. auto. }
  split; [| |done].
  - intros sc m E. destruct (H1 sc m E) as [?|[? [?|?]]]; auto.
  - cbn [set_audited set_rt_db rt_audited rt_db]. intros key [->%elem_of_singleton|Hk]%elem_of_union.
    + right. eexists. split; [cbn; apply elem_of_app; right; left|]. by split.
    + destruct (H2 key Hk) as [?|?]; auto.
Qed.
Lemma swept_remove s (scope : string * string) f (v : gset string) :
  swept s → preview = false →
  (∀ sc, sc ≠ scope → f (sd_scopes (rt_disk s)) !! sc = sd_scopes (rt_disk s) !! sc) →
  (∀ m, sd_scopes (rt_disk s0) !! scope = Some m → expired scope m) →
  index_key scope.1 scope.2 ∈ rt_audited s → v ⊆ rt_audited s →
  swept (set_audited v (set_scopes f s)).
Proof.
  intros [H1 H2 H3] Hp Hf He Ha Hv. split; [|intros key Hk; apply H2; set_solver|congruence].
  intros sc m Hm. destruct (H1 sc m Hm) as [(m' & E & Hm')|[? ?]]; [|auto].
  destruct (decide (sc = scope)) as [->|Hne]; [right; split; [by apply He|by apply H2]|].
  left. exists m'. cbn. by rewrite Hf.
Qed.

(** From the last access on. *)
Lemma swept_rest scope accessed n s :
  swept s → preview = false → index_key scope.1 scope.2 ∉ ix_live ix →
  (∀ m, sd_scopes (rt_disk s0) !! scope = Some m → expired scope m ∨ accessed_at scope m accessed) →
  swept ((if cutoff days now <? accessed then ret (mkScopeSweep 1 n 0 0 0)
          else
            let* audited := audit_removal faults days now scope accessed in
            if negb audited then ret (mkScopeSweep 1 n 0 0 0)
            else let* removed := remove_scope faults scope in ret (mkScopeSweep 1 n removed 0 0)) s).2.
Proof.
  intros H1 Hp Hl Hacc. destruct (Z.ltb_spec (cutoff days now) accessed); [done|].
  assert (∀ m, sd_scopes (rt_disk s0) !! scope = Some m → expired scope m) as He.
  { intros m Hm. destruct (Hacc m Hm); [done|]. split; [done|]. by exists accessed. }
  assert (∀ s2, swept s2 → index_key scope.1 scope.2 ∈ rt_audited s2 →
    swept ((let* removed := remove_scope faults scope in ret (mkScopeSweep 1 n removed 0 0)) s2).2) as Hrm.
  { intros s2 H2 Ha. rewrite bind_case. unfold remove_scope. destruct (f_rm faults scope) as [|marker]; cbn.
    - apply (swept_remove s2 scope (delete scope)); auto; [|set_solver].
      intros sc ?. by rewrite lookup_delete_ne.
    - apply (swept_remove s2 scope <[scope := marker]> (rt_audited s2)); auto.
      intros sc ?. by rewrite lookup_insert_ne. }
  rewrite bind_case. unfold audit_removal. rewrite bind_gets.
  destruct (bool_decide _) eqn:Ep; to_prop; [by apply Hrm|].
  destruct (f_audit faults scope); [done|]. rewrite !bind_modify.
  match goal with |- context [ret true ?s2] => apply (Hrm s2) end; [exact (swept_record s scope accessed H1)|]. cbn. set_solver.
Qed.

Lemma swept_scope scope s :
  swept s → swept (sweep_scope faults days preview now ix scope s).2.
Proof.
  intros Hs. unfold sweep_scope. destruct (bool_decide (_ ∈ ix_live ix)) eqn:El; [done|]. to_prop.
  rewrite bind_case. unfold adopt. rewrite bind_gets. pose proof (swept_scopes _ Hs scope) as Hm.
  destruct (default None (sd_scopes (rt_disk s) !! scope)) as [t|] eqn:Em; unfold ret at 1; cbn [fst snd].
  { destruct preview eqn:Ep; [by destruct (_ <? _)|]. apply swept_rest; auto.
    intros m E. destruct (Hm m E) as [(m' & E' & Hm')|[? _]]; [|auto]. rewrite E' in Em. cbn in Em. subst m'.
    destruct Hm' as [<-|(? & [= <-] & ?)]; [by right; left|by right]. }
  destruct preview eqn:Ep; [cbn; by destruct (_ <? _)|].
  rewrite bind_case. unfold touchScopeAccess.
  assert (sd_scopes (rt_disk s) !! scope = Some None ∨ sd_scopes (rt_disk s) !! scope = None) as Hcur
    by (revert Em; destruct (sd_scopes (rt_disk s) !! scope) as [[]|]; naive_solver).
  assert (∀ m, sd_scopes (rt_disk s0) !! scope = Some m → expired scope m ∨
    accessed_at scope m (default now (ix_lastUse ix !! index_key scope.1 scope.2))) as Hacc.
  { intros m E. destruct (Hm m E) as [(m' & E' & Hm')|[? _]]; [|auto]. rewrite E' in Hcur.
    destruct Hcur as [[= ->]|?]; [|done]. destruct Hm' as [<-|(? & ? & _)]; [|done]. right. right. auto. }
  destruct (f_stamp faults scope); refine (swept_rest scope _ _ _ _ Ep El Hacc); auto; apply swept_stamp; auto.
Qed.

Lemma swept_agents agents s :
  swept s → swept (sweep_agents faults days preview now ix agents s).2.
Proof.
  assert (∀ scopes s, swept s → swept (sweep_scopes faults days preview now ix scopes s).2) as Hl.
  { induction scopes as [|sc scopes IH]; intros s1 Hs; cbn [sweep_scopes]; [done|]. rewrite bind_case.
    pose proof (swept_scope sc s1 Hs). destruct (sweep_scope _ _ _ _ _ _ s1) as [[one|e] s2]; [|done].
    rewrite bind_case. specialize (IH s2 H). by destruct (sweep_scopes _ _ _ _ _ _ s2) as [[]]. }
  revert s. induction agents as [|a agents IH]; intros s Hs; cbn [sweep_agents]; [done|]. rewrite bind_gets, bind_case.
  pose proof (Hl (userDirs faults a (rt_disk s)) s Hs). destruct (sweep_scopes _ _ _ _ _ _ s) as [[one|e] s2]; [|done].
  rewrite bind_case. specialize (IH s2 H). by destruct (sweep_agents _ _ _ _ _ _ s2) as [[]].
Qed.
End sweep.

Lemma sweep_swept faults days preview now s :
  swept days preview now (indexScopes (rt_db s)) s (sweepExpiredScopes faults days preview now s).2.
Proof.
  unfold sweepExpiredScopes. destruct (days =? 0); [apply swept_refl|]. rewrite bind_gets.
  destruct (sd_agents (rt_disk s)); [|apply swept_refl]. rewrite bind_gets.
  destruct (f_rootUnreadable faults); [apply swept_refl|]. apply swept_agents, swept_refl.
Qed.

(** ** The theorems *)

(** A scope expires only when its owner has abandoned it, and never without
    a record.  Whatever cannot be listed, stamped, audited or removed: when a
    sweep removes the state of a user, no active session of the user mounts
    it; the marker of the last access is older than the retention window, or,
    where there is none, a session shows the use and every session of the user
    is older than the window; and the audit holds the removal. *)
Theorem scopes_expire_only_when_abandoned faults days preview now s scope marker :
  0 <= days →
  let s' := (sweepExpiredScopes faults days preview now s).2 in
  sd_scopes (rt_disk s) !! scope = Some marker → sd_scopes (rt_disk s') !! scope = None →
  let mounts x := x ∈ sessions (rt_db s) ∧ scope_of x = Some (index_key scope.1 scope.2) in
  (∀ x, mounts x → s_status x ≠ active) ∧
  match marker with
  | Some accessed => accessed <= now - days * 86400000
  | None => (∃ x, mounts x) ∧ ∀ x, mounts x → last_use x <= now - days * 86400000
  end ∧
  (index_key scope.1 scope.2 ∈ rt_audited s ∨ recorded (index_key scope.1 scope.2) (rt_db s')).
Proof.
  intros Hd s' Hm Hn mounts.
  destruct (decide (days = 0)) as [->|Hz]; [unfold s', sweepExpiredScopes in Hn; cbn in Hn; congruence|].
  destruct (swept_scopes _ _ _ _ _ _ (sweep_swept faults days preview now s) scope marker Hm)
    as [(m' & E & _)|[[Hl (t & Ht & Hle)] Hr]]; [fold s' in E; congruence|].
  unfold cutoff in Hle. change (indexScopes (rt_db s)) with (index_of_list (sessions (rt_db s))) in *.
  split; [|split; [|done]].
  - intros x [Hx Hk] Ha. apply Hl. by eapply live_spec.
  - destruct Ht as [->|[-> [->| ->]]]; [lia| |lia].
    pose proof (lastUse_spec (sessions (rt_db s)) (index_key scope.1 scope.2)) as Hu.
    destruct (ix_lastUse _ !! _) as [u|]; [|cbn in Hle; lia]. cbn in Hu, Hle. destruct Hu as [He Hall].
    split; [done|]. intros x [Hx Hk]. specialize (Hall x Hx Hk). lia.
Qed.

(** A preview removes, stamps and records nothing. *)
Theorem preview_keeps_every_scope faults days now s scope :
  sd_scopes (rt_disk (sweepExpiredScopes faults days true now s).2) !! scope = sd_scopes (rt_disk s) !! scope.
Proof. by apply (swept_kept _ _ _ _ _ _ (sweep_swept faults days true now s)). Qed.

(** ** Concrete runs *)

Definition no_faults : Faults := mkFaults false (λ _, false) (λ _, Stamped) (λ _, false) (λ _, Removed).
Definition gone_user : Session :=
  mkSession "s1" "g" None None (Some "feishu:ou_1") (Some "s1") None None archived stopped (Some 0) (Some 0) 0 0.
Definition user_dir : string * string := ("g", userScopeKey "feishu:ou_1").
Definition disk_of (marker : option time) : Retention :=
  mkRetention (set_sessions [gone_user] emptyDb) (mkScopeDisk (Some ["g"]) {[ user_dir := marker ]}) ∅.

(** The scope of a user last seen forty days ago, never stamped. *)
Example scopes_expire_witness :
  let s' := (sweepExpiredScopes no_faults 30 false (40 * 86400000) (disk_of None)).2 in
  sd_scopes (rt_disk s') !! user_dir = None ∧
  (user_dir.1 +:+ "/" +:+ user_dir.2 ∈ rt_audited (disk_of None) ∨ recorded (index_key user_dir.1 user_dir.2) (rt_db s')).
Proof.
  intros s'. assert (sd_scopes (rt_disk s') !! user_dir = None) as Hn by (vm_compute; reflexivity).
  split; [exact Hn|].
  refine (proj2 (proj2 (scopes_expire_only_when_abandoned no_faults 30 false (40 * 86400000) (disk_of None)
    user_dir None _ _ Hn))); [lia|]. vm_compute. reflexivity.
Defined.



(** Two users can share one private scope.  The directory of a user is
    documented to be collision-proof; it is made of 24 characters of the id,
    without case and punctuation, and of 32 bits of its hash.  For these two
    ids it is the same, so their sessions mount the same memory, the same
    conversations and the same working files. *)
Theorem users_share_a_scope DATA_DIR GROUPS_DIR agent :
  let user1 := "matrix:@service-desk-contact-52138:example.org" in
  let user2 := "matrix:@service-desk-contact-129862:example.org" in
  let session id user := plain_session id (ag_id agent) None None (Some user) None in
  user1 ≠ user2 ∧
  resolveStateScope DATA_DIR GROUPS_DIR agent (session "s1" user1) =
    resolveStateScope DATA_DIR GROUPS_DIR agent (session "s2" user2).
Proof.
  intros user1 user2 session. split; [discriminate|].
  assert (userScopeKey user1 = userScopeKey user2) as E by (vm_compute; reflexivity).
  unfold resolveStateScope.
  change (s_owner_user_id (session "s1" user1)) with (Some user1).
  change (s_owner_user_id (session "s2" user2)) with (Some user2).
  change (truthy (Some user1)) with true. change (truthy (Some user2)) with true.
  change (default "" (Some user1)) with user1. change (default "" (Some user2)) with user2.
  cbn [negb]. rewrite E. reflexivity.
Qed.
