(* ===== verification/HostSweep.v ===== *)
(** * The host sweep (src/host-sweep.ts)

    Once a minute: the acknowledgements of every active session are synced, a
    container is woken for due work, a stuck one is killed and its messages are
    scheduled again, recurring tasks are renewed; then the tables are pruned and
    the idle sessions archived.  At an await the containers, the router and the
    delivery act: a [SweepTurn] is what they did. *)
From S2P Require Import Prelude JsString Json Types Central Permissions DmGrants SessionDb ContainerDb Tasks AdmissionQueue ContainerSlots Sessions Destinations Fs Attachments SessionManager Classification ProxyTokens SessionArchive ScopeRetention.
From Stdlib Require Import QArith Ascii.

Local Open Scope string_scope.
Local Open Scope Z_scope.
Local Open Scope list_scope.
Local Open Scope prog_scope.

Definition INBOUND_DEDUP_TTL_MS : Z := 24 * 60 * 60000.
Definition PROXY_TOKEN_PURGE_TTL_MS : Z := 24 * 60 * 60000.
Definition COST_WINDOW_SEC : Z := 300.
Definition CLAIM_STUCK_MS : Z := 60 * 1000.
Definition MAX_TRIES : Z := 5.
Definition BACKOFF_BASE_MS : Z := 5000.
Definition day_ms : Z := 24 * 60 * 60000.

(** [CONTAINER_TIMEOUT || 30 * 60 * 1000], at least a minute. *)
(*@ src/src/host-sweep.ts 153-153 ABSOLUTE_CEILING_MS *)
Definition ceiling_of (CONTAINER_TIMEOUT : Z) : Z :=
  Z.max 60000 (if CONTAINER_TIMEOUT =? 0 then 30 * 60 * 1000 else CONTAINER_TIMEOUT).

(** ** Times of the databases *)

Definition digit (c : ascii) : bool :=
  (48 <=? nat_of_ascii c)%nat && (nat_of_ascii c <=? 57)%nat.
Fixpoint has_zulu (s : string) : bool :=
  match s with
  | EmptyString => false
  | String c s' => bool_decide (c = "z"%char) || bool_decide (c = "Z"%char) || has_zulu s'
  end.
(** [/[+-]\d{2}:?\d{2}$/] at this position. *)
Definition is_offset (s : string) : bool :=
  match String.list_ascii_of_string s with
  | [g; a; b; c; d] =>
      (bool_decide (g = "+"%char) || bool_decide (g = "-"%char)) && digit a && digit b && digit c && digit d
  | [g; a; b; k; c; d] =>
      (bool_decide (g = "+"%char) || bool_decide (g = "-"%char)) && digit a && digit b &&
      bool_decide (k = ":"%char) && digit c && digit d
  | _ => false
  end.
Fixpoint ends_in_offset (s : string) : bool :=
  is_offset s || match s with EmptyString => false | String _ s' => ends_in_offset s' end.

(** The text that is parsed. *)
(*@ src/src/host-sweep.ts 78-80 parseSqliteUtc *)
Definition zoned (s : string) : string := if has_zulu s || ends_in_offset s then s else s +:+ "Z".

(** ** Decisions *)

(*@ src/src/host-sweep.ts 160-163 StuckDecision *)
Inductive StuckDecision :=
| StuckOk
| KillCeiling (heartbeatAgeMs ceilingMs : Z)
| KillClaim (messageId : string) (claimAgeMs toleranceMs : Z).

(*@ src/src/host-sweep.ts 505-508 bashTimeoutMs *)
Definition bashTimeoutMs (state : option ContainerState) : option Z :=
  match state with
  | Some st => if bool_decide (cs_current_tool st = Some "Bash") then cs_tool_declared_timeout_ms st else None
  | None => None
  end.

(** [ceilingMs] is ABSOLUTE_CEILING_MS; a missing heartbeat is [0]. *)
(*@ src/src/host-sweep.ts 195-203 decideStuckAction *)
Fixpoint stuck_claim (now heartbeatMtimeMs tolerance : Z) (claims : list AckRow) : StuckDecision :=
  match claims with
  | [] => StuckOk
  | claim :: rest =>
      let claimedAt := ak_status_changed claim * 1000 in
      let claimAge := now - claimedAt in
      if claimAge <=? tolerance then stuck_claim now heartbeatMtimeMs tolerance rest
      else if claimedAt <? heartbeatMtimeMs then stuck_claim now heartbeatMtimeMs tolerance rest
      else KillClaim (ak_message_id claim) claimAge tolerance
  end.
(*@ src/src/host-sweep.ts 170-206 decideStuckAction *)
Definition decideStuckAction (ceilingMs now heartbeatMtimeMs : Z) (containerState : option ContainerState)
    (claims : list AckRow) : StuckDecision :=
  let declaredBashMs := default 0 (bashTimeoutMs containerState) in
  let ceiling := Z.max ceilingMs declaredBashMs in
  let heartbeatAge := now - heartbeatMtimeMs in
  if negb (heartbeatMtimeMs =? 0) && (ceiling <? heartbeatAge) then KillCeiling heartbeatAge ceiling
  else stuck_claim now heartbeatMtimeMs (Z.max CLAIM_STUCK_MS declaredBashMs) claims.

(** ** The state of a sweep *)

Record SweepTurn := mkSweepTurn {
  st_now : time;
  st_world : World → World;
  st_slots : Slots → Slots;
  st_beats : gmap (string * string) time → gmap (string * string) time }.

(** A call of [killContainer]: the session, the reason, the time, and what the
    decision was made on: the heartbeat and the databases. *)
Record Kill := mkKill {
  k_session : Session;
  k_reason : string;
  k_at : time;
  k_beat : time;
  k_slots : Slots;
  k_world : World }.

Record Sweeper := mkSweeper {
  sw_arch : Archiver;
  sw_disk : ScopeDisk;
  sw_audited : gset string;
  sw_slots : Slots;
  sw_beats : gmap (string * string) time;
  sw_turn : nat;
  sw_running : bool;
  sw_kills : list Kill;
  sw_scheduled : nat }.
Definition swM (A : Type) : Type := prog Sweeper exn A.
Definition sw_world (s : Sweeper) : World := ar_world (sw_arch s).

Definition set_arch (a : Archiver) (s : Sweeper) : Sweeper :=
  mkSweeper a (sw_disk s) (sw_audited s) (sw_slots s) (sw_beats s) (sw_turn s) (sw_running s) (sw_kills s)
    (sw_scheduled s).
Definition set_slots (v : Slots) (s : Sweeper) : Sweeper :=
  mkSweeper (sw_arch s) (sw_disk s) (sw_audited s) v (sw_beats s) (sw_turn s) (sw_running s) (sw_kills s)
    (sw_scheduled s).
Definition add_kill (k : Kill) (s : Sweeper) : Sweeper :=
  mkSweeper (sw_arch s) (sw_disk s) (sw_audited s) (sw_slots s) (sw_beats s) (sw_turn s) (sw_running s)
    (sw_kills s ++ [k]) (sw_scheduled s).
Definition schedule (s : Sweeper) : Sweeper :=
  mkSweeper (sw_arch s) (sw_disk s) (sw_audited s) (sw_slots s) (sw_beats s) (sw_turn s) (sw_running s)
    (sw_kills s) (S (sw_scheduled s)).

(** Programs over a part of the state. *)
Definition in_world {A} (m : wM A) : swM A :=
  λ s, let '(r, a) := on_world m (sw_arch s) in (r, set_arch a s).
Definition in_archiver {A} (m : arM A) : swM A :=
  λ s, let '(r, a) := m (sw_arch s) in (r, set_arch a s).
Definition in_retention {A} (m : rtM A) : swM A :=
  λ s, let '(r, t) := m (mkRetention (w_db (sw_world s)) (sw_disk s) (sw_audited s)) in
       (r, mkSweeper (set_ar_world (set_db (rt_db t) (sw_world s)) (sw_arch s)) (rt_disk t) (rt_audited t)
             (sw_slots s) (sw_beats s) (sw_turn s) (sw_running s) (sw_kills s) (sw_scheduled s)).
Definition db_of {A} (f : CentralDb → A) : swM A := gets (λ s, f (w_db (sw_world s))).

(** [try { m } catch { log }] *)
Definition logged (m : swM unit) : swM unit := try_catch m (λ _, ret tt).

(** ** Stuck messages *)

(** One claim whose container is gone; [date_parse] is [Date.parse] on a text
    neither the host nor SQLite wrote. *)
Section retry.
Context (date_parse : string → option time).

(*@ src/src/host-sweep.ts 78-80 parseSqliteUtc *)
Definition parseSqliteUtc (t : stext) : option time :=
  match t with
  | TIso ms => Some ms
  | TSql sec => Some (sec * 1000)
  | TText s => date_parse (zoned s)
  end.

(** [msg.processAfter && parseSqliteUtc(msg.processAfter) > now] *)
Definition rescheduled (now : time) (msg : MessageIn) : bool :=
  match mi_process_after msg with
  | None => false
  | Some t => negb (bool_decide (text_of t = "")) &&
              match parseSqliteUtc t with Some at_ => now <? at_ | None => false end
  end.

(*@ src/src/host-sweep.ts 585-617 resetStuckProcessingRows *)
Definition reset_claim (now : time) (message_id : string) : inM unit :=
  let* msg := gets (getMessageForRetry message_id RPending) in
  match msg with
  | None => ret tt
  | Some msg =>
      if rescheduled now msg then ret tt
      else if MAX_TRIES <=? mi_tries msg then markMessageFailed (mi_id msg)
      else retryWithBackoff now (mi_id msg) (BACKOFF_BASE_MS * 2 ^ mi_tries msg / 1000)
  end.
End retry.

(** ** Token spend *)

(** The value of a number literal with a fraction or an exponent. *)
Section tokens.
Context (frac_value : string → Q).

Definition row_tokens (content : string) : Q :=
  match JSON_parse content with
  | Some (JObj c) =>
      match obj_get "totalTokens" c with
      | Some (JNum n) => inject_Z n
      | Some (JFrac lit) => frac_value lit
      | _ => 0
      end
  | _ => 0
  end.
(*@ src/src/host-sweep.ts 128-143 recentTokenUsage *)
Definition recentTokenUsage (windowSec : Z) (now : time) (d : OutboundDb) : Q :=
  fold_left (λ total r, (total + row_tokens (mo_content r))%Q)
    (sql_where (λ r, bool_decide (mo_kind r = "llm-usage") &&
                     text_leb (TSql (sql_now now - Z.max 1 windowSec)) (mo_timestamp r)) (messages_out d)) 0%Q.
End tokens.

(** ** One session *)

(** CONTAINER_TIMEOUT and the settings of the sweep, [0] when off. *)
Record Settings := mkSettings {
  CONTAINER_TIMEOUT : Z;
  SESSION_TOKEN_BUDGET_PER_MIN : Z;
  AUDIT_RETAIN_DAYS : Z;
  APPROVAL_EXPIRY_DAYS : Z;
  PENDING_QUESTION_RETAIN_DAYS : Z;
  scopeDays : Z;
  scopePreview : bool;
  ttlDays : Z;
  hardDays : Z }.

Section sweep.
Context (sqlite_datetime : string → option Z) (date_parse : string → option time)
  (frac_value : string → Q) (cron_next : string → time → option time) (random : string → string).
Context (cfg : Settings) (cap : nat) (DATA_DIR : list string).
(** What happens at the awaits, how each archive run ends, and what fails in the
    retention of scopes. *)
Context (turns : nat → SweepTurn) (ends : nat → TarEnd) (faults : Faults).

Definition sw_clock : swM time := gets (λ s, st_now (turns (sw_turn s))).
Definition sw_await : swM unit :=
  modify (λ s, let t := turns (sw_turn s) in
    mkSweeper (set_ar_world (st_world t (sw_world s)) (sw_arch s)) (sw_disk s) (sw_audited s)
      (st_slots t (sw_slots s)) (st_beats t (sw_beats s)) (S (sw_turn s)) (sw_running s) (sw_kills s)
      (sw_scheduled s)).

(** [statSync(...).mtimeMs], [0] when there is no file. *)
(*@ src/src/host-sweep.ts 496-503 heartbeatMtimeMs *)
Definition heartbeatMtimeMs (key : string * string) (s : Sweeper) : time := default 0 (sw_beats s !! key).

(** The claims are dropped even when the container runs again. *)
(*@ src/src/host-sweep.ts 576-636 resetStuckProcessingRows *)
Definition resetStuckProcessingRows (key : string * string) : swM unit :=
  let* claims := in_world (out_get key getProcessingClaims) in
  let* now := sw_clock in
  for_each claims (λ claim, in_world (inbound key (reset_claim date_parse now (ak_message_id claim)))) ;;
  logged (in_world (outbound key deleteOrphanProcessingClaims ;; ret tt)).

(** [await killContainer(...)] and the reset of what it was at. *)
Definition kill_and_reset (key : string * string) (session : Session) (reason : string) : swM unit :=
  let* now := sw_clock in
  modify (λ s, add_kill (mkKill session reason now (heartbeatMtimeMs key s) (sw_slots s) (sw_world s)) s) ;;
  modify (λ s, set_slots (killContainer (s_id session) (sw_slots s)) s) ;;
  sw_await ;;
  resetStuckProcessingRows key.

(*@ src/src/host-sweep.ts 510-565 enforceRunningContainerSla *)
Definition enforceRunningContainerSla (key : string * string) (session : Session) : swM unit :=
  let* now := sw_clock in
  let* over := (if 0 <? SESSION_TOKEN_BUDGET_PER_MIN cfg then
                  let* used := in_world (out_get key (recentTokenUsage frac_value COST_WINDOW_SEC now)) in
                  ret (negb (Qle_bool used (inject_Z (SESSION_TOKEN_BUDGET_PER_MIN cfg * (COST_WINDOW_SEC / 60)))))
                else ret false) in
  if over : bool then kill_and_reset key session "cost-ceiling"
  else
    let* beat := gets (heartbeatMtimeMs key) in
    let* state := in_world (out_get key getContainerState) in
    let* claims := in_world (out_get key getProcessingClaims) in
    match decideStuckAction (ceiling_of (CONTAINER_TIMEOUT cfg)) now beat state claims with
    | StuckOk => ret tt
    | KillCeiling _ _ => kill_and_reset key session "absolute-ceiling"
    | KillClaim _ _ _ => kill_and_reset key session "claim-stuck"
    end.

Definition is_running (sessionId : string) : swM bool := gets (λ s, isContainerRunning (sw_slots s) sessionId).

(** A database that is not there cannot be opened; [outDb] is opened once. *)
(*@ src/src/host-sweep.ts 429-494 sweepSession *)
Definition sweepSession (session : Session) : swM unit :=
  let* agentGroup := db_of (λ db, getAgentGroup db (s_agent_group_id session)) in
  match agentGroup with
  | None => ret tt
  | Some agentGroup =>
      let key := (ag_id agentGroup, s_id session) in
      let* inDb := gets (λ s, bool_decide (is_Some (w_in (sw_world s) !! key))) in
      if negb inDb then ret tt
      else
        let* outDb := gets (λ s, w_out (sw_world s) !! key) in
        let opened := bool_decide (is_Some outDb) in
        match outDb with
        | Some out => in_world (inbound key (syncProcessingAcks out))
        | None => ret tt
        end ;;
        let* now := sw_clock in
        let* dueCount := in_world (in_get key (countDueMessages sqlite_datetime now)) in
        let* busy := is_running (s_id session) in
        (if (0 <? dueCount)%nat && negb busy then
           modify (λ s, set_slots (wakeContainer cap now session (sw_slots s)).2 s) ;; sw_await
         else ret tt) ;;
        let* alive := is_running (s_id session) in
        (if alive && opened then enforceRunningContainerSla key session else ret tt) ;;
        (if negb alive && opened then resetStuckProcessingRows key else ret tt) ;;
        sw_await ;;
        let* now := sw_clock in
        in_world (inbound key (handleRecurrence cron_next random now))
  end.

(** ** All of them *)

(** The sessions swept, and the ones that threw. *)
(*@ src/src/host-sweep.ts 246-267 sweepEachSession *)
Fixpoint sweepEachSession {S E} (sessions : list Session) (sweepOne : Session → prog S E unit)
    : prog S E (nat * nat) :=
  match sessions with
  | [] => ret (0, 0)%nat
  | session :: rest =>
      let* ok := try_catch (sweepOne session ;; ret true) (λ _, ret false) in
      let* others := sweepEachSession rest sweepOne in
      ret (if ok : bool then (Datatypes.S others.1, others.2) else (others.1, Datatypes.S others.2))
  end.

(** A purge of one table, which no other part of the sweep sees fail. *)
Definition purged (m : time → dbM nat) : swM unit :=
  logged (let* now := sw_clock in in_world (central (m now)) ;; ret tt).

(*@ src/src/host-sweep.ts 350-365 sweep *)
Definition expire_approvals : swM unit :=
  if 0 <? APPROVAL_EXPIRY_DAYS cfg then
    logged (
      let* now := sw_clock in
      let* expired := in_world (central (expireStalePendingApprovals (APPROVAL_EXPIRY_DAYS cfg * day_ms) now)) in
      for_each expired (λ r, in_world (central (recordEnterpriseAudit now "approval_expired" None
        (pa_agent_group_id r) None
        (Some (JObj [("approvalId", JStr (pa_approval_id r)); ("action", JStr (pa_action r));
                     ("expiryDays", JNum (APPROVAL_EXPIRY_DAYS cfg))]))))))
  else ret tt.

(*@ src/src/host-sweep.ts 269-396 sweep *)
Definition sweep : swM unit :=
  let* on := gets sw_running in
  if negb on then ret tt
  else
    logged (let* active_ := db_of getActiveSessions in
            sweepEachSession active_ sweepSession ;; ret tt) ;;
    purged (pruneInboundDedup INBOUND_DEDUP_TTL_MS) ;;
    logged (let* there := db_of (λ db, hasTable db "gateway_proxy_token") in
            if there : bool then purged (purgeStaleProxyTokens PROXY_TOKEN_PURGE_TTL_MS) else ret tt) ;;
    (if 0 <? AUDIT_RETAIN_DAYS cfg then
       let olderThanMs := AUDIT_RETAIN_DAYS cfg * day_ms in
       for_each [purgeGatewayAudit; purgeClassificationLog; purgeEnterpriseAudit; purgeDmAudit]
         (λ purge, purged (purge olderThanMs))
     else ret tt) ;;
    logged (let* now := sw_clock in
            in_retention (sweepExpiredScopes faults (scopeDays cfg) (scopePreview cfg) now) ;; ret tt) ;;
    expire_approvals ;;
    (if 0 <? PENDING_QUESTION_RETAIN_DAYS cfg
     then purged (deleteStalePendingQuestions (PENDING_QUESTION_RETAIN_DAYS cfg * day_ms)) else ret tt) ;;
    logged (let* now := sw_clock in
            in_archiver (runSessionLifecycleSweep DATA_DIR (ttlDays cfg) (hardDays cfg) ends now) ;; ret tt) ;;
    modify schedule.
End sweep.
