(* ===== verification/HostSweepProofs.v ===== *)
(** * The host sweep kills only what is stuck, and comes back

    The decision; what the reset does to the messages of a stuck container; that
    a failing session stops no other; and runs of one sweep. *)
From S2P Require Import Prelude JsString Json Types Central Permissions DmGrants SessionDb ContainerDb Tasks AdmissionQueue ContainerSlots SessionDbProofs Sessions Destinations Fs Attachments SessionManager Classification ProxyTokens SessionArchive ScopeRetention HostSweep.
From Stdlib Require Import QArith.

Local Open Scope string_scope.
Local Open Scope Z_scope.
Local Open Scope list_scope.
Local Open Scope prog_scope.

(** ** The decision *)

(** The heartbeat is too old; the claim is too old and nothing was heard since. *)
Definition too_old (ceilingMs now beat : Z) (state : option ContainerState) : Prop :=
  beat ≠ 0 ∧ Z.max ceilingMs (default 0 (bashTimeoutMs state)) < now - beat.
Definition silent_since (now beat : Z) (state : option ContainerState) (claim : AckRow) : Prop :=
  let claimedAt := ak_status_changed claim * 1000 in
  Z.max CLAIM_STUCK_MS (default 0 (bashTimeoutMs state)) < now - claimedAt ∧ beat <= claimedAt.

Lemma stuck_claim_spec now beat tolerance claims :
  match stuck_claim now beat tolerance claims with
  | StuckOk => Forall (λ c, ¬ (tolerance < now - ak_status_changed c * 1000 ∧ beat <= ak_status_changed c * 1000)) claims
  | KillCeiling _ _ => False
  | KillClaim id age t => t = tolerance ∧ ∃ pre c post, claims = pre ++ c :: post ∧
      Forall (λ c, ¬ (tolerance < now - ak_status_changed c * 1000 ∧ beat <= ak_status_changed c * 1000)) pre ∧
      (tolerance < now - ak_status_changed c * 1000 ∧ beat <= ak_status_changed c * 1000) ∧
      id = ak_message_id c ∧ age = now - ak_status_changed c * 1000
  end.
Proof.
  induction claims as [|c claims IH]; cbn; [done|].
  assert (¬ (tolerance < now - ak_status_changed c * 1000 ∧ beat <= ak_status_changed c * 1000) →
    match stuck_claim now beat tolerance claims with
    | StuckOk => Forall (λ c, ¬ (tolerance < now - ak_status_changed c * 1000 ∧ beat <= ak_status_changed c * 1000)) (c :: claims)
    | KillCeiling _ _ => False
    | KillClaim id age t => t = tolerance ∧ ∃ pre c' post, c :: claims = pre ++ c' :: post ∧
        Forall (λ c, ¬ (tolerance < now - ak_status_changed c * 1000 ∧ beat <= ak_status_changed c * 1000)) pre ∧
        (tolerance < now - ak_status_changed c' * 1000 ∧ beat <= ak_status_changed c' * 1000) ∧
        id = ak_message_id c' ∧ age = now - ak_status_changed c' * 1000
    end) as Hskip.
  { intros Hc. destruct (stuck_claim now beat tolerance claims); [by constructor|done|].
    destruct IH as (-> & pre & c' & post & -> & Hp & Hc' & Hid). split; [done|].
    exists (c :: pre), c', post. split; [done|]. split; [by constructor|done]. }
  destruct (Z.leb_spec (now - ak_status_changed c * 1000) tolerance); [apply Hskip; lia|].
  destruct (Z.ltb_spec (ak_status_changed c * 1000) beat); [apply Hskip; lia|].
  split; [done|]. exists [], c, claims. split_and!; try done.
Qed.

Lemma decision_spec ceilingMs now beat state claims :
  match decideStuckAction ceilingMs now beat state claims with
  | KillCeiling age ceiling =>
      too_old ceilingMs now beat state ∧ age = now - beat ∧
      ceiling = Z.max ceilingMs (default 0 (bashTimeoutMs state))
  | KillClaim id age tolerance =>
      ¬ too_old ceilingMs now beat state ∧
      ∃ before claim after, claims = before ++ claim :: after ∧
        Forall (λ c, ¬ silent_since now beat state c) before ∧ silent_since now beat state claim ∧
        id = ak_message_id claim ∧ age = now - ak_status_changed claim * 1000 ∧
        tolerance = Z.max CLAIM_STUCK_MS (default 0 (bashTimeoutMs state))
  | StuckOk => ¬ too_old ceilingMs now beat state ∧ Forall (λ c, ¬ silent_since now beat state c) claims
  end.
Proof.
  unfold decideStuckAction, too_old, silent_since.
  destruct (negb (beat =? 0) && _) eqn:E.
  - to_prop. apply Z.eqb_neq in H. apply Z.ltb_lt in H0. done.
  - assert (¬ (beat ≠ 0 ∧ Z.max ceilingMs (default 0 (bashTimeoutMs state)) < now - beat)) as Hn.
    { intros [H1 H2]. apply Z.eqb_neq in H1. apply Z.ltb_lt in H2. by rewrite H1, H2 in E. }
    pose proof (stuck_claim_spec now beat (Z.max CLAIM_STUCK_MS (default 0 (bashTimeoutMs state))) claims) as H.
    destruct (stuck_claim _ _ _ _); [done|done|].
    destruct H as (-> & pre & c & post & ? & ? & ? & ? & ?). split; [done|]. by exists pre, c, post.
Qed.

(** A running container is killed exactly when it is stuck.  With the
    ceiling and the tolerance raised to the timeout a running Bash command
    declares, the decision is to kill at the ceiling when there is a heartbeat
    older than the ceiling; otherwise to kill for the first claimed message
    that is older than the tolerance with no heartbeat since the claim; and to
    leave the container alone when there is neither. *)
Theorem stuck_decision_exact ceilingMs now beat state claims :
  match decideStuckAction ceilingMs now beat state claims with
  | KillCeiling age ceiling =>
      too_old ceilingMs now beat state ∧ age = now - beat ∧
      ceiling = Z.max ceilingMs (default 0 (bashTimeoutMs state))
  | KillClaim id age tolerance =>
      ¬ too_old ceilingMs now beat state ∧
      ∃ before claim after, claims = before ++ claim :: after ∧
        Forall (λ c, ¬ silent_since now beat state c) before ∧ silent_since now beat state claim ∧
        id = ak_message_id claim ∧ age = now - ak_status_changed claim * 1000 ∧
        tolerance = Z.max CLAIM_STUCK_MS (default 0 (bashTimeoutMs state))
  | StuckOk => ¬ too_old ceilingMs now beat state ∧ Forall (λ c, ¬ silent_since now beat state c) claims
  end.
Proof. apply decision_spec. Qed.

(** ** The reset *)

Lemma pad_nonempty w n acc : acc ≠ "" → pad w n acc ≠ "".
Proof. revert n acc. induction w as [|w IH]; intros n acc H; cbn; [done|]. by apply IH. Qed.
Lemma text_of_sql sec : text_of (TSql sec) ≠ "".
Proof. unfold text_of, date_text. destruct (civil_from_days (sec / 86400)) as [[y m] d]. by apply pad_nonempty. Qed.

Section reset.
Context (date_parse : string → option time) (now : time).

(** What the reset makes of a row, when its message is claimed. *)
Definition reset_row (claimed : string → bool) (r : MessageIn) : MessageIn :=
  if claimed (mi_id r) && bool_decide (mi_status r = RPending) && negb (rescheduled date_parse now r) then
    if MAX_TRIES <=? mi_tries r then with_status RFailed r
    else with_retry (mi_tries r + 1) (Some (TSql (sql_now now + 5 * 2 ^ mi_tries r))) r
  else r.

(** One row per id, tried between none and five times. *)
Definition retry_ok (rows : list MessageIn) : Prop :=
  keys_unique mi_id rows ∧ ∀ r, r ∈ rows → 0 <= mi_tries r <= MAX_TRIES.

Lemma reset_row_id claimed r : mi_id (reset_row claimed r) = mi_id r.
Proof. unfold reset_row. by repeat destruct_if. Qed.
Lemma reset_row_ok claimed rows : retry_ok rows → retry_ok (map (reset_row claimed) rows).
Proof.
  intros [Hu Ht]. split.
  - unfold keys_unique in *. rewrite map_map.
    by rewrite (map_ext (λ r, mi_id (reset_row claimed r)) mi_id) by apply reset_row_id.
  - intros r (r0 & -> & Hr)%list_elem_of_fmap. specialize (Ht r0 Hr). unfold reset_row, MAX_TRIES in *.
    repeat destruct_if; cbn; lia.
Qed.

(** A message that has just been scheduled is left alone. *)
Lemma reset_row_twice p q r :
  0 <= mi_tries r → reset_row p (reset_row q r) = reset_row (λ id, q id || p id) r.
Proof.
  intros Ht. unfold reset_row at 2 3. destruct (q (mi_id r)) eqn:Eq; cbn [andb orb].
  2:{ done. }
  destruct (bool_decide (mi_status r = RPending)) eqn:Es; cbn [andb].
  2:{ unfold reset_row. by rewrite Es, andb_false_r. }
  destruct (rescheduled date_parse now r) eqn:Er; cbn [negb].
  { unfold reset_row. by rewrite Er, andb_false_r. }
  destruct (MAX_TRIES <=? mi_tries r) eqn:Em.
  { unfold reset_row. cbn. by rewrite andb_false_r. }
  unfold reset_row at 1. assert (rescheduled date_parse now (with_retry (mi_tries r + 1)
    (Some (TSql (sql_now now + 5 * 2 ^ mi_tries r))) r) = true) as ->; [|by rewrite andb_false_r].
  unfold rescheduled. cbn [mi_process_after with_retry parseSqliteUtc].
  rewrite (bool_decide_eq_false_2 _ (text_of_sql _)). cbn. apply Z.ltb_lt. unfold sql_now.
  pose proof (Z.pow_pos_nonneg 2 (mi_tries r)). pose proof (Z.mod_pos_bound now 1000).
  pose proof (Z.div_mod now 1000). lia.
Qed.

Lemma reset_claim_eq id d :
  keys_unique mi_id (messages_in d) → (∀ r, r ∈ messages_in d → 0 <= mi_tries r) →
  reset_claim date_parse now id d =
    (Ok tt, set_messages_in (map (reset_row (λ i, bool_decide (i = id))) (messages_in d)) d).
Proof.
  intros Hu Ht. unfold reset_claim. rewrite bind_gets. unfold getMessageForRetry.
  set (f := reset_row (λ i, bool_decide (i = id))).
  assert ((∀ r, r ∈ messages_in d → f r = r) →
    (Ok tt, d) = (@Ok exn unit tt, set_messages_in (map f (messages_in d)) d)) as Hsame.
  { intros H. rewrite (map_ext_in f (λ r, r)) by (intros r Hr; apply H; by apply list_elem_of_In).
    rewrite map_id. by destruct d. }
  destruct (sql_first _ (messages_in d)) as [msg|] eqn:E.
  - apply sql_first_Some in E as [Hin Hp]. unfold has_id in Hp. to_prop. subst id.
    assert (∀ r, r ∈ messages_in d → bool_decide (mi_id r = mi_id msg) = true → r = msg) as Hmsg.
    { intros r Hr Hid. to_prop. by eapply keys_unique_eq. }
    destruct (rescheduled date_parse now msg) eqn:Er.
    { apply Hsame. intros r Hr. subst f. unfold reset_row. destruct (bool_decide (mi_id r = _)) eqn:Ei; [|done].
      apply Hmsg in Ei as ->; [|done]. by rewrite Er, andb_false_r. }
    assert (∀ g, (∀ r, r = msg → f r = g r) →
      (update_in (has_id (mi_id msg)) g ;; ret tt) d = (@Ok exn unit tt, set_messages_in (map f (messages_in d)) d)) as Hupd.
    { intros g Hg. unfold update_in, bind, gets, modify, ret. cbn. do 2 f_equal.
      unfold sql_update. apply map_ext_in. intros r Hr%list_elem_of_In. unfold has_id.
      destruct (bool_decide (mi_id r = mi_id msg)) eqn:Ei; [symmetry; by apply Hg, Hmsg|].
      subst f. unfold reset_row. by rewrite Ei. }
    assert (∀ r, r = msg → f r = if MAX_TRIES <=? mi_tries msg then with_status RFailed r
      else with_retry (mi_tries msg + 1) (Some (TSql (sql_now now + 5 * 2 ^ mi_tries msg))) r) as Hf.
    { intros r ->. subst f. unfold reset_row. rewrite Er, !bool_decide_eq_true_2 by done. done. }
    assert (BACKOFF_BASE_MS * 2 ^ mi_tries msg / 1000 = 5 * 2 ^ mi_tries msg) as Hb.
    { unfold BACKOFF_BASE_MS. replace (5000 * 2 ^ mi_tries msg) with (5 * 2 ^ mi_tries msg * 1000) by lia.
      by rewrite Z.div_mul. }
    destruct (MAX_TRIES <=? mi_tries msg); [by apply Hupd|].
    unfold retryWithBackoff. rewrite Hb. apply Hupd. intros r ->. by rewrite Hf.
  - apply Hsame. intros r Hr. pose proof (sql_first_None _ _ _ E Hr) as H. unfold has_id in H.
    subst f. unfold reset_row. by rewrite H.
Qed.

Lemma reset_claims_eq ids d :
  retry_ok (messages_in d) →
  for_each ids (reset_claim date_parse now) d =
    (Ok tt, set_messages_in (map (reset_row (λ i, bool_decide (i ∈ ids))) (messages_in d)) d).
Proof.
  revert d. induction ids as [|id ids IH]; intros d Hok; cbn [for_each].
  - unfold ret. f_equal. rewrite (map_ext_in _ (λ r, r)).
    + rewrite map_id. by destruct d.
    + intros r _. unfold reset_row. by rewrite bool_decide_eq_false_2 by apply not_elem_of_nil.
  - rewrite bind_case, reset_claim_eq; [|apply Hok|intros r Hr; destruct Hok as [_ Ht]; specialize (Ht r Hr); lia].
    rewrite IH by (cbn; by apply reset_row_ok). f_equal.
    match goal with |- set_messages_in ?l _ = _ => transitivity (set_messages_in l d); [done|] end. f_equal.
    cbn [messages_in set_messages_in]. rewrite map_map. apply map_ext_in. intros r Hr%list_elem_of_In.
    rewrite reset_row_twice by (destruct Hok as [_ Ht]; specialize (Ht r Hr); lia).
    unfold reset_row. rewrite (bool_decide_ext (mi_id r ∈ id :: ids) (mi_id r = id ∨ mi_id r ∈ ids))
      by apply elem_of_cons.
    by rewrite bool_decide_or.
Qed.
End reset.

(** A read of outbound.db changes nothing. *)
Lemma out_get_eq {A} key (f : OutboundDb → A) s o :
  w_out (sw_world s) !! key = Some o → in_world (out_get key f) s = (Ok (f o), s).
Proof.
  unfold sw_world. intros H. unfold in_world, on_world, out_get, outbound. rewrite H. cbn. rewrite insert_id by done.
  by destruct s as [[[]]].
Qed.

(** [for_each] over one inbound.db of the world. *)
Lemma in_world_for_each {A} key (l : list A) (body : A → inM unit) s d d' :
  w_in (sw_world s) !! key = Some d → for_each l body d = (Ok tt, d') →
  ∃ s', for_each l (λ x, in_world (inbound key (body x))) s = (Ok tt, s') ∧
    w_in (sw_world s') !! key = Some d' ∧ w_out (sw_world s') = w_out (sw_world s) ∧
    sw_turn s' = sw_turn s.
Proof.
  revert s d. induction l as [|x l IH]; intros s d Hd; cbn [for_each].
  { intros [= <-]. by exists s. }
  rewrite bind_case. destruct (body x d) as [[[]|e] d1] eqn:E; [|done]. intros Hrest.
  rewrite bind_case. unfold in_world at 1, on_world, inbound. unfold sw_world in Hd. rewrite Hd, E. cbn.
  destruct (IH (set_arch (set_ar_world (set_in (<[key := d1]> (w_in (sw_world s))) (sw_world s)) (sw_arch s)) s) d1)
    as (s' & E' & Hi & Ho & Ht); [cbn; apply lookup_insert_eq|done|].
  exists s'. split; [exact E'|]. by rewrite Hi, Ho, Ht.
Qed.

(** Every message a dead container had claimed is scheduled again, once.
    The reset makes each claimed message that is pending and not already
    scheduled due after 5·2ⁿ seconds, where n is the number of its tries, and
    counts a try; the one with five tries becomes failed; every other row stays
    as it is, so that no message is tried more than five times.  No claim is
    left: a reset that follows finds nothing to do, and the container woken next
    is not taken for the dead one. *)
Theorem reset_schedules_every_claim date_parse turns key s d o :
  w_in (sw_world s) !! key = Some d → w_out (sw_world s) !! key = Some o → retry_ok (messages_in d) →
  let now := st_now (turns (sw_turn s)) in
  let claimed id := bool_decide (id ∈ map ak_message_id (getProcessingClaims o)) in
  let rows := map (reset_row date_parse now claimed) (messages_in d) in
  ∃ s', resetStuckProcessingRows date_parse turns key s = (Ok tt, s') ∧
    w_in (sw_world s') !! key = Some (set_messages_in rows d) ∧ retry_ok rows ∧
    (∃ o', w_out (sw_world s') !! key = Some o' ∧ getProcessingClaims o' = []) ∧
    map (reset_row date_parse now claimed) rows = rows.
Proof.
  intros Hd Ho Hok now claimed rows. unfold resetStuckProcessingRows.
  rewrite bind_case, (out_get_eq _ _ _ o) by done. unfold sw_clock. rewrite bind_gets, bind_case. fold now.
  destruct (in_world_for_each key (getProcessingClaims o) (λ c, reset_claim date_parse now (ak_message_id c)) s d
    (set_messages_in rows d) Hd) as (s2 & E & Hi & Hout & _).
  { rewrite <-(for_each_map ak_message_id). by apply reset_claims_eq. }
  assert (w_out (ar_world (sw_arch s2)) !! key = Some o) as Ho2 by (change (w_out (sw_world s2) !! key = Some o); by rewrite Hout).
  rewrite E.
  unfold logged, try_catch, in_world, on_world, bind at 1, outbound. rewrite Ho2. cbn.
  eexists. split; [done|]. cbn. rewrite lookup_insert_eq. split_and!.
  - exact Hi.
  - by apply reset_row_ok.
  - eexists. split; [done|]. unfold getProcessingClaims. cbn. unfold sql_where, sql_delete.
    induction (processing_ack o) as [|a l IH]; cbn; [done|].
    destruct (bool_decide (ak_status a = AProcessing)) eqn:Ea; cbn; [done|]. by rewrite Ea.
  - unfold rows. rewrite map_map. apply map_ext_in. intros r Hr%list_elem_of_In.
    rewrite reset_row_twice by (destruct Hok as [_ Ht]; specialize (Ht r Hr); lia).
    unfold reset_row. by rewrite orb_diag.
Qed.

(** ** What is killed *)

(** From [s], [m] kills only what satisfies [P]. *)
Definition kills_at {A} (P : Kill → Prop) (m : swM A) (s : Sweeper) : Prop :=
  ∃ l, sw_kills (m s).2 = sw_kills s ++ l ∧ Forall P l.
Definition kills {A} (P : Kill → Prop) (m : swM A) : Prop := ∀ s, kills_at P m s.

Create HintDb sweep.

Section kills.
Context (P : Kill → Prop).

Lemma kills_quiet {A} (m : swM A) : (∀ s, sw_kills (m s).2 = sw_kills s) → kills P m.
Proof. intros H s. exists []. by rewrite H, app_nil_r. Qed.
Lemma kills_ret {A} (a : A) : kills P (ret a).
Proof. by apply kills_quiet. Qed.
Lemma kills_throw {A} e : kills P (throw (A:=A) e).
Proof. by apply kills_quiet. Qed.
Lemma kills_gets {A} (f : Sweeper → A) : kills P (gets f).
Proof. by apply kills_quiet. Qed.
Lemma kills_db_of {A} (f : CentralDb → A) : kills P (db_of f).
Proof. by apply kills_quiet. Qed.
Lemma kills_is_running id : kills P (is_running id).
Proof. by apply kills_quiet. Qed.
Lemma kills_in_world {A} (m : wM A) : kills P (in_world m).
Proof. apply kills_quiet. intros s. unfold in_world. by destruct (on_world m _). Qed.
Lemma kills_in_archiver {A} (m : arM A) : kills P (in_archiver m).
Proof. apply kills_quiet. intros s. unfold in_archiver. by destruct (m _). Qed.
Lemma kills_in_retention {A} (m : rtM A) : kills P (in_retention m).
Proof. apply kills_quiet. intros s. unfold in_retention. by destruct (m _). Qed.
Lemma kills_await turns : kills P (sw_await turns).
Proof. by apply kills_quiet. Qed.
Lemma kills_set_slots f : kills P (modify (λ s, set_slots (f s) s)).
Proof. by apply kills_quiet. Qed.
Lemma kills_schedule : kills P (modify schedule).
Proof. by apply kills_quiet. Qed.
Lemma kills_at_bind {A B} (m : swM A) (k : A → swM B) s :
  kills_at P m s → (∀ a s1, m s = (Ok a, s1) → kills_at P (k a) s1) → kills_at P (bind m k) s.
Proof.
  intros (l1 & H1 & HP1) Hk. unfold kills_at. rewrite bind_case.
  destruct (m s) as [[a|e] s1]; simpl in *; [|by exists l1].
  destruct (Hk a s1 eq_refl) as (l2 & H2 & HP2). exists (l1 ++ l2).
  rewrite H2, H1, app_assoc. split; [done|]. by apply Forall_app.
Qed.
Lemma kills_bind {A B} (m : swM A) (k : A → swM B) :
  kills P m → (∀ a, kills P (k a)) → kills P (bind m k).
Proof. intros Hm Hk s. apply kills_at_bind; [apply Hm|]. intros a s1 _. apply Hk. Qed.
Lemma kills_try {A} (m : swM A) (k : exn → swM A) :
  kills P m → (∀ e, kills P (k e)) → kills P (try_catch m k).
Proof.
  intros Hm Hk s. destruct (Hm s) as (l1 & H1 & HP1). unfold kills_at, try_catch.
  destruct (m s) as [[a|e] s1]; simpl in *; [by exists l1|].
  destruct (Hk e s1) as (l2 & H2 & HP2). exists (l1 ++ l2).
  rewrite H2, H1, app_assoc. split; [done|]. by apply Forall_app.
Qed.
Lemma kills_logged m : kills P m → kills P (logged m).
Proof. intros H. apply kills_try; [done|]. intros e. apply kills_ret. Qed.
Lemma kills_for_each {A} (l : list A) (body : A → swM unit) :
  (∀ x, kills P (body x)) → kills P (for_each l body).
Proof. intros H. induction l; simpl; [apply kills_ret|]. by apply kills_bind. Qed.
Lemma kills_if {A} (b : bool) (m1 m2 : swM A) : kills P m1 → kills P m2 → kills P (if b then m1 else m2).
Proof. by destruct b. Qed.
End kills.
#[export] Hint Resolve kills_ret kills_throw kills_gets kills_db_of kills_is_running kills_in_world kills_in_archiver kills_in_retention
  kills_await kills_set_slots kills_schedule kills_bind kills_try kills_logged kills_for_each kills_if : sweep.

(** A step that kills nothing. *)
Ltac quiet :=
  lazymatch goal with |- kills_at ?P ?m ?s =>
    let H := fresh in assert (kills P m) as H by auto 10 with sweep; exact (H s)
  end.

Section only_stuck.
Context (sqlite_datetime : string → option Z) (date_parse : string → option time)
  (frac_value : string → Q) (cron_next : string → time → option time) (random : string → string)
  (cfg : Settings) (cap : nat) (DATA_DIR : list string)
  (turns : nat → SweepTurn) (ends : nat → TarEnd) (faults : Faults).

(** The container ran, and its session was over the token budget, too long
    silent, or silent since it claimed a message. *)
Definition justified (k : Kill) : Prop :=
  isContainerRunning (k_slots k) (s_id (k_session k)) = true ∧
  ∃ o, w_out (k_world k) !! (s_agent_group_id (k_session k), s_id (k_session k)) = Some o ∧
    (k_reason k = "cost-ceiling" ∧ 0 < SESSION_TOKEN_BUDGET_PER_MIN cfg ∧
       ¬ (recentTokenUsage frac_value COST_WINDOW_SEC (k_at k) o <=
          inject_Z (SESSION_TOKEN_BUDGET_PER_MIN cfg * 5))%Q ∨
     k_reason k = "absolute-ceiling" ∧
       too_old (ceiling_of (CONTAINER_TIMEOUT cfg)) (k_at k) (k_beat k) (container_state o) ∨
     k_reason k = "claim-stuck" ∧
       ∃ claim, claim ∈ getProcessingClaims o ∧ silent_since (k_at k) (k_beat k) (container_state o) claim).

Lemma kills_reset key : kills justified (resetStuckProcessingRows date_parse turns key).
Proof. unfold resetStuckProcessingRows, sw_clock. auto 10 with sweep. Qed.
Lemma kills_kill key session reason s :
  justified (mkKill session reason (st_now (turns (sw_turn s))) (heartbeatMtimeMs key s) (sw_slots s) (sw_world s)) →
  kills_at justified (kill_and_reset date_parse turns key session reason) s.
Proof.
  intros Hj. unfold kill_and_reset, sw_clock. apply kills_at_bind; [apply kills_gets|]. intros now s1 [= <- <-].
  apply kills_at_bind.
  - eexists [_]. split; [done|]. by apply Forall_singleton.
  - intros _ s1 _. apply kills_bind; [auto with sweep|]. intros _. apply kills_bind; [auto with sweep|].
    intros _. apply kills_reset.
Qed.

Lemma out_get_ok {A} key (f : OutboundDb → A) s a s' :
  in_world (out_get key f) s = (Ok a, s') → ∃ o, w_out (sw_world s) !! key = Some o ∧ a = f o ∧ s' = s.
Proof.
  intros H. destruct (w_out (sw_world s) !! key) as [o|] eqn:E.
  - rewrite (out_get_eq _ _ _ o E) in H. injection H as <- <-. eauto.
  - exfalso. revert H. unfold in_world, on_world, out_get, outbound. unfold sw_world in E. by rewrite E.
Qed.

Lemma kills_enforce session s :
  isContainerRunning (sw_slots s) (s_id session) = true →
  kills_at justified (enforceRunningContainerSla date_parse frac_value cfg turns
    (s_agent_group_id session, s_id session) session) s.
Proof.
  intros Hrun. unfold enforceRunningContainerSla. apply kills_at_bind; [apply kills_gets|]. intros now s0 [= <- <-].
  apply kills_at_bind; [quiet|]. intros over s1 Hover.
  assert (s1 = s ∧ (over = true → 0 < SESSION_TOKEN_BUDGET_PER_MIN cfg ∧
    ∃ o, w_out (sw_world s) !! (s_agent_group_id session, s_id session) = Some o ∧
      ¬ (recentTokenUsage frac_value COST_WINDOW_SEC (st_now (turns (sw_turn s))) o <=
         inject_Z (SESSION_TOKEN_BUDGET_PER_MIN cfg * 5))%Q)) as [-> Hcost].
  { destruct (Z.ltb_spec 0 (SESSION_TOKEN_BUDGET_PER_MIN cfg)); [|injection Hover as <- <-; done].
    apply bind_ok_inv in Hover as (used & s2 & (o & Ho & -> & ->)%out_get_ok & E). injection E as <- <-.
    split; [done|]. intros Hb. split; [done|]. exists o. split; [done|]. apply negb_true_iff in Hb.
    intros Hle%Qle_bool_iff. change (COST_WINDOW_SEC / 60) with 5 in Hb. congruence. }
  destruct over.
  { destruct (Hcost eq_refl) as (? & o & Ho & ?). apply kills_kill. split; [done|]. exists o. split; [done|]. by left. }
  apply kills_at_bind; [apply kills_gets|]. intros beat s0 [= <- <-].
  apply kills_at_bind; [quiet|]. intros state s1 (o & Ho & -> & ->)%out_get_ok.
  apply kills_at_bind; [quiet|]. intros claims s1 (o' & Ho' & -> & ->)%out_get_ok.
  rewrite Ho in Ho'. injection Ho' as <-.
  pose proof (decision_spec (ceiling_of (CONTAINER_TIMEOUT cfg)) (st_now (turns (sw_turn s)))
    (heartbeatMtimeMs (s_agent_group_id session, s_id session) s) (container_state o) (getProcessingClaims o)) as Hd.
  unfold getContainerState. destruct (decideStuckAction _ _ _ _ _).
  - apply kills_ret.
  - apply kills_kill. split; [done|]. exists o. split; [done|]. right. left.
    split; [done|]. exact (proj1 Hd).
  - destruct Hd as (_ & pre & c & post & Hc & _ & Hs & _). apply kills_kill. split; [done|]. exists o.
    split; [done|]. right. right. split; [done|]. exists c. split; [|exact Hs]. rewrite Hc. apply elem_of_app. right. left.
Qed.

Lemma kills_sweepSession session :
  kills justified (sweepSession sqlite_datetime date_parse frac_value cron_next random cfg cap turns session).
Proof.
  intros s. unfold sweepSession, sw_clock. apply kills_at_bind; [quiet|]. intros ag s1 E.
  injection E as <- <-. destruct (getAgentGroup _ _) as [agentGroup|] eqn:Eg; [|apply kills_ret].
  assert (ag_id agentGroup = s_agent_group_id session) as -> by (apply sql_first_Some in Eg as [_ Hid]; cbn in Hid; by to_prop).
  apply kills_at_bind; [quiet|]. intros inDb s1 _. destruct inDb; cbn [negb]; [|apply kills_ret].
  apply kills_at_bind; [quiet|]. intros outDb s2 _.
  apply kills_at_bind; [destruct outDb; quiet|]. intros _ s3 _.
  apply kills_at_bind; [quiet|]. intros now s4 _. apply kills_at_bind; [quiet|]. intros due s5 _.
  apply kills_at_bind; [quiet|]. intros busy s6 _. apply kills_at_bind; [quiet|]. intros _ s7 _.
  apply kills_at_bind; [quiet|]. intros alive s8 E. injection E as <- <-.
  apply kills_at_bind.
  - destruct (isContainerRunning _ _) eqn:Er; [|apply kills_ret].
    destruct (bool_decide _); [by apply kills_enforce|apply kills_ret].
  - intros _ s9 _. apply kills_at_bind; [destruct (negb _ && _); [apply kills_reset|quiet]|].
    intros _ s10 _. quiet.
Qed.
End only_stuck.

(** ** Failures *)

(** The sessions are swept one after the other, whatever each of them does. *)
Lemma sweepEach_spec {S E} (l : list Session) (f : Session → prog S E unit) s :
  ∃ n m, sweepEachSession l f s = (Ok (n, m), (for_each l (λ x, try_catch (f x) (λ _, ret tt)) s).2) ∧
    (n + m = length l)%nat.
Proof.
  revert s. induction l as [|x l IH]; intros s; cbn [sweepEachSession for_each length]; [by exists 0%nat, 0%nat|].
  rewrite !bind_case. unfold try_catch. rewrite bind_case.
  destruct (f x s) as [[[]|e] s1]; unfold ret at 1; cbv iota beta; rewrite bind_case;
    destruct (IH s1) as (n & m & E1 & Hlen); unfold try_catch in E1; rewrite E1; cbn.
  - exists (Datatypes.S n), m. split; [done|lia].
  - exists n, (Datatypes.S m). split; [done|lia].
Qed.

(** A step that always returns and keeps what the sweep has scheduled. *)
Definition steady (m : swM unit) : Prop :=
  ∀ s, ∃ s', m s = (Ok tt, s') ∧ sw_scheduled s' = sw_scheduled s.
(** ... and one that may throw. *)
Definition unscheduled {A} (m : swM A) : Prop := ∀ s, sw_scheduled (m s).2 = sw_scheduled s.

Lemma steady_logged m : unscheduled m → steady (logged m).
Proof.
  intros H s. unfold logged, try_catch. specialize (H s). destruct (m s) as [[[]|e] s1]; cbn in *; eauto.
Qed.
Lemma steady_ret : steady (ret tt).
Proof. intros s. eauto. Qed.
Lemma steady_then m k : steady m → steady k → steady (m ;; k).
Proof.
  intros Hm Hk s. destruct (Hm s) as (s1 & E & H1). destruct (Hk s1) as (s2 & E2 & H2).
  exists s2. rewrite bind_case, E. split; [done|congruence].
Qed.
Lemma steady_for_each {A} (l : list A) f : (∀ x, steady (f x)) → steady (for_each l f).
Proof. intros H. induction l; [apply steady_ret|]. by apply steady_then. Qed.
Lemma steady_if (b : bool) m1 m2 : steady m1 → steady m2 → steady (if b then m1 else m2).
Proof. by destruct b. Qed.
Lemma unscheduled_bind {A B} (m : swM A) (k : A → swM B) :
  unscheduled m → (∀ a, unscheduled (k a)) → unscheduled (bind m k).
Proof.
  intros Hm Hk s. rewrite bind_case. specialize (Hm s). destruct (m s) as [[a|e] s1]; cbn in *; [|done].
  by rewrite Hk.
Qed.
Lemma unscheduled_gets {A} (f : Sweeper → A) : unscheduled (gets f).
Proof. done. Qed.
Lemma unscheduled_ret {A} (a : A) : unscheduled (ret a).
Proof. done. Qed.
Lemma unscheduled_in_world {A} (m : wM A) : unscheduled (in_world m).
Proof. intros s. unfold in_world. by destruct (on_world m _). Qed.
Lemma unscheduled_in_archiver {A} (m : arM A) : unscheduled (in_archiver m).
Proof. intros s. unfold in_archiver. by destruct (m _). Qed.
Lemma unscheduled_in_retention {A} (m : rtM A) : unscheduled (in_retention m).
Proof. intros s. unfold in_retention. by destruct (m _). Qed.
Lemma unscheduled_await turns : unscheduled (sw_await turns).
Proof. done. Qed.
Lemma unscheduled_steady m : steady m → unscheduled m.
Proof. intros H s. destruct (H s) as (s' & -> & ?). done. Qed.
Lemma unscheduled_for_each {A} (l : list A) (f : A → swM unit) : (∀ x, unscheduled (f x)) → unscheduled (for_each l f).
Proof. intros H. induction l; [done|]. by apply unscheduled_bind. Qed.
Lemma unscheduled_slots f : unscheduled (modify (λ s, set_slots (f s) s)).
Proof. done. Qed.
Lemma unscheduled_kill f : unscheduled (modify (λ s, add_kill (f s) s)).
Proof. done. Qed.
Lemma unscheduled_if {A} (b : bool) (m1 m2 : swM A) : unscheduled m1 → unscheduled m2 → unscheduled (if b then m1 else m2).
Proof. by destruct b. Qed.
#[export] Hint Resolve steady_logged steady_ret steady_then steady_for_each steady_if unscheduled_bind
  unscheduled_gets unscheduled_ret unscheduled_in_world unscheduled_in_archiver unscheduled_in_retention
  unscheduled_await unscheduled_for_each unscheduled_slots unscheduled_kill unscheduled_if : sweep.

Section comes_back.
Context (sqlite_datetime : string → option Z) (date_parse : string → option time)
  (frac_value : string → Q) (cron_next : string → time → option time) (random : string → string)
  (cfg : Settings) (cap : nat) (DATA_DIR : list string)
  (turns : nat → SweepTurn) (ends : nat → TarEnd) (faults : Faults).

Lemma unscheduled_reset key : unscheduled (resetStuckProcessingRows date_parse turns key).
Proof.
  unfold resetStuckProcessingRows, sw_clock. apply unscheduled_bind; [auto with sweep|]. intros claims.
  apply unscheduled_bind; [auto with sweep|]. intros now. apply unscheduled_bind; [auto with sweep|].
  intros _. apply unscheduled_steady. auto with sweep.
Qed.
Lemma unscheduled_kill_and_reset key session reason :
  unscheduled (kill_and_reset date_parse turns key session reason).
Proof.
  unfold kill_and_reset, sw_clock. do 4 (apply unscheduled_bind; [auto with sweep|]; intros ?).
  apply unscheduled_reset.
Qed.
Hint Resolve unscheduled_reset unscheduled_kill_and_reset : sweep.
Lemma unscheduled_enforce key session :
  unscheduled (enforceRunningContainerSla date_parse frac_value cfg turns key session).
Proof.
  unfold enforceRunningContainerSla, sw_clock. apply unscheduled_bind; [auto with sweep|]. intros now.
  apply unscheduled_bind; [auto 10 with sweep|]. intros []; [auto with sweep|].
  do 3 (apply unscheduled_bind; [auto with sweep|]; intros ?). destruct (decideStuckAction _ _ _ _ _); auto with sweep.
Qed.
Hint Resolve unscheduled_enforce : sweep.
Lemma unscheduled_sweepSession session :
  unscheduled (sweepSession sqlite_datetime date_parse frac_value cron_next random cfg cap turns session).
Proof.
  unfold sweepSession, sw_clock, is_running. apply unscheduled_bind; [apply unscheduled_gets|].
  intros [ag|]; [|auto with sweep]. apply unscheduled_bind; [auto with sweep|]. intros []; cbn [negb]; [|auto with sweep].
  apply unscheduled_bind; [auto with sweep|]. intros out.
  apply unscheduled_bind; [destruct out; auto with sweep|]. intros _.
  do 3 (apply unscheduled_bind; [auto with sweep|]; intros ?).
  apply unscheduled_bind; [auto with sweep|]. intros _. apply unscheduled_bind; [auto with sweep|]. intros alive.
  auto 10 with sweep.
Qed.
End comes_back.

Lemma kills_sweepEach P (l : list Session) (f : Session → swM unit) :
  (∀ x, kills P (f x)) → kills P (sweepEachSession l f).
Proof.
  intros H. induction l as [|x l IH]; cbn [sweepEachSession]; [apply kills_ret|].
  apply kills_bind; [auto with sweep|]. intros ok. auto with sweep.
Qed.
Lemma unscheduled_sweepEach (l : list Session) (f : Session → swM unit) :
  (∀ x, unscheduled (f x)) → unscheduled (sweepEachSession l f).
Proof.
  intros H. induction l as [|x l IH]; cbn [sweepEachSession]; [done|].
  apply unscheduled_bind; [|intros ok; auto with sweep].
  intros s. unfold try_catch. rewrite bind_case. specialize (H x s). destruct (f x s) as [[[]|e] s1]; done.
Qed.

Section theorems.
Context (sqlite_datetime : string → option Z) (date_parse : string → option time)
  (frac_value : string → Q) (cron_next : string → time → option time) (random : string → string)
  (cfg : Settings) (cap : nat) (DATA_DIR : list string)
  (turns : nat → SweepTurn) (ends : nat → TarEnd) (faults : Faults).

Notation the_sweep := (sweep sqlite_datetime date_parse frac_value cron_next random cfg cap DATA_DIR turns ends faults).

Lemma kills_purged m : kills (justified frac_value cfg) (purged turns m).
Proof. unfold purged, sw_clock. auto 10 with sweep. Qed.
Lemma steady_purged m : steady (purged turns m).
Proof. unfold purged, sw_clock. apply steady_logged. auto 10 with sweep. Qed.

(** C38: A sweep kills only a container that runs and is stuck.  Whatever the
    containers and the rest of the host do at its awaits, at every kill the
    container of the session is running, and by what its outbound.db and its
    heartbeat say at that moment the session is over its token budget, has been
    silent for longer than the ceiling, or has been silent since it claimed a
    message longer ago than the tolerance. *)
Theorem sweep_kills_only_the_stuck s :
  ∃ log, sw_kills (the_sweep s).2 = sw_kills s ++ log ∧ Forall (justified frac_value cfg) log.
Proof.
  change (kills_at (justified frac_value cfg) the_sweep s). unfold sweep.
  apply kills_at_bind; [quiet|]. intros [] s1 _; cbn [negb]; [|apply kills_ret].
  apply kills_bind; [apply kills_logged, kills_bind; [auto with sweep|]; intros l; apply kills_bind;
    [apply kills_sweepEach; intros x; apply kills_sweepSession|auto with sweep]|].
  intros _. apply kills_bind; [apply kills_purged|]. intros _.
  apply kills_bind; [apply kills_logged, kills_bind; [auto with sweep|]; intros []; [apply kills_purged|apply kills_ret]|].
  intros _. apply kills_bind; [destruct (_ <? _); [apply kills_for_each; intros x; apply kills_purged|apply kills_ret]|].
  intros _. apply kills_bind; [unfold sw_clock; auto 10 with sweep|]. intros _.
  apply kills_bind; [unfold expire_approvals, sw_clock; auto 10 with sweep|]. intros _.
  apply kills_bind; [destruct (_ <? _); [apply kills_purged|apply kills_ret]|]. intros _.
  apply kills_bind; [unfold sw_clock; auto 10 with sweep|auto with sweep].
Qed.

Definition comes_back (m : swM unit) : Prop :=
  ∀ s, ∃ s', m s = (Ok tt, s') ∧ sw_scheduled s' = Datatypes.S (sw_scheduled s).
Lemma steady_schedule m k : steady m → comes_back k → comes_back (m ;; k).
Proof.
  intros Hm Hk s. destruct (Hm s) as (s1 & E & H1). destruct (Hk s1) as (s2 & E2 & H2).
  exists s2. rewrite bind_case, E. split; [done|congruence].
Qed.

(** The sweep comes back.  Whatever throws in it (a session whose databases
    cannot be read, a table that cannot be pruned, the retention, the
    archiving), a sweep that is not stopped returns and has scheduled exactly
    one next sweep. *)
Theorem sweep_comes_back s :
  sw_running s = true →
  ∃ s', the_sweep s = (Ok tt, s') ∧ sw_scheduled s' = Datatypes.S (sw_scheduled s).
Proof.
  intros Hrun. unfold sweep. rewrite bind_gets, Hrun. cbn [negb]. revert s Hrun; intros s _; revert s.
  apply steady_schedule; [apply steady_logged, unscheduled_bind; [done|]; intros l; apply unscheduled_bind;
    [apply unscheduled_sweepEach; intros x; apply unscheduled_sweepSession|done]|].
  apply steady_schedule; [apply steady_purged|].
  apply steady_schedule.
  { apply steady_logged, unscheduled_bind; [done|]. intros []; [|done]. apply unscheduled_steady, steady_purged. }
  apply steady_schedule; [apply steady_if; [apply steady_for_each; intros x; apply steady_purged|apply steady_ret]|].
  apply steady_schedule; [apply steady_logged; unfold sw_clock; auto 10 with sweep|].
  apply steady_schedule; [unfold expire_approvals, sw_clock; auto 10 with sweep|].
  apply steady_schedule; [apply steady_if; [apply steady_purged|apply steady_ret]|].
  apply steady_schedule; [apply steady_logged; unfold sw_clock; auto 10 with sweep|].
  intros s0. by eexists.
Qed.
End theorems.

(** ** Concrete sweeps *)

Definition no_text (s : string) : option Z := None.
Definition no_frac (s : string) : Q := 0%Q.
Definition no_cron (expr : string) (now : time) : option time := None.
Definition settings : Settings := mkSettings 0 0 0 7 7 0 false 0 0.

(** A session whose container crashed two minutes after it had claimed a
    message: the claim is there, the heartbeat too, no container runs. *)
Definition crashed_at : time := 1000000.
Definition sweep_at : time := 1130000.
Definition crashed_session : Session :=
  mkSession "s1" "g" None None None (Some "s1") None None active stopped (Some crashed_at) None 0 0.
Definition claimed_message : MessageIn :=
  mkMessageIn "m1" 2 "chat" (TIso crashed_at) RPending None None None 0 true None None None "{}" None None None.
Definition crashed_world : World :=
  mkWorld (set_agent_groups [mkAgentGroup "g" "Group" "g" None 0 None None] (set_sessions [crashed_session] emptyDb))
    {[ ("g", "s1") := set_messages_in [claimed_message] emptyInbound ]}
    {[ ("g", "s1") := set_processing_ack [mkAckRow "m1" AProcessing 1000] emptyOutbound ]} ∅.
Definition crashed : Sweeper :=
  mkSweeper (mkArchiver crashed_world ∅ []) (mkScopeDisk None ∅) ∅ emptySlots {[ ("g", "s1") := 1010000 ]} 0 true [] 0.

(** What the wake does at its await: the old heartbeat is removed and the
    container registered; its process has not begun to run. *)
Definition spawned (n : nat) : SweepTurn :=
  mkSweepTurn sweep_at (λ w, w)
    (λ st, if decide (n = 0%nat) then spawnRegister sweep_at crashed_session st else st)
    (λ beats, if decide (n = 0%nat) then delete ("g", "s1") beats else beats).
Definition swept_once : Sweeper :=
  (sweep no_text no_text no_frac no_cron (λ id, id) settings 4 ["data"] spawned (λ _, mkTarEnd 0 (λ w, w) None false)
     (mkFaults false (λ _, false) (λ _, Stamped) (λ _, false) (λ _, Removed)) crashed).2.

(** The sweep kills the container it has just woken.  A container crashes
    with a claim on a message.  Two minutes later the message is due and
    nothing runs, so the sweep wakes a container, and in the same pass, at the
    same millisecond, takes the claim of the dead container for a claim of the
    new one and kills it: the wake was to come first so that the new container
    could clear that claim itself.  The message loses one of its five tries to
    a container that never saw it. *)
Theorem sweep_kills_what_it_woke :
  isContainerRunning (sw_slots crashed) "s1" = false ∧
  map (λ k, (s_id (k_session k), k_reason k, k_at k)) (sw_kills swept_once) = [("s1", "claim-stuck", sweep_at)] ∧
  option_map e_spawnedAt (cs_active (sw_slots swept_once) !! "s1") = Some sweep_at ∧
  bool_decide ("s1" ∈ cs_killed (sw_slots swept_once)) = true ∧
  option_map (λ d, map (λ r, (mi_tries r, mi_process_after r)) (messages_in d))
    (w_in (sw_world swept_once) !! ("g", "s1")) = Some [(1, Some (TSql 1135))].
Proof. do 4 (split; [vm_compute; reflexivity|]). vm_compute; reflexivity. Qed.

Example sweep_comes_back_witness :
  ∃ s', sweep no_text no_text no_frac no_cron (λ id, id) settings 4 ["data"] spawned (λ _, mkTarEnd 0 (λ w, w) None false)
     (mkFaults false (λ _, false) (λ _, Stamped) (λ _, false) (λ _, Removed)) crashed = (Ok tt, s') ∧ sw_scheduled s' = 1%nat.
Proof.
  destruct (sweep_comes_back no_text no_text no_frac no_cron (λ id, id) settings 4 ["data"] spawned
    (λ _, mkTarEnd 0 (λ w, w) None false)
    (mkFaults false (λ _, false) (λ _, Stamped) (λ _, false) (λ _, Removed)) crashed) as (s' & E & H); [reflexivity|].
  exists s'. split; [exact E|exact H].
Defined.
Example reset_schedules_witness :
  ∃ s', resetStuckProcessingRows no_text spawned ("g", "s1") crashed = (Ok tt, s') ∧
    option_map (λ d, map mi_tries (messages_in d)) (w_in (sw_world s') !! ("g", "s1")) = Some [1].
Proof.
  destruct (reset_schedules_every_claim no_text spawned ("g", "s1") crashed
    (set_messages_in [claimed_message] emptyInbound)
    (set_processing_ack [mkAckRow "m1" AProcessing 1000] emptyOutbound)) as (s' & E & H & _);
    [vm_compute; reflexivity..| |].
  - split; [apply NoDup_cons; split; [apply not_elem_of_nil|apply NoDup_nil_2]|].
    intros r Hr. apply list_elem_of_singleton in Hr as ->. unfold MAX_TRIES. cbn. lia.
  - exists s'. split; [exact E|]. rewrite H. vm_compute. reflexivity.
Defined.
