(* ===== verification/Formatter.v ===== *)
(** * What the agent is shown (container/agent-runner/src/formatter.ts,
    destinations.ts)

    The rows of a batch become the text of a prompt.  The content of a row is
    any JSON value; a method called on a value that has none throws.  The local
    time of a timestamp, and the text of a value that is neither a string nor an
    integer, are parameters. *)
From S2P Require Import Prelude JsString Json Types Central SessionDb ContainerDb.
From stdpp Require Import pretty.
From Stdlib Require Import Ascii.

Local Open Scope string_scope.
Local Open Scope Z_scope.
Local Open Scope list_scope.
Local Open Scope prog_scope.

(** ** Destinations *)

Record DestinationEntry := mkDestinationEntry {
  dn_name : string;
  dn_displayName : string;
  dn_type : TargetType;
  dn_channelType : option string;
  dn_platformId : option string;
  dn_agentGroupId : option string }.

(*@ src/container/agent-runner/src/destinations.ts 34-43 rowToEntry *)
Definition rowToEntry (row : DestinationRow) : DestinationEntry :=
  mkDestinationEntry (de_name row) (default (de_name row) (de_display_name row)) (de_type row)
    (de_channel_type row) (de_platform_id row) (de_agent_group_id row).

(*@ src/container/agent-runner/src/destinations.ts 45-48 getAllDestinations *)
Definition getAllDestinations (inb : InboundDb) : list DestinationEntry :=
  map rowToEntry (sql_order_by (λ a b, String.ltb (de_name a) (de_name b)) (destinations inb)).

(*@ src/container/agent-runner/src/destinations.ts 50-53 findByName *)
Definition findByName (name : string) (inb : InboundDb) : option DestinationEntry :=
  option_map rowToEntry (sql_first (λ r, bool_decide (de_name r = name)) (destinations inb)).

(*@ src/container/agent-runner/src/destinations.ts 59-73 findByRouting *)
Definition findByRouting (channelType platformId : option string) (inb : InboundDb)
    : option DestinationEntry :=
  if negb (truthy channelType) || negb (truthy platformId) then None
  else
    option_map rowToEntry
      (if bool_decide (channelType = Some "agent")
       then sql_first (λ r, bool_decide (de_type r = TargetAgent) && sql_eq (de_agent_group_id r) platformId)
              (destinations inb)
       else sql_first (λ r, bool_decide (de_type r = TargetChannel) && sql_eq (de_channel_type r) channelType &&
                            sql_eq (de_platform_id r) platformId)
              (destinations inb)).

(** ** Escaping *)

(** The four [replace]s one after the other; only the first adds a character
    a later one looks for, and none of those it adds are. *)
Fixpoint replace_char (c : ascii) (by_ : string) (s : string) : string :=
  match s with
  | EmptyString => EmptyString
  | String d s' => if Ascii.eqb d c then by_ +:+ replace_char c by_ s' else String d (replace_char c by_ s')
  end.
(*@ src/container/agent-runner/src/formatter.ts 292-294 escapeXml *)
Definition escapeXml (s : string) : string :=
  replace_char "034" "&quot;" (replace_char ">" "&gt;" (replace_char "<" "&lt;" (replace_char "&" "&amp;" s))).

(** [s.replace(/<internal>[\s\S]*?<\/internal>/g, '')]: from an opening tag to
    the first closing tag after it; without one, the opening tag stays. *)
Fixpoint after_tag (tag s : string) : option string :=
  if startsWith s tag then Some (drop_string (String.length tag) s)
  else match s with EmptyString => None | String _ s' => after_tag tag s' end.
Fixpoint drop_internal (n : nat) (s : string) : string :=
  match n with
  | O => s
  | S n' =>
      match s with
      | EmptyString => EmptyString
      | String c s' =>
          if startsWith s "<internal>" then
            match after_tag "</internal>" (drop_string 10 s) with
            | Some rest => drop_internal n' rest
            | None => String c (drop_internal n' s')
            end
          else String c (drop_internal n' s')
      end
  end.
(*@ src/container/agent-runner/src/formatter.ts 301-303 stripInternalTags *)
Definition stripInternalTags (text : string) : string := trim (drop_internal (S (String.length text)) text).

(** ** Values of a content *)

Section values.
Context {S : Type}.
Notation jsM A := (prog S exn A).

Definition type_error {A} : jsM A := throw TypeError.

(** [v.k], and [v?.k]. *)
Definition prop (k : string) (v : option json) : jsM (option json) :=
  match v with
  | None => type_error
  | Some j => match jget k j with AThrow => type_error | AValue w => ret w end
  end.
Definition opt_prop (k : string) (v : option json) : jsM (option json) :=
  match v with
  | None | Some JNull => ret None
  | Some j => prop k (Some j)
  end.
(** [v] as the receiver of a string method. *)
Definition as_string (v : option json) : jsM string :=
  match v with Some (JStr s) => ret s | _ => type_error end.
(** [v || d] *)
Definition or_else (v : option json) (d : option json) : option json := if jtruthy v then v else d.
End values.

(** [parseContent]: a text that is not JSON is the text of the message. *)
(*@ src/container/agent-runner/src/formatter.ts 284-290 parseContent *)
Definition parseContent (content : string) : json :=
  match JSON_parse content with Some j => j | None => JObj [("text", JStr content)] end.

(** [(content.text || '').trim()] *)
Definition trimmed_text {S} (content : json) : prog S exn string :=
  let* text := prop "text" (Some content) in
  let* s := as_string (or_else text (Some (JStr ""))) in
  ret (trim s).

(** ** Commands *)

(*@ src/container/agent-runner/src/formatter.ts 14-14 CommandCategory *)
Inductive CommandCategory := CatAdmin | CatFiltered | CatPassthrough | CatNone.
#[export] Instance CommandCategory_eq : EqDecision CommandCategory.
Proof. solve_decision. Defined.

(*@ src/container/agent-runner/src/formatter.ts 16-16 ADMIN_COMMANDS *)
Definition RUNNER_ADMIN_COMMANDS : list string :=
  ["/remote-control"; "/clear"; "/compact"; "/context"; "/cost"; "/files"].
(*@ src/container/agent-runner/src/formatter.ts 17-17 FILTERED_COMMANDS *)
Definition RUNNER_FILTERED_COMMANDS : list string :=
  ["/help"; "/login"; "/logout"; "/doctor"; "/config"; "/start"].

(*@ src/container/agent-runner/src/formatter.ts 19-24 CommandInfo *)
Record CommandInfo := mkCommandInfo {
  ci_category : CommandCategory;
  ci_command : string;
  ci_text : string;
  ci_senderId : option string }.

Definition is_chat (msg : MessageIn) : bool :=
  bool_decide (mi_kind msg = "chat") || bool_decide (mi_kind msg = "chat-sdk").

Section commands.
Context {S : Type}.

(** [content?.senderId || content?.author?.userId || null], with its prefix. *)
(*@ src/container/agent-runner/src/formatter.ts 84-92 extractSenderId *)
Definition extractSenderId (msg : MessageIn) (content : json) : prog S exn (option string) :=
  let* senderId := opt_prop "senderId" (Some content) in
  let* raw := (if jtruthy senderId then ret senderId
               else let* author := opt_prop "author" (Some content) in opt_prop "userId" author) in
  if negb (jtruthy raw) then ret None
  else
    let* raw := as_string raw in
    if includes raw ":" then ret (Some raw)
    else if negb (truthy (mi_channel_type msg)) then ret (Some raw)
    else ret (Some (default "" (mi_channel_type msg) +:+ ":" +:+ raw)).

(*@ src/container/agent-runner/src/formatter.ts 37-58 categorizeMessage *)
Definition categorizeMessage (msg : MessageIn) : prog S exn CommandInfo :=
  let content := parseContent (mi_content msg) in
  let* text := trimmed_text content in
  let* senderId := extractSenderId msg content in
  if negb (startsWith text "/") then ret (mkCommandInfo CatNone "" text senderId)
  else
    let command := toLowerCase (first_word text) in
    ret (mkCommandInfo
      (if bool_decide (command ∈ RUNNER_ADMIN_COMMANDS) then CatAdmin
       else if bool_decide (command ∈ RUNNER_FILTERED_COMMANDS) then CatFiltered
       else CatPassthrough) command text senderId).

(*@ src/container/agent-runner/src/formatter.ts 65-69 isClearCommand *)
Definition isClearCommand (msg : MessageIn) : prog S exn bool :=
  let* text := trimmed_text (parseContent (mi_content msg)) in
  ret (startsWith (toLowerCase text) "/clear").

(*@ src/container/agent-runner/src/formatter.ts 77-81 isRunnerCommand *)
Definition isRunnerCommand (msg : MessageIn) : prog S exn bool :=
  if negb (is_chat msg) then ret false
  else
    let* info := categorizeMessage msg in
    ret (bool_decide (ci_category info = CatAdmin) || bool_decide (ci_category info = CatPassthrough)).
End commands.

(** ** Routing *)

(*@ src/container/agent-runner/src/formatter.ts 98-103 RoutingContext *)
Record RoutingContext := mkRoutingContext {
  rc_platformId : option string;
  rc_channelType : option string;
  rc_threadId : option string;
  rc_inReplyTo : option string }.

(*@ src/container/agent-runner/src/formatter.ts 122-130 extractRouting *)
Definition extractRouting (messages : list MessageIn) : RoutingContext :=
  let anchor := match List.find is_chat messages with Some m => Some m | None => hd_error messages end in
  mkRoutingContext (anchor ≫= mi_platform_id) (anchor ≫= mi_channel_type) (anchor ≫= mi_thread_id)
    (option_map mi_id anchor).

(** ** The prompt *)

Definition newline : string := String "010" EmptyString.
Definition dq : string := String "034" EmptyString.
(** [` name="value"`], the value escaped. *)
Definition attr (name value : string) : string := " " +:+ name +:+ "=" +:+ dq +:+ escapeXml value +:+ dq.
Definition lines (l : list string) : string := String.concat newline l.

(** [JSON.stringify(v, null, 2)] *)
Fixpoint spaces (n : nat) : string := match n with O => "" | S n' => " " +:+ spaces n' end.
Definition quoted (s : string) : string := of_codes (quote s).
Fixpoint pretty_json (ind : nat) (j : json) : string :=
  let inner := newline +:+ spaces (ind + 2) in
  let close := newline +:+ spaces ind in
  match j with
  | JArr [] => "[]"
  | JArr l => "[" +:+ inner +:+ String.concat ("," +:+ inner) (map (pretty_json (ind + 2)) l) +:+ close +:+ "]"
  | JObj [] => "{}"
  | JObj l => "{" +:+ inner +:+
      String.concat ("," +:+ inner) (map (λ kv, quoted kv.1 +:+ ": " +:+ pretty_json (ind + 2) kv.2) l) +:+
      close +:+ "}"
  | _ => JSON_stringify j
  end.

Section prompt.
(** [toLocaleString] of a timestamp in the time zone TIMEZONE, and [String(v)]. *)
Context (formatLocalTime : stext → string) (TIMEZONE : string) (text_of_value : json → string).
Notation jsM A := (prog InboundDb exn A).

Definition to_string (v : option json) : string :=
  match v with
  | None => "undefined"
  | Some (JStr s) => s
  | Some (JNum n) => pretty n
  | Some j => text_of_value j
  end.

(*@ src/container/agent-runner/src/formatter.ts 214-221 originAttr *)
Definition originAttr (msg : MessageIn) : jsM string :=
  let* fromDest := gets (findByRouting (mi_channel_type msg) (mi_platform_id msg)) in
  match fromDest with
  | Some d => ret (attr "from" (dn_name d))
  | None =>
      if truthy (mi_channel_type msg) || truthy (mi_platform_id msg)
      then ret (" from=" +:+ dq +:+ "unknown:" +:+ escapeXml (default "" (mi_channel_type msg)) +:+ ":" +:+
                escapeXml (default "" (mi_platform_id msg)) +:+ dq)
      else ret ""
  end.

(*@ src/container/agent-runner/src/formatter.ts 259-265 formatReplyContext *)
Definition formatReplyContext (replyTo : option json) : jsM string :=
  if negb (jtruthy replyTo) then ret ""
  else
    let* sender := prop "sender" replyTo in
    let* text := prop "text" replyTo in
    if negb (jtruthy sender) || negb (jtruthy text) then ret ""
    else
      let* sender := as_string sender in
      let* text := as_string text in
      ret (newline +:+ "  <quoted_message" +:+ attr "from" sender +:+ ">" +:+ escapeXml text +:+
           "</quoted_message>" +:+ newline).

(** One attachment; the [type] is put in as it is. *)
(*@ src/container/agent-runner/src/formatter.ts 270-279 formatAttachments *)
Definition formatAttachment (a : json) : jsM string :=
  let* name0 := prop "name" (Some a) in
  let* filename := prop "filename" (Some a) in
  let name := or_else (or_else name0 filename) (Some (JStr "attachment")) in
  let* type0 := prop "type" (Some a) in
  let type := to_string (or_else type0 (Some (JStr "file"))) in
  let* localPath := prop "localPath" (Some a) in
  let* url0 := prop "url" (Some a) in
  let url := or_else url0 (Some (JStr "")) in
  let* name := as_string name in
  if jtruthy localPath then
    ret ("[" +:+ type +:+ ": " +:+ escapeXml name +:+ " — saved to " +:+
         escapeXml ("/workspace/" +:+ to_string localPath) +:+ "]")
  else if jtruthy url then
    let* url := as_string url in
    ret ("[" +:+ type +:+ ": " +:+ escapeXml name +:+ " (" +:+ escapeXml url +:+ ")]")
  else ret ("[" +:+ type +:+ ": " +:+ escapeXml name +:+ "]").

Fixpoint map_js {A} (f : A → jsM string) (l : list A) : jsM (list string) :=
  match l with
  | [] => ret []
  | x :: l' =>
      let* y := f x in
      let* ys := map_js f l' in
      ret (y :: ys)
  end.

(*@ src/container/agent-runner/src/formatter.ts 268-281 formatAttachments *)
Definition formatAttachments (attachments : option json) : jsM string :=
  match attachments with
  | Some (JArr ((_ :: _) as l)) =>
      let* parts := map_js formatAttachment l in
      ret (newline +:+ lines parts)
  | _ => ret ""
  end.

(** [content.sender || content.author?.fullName || content.author?.userName || 'Unknown'] *)
Definition sender_of (content : json) : jsM (option json) :=
  let* sender := prop "sender" (Some content) in
  if jtruthy sender then ret sender
  else
    let* author := prop "author" (Some content) in
    let* fullName := opt_prop "fullName" author in
    let* userName := opt_prop "userName" author in
    ret (or_else (or_else fullName userName) (Some (JStr "Unknown"))).

(** [seq] is never null in the rows read. *)
(*@ src/container/agent-runner/src/formatter.ts 194-207 formatSingleChat *)
Definition formatSingleChat (includeAttachments : bool) (msg : MessageIn) : jsM string :=
  let content := parseContent (mi_content msg) in
  let* sender := sender_of content in
  let time := formatLocalTime (mi_timestamp msg) in
  let* text := prop "text" (Some content) in
  let* replyTo := prop "replyTo" (Some content) in
  let* replyId := opt_prop "id" replyTo in
  let replyAttr := if jtruthy replyId then attr "reply_to" (to_string replyId) else "" in
  let* replyPrefix := formatReplyContext replyTo in
  let* attachmentsSuffix := (if includeAttachments then
                               let* atts := prop "attachments" (Some content) in formatAttachments atts
                             else ret "") in
  let* fromAttr := originAttr msg in
  let* sender := as_string sender in
  let* text := as_string (or_else text (Some (JStr ""))) in
  ret ("<message id=" +:+ dq +:+ pretty (mi_seq msg) +:+ dq +:+ fromAttr +:+ attr "sender" sender +:+
       attr "time" time +:+ replyAttr +:+ ">" +:+ replyPrefix +:+ escapeXml text +:+ attachmentsSuffix +:+
       "</message>").

(*@ src/container/agent-runner/src/formatter.ts 181-192 formatChatMessages *)
Definition formatChatMessages (includeAttachments : bool) (messages : list MessageIn) : jsM string :=
  match messages with
  | [msg] => formatSingleChat includeAttachments msg
  | _ =>
      let* parts := map_js (formatSingleChat includeAttachments) messages in
      ret (lines (["<messages>"] ++ parts ++ ["</messages>"]))
  end.

(*@ src/container/agent-runner/src/formatter.ts 223-233 formatTaskMessage *)
Definition formatTaskMessage (msg : MessageIn) : jsM string :=
  let content := parseContent (mi_content msg) in
  let* from := originAttr msg in
  let time := formatLocalTime (mi_timestamp msg) in
  let* scriptOutput := prop "scriptOutput" (Some content) in
  let* prompt := prop "prompt" (Some content) in
  let script := match scriptOutput with
                | Some j => if jtruthy scriptOutput then ["Script output:"; pretty_json 0 j; ""] else []
                | None => []
                end in
  let body := lines (script ++ ["Instructions:"; to_string (or_else prompt (Some (JStr "")))]) in
  ret ("<task" +:+ from +:+ attr "time" time +:+ ">" +:+ body +:+ "</task>").

(** [content.k || d] in an attribute. *)
Definition value_attr (name k d : string) (content : json) : jsM string :=
  let* v := prop k (Some content) in
  let* s := as_string (or_else v (Some (JStr d))) in
  ret (attr name s).

(** The payload is printed as it is. *)
(*@ src/container/agent-runner/src/formatter.ts 235-241 formatWebhookMessage *)
Definition formatWebhookMessage (msg : MessageIn) : jsM string :=
  let content := parseContent (mi_content msg) in
  let* from := originAttr msg in
  let* source := value_attr "source" "source" "unknown" content in
  let* event := value_attr "event" "event" "unknown" content in
  let* payload := prop "payload" (Some content) in
  ret ("<webhook" +:+ from +:+ source +:+ event +:+ ">" +:+
       pretty_json 0 (if jtruthy payload then default JNull payload else content) +:+ "</webhook>").

(*@ src/container/agent-runner/src/formatter.ts 243-247 formatSystemMessage *)
Definition formatSystemMessage (msg : MessageIn) : jsM string :=
  let content := parseContent (mi_content msg) in
  let* from := originAttr msg in
  let* action := value_attr "action" "action" "unknown" content in
  let* status := value_attr "status" "status" "unknown" content in
  let* result := prop "result" (Some content) in
  ret ("<system_response" +:+ from +:+ action +:+ status +:+ ">" +:+
       JSON_stringify (if jtruthy result then default JNull result else JNull) +:+ "</system_response>").

Definition of_kind (kind : string) (messages : list MessageIn) : list MessageIn :=
  List.filter (λ m, bool_decide (mi_kind m = kind)) messages.

(*@ src/container/agent-runner/src/formatter.ts 153-179 formatMessages *)
Definition formatMessages (includeAttachments : bool) (messages : list MessageIn) : jsM string :=
  let header := "<context" +:+ attr "timezone" TIMEZONE +:+ " />" +:+ newline in
  match messages with
  | [] => ret header
  | _ =>
      let chats := List.filter is_chat messages in
      let* chat := (match chats with
                    | [] => ret []
                    | _ => let* s := formatChatMessages includeAttachments chats in ret [s]
                    end) in
      let* tasks := map_js formatTaskMessage (of_kind "task" messages) in
      let* webhooks := map_js formatWebhookMessage (of_kind "webhook" messages) in
      let* systems := map_js formatSystemMessage (of_kind "system" messages) in
      ret (header +:+ String.concat (newline +:+ newline) (chat ++ tasks ++ webhooks ++ systems))
  end.

(** Slash commands go raw to a provider that knows them. *)
(*@ src/container/agent-runner/src/poll-loop.ts 706-732 formatMessagesWithCommands *)
Fixpoint format_with_commands (native : bool) (messages batch : list MessageIn) : jsM (list string) :=
  match messages with
  | [] => match batch with
          | [] => ret []
          | _ => let* s := formatMessages true batch in ret [s]
          end
  | msg :: rest =>
      let* raw := (if native && is_chat msg then
                     let* info := categorizeMessage msg in
                     ret (if bool_decide (ci_category info = CatPassthrough) ||
                             bool_decide (ci_category info = CatAdmin)
                          then Some (ci_text info) else None)
                   else ret None) in
      match raw with
      | Some text =>
          let* flushed := (match batch with
                           | [] => ret []
                           | _ => let* s := formatMessages true batch in ret [s]
                           end) in
          let* parts := format_with_commands native rest [] in
          ret (flushed ++ text :: parts)
      | None => format_with_commands native rest (batch ++ [msg])
      end
  end.
Definition formatMessagesWithCommands (native : bool) (messages : list MessageIn) : jsM string :=
  let* parts := format_with_commands native messages [] in
  ret (String.concat (newline +:+ newline) parts).
End prompt.
