(* ===== verification/RequestIdentity.v ===== *)
(** * Whose turn it is (container/agent-runner/src/request-identity.ts,
    a2a-origin.ts, and the pure decisions of poll-loop.ts)

    A batch of rows becomes a turn under one identity.  The identity comes from
    the columns and contents the host wrote, never from what an agent forwarded;
    rows of somebody else are put off, and every user trigger gets a turn of its
    own. *)
From S2P Require Import Prelude JsString Json Types Central SessionDb ContainerDb Formatter.
From stdpp Require Import sorting.

Local Open Scope string_scope.
Local Open Scope Z_scope.
Local Open Scope list_scope.

Inductive IdentitySource := SourceSession | SourceAgentAsserted.
#[export] Instance IdentitySource_eq : EqDecision IdentitySource.
Proof. solve_decision. Defined.

(*@ src/container/agent-runner/src/request-context.ts 16-28 RequestIdentity *)
Record RequestIdentity := mkRequestIdentity {
  ri_userId : option string;
  ri_channelType : option string;
  ri_platformId : option string;
  ri_threadId : option string;
  ri_source : IdentitySource }.
#[export] Instance RequestIdentity_eq : EqDecision RequestIdentity.
Proof. solve_decision. Defined.

(** [JSON.parse(text).k], [None] when either throws. *)
Definition parsed_field (k text : string) : option json :=
  match JSON_parse text with
  | None => None
  | Some j => match jget k j with AValue v => v | AThrow => None end
  end.

(*@ src/container/agent-runner/src/request-identity.ts 28-36 isSystemSenderRow *)
Definition isSystemSenderRow (row : MessageIn) : bool :=
  if bool_decide (mi_content row = "") then false
  else match parsed_field "sender" (mi_content row) with
       | Some (JStr s) => bool_decide (s = "system")
       | _ => false
       end.

(** The sender a channel adapter wrote into the content, namespaced. *)
(*@ src/container/agent-runner/src/request-identity.ts 60-72 rowIdentity *)
Definition content_user (row : MessageIn) : option string :=
  if bool_decide (mi_channel_type row = Some "agent") then None
  else
    match jstring (parsed_field "senderId" (mi_content row)) with
    | None => None
    | Some s =>
        let rawSenderId := trim s in
        if bool_decide (rawSenderId = "") then None
        else if includes rawSenderId ":" || negb (truthy (mi_channel_type row)) then Some rawSenderId
        else Some (default "" (mi_channel_type row) +:+ ":" +:+ rawSenderId)
    end.

(*@ src/container/agent-runner/src/request-identity.ts 42-81 rowIdentity *)
Definition rowIdentity (row : MessageIn) : RequestIdentity :=
  let origin := option_map trim (mi_origin_user_id row) in
  if truthy origin then
    mkRequestIdentity origin (mi_channel_type row) (mi_platform_id row) (mi_thread_id row) SourceSession
  else
    let userId := content_user row in
    mkRequestIdentity userId (mi_channel_type row) (mi_platform_id row) (mi_thread_id row)
      (if truthy userId then SourceSession else SourceAgentAsserted).

Definition nobody : RequestIdentity := mkRequestIdentity None None None None SourceAgentAsserted.

(** A trigger of a user: a chat row that wakes and that the host did not inject. *)
Definition user_trigger (m : MessageIn) : bool := mi_trigger m && is_chat m && negb (isSystemSenderRow m).
Definition anchor_row (batch : list MessageIn) : option MessageIn :=
  match List.find user_trigger batch with Some m => Some m | None => hd_error batch end.

(*@ src/container/agent-runner/src/request-identity.ts 89-101 resolveBatchIdentity *)
Definition resolveBatchIdentity (batch : list MessageIn) : RequestIdentity :=
  match anchor_row batch with
  | None => nobody
  | Some trigger => if isSystemSenderRow trigger then nobody else rowIdentity trigger
  end.

(** [(a ?? '') === (b ?? '')] *)
Definition same_text (a b : option string) : bool := bool_decide (default "" a = default "" b).

(** Whether two trusted identities are one user on one surface. *)
Definition same_turn (a b : RequestIdentity) : bool :=
  bool_decide (ri_userId a = ri_userId b) && same_text (ri_channelType a) (ri_channelType b) &&
  same_text (ri_platformId a) (ri_platformId b) && bool_decide (ri_threadId a = ri_threadId b).

Definition stays (anchor : RequestIdentity) (row : MessageIn) : bool :=
  negb (is_chat row) ||
  (negb (bool_decide (ri_source anchor = SourceSession)) ||
   negb (bool_decide (ri_source (rowIdentity row) = SourceSession))) ||
  same_turn anchor (rowIdentity row).

(** The rows that stay, and those put off. *)
(*@ src/container/agent-runner/src/request-identity.ts 120-153 splitBatchByTurn *)
Definition splitBatchByTurn (batch : list MessageIn) : list MessageIn * list MessageIn :=
  let anchor := resolveBatchIdentity batch in
  (List.filter (stays anchor) batch, List.filter (λ r, negb (stays anchor r)) batch).

(** Up to the second trigger. *)
Fixpoint before_trigger (foundTrigger : bool) (batch : list MessageIn) : list MessageIn * list MessageIn :=
  match batch with
  | [] => ([], [])
  | row :: rest =>
      if mi_trigger row && foundTrigger then ([], batch)
      else let (keep, defer) := before_trigger (foundTrigger || mi_trigger row) rest in (row :: keep, defer)
  end.
(*@ src/container/agent-runner/src/request-identity.ts 163-171 splitBatchByTrigger *)
Definition splitBatchByTrigger (batch : list MessageIn) : list MessageIn * list MessageIn :=
  before_trigger false batch.

(*@ src/container/agent-runner/src/poll-loop.ts 66-69 shouldExitIdle *)
Definition shouldExitIdle (idleExitMs lastWorkAt now : time) : bool :=
  if idleExitMs <=? 0 then false else idleExitMs <=? now - lastWorkAt.

(*@ src/container/agent-runner/src/poll-loop.ts 94-106 shouldEndForTurnChange *)
Definition shouldEndForTurnChange (current : option RequestIdentity) (incoming : RequestIdentity) : bool :=
  match current with
  | None => false
  | Some current =>
      if negb (bool_decide (ri_source current = SourceSession)) || negb (truthy (ri_userId current)) then false
      else if negb (bool_decide (ri_source incoming = SourceSession)) || negb (truthy (ri_userId incoming))
      then false
      else negb (same_turn current incoming)
  end.

(*@ src/container/agent-runner/src/a2a-origin.ts 15-20 a2aOriginUserId *)
Definition a2aOriginUserId (identity : option RequestIdentity) (channelType : string) : option string :=
  if negb (bool_decide (channelType = "agent")) then None
  else match identity with
       | Some i => if bool_decide (ri_source i = SourceSession) then ri_userId i else None
       | None => None
       end.

(** ** Identities *)

(** C4: An identity the runner trusts is one the host wrote: the origin column of
    the row, or the sender of a row that did not come from an agent
    ([resolveBatchIdentity], [rowIdentity]).  What an agent forwards in a content
    never becomes the requester of a turn. *)
Theorem trusted_identity_is_host_written batch :
  ri_source (resolveBatchIdentity batch) = SourceSession →
  ∃ row, row ∈ batch ∧ isSystemSenderRow row = false ∧
    truthy (ri_userId (resolveBatchIdentity batch)) = true ∧
    (ri_userId (resolveBatchIdentity batch) = option_map trim (mi_origin_user_id row) ∨
     mi_channel_type row ≠ Some "agent" ∧ ri_userId (resolveBatchIdentity batch) = content_user row).
Proof.
  unfold resolveBatchIdentity. destruct (anchor_row batch) as [row|] eqn:Ea; [|done].
  destruct (isSystemSenderRow row) eqn:Hs; [done|]. intros Hsrc. exists row. split; [|split; [done|]].
  - revert Ea. unfold anchor_row. destruct (List.find user_trigger batch) as [m|] eqn:Ef.
    + intros [= ->]. apply find_some in Ef as [H _]. by apply list_elem_of_In.
    + destruct batch; [done|]. intros [= ->]. left.
  - revert Hsrc. unfold rowIdentity. destruct (truthy (option_map trim _)) eqn:Ho; [cbn; auto|]. cbn.
    destruct (truthy (content_user row)) eqn:Hc; [|done]. intros _. split; [done|]. right. split; [|done].
    intros Hag. revert Hc. unfold content_user. by rewrite bool_decide_eq_true_2.
Qed.

(** ** Splitting a batch *)

Lemma same_turn_refl i : same_turn i i = true.
Proof. unfold same_turn, same_text. by rewrite !bool_decide_eq_true_2. Qed.
Lemma same_text_sym a b : same_text a b = same_text b a.
Proof. unfold same_text. by apply bool_decide_ext. Qed.
Lemma same_turn_trans a b c : same_turn a b = true → same_turn a c = true → same_turn b c = true.
Proof.
  unfold same_turn, same_text. rewrite !andb_true_iff, !bool_decide_eq_true. intros [[[-> ->] ->] ->].
  by intros [[[-> ->] ->] ->].
Qed.
Lemma stays_self m : stays (rowIdentity m) m = true.
Proof. unfold stays. by rewrite same_turn_refl, orb_true_r. Qed.
Lemma stays_nobody m : stays nobody m = true.
Proof. unfold stays. by destruct (is_chat m). Qed.
Lemma anchor_stays batch m : anchor_row batch = Some m → stays (resolveBatchIdentity batch) m = true.
Proof.
  intros E. unfold resolveBatchIdentity. rewrite E. destruct (isSystemSenderRow m); [apply stays_nobody|apply stays_self].
Qed.

(** Filtering keeps the anchor where it was. *)
Lemma find_filter {A} (p q : A → bool) (l : list A) m :
  List.find p l = Some m → q m = true → List.find p (List.filter q l) = Some m.
Proof.
  induction l as [|x l IH]; [done|]. simpl. destruct (p x) eqn:Hp.
  - intros [= ->] Hq. rewrite Hq. simpl. by rewrite Hp.
  - intros H Hq. destruct (q x); simpl; [rewrite Hp|]; auto.
Qed.
Lemma find_filter_None {A} (p q : A → bool) (l : list A) :
  List.find p l = None → List.find p (List.filter q l) = None.
Proof.
  induction l as [|x l IH]; [done|]. simpl. destruct (p x) eqn:Hp; [done|].
  intros H. destruct (q x); simpl; [rewrite Hp|]; auto.
Qed.
Lemma anchor_kept batch : anchor_row (splitBatchByTurn batch).1 = anchor_row batch.
Proof.
  destruct (anchor_row batch) as [m|] eqn:E.
  - pose proof (anchor_stays batch m E) as Hs. revert E. unfold anchor_row. cbn [splitBatchByTurn fst].
    destruct (List.find user_trigger batch) as [t|] eqn:Ef.
    + intros [= ->]. by rewrite (find_filter _ _ _ m Ef Hs).
    + rewrite (find_filter_None _ _ _ Ef). destruct batch as [|x batch]; [done|]. cbn [hd_error].
      intros [= ->]. cbn [List.filter]. by rewrite Hs.
  - revert E. unfold anchor_row. destruct (List.find user_trigger batch) as [t|]; [done|].
    by destruct batch.
Qed.
Lemma identity_kept batch : resolveBatchIdentity (splitBatchByTurn batch).1 = resolveBatchIdentity batch.
Proof. unfold resolveBatchIdentity. by rewrite anchor_kept. Qed.

Lemma filter_sublist {A} (q : A → bool) (l : list A) : List.filter q l `sublist_of` l.
Proof. induction l as [|x l IH]; [constructor|]. simpl. destruct (q x); by constructor. Qed.
Lemma filter_partition {A} (q : A → bool) (l : list A) :
  List.filter q l ++ List.filter (λ x, negb (q x)) l ≡ₚ l.
Proof.
  induction l as [|x l IH]; [done|]. simpl. destruct (q x); simpl; [by rewrite IH|].
  by rewrite <-Permutation_middle, IH.
Qed.

Lemma filter_twice {A} (q : A → bool) (l : list A) : List.filter q (List.filter q l) = List.filter q l.
Proof. induction l as [|x l IH]; [done|]. simpl. destruct (q x) eqn:E; simpl; by rewrite ?E, IH. Qed.
Lemma filter_none {A} (q : A → bool) (l : list A) : List.filter (λ x, negb (q x)) (List.filter q l) = [].
Proof. induction l as [|x l IH]; [done|]. simpl. destruct (q x) eqn:E; simpl; by rewrite ?E, IH. Qed.

(** [splitBatchByTurn] loses nothing and reorders nothing: the rows it keeps
    and the rows it puts off are the batch, each in its order; something is always
    kept, and the rows kept stand for the same identity as the whole batch, so
    that splitting again keeps them all. *)
Theorem turn_split_is_a_partition batch :
  let (keep, defer) := splitBatchByTurn batch in
  keep ++ defer ≡ₚ batch ∧ keep `sublist_of` batch ∧ defer `sublist_of` batch ∧
  (batch ≠ [] → keep ≠ []) ∧ resolveBatchIdentity keep = resolveBatchIdentity batch ∧
  splitBatchByTurn keep = (keep, []).
Proof.
  pose proof (identity_kept batch) as Hi. unfold splitBatchByTurn in *. cbn [fst] in Hi.
  set (q := stays (resolveBatchIdentity batch)) in *.
  split_and!; [apply filter_partition|apply filter_sublist|apply filter_sublist| |done|].
  - intros Hne. destruct (anchor_row batch) as [m|] eqn:E.
    + pose proof (anchor_kept batch) as Hk. rewrite E in Hk. cbn [splitBatchByTurn fst] in Hk. fold q in Hk.
      by destruct (List.filter q batch).
    + revert E. unfold anchor_row. destruct (List.find _ _); [done|]. clear Hi. subst q. destruct batch; [by destruct Hne|done].
  - rewrite Hi. fold q. by rewrite filter_twice, filter_none.
Qed.

Lemma before_trigger_spec batch : ∀ found, let (keep, defer) := before_trigger found batch in
  keep ++ defer = batch ∧
  length (List.filter mi_trigger keep) =
    Nat.min (if found : bool then 0 else 1) (length (List.filter mi_trigger batch)) ∧
  (defer = [] ∨ ∃ t rest, defer = t :: rest ∧ mi_trigger t = true).
Proof.
  induction batch as [|row rest IH]; intros found; [split_and!; [done|by destruct found|by left]|].
  cbn [before_trigger]. destruct (mi_trigger row && found) eqn:Ht.
  - apply andb_true_iff in Ht as [Ht ->]. split_and!; [done|done|]. right. eauto.
  - specialize (IH (found || mi_trigger row)).
    destruct (before_trigger (found || mi_trigger row) rest) as [keep defer]. destruct IH as (<- & Hn & Hd).
    split_and!; [done| |done]. cbn [List.filter].
    destruct (mi_trigger row); [|by rewrite orb_false_r in Hn].
    destruct found; [done|]. cbn [length orb] in *. lia.
Qed.

(** [splitBatchByTrigger] gives every trigger a turn of its own: the two parts
    are the batch cut in two, the first part has at most one trigger, has one
    whenever the batch has, and the second part starts with the next. *)
Theorem trigger_split_cuts_at_the_second batch :
  let (keep, defer) := splitBatchByTrigger batch in
  keep ++ defer = batch ∧
  length (List.filter mi_trigger keep) = Nat.min 1 (length (List.filter mi_trigger batch)) ∧
  (defer = [] ∨ ∃ t rest, defer = t :: rest ∧ mi_trigger t = true).
Proof. exact (before_trigger_spec batch false). Qed.

(** ** One user per turn *)

(** A chat row with an identity the runner trusts. *)
Definition trusted_chat (m : MessageIn) : Prop :=
  is_chat m = true ∧ ri_source (rowIdentity m) = SourceSession.


(** ** Concrete batches *)

Definition row_from (id : string) (seq : Z) (kind : string) (trigger : bool) (thread : option string)
    (content : json) : MessageIn :=
  mkMessageIn id seq kind (TIso 0) RPending None None None 0 trigger (Some "chat-1") (Some "feishu") thread
    (JSON_stringify content) None None None.
Definition from_user (user text : string) : json := JObj [("senderId", JStr user); ("text", JStr text)].
Definition ann_asks : MessageIn := row_from "m1" 2 "chat" true (Some "t1") (from_user "ou_ann" "status?").
Definition bob_chats : MessageIn := row_from "m2" 4 "chat" false (Some "t1") (from_user "ou_bob" "lunch?").
Definition ann_adds : MessageIn := row_from "m3" 6 "chat" false (Some "t1") (from_user "ou_ann" "please").
Definition ann_here : RequestIdentity :=
  mkRequestIdentity (Some "feishu:ou_ann") (Some "feishu") (Some "chat-1") (Some "t1") SourceSession.

Lemma trusted_identity_witness :
  resolveBatchIdentity [bob_chats; ann_asks] = ann_here ∧
  ∃ row, row ∈ [bob_chats; ann_asks] ∧ isSystemSenderRow row = false ∧
    truthy (ri_userId (resolveBatchIdentity [bob_chats; ann_asks])) = true ∧
    (ri_userId (resolveBatchIdentity [bob_chats; ann_asks]) = option_map trim (mi_origin_user_id row) ∨
     mi_channel_type row ≠ Some "agent" ∧
     ri_userId (resolveBatchIdentity [bob_chats; ann_asks]) = content_user row).
Proof.
  split; [vm_compute; reflexivity|].
  apply (trusted_identity_is_host_written [bob_chats; ann_asks]). vm_compute. reflexivity.
Defined.


(** ** What modelling showed *)

(** A scheduled task that meets a context row runs under that row's user: with
    no user trigger in the batch [resolveBatchIdentity] falls back on the first
    row, also when it only was accumulated, although the header of
    request-identity.ts says such rows are ignored for identity.  What the task
    asks of the gateway or of another agent goes out in Bob's name. *)
Theorem task_runs_as_bystander :
  let task := row_from "task-1" 6 "task" true None (JObj [("prompt", JStr "close the books")]) in
  let keep := (splitBatchByTurn [bob_chats; task]).1 in
  keep = [bob_chats; task] ∧ mi_trigger bob_chats = false ∧
  ri_source (rowIdentity task) = SourceAgentAsserted ∧
  resolveBatchIdentity keep =
    mkRequestIdentity (Some "feishu:ou_bob") (Some "feishu") (Some "chat-1") (Some "t1") SourceSession ∧
  a2aOriginUserId (Some (resolveBatchIdentity keep)) "agent" = Some "feishu:ou_bob".
Proof. do 4 (split; [vm_compute; reflexivity|]). vm_compute. reflexivity. Qed.

(** Context hides a question: [getPendingMessages] (messages-in.ts) takes the
    ten newest due rows whether they wake or not.  Behind ten later context rows
    the row of a waiting user is not among them, so the loop sees no trigger and
    leaves everything pending, while [countDueMessages] of the host goes on
    counting the row as work. *)
Theorem context_hides_the_trigger (sqlite_datetime : string → option Z) :
  let context_row n := row_from ("c" +:+ of_codes [48 + n]) (4 + 2 * n) "chat" false (Some "t1") (from_user "ou_bob" "hm") in
  let inb := set_messages_in (ann_asks :: map context_row [0; 1; 2; 3; 4; 5; 6; 7; 8; 9]) emptyInbound in
  countDueMessages sqlite_datetime 0 inb = 1%nat ∧
  length (getPendingMessages sqlite_datetime 0 10 inb emptyOutbound) = 10%nat ∧
  forallb (λ m, negb (mi_trigger m)) (getPendingMessages sqlite_datetime 0 10 inb emptyOutbound) = true ∧
  existsb mi_trigger (getPendingMessages sqlite_datetime 0 11 inb emptyOutbound) = true.
Proof. do 3 (split; [vm_compute; reflexivity|]). vm_compute. reflexivity. Qed.
