(* ===== verification/Runner.v ===== *)
(** * The runner's state (container/agent-runner/src/db/session-state.ts,
    current-batch.ts, request-context.ts, routing/gate.ts)

    Two processes of the container work on the session: the poll loop and the
    tool server it starts as a child.  They share the two databases and nothing
    else: each has its own copy of the module variables of current-batch.ts and
    request-context.ts. *)
From S2P Require Import Prelude JsString Json JsonProofs Types Central SessionDb ContainerDb Formatter RequestIdentity.
From stdpp Require Import gmap.

Local Open Scope string_scope.
Local Open Scope Z_scope.
Local Open Scope list_scope.
Local Open Scope prog_scope.

(** The variables of one process. *)
Record ModuleVars := mkModuleVars {
  mv_inReplyTo : option string;
  mv_classificationId : option string;
  mv_identity : option RequestIdentity }.
Definition fresh_module : ModuleVars := mkModuleVars None None None.
Definition with_inReplyTo (v : option string) (m : ModuleVars) : ModuleVars :=
  mkModuleVars v (mv_classificationId m) (mv_identity m).
Definition with_classificationId (v : option string) (m : ModuleVars) : ModuleVars :=
  mkModuleVars (mv_inReplyTo m) v (mv_identity m).
Definition with_identity (v : option RequestIdentity) (m : ModuleVars) : ModuleVars :=
  mkModuleVars (mv_inReplyTo m) (mv_classificationId m) v.

(** [rn_state] is the session_state table of outbound.db, whose updated_at
    nothing reads; [rn_fresh] counts the ids generated; [rn_log] has the states
    outbound.db went through, newest first: those a crash can leave behind. *)
Record Runner := mkRunner {
  rn_now : time;
  rn_fresh : nat;
  rn_inbound : InboundDb;
  rn_outbound : OutboundDb;
  rn_log : list OutboundDb;
  rn_state : gmap string string;
  rn_loop : ModuleVars;
  rn_tools : ModuleVars }.
Notation runM A := (prog Runner exn A).

Definition set_rn_outbound (v : OutboundDb) (r : Runner) : Runner :=
  mkRunner (rn_now r) (rn_fresh r) (rn_inbound r) v (v :: rn_log r) (rn_state r) (rn_loop r) (rn_tools r).
Definition set_rn_state (v : gmap string string) (r : Runner) : Runner :=
  mkRunner (rn_now r) (rn_fresh r) (rn_inbound r) (rn_outbound r) (rn_log r) v (rn_loop r) (rn_tools r).
Definition set_rn_loop (v : ModuleVars) (r : Runner) : Runner :=
  mkRunner (rn_now r) (rn_fresh r) (rn_inbound r) (rn_outbound r) (rn_log r) (rn_state r) v (rn_tools r).
Definition set_rn_tools (v : ModuleVars) (r : Runner) : Runner :=
  mkRunner (rn_now r) (rn_fresh r) (rn_inbound r) (rn_outbound r) (rn_log r) (rn_state r) (rn_loop r) v.
Definition set_rn_fresh (v : nat) (r : Runner) : Runner :=
  mkRunner (rn_now r) v (rn_inbound r) (rn_outbound r) (rn_log r) (rn_state r) (rn_loop r) (rn_tools r).

(** What the host does meanwhile. *)
Definition host_moves (now : time) (inb : InboundDb) (r : Runner) : Runner :=
  mkRunner now (rn_fresh r) inb (rn_outbound r) (rn_log r) (rn_state r) (rn_loop r) (rn_tools r).

(** A statement on outbound.db, and a read of inbound.db. *)
Definition on_outbound {A} (m : time → InboundDb → outM A) : runM A := λ r,
  match m (rn_now r) (rn_inbound r) (rn_outbound r) with
  | (res, out) => (res, set_rn_outbound out r)
  end.
Definition on_inbound {A} (m : prog InboundDb exn A) : runM A := λ r,
  (match m (rn_inbound r) with (res, _) => res end, r).

(** The variables of the poll loop. *)
Definition loop_vars (f : ModuleVars → ModuleVars) : runM unit :=
  modify (λ r, set_rn_loop (f (rn_loop r)) r).
(*@ src/container/agent-runner/src/current-batch.ts 18-20 setCurrentInReplyTo *)
Definition setCurrentInReplyTo (id : option string) : runM unit := loop_vars (with_inReplyTo id).
(*@ src/container/agent-runner/src/current-batch.ts 22-24 clearCurrentInReplyTo *)
Definition clearCurrentInReplyTo : runM unit := loop_vars (with_inReplyTo None).
(*@ src/container/agent-runner/src/current-batch.ts 50-52 clearCurrentClassificationId *)
Definition clearCurrentClassificationId : runM unit := loop_vars (with_classificationId None).
(*@ src/container/agent-runner/src/request-context.ts 32-34 setRequestIdentity *)
Definition setRequestIdentity (identity : RequestIdentity) : runM unit := loop_vars (with_identity (Some identity)).
(*@ src/container/agent-runner/src/request-context.ts 40-42 clearRequestIdentity *)
Definition clearRequestIdentity : runM unit := loop_vars (with_identity None).
(** The same module, in the process of the tools. *)
(*@ src/container/agent-runner/src/current-batch.ts 46-48 setCurrentClassificationId *)
Definition setCurrentClassificationId (id : option string) : runM unit :=
  modify (λ r, set_rn_tools (with_classificationId id (rn_tools r)) r).

(** ** Key and value state *)

(*@ src/container/agent-runner/src/db/session-state.ts 16-18 continuationKey *)
Definition continuationKey (providerName : string) : string :=
  "continuation:execution:" +:+ toLowerCase providerName.
(*@ src/container/agent-runner/src/db/session-state.ts 20-22 preRoleContinuationKey *)
Definition preRoleContinuationKey (providerName : string) : string :=
  "continuation:" +:+ toLowerCase providerName.
Definition LEGACY_KEY : string := "sdk_session_id".

(*@ src/container/agent-runner/src/db/session-state.ts 24-29 getValue *)
Definition getValue (key : string) : runM (option string) := gets (λ r, rn_state r !! key).
(*@ src/container/agent-runner/src/db/session-state.ts 31-35 setValue *)
Definition setValue (key value : string) : runM unit := modify (λ r, set_rn_state (<[key := value]> (rn_state r)) r).
(*@ src/container/agent-runner/src/db/session-state.ts 37-39 deleteValue *)
Definition deleteValue (key : string) : runM unit := modify (λ r, set_rn_state (delete key (rn_state r)) r).

(*@ src/container/agent-runner/src/db/session-state.ts 56-75 migrateLegacyContinuation *)
Definition migrateLegacyContinuation (providerName : string) : runM (option string) :=
  let* legacy := getValue LEGACY_KEY in
  let currentKey := continuationKey providerName in
  let* current := getValue currentKey in
  let preRoleKey := preRoleContinuationKey providerName in
  let* preRole := getValue preRoleKey in
  match legacy, preRole with
  | None, None => ret current
  | _, _ =>
      (if legacy then deleteValue LEGACY_KEY else ret tt) ;;
      (if preRole then deleteValue preRoleKey else ret tt) ;;
      match current with
      | Some c => ret (Some c)
      | None =>
          match (match preRole with Some v => Some v | None => legacy end) with
          | Some adopted => setValue currentKey adopted ;; ret (Some adopted)
          | None => ret None
          end
      end
  end.
(*@ src/container/agent-runner/src/db/session-state.ts 81-83 setContinuation *)
Definition setContinuation (providerName id : string) : runM unit := setValue (continuationKey providerName) id.
(*@ src/container/agent-runner/src/db/session-state.ts 85-87 clearContinuation *)
Definition clearContinuation (providerName : string) : runM unit := deleteValue (continuationKey providerName).

(** ** The routing gate *)

Inductive RoutingAction := Delegate | AnswerSelf | Clarify | Reject.
#[export] Instance RoutingAction_eq : EqDecision RoutingAction.
Proof. solve_decision. Defined.
Definition action_text (a : RoutingAction) : string :=
  match a with
  | Delegate => "delegate" | AnswerSelf => "answer_self" | Clarify => "clarify" | Reject => "reject"
  end.
Definition action_of (s : string) : option RoutingAction :=
  List.find (λ a, bool_decide (action_text a = s)) [Delegate; AnswerSelf; Clarify; Reject].

(** [null] and a missing thread are read alike. *)
(*@ src/container/agent-runner/src/routing/gate.ts 6-14 RoutingGate *)
Record RoutingGate := mkRoutingGate {
  rg_decisionId : string;
  rg_anchorId : string;
  rg_action : RoutingAction;
  rg_targetAgentGroupId : option string;
  rg_originChannelType : option string;
  rg_originPlatformId : option string;
  rg_originThreadId : option string }.
#[export] Instance RoutingGate_eq : EqDecision RoutingGate.
Proof. solve_decision. Defined.

Definition ROUTING_GATE_KEY : string := "routing:active_gate".

Definition gate_json (g : RoutingGate) : json :=
  JObj ([("decisionId", JStr (rg_decisionId g)); ("anchorId", JStr (rg_anchorId g));
         ("action", JStr (action_text (rg_action g)))] ++
        jfield "targetAgentGroupId" (rg_targetAgentGroupId g) ++
        jfield "originChannelType" (rg_originChannelType g) ++
        jfield "originPlatformId" (rg_originPlatformId g) ++
        [("originThreadId", jopt (rg_originThreadId g))]).
(*@ src/container/agent-runner/src/routing/gate.ts 16-20 setRoutingGate *)
Definition setRoutingGate (g : RoutingGate) : runM unit := setValue ROUTING_GATE_KEY (JSON_stringify (gate_json g)).
(*@ src/container/agent-runner/src/routing/gate.ts 46-48 clearRoutingGate *)
Definition clearRoutingGate : runM unit := deleteValue ROUTING_GATE_KEY.

(** A field that is missing or a text; with [null] allowed or not. *)
Definition optional_text (null_ok : bool) (v : option json) : option (option string) :=
  match v with
  | None => Some None
  | Some (JStr s) => Some (Some s)
  | Some JNull => if null_ok then Some None else None
  | _ => None
  end.
(** The target is compared and not checked: a value that is no text equals
    nothing. *)
(*@ src/container/agent-runner/src/routing/gate.ts 22-44 getRoutingGate *)
Definition read_gate (value : string) : option RoutingGate :=
  match JSON_parse value with
  | Some (JObj l) =>
      decisionId ← jstring (obj_get "decisionId" l);
      anchorId ← jstring (obj_get "anchorId" l);
      originChannelType ← optional_text false (obj_get "originChannelType" l);
      originPlatformId ← optional_text false (obj_get "originPlatformId" l);
      originThreadId ← optional_text true (obj_get "originThreadId" l);
      action ← jstring (obj_get "action" l) ≫= action_of;
      Some (mkRoutingGate decisionId anchorId action (jstring (obj_get "targetAgentGroupId" l))
              originChannelType originPlatformId originThreadId)
  | _ => None
  end.
Definition active_gate (r : Runner) : option RoutingGate := rn_state r !! ROUTING_GATE_KEY ≫= read_gate.
Definition getRoutingGate : runM (option RoutingGate) := gets active_gate.

Inductive Enforced :=
| EAllowed (decisionId : option string)
| ERefused (decisionId reason : string).

(*@ src/container/agent-runner/src/routing/gate.ts 50-96 enforceRoutingDestination *)
Definition enforce (gate : option RoutingGate) (channelType platformId threadId : option string) : Enforced :=
  match gate with
  | None => EAllowed None
  | Some gate =>
      let refused := ERefused (rg_decisionId gate) in
      if negb (bool_decide (channelType = Some "agent")) then
        if negb (truthy (rg_originChannelType gate)) || negb (truthy (rg_originPlatformId gate))
        then refused "origin_destination_unavailable"
        else
          let threadMismatch := match threadId, rg_originThreadId gate with
                                | Some s, Some o => negb (bool_decide (s = o))
                                | _, _ => false
                                end in
          if negb (bool_decide (channelType = rg_originChannelType gate)) ||
             negb (bool_decide (platformId = rg_originPlatformId gate)) || threadMismatch
          then refused "non_origin_destination"
          else EAllowed (Some (rg_decisionId gate))
      else if bool_decide (rg_action gate = Delegate) && sql_eq platformId (rg_targetAgentGroupId gate)
      then EAllowed (Some (rg_decisionId gate))
      else refused (if bool_decide (rg_action gate = Delegate) then "wrong_agent_destination"
                    else "agent_destination_forbidden")
  end.
Definition enforceRoutingDestination (channelType platformId threadId : option string) : runM Enforced :=
  gets (λ r, enforce (active_gate r) channelType platformId threadId).
(*@ src/container/agent-runner/src/routing/gate.ts 106-115 enforceRoutingOpaqueOutbound *)
Definition enforceRoutingOpaqueOutbound : runM Enforced :=
  gets (λ r, match active_gate r with
             | None => EAllowed None
             | Some gate => ERefused (rg_decisionId gate) "opaque_destination_forbidden"
             end).

(** ** What they promise *)

Lemma action_of_text a : action_of (action_text a) = Some a.
Proof. by destruct a. Qed.

(** An object of texts and nulls under distinct keys. *)
Definition flat (v : json) : bool := match v with JStr _ | JNull => true | _ => false end.
Lemma flat_wf l : bool_decide (NoDup (map fst l)) = true → forallb (λ kv, flat kv.2) l = true → wf_json (JObj l).
Proof.
  intros Hk%bool_decide_eq_true Hf. rewrite forallb_forall in Hf.
  split; apply every_obj; (split; [done|]); apply Forall_forall; intros [k v] Hx%list_elem_of_In;
    specialize (Hf _ Hx); cbn in *; by destruct v.
Qed.
Lemma gate_reads_back g : read_gate (JSON_stringify (gate_json g)) = Some g.
Proof.
  unfold read_gate. rewrite json_roundtrip.
  - by destruct g as [d a [] [t|] [c|] [p|] [h|]].
  - destruct g as [d a [] [t|] [c|] [p|] [h|]]; apply flat_wf; vm_compute; reflexivity.
Qed.

(** What a decision lets out. *)
Definition permits (g : RoutingGate) (channelType platformId threadId : option string) : Prop :=
  (channelType = Some "agent" ∧ rg_action g = Delegate ∧ ∃ t, platformId = Some t ∧ rg_targetAgentGroupId g = Some t) ∨
  (channelType ≠ Some "agent" ∧ truthy channelType = true ∧ truthy platformId = true ∧
   channelType = rg_originChannelType g ∧ platformId = rg_originPlatformId g ∧
   (∀ s o, threadId = Some s → rg_originThreadId g = Some o → s = o)).
Lemma enforce_permits g channelType platformId threadId :
  ((∃ d, enforce (Some g) channelType platformId threadId = EAllowed d) ↔ permits g channelType platformId threadId) ∧
  (∀ d, enforce (Some g) channelType platformId threadId = EAllowed d → d = Some (rg_decisionId g)).
Proof.
  unfold enforce, permits.
  destruct (decide (channelType = Some "agent")) as [->|Hc].
  - cbn [negb]. rewrite (bool_decide_eq_true_2 (Some "agent" = _)) by done. cbn [negb].
    destruct (bool_decide (rg_action g = Delegate) && sql_eq platformId (rg_targetAgentGroupId g)) eqn:E.
    + apply andb_true_iff in E as [Ha%bool_decide_eq_true (t & Hp & Ht)%sql_eq_true].
      split; [|by intros d [= <-]]. split; [|eauto]. intros _. left. eauto.
    + split; [|done]. split; [by intros [d ?]|]. intros [(_ & Ha & t & Hp & Ht)|(Hn & _)]; [|done].
      apply andb_false_iff in E as [E|E]; [by rewrite bool_decide_eq_false in E|].
      rewrite Hp, Ht in E. cbn in E. by rewrite bool_decide_eq_false in E.
  - rewrite (bool_decide_eq_false_2 (channelType = _)) by done. cbn [negb].
    destruct (negb (truthy (rg_originChannelType g)) || negb (truthy (rg_originPlatformId g))) eqn:Eo.
    { split; [|done]. split; [by intros [d ?]|]. intros [[? _]|(_ & H1 & H2 & -> & -> & _)]; [done|].
      by rewrite H1, H2 in Eo. }
    apply orb_false_iff in Eo as [E1%negb_false_iff E2%negb_false_iff].
    destruct (_ || _ || _) eqn:E.
    + split; [|done]. split; [by intros [d ?]|]. intros [[? _]|(_ & _ & _ & -> & -> & Ht)]; [done|].
      rewrite !bool_decide_eq_true_2 in E by done. cbn in E.
      destruct threadId as [s|], (rg_originThreadId g) as [o|]; try done.
      by rewrite bool_decide_eq_true_2 in E by eauto.
    + apply orb_false_iff in E as [E Et]. apply orb_false_iff in E as [Ec%negb_false_iff Ep%negb_false_iff].
      apply bool_decide_eq_true in Ec as ->. apply bool_decide_eq_true in Ep as ->.
      split; [|by intros d [= <-]]. split; [|eauto]. intros _. right. split_and!; try done.
      intros s o -> Ho. rewrite Ho in Et. by apply negb_false_iff, bool_decide_eq_true in Et.
Qed.

(** C11: A routed turn cannot leave the route: once [setRoutingGate] has stored a
    decision, [enforceRoutingDestination] lets a message out exactly to the chat
    the turn came from, in its thread when both name one, or, under a delegation,
    to the one agent chosen; and what it lets out carries the decision
    (routing/gate.ts). *)
Theorem gate_confines_the_turn g channelType platformId threadId r :
  ∃ e r', bind (setRoutingGate g) (λ _, enforceRoutingDestination channelType platformId threadId) r = (Ok e, r') ∧
  ((∃ d, e = EAllowed d) ↔ permits g channelType platformId threadId) ∧
  (∀ d, e = EAllowed d → d = Some (rg_decisionId g)).
Proof.
  unfold setRoutingGate, setValue, enforceRoutingDestination. rewrite bind_modify. unfold gets, active_gate.
  cbn [rn_state set_rn_state]. rewrite lookup_insert_eq. cbn [mbind option_bind]. rewrite gate_reads_back.
  eexists _, _. split; [done|]. apply enforce_permits.
Qed.

Lemma own_key_differs p : continuationKey p ≠ LEGACY_KEY ∧ continuationKey p ≠ preRoleContinuationKey p.
Proof.
  split; [done|]. unfold continuationKey, preRoleContinuationKey. generalize (toLowerCase p). intros s H.
  apply (f_equal String.length) in H. revert H.
  change ("continuation:execution:" +:+ s) with ("continuation:" +:+ ("execution:" +:+ s)).
  assert (L : ∀ t, String.length ("continuation:" +:+ t) = (13 + String.length t)%nat) by done.
  rewrite !L. change (String.length ("execution:" +:+ s)) with (10 + String.length s)%nat. lia.
Qed.

(** [migrateLegacyContinuation] settles once: it returns what the provider's
    own slot holds afterwards, the slots of former versions are gone, no other
    entry of the state is touched, and a second start finds the same
    (db/session-state.ts). *)
Theorem continuation_migrates_once providerName r :
  let '(res, r') := migrateLegacyContinuation providerName r in
  let own := continuationKey providerName in
  let old := [LEGACY_KEY; preRoleContinuationKey providerName] in
  ∃ c, res = Ok c ∧ rn_state r' !! own = c ∧
    (∀ k, rn_state r !! own = Some k → c = Some k) ∧
    (∀ key, key ∈ old → rn_state r' !! key = None) ∧
    (∀ key, key ≠ own → key ∉ old → rn_state r' !! key = rn_state r !! key) ∧
    migrateLegacyContinuation providerName r' = (Ok c, r').
Proof.
  destruct (own_key_differs providerName) as [Hl Hp].
  assert (Hlp : LEGACY_KEY ≠ preRoleContinuationKey providerName) by done.
  set (own := continuationKey providerName) in *. set (pre := preRoleContinuationKey providerName) in *.
  assert (Hend : ∀ r' : Runner, rn_state r' !! LEGACY_KEY = None → rn_state r' !! pre = None →
    migrateLegacyContinuation providerName r' = (Ok (rn_state r' !! own), r')).
  { intros r' H1 H2. unfold migrateLegacyContinuation, getValue. rewrite !bind_gets. fold own pre. by rewrite H1, H2. }
  destruct (migrateLegacyContinuation providerName r) as [res r'] eqn:E. revert E.
  unfold migrateLegacyContinuation at 1, getValue. rewrite !bind_gets. fold own pre.
  destruct (rn_state r !! LEGACY_KEY) as [legacy|] eqn:E1, (rn_state r !! pre) as [preRole|] eqn:E2;
    destruct (rn_state r !! own) as [current|] eqn:E3; intros E; injection E as <- <-;
    (eexists; split; [done|]; split; [cbn; by simplify_map_eq|]; split; [naive_solver|]; split;
      [intros key [<-|[<-|[]]]%list_elem_of_In; cbn; by simplify_map_eq|]; split;
      [intros key H1 H2; assert (key ≠ LEGACY_KEY ∧ key ≠ pre) as [? ?] by set_solver; cbn; by simplify_map_eq|];
      rewrite Hend by (cbn; by simplify_map_eq); do 2 f_equal; cbn; by simplify_map_eq).
Qed.
