(* ===== verification/MessageBlocks.v ===== *)
(** * The blocks of an answer (container/agent-runner/src/poll-loop.ts)

    The agent addresses its answer with message blocks; the text around them is
    its scratchpad.  Texts are lists of bytes here, so that what a regular
    expression matched can be taken off the front. *)
From S2P Require Import Prelude JsString.
From Stdlib Require Import Ascii.

Local Open Scope char_scope.
Local Open Scope nat_scope.
Local Open Scope list_scope.

Notation bytes := (list ascii).
Definition bytes_of (s : string) : bytes := String.list_ascii_of_string s.
Definition text_of (l : bytes) : string := String.string_of_list_ascii l.

(** What follows [p] at the front of [l]. *)
Fixpoint strip (p l : bytes) : option bytes :=
  match p, l with
  | [], _ => Some l
  | c :: p', d :: l' => if Ascii.eqb c d then strip p' l' else None
  | _ :: _, [] => None
  end.
Definition lit (p : string) (l : bytes) : option bytes := strip (bytes_of p) l.

Notation "m |> k" := (match m with Some r => k r | None => None end) (at level 50, left associativity, only parsing).

(** [\s*] and [\s+] *)
Definition spaces0 (l : bytes) : bytes := drop_ws ws_chars (length l) l.
Definition spaces1 (l : bytes) : option bytes := option_map spaces0 (strip_any ws_chars l).

(** The lookahead [(?=\s+to=)]. *)
Definition to_follows (l : bytes) : bool :=
  match spaces1 l |> lit "to=" with Some _ => true | None => false end.

(** [(^|[\s>])] behind, [seen] being what stands before, reversed. *)
Definition at_boundary (seen : bytes) : bool :=
  match seen with
  | [] => true
  | c :: _ => Ascii.eqb c ">" || match strip_any (map (@rev nat) ws_chars) seen with Some _ => true | None => false end
  end.

(** [s.replace(/m/g, rep)]: [m] is what a match leaves of the text. *)
Fixpoint replace_all (n : nat) (m : bytes → bytes → option bytes) (rep : string) (seen l : bytes) : bytes :=
  match n, l with
  | S n', c :: l' =>
      match m seen l with
      | Some rest => bytes_of rep ++ replace_all n' m rep (rev (take (length l - length rest) l) ++ seen) rest
      | None => c :: replace_all n' m rep (c :: seen) l'
      end
  | _, _ => l
  end.
Definition replaced (m : bytes → bytes → option bytes) (rep : string) (l : bytes) : bytes :=
  replace_all (length l) m rep [] l.

Definition dsml_delimiter (_ l : bytes) : option bytes :=
  match lit "<｜｜DSML｜｜parameter>" l with
  | Some r => Some r
  | None => lit "</｜｜DSML｜｜parameter>" l
  end.
Definition when_to (l : bytes) : option bytes := if to_follows l then Some l else None.
Definition slash_message (seen l : bytes) : option bytes :=
  if at_boundary seen then lit "/message" l |> when_to else None.
Definition spaced_message (_ l : bytes) : option bytes := lit "<" l |> spaces1 |> lit "message" |> when_to.
Definition closing (l : bytes) : option bytes :=
  r ← lit "message" (spaces0 l);
  lit ">" (spaces0 r).
Definition spaced_close (_ l : bytes) : option bytes := lit "</" l |> closing.
Definition any_close (_ l : bytes) : option bytes :=
  r ← lit "<" l;
  lit "/" (spaces0 r) |> closing.

(*@ src/container/agent-runner/src/poll-loop.ts 1233-1245 normalizeMessageBlocks *)
Definition normalize_bytes (l : bytes) : bytes :=
  replaced any_close "</message>"
    (replaced spaced_close "</message>"
       (replaced spaced_message "<message"
          (replaced slash_message "<message"
             (replaced dsml_delimiter "" l)))).
Definition normalizeMessageBlocks (text : string) : string := text_of (normalize_bytes (bytes_of text)).

(** [([^q]+)q]: what stands before the next [q], when something does. *)
Fixpoint up_to (q : ascii) (l : bytes) : option (bytes * bytes) :=
  match l with
  | [] => None
  | c :: l' => if Ascii.eqb c q then Some ([], l') else option_map (λ p, (c :: p.1, p.2)) (up_to q l')
  end.
(** [([\s\S]*?)</message>] *)
Fixpoint up_to_close (l : bytes) : option (bytes * bytes) :=
  match lit "</message>" l with
  | Some r => Some ([], r)
  | None => match l with
            | [] => None
            | c :: l' => option_map (λ p, (c :: p.1, p.2)) (up_to_close l')
            end
  end.

Definition quote_char : ascii := "034".
(** A match of MESSAGE_RE at the front of [l]: its name, its body, the rest. *)
(*@ src/container/agent-runner/src/poll-loop.ts 1249-1249 dispatchResultText *)
Definition match_block (l : bytes) : option (bytes * bytes * bytes) :=
  r ← lit "<message" l |> spaces1 |> lit "to=" |> strip [quote_char];
  name ← up_to quote_char r;
  match name.1 with
  | [] => None
  | _ :: _ =>
      b ← lit ">" (spaces0 name.2);
      body ← up_to_close b;
      Some (name.1, body.1, body.2)
  end.

(** The matches of [exec], one after the other, [n] bounding their positions. *)
(*@ src/container/agent-runner/src/poll-loop.ts 1256-1262 dispatchResultText *)
Fixpoint blocks (n : nat) (l : bytes) : list (string * string) :=
  match n with
  | O => []
  | S n' =>
      match match_block l with
      | Some (name, body, rest) => (text_of name, text_of body) :: blocks n' rest
      | None => match l with [] => [] | _ :: l' => blocks n' l' end
      end
  end.
Definition message_blocks (text : string) : list (string * string) :=
  blocks (S (String.length text)) (bytes_of text).

(** ** Reading back *)

Lemma strip_app p l : strip p (p ++ l) = Some l.
Proof. induction p as [|c p IH]; [by destruct l|]. simpl. by rewrite Ascii.eqb_refl. Qed.
Lemma bytes_app (s t : string) : bytes_of (s +:+ t) = bytes_of s ++ bytes_of t.
Proof.
  unfold bytes_of. induction s as [|c s IH]; [done|].
  change (String c s +:+ t) with (String c (s +:+ t)). simpl. by rewrite IH.
Qed.
Lemma bytes_back s : text_of (bytes_of s) = s.
Proof. apply String.string_of_list_ascii_of_string. Qed.

Lemma up_to_app q l r : q ∉ l → up_to q (l ++ q :: r) = Some (l, r).
Proof.
  induction l as [|c l IH]; simpl; [by rewrite Ascii.eqb_refl|].
  intros [Hc Hl]%not_elem_of_cons. rewrite (proj2 (Ascii.eqb_neq c q)) by congruence. by rewrite IH.
Qed.
Lemma lit_close_cons c l :
  lit "</message>" (c :: l) = if Ascii.eqb "<" c then strip (bytes_of "/message>") l else None.
Proof. done. Qed.
Lemma up_to_close_app l r : "<" ∉ l → up_to_close (l ++ bytes_of "</message>" ++ r) = Some (l, r).
Proof.
  induction l as [|c l IH].
  - intros _. destruct r; done.
  - intros [Hc Hl]%not_elem_of_cons. change ((c :: l) ++ ?x) with (c :: (l ++ x)).
    cbn [up_to_close]. rewrite lit_close_cons, (proj2 (Ascii.eqb_neq "<" c)) by congruence. by rewrite IH.
Qed.

(** A block as the agent is told to write it. *)
Definition block_text (b : string * string) : string :=
  "<message to=" +:+ String quote_char b.1 +:+ String quote_char (">" +:+ b.2 +:+ "</message>").
Definition plain_block (b : string * string) : Prop :=
  b.1 ≠ ""%string ∧ quote_char ∉ bytes_of b.1 ∧ "<" ∉ bytes_of b.2.

Lemma block_bytes b r :
  bytes_of (block_text b) ++ r =
  bytes_of "<message to=" ++ quote_char :: (bytes_of b.1 ++ quote_char :: (">"%char :: (bytes_of b.2 ++ bytes_of "</message>" ++ r))).
Proof.
  destruct b as [name body]. unfold block_text. cbn [fst snd]. rewrite bytes_app.
  change (bytes_of (String quote_char ?s)) with (quote_char :: bytes_of s).
  change (bytes_of (String quote_char (name +:+ String quote_char (">" +:+ body +:+ "</message>"))))
    with (quote_char :: bytes_of (name +:+ String quote_char (">" +:+ body +:+ "</message>"))).
  rewrite bytes_app. change (bytes_of (String quote_char (">" +:+ body +:+ "</message>")))
    with (quote_char :: ">"%char :: bytes_of (body +:+ "</message>")).
  rewrite bytes_app. rewrite <-!app_assoc. cbn [app]. by rewrite <-!app_assoc.
Qed.

Lemma match_block_text b r : plain_block b →
  match_block (bytes_of (block_text b) ++ r) = Some (bytes_of b.1, bytes_of b.2, r).
Proof.
  destruct b as [name body]. intros (Hn & Hq & Hb). rewrite block_bytes. cbn [fst snd] in *.
  set (x := ">" :: (bytes_of body ++ bytes_of "</message>" ++ r)).
  change (match_block (bytes_of "<message to=" ++ quote_char :: (bytes_of name ++ quote_char :: x))) with
    (name ← up_to quote_char (bytes_of name ++ quote_char :: x);
     match name.1 with
     | [] => None
     | _ :: _ => b ← lit ">" (spaces0 name.2); body ← up_to_close b; Some (name.1, body.1, body.2)
     end).
  rewrite up_to_app by done. cbn [mbind option_bind fst snd].
  destruct (bytes_of name) as [|c n'] eqn:En; [by destruct name|].
  change (lit ">" (spaces0 x)) with (Some (bytes_of body ++ bytes_of "</message>" ++ r)).
  cbn [mbind option_bind]. by rewrite up_to_close_app.
Qed.

Lemma no_block_here c l : c ≠ "<" → match_block (c :: l) = None.
Proof.
  intros Hc. unfold match_block. change (lit "<message" (c :: l)) with
    (if Ascii.eqb "<" c then strip (bytes_of "message") l else None).
  by rewrite (proj2 (Ascii.eqb_neq "<" c)) by congruence.
Qed.
Lemma blocks_skip pre l : ∀ n, "<" ∉ pre → length pre <= n → blocks n (pre ++ l) = blocks (n - length pre) l.
Proof.
  induction pre as [|c pre IH]; intros n Hp Hn; [by rewrite Nat.sub_0_r|].
  apply not_elem_of_cons in Hp as [Hc Hp]. destruct n as [|n]; [simpl in Hn; lia|].
  change ((c :: pre) ++ l) with (c :: (pre ++ l)). cbn [blocks]. rewrite no_block_here by congruence.
  cbn [length] in *. rewrite IH by (done || lia). f_equal.
Qed.

(** A text with blocks in it. *)
Fixpoint printed (l : list (string * (string * string))) (last : string) : string :=
  match l with
  | [] => last
  | (pre, b) :: l' => pre +:+ (block_text b +:+ printed l' last)
  end.

Lemma blocks_printed l last : Forall (λ p, "<" ∉ bytes_of p.1 ∧ plain_block p.2) l → "<" ∉ bytes_of last →
  ∀ n, length (bytes_of (printed l last)) < n → blocks n (bytes_of (printed l last)) = map snd l.
Proof.
  intros Hl Hlast. induction Hl as [|[pre b] l [Hp Hb] _ IH]; intros n Hn; cbn [printed] in *.
  - rewrite <-(app_nil_r (bytes_of last)), blocks_skip by (done || lia). by destruct (n - _).
  - rewrite !bytes_app in *. rewrite !length_app in Hn. rewrite blocks_skip by (done || lia).
    assert (0 < length (bytes_of (block_text b))) by (unfold block_text; rewrite bytes_app; cbn; lia).
    destruct (n - length (bytes_of pre)) as [|k] eqn:Ek; [lia|].
    cbn [blocks map snd fst] in *. rewrite match_block_text by done. rewrite !bytes_back, IH by lia. by destruct b.
Qed.

Lemma bytes_length s : length (bytes_of s) = String.length s.
Proof. unfold bytes_of. induction s as [|c s IH]; simpl; by rewrite ?IH. Qed.

(** What the agent writes as blocks is dispatched as blocks: a list of blocks
    with plain names and bodies, each after a text that opens none, is read back
    by the matching of [dispatchResultText] as exactly those names and bodies, in
    their order (poll-loop.ts). *)
Theorem printed_blocks_read_back l last :
  Forall (λ p, "<" ∉ bytes_of p.1 ∧ plain_block p.2) l → "<" ∉ bytes_of last →
  message_blocks (printed l last) = map snd l.
Proof. intros Hl Hlast. apply blocks_printed; [done|done|]. rewrite bytes_length. lia. Qed.

Lemma printed_blocks_witness :
  message_blocks (printed [("Working on it. ", ("ann", "Done, see 3 > 2.")); (" and ", ("ops", "FYI"))] " bye")%string
    = [("ann", "Done, see 3 > 2."); ("ops", "FYI")]%string.
Proof.
  apply (printed_blocks_read_back [("Working on it. ", ("ann", "Done, see 3 > 2.")); (" and ", ("ops", "FYI"))]%string " bye"%string).
  - repeat constructor; cbn; try discriminate; apply (bool_decide_eq_true_1 _); vm_compute; reflexivity.
  - apply (bool_decide_eq_true_1 _). vm_compute. reflexivity.
Defined.

(** What a careless model writes is taken for what it meant. *)
Example normalized_ex :
  message_blocks (normalizeMessageBlocks
    ("/message to=" +:+ String quote_char ("ann" +:+ String quote_char ">hi< / message >"%string)))
    = [("ann", "hi")]%string.
Proof. vm_compute. reflexivity. Qed.
