(* ===== verification/PollLoop.v ===== *)
(** * The stream of a turn (container/agent-runner/src/poll-loop.ts,
    scheduling/task-script.ts)

    While a query of the provider is open, two things happen in turn: an event of
    the stream is handled, and every half second a tick looks for new rows.  The
    tick awaits the scripts of its tasks in the middle, so it is two operations,
    and a run is a list of steps in any order. *)
From S2P Require Import Prelude JsString Json JsonProofs Types Central SessionDb ContainerDb Formatter RequestIdentity Runner MessageBlocks.
From stdpp Require Import gmap pretty.

Local Open Scope string_scope.
Local Open Scope Z_scope.
Local Open Scope list_scope.
Local Open Scope prog_scope.

(** ** Scripts of tasks *)

(** What a script printed: [wakeAgent] and [data]; [None] when it failed or did
    not print that. *)
Definition ScriptRun : Type := string → string → option (bool * option json).

(** A task whose script asks for the agent carries what it printed. *)
(*@ src/container/agent-runner/src/scheduling/task-script.ts 79-121 applyPreTaskScripts *)
Fixpoint applyPreTaskScripts {S} (runScript : ScriptRun) (messages : list MessageIn)
    : prog S exn (list MessageIn * list string) :=
  match messages with
  | [] => ret ([], [])
  | msg :: rest =>
      let go_on (keep : list MessageIn) (skipped : list string) :=
        let* r := applyPreTaskScripts runScript rest in
        ret (keep ++ r.1, skipped ++ r.2) in
      if negb (bool_decide (mi_kind msg = "task")) then go_on [msg] []
      else
        match JSON_parse (mi_content msg) with
        | None => go_on [msg] []
        | Some content =>
            let* script := prop "script" (Some content) in
            match script, content with
            | Some (JStr s), JObj fields =>
                if bool_decide (s = "") then go_on [msg] []
                else
                  match runScript (mi_id msg) s with
                  | Some (true, data) =>
                      go_on [with_content (JSON_stringify (JObj (obj_set "scriptOutput" (default JNull data) fields))) msg] []
                  | _ => go_on [] [mi_id msg]
                  end
            | _, _ => go_on [msg] []
            end
        end
  end.

(** ** Events *)

(*@ src/container/agent-runner/src/providers/types.ts 144-150 ProviderEvent *)
Record UsageEvent := mkUsageEvent {
  us_model : string;
  us_inputTokens : option Z;
  us_outputTokens : option Z;
  us_totalTokens : option Z;
  us_durationMs : option Z;
  us_transport : option string }.

(*@ src/container/agent-runner/src/providers/types.ts 101-170 ProviderEvent *)
Inductive ProviderEvent :=
| EvInit (continuation : string)
| EvResult (text : option string)
| EvError (message : string)
| EvProgress (message : string)
| EvActivity
| EvCompacted (summary : option string)
| EvUsage (usage : UsageEvent).

(** What the runner does to the query. *)
Inductive QueryCall := QPush (message : string) | QReminder (text : string) | QEnd.

(** The variables of [runQuery]; [lv_inFlight] has the rows whose scripts are
    awaited, [lv_calls] what was done to the query, in order. *)
(*@ src/container/agent-runner/src/poll-loop.ts 801-835 runQuery *)
Record Live := mkLive {
  lv_continuation : option string;
  lv_pendingAck : list string;
  lv_done : bool;
  lv_inFlight : option (list MessageIn);
  lv_endedForCommand : bool;
  lv_hasPendingUserTurn : bool;
  lv_calls : list QueryCall }.
Definition start_live (initialBatchIds : list string) : Live :=
  mkLive None initialBatchIds false None false false [].
Definition with_continuation (c : string) (l : Live) : Live :=
  mkLive (Some c) (lv_pendingAck l) (lv_done l) (lv_inFlight l) (lv_endedForCommand l) (lv_hasPendingUserTurn l) (lv_calls l).
Definition with_pendingAck (v : list string) (l : Live) : Live :=
  mkLive (lv_continuation l) v (lv_done l) (lv_inFlight l) (lv_endedForCommand l) (lv_hasPendingUserTurn l) (lv_calls l).
Definition with_done (l : Live) : Live :=
  mkLive (lv_continuation l) (lv_pendingAck l) true (lv_inFlight l) (lv_endedForCommand l) (lv_hasPendingUserTurn l) (lv_calls l).
Definition with_inFlight (v : option (list MessageIn)) (l : Live) : Live :=
  mkLive (lv_continuation l) (lv_pendingAck l) (lv_done l) v (lv_endedForCommand l) (lv_hasPendingUserTurn l) (lv_calls l).
Definition with_ended (l : Live) : Live :=
  mkLive (lv_continuation l) (lv_pendingAck l) (lv_done l) (lv_inFlight l) true (lv_hasPendingUserTurn l) (lv_calls l).
Definition with_userTurn (l : Live) : Live :=
  mkLive (lv_continuation l) (lv_pendingAck l) (lv_done l) (lv_inFlight l) (lv_endedForCommand l) true (lv_calls l).
Definition with_call (c : QueryCall) (l : Live) : Live :=
  mkLive (lv_continuation l) (lv_pendingAck l) (lv_done l) (lv_inFlight l) (lv_endedForCommand l) (lv_hasPendingUserTurn l)
    (lv_calls l ++ [c]).

(** [set.add] *)
Definition set_add (x : string) (l : list string) : list string :=
  if bool_decide (x ∈ l) then l else l ++ [x].

Section loop.
Context (sqlite_datetime : string → option Z) (formatLocalTime : stext → string) (TIMEZONE : string)
  (text_of_value : json → string) (generateId : nat → string) (maxMessages : nat) (providerName : string).

Definition newId : runM string := λ r, (Ok (generateId (rn_fresh r)), set_rn_fresh (S (rn_fresh r)) r).
Definition write_out (msg : WriteMessageOut) : runM Z := on_outbound (λ now inb, writeMessageOut now inb msg).
Definition mark_processing (ids : list string) : runM unit := on_outbound (λ now _, markProcessing now ids).
Definition mark_completed (ids : list string) : runM unit := on_outbound (λ now _, markCompleted now ids).
Definition release (ids : list string) : runM unit := on_outbound (λ _ _, releaseProcessing ids).
Definition pending_messages : runM (list MessageIn) :=
  gets (λ r, getPendingMessages sqlite_datetime (rn_now r) maxMessages (rn_inbound r) (rn_outbound r)).
Definition ids_of (l : list MessageIn) : list string := map mi_id l.

(** ** Sending *)

(** The latest message of that chat, for an agent the one the turn answers. *)
(*@ src/container/agent-runner/src/poll-loop.ts 1366-1406 resolveDestinationThread *)
Definition resolveDestinationThread (channelType platformId : option string) (r : Runner)
    : option (option string * string) :=
  let from_there m := sql_eq (mi_channel_type m) channelType && sql_eq (mi_platform_id m) platformId in
  let latest := sql_first_by seq_desc (sql_where from_there (messages_in (rn_inbound r))) in
  let anchor :=
    if bool_decide (channelType = Some "agent") && truthy (mv_inReplyTo (rn_loop r))
    then sql_first (λ m, bool_decide (Some (mi_id m) = mv_inReplyTo (rn_loop r)) && from_there m)
           (messages_in (rn_inbound r))
    else None in
  match anchor with
  | Some m => Some (mi_thread_id m, mi_id m)
  | None => option_map (λ m, (mi_thread_id m, mi_id m)) latest
  end.

(*@ src/container/agent-runner/src/poll-loop.ts 1309-1360 sendToDestination *)
Definition sendToDestination (dest : DestinationEntry) (body : string) (routing : RoutingContext) : runM unit :=
  let is_channel := bool_decide (dn_type dest = TargetChannel) in
  let platformId := if is_channel then dn_platformId dest else dn_agentGroupId dest in
  let channelType := if is_channel then dn_channelType dest else Some "agent" in
  let isOriginChannel := is_channel && bool_decide (channelType = rc_channelType routing) &&
                         bool_decide (platformId = rc_platformId routing) in
  let candidateThreadId := if isOriginChannel then rc_threadId routing else None in
  let* gate := enforceRoutingDestination channelType platformId candidateThreadId in
  match gate with
  | ERefused _ _ => ret tt
  | EAllowed decisionId =>
      let* found := gets (resolveDestinationThread channelType platformId) in
      let destRouting :=
        if truthy decisionId && isOriginChannel
        then Some (rc_threadId routing, rc_inReplyTo routing)
        else option_map (λ p, (p.1, Some p.2)) found in
      let* current := gets (λ r, mv_classificationId (rn_loop r)) in
      let* identity := gets (λ r, mv_identity (rn_loop r)) in
      let isA2a := bool_decide (channelType = Some "agent") in
      let classificationId := match decisionId with Some d => Some d | None => if isA2a then current else None end in
      let content := JObj ([("text", JStr body)] ++
        if truthy classificationId then jfield "_classificationId" classificationId else []) in
      let* id := newId in
      let* _ := write_out (mkWriteMessageOut id
        (match destRouting with Some (_, Some i) => Some i | _ => rc_inReplyTo routing end) None None "chat"
        platformId channelType (destRouting ≫= fst) (JSON_stringify content)
        (a2aOriginUserId identity (default "" channelType))) in
      ret tt
  end.

(** The blocks whose destination is known; their number. *)
Fixpoint dispatch_blocks (routing : RoutingContext) (l : list (string * string)) : runM nat :=
  match l with
  | [] => ret O
  | (toName, body) :: rest =>
      let* dest := gets (λ r, findByName toName (rn_inbound r)) in
      match dest with
      | None => dispatch_blocks routing rest
      | Some dest =>
          sendToDestination dest (trim body) routing ;;
          let* sent := dispatch_blocks routing rest in
          ret (S sent)
      end
  end.

(*@ src/container/agent-runner/src/poll-loop.ts 1247-1307 dispatchResultText *)
Definition dispatchResultText (text : string) (routing : RoutingContext) : runM unit :=
  let cleaned := normalizeMessageBlocks text in
  let* sent := dispatch_blocks routing (message_blocks cleaned) in
  if (sent =? 0)%nat && negb (bool_decide (trim cleaned = "")) then
    let* sourceDest := gets (λ r, findByRouting (rc_channelType routing) (rc_platformId routing) (rn_inbound r)) in
    match sourceDest with
    | Some d => sendToDestination d (trim cleaned) routing
    | None =>
        let* all := gets (λ r, getAllDestinations (rn_inbound r)) in
        match all with
        | [d] => sendToDestination d (trim cleaned) routing
        | _ => ret tt
        end
    end
  else ret tt.

(** ** Handling an event *)

Definition number (k : string) (o : option Z) : list (string * json) :=
  match o with Some n => [(k, JNum n)] | None => [] end.
Definition usage_json (gate : option RoutingGate) (u : UsageEvent) : json :=
  JObj ((match gate with
         | Some g => [("phase", JStr "execution"); ("provider", JStr providerName);
                      ("routingDecisionId", JStr (rg_decisionId g))]
         | None => []
         end) ++
        [("model", JStr (us_model u))] ++ number "inputTokens" (us_inputTokens u) ++
        number "outputTokens" (us_outputTokens u) ++ number "totalTokens" (us_totalTokens u) ++
        number "durationMs" (us_durationMs u) ++ jfield "transport" (us_transport u)).

Definition reminder (destinations : list DestinationEntry) : string :=
  "[system] Context was just compacted. Reminder: you have " +:+ pretty (length destinations) +:+
  " destinations (" +:+ String.concat ", " (map dn_name destinations) +:+ "). Use <message to=" +:+ dq +:+ "name" +:+
  dq +:+ "> blocks to address them. Bare text goes to the scratchpad fallback only.".

(*@ src/container/agent-runner/src/poll-loop.ts 1150-1171 runQuery *)
Definition write_usage (routing : RoutingContext) (u : UsageEvent) : runM unit :=
  let* gate := getRoutingGate in
  let* id := newId in
  let* _ := write_out (mkWriteMessageOut id None None None "llm-usage" (rc_platformId routing)
    (rc_channelType routing) (rc_threadId routing) (JSON_stringify (usage_json gate u)) None) in
  ret tt.

(** The output is written before the rows are acknowledged.  The flush of a
    compaction summary to the gateway is not modelled. *)
(*@ src/container/agent-runner/src/poll-loop.ts 995-1062 runQuery *)
Definition on_event (routing : RoutingContext) (ev : ProviderEvent) (lv : Live) : runM Live :=
  match ev with
  | EvInit c => setContinuation providerName c ;; ret (with_continuation c lv)
  | EvResult text =>
      (if truthy text then dispatchResultText (default "" text) routing else ret tt) ;;
      mark_completed (lv_pendingAck lv) ;;
      ret (with_pendingAck [] lv)
  | EvCompacted _ =>
      let* ds := gets (λ r, getAllDestinations (rn_inbound r)) in
      ret (if (1 <? length ds)%nat then with_call (QReminder (reminder ds)) lv else lv)
  | EvUsage u => write_usage routing u ;; ret lv
  | EvError _ | EvProgress _ | EvActivity => ret lv
  end.

(** ** The tick *)

(** [pending.some(isRunnerCommand)] *)
Fixpoint some_command {S} (l : list MessageIn) : prog S exn bool :=
  match l with
  | [] => ret false
  | m :: l' =>
      let* c := isRunnerCommand m in
      if c : bool then ret true else some_command l'
  end.

(*@ src/container/agent-runner/src/poll-loop.ts 836-891 runQuery *)
Definition tick (lv : Live) : runM Live :=
  if lv_done lv || (if lv_inFlight lv then true else false) || lv_endedForCommand lv || lv_hasPendingUserTurn lv
  then ret lv
  else
    try_catch
      (let* pending := pending_messages in
       if existsb (λ m, is_chat m && mi_trigger m) pending then
         let* gate := getRoutingGate in
         ret (if gate then with_call QEnd (with_userTurn lv) else with_userTurn lv)
       else
         let* command := some_command pending in
         if command : bool then ret (with_call QEnd (with_ended lv))
         else
           let newMessages := List.filter (λ m, negb (bool_decide (mi_kind m = "system"))) pending in
           match newMessages with
           | [] => ret lv
           | _ =>
               mark_processing (ids_of newMessages) ;;
               ret (with_inFlight (Some newMessages) lv)
           end)
      (λ _, ret lv).

(*@ src/container/agent-runner/src/poll-loop.ts 897-991 runQuery *)
Definition tick_scripts (runScript : ScriptRun) (lv0 : Live) : runM Live :=
  match lv_inFlight lv0 with
  | None => ret lv0
  | Some newMessages =>
      let lv := with_inFlight None lv0 in
      try_catch
        (let* preTask := applyPreTaskScripts runScript newMessages in
         let (keep, skipped) := (preTask : list MessageIn * list string) in
         mark_completed skipped ;;
         match keep with
         | [] => ret lv
         | _ =>
             if lv_done lv then release (ids_of keep) ;; ret lv
             else
               let (keep, defer) := splitBatchByTurn keep in
               release (ids_of defer) ;;
               match keep with
               | [] => ret lv
               | _ =>
                   let* current := gets (λ r, mv_identity (rn_loop r)) in
                   if shouldEndForTurnChange current (resolveBatchIdentity keep) then
                     release (ids_of keep) ;; ret (with_call QEnd (with_ended lv))
                   else
                     let* prompt := on_inbound (formatMessages formatLocalTime TIMEZONE text_of_value true keep) in
                     ret (with_pendingAck (foldl (λ acc id, set_add id acc) (lv_pendingAck lv) (ids_of keep))
                            (with_call (QPush prompt) lv))
               end
         end)
        (λ _, ret lv)
  end.

(** ** The run of a stream *)

Inductive StreamStep :=
| SEvent (ev : ProviderEvent)
| STick
| SScripts (runScript : ScriptRun)
| SHost (now : time) (inb : InboundDb).

Definition stream_step (routing : RoutingContext) (s : StreamStep) (lv : Live) : runM Live :=
  match s with
  | SEvent ev => on_event routing ev lv
  | STick => tick lv
  | SScripts runScript => tick_scripts runScript lv
  | SHost now inb => modify (host_moves now inb) ;; ret lv
  end.
Fixpoint stream_steps (routing : RoutingContext) (l : list StreamStep) (lv : Live) : runM Live :=
  match l with
  | [] => ret lv
  | s :: l' => let* lv' := stream_step routing s lv in stream_steps routing l' lv'
  end.

(** The stream ends, or fails with [failure]. *)
(*@ src/container/agent-runner/src/poll-loop.ts 1175-1193 runQuery *)
Definition runQuery (routing : RoutingContext) (initialBatchIds : list string) (steps : list StreamStep)
    (failure : option exn) : runM Live :=
  let* lv := stream_steps routing steps (start_live initialBatchIds) in
  match failure with
  | Some e => throw e
  | None => ret (with_done lv)
  end.
End loop.
