(* ===== verification/PollLoopProofs.v ===== *)
(** * What the poll loop's turns promise, and the queries of its providers
    (container/agent-runner/src/poll-loop.ts, providers/)

    First a relational reading of programs; then the queries of the three
    providers as state machines; then the theorems on the stream of a turn. *)
From stdpp Require Import gmap pretty.
From S2P Require Import Prelude JsString Json Types JsonProofs Central SessionDb ContainerDb Formatter FormatterProofs RequestIdentity Runner MessageBlocks PollLoop.

(** ** Programs that stay within a relation

    [related R m]: every run of [m], returning or throwing, takes a state to one
    it is [R]-related to.  For a preorder [R] the property composes along the
    program, as [preserves] of the prelude does for a predicate. *)

Definition related {S E A} (R : relation S) (m : prog S E A) : Prop := ∀ s, R s (m s).2.

Create HintDb related.

Section related.
Context {S E : Type} (R : relation S).

Lemma related_ret `{!PreOrder R} {A} (a : A) : related R (ret (E:=E) a).
Proof. intros s. simpl. reflexivity. Qed.
Lemma related_throw `{!PreOrder R} {A} (e : E) : related R (throw (A:=A) e).
Proof. intros s. simpl. reflexivity. Qed.
Lemma related_gets `{!PreOrder R} {A} (f : S → A) : related R (gets (E:=E) f).
Proof. intros s. simpl. reflexivity. Qed.
Lemma related_modify (f : S → S) : (∀ s, R s (f s)) → related R (modify (E:=E) f).
Proof. intros H s. apply H. Qed.
Lemma related_bind `{!PreOrder R} {A B} (m : prog S E A) (k : A → prog S E B) :
  related R m → (∀ a, related R (k a)) → related R (bind m k).
Proof.
  intros Hm Hk s. unfold bind. specialize (Hm s). destruct (m s) as [[a|e] s1]; simpl in *; [|done].
  transitivity s1; [done|]. apply Hk.
Qed.
(** The continuation may assume what the value says of the state. *)
Lemma related_gets_bind {A B} (f : S → A) (k : A → prog S E B) :
  (∀ s, R s (k (f s) s).2) → related R (bind (gets f) k).
Proof. intros Hk s. apply Hk. Qed.
Lemma related_try `{!PreOrder R} {A} (m : prog S E A) (k : E → prog S E A) :
  related R m → (∀ e, related R (k e)) → related R (try_catch m k).
Proof.
  intros Hm Hk s. unfold try_catch. specialize (Hm s). destruct (m s) as [[a|e] s1]; simpl in *; [done|].
  transitivity s1; [done|]. apply Hk.
Qed.
Lemma related_for_each `{!PreOrder R} {A} (l : list A) (body : A → prog S E unit) :
  (∀ x, related R (body x)) → related R (for_each l body).
Proof. intros Hb. induction l as [|x l IH]; simpl; [apply related_ret|]. apply related_bind; auto. Qed.
Lemma related_if {A} (b : bool) (m1 m2 : prog S E A) : related R m1 → related R m2 → related R (if b then m1 else m2).
Proof. by destruct b. Qed.
End related.
#[export] Hint Resolve related_ret related_throw related_gets related_bind related_try related_for_each
  related_if : related.
#[export] Hint Extern 1 (PreOrder _) => apply _ : related.

(** ** The queries of the providers (container/agent-runner/src/providers)

    What a query does with the calls of the poll loop: the input stream of the
    Claude provider, the generator of the mock, and the loop of the OpenAI
    provider around its turns.  What a model answers, and whether a turn fails,
    is what the steps bring. *)

Local Open Scope string_scope.
Local Open Scope list_scope.

(** ** Claude: a stream of user messages *)

(*@ src/container/agent-runner/src/providers/claude.ts 122-125 MessageStream *)
Record MessageStream := mkMessageStream { ms_queue : list string; ms_done : bool }.

(** One round of the iterator: a message, the end, or the wait for a call. *)
Inductive StreamRead := RMessage (text : string) (s : MessageStream) | RWait | RReturn.
(*@ src/container/agent-runner/src/providers/claude.ts 142-152 MessageStream *)
Definition stream_next (s : MessageStream) : StreamRead :=
  match ms_queue s with
  | text :: rest => RMessage text (mkMessageStream rest (ms_done s))
  | [] => if ms_done s then RReturn else RWait
  end.
(** [push] and [pushSystemReminder] are one. *)
(*@ src/container/agent-runner/src/providers/claude.ts 428-435 query *)
Definition claude_call (c : QueryCall) (s : MessageStream) : MessageStream :=
  match c with
  | QPush text | QReminder text => mkMessageStream (ms_queue s ++ [text]) (ms_done s)
  | QEnd => mkMessageStream (ms_queue s) true
  end.

(** ** Mock *)

(*@ src/container/agent-runner/src/providers/mock.ts 22-30 query *)
Record MockQuery := mkMockQuery {
  mk_pending : list string;
  mk_reminders : list string;
  mk_ended : bool;
  mk_aborted : bool }.
Inductive MockRead := MResult (prompt : string) (q : MockQuery) | MWait | MReturn.
(** After the first result: what is pushed is answered, then the generator waits
    for a call or returns. *)
(*@ src/container/agent-runner/src/providers/mock.ts 42-60 query *)
Definition mock_next (q : MockQuery) : MockRead :=
  match mk_pending q with
  | prompt :: rest => MResult prompt (mkMockQuery rest (mk_reminders q) (mk_ended q) (mk_aborted q))
  | [] => if mk_ended q || mk_aborted q then MReturn else MWait
  end.
(*@ src/container/agent-runner/src/providers/mock.ts 63-82 query *)
Definition mock_call (c : QueryCall) (q : MockQuery) : MockQuery :=
  match c with
  | QPush text =>
      let prefix := match mk_reminders q with
                    | [] => ""
                    | l => String.concat newline l +:+ newline
                    end in
      mkMockQuery (mk_pending q ++ [prefix +:+ text]) [] (mk_ended q) (mk_aborted q)
  | QReminder text => mkMockQuery (mk_pending q) (mk_reminders q ++ [text]) (mk_ended q) (mk_aborted q)
  | QEnd => mkMockQuery (mk_pending q) (mk_reminders q) true (mk_aborted q)
  end.

(** ** OpenAI *)

(** [oq_prompt] is what the turn that runs was given, [oq_aborted] whether its
    signal was aborted. *)
(*@ src/container/agent-runner/src/providers/openai.ts 977-982 query *)
Record OpenAIQuery := mkOpenAIQuery {
  oq_prompt : string;
  oq_pendingFollowUp : option string;
  oq_stopRequested : bool;
  oq_aborted : bool;
  oq_continuation : option string;
  oq_finished : bool }.
Definition openai_start (prompt : string) (continuation : option string) : OpenAIQuery :=
  mkOpenAIQuery prompt None false false continuation false.

Inductive TurnOutcome :=
| TurnReturns (continuation : string) (text : option string) (before : list ProviderEvent)
| TurnThrows (e : exn).

(** The next turn, with a new controller. *)
Definition next_turn (prompt : string) (continuation : option string) (q : OpenAIQuery) : OpenAIQuery :=
  mkOpenAIQuery prompt None (oq_stopRequested q) false continuation (oq_stopRequested q).
Definition finish (continuation : option string) (q : OpenAIQuery) : OpenAIQuery :=
  mkOpenAIQuery (oq_prompt q) (oq_pendingFollowUp q) (oq_stopRequested q) (oq_aborted q) continuation true.

(** The turn is over: its events, a failure, and what runs next. *)
(*@ src/container/agent-runner/src/providers/openai.ts 992-1055 query *)
Definition openai_settle (outcome : TurnOutcome) (q : OpenAIQuery)
    : list ProviderEvent * option exn * OpenAIQuery :=
  match outcome with
  | TurnReturns c text before =>
      ([EvInit c] ++ before ++ [EvResult text], None,
       match oq_pendingFollowUp q with
       | Some m => next_turn m (Some c) q
       | None => finish (Some c) q
       end)
  | TurnThrows e =>
      if oq_aborted q then
        match oq_pendingFollowUp q with
        | Some m => ([], None, next_turn m (oq_continuation q) q)
        | None => if oq_stopRequested q then ([], None, finish (oq_continuation q) q)
                  else ([], Some e, finish (oq_continuation q) q)
        end
      else ([], Some e, finish (oq_continuation q) q)
  end.

(** [end] does nothing; a reminder goes into the continuation, [folded] being
    [appendSystemReminderToContinuation]. *)
(*@ src/container/agent-runner/src/providers/openai.ts 1058-1081 query *)
Definition openai_call (folded : option string → string → string) (c : QueryCall) (q : OpenAIQuery) : OpenAIQuery :=
  match c with
  | QPush m => mkOpenAIQuery (oq_prompt q) (Some m) (oq_stopRequested q) true (oq_continuation q) (oq_finished q)
  | QReminder text => mkOpenAIQuery (oq_prompt q) (oq_pendingFollowUp q) (oq_stopRequested q) (oq_aborted q)
                        (Some (folded (oq_continuation q) text)) (oq_finished q)
  | QEnd => q
  end.

(** ** What the stream of a turn promises

    An answer is durable before its rows are acknowledged; under a routing
    decision nothing leaves the route; and what goes wrong when a second message
    arrives while a query is open. *)

Local Open Scope Z_scope.
Local Open Scope prog_scope.

(** ** Acknowledgements and crashes *)

Definition completed (out : OutboundDb) (id : string) : Prop :=
  ∃ a, a ∈ processing_ack out ∧ ak_message_id a = id ∧ ak_status a = ACompleted.

(** Nothing was acknowledged on the way. *)
Definition only_output (r r' : Runner) : Prop :=
  processing_ack (rn_outbound r') = processing_ack (rn_outbound r) ∧
  ∃ l, rn_log r' = l ++ rn_log r ∧
       Forall (λ st, processing_ack st = processing_ack (rn_outbound r)) l.
#[export] Instance only_output_preorder : PreOrder only_output.
Proof.
  split.
  - intros r. split; [done|]. by exists [].
  - intros r1 r2 r3 [H1 (l1 & E1 & F1)] [H2 (l2 & E2 & F2)]. split; [congruence|].
    exists (l2 ++ l1). split; [by rewrite E2, E1, app_assoc|]. apply Forall_app. split; [|done].
    by rewrite H1 in F2.
Qed.

Lemma insert_out_acks row out : processing_ack (insert_out row out).2 = processing_ack out.
Proof. unfold insert_out. rewrite bind_gets. by case_match. Qed.

Lemma put_ack_run now st id out : ∃ out', put_ack now st id out = (Ok tt, out') ∧
  messages_out out' = messages_out out ∧ mkAckRow id st (sql_now now) ∈ processing_ack out' ∧
  (∀ a, a ∈ processing_ack out → ak_message_id a ≠ id → a ∈ processing_ack out').
Proof.
  eexists. split; [done|]. split; [done|]. cbn. split; [set_solver|].
  intros a Ha Hid. apply elem_of_app. left. apply elem_of_sql_delete. split; [done|]. by apply bool_decide_eq_false.
Qed.
Lemma put_acks_run now st ids : ∀ out, ∃ out', for_each ids (put_ack now st) out = (Ok tt, out') ∧
  messages_out out' = messages_out out ∧
  (∀ id, id ∈ ids → ∃ a, a ∈ processing_ack out' ∧ ak_message_id a = id ∧ ak_status a = st) ∧
  (∀ a, a ∈ processing_ack out → ak_message_id a ∉ ids → a ∈ processing_ack out').
Proof.
  induction ids as [|id ids IH]; intros out.
  - exists out. split_and!; [done|done|set_solver|done].
  - destruct (put_ack_run now st id out) as (out1 & E1 & Hm1 & Ha1 & Hk1).
    destruct (IH out1) as (out2 & E2 & Hm2 & Ha2 & Hk2). exists out2. cbn [for_each].
    rewrite bind_case, E1, E2. split; [done|]. split; [congruence|]. split.
    + intros i [->|Hi]%elem_of_cons; [|by apply Ha2].
      destruct (decide (id ∈ ids)) as [Hin|Hin]; [by apply Ha2|].
      eexists. split; [by apply Hk2|]. done.
    + intros a Ha [Hn Hi]%not_elem_of_cons. apply Hk2; [|done]. by apply Hk1.
Qed.
Lemma markCompleted_run now ids out : ∃ out', markCompleted now ids out = (Ok tt, out') ∧
  messages_out out' = messages_out out ∧ ∀ id, id ∈ ids → completed out' id.
Proof.
  unfold markCompleted, completed. destruct ids as [|i ids]; [exists out; split_and!; [done|done|set_solver]|].
  destruct (put_acks_run now ACompleted (i :: ids) out) as (out' & E & Hm & Ha & _).
  exists out'. unfold transaction. rewrite E. split_and!; done.
Qed.

(** Reading a content changes nothing. *)
Section reads.
Context {S : Type} (Q : relation S).
Lemma prop_related `{!PreOrder Q} k v : related Q (prop k v).
Proof. unfold prop, type_error. repeat case_match; auto with related. Qed.
Lemma opt_prop_related `{!PreOrder Q} k v : related Q (opt_prop k v).
Proof. unfold opt_prop. repeat case_match; auto using prop_related with related. Qed.
Lemma as_string_related `{!PreOrder Q} v : related Q (as_string v).
Proof. unfold as_string, type_error. repeat case_match; auto with related. Qed.
#[local] Hint Resolve prop_related opt_prop_related as_string_related : related.
Lemma trimmed_text_related `{!PreOrder Q} c : related Q (trimmed_text c).
Proof. unfold trimmed_text. auto with related. Qed.
Lemma extractSenderId_related `{!PreOrder Q} m c : related Q (extractSenderId m c).
Proof.
  unfold extractSenderId. apply related_bind; [apply _|auto with related|]. intros v.
  apply related_bind; [apply _|apply related_if; auto with related|]. intros raw.
  apply related_if; [auto with related|]. apply related_bind; [apply _|auto with related|].
  intros s. repeat apply related_if; auto with related.
Qed.
#[local] Hint Resolve trimmed_text_related extractSenderId_related : related.
Lemma isRunnerCommand_related `{!PreOrder Q} m : related Q (isRunnerCommand m).
Proof.
  unfold isRunnerCommand. apply related_if; [auto with related|].
  apply related_bind; [apply _| |auto with related]. unfold categorizeMessage.
  apply related_bind; [apply _|auto with related|]. intros text.
  apply related_bind; [apply _|auto with related|]. intros id. apply related_if; auto with related.
Qed.
Lemma some_command_related `{!PreOrder Q} l : related Q (some_command l).
Proof.
  induction l as [|m l IH]; [apply related_ret; apply _|]. cbn [some_command].
  apply related_bind; [apply _|apply isRunnerCommand_related; apply _|]. intros [|]; auto with related.
Qed.
Lemma scripts_related `{!PreOrder Q} runScript l : related Q (applyPreTaskScripts runScript l).
Proof.
  induction l as [|m l IH]; [apply related_ret; apply _|]. cbn [applyPreTaskScripts].
  assert (Hgo : ∀ k (sk : list string), related Q (bind (applyPreTaskScripts runScript l)
    (λ r, ret (E:=exn) (k ++ r.1, sk ++ r.2)))) by auto with related.
  apply related_if; [apply Hgo|]. destruct (JSON_parse (mi_content m)) as [content|]; [|apply Hgo].
  apply related_bind; [apply _|auto with related|]. intros script. repeat case_match; auto with related.
Qed.
End reads.

(** ** Staying on the route *)

Definition on_route (g : RoutingGate) (row : MessageOut) : Prop :=
  mo_channel_type row = rg_originChannelType g ∧ mo_platform_id row = rg_originPlatformId g.
(** While [g] governs, only rows on its route are written. *)
Definition routed (g : RoutingGate) (r r' : Runner) : Prop :=
  active_gate r = Some g → active_gate r' = Some g ∧
  ∃ new, messages_out (rn_outbound r') = messages_out (rn_outbound r) ++ new ∧ Forall (on_route g) new.
#[export] Instance routed_preorder g : PreOrder (routed g).
Proof.
  split.
  - intros r Hg. split; [done|]. exists []. by rewrite app_nil_r.
  - intros r1 r2 r3 H1 H2 Hg. destruct (H1 Hg) as [Hg2 (n1 & E1 & F1)]. destruct (H2 Hg2) as [Hg3 (n2 & E2 & F2)].
    split; [done|]. exists (n1 ++ n2). split; [by rewrite E2, E1, app_assoc|]. by apply Forall_app.
Qed.

(** A statement that writes no message. *)
Lemma routed_silent g {A} (m : time → InboundDb → outM A) :
  (∀ now inb out, messages_out (m now inb out).2 = messages_out out) → related (routed g) (on_outbound m).
Proof.
  intros Hm r Hg. unfold on_outbound. specialize (Hm (rn_now r) (rn_inbound r) (rn_outbound r)).
  destruct (m _ _ _) as [res out]. split; [done|]. exists []. cbn in *. by rewrite app_nil_r.
Qed.
Lemma routed_write g msg :
  wo_channel_type msg = rg_originChannelType g → wo_platform_id msg = rg_originPlatformId g →
  related (routed g) (write_out msg).
Proof.
  intros Hc Hp r Hg. unfold write_out, on_outbound, writeMessageOut, insert_out. rewrite !bind_gets, bind_case, bind_gets.
  destruct (sql_exists _ _); (split; [done|]).
  - exists []. cbn. by rewrite app_nil_r.
  - eexists [_]. split; [done|]. by apply Forall_singleton.
Qed.

Section loop.
Context (sqlite_datetime : string → option Z) (formatLocalTime : stext → string) (TIMEZONE : string)
  (text_of_value : json → string) (generateId : nat → string) (maxMessages : nat) (providerName : string).
Notation send := (sendToDestination generateId).
Notation dispatch := (dispatchResultText generateId).
Notation event := (on_event generateId providerName).
Notation tick1 := (tick sqlite_datetime maxMessages).
Notation tick2 := (tick_scripts formatLocalTime TIMEZONE text_of_value).
Notation steps := (stream_steps sqlite_datetime formatLocalTime TIMEZONE text_of_value generateId maxMessages providerName).
Notation run := (runQuery sqlite_datetime formatLocalTime TIMEZONE text_of_value generateId maxMessages providerName).

Lemma output_write msg : related only_output (write_out msg).
Proof.
  intros r. unfold write_out, on_outbound, writeMessageOut. rewrite bind_gets, bind_case.
  pose proof (insert_out_acks (mkMessageOut (wo_id msg) (nextOddSeq (rn_inbound r) (rn_outbound r)) (wo_in_reply_to msg)
    (TSql (sql_now (rn_now r))) (wo_deliver_after msg) (wo_recurrence msg) (wo_kind msg) (wo_platform_id msg)
    (wo_channel_type msg) (wo_thread_id msg) (wo_content msg) (wo_origin_user_id msg)) (rn_outbound r)) as H.
  destruct (insert_out _ _) as [[a|e] out]; cbn in *; (split; [done|]; exists [out]; by rewrite Forall_singleton).
Qed.
Lemma output_newId : related only_output (newId generateId).
Proof. intros r. split; [done|]. by exists []. Qed.
Hint Resolve output_write output_newId : related.

Lemma output_send dest body routing : related only_output (send dest body routing).
Proof. unfold sendToDestination. repeat (apply related_bind; [apply _|auto with related|intros ?]); repeat case_match; auto 20 with related. Qed.
Hint Resolve output_send : related.
Lemma output_blocks routing l : related only_output (dispatch_blocks generateId routing l).
Proof.
  induction l as [|[toName body] l IH]; [auto with related|]. cbn [dispatch_blocks].
  apply related_bind; [apply _|auto with related|]. intros [d|]; auto with related.
Qed.
Hint Resolve output_blocks : related.
Lemma output_dispatch text routing : related only_output (dispatch text routing).
Proof.
  unfold dispatchResultText. apply related_bind; [apply _|auto with related|]. intros sent. apply related_if; [|auto with related].
  apply related_bind; [apply _|auto with related|]. intros [d|]; [auto with related|].
  apply related_bind; [apply _|auto with related|]. intros [|d [|d' l]]; auto with related.
Qed.
Hint Resolve output_dispatch : related.

(** The two parts of the handling of a result. *)
Lemma result_parts routing text lv r : ∃ l r1,
  rn_log r1 = l ++ rn_log r ∧ Forall (λ st, processing_ack st = processing_ack (rn_outbound r)) l ∧
  ((∃ e, event routing (EvResult text) lv r = (Throw e, r1)) ∨
   ∃ out, event routing (EvResult text) lv r = (Ok (with_pendingAck [] lv), set_rn_outbound out r1) ∧
          messages_out out = messages_out (rn_outbound r1) ∧
          ∀ id, id ∈ lv_pendingAck lv → completed out id).
Proof.
  unfold on_event.
  set (m := if truthy text then dispatch (default "" text) routing else ret tt).
  assert (related only_output m) as Hm by (unfold m; auto with related).
  destruct (Hm r) as [_ (l & Hl & Hf)]. exists l, (m r).2. split; [done|]. split; [done|].
  rewrite bind_case. destruct (m r) as [[[]|e] r1]; [|left; by exists e]. right. cbn [snd].
  rewrite bind_case. unfold mark_completed, on_outbound.
  destruct (markCompleted_run (rn_now r1) (lv_pendingAck lv) (rn_outbound r1)) as (out & E & Ho & Hc).
  rewrite E. by exists out.
Qed.

(** C10: The answer is durable before its rows are acknowledged: of the states of
    outbound.db that the handling of a result goes through, in any of which a
    crash may stop it, none has a row completed that was not before unless the
    whole answer is in it and every row of the turn is completed.  A row is never
    recorded as done with its answer missing (poll-loop.ts 1001-1034). *)
Theorem answer_before_ack routing text lv r :
  let '(res, r') := event routing (EvResult text) lv r in
  ∃ l, rn_log r' = l ++ rn_log r ∧
    (∀ st id, st ∈ l → completed st id → ¬ completed (rn_outbound r) id →
       messages_out st = messages_out (rn_outbound r') ∧ ∀ i, i ∈ lv_pendingAck lv → completed st i) ∧
    (∀ lv', res = Ok lv' → lv_pendingAck lv' = [] ∧ ∀ i, i ∈ lv_pendingAck lv → completed (rn_outbound r') i).
Proof.
  destruct (result_parts routing text lv r) as (l & r1 & Hl & Hf & [[e ->]|(out & -> & Ho & Hc)]).
  - exists l. split; [done|]. split; [|done]. intros st id Hst Hid Hn. rewrite Forall_forall in Hf.
    destruct Hn. unfold completed in *. by rewrite <-(Hf st Hst).
  - exists (out :: l). split; [cbn; by rewrite Hl|]. split.
    + intros st id [->|Hst]%elem_of_cons Hid Hn; [done|]. rewrite Forall_forall in Hf.
      destruct Hn. unfold completed in *. by rewrite <-(Hf st Hst).
    + intros lv' [= <-]. done.
Qed.

(** *** Under a routing decision *)

Lemma for_each_silent {A} (l : list A) (body : A → outM unit) out :
  (∀ x o, messages_out (body x o).2 = messages_out o) → messages_out (for_each l body out).2 = messages_out out.
Proof.
  intros Hb. revert out. induction l as [|x l IH]; intros out; [done|]. cbn [for_each]. rewrite bind_case.
  specialize (Hb x out). destruct (body x out) as [[[]|e] out1]; cbn in *; [by rewrite IH|done].
Qed.
Lemma transaction_silent {A} (m : outM A) out :
  messages_out (m out).2 = messages_out out → messages_out (transaction m out).2 = messages_out out.
Proof. intros H. unfold transaction. by destruct (m out) as [[a|e] out1]. Qed.

Section gated.
Context (g : RoutingGate) (routing : RoutingContext).
(** The gate of a turn that is not delegated. *)
Definition gate_of_turn : Prop :=
  rg_action g ≠ Delegate ∧ rc_channelType routing = rg_originChannelType g ∧ rc_platformId routing = rg_originPlatformId g.
Local Notation R := (routed g).

Lemma routed_completed ids : related R (mark_completed ids).
Proof. apply routed_silent. intros now inb out. unfold markCompleted. destruct ids as [|i ids]; [done|].
  by apply transaction_silent, for_each_silent.
Qed.
Lemma routed_processing ids : related R (mark_processing ids).
Proof.
  apply routed_silent. intros now inb out. unfold markProcessing. destruct ids as [|i ids]; [done|].
  by apply transaction_silent, for_each_silent.
Qed.
Lemma routed_release ids : related R (release ids).
Proof.
  apply routed_silent. intros now inb out. unfold releaseProcessing. destruct ids as [|i ids]; [done|].
  by apply transaction_silent, for_each_silent.
Qed.
Lemma routed_newId : related R (newId generateId).
Proof. intros r Hg. split; [done|]. exists []. by rewrite app_nil_r. Qed.
Lemma routed_inbound {A} (m : prog InboundDb exn A) : related R (on_inbound m).
Proof. intros r Hg. split; [done|]. exists []. by rewrite app_nil_r. Qed.
Hint Resolve routed_completed routed_processing routed_release routed_newId routed_inbound : related.

Lemma routed_send dest body : gate_of_turn → related R (send dest body routing).
Proof.
  intros (Haction & Hc & Hp). unfold sendToDestination. set (is_ch := bool_decide (dn_type dest = TargetChannel)).
  set (pid := if is_ch then dn_platformId dest else dn_agentGroupId dest).
  set (ct := if is_ch then dn_channelType dest else Some "agent").
  unfold enforceRoutingDestination. intros r. rewrite bind_gets. cbv beta. intros Hg. rewrite Hg.
  match goal with |- context [enforce (Some g) ct pid ?c] => set (cand := c) end.
  destruct (enforce (Some g) ct pid cand) as [d|d reason] eqn:E; [|exact (related_ret (E:=exn) R tt r Hg)].
  destruct (enforce_permits g ct pid cand) as [[Hperm _] _].
  destruct (Hperm (ex_intro _ d E)) as [(_ & Ha & _)|(_ & _ & _ & Hct & Hpid & _)]; [done|].
  match goal with |- context [bind ?m ?k r] => cut (related R (bind m k)); [intros H; exact (H r Hg)|] end.
  repeat (apply related_bind; [apply _|auto with related|intros ?]); [|auto with related].
  by apply routed_write.
Qed.
Hint Resolve routed_send : related.

Lemma routed_blocks l : gate_of_turn → related R (dispatch_blocks generateId routing l).
Proof.
  intros Hg. induction l as [|[toName body] l IH]; [auto with related|]. cbn [dispatch_blocks].
  apply related_bind; [apply _|auto with related|]. intros [d|]; auto with related.
Qed.
Hint Resolve routed_blocks : related.
Lemma routed_dispatch text : gate_of_turn → related R (dispatch text routing).
Proof.
  intros Hg. unfold dispatchResultText. apply related_bind; [apply _|auto with related|]. intros sent. apply related_if; [|auto with related].
  apply related_bind; [apply _|auto with related|]. intros [d|]; [auto with related|].
  apply related_bind; [apply _|auto with related|]. intros [|d [|d' l]]; auto with related.
Qed.
Hint Resolve routed_dispatch : related.

Lemma routed_continuation c : related R (setContinuation providerName c).
Proof.
  apply related_modify. intros r Hg. split; [|exists []; by rewrite app_nil_r].
  unfold active_gate in *. cbn. by rewrite lookup_insert_ne.
Qed.
Hint Resolve routed_continuation : related.

Lemma routed_event ev lv : gate_of_turn → related R (event routing ev lv).
Proof.
  intros Hg. destruct ev; cbn [on_event]; [auto with related| |auto with related..| |].
  - apply related_bind; [apply _|auto with related|]. auto with related.
  - auto with related.
  - unfold write_usage, getRoutingGate.
    repeat (apply related_bind; [apply _|repeat (apply related_bind; [apply _|auto with related|intros ?])|intros ?]);
      auto with related. apply routed_write; apply Hg.
Qed.
Lemma routed_tick lv : related R (tick1 lv).
Proof using generateId.
  unfold tick. apply related_if; [auto with related|]. apply related_try; [apply _| |auto with related].
  apply related_bind; [apply _|unfold pending_messages; auto with related|]. intros pending.
  apply related_if; [unfold getRoutingGate; auto with related|].
  apply related_bind; [apply _|apply some_command_related; apply _|]. intros c.
  apply related_if; [auto with related|]. case_match; auto with related.
Qed.
Lemma routed_scripts runScript lv : related R (tick2 runScript lv).
Proof using generateId.
  unfold tick_scripts. destruct (lv_inFlight lv) as [rows|]; [|auto with related].
  apply related_try; [apply _| |auto with related].
  apply related_bind; [apply _|apply scripts_related; apply _|]. intros [keep skipped].
  apply related_bind; [apply _|auto with related|]. intros _. destruct keep as [|m keep]; [auto with related|].
  apply related_if; [auto with related|]. destruct (splitBatchByTurn _) as [k d].
  apply related_bind; [apply _|auto with related|]. intros _. destruct k as [|m' k]; [auto with related|].
  apply related_bind; [apply _|auto with related|]. intros current.
  apply related_if; auto with related.
Qed.
Hint Resolve routed_tick routed_scripts routed_event : related.

Lemma routed_steps l lv : gate_of_turn → related R (steps routing l lv).
Proof.
  intros Hg. revert lv. induction l as [|st l IH]; intros lv; [auto with related|]. cbn [stream_steps].
  apply related_bind; [apply _| |intros lv'; apply IH].
  destruct st; cbn [stream_step]; auto with related.
Qed.
End gated.

(** Nothing leaves the route of a routed turn: whatever the model answers and
    whatever arrives while it works, every row that [runQuery] writes under a
    decision that does not delegate is for the chat the turn came from
    (poll-loop.ts, routing/gate.ts). *)
Theorem routed_turn_stays_on_route g routing ids l failure r :
  gate_of_turn g routing →
  let r0 := (setRoutingGate g r).2 in
  ∃ new, messages_out (rn_outbound (run routing ids l failure r0).2) = messages_out (rn_outbound r) ++ new ∧
    Forall (on_route g) new.
Proof.
  intros Hg r0.
  assert (related (routed g) (run routing ids l failure)) as H.
  { unfold runQuery. apply related_bind; [apply _|by apply routed_steps|]. intros lv. destruct failure; auto with related. }
  destruct (H r0) as [_ Hnew]; [|exact Hnew].
  unfold r0, active_gate, setRoutingGate, setValue, modify. cbn. rewrite lookup_insert_eq. apply gate_reads_back.
Qed.

(** *** A latched stream *)

(** No row is claimed. *)
Definition no_claims (r r' : Runner) : Prop :=
  ∀ a, a ∈ processing_ack (rn_outbound r') → ak_status a = AProcessing → a ∈ processing_ack (rn_outbound r).
#[export] Instance no_claims_preorder : PreOrder no_claims.
Proof. split; [by intros r a|]. intros r1 r2 r3 H1 H2 a Ha Hp. apply H1; [|done]. by apply H2. Qed.
Lemma no_claims_output {A} (m : runM A) : related only_output m → related no_claims m.
Proof. intros Hm r a. destruct (Hm r) as [-> _]. done. Qed.
Lemma completing_claims_nothing now ids : ∀ out out', for_each ids (put_ack now ACompleted) out = (Ok tt, out') →
  ∀ a, a ∈ processing_ack out' → ak_status a = AProcessing → a ∈ processing_ack out.
Proof.
  induction ids as [|id ids IH]; intros out out' E a Ha Hp; [by injection E as <-|].
  cbn [for_each] in E. rewrite bind_case in E. destruct (put_ack_run now ACompleted id out) as (out1 & E1 & _).
  rewrite E1 in E. specialize (IH out1 out' E a Ha Hp). injection E1 as <-. cbn in IH.
  apply elem_of_app in IH as [IH|IH%list_elem_of_singleton]; [by apply elem_of_sql_delete in IH as [? _]|by subst a].
Qed.
Lemma no_claims_completed ids : related no_claims (mark_completed ids).
Proof.
  intros r. unfold mark_completed, on_outbound, markCompleted. destruct ids as [|i ids]; [by intros a|].
  unfold transaction. destruct (put_acks_run (rn_now r) ACompleted (i :: ids) (rn_outbound r)) as (out' & E & _).
  rewrite E. exact (completing_claims_nothing _ _ _ _ E).
Qed.
Lemma no_claims_event routing ev lv : related no_claims (event routing ev lv).
Proof.
  assert (Hw : ∀ msg, related no_claims (write_out msg)) by (intros msg; apply no_claims_output; auto with related).
  assert (Hi : related no_claims (newId generateId)) by (apply no_claims_output; auto with related).
  destruct ev; cbn [on_event]; [| |auto with related..| |].
  - apply related_bind; [apply _| |auto with related]. apply related_modify. by intros r a.
  - apply related_bind; [apply _|apply related_if; [apply no_claims_output|]; auto with related|]. intros _.
    apply related_bind; [apply _|apply no_claims_completed|auto with related].
  - auto with related.
  - unfold write_usage, getRoutingGate. auto with related.
Qed.

(** The poller is latched: no tick does anything again. *)
Definition latched (lv : Live) : Prop := lv_hasPendingUserTurn lv = true ∧ lv_inFlight lv = None.
Definition is_reminder (c : QueryCall) : Prop := match c with QReminder _ => True | _ => False end.

Lemma event_latched routing ev lv r lv' r' : event routing ev lv r = (Ok lv', r') →
  lv_hasPendingUserTurn lv' = lv_hasPendingUserTurn lv ∧ lv_inFlight lv' = lv_inFlight lv ∧
  ∃ l, lv_calls lv' = lv_calls lv ++ l ∧ Forall is_reminder l.
Proof.
  assert (H0 : ∃ l, lv_calls lv = lv_calls lv ++ l ∧ Forall is_reminder l) by (exists []; by rewrite app_nil_r).
  destruct ev; cbn [on_event]; intros H;
    repeat match goal with H : bind _ _ _ = (Ok _, _) |- _ => apply bind_ok_inv in H as (? & ? & _ & H) end;
    try (injection H as <- _; done).
  injection H as <- _. destruct (1 <? _)%nat; [|done]. split_and!; [done|done|]. eexists [_]. split; [done|].
  by repeat constructor.
Qed.

Lemma latched_steps routing l : ∀ lv r lv' r', latched lv → steps routing l lv r = (Ok lv', r') →
  latched lv' ∧ no_claims r r' ∧ ∃ c, lv_calls lv' = lv_calls lv ++ c ∧ Forall is_reminder c.
Proof.
  induction l as [|st l IH]; intros lv r lv' r' Hl E.
  - injection E as <- <-. split; [done|]. split; [reflexivity|]. exists []. by rewrite app_nil_r.
  - cbn [stream_steps] in E. apply bind_ok_inv in E as (lv1 & r1 & E1 & E2).
    assert (latched lv1 ∧ no_claims r r1 ∧ ∃ c, lv_calls lv1 = lv_calls lv ++ c ∧ Forall is_reminder c)
      as (Hl1 & Hn1 & c1 & Hc1 & Hf1).
    { destruct Hl as [Hu Hf]. destruct st; cbn [stream_step] in E1.
      - pose proof (no_claims_event routing ev lv r) as Hn. rewrite E1 in Hn.
        destruct (event_latched _ _ _ _ _ _ E1) as (H1 & H2 & H3). unfold latched. by rewrite H1, H2.
      - unfold tick in E1. rewrite Hu, orb_true_r in E1. injection E1 as <- <-.
        split; [done|]. split; [reflexivity|]. exists []. by rewrite app_nil_r.
      - unfold tick_scripts in E1. rewrite Hf in E1. injection E1 as <- <-.
        split; [done|]. split; [reflexivity|]. exists []. by rewrite app_nil_r.
      - injection E1 as <- <-. split; [done|]. split; [by intros a|]. exists []. by rewrite app_nil_r. }
    destruct (IH _ _ _ _ Hl1 E2) as (Hl2 & Hn2 & c2 & Hc2 & Hf2).
    split; [done|]. split; [by transitivity r1|]. exists (c1 ++ c2). split; [by rewrite Hc2, Hc1, app_assoc|].
    by apply Forall_app.
Qed.

Lemma reminders_keep_open c s : Forall is_reminder c → ms_done (foldl (λ s c, claude_call c s) s c) = ms_done s.
Proof. intros Hc. revert s. induction Hc as [|x c Hx _ IH]; intros s; [done|]. cbn. rewrite IH. by destruct x. Qed.
Lemma reminders_keep_waiting c q : Forall is_reminder c →
  let q' := foldl (λ q c, mock_call c q) q c in
  mk_pending q' = mk_pending q ∧ mk_ended q' = mk_ended q ∧ mk_aborted q' = mk_aborted q.
Proof. intros Hc. revert q. induction Hc as [|x c Hx _ IH]; intros q; [done|]. cbn.
  destruct x as [m|text|]; [done| |done]. exact (IH (mock_call (QReminder text) q)).
Qed.

(** C40: A second message of a user waits for ever behind an open query: outside a
    routed turn the tick that sees it ([runQuery], poll-loop.ts 846-862) latches
    the poller without ending the stream.  Whatever happens then, no row is
    claimed and the query is neither given input nor ended, and both the stream of
    the Claude provider and the generator of the mock, of which a comment there
    says that it completes by itself, go on waiting for a call. *)
Theorem second_message_waits_for_ever routing l lv r lv' r' :
  existsb (λ m, is_chat m && mi_trigger m)
    (getPendingMessages sqlite_datetime (rn_now r) maxMessages (rn_inbound r) (rn_outbound r)) = true →
  active_gate r = None →
  lv_done lv = false → lv_inFlight lv = None → lv_endedForCommand lv = false → lv_hasPendingUserTurn lv = false →
  steps routing (STick :: l) lv r = (Ok lv', r') →
  no_claims r r' ∧
  ∃ c, lv_calls lv' = lv_calls lv ++ c ∧
    (∀ s, stream_next s = RWait → ms_done (foldl (λ s c, claude_call c s) s c) = false) ∧
    (∀ q, mock_next q = MWait → mock_next (foldl (λ q c, mock_call c q) q c) = MWait).
Proof.
  intros Hp Hg H1 H2 H3 H4 E. cbn [stream_steps] in E. apply bind_ok_inv in E as (lv1 & r1 & E1 & E2).
  cbn [stream_step] in E1. unfold tick, try_catch, pending_messages, getRoutingGate in E1.
  rewrite H1, H2, H3, H4 in E1. cbn [orb] in E1. rewrite bind_gets in E1. cbv beta in E1.
  rewrite Hp, bind_gets, Hg in E1. injection E1 as <- <-.
  destruct (latched_steps routing l (with_userTurn lv) r lv' r') as (_ & Hn & c & Hc & Hf); [by split|done|].
  split; [done|]. exists c. split; [done|]. split.
  - intros s Hs. rewrite reminders_keep_open by done. unfold stream_next in Hs. by destruct (ms_queue s), (ms_done s).
  - intros q Hq. destruct (reminders_keep_waiting c q Hf) as (P1 & P2 & P3). revert Hq. unfold mock_next.
    rewrite P1, P2, P3. by destruct (mk_pending q).
Qed.
End loop.

(** ** Concrete runs *)

Definition ann_again : MessageIn := row_from "m3" 4 "chat" true (Some "t1") (from_user "ou_ann" "and tomorrow?").
Definition chat_dest : DestinationRow := mkDestinationRow "team" None TargetChannel (Some "feishu") (Some "chat-1") None.
Definition ann_routing : RoutingContext := mkRoutingContext (Some "chat-1") (Some "feishu") (Some "t1") (Some "m1").
(** The turn of Ann's question is running; [more] came in since. *)
Definition running_turn (more : list MessageIn) : Runner :=
  mkRunner 0 0 (mkInboundDb (ann_asks :: more) [] [chat_dest] None [])
    (set_processing_ack [mkAckRow "m1" AProcessing 0] emptyOutbound) [] ∅
    (mkModuleVars (Some "m1") None (Some ann_here)) fresh_module.
Definition no_dates (s : string) : option Z := None.
Definition an_id (n : nat) : string := "msg-" +:+ pretty n.
Notation run_steps := (stream_steps no_dates (λ _, "noon") "UTC" (λ _, "") an_id 10 "claude" ann_routing).
Definition state_after (l : list StreamStep) (more : list MessageIn) : Runner :=
  (run_steps l (start_live ["m1"]) (running_turn more)).2.
Definition live_after (l : list StreamStep) (more : list MessageIn) : option Live :=
  match (run_steps l (start_live ["m1"]) (running_turn more)).1 with Ok lv => Some lv | Throw _ => None end.

Definition latched_run : list StreamStep := [SEvent (EvResult (Some "Fine.")); STick].
Lemma second_message_witness :
  no_claims (running_turn [ann_again]) (state_after (STick :: latched_run) [ann_again]) ∧
  ∃ lv c, live_after (STick :: latched_run) [ann_again] = Some lv ∧ lv_calls lv = [] ++ c ∧
    (∀ s, stream_next s = RWait → ms_done (foldl (λ s c, claude_call c s) s c) = false) ∧
    (∀ q, mock_next q = MWait → mock_next (foldl (λ q c, mock_call c q) q c) = MWait).
Proof.
  set (lv' := with_pendingAck [] (with_userTurn (start_live ["m1"]))).
  assert (E : run_steps (STick :: latched_run) (start_live ["m1"]) (running_turn [ann_again]) =
    (Ok lv', state_after (STick :: latched_run) [ann_again])) by (vm_compute; reflexivity).
  assert (El : live_after (STick :: latched_run) [ann_again] = Some lv') by (vm_compute; reflexivity).
  rewrite El.
  pose proof (second_message_waits_for_ever no_dates (λ _, "noon") "UTC" (λ _, "") an_id 10 "claude" ann_routing
    latched_run (start_live ["m1"]) (running_turn [ann_again]) lv' (state_after (STick :: latched_run) [ann_again])) as H.
  destruct H as [Hn [c Hc]].
  - vm_compute. reflexivity.
  - vm_compute. reflexivity.
  - reflexivity.
  - reflexivity.
  - reflexivity.
  - reflexivity.
  - exact E.
  - split; [exact Hn|]. exists lv', c. split; [reflexivity|exact Hc].
Defined.

Definition clarify_gate : RoutingGate :=
  mkRoutingGate "route-1" "m1" Clarify None (Some "feishu") (Some "chat-1") (Some "t1").
Lemma routed_turn_witness :
  gate_of_turn clarify_gate ann_routing ∧
  ∃ new, messages_out (rn_outbound (runQuery no_dates (λ _, "noon") "UTC" (λ _, "") an_id 10 "claude" ann_routing ["m1"]
      [SEvent (EvResult (Some "Which one?")); STick] None (setRoutingGate clarify_gate (running_turn [])).2).2) = [] ++ new ∧
    Forall (on_route clarify_gate) new.
Proof.
  assert (H : gate_of_turn clarify_gate ann_routing) by (split; [discriminate|split; reflexivity]).
  split; [exact H|].
  exact (routed_turn_stays_on_route no_dates (λ _, "noon") "UTC" (λ _, "") an_id 10 "claude" clarify_gate ann_routing
    ["m1"] [SEvent (EvResult (Some "Which one?")); STick] None (running_turn []) H).
Defined.

(** ** What modelling showed *)

(** The scratchpad is sent: an answer that is nothing but an [<internal>] block,
    which [stripInternalTags] empties and of which the comment of
    [dispatchResultText] says that it is logged and never sent, goes to the chat as
    it is, tags included (poll-loop.ts 1300-1316). *)
Theorem scratchpad_is_sent :
  let thought := "<internal>Ann sounds angry, say nothing.</internal>" in
  stripInternalTags thought = "" ∧
  map (λ m, (mo_channel_type m, mo_platform_id m, mo_content m))
    (messages_out (rn_outbound (state_after [SEvent (EvResult (Some thought))] []))) =
  [(Some "feishu", Some "chat-1", JSON_stringify (JObj [("text", JStr thought)]))].
Proof. split; vm_compute; reflexivity. Qed.

(** On the OpenAI provider a follow-up replaces the question it follows: [push]
    aborts the running turn, the next one is given the follow-up alone, on the
    continuation from before the question (openai.ts 1030-1062).  In the run below
    Ann adds a line while her question is worked on; the line is pushed, the
    question is in no prompt any more, and the result of the new turn acknowledges
    both rows: the question is recorded as answered and never was. *)
Theorem follow_up_swallows_the_question folded m q e :
  (let '(events, failure, q') := openai_settle (TurnThrows e) (openai_call folded (QPush m) q) in
   events = [] ∧ failure = None ∧ oq_prompt q' = m ∧ oq_continuation q' = oq_continuation q) ∧
  (let l := [STick; SScripts (λ _ _, None); SEvent (EvResult None)] in
   ∃ prompt, option_map lv_calls (live_after l [ann_adds]) = Some [QPush prompt] ∧
     includes prompt "please" = true ∧ includes prompt "status?" = false ∧
     messages_out (rn_outbound (state_after l [ann_adds])) = [] ∧
     map (λ a, (ak_message_id a, ak_status a)) (processing_ack (rn_outbound (state_after l [ann_adds]))) =
       [("m1", ACompleted); ("m3", ACompleted)]).
Proof.
  split; [split_and!; done|]. eexists. split; [vm_compute; reflexivity|].
  do 3 (split; [vm_compute; reflexivity|]). vm_compute. reflexivity.
Qed.
