(* ===== verification/PollTurn.v ===== *)
(** * The turns of the poll loop (container/agent-runner/src/poll-loop.ts)

    One pass of the outer loop: the pending rows are claimed and split, [/clear]
    is obeyed, the scripts of the tasks run, a routed turn gets its decision, the
    query runs and the rows are acknowledged.  The two awaits, for the scripts and
    for the decision, and the runs of the query are what the caller brings. *)
From S2P Require Import Prelude JsString Json JsonProofs Types Central SessionDb ContainerDb Formatter RequestIdentity Runner MessageBlocks PollLoop.
From stdpp Require Import gmap pretty.
From Stdlib Require Import Ascii.

Local Open Scope string_scope.
Local Open Scope Z_scope.
Local Open Scope list_scope.
Local Open Scope prog_scope.

(** ** Provider errors *)

Definition word_char (c : ascii) : bool :=
  let n := nat_of_ascii c in
  ((48 <=? n) && (n <=? 57) || (65 <=? n) && (n <=? 90) || (97 <=? n) && (n <=? 122) || (n =? 95))%nat.
(** The maximal runs of word characters: what stands between two [\b]. *)
Fixpoint words_acc (acc : bytes) (l : bytes) : list bytes :=
  match l with
  | [] => [rev acc]
  | c :: l' => if word_char c then words_acc (c :: acc) l' else rev acc :: words_acc [] l'
  end.
Definition words (s : string) : list string := map text_of (words_acc [] (bytes_of s)).
Definition has_word (w s : string) : bool := existsb (λ x, bool_decide (x = w)) (words s).
(** [/\b4\d\d\b/] *)
Definition status_class (d : ascii) (s : string) : bool :=
  existsb (λ w, match bytes_of w with
                | [a; b; c] => Ascii.eqb a d && if digit b then if digit c then true else false else false
                | _ => false
                end) (words s).

(*@ src/container/agent-runner/src/poll-loop.ts 131-142 classifyProviderError *)
Definition classifyProviderError (errMsg : string) (sessionInvalid : bool) : string :=
  if sessionInvalid then "session_invalid"
  else
    let normalized := toLowerCase errMsg in
    if has_word "502" normalized || has_word "503" normalized || has_word "504" normalized then "gateway_5xx"
    else if includes normalized "timed out" || includes normalized "timeout" then "timeout"
    else if has_word "401" normalized then "unauthorized"
    else if has_word "429" normalized then "rate_limited"
    else if status_class "4" normalized then "client_4xx"
    else if status_class "5" normalized then "server_5xx"
    else if includes normalized "non-json" then "bad_response"
    else "unknown".

(*@ src/container/agent-runner/src/poll-loop.ts 144-156 formatUserFacingError *)
Definition formatUserFacingError (errMsg : string) : string :=
  let normalized := toLowerCase errMsg in
  if existsb (includes normalized)
       ["openai endpoint returned non-json response (502)"; "openai request failed with status 502";
        "openai request failed with status 503"; "openai request failed with status 504"; "request timed out"]
  then "模型服务暂时不可用，请稍后重试。"
  else "Error: " +:+ errMsg.

(** ** Routed turns *)

(*@ src/container/agent-runner/src/routing/index.ts 24-37 EnforcedRoutingDecision *)
Record EnforcedRoutingDecision := mkEnforcedRoutingDecision {
  rd_id : string;
  rd_action : RoutingAction;
  rd_target : option string;
  rd_targetAgentGroupId : option string;
  rd_confidence : json;
  rd_reason : string;
  rd_source : string;
  rd_provider : string;
  rd_model : string;
  rd_promptHash : string;
  rd_attempts : Z;
  rd_fallbackReason : option string }.
(*@ src/container/agent-runner/src/routing/index.ts 39-50 RoutingUsage *)
Record RoutingUsage := mkRoutingUsage {
  ru_provider : string;
  ru_attempt : Z;
  ru_decisionId : string;
  ru_usage : UsageEvent }.

(*@ src/container/agent-runner/src/poll-loop.ts 188-194 routingEnabledForTurn *)
Definition routingEnabledForTurn (configured : bool) (messages : list MessageIn) (routing : RoutingContext) : bool :=
  configured && negb (bool_decide (rc_channelType routing = Some "agent")) &&
  existsb (λ m, mi_trigger m && is_chat m) messages.

(*@ src/container/agent-runner/src/poll-loop.ts 196-205 latestUserText *)
Definition latestUserText (messages : list MessageIn) : string :=
  match List.find is_chat (rev messages) with
  | None => ""
  | Some row =>
      match JSON_parse (mi_content row) with
      | None => js_slice 500 (mi_content row)
      | Some parsed =>
          match jget "text" parsed with
          | AThrow => js_slice 500 (mi_content row)
          | AValue v => match jstring v with Some s => js_slice 500 s | None => "" end
          end
      end
  end.

Definition jstrs (l : list string) : json := JArr (map JStr l).

(*@ src/container/agent-runner/src/poll-loop.ts 207-233 writeRoutingClassification *)
Definition classification_json (decision : EnforcedRoutingDecision) (identity : option RequestIdentity)
    (messages : list MessageIn) : json :=
  JObj [("action", JStr "classify_intent");
        ("classificationId", JStr (rd_id decision));
        ("userId", jopt (identity ≫= ri_userId));
        ("channelType", jopt (identity ≫= ri_channelType));
        ("platformId", jopt (identity ≫= ri_platformId));
        ("threadId", jopt (identity ≫= ri_threadId));
        ("userMessage", JStr (latestUserText messages));
        ("recommendedWorker", jopt (rd_target decision));
        ("confidence", rd_confidence decision);
        ("candidates", jstrs (if truthy (rd_target decision) then [default "" (rd_target decision)] else []));
        ("reasoning", JStr (rd_reason decision));
        ("action_taken", JStr (action_text (rd_action decision)));
        ("decisionSource", JStr (rd_source decision));
        ("routingProvider", JStr (rd_provider decision));
        ("routingModel", JStr (rd_model decision));
        ("promptHash", JStr (rd_promptHash decision));
        ("attempts", JNum (rd_attempts decision));
        ("fallbackReason", jopt (rd_fallbackReason decision))].

(*@ src/container/agent-runner/src/poll-loop.ts 235-255 writeRoutingUsage *)
Definition routing_usage_json (u : RoutingUsage) : json :=
  JObj ([("phase", JStr "routing"); ("provider", JStr (ru_provider u)); ("model", JStr (us_model (ru_usage u)));
         ("routingDecisionId", JStr (ru_decisionId u)); ("attempt", JNum (ru_attempt u))] ++
        number "inputTokens" (us_inputTokens (ru_usage u)) ++ number "outputTokens" (us_outputTokens (ru_usage u)) ++
        number "totalTokens" (us_totalTokens (ru_usage u)) ++ number "durationMs" (us_durationMs (ru_usage u)) ++
        jfield "transport" (us_transport (ru_usage u))).

(*@ src/container/agent-runner/src/poll-loop.ts 257-272 executionInstructions *)
Definition executionInstructions (base : option string) (decision : EnforcedRoutingDecision) : string :=
  let actionInstruction :=
    match rd_action decision with
    | Clarify => "Ask the user one concise clarification question. Do not delegate to any agent."
    | Reject => "Reply with a concise refusal. Do not delegate to any agent."
    | _ => "Handle the request yourself and reply to the origin channel. Do not delegate to any agent."
    end in
  let enforced := lines
    ["## Enforced routing decision"; "decision_id: " +:+ rd_id decision;
     "action: " +:+ action_text (rd_action decision); actionInstruction;
     "This decision is enforced by the runner and cannot be changed by model output or tools."] in
  if truthy base then default "" base +:+ newline +:+ newline +:+ enforced else enforced.

(** ** Attachments of a delegation *)

(** [path.basename(name) === name] of a name that is not empty: no separator. *)
(*@ src/container/agent-runner/src/poll-loop.ts 299-304 safeAttachmentName *)
Definition safeAttachmentName (value : option json) : option string :=
  match value with
  | Some (JStr s) =>
      let name := trim s in
      if bool_decide (name = "") || bool_decide (name = ".") || bool_decide (name = "..") || includes name "/"
      then None else Some name
  | _ => None
  end.

(** [record.name ?? record.filename] of an attachment that is an object. *)
Definition attachment_name (a : json) : option string :=
  match a with
  | JObj l =>
      safeAttachmentName (match obj_get "name" l with
                          | None | Some JNull => obj_get "filename" l
                          | v => v
                          end)
  | _ => None
  end.

(** A name not taken, [`${collisionIndex}-${name}`] of the next indices. *)
Fixpoint free_name (n : nat) (names : list string) (collisionIndex : Z) (name staged : string) : string * Z :=
  if bool_decide (staged ∈ names) then
    match n with
    | O => (staged, collisionIndex)
    | S n' => free_name n' names (collisionIndex + 1) name (pretty (collisionIndex + 1) +:+ "-" +:+ name)
    end
  else (staged, collisionIndex).

(** [is_file id name]: the host put a regular file there, in the inbox of that
    message.  The copies themselves are not modelled; the names are. *)
Definition stage_one (is_file : string → string → bool) (id : string) (st : list string * Z) (a : json)
    : list string * Z :=
  match attachment_name a with
  | None => st
  | Some name =>
      if is_file id name then
        let (staged, index) := free_name (length st.1) st.1 st.2 name name in
        (st.1 ++ [staged], index)
      else st
  end.
Definition stage_message {S} (is_file : string → string → bool) (st : list string * Z) (m : MessageIn)
    : prog S exn (list string * Z) :=
  match JSON_parse (mi_content m) with
  | None => ret st
  | Some content =>
      let* attachments := prop "attachments" (Some content) in
      ret (match attachments with
           | Some (JArr l) => foldl (stage_one is_file (mi_id m)) st l
           | _ => st
           end)
  end.
Fixpoint stage_messages {S} (is_file : string → string → bool) (st : list string * Z) (messages : list MessageIn)
    : prog S exn (list string * Z) :=
  match messages with
  | [] => ret st
  | m :: rest => let* st' := stage_message is_file st m in stage_messages is_file st' rest
  end.
(*@ src/container/agent-runner/src/poll-loop.ts 311-357 stageDirectDelegationAttachments *)
Definition stageDirectDelegationAttachments {S} (is_file : string → string → bool) (messages : list MessageIn)
    : prog S exn (list string) :=
  let* st := stage_messages is_file ([], 0) messages in ret st.1.

(** ** One pass of the loop *)

Section loop.
Context (sqlite_datetime : string → option Z) (formatLocalTime : stext → string) (TIMEZONE : string)
  (text_of_value : json → string) (generateId : nat → string) (maxMessages : nat) (providerName : string)
  (nativeSlashCommands : bool) (idleExitMs : Z) (routing_configured : bool)
  (is_file : string → string → bool) (isSessionInvalid : exn → bool) (text_of_exn : exn → string).
Notation prompt_of := (formatMessages formatLocalTime TIMEZONE text_of_value).

(** What a pass comes to before the scripts of its tasks run: the loop sleeps, the
    process exits, the loop goes on, or there is a turn. *)
Record Claimed := mkClaimed {
  cl_turn : list MessageIn;
  cl_normal : list MessageIn;
  cl_commands : list string;
  cl_routing : RoutingContext;
  cl_continuation : option string }.
Inductive Polled := PSleep | PExit | PAgain (continuation : option string) | PTurn (c : Claimed).

Definition chat_out (routing : RoutingContext) (id content : string) : WriteMessageOut :=
  mkWriteMessageOut id None None None "chat" (rc_platformId routing) (rc_channelType routing)
    (rc_threadId routing) content None.
Definition system_out (id content : string) : WriteMessageOut :=
  mkWriteMessageOut id None None None "system" None None None content None.

(** [/clear] resets the session and is answered; the other rows are kept. *)
(*@ src/container/agent-runner/src/poll-loop.ts 478-495 runPollLoop *)
Fixpoint run_commands (routing : RoutingContext) (continuation : option string) (l : list MessageIn)
    : runM (option string * list MessageIn * list string) :=
  match l with
  | [] => ret (continuation, [], [])
  | msg :: rest =>
      let* clear := (if is_chat msg then isClearCommand msg else ret false) in
      if clear : bool then
        clearContinuation providerName ;;
        let* id := newId generateId in
        let* _ := write_out (chat_out routing id (JSON_stringify (JObj [("text", JStr "Session cleared.")]))) in
        let* r := run_commands routing None rest in
        ret (r.1.1, r.1.2, mi_id msg :: r.2)
      else
        let* r := run_commands routing continuation rest in
        ret (r.1.1, msg :: r.1.2, r.2)
  end.

(*@ src/container/agent-runner/src/poll-loop.ts 391-506 runPollLoop *)
Definition poll (continuation : option string) (lastWorkAt : time) : runM (Polled * time) :=
  let* now := gets rn_now in
  let* pending := pending_messages sqlite_datetime maxMessages in
  let messages := List.filter (λ m, negb (bool_decide (mi_kind m = "system"))) pending in
  if negb (existsb mi_trigger messages) then
    ret (if shouldExitIdle idleExitMs lastWorkAt now then PExit else PSleep, lastWorkAt)
  else
    let firstTriggerBatch := (splitBatchByTrigger messages).1 in
    mark_processing (ids_of firstTriggerBatch) ;;
    let (turnMessages, defer) := splitBatchByTurn firstTriggerBatch in
    release (ids_of defer) ;;
    match turnMessages with
    | [] => ret (PAgain continuation, now)
    | _ =>
        let turnRouting := extractRouting turnMessages in
        let* r := run_commands turnRouting continuation turnMessages in
        let '(continuation, normalMessages, commandIds) := r in
        mark_completed commandIds ;;
        match normalMessages with
        | [] => ret (PAgain continuation, now)
        | _ => ret (PTurn (mkClaimed turnMessages normalMessages commandIds turnRouting continuation), now)
        end
    end.

Definition writeRoutingClassification (decision : EnforcedRoutingDecision) (messages : list MessageIn) : runM unit :=
  let* identity := gets (λ r, mv_identity (rn_loop r)) in
  let* id := newId generateId in
  let* _ := write_out (system_out id (JSON_stringify (classification_json decision identity messages))) in
  ret tt.
Definition writeRoutingUsage (routing : RoutingContext) (u : RoutingUsage) : runM unit :=
  let* id := newId generateId in
  let* _ := write_out (mkWriteMessageOut id None None None "llm-usage" (rc_platformId routing)
    (rc_channelType routing) (rc_threadId routing) (JSON_stringify (routing_usage_json u)) None) in
  ret tt.

(*@ src/container/agent-runner/src/poll-loop.ts 274-297 writeDirectDelegation *)
Definition writeDirectDelegation (decision : EnforcedRoutingDecision) (messages : list MessageIn)
    (routing : RoutingContext) : runM unit :=
  if negb (truthy (rd_targetAgentGroupId decision)) then throw (Err "delegate decision is missing targetAgentGroupId")
  else
    let* id := newId generateId in
    let* files := stageDirectDelegationAttachments is_file messages in
    let* text := on_inbound (prompt_of false messages) in
    let* identity := gets (λ r, mv_identity (rn_loop r)) in
    let content := JObj ([("text", JStr text)] ++
      (match files with [] => [] | _ => [("files", jstrs files)] end) ++
      [("_classificationId", JStr (rd_id decision)); ("_routingDecisionId", JStr (rd_id decision))]) in
    let* _ := write_out (mkWriteMessageOut id (rc_inReplyTo routing) None None "chat"
      (rd_targetAgentGroupId decision) (Some "agent") None (JSON_stringify content)
      (a2aOriginUserId identity "agent")) in
    ret tt.

(** A run of the query: what happens until its stream ends or fails. *)
Record QueryRun := mkQueryRun { qr_steps : list StreamStep; qr_failure : option exn }.
Definition run_query (routing : RoutingContext) (ids : list string) (q : QueryRun) : runM Live :=
  runQuery sqlite_datetime formatLocalTime TIMEZONE text_of_value generateId maxMessages providerName
    routing ids (qr_steps q) (qr_failure q).

Definition attempt {A} (m : runM A) : runM (outcome exn A) := λ r, let (res, r') := m r in (Ok res, r').

(** The turn's query, and a second one without the continuation when the first
    failed on it: the continuation to go on with, and the failure. *)
(*@ src/container/agent-runner/src/poll-loop.ts 601-634 runPollLoop *)
Definition run_turn (routing : RoutingContext) (ids : list string) (continuation : option string)
    (first second : QueryRun) : runM (option string * option exn) :=
  let finish (result : Live) (continuation : option string) : runM (option string * option exn) :=
    if truthy (lv_continuation result) && negb (bool_decide (lv_continuation result = continuation)) then
      setContinuation providerName (default "" (lv_continuation result)) ;;
      ret (lv_continuation result, None)
    else ret (continuation, None) in
  let* r1 := attempt (run_query routing ids first) in
  match r1 with
  | Ok result => finish result continuation
  | Throw e =>
      if negb (truthy continuation) || negb (isSessionInvalid e) then ret (continuation, Some e)
      else
        clearContinuation providerName ;;
        let* r2 := attempt (run_query routing ids second) in
        match r2 with
        | Ok result => finish result None
        | Throw e' => ret (None, Some e')
        end
  end.

(** The error path: the session is dropped when it is the cause, the host is told
    and the user is told. *)
(*@ src/container/agent-runner/src/poll-loop.ts 635-675 runPollLoop *)
Definition turn_failed (routing : RoutingContext) (continuation : option string) (e : exn) : runM (option string) :=
  let sessionInvalid := truthy continuation && isSessionInvalid e in
  (if sessionInvalid then clearContinuation providerName else ret tt) ;;
  let errMsg := text_of_exn e in
  let* id := newId generateId in
  let* _ := write_out (system_out id (JSON_stringify (JObj
    [("action", JStr "provider_error"); ("provider", JStr providerName);
     ("code", JStr (classifyProviderError errMsg sessionInvalid)); ("message", JStr (js_slice 500 errMsg))]))) in
  let* id := newId generateId in
  let* _ := write_out (chat_out routing id (JSON_stringify (JObj [("text", JStr (formatUserFacingError errMsg))]))) in
  ret (if sessionInvalid then None else continuation).

(** What the routing model decided, when the turn is routed; the query runs. *)
Record TurnInput := mkTurnInput {
  ti_scripts : ScriptRun;
  ti_decision : outcome exn (EnforcedRoutingDecision * list RoutingUsage);
  ti_first : QueryRun;
  ti_second : QueryRun }.

Definition gate_of (decision : EnforcedRoutingDecision) (routing : RoutingContext) (ids : list string) : RoutingGate :=
  mkRoutingGate (rd_id decision)
    (match rc_inReplyTo routing with Some i => i | None => default "" (hd_error ids) end)
    (rd_action decision) None (rc_channelType routing) (rc_platformId routing) (rc_threadId routing).

(** The body of the [try] and its [catch]; [true] when the turn was delegated and
    is done. *)
(*@ src/container/agent-runner/src/poll-loop.ts 554-591 runPollLoop *)
Definition turn_body (c : Claimed) (keep : list MessageIn) (ids : list string) (inp : TurnInput)
    : runM (option string * bool * option exn) :=
  let routing := cl_routing c in
  let* delegated := (if routingEnabledForTurn routing_configured keep routing then
     match ti_decision inp with
     | Throw e => throw e
     | Ok (decision, usages) =>
         writeRoutingClassification decision keep ;;
         for_each usages (writeRoutingUsage routing) ;;
         if bool_decide (rd_action decision = Delegate) then
           writeDirectDelegation decision keep routing ;;
           mark_completed ids ;;
           ret true
         else setRoutingGate (gate_of decision routing ids) ;; ret false
     end else ret false) in
  if delegated : bool then ret (cl_continuation c, true, None)
  else
    let* prompt := on_inbound (formatMessagesWithCommands formatLocalTime TIMEZONE text_of_value nativeSlashCommands keep) in
    let* r := run_turn routing ids (cl_continuation c) (ti_first inp) (ti_second inp) in
    ret (r.1, false, r.2).

(** The [finally] block. *)
(*@ src/container/agent-runner/src/poll-loop.ts 676-681 runPollLoop *)
Definition turn_over : runM unit :=
  clearCurrentInReplyTo ;; clearRequestIdentity ;; clearCurrentClassificationId ;; clearRoutingGate.

(** From the return of the scripts to the next pass; [aborted] is the abort signal
    of a controlled shutdown. *)
(*@ src/container/agent-runner/src/poll-loop.ts 513-553 runPollLoop *)
Definition turn (c : Claimed) (inp : TurnInput) (aborted : bool) : runM (option string) :=
  let* preTask := applyPreTaskScripts (ti_scripts inp) (cl_normal c) in
  let (keep, skipped) := (preTask : list MessageIn * list string) in
  mark_completed skipped ;;
  match keep with
  | [] => ret (cl_continuation c)
  | _ =>
      let ids := List.filter (λ id, negb (bool_decide (id ∈ cl_commands c)) && negb (bool_decide (id ∈ skipped)))
                   (ids_of (cl_turn c)) in
      clearRoutingGate ;;
      setCurrentInReplyTo (rc_inReplyTo (cl_routing c)) ;;
      setRequestIdentity (resolveBatchIdentity keep) ;;
      let* r := try_catch
        (let* r := try_catch (turn_body c keep ids inp) (λ e, ret (cl_continuation c, false, Some e)) in
         match r.2 with
         | None => ret r.1
         | Some e => let* k := turn_failed (cl_routing c) r.1.1 e in ret (k, false)
         end)
        (λ e, turn_over ;; throw e) in
      turn_over ;;
      let (continuation, delegated) := (r : option string * bool) in
      if delegated || aborted then ret continuation
      else mark_completed ids ;; ret continuation
  end.
End loop.
