(* ===== verification/PollTurnProofs.v ===== *)
(** * What the turns of the poll loop promise

    A pass of the loop starts at most one turn, for one trigger; a turn that
    returns has acknowledged its rows; nothing of a turn outlives it. *)
From S2P Require Import Prelude PollLoopProofs JsString Json JsonProofs OutboundContract Types Central SessionDb ContainerDb Formatter FormatterProofs RequestIdentity Runner MessageBlocks PollLoop PollTurn.
From stdpp Require Import gmap pretty.

Local Open Scope string_scope.
Local Open Scope Z_scope.
Local Open Scope list_scope.
Local Open Scope prog_scope.

(** ** Staged attachments *)

Definition candidate (name : string) (i : Z) : string := pretty i +:+ "-" +:+ name.

Lemma sapp_cancel (a b c : string) : a +:+ c = b +:+ c → a = b.
Proof.
  intros H%(f_equal bytes_of). rewrite !bytes_app in H. apply app_inv_tail in H.
  by rewrite <-(bytes_back a), <-(bytes_back b), H.
Qed.
Lemma candidate_inj name i j : candidate name i = candidate name j → i = j.
Proof.
  unfold candidate. intros H. apply (inj (pretty : Z → string)).
  apply (sapp_cancel _ _ ("-" +:+ name)). exact H.
Qed.
Lemma candidate_longer name i : candidate name i ≠ name.
Proof. unfold candidate. intros H%(f_equal String.length). rewrite !sapp_length in H. cbn [String.length] in H. lia. Qed.

(** The names that may still collide are at most [n]. *)
Lemma free_name_spec name : ∀ n names i staged rest,
  (∀ x, x ∈ names → x = staged ∨ (∃ j, i < j ∧ x = candidate name j) → x ∈ rest) →
  (length rest <= n)%nat → (∀ j, i < j → staged ≠ candidate name j) →
  (free_name n names i name staged).1 ∉ names.
Proof.
  induction n as [|n IH]; intros names i staged rest Hr Hn Hs; cbn [free_name].
  - case_bool_decide as H; [|done]. assert (staged ∈ rest) as Hin by (apply Hr; auto).
    destruct rest; [by apply not_elem_of_nil in Hin|simpl in Hn; lia].
  - case_bool_decide as H; [|done].
    assert (staged ∈ rest) as Hin by (apply Hr; auto).
    apply list_elem_of_split in Hin as (r1 & r2 & ->).
    apply (IH names (i + 1) (candidate name (i + 1)) (r1 ++ r2)).
    + intros x Hx Hc. assert (x ∈ r1 ++ staged :: r2) as Hx'.
      { apply Hr; [done|]. right. destruct Hc as [->|(j & Hj & ->)]; [exists (i + 1)|exists j]; split; done || lia. }
      assert (x ≠ staged).
      { destruct Hc as [->|(j & Hj & ->)]; intros E; symmetry in E; revert E; apply Hs; lia. }
      set_solver.
    + rewrite length_app in *. simpl in Hn. lia.
    + intros j Hj E%candidate_inj. lia.
Qed.

Lemma stage_one_NoDup is_file id st a : NoDup st.1 → NoDup (stage_one is_file id st a).1.
Proof.
  intros Hd. unfold stage_one. destruct (attachment_name a) as [name|]; [|done]. destruct (is_file id name); [|done].
  pose proof (free_name_spec name (length st.1) st.1 st.2 name st.1) as Hf.
  destruct (free_name _ _ _ _ _) as [staged i]. cbn [fst] in *. apply NoDup_app. split; [done|]. split; [|apply NoDup_singleton].
  intros x Hx ->%list_elem_of_singleton. apply Hf; [auto|done| |done]. intros j _ E. by apply (candidate_longer name j).
Qed.
Lemma stage_messages_NoDup {S} is_file messages : ∀ st (s s' : S) st', NoDup st.1 →
  stage_messages is_file st messages s = (Ok st', s') → NoDup st'.1.
Proof.
  induction messages as [|m l IH]; intros st s s' st' Hd; cbn [stage_messages]; [by intros [= <- _]|].
  intros (st1 & s1 & E1 & E2)%bind_ok_inv. apply (IH st1 s1 s' st'); [|done].
  revert E1. unfold stage_message. destruct (JSON_parse (mi_content m)) as [c|]; [|by intros [= <- _]].
  intros (v & s2 & _ & E)%bind_ok_inv. injection E as <- _.
  destruct v as [[]|]; try done. clear -Hd. revert st Hd. induction l0 as [|a l0 IH]; intros st Hd; [done|].
  cbn. apply IH. by apply stage_one_NoDup.
Qed.

(** The files of a delegation get distinct names: whatever the messages claim
    about their attachments, [stageDirectDelegationAttachments] stages no file
    over another, so every name in the delegation stands for one file
    (poll-loop.ts). *)
Theorem staged_names_are_distinct is_file messages (inb : InboundDb) files inb' :
  stageDirectDelegationAttachments is_file messages inb = (Ok files, inb') → NoDup files.
Proof.
  unfold stageDirectDelegationAttachments. intros (st & s1 & E & [= <- _])%bind_ok_inv.
  exact (stage_messages_NoDup is_file messages ([], 0) inb s1 st NoDup_nil_2 E).
Qed.

Section loop.
Context (sqlite_datetime : string → option Z) (formatLocalTime : stext → string) (TIMEZONE : string)
  (text_of_value : json → string) (generateId : nat → string) (maxMessages : nat) (providerName : string)
  (nativeSlashCommands : bool) (idleExitMs : Z) (routing_configured : bool)
  (is_file : string → string → bool) (isSessionInvalid : exn → bool) (text_of_exn : exn → string).
Notation poll1 := (poll sqlite_datetime generateId maxMessages providerName idleExitMs).
Notation turn1 := (turn sqlite_datetime formatLocalTime TIMEZONE text_of_value generateId maxMessages providerName
  nativeSlashCommands routing_configured is_file isSessionInvalid text_of_exn).

(** ** Nothing outlives a turn *)

(** Nothing of a turn is in the loop's variables or governs its output. *)
Definition between_turns (r : Runner) : Prop := rn_loop r = fresh_module ∧ active_gate r = None.

Lemma turn_over_run r : ∃ r', turn_over r = (Ok tt, r') ∧ between_turns r' ∧
  rn_outbound r' = rn_outbound r ∧ rn_inbound r' = rn_inbound r.
Proof.
  eexists. split; [done|]. split; [|done]. split; [done|].
  unfold active_gate. cbn. by rewrite lookup_delete_eq.
Qed.

Definition ends_clean {A} (m : runM A) : Prop := ∀ r, between_turns (m r).2.
Lemma ends_clean_bind {A B} (m : runM A) (k : A → runM B) :
  (∀ r e r', m r = (Throw e, r') → between_turns r') → (∀ a, ends_clean (k a)) → ends_clean (bind m k).
Proof. intros Hm Hk r. rewrite bind_case. destruct (m r) as [[a|e] r1] eqn:E; [apply Hk|by eapply Hm]. Qed.
Lemma completed_stays_clean ids r : between_turns r → between_turns (mark_completed ids r).2.
Proof.
  intros H. unfold mark_completed, on_outbound. by destruct (markCompleted (rn_now r) ids (rn_outbound r)) as [res out].
Qed.
Lemma turn_over_then {A} (m : runM A) : (∀ r, between_turns r → between_turns (m r).2) → ends_clean (turn_over ;; m).
Proof. intros Hm r. rewrite bind_case. destruct (turn_over_run r) as (r' & -> & Hc & _). by apply Hm. Qed.

(** Nothing of a turn outlives it: whether [turn] returns or throws, whatever
    its query, its routing model and its scripts did, the reply anchor, the
    requester, the classification and the routing gate are gone when the next pass
    begins, if any of its rows was kept; if none was they are untouched
    (poll-loop.ts 513-696). *)
Theorem turn_leaves_nothing_behind c inp aborted r :
  let '(res, r') := turn1 c inp aborted r in
  between_turns r' ∨ rn_loop r' = rn_loop r ∧ rn_state r' = rn_state r.
Proof.
  unfold turn. rewrite bind_case.
  pose proof (scripts_related (S:=Runner) eq (ti_scripts inp) (cl_normal c) r) as Hs.
  destruct (applyPreTaskScripts (ti_scripts inp) (cl_normal c) r) as [[[keep skipped]|e] r1]; cbn in Hs; subst r1; [|by right].
  rewrite bind_case. unfold mark_completed at 1, on_outbound at 1.
  destruct (markCompleted_run (rn_now r) skipped (rn_outbound r)) as (out & Em & _). rewrite Em.
  destruct keep as [|m keep]; [by right|].
  match goal with |- let '(res, r') := ?p ?s in _ => assert (H : ends_clean p); [|specialize (H s); destruct (p s); by left] end.
  do 3 (apply ends_clean_bind; [done|intros _]).
  apply ends_clean_bind.
  - intros r1 e r2. unfold try_catch at 1.
    match goal with |- (match ?p with _ => _ end = _ → _) => destruct p as [[a|e'] r3] end; [done|].
    pose proof (turn_over_then (throw (A:=option string * bool) e') (λ r H, H) r3) as Hc.
    intros E. rewrite E in Hc. exact Hc.
  - intros [continuation delegated]. apply turn_over_then. intros r1 Hr1.
    destruct (delegated || aborted); [done|]. rewrite bind_case.
    pose proof (completed_stays_clean (List.filter (λ id, negb (bool_decide (id ∈ cl_commands c)) &&
      negb (bool_decide (id ∈ skipped))) (ids_of (cl_turn c))) r1 Hr1) as Hc.
    by destruct (mark_completed _ r1) as [[[]|e] r2].
Qed.

(** ** What a pass starts *)

Lemma filter_filter_sublist {A} (p q : A → bool) (l : list A) :
  List.filter p (List.filter q l) `sublist_of` List.filter p l.
Proof.
  induction l as [|x l IH]; [constructor|]. cbn.
  destruct (q x); cbn; destruct (p x); done || by constructor.
Qed.
Lemma run_commands_split routing l : ∀ k r res r',
  run_commands generateId providerName routing k l r = (Ok res, r') →
  res.1.2 `sublist_of` l ∧ ids_of res.1.2 ++ res.2 ≡ₚ ids_of l.
Proof.
  induction l as [|m l IH]; intros k r res r'; cbn [run_commands]; [by intros [= <- _]|].
  intros (clear & r1 & _ & E)%bind_ok_inv. destruct clear.
  - apply bind_ok_inv in E as (? & r2 & _ & E). apply bind_ok_inv in E as (id & r3 & _ & E).
    apply bind_ok_inv in E as (? & r4 & _ & E). apply bind_ok_inv in E as (res' & r5 & E5 & E).
    injection E as <- _. destruct (IH _ _ _ _ E5) as [Hs Hp]. cbn [fst snd]. split; [by constructor|].
    cbn [ids_of map]. rewrite <-Permutation_middle. by rewrite Hp.
  - apply bind_ok_inv in E as (res' & r5 & E5 & E). injection E as <- _.
    destruct (IH _ _ _ _ E5) as [Hs Hp]. cbn [fst snd]. split; [by constructor|]. cbn. by rewrite Hp.
Qed.

(** A pass of the loop starts at most one turn, and for one trigger: the rows of
    a turn that [poll] hands on are pending rows in their order, at least one and
    with at most one trigger among them, and each is either a [/clear] that was
    obeyed or goes on to the model; a pass without a trigger changes nothing, so
    that context alone never engages the agent (poll-loop.ts 391-506). *)
Theorem a_pass_starts_one_turn k lastWorkAt r :
  let pending := List.filter (λ m, negb (bool_decide (mi_kind m = "system")))
    (getPendingMessages sqlite_datetime (rn_now r) maxMessages (rn_inbound r) (rn_outbound r)) in
  match poll1 k lastWorkAt r with
  | (Ok (PTurn c, t), _) =>
      cl_turn c `sublist_of` pending ∧ cl_normal c `sublist_of` cl_turn c ∧ cl_normal c ≠ [] ∧
      ids_of (cl_normal c) ++ cl_commands c ≡ₚ ids_of (cl_turn c) ∧
      (length (List.filter mi_trigger (cl_turn c)) <= 1)%nat ∧ t = rn_now r
  | (Ok (PSleep, t), r') | (Ok (PExit, t), r') => r' = r ∧ t = lastWorkAt ∧ existsb mi_trigger pending = false
  | _ => existsb mi_trigger pending = true
  end.
Proof.
  unfold poll. rewrite bind_gets. unfold pending_messages. rewrite bind_gets. cbv beta zeta.
  set (pending := List.filter _ _). destruct (existsb mi_trigger pending) eqn:Ht; cbn [negb].
  2: { unfold ret. by destruct (shouldExitIdle _ _ _). }
  pose proof (before_trigger_spec pending false) as Hcut. unfold splitBatchByTrigger.
  destruct (before_trigger false pending) as [first rest]. destruct Hcut as (Hcut & Hone & _). cbn [fst].
  assert (Hfirst : first `sublist_of` pending) by (rewrite <-Hcut; apply sublist_inserts_r; done).
  rewrite bind_case. destruct (mark_processing (ids_of first) r) as [[[]|e] r1] eqn:E1; [|done].
  unfold splitBatchByTurn. set (q := stays (resolveBatchIdentity first)).
  rewrite bind_case. destruct (release _ r1) as [[[]|e] r2] eqn:E2; [|done].
  pose proof (filter_sublist q first) as Hturn.
  assert (Hle : (length (List.filter mi_trigger (List.filter q first)) <= 1)%nat).
  { pose proof (sublist_length _ _ (filter_filter_sublist mi_trigger q first)). lia. }
  destruct (List.filter q first) as [|m turnMessages] eqn:Eq; [done|]. rewrite <-Eq in *.
  rewrite bind_case. destruct (run_commands _ _ _ _ _ r2) as [[[[k' normal] cmds]|e] r3] eqn:E3; [|done].
  destruct (run_commands_split _ _ _ _ _ _ E3) as [Hn Hp]. cbn [fst snd] in *.
  rewrite bind_case. destruct (mark_completed cmds r3) as [[[]|e] r4] eqn:E4; [|done].
  destruct normal as [|m' normal]; [done|]. cbn. split_and!; try done. by transitivity first.
Qed.

(** ** What a turn acknowledges *)

Lemma mark_completed_run ids r : ∃ out, mark_completed ids r = (Ok tt, set_rn_outbound out r) ∧
  messages_out out = messages_out (rn_outbound r) ∧ ∀ id, id ∈ ids → completed out id.
Proof.
  unfold mark_completed, on_outbound. destruct (markCompleted_run (rn_now r) ids (rn_outbound r)) as (out & E & H).
  rewrite E. by exists out.
Qed.
Lemma delegated_completes c keep ids inp r k f r' :
  turn_body sqlite_datetime formatLocalTime TIMEZONE text_of_value generateId maxMessages providerName
    nativeSlashCommands routing_configured is_file isSessionInvalid c keep ids inp r = (Ok (k, true, f), r') →
  f = None ∧ ∀ id, id ∈ ids → completed (rn_outbound r') id.
Proof.
  unfold turn_body. intros (d & r1 & E1 & E2)%bind_ok_inv. destruct d.
  - injection E2 as _ <- <-. split; [done|]. destruct (routingEnabledForTurn _ _ _); [|done].
    destruct (ti_decision inp) as [[decision usages]|e]; [|done].
    apply bind_ok_inv in E1 as (? & r2 & _ & E1). apply bind_ok_inv in E1 as (? & r3 & _ & E1).
    destruct (bool_decide (rd_action decision = Delegate)).
    + apply bind_ok_inv in E1 as (? & r4 & _ & E1). apply bind_ok_inv in E1 as (? & r5 & E5 & E1).
      destruct (mark_completed_run ids r4) as (out & E & _ & Hc). rewrite E in E5.
      injection E5 as _ <-. injection E1 as <-. done.
    + by apply bind_ok_inv in E1 as (? & r4 & _ & [= ]).
  - apply bind_ok_inv in E2 as (? & r2 & _ & E2). by apply bind_ok_inv in E2 as (? & r3 & _ & [= ]).
Qed.

End loop.

(** ** Concrete passes *)

Notation desk_poll := (poll no_dates an_id 10 "claude" 0).
Notation desk_turn := (turn no_dates (λ _, "noon") "UTC" (λ _, "") an_id 10 "claude" true false (λ _ _, true)
  (λ _, false) (λ _, "request timed out")).
(** The container is up and [rows] are waiting. *)
Definition waiting (rows : list MessageIn) : Runner :=
  mkRunner 0 0 (mkInboundDb rows [] [chat_dest] None []) emptyOutbound [] ∅ fresh_module fresh_module.
Definition ann_claim : Claimed := mkClaimed [ann_asks] [ann_asks] [] ann_routing None.
Definition silent_query (failure : option exn) : TurnInput :=
  mkTurnInput (λ _ _, None) (Throw TypeError) (mkQueryRun [] failure) (mkQueryRun [] None).
Definition turn_state (inp : TurnInput) (r : Runner) : Runner := (desk_turn ann_claim inp false r).2.


Definition file_row (id : string) (names : list string) : MessageIn :=
  row_from id 2 "chat" true None (JObj [("text", JStr "see"); ("attachments", JArr (map (λ n, JObj [("name", JStr n)]) names))]).
Lemma staged_names_witness :
  (stageDirectDelegationAttachments (λ _ _, true) [file_row "m1" ["a.png"; "../x"]; file_row "m2" ["a.png"; "1-a.png"; "a.png"]]
     emptyInbound).1 = Ok ["a.png"; "1-a.png"; "2-1-a.png"; "3-a.png"] ∧
  NoDup ["a.png"; "1-a.png"; "2-1-a.png"; "3-a.png"].
Proof.
  split; [vm_compute; reflexivity|].
  apply (staged_names_are_distinct (λ _ _, true)
    [file_row "m1" ["a.png"; "../x"]; file_row "m2" ["a.png"; "1-a.png"; "a.png"]] emptyInbound _ emptyInbound).
  vm_compute. reflexivity.
Defined.

(** ** What modelling showed *)

(** One message stops a runner: a content whose text is no text passes the
    host's contract and is forwarded to another agent as it is; there
    [isClearCommand] throws on it, outside of every [try] of [runPollLoop], after
    the row was claimed, and the process exits (poll-loop.ts 479).  The next
    container finds the row again. *)
Theorem one_message_stops_a_runner k lastWorkAt :
  let content := JSON_stringify (JObj [("text", JNum 5)]) in
  let row := mkMessageIn "m1" 2 "chat" (TIso 0) RPending None None None 0 true (Some "g2") (Some "agent") None
    content None None None in
  parseOutboundContent content = Admitted_content [("text", JNum 5)] ∧
  (desk_poll k lastWorkAt (waiting [row])).1 = Throw TypeError ∧
  processing_ack (rn_outbound (desk_poll k lastWorkAt (waiting [row])).2) = [mkAckRow "m1" AProcessing 0].
Proof. do 2 (split; [vm_compute; reflexivity|]). vm_compute. reflexivity. Qed.

(** Anybody who may write to an agent resets it: the host lets [/clearly ...]
    through (see [anyone_can_clear]), and the pass that claims it drops the stored
    continuation, answers [Session cleared.] and acknowledges the message, which
    the model never sees (poll-loop.ts 478-493). *)
Theorem ordinary_text_resets_the_session :
  let row := row_from "m1" 2 "chat" true (Some "t1") (from_user "ou_guest" "/clearly I need help") in
  let r := set_rn_state {[continuationKey "claude" := "sdk-1"]} (waiting [row]) in
  let r' := (desk_poll (Some "sdk-1") 0 r).2 in
  (desk_poll (Some "sdk-1") 0 r).1 = Ok (PAgain None, 0) ∧ rn_state r' !! continuationKey "claude" = None ∧
  map mo_content (messages_out (rn_outbound r')) = [JSON_stringify (JObj [("text", JStr "Session cleared.")])] ∧
  processing_ack (rn_outbound r') = [mkAckRow "m1" ACompleted 0].
Proof. do 3 (split; [vm_compute; reflexivity|]). vm_compute. reflexivity. Qed.
