(* ===== verification/GroupInit.v ===== *)
(** * The files of a group (src/group-init.ts, src/state-scope.ts,
    src/claude-md-compose.ts)

    What is set up on disk when a group is created and at every start of one of
    its containers: the directory of the group, the directories that hold an
    agent's state, and the CLAUDE.md that is composed anew each time. *)
From Stdlib Require Import QArith Ascii.
From S2P Require Import Prelude JsString Json JsonProofs JsonIndent Types Central SafeText Fs ContainerConfig ScopeRetention.

Local Open Scope string_scope.
Local Open Scope Z_scope.
Local Open Scope list_scope.
Local Open Scope prog_scope.

Definition lf : string := String (Ascii.ascii_of_nat 10) EmptyString.
(** The texts of [l], a line each. *)
Definition lines (l : list string) : string := String.concat lf l.

(** [path.join(dir, rel)] *)
Definition join_path (dir : list string) (rel : string) : list string :=
  rev (resolve_segments true (dir ++ split_on "/" rel) []).

(** ** settings.json *)

(*@ src/src/group-init.ts 153-154 PRE_COMPACT_COMMAND *)
Definition PRE_COMPACT_COMMAND : string := "bun /app/src/compact-instructions.ts".
Definition CLAUDE_AUTO_MEMORY_ENV_KEY : string := "CLAUDE_CODE_DISABLE_AUTO_MEMORY".
Definition compact_hook : json :=
  JObj [("hooks", JArr [JObj [("type", JStr "command"); ("command", JStr PRE_COMPACT_COMMAND)]])].
Definition flag (b : bool) : string := if b then "1" else "0".

(*@ src/src/group-init.ts 9-35 buildDefaultSettingsJson *)
Definition buildDefaultSettingsJson (disableAutoMemory : bool) : string :=
  JSON_stringify_indent (JObj
    [("env", JObj [("CLAUDE_CODE_EXPERIMENTAL_AGENT_TEAMS", JStr "1");
                   ("CLAUDE_CODE_ADDITIONAL_DIRECTORIES_CLAUDE_MD", JStr "1");
                   (CLAUDE_AUTO_MEMORY_ENV_KEY, JStr (flag disableAutoMemory))]);
     ("hooks", JObj [("PreCompact", JArr [compact_hook])])]) +:+ lf.

(** The memory policy in [settings.env]; what is set on an array is not
    written. *)
(*@ src/src/group-init.ts 166-174 env *)
Definition sync_env (disableAutoMemory : bool) (l : list (string * json)) : list (string * json) * bool :=
  let expected := flag disableAutoMemory in
  match obj_get "env" l with
  | Some (JObj env) =>
      if bool_decide (jstring (obj_get CLAUDE_AUTO_MEMORY_ENV_KEY env) = Some expected) then (l, false)
      else (obj_set "env" (JObj (obj_set CLAUDE_AUTO_MEMORY_ENV_KEY (JStr expected) env)) l, true)
  | Some (JArr _) => (l, true)
  | _ => (obj_set "env" (JObj [(CLAUDE_AUTO_MEMORY_ENV_KEY, JStr expected)]) l, true)
  end.
(** The hook appended; [None] when the assignment or [push] throws. *)
(*@ src/src/group-init.ts 187-191 PreCompact *)
Definition add_hook (l : list (string * json)) : option (list (string * json)) :=
  let hooks := match obj_get "hooks" l with
               | Some v => if jtruthy (Some v) then v else JObj []
               | None => JObj []
               end in
  match hooks with
  | JObj h =>
      match obj_get "PreCompact" h with
      | Some (JArr entries) => Some (obj_set "hooks" (JObj (obj_set "PreCompact" (JArr (entries ++ [compact_hook])) h)) l)
      | v => if jtruthy v then None
             else Some (obj_set "hooks" (JObj (obj_set "PreCompact" (JArr [compact_hook]) h)) l)
      end
  | JArr _ => Some l
  | _ => None
  end.
(** The settings to write, if any. *)
(*@ src/src/group-init.ts 163-197 ensureClaudeSettings *)
Definition synced_settings (settings : json) (disableAutoMemory : bool) : option json :=
  match settings with
  | JObj l =>
      let '(l, changed) := sync_env disableAutoMemory l in
      let existing := opt_get "PreCompact" (obj_get "hooks" l) in
      if jtruthy existing && includes (JSON_stringify (default JNull existing)) PRE_COMPACT_COMMAND
      then (if changed then Some (JObj l) else None)
      else option_map JObj (add_hook l)
  | JArr _ => Some settings
  | _ => None
  end.
(** Whatever fails is left. *)
(*@ src/src/group-init.ts 160-201 ensureClaudeSettings *)
Definition ensureClaudeSettings (settingsFile : list string) (disableAutoMemory : bool) : fsM unit :=
  let* raw := gets (λ fs, readFile fs settingsFile) in
  match raw ≫= JSON_parse with
  | Some settings =>
      match synced_settings settings disableAutoMemory with
      | Some settings => try_catch (write_file settingsFile (JSON_stringify_indent settings +:+ lf)) (λ _, ret tt)
      | None => ret tt
      end
  | None => ret tt
  end.

(** ** The directories *)

(*@ src/src/group-init.ts 112-117 seedClaudeLocalMd *)
Definition seedClaudeLocalMd (dir : list string) : fsM bool := ensure_file (dir ++ ["CLAUDE.local.md"]) "".

(*@ src/src/group-init.ts 126-151 initClaudeStateDir *)
Definition initClaudeStateDir (claudeDir : list string) (disableAutoMemory : bool) : fsM unit :=
  ensure_dir claudeDir ;;
  let settingsFile := claudeDir ++ ["settings.json"] in
  let* there := gets (λ fs, existsSync fs settingsFile) in
  (if there : bool then ensureClaudeSettings settingsFile disableAutoMemory
   else write_file settingsFile (buildDefaultSettingsJson disableAutoMemory)) ;;
  ensure_dir (claudeDir ++ ["skills"]) ;;
  ret tt.

(*@ src/src/state-scope.ts 149-196 ensureStateScope *)
Definition ensureStateScope (scope : StateScope) (disableAutoMemory : bool) : fsM unit :=
  match sc_kind scope with
  | GroupScope => ret tt
  | UserScope =>
      let dir := sc_workspaceDir scope in
      ensure_dir dir ;;
      seedClaudeLocalMd dir ;;
      ensure_dir (dir ++ ["conversations"]) ;;
      let* linkPresent := gets (λ fs, lexists fs (dir ++ [".claude-shared.md"])) in
      (if linkPresent : bool then ret tt
       else try_catch (symlink ["app"; "CLAUDE.md"] (dir ++ [".claude-shared.md"])) (λ _, ret tt)) ;;
      initClaudeStateDir (sc_claudeDir scope) disableAutoMemory ;;
      match sc_baseDir scope with
      | Some base => try_catch (write_file (base ++ [".last-access"]) "") (λ _, ret tt)
      | None => ret tt
      end
  end.

Section groups.
Context (frac_value : string → Q) (GROUPS_DIR DATA_DIR PROJECT_ROOT : list string) (pid : string).

Definition group_dir (group : AgentGroup) : list string := GROUPS_DIR ++ [ag_folder group].
Definition gateway_memory (c : ContainerConfig) : bool := bool_decide (jstring (cfg_get "memoryMode" c) = Some "gateway").

(*@ src/src/group-init.ts 52-103 initGroupFilesystem *)
Definition initGroupFilesystem (group : AgentGroup) (instructions : option string) : fsM unit :=
  let* config := readContainerConfig frac_value GROUPS_DIR (ag_folder group) in
  let disableAutoMemory := gateway_memory config in
  let groupDir := group_dir group in
  ensure_dir groupDir ;;
  (if truthy instructions
   then ensure_file (groupDir ++ ["instructions.md"]) (default "" instructions +:+ lf) ;; ret tt
   else ret tt) ;;
  seedClaudeLocalMd groupDir ;;
  initContainerConfig GROUPS_DIR (ag_folder group) ;;
  initClaudeStateDir (DATA_DIR ++ ["v2-sessions"; ag_id group; ".claude-shared"]) disableAutoMemory.

(** ** CLAUDE.md *)

(*@ src/src/claude-md-compose.ts 275-289 syncSymlink *)
Definition syncSymlink (linkPath target : list string) : fsM unit :=
  let* current := gets (λ fs, readlink fs linkPath) in
  if bool_decide (current = Some (true, target)) then ret tt
  else
    try_catch (unlink linkPath) (λ _, ret tt) ;;
    symlink target linkPath.
(** [`${filePath}.tmp-${process.pid}`] *)
Definition tmp_path (p : list string) : list string := parent p ++ [basename p +:+ ".tmp-" +:+ pid].
(*@ src/src/claude-md-compose.ts 291-295 writeAtomic *)
Definition writeAtomic (filePath : list string) (content : string) : fsM unit :=
  write_file (tmp_path filePath) content ;;
  rename (tmp_path filePath) filePath.

(** A fragment that is wanted: a link into the container, or a text. *)
Inductive Fragment := Linked (target : list string) | Inline (content : json).
(** [desired.set(name, fragment)] *)
Fixpoint want (name : string) (f : Fragment) (l : list (string * Fragment)) : list (string * Fragment) :=
  match l with
  | [] => [(name, f)]
  | (n, g) :: l' => if bool_decide (n = name) then (n, f) :: l' else (n, g) :: want name f l'
  end.

(** [entry.match(/^(.+)\.instructions\.md$/)] *)
Definition module_of (entry : string) : option string :=
  let suffix := ".instructions.md" in
  let n := (String.length entry - String.length suffix)%nat in
  if (1 <=? n)%nat && bool_decide (drop_string n entry = suffix) then Some (take_string n entry) else None.

(** The names of a directory, [None] when listing it throws. *)
Definition names_of (dir : list string) : fsM (list string) :=
  let* names := gets (λ fs, readdir fs dir) in
  match names with Some l => ret l | None => throw (Err "ENOTDIR") end.

Definition skills_dir : list string := PROJECT_ROOT ++ ["container"; "skills"].
Definition texts_of (v : json) : list string :=
  match v with JArr l => omap (λ v, match v with JStr s => Some s | _ => None end) l | _ => [] end.
(** [config.skills === 'all' ? readdirSync(dir) : config.skills] *)
Definition candidates_of (config : ContainerConfig) : fsM (list string) :=
  match cfg_get "skills" config with
  | Some (JStr _) => names_of skills_dir
  | v => ret (texts_of (default JNull v))
  end.
Definition has_instructions (skillName : string) : fsM bool :=
  gets (λ fs, existsSync fs (join_path (join_path skills_dir skillName) "instructions.md")).
(** The names that satisfy [p], in order. *)
Fixpoint filter_fs (p : string → fsM bool) (l : list string) : fsM (list string) :=
  match l with
  | [] => ret []
  | x :: l' => let* b := p x in let* rest := filter_fs p l' in ret (if b : bool then x :: rest else rest)
  end.

(** ** The index of the skills *)

(** The texts after [\s*\n], the longest match first. *)
Fixpoint after_blank_line (n : nat) (l : list ascii) : list (list ascii) :=
  match n with
  | O => []
  | S n' =>
      match strip_any ws_chars l with
      | Some r => after_blank_line n' r ++ match l with c :: _ => if bool_decide (byte c = 10) then [r] else [] | [] => [] end
      | None => []
      end
  end.
Definition blank_line (l : list ascii) : list (list ascii) := after_blank_line (S (length l)) l.
Definition dashes : list nat := [45; 45; 45]%nat.
(** The text up to the first [\n---\s*\n]. *)
Fixpoint up_to_close (seen l : list ascii) : option (list ascii) :=
  match l with
  | [] => None
  | c :: l' =>
      match (if bool_decide (byte c = 10) then strip_bytes dashes l' else None) with
      | Some r => match blank_line r with [] => up_to_close (c :: seen) l' | _ => Some (rev seen) end
      | None => up_to_close (c :: seen) l'
      end
  end.
Definition front_matter (text : string) : option string :=
  match strip_bytes dashes (String.list_ascii_of_string text) with
  | Some r => option_map String.string_of_list_ascii (head (omap (up_to_close []) (blank_line r)))
  | None => None
  end.

(** A key of letters and underscores, a colon and a value on the same line. *)
Definition key_char (c : ascii) : bool := let n := byte c in upper n || lower n || (n =? 95).
Definition line_ends : list (list nat) := [[13]; [226; 128; 168]; [226; 128; 169]]%nat.
Fixpoint has_line_end (l : list ascii) : bool :=
  match l with [] => false | _ :: l' => bool_decide (is_Some (strip_any line_ends l)) || has_line_end l' end.
Definition key_value (line : string) : option (string * string) :=
  match index_of ":"%char line with
  | None => None
  | Some n =>
      let key := take_string n line in
      let rest := drop_ws ws_chars (String.length line) (String.list_ascii_of_string (drop_string (S n) line)) in
      if bool_decide (key = "") || negb (forallb key_char (String.list_ascii_of_string key)) || has_line_end rest then None
      else Some (key, trim (String.string_of_list_ascii rest))
  end.
(** A value in quotes, without them. *)
Definition unquote (value : string) : string :=
  let ends (c : ascii) := match String.list_ascii_of_string value with
                          | d :: _ => bool_decide (c = d) && bool_decide (List.last (String.list_ascii_of_string value) " "%char = c)
                          | [] => false
                          end in
  if ends (ascii_of_nat 34) || ends (ascii_of_nat 39)
  then String.substring 1 (String.length value - 2) value else value.

(*@ src/src/claude-md-compose.ts 43-65 readSkillFrontmatter *)
Definition readSkillFrontmatter (text : option string) : option string * option string :=
  match text ≫= front_matter with
  | None => (None, None)
  | Some body =>
      fold_left (λ out line,
        match key_value line with
        | Some (k, v) => if bool_decide (k = "name") then (Some (unquote v), out.2)
                         else if bool_decide (k = "description") then (out.1, Some (unquote v)) else out
        | None => out
        end) (split_on (ascii_of_nat 10) body) (None, None)
  end.
Example frontmatter_ex :
  readSkillFrontmatter (Some (lines ["---"; "name: web"; "description:  'Search the web'"; "---"; ""; "x"])) =
  (Some "web", Some "Search the web").
Proof. vm_compute. done. Qed.

Definition qq (s : string) : string := String (ascii_of_nat 34) (s +:+ String (ascii_of_nat 34) EmptyString).
(*@ src/src/claude-md-compose.ts 119-132 indexLines *)
Definition index_preamble : list string :=
  ["# Available Skills"; "";
   "These skills are available but NOT loaded into your prompt. To use a skill, call the `load_skill(name)` MCP tool FIRST — its `instructions.md` will be returned as a tool result and become part of the conversation history. After loading, follow the skill's instructions to complete the task.";
   ""; "## Decision shortcut (DO NOT skip)"; "";
   "- If the incoming message is a simple greeting / acknowledgement / yes-no confirmation / " +:+ qq "你好" +:+ "/" +:+
     qq "在吗" +:+ "/" +:+ qq "OK" +:+ "/" +:+ qq "收到" +:+
     "/casual chitchat → respond DIRECTLY with the appropriate fixed-template reply. **Do NOT call `load_skill`. Do NOT enumerate this list.**";
   "- If the message clearly maps to one specific worker (knowledge/robot/labops/monitor/remote/feishu/...) you can dispatch to → use `<message to=" +:+
     qq "<worker-name>" +:+ ">...</message>` and DO NOT load a skill. Skills are for workers to use, not for the dispatcher.";
   "- Only call `load_skill(name)` when YOU (the dispatcher) genuinely need a specific how-to for an unusual operation that no worker handles. This is rare.";
   ""; "## Skill index"; ""].
Definition index_line (fs : gmap (list string) node) (skillName : string) : string :=
  let meta := readSkillFrontmatter (readFile fs (join_path (join_path skills_dir skillName) "SKILL.md")) in
  let desc := trim (default "" meta.2) in
  "- **" +:+ default skillName meta.1 +:+ "** — " +:+ (if bool_decide (desc = "") then "(no description)" else desc).

(** ** Composing *)

(** What the skills contribute, by the mode of disclosure. *)
(*@ src/src/claude-md-compose.ts 102-158 desired *)
Definition skill_fragments (config : ContainerConfig) : fsM (list (string * Fragment)) :=
  let* there := gets (λ fs, existsSync fs skills_dir) in
  if negb there then ret []
  else
    let* candidates := candidates_of config in
    match cfg_get "progressiveDisclosure" config with
    | Some (JStr _) => ret []
    | v =>
        let* documented := filter_fs has_instructions candidates in
        if jtruthy v then
          let* entries := gets (λ fs, map (index_line fs) documented) in
          ret [("skill-index.md", Inline (JStr (lines (index_preamble ++ entries ++ [""]))))]
        else ret (fold_left (λ l skillName,
                    want ("skill-" +:+ skillName +:+ ".md")
                      (Linked (["app"; "skills"] ++ split_on "/" (skillName +:+ "/instructions.md"))) l) documented [])
    end.

Definition mcp_tools_dir : list string := PROJECT_ROOT ++ ["container"; "agent-runner"; "src"; "mcp-tools"].
(*@ src/src/claude-md-compose.ts 159-174 mcpToolsHostDir *)
Definition module_fragments (l : list (string * Fragment)) : fsM (list (string * Fragment)) :=
  let* there := gets (λ fs, existsSync fs mcp_tools_dir) in
  if negb there then ret l
  else
    let* names := names_of mcp_tools_dir in
    ret (fold_left (λ l entry,
      match module_of entry with
      | Some moduleName => want ("module-" +:+ moduleName +:+ ".md") (Linked ["app"; "src"; "mcp-tools"; entry]) l
      | None => l
      end) names l).

(** [Object.entries(config.mcpServers)], of an object. *)
Definition servers_of (config : ContainerConfig) : list (string * json) :=
  match cfg_get "mcpServers" config with Some (JObj l) => l | _ => [] end.
(*@ src/src/claude-md-compose.ts 176-185 mcpServers *)
Fixpoint server_fragments (servers : list (string * json)) (l : list (string * Fragment)) : fsM (list (string * Fragment)) :=
  match servers with
  | [] => ret l
  | (name, mcp) :: rest =>
      match jget "instructions" mcp with
      | AThrow => throw (Err "TypeError")
      | AValue v => server_fragments rest
          (if jtruthy v then want ("mcp-" +:+ name +:+ ".md") (Inline (default JNull v)) l else l)
      end
  end.

(** The stale fragments go, and the wanted ones are written. *)
(*@ src/src/claude-md-compose.ts 187-200 desired *)
Definition reconcile (fragmentsDir : list string) (desired : list (string * Fragment)) : fsM unit :=
  let* existing := names_of fragmentsDir in
  for_each existing (λ name,
    if bool_decide (name ∈ map fst desired) then ret tt else unlink (join_path fragmentsDir name)) ;;
  for_each desired (λ nf,
    let fragPath := join_path fragmentsDir nf.1 in
    match nf.2 with
    | Linked target => syncSymlink fragPath target
    | Inline (JStr content) => writeAtomic fragPath content
    | Inline _ => throw (Err "TypeError")
    end).

(*@ src/src/claude-md-compose.ts 33-33 COMPOSED_HEADER *)
Definition COMPOSED_HEADER : string :=
  "<!-- Composed at spawn — do not edit. Edit CLAUDE.local.md for per-group content. -->".

(** The names are sorted by their bytes; the code sorts by UTF-16 units. *)
Definition composed_body (instructed : bool) (desired : list (string * Fragment)) : string :=
  lines ([COMPOSED_HEADER; "@./.claude-shared.md"] ++
         (if instructed then ["@./instructions.md"] else []) ++
         map (λ name, "@./.claude-fragments/" +:+ name) (merge_sort String.le (map fst desired)) ++ [""]).

(*@ src/src/claude-md-compose.ts 72-220 composeGroupClaudeMd *)
Definition composeGroupClaudeMd (group : AgentGroup) : fsM unit :=
  let groupDir := group_dir group in
  ensure_dir groupDir ;;
  syncSymlink (groupDir ++ [".claude-shared.md"]) ["app"; "CLAUDE.md"] ;;
  let fragmentsDir := groupDir ++ [".claude-fragments"] in
  ensure_dir fragmentsDir ;;
  let* config := readContainerConfig frac_value GROUPS_DIR (ag_folder group) in
  let* skills := skill_fragments config in
  let* modules := module_fragments skills in
  let* desired := server_fragments (servers_of config) modules in
  reconcile fragmentsDir desired ;;
  let* instructed := gets (λ fs, existsSync fs (groupDir ++ ["instructions.md"])) in
  writeAtomic (groupDir ++ ["CLAUDE.md"]) (composed_body instructed desired) ;;
  ensure_file (groupDir ++ ["CLAUDE.local.md"]) "" ;;
  ret tt.

(** ** The move to CLAUDE.local.md, at every start of the host *)

(*@ src/src/claude-md-compose.ts 245-261 migrateGroupsToClaudeLocal *)
Definition migrate_group (name : string) : fsM unit :=
  let groupDir := GROUPS_DIR ++ [name] in
  try_catch (unlink (groupDir ++ [".claude-global.md"])) (λ _, ret tt) ;;
  let* there := gets (λ fs, existsSync fs (groupDir ++ ["CLAUDE.md"])) in
  let* taken := gets (λ fs, existsSync fs (groupDir ++ ["CLAUDE.local.md"])) in
  if there && negb taken then rename (groupDir ++ ["CLAUDE.md"]) (groupDir ++ ["CLAUDE.local.md"]) else ret tt.
(*@ src/src/claude-md-compose.ts 236-273 migrateGroupsToClaudeLocal *)
Definition migrateGroupsToClaudeLocal : fsM unit :=
  let* there := gets (λ fs, existsSync fs GROUPS_DIR) in
  if negb there then ret tt
  else
    let* names := names_of GROUPS_DIR in
    for_each names (λ name,
      let* dir := gets (λ fs, is_dir (lstat fs (GROUPS_DIR ++ [name]))) in
      if negb dir || bool_decide (name = "global") then ret tt else migrate_group name) ;;
    let* global := gets (λ fs, existsSync fs (GROUPS_DIR ++ ["global"])) in
    if global : bool then rm_force (GROUPS_DIR ++ ["global"]) else ret tt.
End groups.
