(* ===== verification/MountSecurity.v ===== *)
(** * Additional mounts (src/modules/mount-security/index.ts)

    The mounts a group's configuration asks for, checked against an allowlist
    that is kept where no container can write. *)
From Stdlib Require Import QArith Ascii.
From S2P Require Import Prelude JsString Json Types Central Fs ContainerConfig.

Local Open Scope string_scope.
Local Open Scope Z_scope.
Local Open Scope list_scope.

(** The roots and the patterns are values of the file; only that each is a list
    is checked. *)
(*@ src/src/modules/mount-security/index.ts 21-24 MountAllowlist *)
Record MountAllowlist := mkAllowlist {
  al_allowedRoots : list json;
  al_blockedPatterns : list json }.
(** The cached list, and whether loading one failed for good. *)
(*@ src/src/modules/mount-security/index.ts 33-33 cachedAllowlist *)
Record MountCache := mkMountCache { mc_allowlist : option MountAllowlist; mc_failed : bool }.

(*@ src/src/modules/mount-security/index.ts 39-57 DEFAULT_BLOCKED_PATTERNS *)
Definition DEFAULT_BLOCKED_PATTERNS : list string :=
  [".ssh"; ".gnupg"; ".gpg"; ".aws"; ".azure"; ".gcloud"; ".kube"; ".docker"; "credentials"; ".env";
   ".netrc"; ".npmrc"; ".pypirc"; "id_rsa"; "id_ed25519"; "private_key"; ".secret"].

(** A value as a text, [String(v)]. *)
Definition to_text (v : json) : string := match v with JNull => "null" | v => element_text v end.
(** [new Set] of values: a text that is there is not added again. *)
Definition add_pattern (l : list json) (v : json) : list json :=
  match v with
  | JStr s => if existsb (λ w, bool_decide (jstring (Some w) = Some s)) l then l else l ++ [v]
  | _ => l ++ [v]
  end.

(** The text of an absolute path. *)
Definition path_text (p : list string) : string := "/" +:+ String.concat "/" p.

Section mounts.
Context (MOUNT_ALLOWLIST_PATH home cwd : list string) (fs : gmap (list string) node).

(*@ src/src/modules/mount-security/index.ts 85-99 loadMountAllowlist *)
Definition parse_allowlist (content : string) : option MountAllowlist :=
  match JSON_parse content with
  | Some (JObj l) =>
      match obj_get "allowedRoots" l, obj_get "blockedPatterns" l with
      | Some (JArr roots), Some (JArr patterns) =>
          Some (mkAllowlist roots (fold_left add_pattern patterns (map JStr DEFAULT_BLOCKED_PATTERNS)))
      | _, _ => None
      end
  | _ => None
  end.
(** A list that is missing is looked for again; one that is wrong is not. *)
(*@ src/src/modules/mount-security/index.ts 64-117 loadMountAllowlist *)
Definition loadMountAllowlist (cache : MountCache) : option MountAllowlist * MountCache :=
  match mc_allowlist cache with
  | Some l => (Some l, cache)
  | None =>
      if mc_failed cache then (None, cache)
      else if negb (existsSync fs MOUNT_ALLOWLIST_PATH) then (None, cache)
      else match readFile fs MOUNT_ALLOWLIST_PATH ≫= parse_allowlist with
           | Some l => (Some l, mkMountCache (Some l) false)
           | None => (None, mkMountCache None true)
           end
  end.

(** Paths are made absolute; a value that is no text throws. *)
(*@ src/src/modules/mount-security/index.ts 122-131 expandPath *)
Definition expandPath (p : option json) : outcome exn (list string) :=
  match p with
  | Some (JStr p) =>
      let segments :=
        if startsWith p "~/" then home ++ split_on "/" (drop_string 2 p)
        else if bool_decide (p = "~") then home
        else if startsWith p "/" then split_on "/" p else cwd ++ split_on "/" p in
      Ok (rev (resolve_segments true segments []))
  | _ => Throw (Err "TypeError")
  end.

(** The first pattern the path contains, in one component or as a whole; [null]
    reads as none. *)
(*@ src/src/modules/mount-security/index.ts 148-166 matchesBlockedPattern *)
Definition matchesBlockedPattern (realPath : list string) (blockedPatterns : list json) : option json :=
  match List.find (λ v, existsb (λ part, includes part (to_text v)) ("" :: realPath) ||
                        includes (path_text realPath) (to_text v)) blockedPatterns with
  | Some JNull => None
  | v => v
  end.

(*@ src/src/modules/mount-security/index.ts 171-189 findAllowedRoot *)
Fixpoint findAllowedRoot (realPath : list string) (allowedRoots : list json) : outcome exn (option json) :=
  match allowedRoots with
  | [] => Ok None
  | root :: rest =>
      match jget "path" root with
      | AThrow => Throw (Err "TypeError")
      | AValue p =>
          let! expandedRoot := expandPath p in
          match realpath fs expandedRoot with
          | Some realRoot => if isPathInside realRoot realPath then Ok (Some root) else findAllowedRoot realPath rest
          | None => findAllowedRoot realPath rest
          end
      end
  end.

(*@ src/src/modules/mount-security/index.ts 194-216 isValidContainerPath *)
Definition isValidContainerPath (containerPath : string) : bool :=
  if includes containerPath ".." then false
  else if startsWith containerPath "/" then false
  else if bool_decide (containerPath = "") || bool_decide (trim containerPath = "") then false
  else negb (includes containerPath ":").

(** [path.basename(p)] *)
Definition basename_of (p : string) : string :=
  List.last (filter (λ s, s ≠ "") (split_on "/" p)) "".

(** What a mount becomes: the real directory, the path below /workspace/extra
    and whether it is read only. *)
Record ExtraMount := mkExtraMount { em_host : list string; em_path : string; em_readonly : bool }.

(** [mount.containerPath || path.basename(mount.hostPath)] *)
Definition container_path_of (containerPath hostPath : option json) : outcome exn string :=
  if jtruthy containerPath then
    match containerPath with
    | Some (JStr s) => Ok s
    | Some (JArr l) => if existsb (λ v, bool_decide (jstring (Some v) = Some "..")) l then Ok ".." else Throw (Err "TypeError")
    | _ => Throw (Err "TypeError")
    end
  else match hostPath with Some (JStr s) => Ok (basename_of s) | _ => Throw (Err "TypeError") end.

(** [None]: not allowed. *)
(*@ src/src/modules/mount-security/index.ts 230-307 validateMount *)
Definition validateMount (allowlist : option MountAllowlist) (hostPath containerPath readonly : option json)
    : outcome exn (option ExtraMount) :=
  match allowlist with
  | None => Ok None
  | Some allowlist =>
      let! containerPath := container_path_of containerPath hostPath in
      if negb (isValidContainerPath containerPath) then Ok None
      else
        let! expandedPath := expandPath hostPath in
        match realpath fs expandedPath with
        | None => Ok None
        | Some realPath =>
            match matchesBlockedPattern realPath (al_blockedPatterns allowlist) with
            | Some _ => Ok None
            | None =>
                let! allowedRoot := findAllowedRoot realPath (al_allowedRoots allowlist) in
                match allowedRoot with
                | None => Ok None
                | Some root =>
                    let requestedReadWrite := match readonly with Some (JBool false) => true | _ => false end in
                    let allowReadWrite := match jget "allowReadWrite" root with AValue v => jtruthy v | AThrow => false end in
                    Ok (Some (mkExtraMount realPath containerPath (negb (requestedReadWrite && allowReadWrite))))
                end
            end
        end
  end.

(*@ src/src/modules/mount-security/index.ts 314-356 validateAdditionalMounts *)
Fixpoint validateAdditionalMounts (mounts : list json) (cache : MountCache)
    : outcome exn (list ExtraMount) * MountCache :=
  match mounts with
  | [] => (Ok [], cache)
  | mount :: rest =>
      let '(allowlist, cache) := loadMountAllowlist cache in
      match jget "hostPath" mount, jget "containerPath" mount, jget "readonly" mount with
      | AValue hostPath, AValue containerPath, AValue readonly =>
          match validateMount allowlist hostPath containerPath readonly with
          | Throw e => (Throw e, cache)
          | Ok result =>
              let '(more, cache) := validateAdditionalMounts rest cache in
              (match more, result with
               | Ok l, Some m => Ok (m :: l)
               | _, _ => more
               end, cache)
          end
      | _, _, _ => (Throw (Err "TypeError"), cache)
      end
  end.
End mounts.

(** ** What is mounted *)

Section allowed.
Context (home cwd : list string) (fs : gmap (list string) node).

(** Below the real directory of a root of the list, which allows writing if the
    mount is not read only. *)
Definition under_root (allowlist : MountAllowlist) (m : ExtraMount) : Prop :=
  ∃ root p q, root ∈ al_allowedRoots allowlist ∧ jget "path" root = AValue p ∧
    ∃ expanded, expandPath home cwd p = Ok expanded ∧ realpath fs expanded = Some q ∧ q `prefix_of` em_host m ∧
    (em_readonly m = false → ∃ v, jget "allowReadWrite" root = AValue v ∧ jtruthy v = true).

Lemma findAllowedRoot_spec realPath roots root :
  findAllowedRoot home cwd fs realPath roots = Ok (Some root) →
  root ∈ roots ∧ ∃ p q expanded, jget "path" root = AValue p ∧ expandPath home cwd p = Ok expanded ∧
    realpath fs expanded = Some q ∧ q `prefix_of` realPath.
Proof.
  induction roots as [|r roots IH]; cbn [findAllowedRoot]; [done|].
  destruct (jget "path" r) as [|p] eqn:Ep; [done|]. destruct (expandPath home cwd p) as [e|] eqn:Ee; [|done]. cbn [obind].
  destruct (realpath fs e) as [q|] eqn:Eq.
  - destruct (isPathInside q realPath) eqn:Ei.
    + intros [= ->]. split; [left|]. exists p, q, e. by split_and!; [..|apply isPathInside_prefix].
    + intros [? ?]%IH. split; [by right|done].
  - intros [? ?]%IH. split; [by right|done].
Qed.

(** The checks of a mount that is let through. *)
Definition mount_allowed (allowlist : MountAllowlist) (m : ExtraMount) : Prop :=
  under_root allowlist m ∧
  matchesBlockedPattern (em_host m) (al_blockedPatterns allowlist) = None ∧
  includes (em_path m) ".." = false ∧ includes (em_path m) ":" = false ∧ startsWith (em_path m) "/" = false.

Lemma validateMount_allowed allowlist hostPath containerPath readonly m :
  validateMount home cwd fs allowlist hostPath containerPath readonly = Ok (Some m) →
  ∃ l, allowlist = Some l ∧ mount_allowed l m ∧ (em_readonly m = false → readonly = Some (JBool false)).
Proof.
  unfold validateMount. destruct allowlist as [l|]; [|done]. intros H. exists l. split; [done|].
  destruct (container_path_of containerPath hostPath) as [cp|]; [|done]. cbn [obind] in H.
  destruct (isValidContainerPath cp) eqn:Ev; [|done]. cbn [negb] in H.
  destruct (expandPath home cwd hostPath) as [e|]; [|done]. cbn [obind] in H.
  destruct (realpath fs e) as [q|]; [|done]. destruct (matchesBlockedPattern q _) eqn:Eb; [done|].
  destruct (findAllowedRoot home cwd fs q _) as [[root|]|] eqn:Er; [|done..]. cbn [obind] in H.
  apply findAllowedRoot_spec in Er as (Hin & p & q' & e' & H1 & H2 & H3 & H4). injection H as <-.
  cbn [em_host em_path em_readonly]. unfold isValidContainerPath in Ev.
  destruct (includes cp "..") eqn:E1; [done|]. destruct (startsWith cp "/") eqn:E2; [done|].
  destruct (_ || _); [done|]. destruct (includes cp ":") eqn:E3; [done|].
  assert (∀ b c : bool, negb (b && c) = false → b = true ∧ c = true) as Hneg by (by intros [] []).
  split; [split_and!; try done|].
  - exists root, p, q'. split_and!; [done..|]. exists e'. split_and!; [done..|].
    intros [_ Hw]%Hneg. destruct (jget "allowReadWrite" root) as [|v]; [done|]. by exists v.
  - intros [Hr _]%Hneg. by destruct readonly as [[|[]| | | | |]|].
Qed.
End allowed.
