(* ===== verification/ContainerSpawn.v ===== *)
(** * Starting a container (src/container-runner.ts, src/container-runtime.ts,
    src/providers/)

    What a container is given: the directories that are mounted into it, its
    environment, and the command line of [docker run].  The bookkeeping of the
    containers that run is in [ContainerSlots]. *)
From Stdlib Require Import Ascii QArith.
From stdpp Require Import pretty.
From S2P Require Import Prelude JsString Json Types JsonProofs SafeText JsonIndent Central Permissions SessionDb Sessions Destinations Fs ContainerConfig SessionManager Host Roster Sha ContainerImage ProxyTokens SigningProxy ScopeRetention GroupInit MountSecurity.

Local Open Scope string_scope.
Local Open Scope list_scope.

(** ** The .env file (src/env.ts) *)

(** A value in single or double quotes, without them. *)
Definition in_quotes (quote : ascii) (value : string) : bool :=
  match String.list_ascii_of_string value with
  | c :: l => bool_decide (c = quote) && bool_decide (l ≠ []) && bool_decide (List.last l quote = quote)
  | [] => false
  end.
Definition unquoted (value : string) : string :=
  if in_quotes (ascii_of_nat 34) value || in_quotes (ascii_of_nat 39) value
  then String.substring 1 (String.length value - 2) value else value.

(** The key and the value of a line. *)
(*@ src/src/env.ts 24-38 readEnvFile *)
Definition env_line (line : string) : option (string * string) :=
  let trimmed := trim line in
  if bool_decide (trimmed = "") || startsWith trimmed "#" then None
  else match index_of "="%char trimmed with
       | None => None
       | Some eqIdx => Some (trim (take_string eqIdx trimmed), unquoted (trim (drop_string (S eqIdx) trimmed)))
       end.
(** The value of a key that is asked for: the last line that has one. *)
(*@ src/src/env.ts 11-42 readEnvFile *)
Definition readEnvFile (content : option string) (key : string) : option string :=
  match content with
  | None => None
  | Some content =>
      fold_left (λ found line,
        match env_line line with
        | Some (k, v) => if bool_decide (k = key) && negb (bool_decide (v = "")) then Some v else found
        | None => found
        end) (split_on (ascii_of_nat 10) content) None
  end.

Definition two_lines : string := "A = 'x y'" +:+ String (ascii_of_nat 10) "#A=2".
Example env_ex :
  readEnvFile (Some two_lines) "A" = Some "x y" ∧ readEnvFile (Some "B=") "B" = None ∧ readEnvFile None "A" = None.
Proof. vm_compute. done. Qed.

(** ** The command line and the mounts *)

Local Open Scope Z_scope.
Local Open Scope prog_scope.

(*@ src/src/providers/provider-container-registry.ts 19-23 VolumeMount *)
Record VolumeMount := mkMount { vm_host : list string; vm_container : string; vm_readonly : bool }.
#[export] Instance VolumeMount_eq : EqDecision VolumeMount.
Proof. solve_decision. Defined.

(*@ src/src/providers/provider-container-registry.ts 34-39 ProviderContainerContribution *)
Record ProviderContainerContribution := mkContribution {
  co_mounts : option (list VolumeMount);
  co_env : option (list (string * string)) }.

(*@ src/src/container-runner.ts 936-941 SpawnSigningProxy *)
Record SpawnSigningProxy := mkSpawnProxy {
  sp_token : string;
  sp_url : string;
  sp_noProxyHost : string;
  sp_redactedConfigPath : list string }.

(** [-e KEY=VALUE] *)
Definition env_arg (kv : string * string) : list string := ["-e"; kv.1 +:+ "=" +:+ kv.2].
Definition env_args (l : list (string * string)) : list string := concat (map env_arg l).

(** ** Providers *)

Section providers.
(** [process.env], and the content of the .env file. *)
Context (process_env : string → option string) (dotenv : option string).

(*@ src/src/providers/openai.ts 15-29 OPENAI_ENV_KEYS *)
Definition OPENAI_ENV_KEYS : list string :=
  ["OPENAI_BASE_URL"; "OPENAI_API_KEY"; "OPENAI_MODEL"; "OPENAI_REASONING_EFFORT"; "OPENAI_TIMEOUT_MS";
   "OPENAI_MAX_REQUEST_ATTEMPTS"; "OPENAI_FORCE_TRANSPORT"; "OPENAI_COMPACT_MODEL"; "OPENAI_COMPACT_ARCHIVE"].

(*@ src/src/providers/openai.ts 36-41 openaiViaOneCliEnabled *)
Definition openaiViaOneCliEnabled : bool :=
  let key := "AGENTDESK_OPENAI_VIA_ONECLI" in
  let value := match process_env key with Some v => v | None => default "" (readEnvFile dotenv key) end in
  bool_decide (toLowerCase (trim value) = "true").

(** [process.env[key] || dotenv[key]], when there is one. *)
Definition forwarded (key : string) : option string :=
  let v := js_or (process_env key) (readEnvFile dotenv key) in
  if truthy v then v else None.
(*@ src/src/providers/openai.ts 43-59 buildOpenAIContribution *)
Definition buildOpenAIContribution : ProviderContainerContribution :=
  let viaVault := openaiViaOneCliEnabled in
  let keys := if viaVault then List.filter (λ k, negb (bool_decide (k = "OPENAI_API_KEY"))) OPENAI_ENV_KEYS
              else OPENAI_ENV_KEYS in
  mkContribution None (Some (omap (λ k, option_map (pair k) (forwarded k)) keys ++
                             (if viaVault then [("OPENAI_CREDENTIAL_VIA_PROXY", "true")] else []))).
(** The providers that the barrel registers. *)
(*@ src/src/providers/openai.ts 61-63 registerProviderContainerConfig *)
Definition getProviderContainerConfig (name : string) : option ProviderContainerContribution :=
  if bool_decide (name ∈ ["openai"; "codex"; "opencode-go"]) then Some buildOpenAIContribution else None.

(*@ src/src/container-runner.ts 598-611 resolveProviderName *)
Definition resolveProviderName (sessionProvider agentGroupProvider containerConfigProvider executionProvider : option string)
    : string :=
  toLowerCase (default "claude"
    (List.find (λ s, negb (bool_decide (s = "")))
       (omap id [sessionProvider; agentGroupProvider; executionProvider; containerConfigProvider]))).

Definition no_contribution : ProviderContainerContribution := mkContribution None None.

(** One variable or one mount more; two that differ throw. *)
Definition merge_env (env : list (string * string)) (kv : string * string) : outcome exn (list (string * string)) :=
  match List.find (λ e, bool_decide (e.1 = kv.1)) env with
  | Some e => if bool_decide (e.2 = kv.2) then Ok env else Throw (Err ("Conflicting provider env for " +:+ kv.1))
  | None => Ok (env ++ [kv])
  end.
Definition merge_mount (mounts : list VolumeMount) (m : VolumeMount) : outcome exn (list VolumeMount) :=
  match List.find (λ e, bool_decide (vm_container e = vm_container m)) mounts with
  | Some e => if bool_decide (vm_host e = vm_host m) && bool_decide (vm_readonly e = vm_readonly m) then Ok mounts
              else Throw (Err ("Conflicting provider mount for " +:+ vm_container m))
  | None => Ok (mounts ++ [m])
  end.
Fixpoint fold_ok {A B} (f : B → A → outcome exn B) (l : list A) (b : B) : outcome exn B :=
  match l with
  | [] => Ok b
  | x :: l' => let! b := f b x in fold_ok f l' b
  end.
(** [l.length > 0 ? l : undefined] *)
Definition some_list {A} (l : list A) : option (list A) := match l with [] => None | _ => Some l end.
(*@ src/src/container-runner.ts 613-637 mergeProviderContributions *)
Definition mergeProviderContributions (contributions : list ProviderContainerContribution)
    : outcome exn ProviderContainerContribution :=
  let! merged := fold_ok (λ (acc : list (string * string) * list VolumeMount) c,
      let! env := fold_ok merge_env (default [] (co_env c)) acc.1 in
      let! mounts := fold_ok merge_mount (default [] (co_mounts c)) acc.2 in
      Ok (env, mounts)) contributions ([], []) in
  Ok (mkContribution (some_list merged.2) (some_list merged.1)).

(** [config.llm?.routing], and [config.llm?.execution]. *)
Definition llm_part (k : string) (config : ContainerConfig) : option json := opt_get k (cfg_get "llm" config).
Definition routing_enabled (config : ContainerConfig) : bool := jtruthy (opt_get "enabled" (llm_part "routing" config)).

(** The providers of both roles, each once. *)
(*@ src/src/container-runner.ts 639-663 resolveProviderContribution *)
Definition resolveProviderContribution (session : Session) (agentGroup : AgentGroup) (config : ContainerConfig)
    : outcome exn (string * ProviderContainerContribution) :=
  let provider := resolveProviderName (s_agent_provider session) (ag_agent_provider agentGroup)
                    (jstring (cfg_get "provider" config)) (jstring (opt_get "provider" (llm_part "execution" config))) in
  let routing := if routing_enabled config then
                   match jstring (opt_get "provider" (llm_part "routing" config)) with
                   | Some p => if bool_decide (p = "") then [] else [toLowerCase p]
                   | None => []
                   end
                 else [] in
  let! contribution := mergeProviderContributions
      (map (λ name, default no_contribution (getProviderContainerConfig name)) (set_of (provider :: routing))) in
  Ok (provider, contribution).

(*@ src/src/container-runner.ts 1418-1421 isOpenAiCompatibleProvider *)
Definition isOpenAiCompatibleProvider (provider : string) : bool :=
  bool_decide (toLowerCase provider ∈ ["openai"; "codex"; "opencode-go"]).
(*@ src/src/container-runner.ts 1414-1416 routeOpenAiThroughVault *)
Definition routeOpenAiThroughVault (provider : string) (enabled : bool) : bool :=
  enabled && isOpenAiCompatibleProvider provider.
(** [providers.some(f)]: [f] throws on what is no text. *)
Fixpoint some_provider (f : string → bool) (l : list (option string)) : outcome exn bool :=
  match l with
  | [] => Ok false
  | Some p :: l' => if f p then Ok true else some_provider f l'
  | None :: _ => Throw (Err "TypeError")
  end.
Definition needs_gateway (openaiViaVault : bool) (provider : string) : bool :=
  let normalized := toLowerCase provider in
  if bool_decide (normalized = "mock") then false
  else if isOpenAiCompatibleProvider normalized then openaiViaVault else true.
(*@ src/src/container-runner.ts 1427-1434 shouldApplyOneCliGateway *)
Definition shouldApplyOneCliGateway (providers : list (option string)) (openaiViaVault : bool) : outcome exn bool :=
  some_provider (needs_gateway openaiViaVault) providers.
End providers.

(** ** Pieces of the command line *)

(*@ src/src/container-runtime.ts 38-46 ociRuntimeArgs *)
Definition ociRuntimeArgs (process_env : string → option string) (groupOverride : option string) : list string :=
  let configured := default "" (js_or (option_map trim groupOverride)
                                 (js_or (option_map trim (process_env "CONTAINER_OCI_RUNTIME")) (Some ""))) in
  if bool_decide (configured = "") then [] else if word configured then ["--runtime=" +:+ configured] else [].
(*@ src/src/container-runtime.ts 49-55 hostGatewayArgs *)
Definition hostGatewayArgs (linux : bool) : list string :=
  if linux then ["--add-host=host.docker.internal:host-gateway"] else [].
(*@ src/src/container-runtime.ts 58-60 readonlyMountArgs *)
Definition readonlyMountArgs (hostPath containerPath : string) : list string :=
  ["-v"; hostPath +:+ ":" +:+ containerPath +:+ ":ro"].

(** [/^[a-zA-Z0-9][a-zA-Z0-9_.-]*$/] *)
(*@ src/src/container-runner.ts 1321-1323 isValidContainerNetwork *)
Definition isValidContainerNetwork (value : string) : bool :=
  name_like (λ n, upper n || lower n || num n) (λ n, upper n || lower n || num n || one_of "_.-" n) None (bytes value).
(*@ src/src/container-runner.ts 1343-1354 resolveContainerNetwork *)
Definition resolveContainerNetwork (process_env : string → option string) (network : option string) : option string :=
  let raw := trim (default "" (match network with Some n => Some n | None => process_env "AGENT_CONTAINER_NETWORK" end)) in
  if bool_decide (raw = "") then None else if isValidContainerNetwork raw then Some raw else None.
(*@ src/src/container-runner.ts 1362-1365 buildNetworkArgs *)
Definition buildNetworkArgs (process_env : string → option string) (network : option string) : list string :=
  match resolveContainerNetwork process_env network with Some n => ["--network"; n] | None => [] end.

(** [s.split(/[,\s]+/)], without the empty pieces. *)
Fixpoint pieces (n : nat) (cur l : list ascii) : list string :=
  let piece := match cur with [] => [] | _ => [String.string_of_list_ascii (rev cur)] end in
  match n with
  | O => piece
  | S n' =>
      match l with
      | [] => piece
      | c :: l' =>
          if bool_decide (c = ","%char) then piece ++ pieces n' [] l'
          else match strip_any ws_chars l with
               | Some r => piece ++ pieces n' [] r
               | None => pieces n' (c :: cur) l'
               end
      end
  end.
Definition cap_list (s : string) : list string :=
  let l := String.list_ascii_of_string s in pieces (S (length l)) [] l.
(*@ src/src/container-runner.ts 1436-1448 buildSecurityArgs *)
Definition buildSecurityArgs (process_env : string → option string) : list string :=
  "--security-opt=no-new-privileges:true" ::
  map (λ cap, "--cap-drop=" +:+ cap) (cap_list (default "" (process_env "AGENT_DROP_CAPS"))).
Example security_ex :
  buildSecurityArgs (λ _, Some "NET_RAW, NET_ADMIN") =
  ["--security-opt=no-new-privileges:true"; "--cap-drop=NET_RAW"; "--cap-drop=NET_ADMIN"].
Proof. vm_compute. done. Qed.

(** The value of the last [-e KEY=...]. *)
(*@ src/src/container-runner.ts 1400-1406 findInjectedEnvValue *)
Fixpoint findInjectedEnvValue (args : list string) (key : string) : option string :=
  match args with
  | a :: ((b :: _) as rest) =>
      match findInjectedEnvValue rest key with
      | Some v => Some v
      | None => if bool_decide (a = "-e") && startsWith b (key +:+ "=")
                then Some (drop_string (String.length key + 1) b) else None
      end
  | _ => None
  end.

(** The values of a NO_PROXY entry. *)
Definition no_proxy_of (arg : string) : option string :=
  let value p := if startsWith arg p then
                   let v := drop_string (String.length p) arg in
                   if has_line_end (String.list_ascii_of_string v) || includes v (String (ascii_of_nat 10) EmptyString) then None else Some v
                 else None in
  match value "NO_PROXY=" with Some v => Some v | None => value "no_proxy=" end.
Fixpoint no_proxy_values (args : list string) : list string :=
  match args with
  | a :: ((b :: _) as rest) =>
      (if bool_decide (a = "-e") then match no_proxy_of b with Some v => split_on "," v | None => [] end else []) ++
      no_proxy_values rest
  | _ => []
  end.
(*@ src/src/container-runner.ts 1073-1091 mergeNoProxyArgs *)
Definition mergeNoProxyArgs (args additions : list string) : list string :=
  let values := set_of (List.filter (λ v, negb (bool_decide (v = ""))) (map trim (no_proxy_values args ++ additions))) in
  let merged := String.concat "," values in
  args ++ ["-e"; "NO_PROXY=" +:+ merged; "-e"; "no_proxy=" +:+ merged].

(*@ src/src/container-runner.ts 1460-1466 appendImageAndCommand *)
Definition appendImageAndCommand (flagArgs : list string) (imageTag : string) : list string :=
  flagArgs ++ ["--entrypoint"; "bash"; imageTag; "-c"; "exec bun run /app/src/index.ts"].

(** [//localhost] or [//127.0.0.1] before a colon, a slash or the end, the first
    of them. *)
Fixpoint container_endpoint (s : string) : string :=
  let after p := if startsWith s p then
                   let rest := drop_string (String.length p) s in
                   if bool_decide (rest = "") || startsWith rest ":" || startsWith rest "/" then Some rest else None
                 else None in
  match after "//localhost", after "//127.0.0.1" with
  | Some rest, _ | None, Some rest => "//host.docker.internal" +:+ rest
  | None, None => match s with String c s' => String c (container_endpoint s') | EmptyString => EmptyString end
  end.
(*@ src/src/container-runner.ts 183-201 buildRunnerTracingEnvArgs *)
Definition buildRunnerTracingEnvArgs (traceparent tracestate : option string) (process_env : string → option string)
    : list string :=
  (if truthy traceparent then
     env_arg ("OTEL_TRACEPARENT", default "" traceparent) ++
     (if truthy tracestate then env_arg ("OTEL_TRACESTATE", default "" tracestate) else []) ++
     env_arg ("OTEL_EXPORTER_OTLP_TRACES_ENDPOINT",
       container_endpoint (default "" (js_or (process_env "OTEL_EXPORTER_OTLP_TRACES_ENDPOINT")
                                         (Some "http://localhost:6006/v1/traces"))))
   else []) ++
  (if truthy (process_env "OTEL_SDK_DISABLED")
   then env_arg ("OTEL_SDK_DISABLED", default "" (process_env "OTEL_SDK_DISABLED")) else []) ++
  (if truthy (process_env "OTEL_CAPTURE_CONTENT")
   then env_arg ("OTEL_CAPTURE_CONTENT", default "" (process_env "OTEL_CAPTURE_CONTENT")) else []).

(** The variables of the group's configuration whose name is one. *)
Definition env_name (s : string) : bool :=
  name_like (λ n, upper n || lower n || (n =? 95)) (λ n, upper n || lower n || num n || (n =? 95)) None (bytes s).
(*@ src/src/container-runner.ts 1155-1163 env *)
Definition operator_env (config : ContainerConfig) : list (string * string) :=
  match cfg_get "env" config with
  | Some (JObj l) => omap (λ kv, if env_name kv.1 then Some (kv.1, to_text kv.2) else None) l
  | _ => []
  end.

(** [resources?.k != null] *)
Definition limit (k : string) (config : ContainerConfig) : option json :=
  match opt_get k (cfg_get "resources" config) with
  | None | Some JNull => None
  | Some v => Some v
  end.
(*@ src/src/container-runner.ts 1118-1132 resources *)
Definition resource_args (config : ContainerConfig) : list string :=
  match limit "memoryMb" config with
  | Some v => ["--memory=" +:+ to_text v +:+ "m"; "--memory-swap=" +:+ to_text v +:+ "m"]
  | None => []
  end ++
  match limit "cpus" config with Some v => ["--cpus=" +:+ to_text v] | None => [] end ++
  match limit "pidsLimit" config with Some v => ["--pids-limit=" +:+ to_text v] | None => [] end.

(*@ src/src/container-runner.ts 1283-1289 mounts *)
Definition mount_args (m : VolumeMount) : list string :=
  if vm_readonly m then readonlyMountArgs (path_text (vm_host m)) (vm_container m)
  else ["-v"; path_text (vm_host m) +:+ ":" +:+ vm_container m].

(** ** The configuration a container sees *)

(** A gateway that is no object has no key. *)
(*@ src/src/container-runner.ts 1010-1019 redactContainerConfigForContainer *)
Definition redactContainerConfigForContainer (config : ContainerConfig) : list (string * json) :=
  let clone := written config in
  match obj_get "backendGateway" clone with
  | Some (JObj gateway) =>
      obj_set "backendGateway"
        (JObj (obj_set "baseUrl" (JStr "") (List.filter (λ kv, negb (bool_decide (kv.1 = "signingKey"))) gateway))) clone
  | _ => clone
  end.

Section spawn.
Context (frac_value : string → Q) (GROUPS_DIR DATA_DIR PROJECT_ROOT : list string) (pid : string).

(*@ src/src/container-runner.ts 965-973 redactedConfigPathFor *)
Definition redactedConfigPathFor (sessionId : string) : list string :=
  DATA_DIR ++ ["v2-proxy-runtime"; sha1_hex sessionId +:+ ".container.json"].
(*@ src/src/container-runner.ts 1027-1035 writeRedactedContainerConfig *)
Definition writeRedactedContainerConfig (sessionId : string) (config : ContainerConfig) : fsM (list string) :=
  let out := redactedConfigPathFor sessionId in
  mkdirp (parent out) ;;
  write_file out (JSON_stringify_indent (JObj (redactContainerConfigForContainer config)) +:+ lf) ;;
  ret out.

(** Whether the group has a key to protect; a key that is no text throws. *)
(*@ src/src/container-runner.ts 1048-1048 signingKey *)
Definition has_signing_key (config : ContainerConfig) : outcome exn bool :=
  match opt_get "signingKey" (cfg_get "backendGateway" config) with
  | None | Some JNull => Ok false
  | Some (JStr key) => Ok (negb (bool_decide (trim key = "")))
  | Some _ => Throw (Err "TypeError")
  end.
(** [enabled], [port] and [ttlMs] are those of the proxy's configuration. *)
(*@ src/src/container-runner.ts 1043-1058 resolveSpawnSigningProxy *)
Definition resolveSpawnSigningProxy (now : time) (enabled : bool) (port ttlMs : Z) (jti secret : string)
    (session : Session) (agentGroup : AgentGroup) (config : ContainerConfig) : wM (option SpawnSigningProxy) :=
  match has_signing_key config with
  | Throw e => throw e
  | Ok false => ret None
  | Ok true =>
      if negb enabled then ret None
      else
        let* minted := central (mintProxyToken now jti secret (s_id session) (ag_id agentGroup) ALL_GATEWAY_PATHS ttlMs) in
        let* redacted := files (writeRedactedContainerConfig (s_id session) config) in
        ret (Some (mkSpawnProxy (mt_token minted) ("http://host.docker.internal:" +:+ pretty port)
                     "host.docker.internal" redacted))
  end.

(** The identity of the group, written when it is not what the file says. *)
(*@ src/src/container-runner.ts 907-927 ensureRuntimeFields *)
Definition runtime_fields (agentGroup : AgentGroup) (config : ContainerConfig) : ContainerConfig :=
  cfg_set "assistantName" (Some (JStr (ag_name agentGroup)))
    (cfg_set "groupName" (Some (JStr (ag_name agentGroup)))
      (cfg_set "agentGroupId" (Some (JStr (ag_id agentGroup))) config)).
Definition names_group (agentGroup : AgentGroup) (config : ContainerConfig) : bool :=
  bool_decide (jstring (cfg_get "agentGroupId" config) = Some (ag_id agentGroup)) &&
  bool_decide (jstring (cfg_get "groupName" config) = Some (ag_name agentGroup)) &&
  bool_decide (jstring (cfg_get "assistantName" config) = Some (ag_name agentGroup)).
(*@ src/src/container-runner.ts 907-927 ensureRuntimeFields *)
Definition ensureRuntimeFields (config : ContainerConfig) (agentGroup : AgentGroup) : fsM ContainerConfig :=
  if names_group agentGroup config then ret config
  else
    let config := runtime_fields agentGroup config in
    writeContainerConfig GROUPS_DIR (ag_folder agentGroup) config ;;
    ret config.

(** ** Mounts *)

(*@ src/src/container-runner.ts 815-835 resolveRoutingPromptMount *)
Definition resolveRoutingPromptMount (groupDir : list string) (promptFile : option json) : fsM VolumeMount :=
  match promptFile with
  | Some (JStr promptFile) =>
      let normalized := posix_normalize (slashes promptFile) in
      if startsWith promptFile "/" || bool_decide (normalized = "..") || startsWith normalized "../" ||
         negb (startsWith normalized "prompts/")
      then throw (Err "Routing prompt must stay inside prompts/")
      else
        let* promptsRoot := gets (λ fs, realpath fs (groupDir ++ ["prompts"])) in
        let* hostPath := gets (λ fs, realpath fs (join_path groupDir normalized)) in
        match promptsRoot, hostPath with
        | Some promptsRoot, Some hostPath =>
            if bool_decide (promptsRoot `prefix_of` hostPath)
            then ret (mkMount hostPath ("/workspace/agent/" +:+ normalized) true)
            else throw (Err "Routing prompt symlink escape detected")
        | _, _ => throw (Err "ENOENT")
        end
  | _ => throw (Err "TypeError")
  end.

Definition is_directory (p : list string) (fs : gmap (list string) node) : bool :=
  match realpath fs p with Some q => is_dir (at_real fs q) | None => false end.
(** The skills that are selected. *)
(*@ src/src/container-runner.ts 849-867 desired *)
Definition desired_skills (config : ContainerConfig) : fsM (list string) :=
  match cfg_get "skills" config with
  | Some (JStr _) =>
      let* there := gets (λ fs, existsSync fs (skills_dir PROJECT_ROOT)) in
      if negb there then ret []
      else
        let* names := names_of (skills_dir PROJECT_ROOT) in
        filter_fs (λ e, gets (is_directory (join_path (skills_dir PROJECT_ROOT) e))) names
  | v => ret (texts_of (default JNull v))
  end.
(*@ src/src/container-runner.ts 842-899 syncSkillSymlinks *)
Definition syncSkillSymlinks (claudeDir : list string) (config : ContainerConfig) : fsM unit :=
  let skillsDir := claudeDir ++ ["skills"] in
  ensure_dir skillsDir ;;
  let* desired := desired_skills config in
  let* entries := names_of skillsDir in
  for_each entries (λ entry,
    let* link := gets (λ fs, readlink fs (join_path skillsDir entry)) in
    match link with
    | Some _ => if bool_decide (entry ∈ desired) then ret tt else unlink (join_path skillsDir entry)
    | None => ret tt
    end) ;;
  for_each desired (λ skill,
    let* exists_ := gets (λ fs, lexists fs (join_path skillsDir skill)) in
    if exists_ : bool then ret tt else symlink ["app"; "skills"; skill] (join_path skillsDir skill)).

(** A mount of what is there, read only. *)
Definition mount_there (hostPath : list string) (containerPath : string) : fsM (list VolumeMount) :=
  let* there := gets (λ fs, existsSync fs hostPath) in
  ret (if there : bool then [mkMount hostPath containerPath true] else []).

(** [config.additionalMounts && config.additionalMounts.length > 0], of a list. *)
Definition additional_mounts (config : ContainerConfig) : outcome exn (list json) :=
  match cfg_get "additionalMounts" config with
  | Some (JArr l) => Ok l
  | Some (JStr s) => if bool_decide (s = "") then Ok [] else Throw (Err "TypeError")
  | Some (JObj l) => if jtruthy (obj_get "length" l) then Throw (Err "TypeError") else Ok []
  | _ => Ok []
  end.
Definition extra_mount (m : ExtraMount) : VolumeMount :=
  mkMount (em_host m) ("/workspace/extra/" +:+ em_path m) (em_readonly m).

Context (MOUNT_ALLOWLIST_PATH home : list string).

(** What is set up on disk before anything is mounted. *)
(*@ src/src/container-runner.ts 693-710 buildMounts *)
Definition prepare_mounts (agentGroup : AgentGroup) (scope : StateScope) (config : ContainerConfig) : fsM unit :=
  initGroupFilesystem frac_value GROUPS_DIR DATA_DIR agentGroup None ;;
  ensureStateScope scope (gateway_memory config) ;;
  syncSkillSymlinks (sc_claudeDir scope) config ;;
  composeGroupClaudeMd frac_value GROUPS_DIR PROJECT_ROOT pid agentGroup.

(** The mounts at their places below /workspace/agent. *)
(*@ src/src/container-runner.ts 719-773 buildMounts *)
Definition agent_mounts (groupDir : list string) (scope : StateScope) (config : ContainerConfig)
    (redacted : option (list string)) : fsM (list VolumeMount) :=
  let* m1 := mount_there (default (groupDir ++ ["container.json"]) redacted) "/workspace/agent/container.json" in
  let* m2 := mount_there (groupDir ++ ["prompts"]) "/workspace/agent/prompts" in
  let* m3 := if routing_enabled config then
               let* m := resolveRoutingPromptMount groupDir (opt_get "promptFile" (llm_part "routing" config)) in ret [m]
             else ret [] in
  let* m4 := mount_there (groupDir ++ ["CLAUDE.md"]) "/workspace/agent/CLAUDE.md" in
  let* m5 := mount_there (groupDir ++ ["instructions.md"]) "/workspace/agent/instructions.md" in
  let* m6 := mount_there (groupDir ++ [".claude-fragments"]) "/workspace/agent/.claude-fragments" in
  ret (mkMount (sc_workspaceDir scope) "/workspace/agent" false :: m1 ++ m2 ++ m3 ++ m4 ++ m5 ++ m6).
(*@ src/src/container-runner.ts 774-799 buildMounts *)
Definition shared_mounts (scope : StateScope) : fsM (list VolumeMount) :=
  let* m1 := mount_there (GROUPS_DIR ++ ["global"]) "/workspace/global" in
  let* m2 := mount_there (PROJECT_ROOT ++ ["container"; "CLAUDE.md"]) "/app/CLAUDE.md" in
  let* m3 := mount_there (skills_dir PROJECT_ROOT) "/app/skills" in
  ret (m1 ++ m2 ++ [mkMount (sc_claudeDir scope) "/home/node/.claude" false;
                    mkMount (PROJECT_ROOT ++ ["container"; "agent-runner"; "src"]) "/app/src" true] ++ m3).
(** The mounts, and the cached allowlist. *)
(*@ src/src/container-runner.ts 665-813 buildMounts *)
Definition buildMounts (agentGroup : AgentGroup) (session : Session) (config : ContainerConfig)
    (contribution : ProviderContainerContribution) (signingProxy : option SpawnSigningProxy) (cache : MountCache)
    : fsM (list VolumeMount * MountCache) :=
  let scope := resolveStateScope DATA_DIR GROUPS_DIR agentGroup session in
  prepare_mounts agentGroup scope config ;;
  let sessDir := Attachments.sessionDir DATA_DIR (ag_id agentGroup) (s_id session) in
  let* agent := agent_mounts (group_dir GROUPS_DIR agentGroup) scope config (option_map sp_redactedConfigPath signingProxy) in
  let* shared := shared_mounts scope in
  match additional_mounts config with
  | Throw e => throw e
  | Ok asked =>
      let* validated := gets (λ fs, match asked with
                                    | [] => (Ok [], cache)
                                    | _ => validateAdditionalMounts MOUNT_ALLOWLIST_PATH home PROJECT_ROOT fs asked cache
                                    end) in
      match validated.1 with
      | Throw e => throw e
      | Ok extra => ret (mkMount sessDir "/workspace" false :: agent ++ shared ++ map extra_mount extra ++
                         default [] (co_mounts contribution), validated.2)
      end
  end.

(** ** The command line *)

Context (process_env : string → option string) (dotenv : option string).
Context (TIMEZONE NAMESPACE CONTAINER_INSTALL_LABEL CONTAINER_IMAGE : string) (linux : bool) (uid gid : option Z).
(** The context of the active trace. *)
Context (traceparent tracestate : option string).
Context (turns : nat → Turn).
(** The OneCLI SDK: whether the agent is known then, and what becomes of the
    arguments, at a turn; it says whether it was applied. *)
Context (ensureAgent : nat → string → option exn).
Context (applyContainerConfig : nat → list string → outcome exn (list string * bool)).

(** [container.imageTag || CONTAINER_IMAGE] *)
Definition image_of (config : ContainerConfig) : string :=
  let tag := cfg_get "imageTag" config in
  if jtruthy tag then to_text (default JNull tag) else CONTAINER_IMAGE.

(** The flags up to the environment of the providers. *)
(*@ src/src/container-runner.ts 1112-1181 buildContainerArgs *)
Definition first_args (containerName : string) (config : ContainerConfig) (provider : string)
    (contribution : ProviderContainerContribution) : list string :=
  ["run"; "--rm"; "--name"; containerName; "--label"; CONTAINER_INSTALL_LABEL] ++
  ociRuntimeArgs process_env (jstring (cfg_get "ociRuntime" config)) ++ resource_args config ++
  env_args [("TZ", TIMEZONE); ("BRAND_NAMESPACE", NAMESPACE); ("AGENTDESK_EXECUTION_PROVIDER", provider)] ++
  env_args (operator_env config) ++ buildRunnerTracingEnvArgs traceparent tracestate process_env ++
  env_args (default [] (co_env contribution)).

(*@ src/src/container-runner.ts 1192-1195 roleProviders *)
Definition role_providers (config : ContainerConfig) (provider : string) : list (option string) :=
  Some provider :: (if routing_enabled config then [jstring (opt_get "provider" (llm_part "routing" config))] else []).
(** The agent is made known, and the arguments are extended. *)
(*@ src/src/container-runner.ts 1207-1217 buildContainerArgs *)
Definition apply_onecli (agentIdentifier : string) (args : list string) : hostM (list string) :=
  (if bool_decide (agentIdentifier = "") then ret tt
   else
     let* refused := gets (λ h, ensureAgent (h_turn h) agentIdentifier) in
     await turns (λ _, tt) ;;
     match refused with Some e => throw (OtherError e) | None => ret tt end) ;;
  let* applied := gets (λ h, applyContainerConfig (h_turn h) args) in
  await turns (λ _, tt) ;;
  match applied with
  | Throw e => throw (OtherError e)
  | Ok (_, false) => throw (OtherError (Err "OneCLI gateway not applied"))
  | Ok (args, true) => ret args
  end.
(** The bundle of the vault is trusted. *)
(*@ src/src/container-runner.ts 1218-1240 buildContainerArgs *)
Definition trust_vault (args : list string) : hostM (list string) :=
  let vaultCaPath := findInjectedEnvValue args "SSL_CERT_FILE" in
  if truthy vaultCaPath then ret (args ++ env_arg ("NODE_EXTRA_CA_CERTS", default "" vaultCaPath))
  else throw (OtherError (Err "OpenAI-via-OneCLI is enabled but the vault mounted no CA bundle")).
(*@ src/src/container-runner.ts 1192-1244 buildContainerArgs *)
Definition apply_vault (config : ContainerConfig) (provider agentIdentifier : string) (args : list string)
    : hostM (list string) :=
  let vaultEnabled := openaiViaOneCliEnabled process_env dotenv in
  let roleProviders := role_providers config provider in
  let* openaiViaVault := of_outcome (if vaultEnabled then some_provider isOpenAiCompatibleProvider roleProviders else Ok false) in
  let* gateway := of_outcome (shouldApplyOneCliGateway roleProviders vaultEnabled) in
  if negb gateway then ret args
  else
    let* args := apply_onecli agentIdentifier args in
    if openaiViaVault : bool then trust_vault args else ret args.

(*@ src/src/container-runner.ts 1248-1253 hostUid *)
Definition user_args : list string :=
  match uid with
  | Some u => if (u =? 0) || (u =? 1000) then []
              else ["--user"; pretty u +:+ ":" +:+ match gid with Some g => pretty g | None => "undefined" end;
                    "-e"; "HOME=/home/node"]
  | None => []
  end.
(*@ src/src/container-runner.ts 1244-1289 buildContainerArgs *)
Definition last_args (config : ContainerConfig) (signingProxy : option SpawnSigningProxy) (mounts : list VolumeMount)
    (args : list string) : list string :=
  let args := args ++ hostGatewayArgs linux ++ user_args ++ buildSecurityArgs process_env ++
              buildNetworkArgs process_env (jstring (cfg_get "network" config)) in
  let args := match signingProxy with
              | Some sp => mergeNoProxyArgs (args ++ env_args [("AGENTDESK_GATEWAY_PROXY_URL", sp_url sp);
                                                              ("AGENTDESK_GATEWAY_PROXY_TOKEN", sp_token sp)])
                             [sp_noProxyHost sp]
              | None => args
              end in
  args ++ concat (map mount_args mounts).
(*@ src/src/container-runner.ts 1102-1300 buildContainerArgs *)
Definition buildContainerArgs (mounts : list VolumeMount) (containerName : string) (config : ContainerConfig)
    (provider : string) (contribution : ProviderContainerContribution) (agentIdentifier : string)
    (signingProxy : option SpawnSigningProxy) : hostM (list string) :=
  let* args := apply_vault config provider agentIdentifier (first_args containerName config provider contribution) in
  ret (appendImageAndCommand (last_args config signingProxy mounts args) (image_of config)).

(** ** Starting one *)

Context (proxy_enabled : bool) (proxy_port proxy_ttlMs : Z).
Context (group_config : string → outcome exn AgentRoute.GroupConfig) (roster_env : DmGrants.RosterEnv).

(** What the host knows before it waits for the vault: the name, the provider,
    what it contributes, the proxy and the mounts. *)
Record SpawnPlan := mkPlan {
  pl_config : ContainerConfig;
  pl_provider : string;
  pl_contribution : ProviderContainerContribution;
  pl_proxy : option SpawnSigningProxy;
  pl_mounts : list VolumeMount;
  pl_cache : MountCache }.
(*@ src/src/container-runner.ts 421-449 spawnContainer *)
Definition plan_spawn (now : time) (jti secret : string) (agentGroup : AgentGroup) (session : Session) (cache : MountCache)
    : wM SpawnPlan :=
  let* config := files (readContainerConfig frac_value GROUPS_DIR (ag_folder agentGroup)) in
  let* config := files (ensureRuntimeFields config agentGroup) in
  match resolveProviderContribution process_env dotenv session agentGroup config with
  | Throw e => throw e
  | Ok (provider, contribution) =>
      let* signingProxy := resolveSpawnSigningProxy now proxy_enabled proxy_port proxy_ttlMs jti secret session agentGroup config in
      let* built := files (buildMounts agentGroup session config contribution signingProxy cache) in
      ret (mkPlan config provider contribution signingProxy built.1 built.2)
  end.

(** What the session is told before it starts. *)
(*@ src/src/container-runner.ts 408-420 spawnContainer *)
Definition refresh_session (session : Session) (agentGroup : AgentGroup) : hostM unit :=
  let* linked := db_read (λ db, hasTable db "agent_destinations") in
  (if linked : bool then
     await turns (λ _, tt) ;;
     run (writeDestinations (ag_id agentGroup) (s_id session))
   else ret tt) ;;
  run (writeSessionRouting (ag_id agentGroup) (s_id session)) ;;
  let* now := clock turns in
  run (writeRosterSlots group_config roster_env now (ag_id agentGroup) (s_id session)).

(** The arguments [docker] is started with, and the cached allowlist; nothing is
    started for a group that is gone.  What follows the start is in
    [ContainerSlots]. *)
(*@ src/src/container-runner.ts 397-492 spawnContainer *)
Definition spawnContainer (session : Session) (cache : MountCache) : hostM (option (list string) * MountCache) :=
  let* agentGroup := db_read (λ db, getAgentGroup db (s_agent_group_id session)) in
  match agentGroup with
  | None => ret (None, cache)
  | Some agentGroup =>
      refresh_session session agentGroup ;;
      let* now := clock turns in
      let* jti := fresh_id turns "jti" in
      let* secret := fresh_id turns "secret" in
      let* plan := run (plan_spawn now jti secret agentGroup session cache) in
      let* args := buildContainerArgs (pl_mounts plan)
        (NAMESPACE +:+ "-v2-" +:+ ag_folder agentGroup +:+ "-" +:+ pretty now)
        (pl_config plan) (pl_provider plan) (pl_contribution plan) (ag_id agentGroup) (pl_proxy plan) in
      run (files (rm_force (Attachments.sessionDir DATA_DIR (ag_id agentGroup) (s_id session) ++ [".heartbeat"]))) ;;
      let* now := clock turns in
      run (markContainerRunning now (s_id session)) ;;
      ret (Some args, pl_cache plan)
  end.
End spawn.
