(* ===== verification/ContainerArgsProofs.v ===== *)
(** * The command line of a container (src/container-runner.ts)

    What reaches a container's environment, and the rewrite of its group's
    configuration when it starts. *)
From Stdlib Require Import QArith Ascii.
From stdpp Require Import pretty.
From S2P Require Import Prelude JsString Json JsonProofs JsonIndent ContainerSpawn Types Central Permissions SessionDb Sessions Destinations Sha SafeText Fs SessionManager AgentRoute Host Ingress ContainerConfig ContainerConfigProofs ContainerImage GroupInit MountSecurity Roster ScopeRetention ProxyTokens SigningProxy FormatterProofs.

Local Open Scope string_scope.
Local Open Scope Z_scope.
Local Open Scope list_scope.
Local Open Scope prog_scope.

(** ** The last value of a variable *)

Lemma injected_skip a b rest key :
  a ≠ "-e" ∨ startsWith b (key +:+ "=") = false →
  findInjectedEnvValue (a :: b :: rest) key = findInjectedEnvValue (b :: rest) key.
Proof.
  intros H. cbn [findInjectedEnvValue]. destruct (match rest with [] => None | _ => _ end); [done|].
  destruct_if; [|done]. to_prop. naive_solver congruence.
Qed.
Lemma injected_here key v rest :
  findInjectedEnvValue ((key +:+ "=" +:+ v) :: rest) key = None →
  findInjectedEnvValue ("-e" :: (key +:+ "=" +:+ v) :: rest) key = Some v.
Proof.
  intros E. cbn [findInjectedEnvValue] in *. rewrite E, bool_decide_eq_true_2 by done.
  rewrite <-!sapp_assoc, startsWith_app. cbn [andb].
  assert (String.length key + 1 = String.length (key +:+ "="))%nat as -> by (by rewrite sapp_length).
  by rewrite drop_string_app.
Qed.
(** What is said later wins. *)
Lemma injected_later l1 l2 key v :
  findInjectedEnvValue l2 key = Some v → findInjectedEnvValue (l1 ++ l2) key = Some v.
Proof.
  intros H. induction l1 as [|a l1 IH]; [done|]. cbn [app].
  destruct (l1 ++ l2) as [|b rest]; [done|]. cbn [findInjectedEnvValue] in *. by rewrite IH.
Qed.

(** No mount is a variable. *)
Lemma injected_mounts mounts rest key :
  findInjectedEnvValue (concat (map mount_args mounts) ++ rest) key = findInjectedEnvValue rest key.
Proof.
  induction mounts as [|m mounts IH]; [done|]. cbn [map concat]. rewrite <-(assoc_L (++)).
  assert (∃ x, mount_args m = ["-v"; "/" +:+ x]) as [x ->].
  { unfold mount_args, readonlyMountArgs, path_text. destruct (vm_readonly m); eexists; by rewrite !sapp_assoc. }
  cbn [app]. rewrite injected_skip by (by left).
  destruct (concat (map mount_args mounts) ++ rest) as [|b l]; [by rewrite <-IH|].
  rewrite injected_skip, IH; [done|]. left. discriminate.
Qed.

Section args.
Context (process_env : string → option string) (dotenv : option string).
Context (TIMEZONE NAMESPACE CONTAINER_INSTALL_LABEL CONTAINER_IMAGE : string) (linux : bool) (uid gid : option Z).
Context (traceparent tracestate : option string).
Context (turns : nat → Turn).
Context (ensureAgent : nat → string → option exn).
Context (applyContainerConfig : nat → list string → outcome exn (list string * bool)).

Local Abbreviation build := (buildContainerArgs process_env dotenv TIMEZONE NAMESPACE CONTAINER_INSTALL_LABEL CONTAINER_IMAGE
  linux uid gid traceparent tracestate turns ensureAgent applyContainerConfig).

(** The end of the command line: the image and what runs in it. *)
Definition command (config : ContainerConfig) : list string :=
  ["--entrypoint"; "bash"; image_of CONTAINER_IMAGE config; "-c"; "exec bun run /app/src/index.ts"].

Lemma no_proxy_shape args additions : ∃ v, mergeNoProxyArgs args additions = args ++ ["-e"; "NO_PROXY=" +:+ v; "-e"; "no_proxy=" +:+ v].
Proof. unfold mergeNoProxyArgs. by eexists. Qed.

(** What follows the variables of the proxy sets neither of them. *)
Lemma after_proxy key v mounts config :
  (∀ x, startsWith ("NO_PROXY=" +:+ x) (key +:+ "=") = false) → (∀ x, startsWith ("no_proxy=" +:+ x) (key +:+ "=") = false) →
  startsWith "-c" (key +:+ "=") = false →
  findInjectedEnvValue (["-e"; "NO_PROXY=" +:+ v; "-e"; "no_proxy=" +:+ v] ++ concat (map mount_args mounts) ++ command config) key = None.
Proof.
  intros H1 H2 H3. assert (findInjectedEnvValue (concat (map mount_args mounts) ++ command config) key = None) as Hr.
  { rewrite injected_mounts. unfold command. rewrite injected_skip by (left; discriminate).
    rewrite injected_skip by (left; discriminate). rewrite injected_skip by (right; exact H3).
    rewrite injected_skip by (left; discriminate). reflexivity. }
  destruct (concat (map mount_args mounts) ++ command config) as [|b rest] eqn:E.
  { apply (f_equal length) in E. rewrite length_app in E. cbn in E. lia. }
  cbn [app]. rewrite injected_skip by (right; apply H1). rewrite injected_skip by (left; discriminate).
  rewrite injected_skip by (right; apply H2). rewrite injected_skip by (left; discriminate). done.
Qed.

(** C18: whatever the operator, the providers, the tracing and the OneCLI SDK put
    into the environment of a container, the address and the token of the
    signing proxy are the ones the host made for it: they come after all of
    theirs.  All flags and mounts stand before the image, where [docker] reads
    them. *)
Theorem proxy_env_is_the_hosts mounts name config provider contribution agent sp h args h' :
  build mounts name config provider contribution agent (Some sp) h = (Ok args, h') →
  findInjectedEnvValue args "AGENTDESK_GATEWAY_PROXY_TOKEN" = Some (sp_token sp) ∧
  findInjectedEnvValue args "AGENTDESK_GATEWAY_PROXY_URL" = Some (sp_url sp) ∧
  ∃ flags, args = flags ++ concat (map mount_args mounts) ++ command config.
Proof.
  unfold buildContainerArgs. intros H. apply bind_ok_inv in H as (args0 & h1 & _ & H). injection H as <- _.
  unfold last_args. set (args1 := args0 ++ _). set (ours := env_args [_; _]).
  destruct (no_proxy_shape (args1 ++ ours) [sp_noProxyHost sp]) as [v ->].
  unfold appendImageAndCommand. change (?l ++ ["--entrypoint"; _; _; _; _]) with (l ++ command config).
  rewrite <-!(assoc_L (++)). split_and!.
  - apply injected_later. subst ours. cbn [env_args map concat env_arg fst snd app].
    rewrite injected_skip by (right; reflexivity). rewrite injected_skip by (left; discriminate).
    apply injected_here. rewrite injected_skip by (left; discriminate).
    by apply (after_proxy "AGENTDESK_GATEWAY_PROXY_TOKEN").
  - apply injected_later. subst ours. cbn [env_args map concat env_arg fst snd app].
    apply injected_here. rewrite injected_skip by (left; discriminate).
    rewrite injected_skip by (right; reflexivity). rewrite injected_skip by (left; discriminate).
    by apply (after_proxy "AGENTDESK_GATEWAY_PROXY_URL").
  - by exists (args1 ++ ours ++ ["-e"; "NO_PROXY=" +:+ v; "-e"; "no_proxy=" +:+ v]); rewrite <-!(assoc_L (++)).
Qed.
End args.

(** ** The operator's key behind the vault *)

Section vault.
Context (process_env : string → option string) (dotenv : option string).

Definition clean (env : list (string * string)) : Prop := Forall (λ kv, kv.1 ≠ "OPENAI_API_KEY") env.

Lemma fold_ok_keeps {A B} (P : B → Prop) (f : B → A → outcome exn B) l : ∀ b b',
  (∀ x b b', x ∈ l → P b → f b x = Ok b' → P b') → P b → fold_ok f l b = Ok b' → P b'.
Proof.
  induction l as [|x l IH]; intros b b' Hf Hb; cbn [fold_ok]; [by intros [= <-]|].
  destruct (f b x) as [b1|] eqn:E; [|done]. cbn [obind]. apply IH.
  - intros y b2 b3 Hy. apply Hf. by right.
  - eapply Hf; [left|exact Hb|exact E].
Qed.
Lemma merge_env_clean env kv env' : clean env → kv.1 ≠ "OPENAI_API_KEY" → merge_env env kv = Ok env' → clean env'.
Proof.
  unfold merge_env, clean. destruct (List.find _ env); [by destruct_if; intros ?? [= <-]|].
  intros H1 H2 [= <-]. apply Forall_app. by repeat constructor.
Qed.
Lemma merged_clean contributions c :
  Forall (λ c, clean (default [] (co_env c))) contributions → mergeProviderContributions contributions = Ok c →
  clean (default [] (co_env c)).
Proof.
  intros H. unfold mergeProviderContributions. destruct (fold_ok _ contributions ([], [])) as [[env mounts]|] eqn:E; [|done].
  cbn [obind]. intros [= <-]. cbn [co_env fst].
  assert (clean env) as He.
  { refine (fold_ok_keeps (λ acc : list (string * string) * list VolumeMount, clean acc.1) _ _ _ _ _ _ E); [|by constructor].
    intros x [e m] b' Hx He Hb. rewrite Forall_forall in H. apply H in Hx. cbn in *.
    destruct (fold_ok merge_env _ e) as [e'|] eqn:E1; [|done]. cbn [obind] in Hb.
    destruct (fold_ok merge_mount _ m); [|done]. injection Hb as <-. cbn.
    refine (fold_ok_keeps clean merge_env _ _ _ _ He E1). intros kv b b' Hkv Hb. unfold clean in Hx.
    rewrite Forall_forall in Hx. by apply merge_env_clean; [|apply Hx]. }
  by destruct env.
Qed.

(** A merge keeps what it is given. *)
Lemma fold_ok_grows {A B} (R : B → B → Prop) `{!PreOrder R} (Q : A → B → Prop) (f : B → A → outcome exn B) l :
  (∀ x b b', f b x = Ok b' → R b b' ∧ Q x b') → (∀ x b b', Q x b → R b b' → Q x b') →
  ∀ b b', fold_ok f l b = Ok b' → R b b' ∧ ∀ x, x ∈ l → Q x b'.
Proof.
  intros Hf HQ. induction l as [|x l IH]; intros b b'; cbn [fold_ok].
  { intros [= <-]. split; [reflexivity|]. by intros x ?%elem_of_nil. }
  destruct (f b x) as [b1|] eqn:E; [|done]. cbn [obind]. apply Hf in E as [E1 E2]. intros (E3 & E4)%IH.
  split; [by etrans|]. intros y [->|Hy]%elem_of_cons; [by eapply HQ|by apply E4].
Qed.
Lemma merge_env_has kv env env' : merge_env env kv = Ok env' → env ⊆ env' ∧ kv ∈ env'.
Proof.
  unfold merge_env. destruct (List.find _ env) as [e|] eqn:Ef.
  - destruct_if; [|done]. intros [= <-]. apply find_some in Ef as [Hin He]. to_prop. destruct e, kv. cbn in *. subst.
    split; [done|by apply list_elem_of_In].
  - intros [= <-]. set_solver.
Qed.
Lemma merged_has contributions c : mergeProviderContributions contributions = Ok c →
  ∀ c', c' ∈ contributions → default [] (co_env c') ⊆ default [] (co_env c).
Proof.
  unfold mergeProviderContributions. destruct (fold_ok _ contributions ([], [])) as [[env mounts]|] eqn:E; [|done].
  cbn [obind]. intros [= <-] c' Hc. cbn [co_env fst].
  assert (PreOrder (λ x y : list (string * string) * list VolumeMount, x.1 ⊆ y.1)) by (split; red; set_solver).
  eapply (fold_ok_grows (λ x y, x.1 ⊆ y.1) (λ c x, default [] (co_env c) ⊆ x.1)) in E as [_ E].
  - apply E in Hc. by destruct env.
  - intros x [e m] b' Hb. cbn in *. destruct (fold_ok merge_env _ e) as [e'|] eqn:E1; [|done]. cbn [obind] in Hb.
    destruct (fold_ok merge_mount _ m); [|done]. injection Hb as <-. cbn.
    by eapply (fold_ok_grows (⊆) (∈)) in E1; [|intros ????; by apply merge_env_has|set_solver].
  - set_solver.
Qed.

(** when the OpenAI-compatible providers go through the vault, no container
    is given the operator's API key by a provider, whichever providers its
    session, its group and its two roles use; the marker that says so replaces
    it.  (What the operator writes into the group's own [env] is passed on.) *)
Theorem vault_keeps_the_key session agentGroup config provider contribution :
  openaiViaOneCliEnabled process_env dotenv = true →
  resolveProviderContribution process_env dotenv session agentGroup config = Ok (provider, contribution) →
  (∀ v, ("OPENAI_API_KEY", v) ∉ default [] (co_env contribution)) ∧
  (is_Some (getProviderContainerConfig process_env dotenv provider) →
   ("OPENAI_CREDENTIAL_VIA_PROXY", "true") ∈ default [] (co_env contribution)).
Proof.
  intros Hv. unfold resolveProviderContribution. set (p := resolveProviderName _ _ _ _).
  set (routing := if routing_enabled config then _ else _).
  destruct (mergeProviderContributions _) as [c|] eqn:E; [|done]. cbn [obind]. intros [= <- <-]. split.
  - intros v Hin. eapply merged_clean in E; [unfold clean in E; rewrite Forall_forall in E; by apply E in Hin|].
    apply Forall_fmap, Forall_forall. intros name _. cbn. unfold getProviderContainerConfig.
    destruct_if; [|by constructor]. unfold buildOpenAIContribution. rewrite Hv. cbn [co_env default].
    apply Forall_app. split; [|by repeat constructor]. apply Forall_forall. intros kv (k & Hk & Hf)%list_elem_of_omap.
    apply list_elem_of_In, filter_In in Hk as [_ Hk]. to_prop.
    destruct (forwarded process_env dotenv k); [|done]. by injection Hf as <-.
  - intros [c' Hc]. eapply (merged_has _ _ E c').
    + apply list_elem_of_fmap. exists p. rewrite Hc. split; [done|]. apply set_of_spec. left.
    + unfold getProviderContainerConfig in Hc. revert Hc. destruct_if; [|done]. intros [= <-].
      unfold buildOpenAIContribution. rewrite Hv. cbn [co_env default]. apply elem_of_app. right. left.
Qed.
End vault.

(** An installation that goes through the vault, with a key in its .env file. *)
Definition vaulted (key : string) : option string :=
  if bool_decide (key = "AGENTDESK_OPENAI_VIA_ONECLI") then Some "true" else None.
Definition key_file : option string := Some "OPENAI_API_KEY=sk-1".
Definition vault_session : Session := mkSession "s" "g" None None None (Some "s") None (Some "codex") active stopped None None 0 0.
Definition vault_group : AgentGroup := mkAgentGroup "g" "Desk" "desk" None 0 None None.
Definition marker_only : ProviderContainerContribution := mkContribution None (Some [("OPENAI_CREDENTIAL_VIA_PROXY", "true")]).
Lemma vault_witness :
  (openaiViaOneCliEnabled vaulted key_file = true ∧ forwarded vaulted key_file "OPENAI_API_KEY" = Some "sk-1" ∧
   resolveProviderContribution vaulted key_file vault_session vault_group emptyConfig = Ok ("codex", marker_only)) ∧
  (∀ v, ("OPENAI_API_KEY", v) ∉ default [] (co_env marker_only)).
Proof.
  assert (openaiViaOneCliEnabled vaulted key_file = true) as H1 by (vm_compute; reflexivity).
  assert (resolveProviderContribution vaulted key_file vault_session vault_group emptyConfig = Ok ("codex", marker_only)) as H2
    by (vm_compute; reflexivity).
  split; [split; [exact H1|split; [vm_compute; reflexivity|exact H2]]|].
  exact (proj1 (vault_keeps_the_key vaulted key_file vault_session vault_group emptyConfig "codex" marker_only H1 H2)).
Defined.

(** ** A group's command line *)

Definition quiet_host : Host := mkHost (mkWorld emptyDb ∅ ∅ ∅) 0 (AdapterSet true) ∅ ∅ ∅ ∅ [] [] [].
Definition no_turns (n : nat) : Turn :=
  mkTurn 0 (Replied None) None (FetchFailed false) None true id (mkDraws "s" "c" "x") id.
(** What the group's own [env] says of the proxy and of its provider. *)
Definition with_env : ContainerConfig :=
  cfg_set "env" (Some (JObj [("AGENTDESK_GATEWAY_PROXY_TOKEN", JStr "stolen"); ("AGENTDESK_EXECUTION_PROVIDER", JStr "mock")])) emptyConfig.
Definition host_proxy : SpawnSigningProxy := mkSpawnProxy "token" "http://host.docker.internal:1" "host.docker.internal" [].
Definition some_args (provider : string) :=
  buildContainerArgs (λ _, None) None "UTC" "agentdesk" "l=1" "image" true (Some 0) None None None no_turns
    (λ _ _, None) (λ _ l, Ok (l, true)) [mkMount ["d"] "/workspace" false] "name" with_env provider no_contribution "g"
    (Some host_proxy) quiet_host.
Definition args_of {A} (r : outcome failure (list string) * A) : list string := match r.1 with Ok l => l | Throw _ => [] end.

Lemma proxy_env_witness :
  some_args "mock" = (Ok (args_of (some_args "mock")), (some_args "mock").2) ∧
  findInjectedEnvValue (args_of (some_args "mock")) "AGENTDESK_GATEWAY_PROXY_TOKEN" = Some "token".
Proof.
  assert (some_args "mock" = (Ok (args_of (some_args "mock")), (some_args "mock").2)) as E by (vm_compute; reflexivity).
  split; [exact E|].
  exact (proj1 (proxy_env_is_the_hosts (λ _, None) None "UTC" "agentdesk" "l=1" "image" true (Some 0) None None None no_turns
    (λ _ _, None) (λ _ l, Ok (l, true)) [mkMount ["d"] "/workspace" false] "name" with_env "mock" no_contribution "g"
    host_proxy quiet_host _ _ E)).
Defined.

(** the provider the runner starts with is said to be the host's own, not
    the operator's; but the group's [env] comes after it, and the container
    starts with what that says. *)
Theorem env_overrides_the_provider :
  findInjectedEnvValue (args_of (some_args "openai")) "AGENTDESK_EXECUTION_PROVIDER" = Some "mock".
Proof. vm_compute. reflexivity. Qed.

(** ** The configuration, rewritten *)

Section rewrite.
Lemma names_runtime agentGroup c : names_group agentGroup (runtime_fields agentGroup c) = true.
Proof. unfold names_group, runtime_fields. rewrite !cfg_get_set. cbn. by rewrite !bool_decide_eq_true_2. Qed.
Lemma runtime_says agentGroup c :
  cfg_get "agentGroupId" (runtime_fields agentGroup c) = Some (JStr (ag_id agentGroup)) ∧
  cfg_get "groupName" (runtime_fields agentGroup c) = Some (JStr (ag_name agentGroup)) ∧
  cfg_get "assistantName" (runtime_fields agentGroup c) = Some (JStr (ag_name agentGroup)).
Proof. unfold runtime_fields. by rewrite !cfg_get_set. Qed.
Lemma runtime_get agentGroup c k :
  cfg_get k (runtime_fields agentGroup c) = cfg_get k c ∨
  cfg_get k (runtime_fields agentGroup c) ∈ [Some (JStr (ag_name agentGroup)); Some (JStr (ag_id agentGroup))].
Proof. unfold runtime_fields. rewrite !cfg_get_set. repeat destruct_if; set_solver. Qed.
Lemma runtime_other agentGroup c k : k ∉ ["assistantName"; "groupName"; "agentGroupId"] →
  cfg_get k (runtime_fields agentGroup c) = cfg_get k c.
Proof. intros H. unfold runtime_fields. rewrite !cfg_get_set, !bool_decide_eq_false_2 by set_solver. done. Qed.

Context (frac_value : string → Q) (GROUPS_DIR : list string).

Lemma identity_field k s :
  k ∈ ["assistantName"; "groupName"; "agentGroupId"] → ContainerConfigProofs.field frac_value k (Some (JStr s)) = Some (JStr s).
Proof. intros H. by repeat (apply elem_of_cons in H as [->|H]); [..|by apply elem_of_nil in H]. Qed.

(** when a container starts, the file of its group names the group: it is
    written once, when it did not, and read again it says the same of everything
    else, the file's own keys, its limits and its servers, and names the group.
    Nothing else on the disk changes, and the next start writes nothing. *)
Theorem runtime_fields_are_kept agentGroup fs text raw c :
  let folder := ag_folder agentGroup in
  plain fs (GROUPS_DIR ++ [folder]) → fs !! configPath GROUPS_DIR folder = Some (NFile text) →
  JSON_parse text = Some (JObj raw) → config_of frac_value raw = Ok c →
  llm_settled frac_value (obj_get "llm" raw) → whole_limits frac_value (obj_get "resources" raw) →
  ∃ c1 c2 fs', ensureRuntimeFields GROUPS_DIR c agentGroup fs = (Ok c1, fs') ∧ names_group agentGroup c1 = true ∧
    (∀ p, p ≠ configPath GROUPS_DIR folder → fs' !! p = fs !! p) ∧
    readContainerConfig frac_value GROUPS_DIR folder fs' = (Ok c2, fs') ∧ names_group agentGroup c2 = true ∧
    (∀ k, k ∉ ["assistantName"; "groupName"; "agentGroupId"] → cfg_get k c2 = cfg_get k c) ∧
    ensureRuntimeFields GROUPS_DIR c2 agentGroup fs' = (Ok c2, fs').
Proof.
  intros folder Hd Ef Hp E Hs Hw. assert (∀ s, wf_json (JStr s)) as Hs' by (by intros s). unfold ensureRuntimeFields at 1. destruct (names_group agentGroup c) eqn:En.
  { exists c, c, fs. split_and!; try done.
    - by rewrite (read_config frac_value GROUPS_DIR fs folder text raw), E.
    - unfold ensureRuntimeFields. by rewrite En. }
  pose proof (parsed_wf _ _ Hp) as Hraw. apply wf_obj in Hraw as Hn; destruct Hn as [Hn _].
  pose proof (config_get frac_value raw c E Hn) as (Hcn & _).
  destruct (update_reread frac_value GROUPS_DIR folder fs text raw (λ c, Ok (runtime_fields agentGroup c)) c
              (runtime_fields agentGroup c)) as (_ & c2 & H2 & H3 & H4); try done.
  - by repeat apply cfg_set_NoDup.
  - intros k. destruct (runtime_get agentGroup c k) as [H|H]; [by left|right]. by set_unfold in H; destruct H as [->|[->|[]]]; apply Hs'.
  - apply runtime_other. set_solver.
  - assert (names_group agentGroup c2 = true) as En2.
    { unfold names_group. destruct (runtime_says agentGroup c) as (E1 & E2 & E3). rewrite !H4, E1, E2, E3 by done.
      rewrite !identity_field by set_solver. cbn [jstring]. by rewrite !bool_decide_eq_true_2. }
    exists (runtime_fields agentGroup c), c2, (<[configPath GROUPS_DIR folder := NFile (config_text (runtime_fields agentGroup c))]> fs).
    split_and!; try done.
    + by rewrite bind_case, (write_config GROUPS_DIR fs folder text).
    + apply names_runtime.
    + intros p Hne. by rewrite lookup_insert_ne.
    + intros k Hk. apply H3. by apply runtime_other.
    + unfold ensureRuntimeFields. by rewrite En2.
Qed.
End rewrite.

(** The configuration of a group that was just made, whose network is limited. *)
Definition new_file : string := config_text (cfg_set "network" (Some (JStr "none")) emptyConfig).
Definition a_number (_ : string) : Q := 1 # 2.
Definition new_files : gmap (list string) node :=
  {[ ["groups"] := NDir; ["groups"; "desk"] := NDir; ["groups"; "desk"; "container.json"] := NFile new_file ]}.
Definition new_raw : list (string * json) :=
  Eval vm_compute in match JSON_parse new_file with Some (JObj l) => l | _ => [] end.
Definition new_config : ContainerConfig :=
  Eval vm_compute in match config_of a_number new_raw with Ok c => c | Throw _ => [] end.
Lemma runtime_fields_witness :
  readContainerConfig a_number ["groups"] "desk" new_files = (Ok new_config, new_files) ∧
  ∃ c1 c2 fs', ensureRuntimeFields ["groups"] new_config vault_group new_files = (Ok c1, fs') ∧
    names_group vault_group c1 = true ∧
    (∀ p, p ≠ configPath ["groups"] "desk" → fs' !! p = new_files !! p) ∧
    readContainerConfig a_number ["groups"] "desk" fs' = (Ok c2, fs') ∧ names_group vault_group c2 = true ∧
    (∀ k, k ∉ ["assistantName"; "groupName"; "agentGroupId"] → cfg_get k c2 = cfg_get k new_config) ∧
    ensureRuntimeFields ["groups"] c2 vault_group fs' = (Ok c2, fs').
Proof.
  split; [vm_compute; reflexivity|].
  apply (runtime_fields_are_kept a_number ["groups"] vault_group new_files new_file new_raw new_config);
    try (vm_compute; reflexivity).
  - split; [|split; set_solver]. intros p c q E. destruct p as [|x [|y [|z p]]]; simplify_eq/=; vm_compute; reflexivity.
  - left. vm_compute. reflexivity.
  - intros k lit _ H. vm_compute in H. discriminate.
Defined.
