(* ===== verification/ContainerSpawnProofs.v ===== *)
(** * What a container can see and write (src/container-runner.ts) *)
From Stdlib Require Import QArith Ascii.
From stdpp Require Import pretty.
From S2P Require Import Prelude JsString Json JsonProofs JsonIndent ContainerSpawn Types Central Permissions SessionDb Sessions Destinations Sha SafeText Fs SessionManager Host ContainerConfig ContainerConfigProofs ContainerImage GroupInit MountSecurity Roster ScopeRetention ProxyTokens SigningProxy.

Local Open Scope string_scope.
Local Open Scope Z_scope.
Local Open Scope list_scope.
Local Open Scope prog_scope.

(** ** Where a mount comes from *)

Section mounts.
Context (GROUPS_DIR DATA_DIR PROJECT_ROOT : list string).

Local Abbreviation group_of := (group_dir GROUPS_DIR).
Local Abbreviation scope_of := (resolveStateScope DATA_DIR GROUPS_DIR).

(** The files of the template that are laid over the workspace. *)
Definition template_files : list string := ["prompts"; "CLAUDE.md"; "instructions.md"; ".claude-fragments"].
(** What is shared by all groups, and where. *)
Definition shared_places : list (list string * string) :=
  [(GROUPS_DIR ++ ["global"], "/workspace/global"); (PROJECT_ROOT ++ ["container"; "CLAUDE.md"], "/app/CLAUDE.md");
   (skills_dir PROJECT_ROOT, "/app/skills"); (PROJECT_ROOT ++ ["container"; "agent-runner"; "src"], "/app/src")].

Section one.
Context (agentGroup : AgentGroup) (session : Session) (redacted : option (list string)) (fs : gmap (list string) node).

(** The mounts of a container, by what they are for. *)
Inductive mount_of : VolumeMount → Prop :=
| of_session : mount_of (mkMount (Attachments.sessionDir DATA_DIR (ag_id agentGroup) (s_id session)) "/workspace" false)
| of_workspace : mount_of (mkMount (sc_workspaceDir (scope_of agentGroup session)) "/workspace/agent" false)
| of_claude : mount_of (mkMount (sc_claudeDir (scope_of agentGroup session)) "/home/node/.claude" false)
| of_config : mount_of (mkMount (default (group_of agentGroup ++ ["container.json"]) redacted) "/workspace/agent/container.json" true)
| of_template name : name ∈ template_files →
    mount_of (mkMount (group_of agentGroup ++ [name]) ("/workspace/agent/" +:+ name) true)
| of_prompt promptsRoot host path : realpath fs (group_of agentGroup ++ ["prompts"]) = Some promptsRoot →
    promptsRoot `prefix_of` host → mount_of (mkMount host ("/workspace/agent/" +:+ path) true)
| of_shared place : place ∈ shared_places → mount_of (mkMount place.1 place.2 true).

Lemma mount_there_ok host path l fs0 fs1 :
  mount_there host path fs0 = (Ok l, fs1) → fs1 = fs0 ∧ Forall (λ m, m = mkMount host path true) l ∧
  (existsSync fs0 host = true → mkMount host path true ∈ l).
Proof.
  unfold mount_there. rewrite bind_gets. intros [= <- <-]. split_and!; [done| |].
  - destruct (existsSync fs0 host); repeat constructor.
  - intros ->. left.
Qed.
Lemma prompt_mount_ok groupDir promptFile m fs0 fs1 :
  resolveRoutingPromptMount groupDir promptFile fs0 = (Ok m, fs1) →
  fs1 = fs0 ∧ vm_readonly m = true ∧ ∃ root path, realpath fs0 (groupDir ++ ["prompts"]) = Some root ∧
    root `prefix_of` vm_host m ∧ vm_container m = "/workspace/agent/" +:+ path ∧ startsWith path "prompts/" = true.
Proof.
  unfold resolveRoutingPromptMount. destruct promptFile as [[| | | |p| |]|]; try done. cbv zeta.
  destruct (startsWith p "/" || bool_decide (posix_normalize (slashes p) = "..") || startsWith (posix_normalize (slashes p)) "../")
    eqn:E1; cbn [orb]; [done|]. destruct (startsWith (posix_normalize (slashes p)) "prompts/") eqn:E2; cbn [negb]; [|done].
  rewrite !bind_gets. destruct (realpath fs0 (groupDir ++ ["prompts"])) as [root|]; [|done].
  destruct (realpath fs0 (join_path groupDir _)) as [host|]; [|done]. destruct_if; to_prop; [|done].
  intros [= <- <-]. split_and!; [done..|]. by exists root, (posix_normalize (slashes p)).
Qed.

Lemma agent_mounts_ok config l fs1 :
  agent_mounts (group_of agentGroup) (scope_of agentGroup session) config redacted fs = (Ok l, fs1) →
  fs1 = fs ∧ Forall mount_of l ∧
  (existsSync fs (default (group_of agentGroup ++ ["container.json"]) redacted) = true →
   mkMount (default (group_of agentGroup ++ ["container.json"]) redacted) "/workspace/agent/container.json" true ∈ l).
Proof.
  unfold agent_mounts. intros H.
  apply bind_ok_inv in H as (m1 & f1 & H1 & H). apply mount_there_ok in H1 as (-> & H1 & H1e).
  apply bind_ok_inv in H as (m2 & f2 & H2 & H). apply mount_there_ok in H2 as (-> & H2 & _).
  apply bind_ok_inv in H as (m3 & f3 & H3 & H).
  assert (f3 = fs ∧ Forall mount_of m3) as [-> H3'].
  { destruct (routing_enabled config); [|by injection H3 as <- <-].
    apply bind_ok_inv in H3 as (m & f & Hm & H3). injection H3 as <- <-.
    apply prompt_mount_ok in Hm as (-> & Hr & root & path & E1 & E2 & E3 & _). split; [done|]. constructor; [|constructor].
    destruct m as [host cp ro]. cbn in *. subst. by eapply of_prompt. }
  apply bind_ok_inv in H as (m4 & f4 & H4 & H). apply mount_there_ok in H4 as (-> & H4 & _).
  apply bind_ok_inv in H as (m5 & f5 & H5 & H). apply mount_there_ok in H5 as (-> & H5 & _).
  apply bind_ok_inv in H as (m6 & f6 & H6 & H). apply mount_there_ok in H6 as (-> & H6 & _).
  injection H as <- <-. split; [done|]. split; [|intros He; apply H1e in He; set_solver].
  assert (∀ m l, Forall (λ m', m' = m) l → mount_of m → Forall mount_of l) as Hall
    by (intros m l Hl Hm; eapply Forall_impl; [exact Hl|]; by intros ? ->).
  constructor; [constructor|]. rewrite !Forall_app.
  split_and!; [eapply Hall; [exact H1|constructor]| |done| | |];
    (eapply Hall; [eassumption|apply (of_template _); unfold template_files; set_solver]).
Qed.
Lemma shared_mounts_ok l fs1 :
  shared_mounts GROUPS_DIR PROJECT_ROOT (scope_of agentGroup session) fs = (Ok l, fs1) → fs1 = fs ∧ Forall mount_of l.
Proof.
  unfold shared_mounts. intros H.
  apply bind_ok_inv in H as (m1 & f1 & H1 & H). apply mount_there_ok in H1 as (-> & H1 & _).
  apply bind_ok_inv in H as (m2 & f2 & H2 & H). apply mount_there_ok in H2 as (-> & H2 & _).
  apply bind_ok_inv in H as (m3 & f3 & H3 & H). apply mount_there_ok in H3 as (-> & H3 & _).
  injection H as <- <-. split; [done|].
  assert (∀ h p l, Forall (λ m', m' = mkMount h p true) l → (h, p) ∈ shared_places → Forall mount_of l) as Hall
    by (intros h p l Hl Hm; eapply Forall_impl; [exact Hl|]; intros ? ->; by apply (of_shared (h, p))).
  rewrite !Forall_app. split_and!; [eapply Hall; [exact H1|left]|eapply Hall; [exact H2|right; left]|].
  constructor; [constructor|]. constructor; [|eapply Hall; [exact H3|right; right; left]].
  apply (of_shared (PROJECT_ROOT ++ ["container"; "agent-runner"; "src"], "/app/src")). right; right; right; left.
Qed.
End one.

Context (frac_value : string → Q) (pid : string) (MOUNT_ALLOWLIST_PATH home : list string).

Lemma validated_allowed asked : ∀ cache l cache' fs,
  validateAdditionalMounts MOUNT_ALLOWLIST_PATH home PROJECT_ROOT fs asked cache = (Ok l, cache') →
  Forall (λ m, ∃ allowlist, mount_allowed home PROJECT_ROOT fs allowlist m) l.
Proof.
  induction asked as [|mount rest IH]; intros cache l cache' fs; cbn [validateAdditionalMounts].
  { intros [= <- _]. constructor. }
  destruct (loadMountAllowlist _ fs cache) as [allowlist c1].
  destruct (jget "hostPath" mount) as [|h]; [done|]. destruct (jget "containerPath" mount) as [|c]; [done|].
  destruct (jget "readonly" mount) as [|r]; [done|].
  destruct (validateMount home PROJECT_ROOT fs allowlist h c r) as [result|] eqn:Ev; [|done].
  destruct (validateAdditionalMounts _ _ _ fs rest c1) as [[more|e] c2] eqn:Er; [|done].
  specialize (IH _ _ _ _ Er). destruct result as [m|]; intros [= <- _]; [|done].
  constructor; [|done]. apply validateMount_allowed in Ev as (al & _ & H & _). by exists al.
Qed.

(** All the mounts of a container; [fs'] is the disk it is started on. *)
Lemma buildMounts_ok agentGroup session config contribution signingProxy cache l cache' fs fs' :
  buildMounts frac_value GROUPS_DIR DATA_DIR PROJECT_ROOT pid MOUNT_ALLOWLIST_PATH home
    agentGroup session config contribution signingProxy cache fs = (Ok (l, cache'), fs') →
  ∃ own extra, l = own ++ map extra_mount extra ++ default [] (co_mounts contribution) ∧
    Forall (mount_of agentGroup session (option_map sp_redactedConfigPath signingProxy) fs') own ∧
    Forall (λ m, ∃ allowlist, mount_allowed home PROJECT_ROOT fs' allowlist m) extra ∧
    (additional_mounts config = Ok [] → extra = []) ∧
    (∀ sp, signingProxy = Some sp → existsSync fs' (sp_redactedConfigPath sp) = true →
       mkMount (sp_redactedConfigPath sp) "/workspace/agent/container.json" true ∈ own).
Proof.
  unfold buildMounts. intros H. apply bind_ok_inv in H as (_ & f0 & _ & H).
  apply bind_ok_inv in H as (agent & f1 & H1 & H). apply agent_mounts_ok in H1 as (-> & H1 & H1e).
  apply bind_ok_inv in H as (shared & f2 & H2 & H). eapply shared_mounts_ok in H2 as (-> & H2).
  destruct (additional_mounts config) as [asked|] eqn:Ea; [|done]. rewrite bind_gets in H.
  set (v := match asked with [] => _ | _ => _ end) in H. destruct v as [[extra|e] c'] eqn:Ev; [|done].
  injection H as <- <- <-.
  exists (mkMount (Attachments.sessionDir DATA_DIR (ag_id agentGroup) (s_id session)) "/workspace" false :: agent ++ shared), extra.
  split_and!.
  - cbn [app]. f_equal. by rewrite <-!(assoc_L (++)).
  - constructor; [constructor|]. apply Forall_app. split; [done|exact H2].
  - subst v. destruct asked; [by injection Ev as <- _|]. by apply validated_allowed in Ev.
  - intros [= ->]. subst v. by injection Ev as <- _.
  - intros sp -> He. apply H1e in He. cbn in He. right. apply elem_of_app. by left.
Qed.

(** Without additional mounts and those of a provider. *)
Lemma buildMounts_own agentGroup session config contribution signingProxy cache l cache' fs fs' :
  buildMounts frac_value GROUPS_DIR DATA_DIR PROJECT_ROOT pid MOUNT_ALLOWLIST_PATH home
    agentGroup session config contribution signingProxy cache fs = (Ok (l, cache'), fs') →
  additional_mounts config = Ok [] → co_mounts contribution = None →
  (∀ m, m ∈ l → mount_of agentGroup session (option_map sp_redactedConfigPath signingProxy) fs' m) ∧
  ∀ sp, signingProxy = Some sp → existsSync fs' (sp_redactedConfigPath sp) = true →
    mkMount (sp_redactedConfigPath sp) "/workspace/agent/container.json" true ∈ l.
Proof.
  intros H Ha Hc. apply buildMounts_ok in H as (own & extra & -> & Ho & _ & He & Hr).
  rewrite (He Ha), Hc. cbn. rewrite app_nil_r. split; [|exact Hr]. by rewrite Forall_forall in Ho.
Qed.

(** ** What a container can write *)

(** A directory of the session, or of its scope. *)
Definition own_dir (agentGroup : AgentGroup) (session : Session) (d : list string) : Prop :=
  d = Attachments.sessionDir DATA_DIR (ag_id agentGroup) (s_id session) ∨
  d = sc_workspaceDir (scope_of agentGroup session) ∨ d = sc_claudeDir (scope_of agentGroup session).
Lemma mount_of_writable agentGroup session redacted fs m :
  mount_of agentGroup session redacted fs m → vm_readonly m = false → own_dir agentGroup session (vm_host m).
Proof. intros Hm Hw; destruct Hm; cbn in *; try done; unfold own_dir; auto. Qed.


(** The directories a session of a user can write, by their path. *)
Lemma own_dir_private agentGroup session user d :
  s_owner_user_id session = Some user → user ≠ "" → own_dir agentGroup session d →
  d = DATA_DIR ++ ["v2-sessions"; ag_id agentGroup; s_id session] ∨
  ∃ leaf, d = DATA_DIR ++ ["v2-scopes"; ag_id agentGroup; userScopeKey user; leaf].
Proof.
  intros Hs Hu H. unfold own_dir, Attachments.sessionDir, Attachments.sessionsBaseDir, resolveStateScope, scopesBaseDir in H. rewrite Hs in H. cbn [truthy default] in H.
  rewrite (bool_decide_eq_false_2 _ Hu) in H. cbn [negb sc_workspaceDir sc_claudeDir] in H. rewrite <-!(assoc_L (++)) in H.
  destruct H as [H | [H | H]]; [by left|right; by exists "workspace"|right; by exists "claude"].
Qed.
Lemma prefix_under {A} (d x y : list A) : d ++ x `prefix_of` d ++ y → x `prefix_of` y.
Proof. apply prefix_app_inv. Qed.

(** C14: two containers that run for different users share nothing that either
    can write: neither has what the other can write, nor a directory around it,
    mounted for writing (the scope keys are assumed to differ, as [sha1] and the
    slug make them; no additional mounts, and none of a provider).  Their
    sessions differ, since a session has one owner. *)
Theorem users_share_no_writable_dir ag1 ag2 s1 s2 u1 u2 config1 config2 c1 c2 p1 p2 cache1 cache2 l1 l2 cache1' cache2' fs1 fs2 fs1' fs2' :
  buildMounts frac_value GROUPS_DIR DATA_DIR PROJECT_ROOT pid MOUNT_ALLOWLIST_PATH home
    ag1 s1 config1 c1 p1 cache1 fs1 = (Ok (l1, cache1'), fs1') →
  buildMounts frac_value GROUPS_DIR DATA_DIR PROJECT_ROOT pid MOUNT_ALLOWLIST_PATH home
    ag2 s2 config2 c2 p2 cache2 fs2 = (Ok (l2, cache2'), fs2') →
  s_owner_user_id s1 = Some u1 → s_owner_user_id s2 = Some u2 → u1 ≠ "" → u2 ≠ "" →
  userScopeKey u1 ≠ userScopeKey u2 → s_id s1 ≠ s_id s2 →
  additional_mounts config1 = Ok [] → additional_mounts config2 = Ok [] → co_mounts c1 = None → co_mounts c2 = None →
  ∀ m1 m2, m1 ∈ l1 → m2 ∈ l2 → vm_readonly m1 = false → vm_readonly m2 = false →
    ¬ vm_host m1 `prefix_of` vm_host m2.
Proof.
  intros H1 H2 Ho1 Ho2 Hu1 Hu2 Hk Hs Ha1 Ha2 Hc1 Hc2 m1 m2 Hm1 Hm2 Hw1 Hw2 Hp.
  eapply buildMounts_own in H1 as [Hm1' _]; [|done..]. eapply buildMounts_own in H2 as [Hm2' _]; [|done..].
  eapply mount_of_writable in Hw1; [|by apply Hm1']. eapply (own_dir_private _ _ u1) in Hw1; [|done..].
  eapply mount_of_writable in Hw2; [|by apply Hm2']. eapply (own_dir_private _ _ u2) in Hw2; [|done..].
  destruct Hw1 as [E1|[? E1]], Hw2 as [E2|[? E2]]; rewrite E1, E2 in Hp; apply prefix_under in Hp as [? Hp]; simplify_eq/=.
Qed.

(** ** Where the signing key is *)

(** What a path of the container shows: the host directory that is mounted
    deepest on it, where the host finds that directory, and the rest of the
    path. *)
Definition place_of (m : VolumeMount) : list string := split_on "/" (vm_container m).
Definition seen (fs : gmap (list string) node) (l : list VolumeMount) (path host : list string) : Prop :=
  ∃ m rest q, m ∈ l ∧ path = place_of m ++ rest ∧ realpath fs (vm_host m) = Some q ∧ host = q ++ rest ∧
    ∀ m', m' ∈ l → place_of m' `prefix_of` path → place_of m' `prefix_of` place_of m.
End mounts.

Section key.
(** src/config.ts: both are directories of the installation. *)
Context (PROJECT_ROOT : list string).
Local Abbreviation GROUPS_DIR := (PROJECT_ROOT ++ ["groups"]).
Local Abbreviation DATA_DIR := (PROJECT_ROOT ++ ["data"]).

(** No mount of a container starts at the configuration or above it, but for the
    directory of a group that nobody owns a state of. *)
Lemma mount_of_below agentGroup session redacted fs m rest :
  mount_of GROUPS_DIR DATA_DIR PROJECT_ROOT agentGroup session (Some redacted) fs m →
  redacted = redactedConfigPathFor DATA_DIR (s_id session) → ag_folder agentGroup ≠ "global" →
  (∀ q, realpath fs (group_dir GROUPS_DIR agentGroup ++ ["prompts"]) = Some q →
    q = group_dir GROUPS_DIR agentGroup ++ ["prompts"]) →
  vm_host m ++ rest = group_dir GROUPS_DIR agentGroup ++ ["container.json"] →
  vm_container m = "/workspace/agent" ∧ rest = ["container.json"].
Proof.
  intros Hm -> Hg Hl Hr. unfold group_dir in *. rewrite <-!(assoc_L (++)) in Hr.
  destruct Hm; cbn [vm_host vm_container default] in *;
    unfold Attachments.sessionDir, Attachments.sessionsBaseDir, resolveStateScope, scopesBaseDir, redactedConfigPathFor, group_dir in *.
  - rewrite <-!(assoc_L (++)) in Hr. by apply app_inv_head in Hr.
  - destruct (negb _); cbn [sc_workspaceDir] in Hr; rewrite <-!(assoc_L (++)) in Hr; apply app_inv_head in Hr; [|done].
    cbn in Hr. by simplify_eq.
  - destruct (negb _); cbn [sc_claudeDir] in Hr; rewrite <-!(assoc_L (++)) in Hr; by apply app_inv_head in Hr.
  - cbn in Hr. rewrite <-!(assoc_L (++)) in Hr. by apply app_inv_head in Hr.
  - rewrite <-!(assoc_L (++)) in Hr. apply app_inv_head in Hr. cbn in Hr. simplify_eq. unfold template_files in *. set_solver.
  - apply Hl in H as ->. destruct H0 as [tail ->]. rewrite <-!(assoc_L (++)) in Hr. apply app_inv_head in Hr. done.
  - repeat (apply elem_of_cons in H as [->|H]); [..|by apply elem_of_nil in H]; cbn [fst] in Hr;
      unfold skills_dir in Hr; rewrite <-!(assoc_L (++)) in Hr; apply app_inv_head in Hr; cbn in Hr; simplify_eq.
Qed.

Context (frac_value : string → Q) (pid : string) (MOUNT_ALLOWLIST_PATH home : list string).

Lemma hides m m' :
  vm_container m = "/workspace/agent" → vm_container m' = "/workspace/agent/container.json" →
  (place_of m' `prefix_of` place_of m ++ ["container.json"] → place_of m' `prefix_of` place_of m) → False.
Proof.
  unfold place_of. intros -> -> H.
  set (a := split_on "/" "/workspace/agent") in *. set (b := split_on "/" "/workspace/agent/container.json") in *.
  assert (b = a ++ ["container.json"]) as Eb by (vm_compute; reflexivity). rewrite Eb in H.
  specialize (H (reflexivity _)) as [x Hx]. apply (f_equal length) in Hx. rewrite !length_app in Hx. cbn in Hx. lia.
Qed.

(** C13: a group's signing key stays out of its containers.  When the signing
    proxy is on, no path of a container shows the group's container.json on the
    host, which holds the key: where the whole directory of the group is
    mounted, the redacted file hides it.  It takes that the host finds every
    directory where it looks for it (no link was planted) and that nothing is
    mounted on the operator's or a provider's behalf. *)
Theorem signing_key_stays_out agentGroup session config contribution sp cache l cache' fs fs' :
  buildMounts frac_value GROUPS_DIR DATA_DIR PROJECT_ROOT pid MOUNT_ALLOWLIST_PATH home
    agentGroup session config contribution (Some sp) cache fs = (Ok (l, cache'), fs') →
  sp_redactedConfigPath sp = redactedConfigPathFor DATA_DIR (s_id session) →
  existsSync fs' (sp_redactedConfigPath sp) = true → ag_folder agentGroup ≠ "global" →
  (∀ m q, m ∈ l → realpath fs' (vm_host m) = Some q → q = vm_host m) →
  (∀ q, realpath fs' (group_dir GROUPS_DIR agentGroup ++ ["prompts"]) = Some q →
    q = group_dir GROUPS_DIR agentGroup ++ ["prompts"]) →
  additional_mounts config = Ok [] → co_mounts contribution = None →
  ∀ path, ¬ seen fs' l path (configPath GROUPS_DIR (ag_folder agentGroup)).
Proof.
  intros H Hsp Hex Hg Hlinks Hprompts Ha Hc path (m & rest & q & Hm & -> & Hq & Hh & Hdeep).
  eapply buildMounts_own in H as [Ho Hred]; [|done..]. specialize (Hred sp eq_refl Hex).
  apply (Hlinks m q Hm) in Hq as ->. pose proof (Ho m Hm) as Hof.
  cbn [option_map] in Hof. rewrite Hsp in Hof. eapply (mount_of_below _ _ _ _ _ rest) in Hof as [Ec ->]; [|done..|].
  - exact (hides m (mkMount (sp_redactedConfigPath sp) "/workspace/agent/container.json" true) Ec eq_refl (Hdeep _ Hred)).
  - rewrite <-Hh. unfold configPath, group_dir. by rewrite <-!(assoc_L (++)).
Qed.
End key.

(** ** A group and its containers *)

(** Whether a mount is the deepest of [l] on the path [place_of m ++ rest]. *)
Definition deepest (l : list VolumeMount) (m : VolumeMount) (rest : list string) : bool :=
  existsb (λ m', bool_decide (m' = m)) l &&
  forallb (λ m', implb (bool_decide (place_of m' `prefix_of` place_of m ++ rest))
                       (bool_decide (place_of m' `prefix_of` place_of m))) l.
Lemma sees_seen fs l m rest q path host :
  deepest l m rest = true → realpath fs (vm_host m) = Some q → place_of m ++ rest = path → q ++ rest = host →
  seen fs l path host.
Proof.
  unfold deepest. intros [Hm Hd]%andb_true_iff Hq <- <-. exists m, rest, q. split_and!; [|done..|].
  - apply existsb_exists in Hm as (m' & Hm & E). to_prop. subst. by apply list_elem_of_In.
  - intros m' Hm'. rewrite forallb_forall in Hd. apply list_elem_of_In, Hd in Hm'. intros Hp.
    by rewrite bool_decide_eq_true_2 in Hm'; [apply bool_decide_eq_true in Hm'|].
Qed.


Definition desk_group : AgentGroup := mkAgentGroup "g" "Desk" "desk" None 0 None None.
Definition owned_by (id : string) (user : option string) : Session :=
  mkSession id "g" None None user (Some id) None None active stopped None None 0 0.
Definition desk_redacted : list string := redactedConfigPathFor ["app"; "data"] "s1".
Definition with_key : string :=
  JSON_stringify (JObj [("backendGateway", JObj [("baseUrl", JStr "http://backend"); ("signingKey", JStr "key")])]).
(** The installation, with the group's configuration and its redacted copy, and
    what else is there. *)
Definition desk_disk (more : gmap (list string) node) : gmap (list string) node :=
  more ∪ {[ ["app"] := NDir; ["app"; "groups"] := NDir; ["app"; "groups"; "desk"] := NDir;
     ["app"; "groups"; "desk"; "container.json"] := NFile with_key; ["app"; "data"] := NDir;
     ["app"; "data"; "v2-proxy-runtime"] := NDir; desk_redacted := NFile "{}" ]}.
Definition desk_proxy : SpawnSigningProxy := mkSpawnProxy "token" "http://host.docker.internal:1" "host.docker.internal" desk_redacted.
Definition desk_mounts (session : Session) (more : gmap (list string) node) :=
  buildMounts (λ _, 0%Q) ["app"; "groups"] ["app"; "data"] ["app"] "1" ["etc"; "mounts.json"] ["root"]
    desk_group session emptyConfig no_contribution (Some desk_proxy) (mkMountCache None false) (desk_disk more).
Definition mounts_of (r : outcome exn (list VolumeMount * MountCache) * gmap (list string) node) : list VolumeMount :=
  match r.1 with Ok (l, _) => l | Throw _ => [] end.
Definition run_plain (session : Session) := desk_mounts session ∅.

(** the key does not stay out once a link was planted.  A container without
    an owner writes the directory of its group; when it leaves a link
    [instructions.md] to [container.json] there (the group has no such file),
    the host mounts what the link leads to into the group's next container, and
    /workspace/agent/instructions.md shows the key. *)
Theorem planted_link_shows_the_key :
  let r := desk_mounts (owned_by "s2" (Some "u"))
             {[ ["app"; "groups"; "desk"; "instructions.md"] := NLink false ["container.json"] ]} in
  seen r.2 (mounts_of r) (split_on "/" "/workspace/agent/instructions.md") (configPath ["app"; "groups"] "desk") ∧
  readFile r.2 (configPath ["app"; "groups"] "desk") ≠ readFile r.2 desk_redacted ∧
  ∃ text, readFile r.2 (configPath ["app"; "groups"] "desk") = Some text ∧ includes text "signingKey" = true.
Proof.
  cbv zeta. split_and!.
  - apply (sees_seen _ _ (mkMount ["app"; "groups"; "desk"; "instructions.md"] "/workspace/agent/instructions.md" true) []
             (configPath ["app"; "groups"] "desk")); vm_compute; reflexivity.
  - vm_compute. congruence.
  - eexists. split; vm_compute; reflexivity.
Qed.

(** A session of the group that starts. *)
Definition desk_l (s : Session) : list VolumeMount := mounts_of (desk_mounts s ∅).
Definition desk_fs (s : Session) : gmap (list string) node := (desk_mounts s ∅).2.
Definition starts (s : Session) : Prop := desk_mounts s ∅ = (Ok (desk_l s, mkMountCache None false), desk_fs s).
Lemma starts_ok s : (desk_mounts s ∅).1 = Ok (desk_l s, mkMountCache None false) → starts s.
Proof. unfold starts, desk_fs. destruct (desk_mounts s ∅) as [r fs]. cbn. by intros ->. Qed.


Lemma users_share_witness :
  let s1 := owned_by "s1" (Some "ana") in let s2 := owned_by "s2" (Some "bo") in
  (starts s1 ∧ starts s2 ∧ userScopeKey "ana" ≠ userScopeKey "bo") ∧
  ∀ m1 m2, m1 ∈ desk_l s1 → m2 ∈ desk_l s2 → vm_readonly m1 = false → vm_readonly m2 = false →
    ¬ vm_host m1 `prefix_of` vm_host m2.
Proof.
  intros s1 s2. assert (starts s1) as E1 by (apply starts_ok; vm_compute; reflexivity).
  assert (starts s2) as E2 by (apply starts_ok; vm_compute; reflexivity).
  assert (userScopeKey "ana" ≠ userScopeKey "bo") as Hk by (vm_compute; congruence).
  assert ("ana" ≠ "") as Hne by discriminate. assert ("bo" ≠ "") as Hne' by discriminate.
  assert (s_id s1 ≠ s_id s2) as Hne'' by discriminate.
  split; [split; [exact E1|split; [exact E2|exact Hk]]|].
  exact (users_share_no_writable_dir ["app"; "groups"] ["app"; "data"] ["app"] (λ _, 0%Q) "1" ["etc"; "mounts.json"] ["root"]
           desk_group desk_group s1 s2 "ana" "bo" emptyConfig emptyConfig no_contribution no_contribution
           (Some desk_proxy) (Some desk_proxy) (mkMountCache None false) (mkMountCache None false) _ _ _ _ _ _ _ _ E1 E2
           eq_refl eq_refl Hne Hne' Hk Hne'' eq_refl eq_refl eq_refl eq_refl).
Defined.

Lemma signing_key_witness :
  let s := owned_by "s1" None in
  starts s ∧ existsSync (desk_fs s) desk_redacted = true ∧
  ∀ path, ¬ seen (desk_fs s) (desk_l s) path (configPath ["app"; "groups"] "desk").
Proof.
  intros s. assert (starts s) as E by (apply starts_ok; vm_compute; reflexivity).
  assert (existsSync (desk_fs s) desk_redacted = true) as Hex by (vm_compute; reflexivity).
  split; [exact E|]. split; [exact Hex|].
  assert (forallb (λ m, match realpath (desk_fs s) (vm_host m) with Some q => bool_decide (q = vm_host m) | None => true end)
            (desk_l s) = true) as Hl by (vm_compute; reflexivity).
  assert (realpath (desk_fs s) ["app"; "groups"; "desk"; "prompts"] = None) as Hp by (vm_compute; reflexivity).
  assert (ag_folder desk_group ≠ "global") as Hg by discriminate.
  refine (signing_key_stays_out ["app"] (λ _, 0%Q) "1" ["etc"; "mounts.json"] ["root"] desk_group s emptyConfig
            no_contribution desk_proxy (mkMountCache None false) _ _ _ _ E eq_refl Hex Hg _ _ eq_refl eq_refl).
  - intros m q Hm Hq. rewrite forallb_forall in Hl. apply list_elem_of_In, Hl in Hm. rewrite Hq in Hm. by apply bool_decide_eq_true in Hm.
  - intros q Hq. cbn in Hq. rewrite Hp in Hq. discriminate.
Defined.
