(* ===== verification/SelfModProofs.v ===== *)
(** * What an approver is shown is what is applied (src/modules/self-mod/) *)
From Stdlib Require Import QArith Ascii.
From S2P Require Import Prelude JsString Json JsonProofs JsonIndent OutboundContract Types Events Central Permissions SessionDb Sessions Fs SessionManager Host Approvals IngressRuns SafeText FeishuCards ContainerConfig ContainerConfigProofs ContainerImage SelfMod.

Local Open Scope string_scope.
Local Open Scope Z_scope.
Local Open Scope list_scope.
Local Open Scope prog_scope.

Local Abbreviation newline := JsonIndent.newline.

(** ** The checks *)

Lemma readString_checked content key opts v :
  readString content key opts = FOk v →
  v = default "" (o_default opts) ∨ too_long (o_maxLength opts) v = false ∧ mismatch (o_pattern opts) v = false.
Proof.
  unfold readString. destruct (present content key) as [[]|]; try done.
  - destruct (too_long _ s) eqn:E1; [done|]. destruct (mismatch _ s) eqn:E2; [done|]. intros [= ->]. by right.
  - destruct (o_required opts); [done|]. intros [= <-]. by left.
Qed.
Lemma readStringArray_checked content key opts v :
  readStringArray content key opts = FOk v → Forall (λ s, mismatch (o_pattern opts) s = false) v.
Proof.
  unfold readStringArray. destruct (present content key) as [[]|]; try done.
  - destruct (too_many _ l); [done|]. intros (ss & _ & -> & H)%read_items_ok. eapply Forall_impl; [exact H|]. naive_solver.
  - destruct (o_required opts); [done|]. intros [= <-]. constructor.
Qed.
Lemma readStringRecord_checked content key me ml kp vp v :
  readStringRecord content key me ml kp vp = FOk v →
  Forall (λ e, mismatch kp e.1 = false ∧ mismatch vp e.2 = false) v ∧
  (present content key = None ∧ v = [] ∨ present content key = Some (text_record v)).
Proof.
  unfold readStringRecord. destruct (present content key) as [[]|]; try done.
  - destruct (too_many _ l); [done|]. intros (ss & -> & -> & H)%read_entries_ok. cbn [app]. split; [|by right].
    eapply Forall_impl; [exact H|]. naive_solver.
  - intros [= <-]. split; [constructor|by left].
Qed.
Lemma fbind_ok {A B} (r : FieldResult A) (k : A → FieldResult B) b : fbind r k = FOk b → ∃ a, r = FOk a ∧ k a = FOk b.
Proof. destruct r; [|done]. cbn. intros H. by eexists. Qed.

(** ** Quiet texts *)

(** No control character, no backtick, no backslash. *)
Definition plain_code (c : Z) : Prop := 32 ≤ c ∧ c ≠ 96 ∧ c ≠ 92.
Definition plain_text (s : string) : Prop := Forall plain_code (codes s).

Lemma codes_bytes_eq s : codes s = bytes s.
Proof. done. Qed.
Lemma safe_plain s : SAFE_TEXT_RE s = true → plain_text s.
Proof.
  intros H. apply Forall_forall. intros b Hb. destruct (safe_text_bytes s b H) as (? & ? & ? & ?); [done|].
  unfold plain_code. lia.
Qed.
Lemma plain_app s1 s2 : plain_text s1 → plain_text s2 → plain_text (s1 +:+ s2).
Proof. unfold plain_text. rewrite codes_app, Forall_app. done. Qed.

(** A text that an approver reads as it stands: nothing the card rewrites, and
    no backtick. *)
Definition quiet (l : chars) : Prop := calm l = true ∧ 96 ∉ l.
Lemma quiet_app l1 l2 : quiet l1 → quiet l2 → quiet (l1 ++ l2).
Proof. intros [H1 H2] [H3 H4]. split; [by rewrite calm_app|]. set_solver. Qed.
Lemma quiet_plain l : Forall plain_code l → quiet l.
Proof.
  induction 1 as [|c l (H1 & H2 & H3) _ [IH1 IH2]]; [split; [done|set_solver]|].
  split; [rewrite calm_cons; [done|lia|done]|set_solver].
Qed.
Lemma quiet_newline n : quiet (newline n).
Proof.
  unfold JsonIndent.newline. assert (Forall plain_code (repeat 32 (2 * n))) as H.
  { apply Forall_forall. intros b Hb%list_elem_of_In%repeat_spec. subst. unfold plain_code. lia. }
  apply quiet_plain in H as [H1 H2]. split; [by rewrite calm_cons|set_solver].
Qed.
Lemma quiet_escape c : plain_code c → quiet (escape c).
Proof.
  intros (H1 & H2 & H3). destruct (decide (c = 34)) as [->|Hq]; [split; [done|set_solver]|].
  assert (escape c = [c]) as ->; [|by apply quiet_plain; repeat constructor].
  unfold escape. rewrite (proj2 (Z.ltb_ge c 32)) by lia. repeat case_match; try done; lia.
Qed.
Lemma quiet_quote s : plain_text s → quiet (quote s).
Proof.
  intros H. unfold quote. apply (quiet_app [34]); [by apply quiet_plain; repeat constructor|].
  apply quiet_app; [|by apply quiet_plain; repeat constructor].
  unfold plain_text in H. induction H as [|c l Hc _ IH]; [split; [done|set_solver]|]. cbn [map concat].
  apply quiet_app; [by apply quiet_escape|done].
Qed.

(** Texts, lists and records of plain texts. *)
Definition shown (j : json) : Prop :=
  match j with
  | JStr s => plain_text s
  | JArr _ => True
  | JObj l => Forall (λ kv, plain_text kv.1) l
  | _ => False
  end.

Lemma quiet_code c : plain_code c → quiet [c].
Proof. intros H. apply quiet_plain. by constructor. Qed.
Ltac quiet_one := apply quiet_code; unfold plain_code; lia.
Lemma quiet_rows n l : Forall quiet l → quiet (Json.join (44 :: newline n) l).
Proof.
  induction 1 as [|x l Hx _ IH]; [split; [done|set_solver]|]. destruct l as [|y l]; [done|].
  rewrite rows_cons by done. apply quiet_app; [done|]. apply (quiet_app [44]); [quiet_one|].
  apply quiet_app; [apply quiet_newline|done].
Qed.
Lemma quiet_between n a z l : plain_code a → plain_code z → Forall quiet l →
  quiet ([a] ++ newline (S n) ++ Json.join (44 :: newline (S n)) l ++ newline n ++ [z]).
Proof.
  intros Ha Hz Hl. apply quiet_app; [by apply quiet_code|]. apply quiet_app; [apply quiet_newline|].
  apply quiet_app; [by apply quiet_rows|]. apply quiet_app; [apply quiet_newline|by apply quiet_code].
Qed.
Lemma quiet_indent j : every shown j → ∀ n, quiet (print_indent n j).
Proof.
  induction j as [|b|m|lit|s|l IH|l IH] using json_values_ind; intros Hj n; try (by destruct Hj).
  - by apply quiet_quote, Hj.
  - apply every_arr in Hj as [_ Hj]. destruct l as [|x l]; [split; [done|set_solver]|].
    apply quiet_between; [unfold plain_code; lia..|]. apply Forall_map, Forall_forall. intros y Hy.
    rewrite Forall_forall in IH, Hj. by apply IH, Hj.
  - apply every_obj in Hj as [Hk Hj]. destruct l as [|x l]; [split; [done|set_solver]|].
    apply quiet_between; [unfold plain_code; lia..|]. apply Forall_map, Forall_forall. intros y Hy.
    cbn [shown] in Hk. rewrite Forall_forall in IH, Hj, Hk. apply quiet_app; [by apply quiet_quote, Hk|].
    apply (quiet_app [58; 32]); [by apply quiet_plain; repeat constructor|]. by apply IH; [|apply Hj].
Qed.

Lemma every_texts l : Forall plain_text l → every shown (texts l).
Proof.
  intros H. apply every_arr. split; [done|]. apply Forall_map. eapply Forall_impl; [exact H|]. intros s Hs. by split.
Qed.
Lemma every_record l : Forall (λ e, plain_text e.1 ∧ plain_text e.2) l → every shown (text_record l).
Proof.
  intros H. apply every_obj. split; apply Forall_map; (eapply Forall_impl; [exact H|]); intros e [H1 H2]; by try split.
Qed.

(** ** Names *)

Lemma name_like_bytes first rest max l :
  name_like first rest max l = true → ∃ c l', l = c :: l' ∧ first c = true ∧ Forall (λ c, rest c = true) l'.
Proof.
  destruct l as [|c l]; [done|]. cbn. intros H. exists c, l. to_prop. split_and!; [done..|].
  apply Forall_forall. intros b Hb. match goal with H : forallb _ _ = true |- _ => rewrite forallb_forall in H; apply H end.
  by apply list_elem_of_In.
Qed.
Lemma one_of_plain s n : plain_text s → one_of s n = true → plain_code n.
Proof.
  intros H (b & Hb & E)%existsb_exists. apply Z.eqb_eq in E. subst. unfold plain_text in H. rewrite Forall_forall in H.
  by apply H, list_elem_of_In.
Qed.
Lemma mcp_name_plain s : MCP_NAME_RE s = true → plain_text s.
Proof.
  intros (c & l & E & H1 & H2)%name_like_bytes. unfold plain_text. rewrite codes_bytes_eq, E.
  assert (∀ n, upper n || lower n || num n = true → plain_code n) as Hn
    by (intros n; unfold upper, lower, num, in_range, plain_code; cbn [fst snd]; lia).
  constructor; [by apply Hn|]. eapply Forall_impl; [exact H2|]. intros n [H|H]%orb_true_iff; [by apply Hn|].
  apply (one_of_plain "._-"); [by repeat constructor|done].
Qed.
Lemma env_key_plain s : ENV_KEY_RE s = true → plain_text s.
Proof.
  intros (c & l & E & H1 & H2)%name_like_bytes. unfold plain_text. rewrite codes_bytes_eq, E.
  constructor; [|eapply Forall_impl; [exact H2|]; intros n Hn; cbn beta in Hn];
    unfold upper, lower, num, in_range, plain_code in *; cbn [fst snd] in *; lia.
Qed.

(** The scrubbed name of the agent. *)
Lemma points_range l : ∀ k acc, 0 ≤ acc → (acc + 1) * 64 ^ Z.of_nat k ≤ 2 ^ 21 →
  Forall (λ b, 0 ≤ b < 256) l → Forall (λ n, 0 ≤ n < 2 ^ 21) (points k acc l).
Proof.
  induction l as [|b l IH]; intros k acc H0 Hk Hl; cbn [points].
  { destruct k; [constructor|]. constructor; [lia|constructor]. }
  apply Forall_cons in Hl as [Hb Hl]. assert (Hland : ∀ m, 0 ≤ m → 0 ≤ Z.land b (Z.ones m) < 2 ^ m)
    by (intros m Hm; rewrite Z.land_ones by done; apply Z.mod_pos_bound; lia).
  assert (Hnext : 0 ≤ Z.lor (Z.shiftl acc 6) (Z.land b 63) ≤ acc * 64 + 63).
  { pose proof (Z.add_lor_land (Z.shiftl acc 6) (Z.land b 63)) as E. pose proof (Hland 6 ltac:(lia)) as H6.
    change (Z.ones 6) with 63 in H6. rewrite Z.shiftl_mul_pow2 in * by lia.
    assert (0 ≤ Z.land (acc * 2 ^ 6) (Z.land b 63)) by (apply Z.land_nonneg; lia).
    split; [apply Z.lor_nonneg; lia|lia]. }
  destruct (continues b).
  - destruct k as [|[|k]].
    + constructor; [lia|]. apply IH; [lia..|done].
    + change (64 ^ Z.of_nat 1) with 64 in Hk. constructor; [lia|]. apply IH; [lia..|done].
    + apply IH; [lia| |done]. rewrite Nat2Z.inj_succ, Z.pow_succ_r in Hk by lia. nia.
  - apply Forall_app. split; [destruct k; [constructor|constructor; [lia|constructor]]|].
    destruct (b <? 128) eqn:E1; [constructor; [lia|]; apply IH; [lia..|done]|].
    destruct (b <? 224); [apply IH; [|pose proof (Hland 5 ltac:(lia)) as H; change (Z.ones 5) with 31 in H; cbn in *; lia|done]; apply Z.land_nonneg; lia|].
    destruct (b <? 240); [apply IH; [|pose proof (Hland 4 ltac:(lia)) as H; change (Z.ones 4) with 15 in H; cbn in *; lia|done]; apply Z.land_nonneg; lia|].
    apply IH; [apply Z.land_nonneg; lia|pose proof (Hland 3 ltac:(lia)) as H; change (Z.ones 3) with 7 in H; cbn in *; lia|done].
Qed.
Lemma utf8_safe n : 0 ≤ n < 2 ^ 21 → safe_point n = true → Forall (λ b, JsonProofs.byte b ∧ plain_code b) (utf8 n).
Proof.
  intros Hn Hs. unfold safe_point, control_ranges, in_range in Hs. cbn [existsb fst snd] in Hs.
  assert (∀ a, 0 ≤ a mod 64 < 64) as Hm by (intros a; apply Z.mod_pos_bound; lia).
  assert (∀ b, 128 ≤ b < 256 → JsonProofs.byte b ∧ plain_code b) as Hb by (unfold JsonProofs.byte, plain_code; lia).
  pose proof (Hm n). pose proof (Hm (n / 64)). pose proof (Hm (n / 4096)).
  assert (0 ≤ n / 64 ∧ 0 ≤ n / 4096 ∧ 0 ≤ n / 262144) as (? & ? & ?) by (split_and!; apply Z.div_pos; lia).
  unfold utf8. destruct (n <? 128) eqn:E1; [constructor; [unfold JsonProofs.byte, plain_code; lia|constructor]|].
  destruct (n <? 2048) eqn:E2; [assert (n / 64 < 32) by (apply Z.div_lt_upper_bound; lia)|
    destruct (n <? 65536) eqn:E3; [assert (n / 4096 < 16) by (apply Z.div_lt_upper_bound; lia)|
      assert (n / 262144 < 8) by (apply Z.div_lt_upper_bound; lia)]].
  all: repeat (constructor; [apply Hb; lia|]); constructor.
Qed.
Lemma keep_safe_plain name : plain_text (keep_safe name).
Proof.
  assert (Forall (λ b, JsonProofs.byte b ∧ plain_code b)
    (concat (map utf8 (List.filter safe_point (code_points (bytes name)))))) as H.
  { apply Forall_concat, Forall_map, Forall_forall. intros n Hn%list_elem_of_In%filter_In.
    destruct Hn as [Hn Hs]. apply list_elem_of_In in Hn. apply utf8_safe; [|done].
    assert (Forall (λ n, 0 ≤ n < 2 ^ 21) (code_points (bytes name))) as Hr; [|rewrite Forall_forall in Hr; by apply Hr].
    apply points_range; [lia..|]. apply codes_bytes. }
  unfold plain_text, keep_safe. rewrite codes_of_codes; (eapply Forall_impl; [exact H|]); naive_solver.
Qed.

Lemma drop_ws_sub ps n l : ∀ c, c ∈ drop_ws ps n l → c ∈ l.
Proof.
  revert l. induction n as [|n IH]; intros l c; cbn [drop_ws]; [done|]. destruct (strip_any ps l) as [r|] eqn:E; [|done].
  intros Hc%IH. clear IH. induction ps as [|p ps IHp]; [done|]. cbn [strip_any] in E.
  destruct (strip_bytes p l) as [r'|] eqn:E'; [|auto]. injection E as ->.
  apply strip_bytes_app in E' as (h & -> & _). apply elem_of_app. by right.
Qed.
Lemma trim_plain s : plain_text s → plain_text (trim s).
Proof.
  unfold plain_text, codes. rewrite !Forall_map, !Forall_forall. intros H c Hc. apply H.
  unfold trim in Hc. rewrite String.list_ascii_of_string_of_list_ascii in Hc.
  apply list_elem_of_In, in_rev, list_elem_of_In, drop_ws_sub in Hc.
  by apply list_elem_of_In, in_rev, list_elem_of_In, drop_ws_sub in Hc.
Qed.
Lemma slice_plain n s : plain_text s → plain_text (js_slice n s).
Proof.
  unfold plain_text. revert n. induction s as [|c s IH]; intros n; [done|].
  change (codes (String c s)) with (Z.of_nat (nat_of_ascii c) :: codes s). intros [Hc Hs]%Forall_cons.
  assert (∀ x, Forall plain_code (codes x) → Forall plain_code (codes (String c x))) as Hcons
    by (intros x Hx; change (codes (String c x)) with (Z.of_nat (nat_of_ascii c) :: codes x); by constructor).
  cbn [js_slice]. repeat case_match; [by apply Hcons, IH|by constructor| |by apply Hcons, IH..].
  repeat (constructor; [vm_compute; by split_and!|]). constructor.
Qed.
Lemma scrub_plain name : plain_text (scrubDisplayName name).
Proof.
  unfold scrubDisplayName. destruct_if; [by repeat constructor|]. apply slice_plain, trim_plain, keep_safe_plain.
Qed.

(** ** The question *)

Lemma quiet_nl : quiet (codes nl).
Proof. split; [done|set_solver]. Qed.
Lemma quiet_text s : plain_text s → quiet (codes s).
Proof. apply quiet_plain. Qed.
Lemma quiet_concat s1 s2 : quiet (codes s1) → quiet (codes s2) → quiet (codes (s1 +:+ s2)).
Proof. rewrite codes_app. apply quiet_app. Qed.
Lemma quiet_quoted s : plain_text s → quiet (codes (q s)).
Proof.
  intros H. unfold q. apply (quiet_concat (String (ascii_of_nat 34) EmptyString)); [by apply quiet_plain; repeat constructor|].
  apply quiet_concat; [by apply quiet_text|by apply quiet_plain; repeat constructor].
Qed.
Lemma quiet_literal s : calm (codes s) = true → bool_decide (96 ∈ codes s) = false → quiet (codes s).
Proof. intros H1 H2. to_prop. by split. Qed.
Ltac quiet_parts :=
  repeat first [ apply quiet_quoted; assumption | apply quiet_concat | apply quiet_nl | apply quiet_literal; vm_compute; reflexivity ].

(** A question that discloses a payload. *)
Lemma disclosed_question header payload tail :
  quiet (codes header) → every shown payload → wf_json payload → calm (codes tail) = true →
  normalizeCardText (header +:+ FENCE +:+ nl +:+ JSON_stringify_indent payload +:+ nl +:+ FENCE +:+ tail) =
    header +:+ FENCE +:+ nl +:+ JSON_stringify_indent payload +:+ nl +:+ FENCE +:+ tail ∧
  96 ∉ codes header ∧ 96 ∉ codes (JSON_stringify_indent payload) ∧
  JSON_parse (JSON_stringify_indent payload) = Some payload.
Proof.
  intros Hh Hs Hw Ht. assert (quiet (codes (JSON_stringify_indent payload))) as Hb.
  { unfold JSON_stringify_indent. rewrite codes_of_codes by apply indent_bytes. by apply quiet_indent. }
  split_and!; [|apply Hh|apply Hb|by apply indent_roundtrip].
  apply normalize_calm. destruct Hh as [Hh _], Hb as [Hb _], quiet_nl as [Hn _].
  assert (calm (codes FENCE) = true) as Hf by done.
  rewrite !codes_app. by rewrite !calm_app.
Qed.

Definition server_header (agentName : string) (s : Server) : string :=
  "Agent " +:+ q (scrubDisplayName agentName) +:+ " wants to wire a new MCP server into its runtime." +:+ nl +:+
  "This applies to the agent GROUP — it will run in every user's container for this " +:+
  "agent, with the arguments and environment shown below." +:+ nl +:+ nl +:+
  "Exactly this will be written to container.json under mcpServers." +:+ q (sv_name s) +:+ ":" +:+ nl.
Definition packages_header (agentName : string) : string :=
  "Agent " +:+ q (scrubDisplayName agentName) +:+
  " wants to install packages and rebuild its container image." +:+ nl +:+
  "This applies to the agent GROUP — every user of this agent gets the new image." +:+ nl +:+ nl +:+
  "Exactly this will be added to container.json:" +:+ nl.

Record fit_server (s : Server) : Prop := {
  fs_name : plain_text (sv_name s);
  fs_command : plain_text (sv_command s);
  fs_args : Forall plain_text (sv_args s);
  fs_env : Forall (λ e, plain_text e.1 ∧ plain_text e.2) (sv_env s);
  fs_keys : NoDup (map fst (sv_env s)) }.

Lemma parsed_entries text content k v :
  JSON_parse text = Some (JObj content) → obj_get k content = Some v → every keys_ok v.
Proof.
  intros [_ Hk]%parsed_wf Hg. apply every_obj in Hk as [_ Hk]. rewrite Forall_forall in Hk.
  assert (∃ k', (k', v) ∈ content) as [k' Hin]; [|by apply (Hk (k', v))].
  clear Hk. induction content as [|[k0 w] l IH]; [done|]. cbn [obj_get] in Hg. destruct (obj_get k l) as [w'|].
  - destruct (IH Hg) as [k' ?]. exists k'. by right.
  - destruct (bool_decide (k = k0)); [|done]. injection Hg as ->. exists k0. by left.
Qed.
Lemma read_server_fit text content s :
  JSON_parse text = Some (JObj content) → read_server content = FOk s → fit_server s.
Proof.
  intros Hp H. unfold read_server in H. apply fbind_ok in H as (name & Hn & H). apply fbind_ok in H as (command & Hc & H).
  destruct (bool_decide (command = "")); [done|]. apply fbind_ok in H as (args & Ha & H). apply fbind_ok in H as (env & He & H). injection H as <-.
  assert (∀ (f : string → bool) s, mismatch (Some f) s = false → f s = true) as Hm by (intros f s; cbn; by destruct (f s)).
  apply readString_checked in Hn, Hc. apply readStringArray_checked in Ha. apply readStringRecord_checked in He as [He Hk].
  cbn [o_pattern text_opts pattern_opts o_default default] in *. constructor; cbn [sv_name sv_command sv_args sv_env].
  - destruct Hn as [->|[_ Hn]]; [constructor|]. by apply mcp_name_plain, Hm.
  - destruct Hc as [->|[_ Hc]]; [constructor|]. by apply safe_plain, Hm.
  - eapply Forall_impl; [exact Ha|]. intros a Ea. by apply safe_plain, Hm.
  - eapply Forall_impl; [exact He|]. intros e [E1 E2]. split; [by apply env_key_plain, Hm|by apply safe_plain, Hm].
  - destruct Hk as [[_ ->]|Hk]; [constructor|]. unfold present in Hk. destruct (obj_get "env" content) as [v|] eqn:Eg; [|done].
    assert (every keys_ok v) as Hv by (by eapply parsed_entries). destruct v; try done. injection Hk as ->.
    apply every_obj in Hv as [Hv _]. cbn [keys_ok] in Hv. by rewrite map_map in Hv.
Qed.

Lemma wf_texts l : wf_json (texts l).
Proof.
  split; apply every_arr; (split; [done|]); apply Forall_map, Forall_forall; by intros.
Qed.
Lemma wf_record l : NoDup (map fst l) → wf_json (text_record l).
Proof.
  intros H. split; apply every_obj; (split; [|apply Forall_map, Forall_forall; by intros]); [done|].
  cbn [keys_ok]. by rewrite map_map.
Qed.
Ltac each_entry := repeat (constructor; [cbn [snd]; first [assumption | by split]|]); constructor.
Lemma server_entry_wf s : fit_server s → every shown (JObj (server_entry s)) ∧ wf_json (JObj (server_entry s)) ∧ wf_json (server_payload s).
Proof.
  intros [? ? ? ? Hk]. pose proof (wf_texts (sv_args s)) as [? ?]. pose proof (wf_record _ Hk) as [? ?].
  assert (∀ s, plain_text s → every shown (JStr s)) as Hstr by (intros ? ?; by split).
  split_and!.
  - apply every_obj. split; [by repeat constructor|]. repeat (constructor; [cbn [snd]; auto using every_texts, every_record|]). constructor.
  - split; apply every_obj; (split; [|each_entry]); [done|]. cbn. repeat (constructor; [set_solver|]). constructor.
  - split; apply every_obj; (split; [|each_entry]); [done|]. cbn. repeat (constructor; [set_solver|]). constructor.
Qed.
Lemma server_entry_wf_env s : NoDup (map fst (sv_env s)) → wf_json (JObj (server_entry s)).
Proof.
  intros Hk. pose proof (wf_texts (sv_args s)) as [? ?]. pose proof (wf_record _ Hk) as [? ?].
  split; apply every_obj; (split; [|each_entry]); [done|]. cbn. repeat (constructor; [set_solver|]). constructor.
Qed.
Lemma wf_set k v l : wf_json (JObj l) → wf_json v → wf_json (JObj (obj_set k v l)).
Proof.
  rewrite !wf_obj. intros [Hn Hl] Hv. split.
  - rewrite obj_set_keys. destruct_if; to_prop; [done|]. apply NoDup_app. split_and!; [done|set_solver|apply NoDup_singleton].
  - clear Hn. induction l as [|[k' w] l IH]; cbn [obj_set]; [constructor; [done|constructor]|].
    apply Forall_cons in Hl as [H1 H2]. destruct_if; constructor; auto.
Qed.
Lemma server_question_eq agentName s :
  server_question agentName s =
  server_header agentName s +:+ FENCE +:+ nl +:+ JSON_stringify_indent (JObj (server_entry s)) +:+ nl +:+ FENCE.
Proof. unfold server_question, server_header, disclose. by rewrite !sapp_assoc. Qed.
Lemma server_header_quiet agentName s : fit_server s → quiet (codes (server_header agentName s)).
Proof. intros [? ? ? ? ?]. pose proof (scrub_plain agentName). unfold server_header. quiet_parts. Qed.

(** What approving the stored request does to the configuration. *)
Lemma add_server_entry s c servers : cfg_get "mcpServers" c = Some (JObj servers) →
  add_server (server_payload s) c =
  Ok (cfg_set "mcpServers" (Some (JObj (obj_set (sv_name s) (JObj (server_entry s)) servers))) c).
Proof. intros H. unfold add_server, server_payload, server_entry, payload_get. cbn. by rewrite H. Qed.

(** ** Packages *)

Record fit_packages (p : Packages) : Prop := {
  fp_apt : Forall plain_text (pk_apt p);
  fp_npm : Forall plain_text (pk_npm p);
  fp_reason : plain_text (pk_reason p) }.

Lemma apt_plain s : APT_RE s = true → plain_text s.
Proof.
  intros (c & l & E & H1 & H2)%name_like_bytes. unfold plain_text. rewrite codes_bytes_eq, E.
  assert (∀ n, lower n || num n = true → plain_code n) as Hn
    by (intros n; unfold lower, num, in_range, plain_code; cbn [fst snd]; lia).
  constructor; [by apply Hn|]. eapply Forall_impl; [exact H2|]. intros n [H|H]%orb_true_iff; [by apply Hn|].
  apply (one_of_plain "._+-"); [by repeat constructor|done].
Qed.
Lemma npm_name_plain l : npm_name l = true → Forall plain_code l.
Proof.
  intros (c & l' & -> & H1 & H2)%name_like_bytes.
  assert (∀ n, lower n || num n = true → plain_code n) as Hn
    by (intros n; unfold lower, num, in_range, plain_code; cbn [fst snd]; lia).
  constructor; [by apply Hn|]. eapply Forall_impl; [exact H2|]. intros n [H|H]%orb_true_iff; [by apply Hn|].
  apply (one_of_plain "._-"); [by repeat constructor|done].
Qed.
Lemma cut_at_eq c l a b : cut_at c l = Some (a, b) → l = a ++ c :: b.
Proof.
  revert a b. induction l as [|x l IH]; intros a b; cbn [cut_at]; [done|]. destruct (x =? c) eqn:E.
  - intros [= <- <-]. cbn. f_equal. lia.
  - destruct (cut_at c l) as [[a' b']|]; [|done]. cbn. intros [= <- <-]. cbn. f_equal. by apply IH.
Qed.
Lemma npm_plain s : NPM_RE s = true → plain_text s.
Proof.
  unfold NPM_RE, plain_text. change (codes s) with (bytes s). destruct (bytes s) as [|c l]; [done|].
  destruct (decide (c = 64)) as [->|Hc].
  - destruct (cut_at 47 l) as [[a b]|] eqn:E; [|done]. intros [Ha Hb]%andb_true_iff. rewrite (cut_at_eq _ _ _ _ E).
    constructor; [by vm_compute|]. apply Forall_app. split; [by apply npm_name_plain|].
    constructor; [by vm_compute|]. by apply npm_name_plain.
  - intros H. apply npm_name_plain. repeat case_match; try done; congruence.
Qed.
Lemma read_packages_fit content p : read_packages content = FOk p → fit_packages p.
Proof.
  intros H. unfold read_packages in H. apply fbind_ok in H as (apt & Ha & H). apply fbind_ok in H as (npm & Hn & H).
  apply fbind_ok in H as (reason & Hr & H). cbv zeta in H. destruct (_ =? 0); [done|]. destruct (MAX_PACKAGES <? _); [done|].
  injection H as <-. assert (∀ (f : string → bool) s, mismatch (Some f) s = false → f s = true) as Hm by (intros f s; cbn; by destruct (f s)).
  apply readStringArray_checked in Ha, Hn. apply readString_checked in Hr.
  cbn [o_pattern text_opts pattern_opts o_default default] in *. constructor; cbn [pk_apt pk_npm pk_reason].
  - eapply Forall_impl; [exact Ha|]. intros a Ea. by apply apt_plain, Hm.
  - eapply Forall_impl; [exact Hn|]. intros a Ea. by apply npm_plain, Hm.
  - destruct Hr as [->|[_ Hr]]; [constructor|]. by apply safe_plain, Hm.
Qed.
Lemma packages_json_wf p : fit_packages p →
  every shown (packages_json p) ∧ wf_json (packages_json p) ∧ wf_json (packages_payload p).
Proof.
  intros [? ? ?]. pose proof (wf_texts (pk_apt p)) as [? ?]. pose proof (wf_texts (pk_npm p)) as [? ?].
  split_and!.
  - apply every_obj. split; [by repeat constructor|]. repeat (constructor; [cbn [snd]; auto using every_texts|]). constructor.
  - split; apply every_obj; (split; [|each_entry]); [done|]. cbn. repeat (constructor; [set_solver|]). constructor.
  - split; apply every_obj; (split; [|each_entry]); [done|]. cbn. repeat (constructor; [set_solver|]). constructor.
Qed.
Definition reason_tail (p : Packages) : string :=
  if bool_decide (pk_reason p = "") then EmptyString
  else nl +:+ nl +:+ "Reason given by the agent:" +:+ nl +:+ disclose (JStr (pk_reason p)).
Lemma reason_tail_calm p : fit_packages p → calm (codes (reason_tail p)) = true.
Proof.
  intros [_ _ Hr]. unfold reason_tail. destruct_if; [done|]. unfold disclose.
  assert (calm (codes (JSON_stringify_indent (JStr (pk_reason p)))) = true) as Hb.
  { unfold JSON_stringify_indent. rewrite codes_of_codes by apply indent_bytes. by apply quiet_quote. }
  destruct quiet_nl as [Hn _]. assert (calm (codes FENCE) = true) as Hf by done.
  assert (calm (codes "Reason given by the agent:") = true) as Hl by (vm_compute; reflexivity).
  rewrite !codes_app. by rewrite !calm_app.
Qed.
Lemma packages_question_eq agentName p :
  packages_question agentName p =
  packages_header agentName +:+ FENCE +:+ nl +:+ JSON_stringify_indent (packages_json p) +:+ nl +:+ FENCE +:+ reason_tail p.
Proof. unfold packages_question, packages_header, reason_tail, disclose. by rewrite !sapp_assoc. Qed.
Lemma packages_header_quiet agentName : quiet (codes (packages_header agentName)).
Proof. pose proof (scrub_plain agentName). unfold packages_header. quiet_parts. Qed.
Lemma push_list manager payload c l here more :
  payload_get manager payload = Ok (Some (JArr more)) → cfg_get "packages" c = Some (JObj l) →
  obj_get manager l = Some (JArr here) →
  push_packages manager payload c = Ok (cfg_set "packages" (Some (JObj (obj_set manager (JArr (here ++ more)) l))) c).
Proof.
  intros H1 H2 H3. unfold push_packages, packages_of. rewrite H1. cbn [obind jtruthy negb default spread_of].
  rewrite H2. cbn [opt_get]. rewrite H3. done.
Qed.
Lemma add_packages_lists p c a n : cfg_get "packages" c = Some (JObj [("apt", JArr a); ("npm", JArr n)]) →
  add_packages (packages_payload p) c =
  Ok (cfg_set "packages" (Some (JObj [("apt", JArr (a ++ map JStr (pk_apt p))); ("npm", JArr (n ++ map JStr (pk_npm p)))])) c).
Proof.
  intros H. unfold add_packages. erewrite push_list; [|reflexivity|exact H|reflexivity]. cbn [obind].
  erewrite push_list; [|reflexivity|by rewrite cfg_get_set, bool_decide_eq_true_2|reflexivity]. by rewrite cfg_set_twice.
Qed.

(** ** The card *)

Section cards.
Context (GROUPS_DIR DATA_DIR : list string) (turns : nat → Turn) (channel_adapter : string → option ChannelAdapter).

Ltac silent := repeat first [ progress eauto with host | apply sends_bind; [|intros ?] | apply sends_try; [|intros ?] | case_match ].

Lemma sends_wake P id : sends P (wake_cast id).
Proof. by apply sends_quiet. Qed.
Lemma sends_notifyAgent P session text : sends P (notifyAgent DATA_DIR turns session text).
Proof. unfold notifyAgent, write_note. silent; apply sends_wake. Qed.
Lemma sends_ensureUserDm P userId : sends P (ensureUserDm turns channel_adapter userId).
Proof. unfold ensureUserDm, adopt_dm, resolveDmPlatformId. silent. Qed.
Lemma sends_first_reachable P keep approvers : sends P (first_reachable turns channel_adapter keep approvers).
Proof.
  induction approvers as [|u l IH]; cbn [first_reachable]; [auto with host|]. case_match; [|done].
  apply sends_bind; [apply sends_ensureUserDm|]. intros [mg|]; [auto with host|done].
Qed.
Lemma sends_pick P approvers origin : sends P (pickApprovalDelivery turns channel_adapter approvers origin).
Proof.
  unfold pickApprovalDelivery. apply sends_bind; [case_match; [auto with host|apply sends_first_reachable]|].
  intros [target|]; [auto with host|apply sends_first_reachable].
Qed.

(** The card of a request and the row that was put for it just before; an id
    that was used before keeps its row. *)
Definition request_card (opts : RequestApprovalOptions) (s : Sent) : Prop :=
  ∃ row expected db fresh,
    createPendingApproval row db = (Ok fresh, w_db (sn_world s)) ∧
    pa_action row = ra_action opts ∧ pa_payload row = JSON_stringify (ra_payload opts) ∧
    sn_content s = JSON_stringify (ask_question_card (pa_approval_id row) (ra_title opts) (ra_question opts)
                                     APPROVAL_OPTIONS expected).

Lemma bind_ext_at {A B} P (m : hostM A) (k : A → hostM B) h :
  (∀ h, h_sent (m h).2 = h_sent h) → (∀ a h1, m h = (Ok a, h1) → sends_at P (k a) h1) → sends_at P (bind m k) h.
Proof. intros Hq Hk. apply sends_at_bind; [by apply sends_quiet|done]. Qed.
Lemma sends_post_approval opts approver dm :
  sends (request_card opts) (post_approval DATA_DIR turns opts approver dm).
Proof.
  intros h. unfold post_approval. apply bind_ext_at; [done|]. intros now h1 _. apply bind_ext_at; [done|]. intros id h2 _.
  apply bind_ext_at; [intros h0; unfold run; by destruct (central _ _) as [[]]|]. intros fresh h3 E.
  apply run_ok in E as (w & E & ->). apply bind_ext_at; [done|]. intros adapter h4 E4. injection E4 as <- <-.
  case_match; [by apply sends_ret|].
  apply sends_at_bind; [|intros a h5 _; case_match; [apply sends_ret|apply sends_notifyAgent]].
  apply sends_at_try; [|intros; apply sends_ret]. apply sends_at_bind; [|intros; apply sends_ret].
  apply sends_at_deliver. unfold central in E. match type of E with (match ?c with _ => _ end) = _ => destruct c as [[b|e] db'] eqn:Ec end; [|done].
  injection E as <- <-. eexists _, _, _, _. split; [exact Ec|]. by repeat split.
Qed.
Lemma sends_requestApproval opts :
  sends (request_card opts) (requestApproval DATA_DIR turns channel_adapter opts).
Proof.
  unfold requestApproval. apply sends_bind; [auto with host|]. intros [|u l]; [apply sends_notifyAgent|].
  apply sends_bind; [auto with host|]. intros origin. apply sends_bind; [apply sends_pick|].
  intros [[approver dm]|]; [apply sends_post_approval|apply sends_notifyAgent].
Qed.

(** A card whose first fence holds a text that reads back as [shown_]; what the
    channel renders is the question as it stands, and the header and the text
    hold no fence.  Approving the stored request does [apply]. *)
Definition discloses (shown_ : json) (apply : json → ContainerConfig → outcome exn ContainerConfig)
    (done_ : ContainerConfig → option ContainerConfig) (sent : Sent) : Prop :=
  ∃ header body tail title row expected db fresh payload,
    createPendingApproval row db = (Ok fresh, w_db (sn_world sent)) ∧
    let question := header +:+ FENCE +:+ nl +:+ body +:+ nl +:+ FENCE +:+ tail in
    sn_content sent = JSON_stringify (ask_question_card (pa_approval_id row) title question APPROVAL_OPTIONS expected) ∧
    normalizeCardText question = question ∧ 96 ∉ codes header ∧ 96 ∉ codes body ∧
    JSON_parse body = Some shown_ ∧ JSON_parse (pa_payload row) = Some payload ∧
    ∀ c c', done_ c = Some c' → apply payload c = Ok c'.

(** The configuration with the server under its name. *)
Definition with_server (name : string) (entry : json) (c : ContainerConfig) : option ContainerConfig :=
  match cfg_get "mcpServers" c with
  | Some (JObj servers) => Some (cfg_set "mcpServers" (Some (JObj (obj_set name entry servers))) c)
  | _ => None
  end.
(** The configuration with more packages. *)
Definition with_packages (apt npm : list json) (c : ContainerConfig) : option ContainerConfig :=
  match cfg_get "packages" c with
  | Some (JObj [("apt", JArr a); ("npm", JArr n)]) =>
      Some (cfg_set "packages" (Some (JObj [("apt", JArr (a ++ apt)); ("npm", JArr (n ++ npm))])) c)
  | _ => None
  end.


(** the same of a request for packages: the card shows in its first fence
    the packages that approving the stored request appends to those of the
    configuration, and no package or reason can forge a part of the card. *)
Theorem packages_card_shows_what_is_added text content session :
  JSON_parse text = Some (JObj content) →
  sends (λ sent, ∃ apt npm, discloses (JObj [("apt", JArr apt); ("npm", JArr npm)]) add_packages (with_packages apt npm) sent)
    (handleInstallPackages DATA_DIR turns channel_adapter content session).
Proof.
  intros Hp. unfold handleInstallPackages. apply sends_bind; [auto with host|]. intros [g|]; [|apply sends_notifyAgent].
  destruct (read_packages content) as [p|] eqn:Hs; [|apply sends_notifyAgent].
  pose proof (read_packages_fit _ _ Hs) as Hf. destruct (packages_json_wf p Hf) as (H1 & H2 & H3).
  eapply sends_weaken; [|apply sends_requestApproval]. intros sent (row & expected & db & fresh & Hdb & _ & Hpay & Hc).
  destruct (disclosed_question _ _ (reason_tail p) (packages_header_quiet (ag_name g)) H1 H2) as (D1 & D2 & D3 & D4);
    [by apply reason_tail_calm|].
  exists (map JStr (pk_apt p)), (map JStr (pk_npm p)), (packages_header (ag_name g)), (JSON_stringify_indent (packages_json p)),
    (reason_tail p), "Install Packages Request", row, expected, db, fresh, (packages_payload p). split; [done|]. cbv zeta. split_and!; try done.
  - rewrite Hc. cbn [ra_title ra_question]. by rewrite packages_question_eq.
  - rewrite Hpay. by apply json_roundtrip.
  - intros c c'. unfold with_packages. intros E. repeat case_match; try done. injection E as <-. by apply add_packages_lists.
Qed.
End cards.

(** what an approver agreed to is what the agent runs from then on.  After
    the entry of an approved request has been written, the configuration of the
    group reads back with that server under its name, with every other server,
    and with every other property as it was, no other file being touched. *)
Theorem approval_adds_exactly_the_server frac_value GROUPS_DIR folder fs text raw c servers request s :
  plain fs (GROUPS_DIR ++ [folder]) → fs !! configPath GROUPS_DIR folder = Some (NFile text) →
  JSON_parse text = Some (JObj raw) → config_of frac_value raw = Ok c →
  llm_settled frac_value (obj_get "llm" raw) → whole_limits frac_value (obj_get "resources" raw) →
  cfg_get "mcpServers" c = Some (JObj servers) →
  read_server request = FOk s → NoDup (map fst (sv_env s)) →
  ∃ c' fs' c'',
    updateContainerConfig frac_value GROUPS_DIR folder (add_server (server_payload s)) fs = (Ok c', fs') ∧
    (∀ p, p ≠ configPath GROUPS_DIR folder → fs' !! p = fs !! p) ∧
    readContainerConfig frac_value GROUPS_DIR folder fs' = (Ok c'', fs') ∧
    cfg_get "mcpServers" c'' = Some (JObj (obj_set (sv_name s) (JObj (server_entry s)) servers)) ∧
    ∀ k, k ≠ "mcpServers" → cfg_get k c'' = cfg_get k c.
Proof.
  intros Hd Ef Hp E Hs Hw Hm Hr Hk. pose proof (parsed_wf _ _ Hp) as Hraw. apply wf_obj in Hraw as Hn; destruct Hn as [Hn _].
  pose proof (config_wf frac_value raw c E Hraw Hs "mcpServers") as Hmw. rewrite Hm in Hmw. cbn [wf_opt] in Hmw.
  pose proof (config_get frac_value raw c E Hn) as (Hcn & _).
  set (servers' := obj_set (sv_name s) (JObj (server_entry s)) servers).
  assert (wf_json (JObj servers')) as Hmw'.
  { apply wf_set; [done|]. apply server_entry_wf_env. done. }
  destruct (update_reread frac_value GROUPS_DIR folder fs text raw (add_server (server_payload s)) c
              (cfg_set "mcpServers" (Some (JObj servers')) c)) as (H1 & c'' & H2 & H3 & H4); try done.
  - by apply add_server_entry.
  - by apply cfg_set_NoDup.
  - intros k. rewrite cfg_get_set. destruct_if; auto.
  - by rewrite cfg_get_set.
  - eexists _, _, c''. split_and!; [exact H1| |exact H2| |].
    + intros p Hne. by rewrite lookup_insert_ne.
    + rewrite H4, cfg_get_set, bool_decide_eq_true_2 by done. done.
    + intros k Hne. apply H3. by rewrite cfg_get_set, bool_decide_eq_false_2.
Qed.

Definition asked : string :=
  JSON_stringify (JObj [("name", JStr "git"); ("command", JStr "npx"); ("args", texts ["-y"; "git-mcp"]);
                        ("apt", texts ["jq"])]).
Definition asked_fields : list (string * json) :=
  Eval vm_compute in match JSON_parse asked with Some (JObj l) => l | _ => [] end.

Lemma packages_card_witness :
  JSON_parse asked = Some (JObj asked_fields) ∧
  ∃ sent, h_sent (handleInstallPackages ["data"] still tg_adapter asked_fields s0 acting_host).2 = [sent] ∧
    ∃ apt npm, discloses (JObj [("apt", JArr apt); ("npm", JArr npm)]) add_packages (with_packages apt npm) sent.
Proof.
  assert (JSON_parse asked = Some (JObj asked_fields)) as E by (vm_compute; reflexivity). split; [exact E|].
  destruct (packages_card_shows_what_is_added ["data"] still tg_adapter asked asked_fields s0 E acting_host) as (l & El & Hl).
  destruct (h_sent (handleInstallPackages ["data"] still tg_adapter asked_fields s0 acting_host).2) as [|sent [|other rest]] eqn:E2;
    [vm_compute in E2; discriminate| |vm_compute in E2; discriminate].
  exists sent. split; [reflexivity|]. rewrite Forall_forall in Hl. apply Hl. change (h_sent acting_host) with (@nil Sent) in El.
  cbn [app] in El. rewrite <-El. left.
Defined.

(** The configuration of a new group, and a limit on its network. *)
Definition config_file : string := config_text (cfg_set "network" (Some (JStr "none")) emptyConfig).
Definition some_number (_ : string) : Q := 1 # 2.
Definition group_files : gmap (list string) node :=
  {[ ["groups"] := NDir; ["groups"; "desk"] := NDir; ["groups"; "desk"; "container.json"] := NFile config_file ]}.
Definition config_raw : list (string * json) :=
  Eval vm_compute in match JSON_parse config_file with Some (JObj l) => l | _ => [] end.
Definition config_read : ContainerConfig :=
  Eval vm_compute in match config_of some_number config_raw with Ok c => c | Throw _ => [] end.
Definition git_server : Server := mkServer "git" "npx" ["-y"; "git-mcp"] [].

Lemma adds_server_witness :
  readContainerConfig some_number ["groups"] "desk" group_files = (Ok config_read, group_files) ∧
  ∃ c' fs' c'',
    updateContainerConfig some_number ["groups"] "desk" (add_server (server_payload git_server)) group_files = (Ok c', fs') ∧
    (∀ p, p ≠ ["groups"; "desk"; "container.json"] → fs' !! p = group_files !! p) ∧
    readContainerConfig some_number ["groups"] "desk" fs' = (Ok c'', fs') ∧
    cfg_get "mcpServers" c'' = Some (JObj [("git", JObj (server_entry git_server))]) ∧
    ∀ k, k ≠ "mcpServers" → cfg_get k c'' = cfg_get k config_read.
Proof.
  split; [vm_compute; reflexivity|].
  apply (approval_adds_exactly_the_server some_number ["groups"] "desk" group_files config_file config_raw config_read []
           asked_fields git_server); try (vm_compute; reflexivity).
  - split; [|split; set_solver]. intros p c q E. destruct p as [|x [|y [|z p]]]; simplify_eq/=; vm_compute; reflexivity.
  - left. vm_compute. reflexivity.
  - intros k lit _ H. vm_compute in H. discriminate.
  - constructor.
Defined.
