(* ===== verification/Canonical.v ===== *)
(** * Canonical JSON (container/agent-runner/src/mcp-tools/gateway.ts)

    The text that is hashed for the audit and for the key of a write: JSON with
    the keys of every object sorted.  Two values have the same text when, and
    only when, they are equal up to the order of their keys. *)
From Stdlib Require Import Sorted Ascii.
From stdpp Require Import sorting.
From S2P Require Import Prelude JsString Json JsonProofs SafeText.

Local Open Scope Z_scope.
Local Open Scope list_scope.

(** ** The order of texts *)

(** UTF-16, from the code points. *)
Definition utf16 (n : Z) : list Z :=
  if n <? 0x10000 then [n] else [0xD800 + (n - 0x10000) / 1024; 0xDC00 + (n - 0x10000) mod 1024].
Definition units (s : string) : list Z := concat (map utf16 (code_points (bytes s))).

Fixpoint lex_le (a b : list Z) : bool :=
  match a, b with
  | [], _ => true
  | _ :: _, [] => false
  | x :: a', y :: b' => (x <? y) || ((x =? y) && lex_le a' b')
  end.
(** The order of [Array.prototype.sort], by UTF-16 units.  (Texts that are no
    UTF-8 can have the same units; their bytes decide then.) *)
Definition text_le (a b : string) : bool :=
  if bool_decide (units a = units b) then lex_le (bytes a) (bytes b) else lex_le (units a) (units b).

Lemma lex_refl a : lex_le a a = true.
Proof. induction a as [|x a IH]; cbn; [done|]. by rewrite Z.ltb_irrefl, Z.eqb_refl, IH. Qed.
Lemma lex_total a b : lex_le a b = true ∨ lex_le b a = true.
Proof.
  revert b. induction a as [|x a IH]; intros [|y b]; cbn; auto.
  rewrite !orb_true_iff, !andb_true_iff, !Z.ltb_lt, !Z.eqb_eq. destruct (IH b); lia || (destruct (Z.lt_trichotomy x y) as [?|[->|?]]; auto).
Qed.
Lemma lex_trans a b c : lex_le a b = true → lex_le b c = true → lex_le a c = true.
Proof.
  revert b c. induction a as [|x a IH]; intros [|y b] [|z c]; cbn; try done.
  rewrite !orb_true_iff, !andb_true_iff, !Z.ltb_lt, !Z.eqb_eq. intros [?|[-> ?]] [?|[-> ?]]; [left; lia|auto..|]. right; eauto.
Qed.
Lemma lex_antisym a b : lex_le a b = true → lex_le b a = true → a = b.
Proof.
  revert b. induction a as [|x a IH]; intros [|y b]; cbn; try done.
  rewrite !orb_true_iff, !andb_true_iff, !Z.ltb_lt, !Z.eqb_eq. intros [?|[-> ?]] [?|[? ?]]; [lia..|]. f_equal; auto.
Qed.
Lemma bytes_inj a b : bytes a = bytes b → a = b.
Proof.
  unfold bytes. intros H. rewrite <-(String.string_of_list_ascii_of_string a), <-(String.string_of_list_ascii_of_string b).
  f_equal. revert H. generalize (String.list_ascii_of_string b). induction (String.list_ascii_of_string a) as [|c l IH]; intros [|d m]; try done.
  cbn. intros [= H1%Nat2Z.inj H2]. f_equal; [|by apply IH].
  by rewrite <-(ascii_nat_embedding c), <-(ascii_nat_embedding d), H1.
Qed.
(** What sorting by a key needs of the order of the keys. *)
Class TextOrder (le : string → string → bool) := mkTextOrder {
  order_total a b : le a b = true ∨ le b a = true;
  order_antisym a b : le a b = true → le b a = true → a = b;
  order_trans a b c : le a b = true → le b c = true → le a c = true }.

(** The order of SQLite's texts, by bytes. *)
Definition byte_le (a b : string) : bool := lex_le (bytes a) (bytes b).
#[export] Instance byte_order : TextOrder byte_le.
Proof.
  split; unfold byte_le.
  - intros a b. apply lex_total.
  - intros a b H1 H2. by apply bytes_inj, lex_antisym.
  - intros a b c. apply lex_trans.
Qed.
#[export] Instance text_order : TextOrder text_le.
Proof.
  split; unfold text_le.
  - intros a b. destruct (decide (units a = units b)) as [E|E].
    + rewrite !bool_decide_eq_true_2 by done. apply lex_total.
    + rewrite !bool_decide_eq_false_2 by done. apply lex_total.
  - intros a b. destruct (decide (units a = units b)) as [E|E].
    + rewrite !bool_decide_eq_true_2 by done. intros H1 H2. by apply bytes_inj, lex_antisym.
    + rewrite !bool_decide_eq_false_2 by done. intros H1 H2. by destruct E; apply lex_antisym.
  - intros a b c H1 H2.
    destruct (decide (units a = units b)) as [E1|E1]; [rewrite bool_decide_eq_true_2 in H1 by done|rewrite bool_decide_eq_false_2 in H1 by done];
    (destruct (decide (units b = units c)) as [E2|E2]; [rewrite bool_decide_eq_true_2 in H2 by done|rewrite bool_decide_eq_false_2 in H2 by done]).
    + rewrite bool_decide_eq_true_2 by congruence. by eapply lex_trans.
    + rewrite bool_decide_eq_false_2 by congruence. by rewrite E1.
    + rewrite bool_decide_eq_false_2 by congruence. by rewrite <-E2.
    + rewrite bool_decide_eq_false_2; [by eapply lex_trans|]. intros E. destruct E1. apply lex_antisym; congruence.
Qed.

(** ** Sorting by key *)

Section sort.
Context (le : string → string → bool) {A : Type}.
Definition key_le (x y : string * A) : Prop := le x.1 y.1 = true.

Fixpoint insert_key (x : string * A) (l : list (string * A)) : list (string * A) :=
  match l with
  | [] => [x]
  | y :: l' => if le x.1 y.1 then x :: l else y :: insert_key x l'
  end.
Definition sort_entries (l : list (string * A)) : list (string * A) := foldr insert_key [] l.

Lemma insert_key_perm x l : insert_key x l ≡ₚ x :: l.
Proof. induction l as [|y l IH]; cbn; [done|]. destruct_if; [done|]. rewrite IH. apply perm_swap. Qed.
Lemma sort_perm l : sort_entries l ≡ₚ l.
Proof. induction l as [|x l IH]; cbn; [done|]. by rewrite insert_key_perm, IH. Qed.
Context `{HO : !TextOrder le}.
Lemma insert_key_sorted x l : StronglySorted key_le l → StronglySorted key_le (insert_key x l).
Proof using HO.
  induction 1 as [|y l Hl IH Hy]; cbn; [repeat constructor|]. destruct (le x.1 y.1) eqn:E.
  - constructor; [by constructor|]. constructor; [done|].
    eapply Forall_impl; [exact Hy|]. intros z Hz. by eapply order_trans.
  - constructor; [done|]. assert (Forall (key_le y) (x :: l)) as H; [|by rewrite <-insert_key_perm in H].
    constructor; [|done]. unfold key_le. destruct (order_total (le:=le) x.1 y.1); congruence.
Qed.
Lemma sort_sorted l : StronglySorted key_le (sort_entries l).
Proof using HO. induction l as [|x l IH]; cbn; [constructor|]. by apply insert_key_sorted. Qed.

(** The entries of an object, in whatever order they stand. *)
Lemma sort_unique l1 l2 : NoDup (map fst l1) → l1 ≡ₚ l2 → sort_entries l1 = sort_entries l2.
Proof using HO.
  intros Hn E. eapply (StronglySorted_unique_strong key_le); [|apply sort_sorted..|by rewrite !sort_perm].
  intros [k x] [k' y] H1 H2 H3 H4. rewrite sort_perm in H1, H2. rewrite <-E in H2. cbn in *.
  pose proof (order_antisym k k' H3 H4) as <-. f_equal.
  apply elem_of_Permutation in H1 as [l' H1]. rewrite H1 in Hn, H2. cbn in Hn. apply NoDup_cons in Hn as [Hn _].
  apply elem_of_cons in H2 as [H2|H2]; [congruence|]. destruct Hn. apply list_elem_of_fmap. by exists (k, y).
Qed.
End sort.
Lemma insert_key_map le {A B} (f : string * A → B) x l :
  map (λ kv, (kv.1, f kv)) (insert_key le x l) = insert_key le (x.1, f x) (map (λ kv, (kv.1, f kv)) l).
Proof. induction l as [|y l IH]; cbn; [done|]. destruct_if; cbn; [done|]. by rewrite IH. Qed.
Lemma sort_map le {A B} (f : string * A → B) l :
  sort_entries le (map (λ kv, (kv.1, f kv)) l) = map (λ kv, (kv.1, f kv)) (sort_entries le l).
Proof. unfold sort_entries. induction l as [|x l IH]; cbn; [done|]. by rewrite insert_key_map, IH. Qed.

(** ** The text *)

(** On values that came out of [JSON.parse]: they hold no [undefined] and no
    cycle. *)
(*@ src/container/agent-runner/src/mcp-tools/gateway.ts 315-334 canonicalJSON *)
Fixpoint canonical (value : json) : chars :=
  match value with
  | JArr l => [91] ++ join [44] (map canonical l) ++ [93]
  | JObj l =>
      [123] ++ join [44] (map snd (sort_entries text_le (map (λ kv, (kv.1, quote kv.1 ++ [58] ++ canonical kv.2)) l))) ++ [125]
  | v => print_json v
  end.
Definition canonicalJSON (value : json) : string := of_codes (canonical value).

(** The value with its keys in order, everywhere. *)
Fixpoint sort_keys (value : json) : json :=
  match value with
  | JArr l => JArr (map sort_keys l)
  | JObj l => JObj (sort_entries text_le (map (λ kv, (kv.1, sort_keys kv.2)) l))
  | v => v
  end.

(** Equal up to the order of keys: the same keys, with equal values, and arrays
    element by element. *)
Fixpoint deep_equal (a b : json) : Prop :=
  match a, b with
  | JArr l, JArr m =>
      (fix go l m := match l, m with
                     | [], [] => True
                     | x :: l', y :: m' => deep_equal x y ∧ go l' m'
                     | _, _ => False
                     end) l m
  | JObj l, JObj m =>
      (∀ k, k ∈ map fst m → k ∈ map fst l) ∧
      foldr (λ kv P, (∃ w, obj_get kv.1 m = Some w ∧ deep_equal kv.2 w) ∧ P) True l
  | _, _ => a = b
  end.

Example canonical_ex :
  canonicalJSON (JObj [("b", JNum 1); ("a", JArr [JObj [("y", JNull); ("x", JStr "z")]])]) =
  JSON_stringify (JObj [("a", JArr [JObj [("x", JStr "z"); ("y", JNull)]]); ("b", JNum 1)]).
Proof. vm_compute. done. Qed.

(** It is the text of the sorted value. *)
Lemma canonical_prints_sorted v : canonical v = print_json (sort_keys v).
Proof.
  induction v as [| | | | |l IH|l IH] using json_values_ind; try done; cbn.
  - do 3 f_equal. rewrite map_map. apply map_ext_Forall. exact IH.
  - do 3 f_equal. rewrite (sort_map text_le (λ kv, quote kv.1 ++ [58] ++ canonical kv.2)), (sort_map text_le (λ kv, sort_keys kv.2)), !map_map.
    apply map_ext_Forall. rewrite sort_perm. eapply Forall_impl; [exact IH|]. cbn. by intros [k v] ->.
Qed.

Lemma sort_keys_fst l : map fst (sort_entries text_le (map (λ kv, (kv.1, sort_keys kv.2)) l)) ≡ₚ map fst l.
Proof. rewrite (sort_map text_le (λ kv, sort_keys kv.2)), map_map. cbn. by rewrite sort_perm. Qed.
Lemma sort_keys_wf v : wf_json v → wf_json (sort_keys v).
Proof.
  unfold wf_json. induction v as [| | | | |l IH|l IH] using json_values_ind; try done; cbn [sort_keys].
  - rewrite !every_arr, !Forall_map. intros [[_ H1] [_ H2]]. rewrite Forall_forall in IH, H1, H2.
    split; (split; [done|]); apply Forall_forall; intros x Hx; by destruct (IH x Hx) as [??]; [split; auto|].
  - rewrite !every_obj. intros [[_ H1] [Hn H2]].
    rewrite Forall_forall in IH, H1, H2. assert (∀ Q, (∀ kv : string * json, kv ∈ l → Q (sort_keys kv.2)) →
      Forall (λ kv, Q kv.2) (sort_entries text_le (map (λ kv, (kv.1, sort_keys kv.2)) l))) as Hall.
    { intros Q HQ. rewrite sort_perm, Forall_map. by apply Forall_forall. }
    split; (split; [|apply Hall; intros x Hx; by destruct (IH x Hx) as [??]; [split; auto|]]); [done|].
    cbn. by rewrite sort_keys_fst.
Qed.
Lemma canonical_parses v : wf_json v → JSON_parse (canonicalJSON v) = Some (sort_keys v).
Proof.
  intros H. unfold canonicalJSON. rewrite canonical_prints_sorted. fold (JSON_stringify (sort_keys v)).
  by apply json_roundtrip, sort_keys_wf.
Qed.

Lemma deep_equal_arr l m : deep_equal (JArr l) (JArr m) ↔ Forall2 deep_equal l m.
Proof.
  revert m. induction l as [|x l IH]; intros [|y m]; cbn.
  - split; [constructor|done].
  - split; [done|]. by intros ?%Forall2_nil_cons_inv.
  - split; [done|]. by intros ?%Forall2_cons_nil_inv.
  - rewrite Forall2_cons. specialize (IH m). cbn in IH. by rewrite IH.
Qed.
Lemma deep_equal_obj l m :
  deep_equal (JObj l) (JObj m) ↔
  (∀ k, k ∈ map fst m → k ∈ map fst l) ∧ ∀ k v, (k, v) ∈ l → ∃ w, obj_get k m = Some w ∧ deep_equal v w.
Proof.
  cbn. apply and_iff_compat_l. induction l as [|[k v] l IH]; cbn; [split; [by intros _ ?? ?%elem_of_nil|done]|].
  rewrite IH. split.
  - intros [H1 H2] k' v' [[= -> ->]|H]%elem_of_cons; auto.
  - intros H. split; [apply (H k v); left|]. intros k' v' Hin. apply H. by right.
Qed.
Lemma obj_get_in l k : NoDup (map fst l) → ∀ v, obj_get k l = Some v ↔ (k, v) ∈ l.
Proof.
  induction l as [|[k' w] l IH]; cbn; [intros _ v; split; [done|by intros ?%elem_of_nil]|].
  intros [Hk Hn]%NoDup_cons v. specialize (IH Hn). rewrite elem_of_cons.
  destruct (obj_get k l) as [x|] eqn:E.
  - rewrite IH. split; [by right|]. intros [[= -> ->]|H]; [|done]. destruct Hk.
    apply list_elem_of_fmap. exists (k', x). split; [done|]. by apply IH.
  - destruct_if; to_prop.
    + subst. split; [intros [= ->]; by left|]. intros [[= ->]|H]; [done|]. by apply IH in H.
    + split; [done|]. intros [[= -> ->]|H]; [done|by apply IH in H].
Qed.

Lemma sorted_deep_equal a : ∀ b, every keys_ok a → every keys_ok b → (sort_keys a = sort_keys b ↔ deep_equal a b).
Proof.
  induction a as [|b0|n0|lit0|s0|l IH|l IH] using json_values_ind; intros b Ha Hb.
  1-5: by (destruct b; cbn; split; congruence).
  - destruct b as [| | | | |m|m]; try by (cbn; split; congruence). rewrite deep_equal_arr.
    apply every_arr in Ha as [_ Ha], Hb as [_ Hb]. cbn.
    transitivity (map sort_keys l = map sort_keys m); [split; congruence|].
    revert m Hb. induction l as [|x l IHl]; intros [|y m] Hb; cbn; try (split; [done|]).
    + constructor.
    + by intros ?%Forall2_nil_cons_inv.
    + by intros ?%Forall2_cons_nil_inv.
    + rewrite Forall_cons in *. rewrite Forall2_cons. destruct IH as [IHx IH], Ha as [Hx Ha], Hb as [Hy Hb].
      rewrite <-(IHx y Hx Hy), <-(IHl IH Ha m Hb). split; [intros [= -> ->]; done|intros [-> ->]; done].
  - destruct b as [| | | | |m|m]; try by (cbn; split; congruence). rewrite deep_equal_obj.
    apply every_obj in Ha as [Hn Ha], Hb as [Hm Hb]. cbn in Hn, Hm. cbn [sort_keys].
    set (f := λ kv : string * json, (kv.1, sort_keys kv.2)).
    rewrite Forall_forall in IH, Ha, Hb.
    assert (∀ k v w, (k, v) ∈ l → (k, w) ∈ m → sort_keys v = sort_keys w ↔ deep_equal v w) as IH'.
    { intros k v w Hv Hw. apply (IH (k, v)); [done|by apply (Ha (k, v))|by apply (Hb (k, w))]. }
    assert (∀ l, map fst (map f l) = map fst l) as Hf by (intros x; rewrite map_map; done).
    transitivity (map f l ≡ₚ map f m).
    { split; [|intros E; f_equal; apply (sort_unique text_le); [by rewrite Hf|done]].
      intros [= E]. by rewrite <-(sort_perm text_le (map f l)), E, sort_perm. }
    split.
    + intros E. split.
      * intros k Hk. rewrite <-Hf in Hk |- *. by rewrite E.
      * intros k v Hv. assert ((k, sort_keys v) ∈ map f m) as Hin.
        { rewrite <-E. apply list_elem_of_fmap. by exists (k, v). }
        apply list_elem_of_fmap in Hin as ([k' w] & [= <- Ew] & Hw). exists w.
        split; [by apply obj_get_in|]. by apply (IH' k).
    + intros [Hk Hv]. apply NoDup_Permutation.
      * apply (NoDup_fmap_1 fst). change (NoDup (map fst (map f l))). by rewrite Hf.
      * apply (NoDup_fmap_1 fst). change (NoDup (map fst (map f m))). by rewrite Hf.
      * intros [k x]. rewrite !list_elem_of_fmap. split.
        -- intros ([k' v] & [= -> ->] & Hin). destruct (Hv _ _ Hin) as (w & Hw & Hd). apply obj_get_in in Hw; [|done].
           exists (k', w). split; [|done]. unfold f. cbn. f_equal. by apply (IH' k').
        -- intros ([k' w] & [= -> ->] & Hin). assert (k' ∈ map fst l) as Hl by (apply Hk, list_elem_of_fmap; by exists (k', w)).
           apply list_elem_of_fmap in Hl as ([k'' v] & -> & Hl). cbn in *. destruct (Hv _ _ Hl) as (w' & Hw' & Hd).
           apply obj_get_in in Hw'; [|done]. exists (k'', v). split; [|done]. unfold f. cbn. f_equal.
           assert (w = w') as -> ; [|symmetry; by apply (IH' k'')].
           apply obj_get_in in Hin, Hw'; [|done..]. congruence.
Qed.

(** C22: two values have the same canonical text if and only if they are equal up
    to the order of the keys of their objects, at every depth: the hash of an
    audit row, and the key of a write, depend on nothing else, and two requests
    that differ anywhere are two texts. *)
Theorem canonical_iff_deep_equal a b :
  wf_json a → wf_json b → canonicalJSON a = canonicalJSON b ↔ deep_equal a b.
Proof.
  intros Ha Hb. rewrite <-(sorted_deep_equal a b (proj2 Ha) (proj2 Hb)). split.
  - intros E. apply (f_equal JSON_parse) in E. rewrite !canonical_parses in E by done. congruence.
  - intros E. unfold canonicalJSON. by rewrite !canonical_prints_sorted, E.
Qed.
Definition order_one : json := JObj [("item", JStr "bolt"); ("n", JNum 2); ("to", JObj [("zip", JNum 1); ("city", JStr "Ulm")])].
Definition order_two : json := JObj [("n", JNum 2); ("to", JObj [("city", JStr "Ulm"); ("zip", JNum 1)]); ("item", JStr "bolt")].
Lemma canonical_witness :
  (wf_json order_one ∧ wf_json order_two ∧ order_one ≠ order_two) ∧ canonicalJSON order_one = canonicalJSON order_two.
Proof.
  assert (wf_json order_one) as H1 by (split; cbn; repeat constructor; set_solver).
  assert (wf_json order_two) as H2 by (split; cbn; repeat constructor; set_solver).
  split; [split; [exact H1|split; [exact H2|discriminate]]|].
  apply (canonical_iff_deep_equal order_one order_two H1 H2). unfold order_one, order_two.
  repeat (cbn; first [progress (split; [set_solver|]) | split; [eexists; split; [reflexivity|]|] | done]).
Defined.
