(* ===== verification/McpTools.v ===== *)
(** * The other tools of a container
    (container/agent-runner/src/mcp-tools/: core.ts, scheduling.ts, interactive.ts,
    agents.ts, self-mod.ts, roster.ts, classify-intent.ts)

    A tool checks its arguments, asks the routing gate, and writes one row to the
    outbound database.  The tools run in a process of their own: what the poll
    loop knows of the turn is in the other.

    An argument the source casts ([args.text as string]) is taken to have the type
    its input schema names, or to be missing; those it checks can be any value. *)
From Stdlib Require Import Ascii QArith.
From stdpp Require Import gmap pretty.
From S2P Require Import Prelude JsString Json JsonProofs SafeText Types Central SessionDb ContainerDb Fs Formatter RequestIdentity Runner GatewayTools.

Local Open Scope string_scope.
Local Open Scope Z_scope.
Local Open Scope list_scope.
Local Open Scope prog_scope.

(** [args.key as string], as text; missing reads as the empty text where only
    that is asked. *)
Definition cast_text (args : fields) (key : string) : option string := jstring (obj_get key args).
Definition cast_or_empty (args : fields) (key : string) : string := default "" (cast_text args key).
(** [typeof args.key === 'string' ? args.key.trim() : ''] *)
Definition trimmed_arg (args : fields) (key : string) : string := trim (cast_or_empty args key).
(** [(args.key as string) || null] *)
Definition text_or_none (args : fields) (key : string) : option string := getString args key.
(** [x ?? null] where [x] may be the JSON null. *)
Definition nullish (v w : option json) : option json :=
  match v with Some JNull | None => w | _ => v end.

(** ** Destinations *)

(** [args.to], looked up, and what it stands for. *)
Record Resolved := mkResolved {
  rs_channel_type : option string;
  rs_platform_id : option string;
  rs_thread_id : option string;
  rs_resolvedName : string }.
(*@ src/container/agent-runner/src/db/session-routing.ts 19-30 getSessionRouting *)
Definition getSessionRouting (inb : InboundDb) : Routing := default (mkRouting None None None) (session_routing inb).
Definition names_of (all : list DestinationEntry) : string := String.concat ", " (map dn_name all).
(*@ src/container/agent-runner/src/mcp-tools/core.ts 37-41 destinationList *)
Definition destinationList (inb : InboundDb) : string :=
  match getAllDestinations inb with [] => "(none)" | all => names_of all end.
(*@ src/container/agent-runner/src/mcp-tools/core.ts 79-94 resolveRouting *)
Definition named_routing (inb : InboundDb) (to : string) : string + Resolved :=
  match findByName to inb with
  | None => inl ("Unknown destination " +:+ of_quoted to +:+ ". Known: " +:+ destinationList inb)
  | Some dest =>
      if bool_decide (dn_type dest = TargetChannel) then
        let session := getSessionRouting inb in
        let same := sql_eq (ro_channel_type session) (dn_channelType dest) &&
                    sql_eq (ro_platform_id session) (dn_platformId dest) in
        inr (mkResolved (dn_channelType dest) (dn_platformId dest) (if same then ro_thread_id session else None) to)
      else inr (mkResolved (Some "agent") (dn_agentGroupId dest) None to)
  end.
(*@ src/container/agent-runner/src/mcp-tools/core.ts 54-95 resolveRouting *)
Definition resolveRouting (inb : InboundDb) (to : option string) : string + Resolved :=
  match truthy_text to with
  | Some to => named_routing inb to
  | None =>
      let session := getSessionRouting inb in
      if truthy (ro_channel_type session) && truthy (ro_platform_id session)
      then inr (mkResolved (ro_channel_type session) (ro_platform_id session) (ro_thread_id session) "(current conversation)")
      else match getAllDestinations inb with
           | [] => inl "No destinations configured."
           | [d] => named_routing inb (dn_name d)
           | all => inl ("You have multiple destinations — specify " +:+ of_quoted "to" +:+ ". Options: " +:+ names_of all)
           end
  end.

(** ** The process *)

(** The tools see the files of the container besides. *)
Record Box := mkBox { bx_runner : Runner; bx_files : gmap (list string) node }.
Notation boxM A := (prog Box exn A).
Definition on_run {A} (m : runM A) : boxM A := λ b,
  match m (bx_runner b) with (res, r) => (res, mkBox r (bx_files b)) end.
Definition on_files {A} (m : fsM A) : boxM A := λ b,
  match m (bx_files b) with (res, fs) => (res, mkBox (bx_runner b) fs) end.

(** [path.join] of names: the empty ones and the dots go. *)
Fixpoint path_names (acc : list string) (segments : list string) : list string :=
  match segments with
  | [] => acc
  | s :: rest =>
      if bool_decide (s = "") || bool_decide (s = ".") then path_names acc rest
      else if bool_decide (s = "..") then path_names (removelast acc) rest
      else path_names (acc ++ [s]) rest
  end.
Definition path_below (dir : list string) (name : string) : list string := path_names dir (split_on "/" name).
(** An absolute path is taken as it is. *)
(*@ src/container/agent-runner/src/mcp-tools/core.ts 195-195 resolvedPath *)
Definition resolved_path (filePath : string) : list string :=
  if startsWith filePath "/" then List.filter (λ s, negb (bool_decide (s = ""))) (split_on "/" filePath)
  else path_below ["workspace"; "agent"] filePath.

Section tools.
(** The ids of the process; what Date and Intl make of a time; [Number] of a value,
    if that is an integer; the value of a fraction, and a value in two digits. *)
Context (generateId : string → nat → string) (parseZonedToUtc : string → option string)
  (to_integer : json → option Z) (frac_value : string → Q) (toFixed2 : Q → string) (confidenceThreshold : option Q).

Definition newId (prefix : string) : runM string := λ r,
  (Ok (generateId prefix (rn_fresh r)), set_rn_fresh (S (rn_fresh r)) r).
Definition put (msg : WriteMessageOut) : runM Z := on_outbound (λ now inb, writeMessageOut now inb msg).
Definition err (text : string) : runM ToolResult := ret (ToolErr ("Error: " +:+ text)).
Definition ok (text : string) : runM ToolResult := ret (ToolOk text).
Definition reads {A} (f : InboundDb → A) : runM A := gets (λ r, f (rn_inbound r)).
(** A row of kind [system], to no chat, with what is asked of the host. *)
Definition put_action (id : string) (content : fields) : runM Z :=
  put (mkWriteMessageOut id None None None "system" None None None (JSON_stringify (JObj content)) None).
Definition refused_text (reason : string) : string :=
  "Enforced routing decision rejected this destination (" +:+ reason +:+ ").".

(** ** core.ts *)

(** What the gate decided, or what was asked for, or, to an agent, what this
    process last classified. *)
(*@ src/container/agent-runner/src/mcp-tools/core.ts 136-140 classificationId *)
Definition send_classification (args : fields) (routing : Resolved) (decisionId current : option string) : option string :=
  match decisionId with
  | Some d => Some d
  | None => match getString args "classificationId" with
            | Some c => Some c
            | None => if bool_decide (rs_channel_type routing = Some "agent") then current else None
            end
  end.
Definition with_classification (classificationId : option string) : fields :=
  if truthy classificationId then jfield "_classificationId" classificationId else [].
(** A row of kind [chat] to a destination, in the name of this process. *)
Definition put_chat (id : string) (routing : Resolved) (content : fields) : runM Z :=
  let* vars := gets rn_tools in
  put (mkWriteMessageOut id (mv_inReplyTo vars) None None "chat" (rs_platform_id routing) (rs_channel_type routing)
         (rs_thread_id routing) (JSON_stringify (JObj content))
         (a2aOriginUserId (mv_identity vars) (default "" (rs_channel_type routing)))).
(** [enforceRoutingDestination], its refusal reported. *)
Definition gated (channelType platformId threadId : option string) (k : option string → runM ToolResult) : runM ToolResult :=
  let* gate := enforceRoutingDestination channelType platformId threadId in
  match gate with ERefused _ reason => err (refused_text reason) | EAllowed decisionId => k decisionId end.
Definition gated_opaque (refusal : string → string) (k : runM ToolResult) : runM ToolResult :=
  let* gate := enforceRoutingOpaqueOutbound in
  match gate with ERefused _ reason => err (refusal reason) | EAllowed _ => k end.

(*@ src/container/agent-runner/src/mcp-tools/core.ts 120-161 sendMessage *)
Definition sendMessage (args : fields) : runM ToolResult :=
  let text := cast_or_empty args "text" in
  if bool_decide (text = "") then err "text is required"
  else
    let* routing := reads (λ inb, resolveRouting inb (cast_text args "to")) in
    match routing with
    | inl error => err error
    | inr routing =>
        gated (rs_channel_type routing) (rs_platform_id routing) (rs_thread_id routing) (λ decisionId,
          let* current := gets (λ r, mv_classificationId (rn_tools r)) in
          let classificationId := send_classification args routing decisionId current in
          let* id := newId "msg" in
          let* seq := put_chat id routing (("text", JStr text) :: with_classification classificationId) in
          ok ("Message sent to " +:+ rs_resolvedName routing +:+ " (id: " +:+ pretty seq +:+ ")"))
    end.

(** The file is put into the outbox of the message, under its name. *)
(*@ src/container/agent-runner/src/mcp-tools/core.ts 201-203 outboxDir *)
Definition put_in_outbox (id : string) (source : list string) (filename : string) : fsM unit :=
  let outboxDir := path_below ["workspace"; "outbox"] id in
  mkdirp outboxDir ;; copy_file source (path_below outboxDir filename).
(*@ src/container/agent-runner/src/mcp-tools/core.ts 186-232 sendFile *)
Definition sendFile (args : fields) : boxM ToolResult :=
  let filePath := cast_or_empty args "path" in
  if bool_decide (filePath = "") then on_run (err "path is required")
  else
    let* routing := on_run (reads (λ inb, resolveRouting inb (cast_text args "to"))) in
    match routing with
    | inl error => on_run (err error)
    | inr routing =>
        let* gate := on_run (enforceRoutingDestination (rs_channel_type routing) (rs_platform_id routing) (rs_thread_id routing)) in
        match gate with
        | ERefused _ reason => on_run (err (refused_text reason))
        | EAllowed decisionId =>
            let resolvedPath := resolved_path filePath in
            let* there := gets (λ b, existsSync (bx_files b) resolvedPath) in
            if negb there then on_run (err ("File not found: " +:+ filePath))
            else
              let* id := on_run (newId "msg") in
              let filename := default (basename resolvedPath) (text_or_none args "filename") in
              on_files (put_in_outbox id resolvedPath filename) ;;
              let* current := gets (λ b, mv_classificationId (rn_tools (bx_runner b))) in
              let classificationId := send_classification args routing decisionId current in
              let* _ := on_run (put_chat id routing
                ([("text", JStr (cast_or_empty args "text")); ("files", JArr [JStr filename])] ++ with_classification classificationId)) in
              on_run (ok ("File sent to " +:+ rs_resolvedName routing +:+ " (id: " +:+ id +:+ ", filename: " +:+ filename +:+ ")"))
        end
    end.

(** The platform id of a message and the chat it went to. *)
Definition with_target (args : fields) (required : string) (value : string) (k : Z → string → Routing → runM ToolResult)
    : runM ToolResult :=
  match obj_get "messageId" args ≫= to_integer with
  | Some seq =>
      if (seq =? 0) || bool_decide (value = "") then err required
      else
        let* r := gets (λ r, (getMessageIdBySeq (rn_inbound r) (rn_outbound r) seq,
                              getRoutingBySeq (rn_inbound r) (rn_outbound r) seq)) in
        match truthy_text r.1, r.2 with
        | None, _ => err ("Message #" +:+ pretty seq +:+ " not found")
        | Some platformId, Some routing =>
            if truthy (ro_channel_type routing) && truthy (ro_platform_id routing) then k seq platformId routing
            else err ("Cannot determine destination for message #" +:+ pretty seq)
        | Some _, None => err ("Cannot determine destination for message #" +:+ pretty seq)
        end
  | None => err required
  end.
(** A row to the chat of that message, which says what to do with it. *)
Definition put_operation (routing : Routing) (content : fields) : runM Z :=
  let* id := newId "msg" in
  put (mkWriteMessageOut id None None None "chat" (ro_platform_id routing) (ro_channel_type routing) (ro_thread_id routing)
         (JSON_stringify (JObj content)) None).
(*@ src/container/agent-runner/src/mcp-tools/core.ts 248-275 editMessage *)
Definition editMessage (args : fields) : runM ToolResult :=
  let text := cast_or_empty args "text" in
  with_target args "messageId and text are required" text (λ seq platformId routing,
    gated (ro_channel_type routing) (ro_platform_id routing) (ro_thread_id routing) (λ _,
      let* _ := put_operation routing [("operation", JStr "edit"); ("messageId", JStr platformId); ("text", JStr text)] in
      ok ("Message edit queued for #" +:+ pretty seq))).
(*@ src/container/agent-runner/src/mcp-tools/core.ts 291-318 addReaction *)
Definition addReaction (args : fields) : runM ToolResult :=
  let emoji := cast_or_empty args "emoji" in
  with_target args "messageId and emoji are required" emoji (λ seq platformId routing,
    gated (ro_channel_type routing) (ro_platform_id routing) (ro_thread_id routing) (λ _,
      let* _ := put_operation routing [("operation", JStr "reaction"); ("messageId", JStr platformId); ("emoji", JStr emoji)] in
      ok ("Reaction queued for #" +:+ pretty seq))).

(** ** scheduling.ts *)

Definition no_deferred (reason : string) : string :=
  "Enforced routing decision forbids scheduling a deferred turn (" +:+ reason +:+ ").".
(** The content of the row that schedules a task. *)
(*@ src/container/agent-runner/src/mcp-tools/scheduling.ts 94-104 content *)
Definition task_request (id prompt processAfter : string) (script recurrence : option string) (r : Routing) : fields :=
  [("action", JStr "schedule_task"); ("taskId", JStr id); ("prompt", JStr prompt); ("script", jopt script);
   ("processAfter", JStr processAfter); ("recurrence", jopt recurrence); ("platformId", jopt (ro_platform_id r));
   ("channelType", jopt (ro_channel_type r)); ("threadId", jopt (ro_thread_id r))].
(*@ src/container/agent-runner/src/mcp-tools/scheduling.ts 58-109 scheduleTask *)
Definition scheduleTask (args : fields) : runM ToolResult :=
  match getString args "prompt", getString args "processAfter" with
  | Some prompt, Some processAfterIn =>
      gated_opaque no_deferred (
        match parseZonedToUtc processAfterIn with
        | None => err ("invalid processAfter: " +:+ processAfterIn)
        | Some processAfter =>
            let* id := newId "task" in
            let* r := reads getSessionRouting in
            let recurrence := text_or_none args "recurrence" in
            let* _ := put (mkWriteMessageOut id None None None "system" (ro_platform_id r) (ro_channel_type r) (ro_thread_id r)
              (JSON_stringify (JObj (task_request id prompt processAfter (text_or_none args "script") recurrence r))) None) in
            ok ("Task scheduled (id: " +:+ id +:+ ", runs at: " +:+ processAfter +:+
                match recurrence with Some c => ", recurrence: " +:+ c | None => "" end +:+ ")")
        end)
  | _, _ => err "prompt and processAfter are required"
  end.
Definition task_action (action said : string) (args : fields) : runM ToolResult :=
  match getString args "taskId" with
  | None => err "taskId is required"
  | Some taskId =>
      let* id := newId "sys" in
      let* _ := put_action id [("action", JStr action); ("taskId", JStr taskId)] in
      ok ("Task " +:+ said +:+ " requested: " +:+ taskId)
  end.
(*@ src/container/agent-runner/src/mcp-tools/scheduling.ts 190-203 cancelTask *)
Definition cancelTask : fields → runM ToolResult := task_action "cancel_task" "cancellation".
(*@ src/container/agent-runner/src/mcp-tools/scheduling.ts 218-230 pauseTask *)
Definition pauseTask : fields → runM ToolResult := task_action "pause_task" "pause".
(*@ src/container/agent-runner/src/mcp-tools/scheduling.ts 245-257 resumeTask *)
Definition resumeTask : fields → runM ToolResult := task_action "resume_task" "resume".

(** A text sets the field, an empty one clears it. *)
Definition clearable (key : string) (args : fields) : fields :=
  match obj_get key args with
  | Some (JStr s) => [(key, if bool_decide (s = "") then JNull else JStr s)]
  | _ => []
  end.
(** The fields given, or the time that is none. *)
(*@ src/container/agent-runner/src/mcp-tools/scheduling.ts 300-313 update *)
Definition task_update (args : fields) : string + fields :=
  let rest := clearable "recurrence" args ++ clearable "script" args in
  let prompt := match obj_get "prompt" args with Some (JStr s) => [("prompt", JStr s)] | _ => [] end in
  match obj_get "processAfter" args with
  | Some (JStr t) => match parseZonedToUtc t with
                     | None => inl ("invalid processAfter: " +:+ t)
                     | Some t => inr (prompt ++ [("processAfter", JStr t)] ++ rest)
                     end
  | _ => inr (prompt ++ rest)
  end.
(*@ src/container/agent-runner/src/mcp-tools/scheduling.ts 286-325 updateTask *)
Definition updateTask (args : fields) : runM ToolResult :=
  match getString args "taskId" with
  | None => err "taskId is required"
  | Some taskId =>
      gated_opaque no_deferred (
        match task_update args with
        | inl error => err error
        | inr [] => err "at least one field to update is required"
        | inr update =>
            let* id := newId "sys" in
            let* _ := put_action id ([("action", JStr "update_task"); ("taskId", JStr taskId)] ++ update) in
            ok ("Task update requested: " +:+ taskId)
        end)
  end.

(** ** interactive.ts *)

(** An option of a question: a text, or an object whose parts default to its
    label. *)
(*@ src/container/agent-runner/src/mcp-tools/interactive.ts 92-100 options *)
Definition question_option (o : json) : runM json :=
  match o with
  | JStr s => ret (JObj [("label", JStr s); ("selectedLabel", JStr s); ("value", JStr s)])
  | JNull => throw (Err "TypeError")
  | JObj l =>
      let label := obj_get "label" l in
      let part k v := match v with Some v => [(k, v)] | None => [] end in
      ret (JObj (part "label" label ++ part "selectedLabel" (nullish (obj_get "selectedLabel" l) label) ++
                 part "value" (nullish (obj_get "value" l) label)))
  | _ => ret (JObj [])
  end.
Fixpoint question_options (l : list json) : runM (list json) :=
  match l with
  | [] => ret []
  | o :: l' => let* o := question_option o in let* os := question_options l' in ret (o :: os)
  end.
(** What a question ends with: a text, or whatever option the host wrote. *)
Inductive Answer := Told (r : ToolResult) | Chosen (v : option json).
(** The checks of a second each: what the clock and inbound.db are by then.  The
    call waits when the checks end before its time does. *)
(*@ src/container/agent-runner/src/mcp-tools/interactive.ts 133-161 askUserQuestion *)
Fixpoint wait_for_answer (questionId : string) (deadline : time) (timed_out : string) (checks : list (time * InboundDb))
    : runM (option Answer) :=
  match checks with
  | [] => ret None
  | (now, inb) :: checks' =>
      modify (host_moves now inb) ;;
      if deadline <=? now then ret (Some (Told (ToolErr ("Error: " +:+ timed_out))))
      else
        let* response := gets (λ r, findQuestionResponse (rn_inbound r) (rn_outbound r) questionId) in
        match response with
        | None => wait_for_answer questionId deadline timed_out checks'
        | Some response =>
            match JSON_parse (mi_content response) with
            | None => throw (Err "SyntaxError")
            | Some parsed =>
                on_outbound (λ now _, markCompleted now [mi_id response]) ;;
                match jget "cancelled" parsed, jget "selectedOption" parsed with
                | AValue cancelled, AValue selected =>
                    if (match cancelled with Some (JBool true) => true | _ => false end) || bool_decide (jstring selected = Some "__cancelled__")
                    then ret (Some (Told (ToolOk "__cancelled__ — the user withdrew this request. Stop and roll back if needed; do not proceed or retry.")))
                    else ret (Some (Chosen selected))
                | _, _ => throw (Err "TypeError")
                end
            end
        end
  end.
(** The content of the card. *)
(*@ src/container/agent-runner/src/mcp-tools/interactive.ts 110-117 contentObj *)
Definition question_content (questionId title question : string) (options : list json) (classificationId : option string) : fields :=
  [("type", JStr "ask_question"); ("questionId", JStr questionId); ("title", JStr title); ("question", JStr question);
   ("options", JArr options)] ++ with_classification classificationId.
(** [timeoutMs] is the time to wait, given or not, and [timeoutText] how it is
    reported. *)
(*@ src/container/agent-runner/src/mcp-tools/interactive.ts 83-162 askUserQuestion *)
Definition askUserQuestion (timeoutMs : Z) (timeoutText : string) (checks : list (time * InboundDb)) (args : fields)
    : runM (option Answer) :=
  let told (m : runM ToolResult) : runM (option Answer) := let* r := m in ret (Some (Told r)) in
  match getString args "title", getString args "question", obj_get "options" args with
  | Some title, Some question, Some (JArr ((_ :: _) as rawOptions)) =>
      let* options := question_options rawOptions in
      let* questionId := newId "msg" in
      let* r := reads getSessionRouting in
      let* gate := enforceRoutingDestination (ro_channel_type r) (ro_platform_id r) (ro_thread_id r) in
      match gate with
      | ERefused _ reason => told (err (refused_text reason))
      | EAllowed decisionId =>
          let classificationId := match decisionId with Some d => Some d | None => getString args "classificationId" end in
          let* _ := put (mkWriteMessageOut questionId None None None "chat-sdk" (ro_platform_id r) (ro_channel_type r)
            (ro_thread_id r) (JSON_stringify (JObj (question_content questionId title question options classificationId))) None) in
          let* now := gets rn_now in
          wait_for_answer questionId (now + timeoutMs) ("Question timed out after " +:+ timeoutText +:+ "s") checks
      end
  | _, _, _ => told (err "title, question, and options are required")
  end.
(*@ src/container/agent-runner/src/mcp-tools/interactive.ts 181-208 sendCard *)
Definition sendCard (args : fields) : runM ToolResult :=
  match obj_get "card" args with
  | Some card =>
      if negb (jtruthy (Some card)) then err "card is required"
      else
        let* id := newId "msg" in
        let* r := reads getSessionRouting in
        gated (ro_channel_type r) (ro_platform_id r) (ro_thread_id r) (λ decisionId,
          let* _ := put (mkWriteMessageOut id None None None "chat-sdk" (ro_platform_id r) (ro_channel_type r) (ro_thread_id r)
            (JSON_stringify (JObj ([("type", JStr "card"); ("card", card); ("fallbackText", JStr (cast_or_empty args "fallbackText"))]
               ++ with_classification decisionId))) None) in
          ok ("Card sent (id: " +:+ id +:+ ")"))
  | None => err "card is required"
  end.

(** ** agents.ts *)

(*@ src/container/agent-runner/src/mcp-tools/agents.ts 45-63 createAgent *)
Definition createAgent (args : fields) : runM ToolResult :=
  match getString args "name" with
  | None => err "name is required"
  | Some name =>
      let* requestId := newId "msg" in
      let* _ := put_action requestId [("action", JStr "create_agent"); ("requestId", JStr requestId); ("name", JStr name);
                                      ("instructions", jopt (text_or_none args "instructions"))] in
      ok ("Creating agent " +:+ of_quoted name +:+ ". You will be notified when it is ready.")
  end.

(** ** self-mod.ts *)

(*@ src/container/agent-runner/src/mcp-tools/self-mod.ts 54-54 MAX_PACKAGES *)
Definition MAX_PACKAGES : Z := 20.
(*@ src/container/agent-runner/src/mcp-tools/self-mod.ts 69-71 MAX_ARGS *)
Definition MAX_ARGS : Z := 32.
Definition MAX_ENV_ENTRIES : Z := 32.
Definition MAX_FIELD_LEN : Z := 512.
(** The first thing wrong with the items from index [i] on. *)
Fixpoint check_items (label : string) (re : string → bool) (maxLen i : Z) (l : list json) : option string :=
  match l with
  | [] => None
  | item :: l' =>
      let at_i := label +:+ "[" +:+ pretty i +:+ "]" in
      match item with
      | JStr s =>
          if maxLen <? js_length s then Some (at_i +:+ " exceeds " +:+ pretty maxLen +:+ " characters")
          else if negb (re s) then Some (at_i +:+ " contains a disallowed character")
          else check_items label re maxLen (i + 1) l'
      | _ => Some (at_i +:+ " must be a string")
      end
  end.
(*@ src/container/agent-runner/src/mcp-tools/self-mod.ts 74-86 checkStrings *)
Definition checkStrings (label : string) (value : json) (re : string → bool) (maxLen : Z) : option string :=
  match value with
  | JArr l => if MAX_ARGS <? Z.of_nat (length l) then Some (label +:+ " may hold at most " +:+ pretty MAX_ARGS +:+ " entries")
              else check_items label re maxLen 0 l
  | _ => Some (label +:+ " must be an array of strings")
  end.
(** What is wrong with a request for packages, or its parts. *)
(*@ src/container/agent-runner/src/mcp-tools/self-mod.ts 111-124 installPackages *)
Definition check_packages (args : fields) : string + (json * json * string) :=
  let apt := default (JArr []) (obj_get "apt" args) in
  let npm := default (JArr []) (obj_get "npm" args) in
  match apt, npm with
  | JArr a, JArr n =>
      let count := Z.of_nat (length a) + Z.of_nat (length n) in
      if count =? 0 then inl "At least one apt or npm package is required"
      else if MAX_PACKAGES <? count then inl ("Maximum " +:+ pretty MAX_PACKAGES +:+ " packages per request")
      else
        match checkStrings "apt" apt APT_RE 128, checkStrings "npm" npm NPM_RE 128 with
        | Some bad, _ => inl (bad +:+ ". Only lowercase letters, digits, and ._+- allowed.")
        | None, Some bad => inl (bad +:+ ". No version specs or shell characters.")
        | None, None =>
            match default (JStr "") (obj_get "reason" args) with
            | JStr reason =>
                if negb (SAFE_TEXT_RE reason) then inl "reason must not contain newlines, backticks, or bidi characters"
                else if 1024 <? js_length reason then inl "reason exceeds 1024 characters"
                else inr (apt, npm, reason)
            | _ => inl "reason must be a string"
            end
        end
  | _, _ => inl "apt and npm must be arrays of strings"
  end.
(*@ src/container/agent-runner/src/mcp-tools/self-mod.ts 130-135 content *)
Definition packages_request (p : json * json * string) : fields :=
  [("action", JStr "install_packages"); ("apt", p.1.1); ("npm", p.1.2); ("reason", JStr p.2)].
(*@ src/container/agent-runner/src/mcp-tools/self-mod.ts 110-140 installPackages *)
Definition installPackages (args : fields) : runM ToolResult :=
  match check_packages args with
  | inl error => err error
  | inr p =>
      let* requestId := newId "msg" in
      let* _ := put_action requestId (packages_request p) in
      ok "Package install request submitted. You will be notified when admin approves or rejects."
  end.

Fixpoint check_env (l : fields) : option string :=
  match l with
  | [] => None
  | (k, v) :: l' =>
      if negb (ENV_KEY_RE k) then Some ("env key " +:+ of_quoted k +:+ " must match [A-Za-z_][A-Za-z0-9_]*")
      else match v with
           | JStr s =>
               if (MAX_FIELD_LEN <? js_length s) || negb (SAFE_TEXT_RE s)
               then Some ("env." +:+ k +:+ " must be under " +:+ pretty MAX_FIELD_LEN +:+ " chars with no control or bidi characters")
               else check_env l'
           | _ => Some ("env." +:+ k +:+ " must be a string")
           end
  end.
(** What is wrong with a request for a server, or its name, command, arguments
    and environment. *)
(*@ src/container/agent-runner/src/mcp-tools/self-mod.ts 160-182 addMcpServer *)
Definition check_server (args : fields) : string + (string * string * json * fields) :=
  match obj_get "name" args, obj_get "command" args with
  | Some (JStr name), Some (JStr command) =>
      if bool_decide (name = "") || bool_decide (command = "") then inl "name and command are required"
      else if negb (MCP_NAME_RE name) then inl "name must be 1-64 chars of letters, digits, and ._- (no spaces or newlines)"
      else if (256 <? js_length command) || negb (SAFE_TEXT_RE command)
      then inl "command must be under 256 chars with no newlines, backticks, or bidi characters"
      else
        let mcpArgs := default (JArr []) (obj_get "args" args) in
        match checkStrings "args" mcpArgs SAFE_TEXT_RE MAX_FIELD_LEN with
        | Some bad => inl (bad +:+ ". No newlines, backticks, or bidi characters.")
        | None =>
            match default (JObj []) (obj_get "env" args) with
            | JObj env =>
                if MAX_ENV_ENTRIES <? Z.of_nat (length env)
                then inl ("env may hold at most " +:+ pretty MAX_ENV_ENTRIES +:+ " variables")
                else match check_env env with Some bad => inl bad | None => inr (name, command, mcpArgs, env) end
            | _ => inl "env must be an object"
            end
        end
  | _, _ => inl "name and command must be strings"
  end.
(*@ src/container/agent-runner/src/mcp-tools/self-mod.ts 188-194 content *)
Definition server_request (s : string * string * json * fields) : fields :=
  [("action", JStr "add_mcp_server"); ("name", JStr s.1.1.1); ("command", JStr s.1.1.2); ("args", s.1.2); ("env", JObj s.2)].
(*@ src/container/agent-runner/src/mcp-tools/self-mod.ts 159-199 addMcpServer *)
Definition addMcpServer (args : fields) : runM ToolResult :=
  match check_server args with
  | inl error => err error
  | inr s =>
      let* requestId := newId "msg" in
      let* _ := put_action requestId (server_request s) in
      ok "MCP server request submitted. You will be notified when admin approves or rejects."
  end.

(** ** roster.ts *)

(*@ src/container/agent-runner/src/mcp-tools/roster.ts 69-93 sendRosterDm *)
Definition sendRosterDm (args : fields) : runM ToolResult :=
  let slot := trimmed_arg args "slot" in
  let text := cast_or_empty args "text" in
  if bool_decide (slot = "") then err "slot is required — the roster slot label of a consented recipient (see your roster-slots list)"
  else if bool_decide (trim text = "") then err "text is required"
  else gated_opaque refused_text (
    let* id := newId "roster" in
    let* _ := put (mkWriteMessageOut id None None None "roster" None None None
                     (JSON_stringify (JObj [("slot", JStr slot); ("text", JStr text)])) None) in
    ok ("Roster DM queued for slot " +:+ of_quoted slot +:+ ". The platform will deliver it only if that slot has a live consent grant " +:+
        "(and roster DM is enabled); the recipient's identity is not shown to you. Still reply to the user normally.")).
(*@ src/container/agent-runner/src/mcp-tools/roster.ts 124-151 inviteToRoster *)
Definition inviteToRoster (args : fields) : runM ToolResult :=
  let member := trimmed_arg args "member" in
  let slotLabel := trimmed_arg args "slot_label" in
  if bool_decide (member = "") then err "member is required — the open_id (ou_…) of the person to invite"
  else if bool_decide (slotLabel = "") then err "slot_label is required — the roster slot to register them under"
  else gated_opaque refused_text (
    let* id := newId "roster" in
    let* _ := put_action id [("action", JStr "roster.invite"); ("member", JStr member); ("slotLabel", JStr slotLabel)] in
    ok ("Invite queued for slot " +:+ of_quoted slotLabel +:+ ". The platform will post a consent card; a slot becomes usable only if " +:+
        "that person opts in. Their identity is not shown to you, and the platform may decline the invite. " +:+
        "Still reply to the user normally.")).

(** ** classify-intent.ts *)

(*@ src/container/agent-runner/src/mcp-tools/classify-intent.ts 64-65 DEFAULT_CLARIFY_THRESHOLD *)
Definition DEFAULT_CLARIFY_THRESHOLD : Q := frac_value "0.7".
Definition MODERATE_CEILING : Q := frac_value "0.85".
Definition Qltb (a b : Q) : bool := negb (Qle_bool b a).
(** A number between 0 and 1. *)
Definition in_unit (c : Q) : bool := negb (Qltb c 0) && negb (Qltb 1 c).
(*@ src/container/agent-runner/src/mcp-tools/classify-intent.ts 74-96 confidenceAdvisory *)
Definition confidenceAdvisory (confidence : Q) (candidateCount : nat) (clarifyBelow : Q) : string :=
  let t := toFixed2 clarifyBelow in
  if negb (in_unit confidence) then "Invalid confidence — treat this as low and ask the user to clarify."
  else
  if (candidateCount =? 0)%nat then "No candidate workers identified — ask the user to clarify or reject politely."
  else if (1 <? candidateCount)%nat && Qltb confidence clarifyBelow
  then "Multiple plausible workers and confidence below " +:+ t +:+ " — call ask_user_question before delegating."
  else if Qltb confidence clarifyBelow
  then "Confidence below " +:+ t +:+ " — call ask_user_question before delegating."
  else if Qltb confidence MODERATE_CEILING
  then "Confidence is moderate. Delegate, but consider adding a brief one-line confirmation in your reply so the user can catch a misroute."
  else "High confidence — delegate directly.".
(*@ src/container/agent-runner/src/mcp-tools/classify-intent.ts 100-106 clarifyThreshold *)
Definition clarifyThreshold : Q := default DEFAULT_CLARIFY_THRESHOLD confidenceThreshold.

Definition confidence_of (v : option json) : option Q :=
  let value := match v with Some (JNum n) => Some (inject_Z n) | Some (JFrac lit) => Some (frac_value lit) | _ => None end in
  match value with
  | Some c => if in_unit c then Some c else None
  | None => None
  end.
(** [Array.from(new Set(l))] *)
Fixpoint distinct (l : list string) : list string :=
  match l with
  | [] => []
  | x :: l' => x :: List.filter (λ y, negb (bool_decide (y = x))) (distinct l')
  end.
(** The texts of an array that are not empty. *)
Definition text_items (v : option json) : list string :=
  match v with
  | Some (JArr l) => omap (λ i, match i with JStr s => if bool_decide (s = "") then None else Some s | _ => None end) l
  | _ => []
  end.
(** Where the turn is, as this process knows it. *)
(*@ src/container/agent-runner/src/mcp-tools/classify-intent.ts 217-223 content *)
Definition context_fields (identity : option RequestIdentity) : fields :=
  [("userId", jopt (identity ≫= ri_userId)); ("channelType", jopt (identity ≫= ri_channelType));
   ("platformId", jopt (identity ≫= ri_platformId)); ("threadId", jopt (identity ≫= ri_threadId))].
(*@ src/container/agent-runner/src/mcp-tools/classify-intent.ts 157-254 classifyIntent *)
Definition classifyIntent (args : fields) : runM ToolResult :=
  let* routingGate := getRoutingGate in
  match routingGate with
  | Some gate => err ("This turn was already classified by enforced controller routing (decision " +:+ rg_decisionId gate +:+ "). " +:+
                      "Follow the injected action without calling classify_intent again.")
  | None =>
      let userMessage := cast_or_empty args "userMessage" in
      let recommendedWorker := getString args "recommendedWorker" in
      match cast_text args "action" ≫= action_of with
      | None => err "action must be one of delegate | clarify | reject | answer_self"
      | Some action =>
          if bool_decide (userMessage = "") then err "userMessage is required"
          else
            match confidence_of (obj_get "confidence" args), obj_get "confidence" args with
            | Some confidence, Some confidenceRaw =>
                let* dest := reads (λ inb, recommendedWorker ≫= λ w, findByName w inb) in
                let known := match recommendedWorker with
                             | None => true
                             | Some _ => match dest with Some d => negb (bool_decide (dn_type d = TargetChannel)) | None => false end
                             end in
                if negb known
                then err ("recommendedWorker " +:+ of_quoted (default "" recommendedWorker) +:+
                          " is not a known agent destination. Use one of your configured worker names, or omit this field if you won't be delegating.")
                else
                  let* identity := gets (λ r, mv_identity (rn_tools r)) in
                  let* classificationId := newId "cls" in
                  let distinctCandidates := distinct (option_list recommendedWorker ++ text_items (obj_get "candidates" args)) in
                  let* id := newId "classify" in
                  let* _ := put_action id
                    ([("action", JStr "classify_intent"); ("classificationId", JStr classificationId)] ++ context_fields identity ++
                     [("userMessage", JStr (js_slice 500 userMessage)); ("recommendedWorker", jopt recommendedWorker);
                      ("confidence", confidenceRaw); ("candidates", JArr (map JStr distinctCandidates));
                      ("reasoning", jopt (cast_text args "reasoning")); ("action_taken", JStr (action_text action))]) in
                  setCurrentClassificationId (Some classificationId) ;;
                  ok (confidenceAdvisory confidence (length distinctCandidates) clarifyThreshold +:+ newline +:+ newline +:+
                      "classificationId: " +:+ classificationId +:+ " (auto-attached to your next outbound; you don't need to quote it back).")
            | _, _ => err "confidence must be a finite number in [0, 1]"
            end
      end
  end.
(*@ src/container/agent-runner/src/mcp-tools/classify-intent.ts 292-316 escalateToHuman *)
Definition escalateToHuman (args : fields) : runM ToolResult :=
  let reason := trimmed_arg args "reason" in
  if bool_decide (reason = "") then err "reason is required to escalate"
  else
    let urgency := default "medium" (cast_text args "urgency") in
    let* identity := gets (λ r, mv_identity (rn_tools r)) in
    let* id := newId "classify" in
    let* _ := put_action id ([("action", JStr "escalate")] ++ context_fields identity ++
                             [("escalation_reason", JStr (js_slice 500 reason)); ("urgency_level", JStr urgency)]) in
    ok ("Escalation recorded (urgency: " +:+ urgency +:+
        "). A person will be brought in per your operator’s routing — let the user know you’re handing off to a human.").
(*@ src/container/agent-runner/src/mcp-tools/classify-intent.ts 364-393 reportRoutingFeedback *)
Definition reportRoutingFeedback (args : fields) : runM ToolResult :=
  let kind := cast_or_empty args "kind" in
  if negb (bool_decide (kind ∈ ["misroute"; "nack"])) then err "kind must be 'misroute' or 'nack'"
  else
    let slice n s := if bool_decide (s = "") then None else Some (js_slice n s) in
    let* vars := gets rn_tools in
    let* id := newId "classify" in
    let* _ := put_action id ([("action", JStr "routing_feedback"); ("feedback_kind", JStr kind)] ++ context_fields (mv_identity vars) ++
      [("classificationId", jopt (mv_classificationId vars)); ("feedback_reason", jopt (slice 500 (trimmed_arg args "reason")));
       ("suggested_target", jopt (slice 120 (trimmed_arg args "suggestedTarget")))]) in
    ok ("Routing feedback recorded (" +:+ kind +:+
        "). The platform will NOT reroute this — still reply to the user or hand the turn back so the request isn't dropped.").

(** ** server.ts *)

(** The tools by name; [send_file] needs the files and [ask_user_question] waits. *)
(*@ src/container/agent-runner/src/mcp-tools/server.ts 54-65 registerTools *)
Definition registered : list (string * (fields → runM ToolResult)) :=
  [("send_message", sendMessage); ("edit_message", editMessage); ("add_reaction", addReaction);
   ("schedule_task", scheduleTask); ("update_task", updateTask); ("cancel_task", cancelTask); ("pause_task", pauseTask);
   ("resume_task", resumeTask); ("send_card", sendCard); ("create_agent", createAgent);
   ("install_packages", installPackages); ("add_mcp_server", addMcpServer); ("classify_intent", classifyIntent);
   ("escalate_to_human", escalateToHuman); ("report_routing_feedback", reportRoutingFeedback);
   ("send_roster_dm", sendRosterDm); ("invite_to_roster", inviteToRoster)].
(** A call: of a tool by its name, of [send_file], or of [ask_user_question] with
    what happens while it waits.  What is thrown is the caller's answer. *)
Inductive ToolCall :=
| CallTool (name : string) (args : fields)
| CallSendFile (args : fields)
| CallAsk (timeoutMs : Z) (timeoutText : string) (checks : list (time * InboundDb)) (args : fields).
(*@ src/container/agent-runner/src/mcp-tools/server.ts 106-111 startMcpServer *)
Definition call_tool (c : ToolCall) : boxM unit :=
  match c with
  | CallTool name args =>
      match List.find (λ t, bool_decide (t.1 = name)) registered with
      | Some t => let* _ := on_run (t.2 args) in ret tt
      | None => ret tt
      end
  | CallSendFile args => let* _ := sendFile args in ret tt
  | CallAsk timeoutMs timeoutText checks args => let* _ := on_run (askUserQuestion timeoutMs timeoutText checks args) in ret tt
  end.
Fixpoint call_tools (calls : list ToolCall) : boxM unit :=
  match calls with
  | [] => ret tt
  | c :: calls' => try_catch (call_tool c) (λ _, ret tt) ;; call_tools calls'
  end.
End tools.
