(* ===== verification/McpToolsProofs.v ===== *)
(** * What the tools of a container promise

    Nothing they write leaves the way an enforced decision points; what they let
    through of a request for packages or a server, the host lets through; a
    scheduled task arrives as it was asked for; a question ends. *)
From Stdlib Require Import Ascii QArith.
From stdpp Require Import gmap pretty.
From S2P Require Import Prelude JsString Json OutboundContract JsonProofs SafeText Types Central SessionDb ContainerDb Tasks Fs ContainerConfigProofs Formatter RequestIdentity Runner Sessions SessionManager Host HostActions SelfMod PollLoopProofs GatewayTools McpTools.

Local Open Scope string_scope.
Local Open Scope Z_scope.
Local Open Scope list_scope.
Local Open Scope prog_scope.

(** ** Requests to change oneself *)

Lemma check_items_read label key re n o : o_maxLength o = Some n → o_pattern o = Some re →
  ∀ l i j out, check_items label re n i l = None →
  ∃ texts, l = map JStr texts ∧ read_items key o j l out = FOk (out ++ texts).
Proof.
  intros Hm Hp. induction l as [|v l IH]; intros i j out; simpl.
  - intros _. exists []. by rewrite app_nil_r.
  - destruct v as [| | | |s| |]; try done. destruct (n <? js_length s) eqn:El; [done|]. destruct (re s) eqn:Er; [|done]. simpl.
    intros H. destruct (IH (i + 1) (j + 1) (out ++ [s]) H) as (texts & -> & E). exists (s :: texts). split; [done|].
    unfold too_long, mismatch. rewrite Hm, Hp, El, Er. simpl. by rewrite E, <-app_assoc.
Qed.
Lemma checkStrings_read label value re n o content key :
  o_maxLength o = Some n → o_pattern o = Some re → (∀ m, o_maxItems o = Some m → match value with JArr l => Z.of_nat (length l) <= m | _ => True end) →
  present content key = Some value → checkStrings label value re n = None →
  ∃ texts, value = JArr (map JStr texts) ∧ readStringArray content key o = FOk texts.
Proof.
  intros Hm Hp Hi Hv. unfold checkStrings, readStringArray. rewrite Hv. destruct value as [| | | | |l|]; try done.
  destruct (MAX_ARGS <? Z.of_nat (length l)); [done|]. intros H.
  destruct (check_items_read label key re n o Hm Hp l 0 0 [] H) as (texts & -> & E). exists texts. split; [done|].
  assert (too_many (o_maxItems o) (map JStr texts) = false) as ->; [|done].
  unfold too_many. destruct (o_maxItems o) as [m|]; [|done]. specialize (Hi m eq_refl). apply Z.ltb_ge. lia.
Qed.

Lemma js_length_ascii s : Forall (λ b, b < 128) (bytes s) → js_length s = Z.of_nat (length (bytes s)).
Proof.
  induction s as [|c s IH]; [done|]. intros H. change (bytes (String c s)) with (byte c :: bytes s) in *.
  apply Forall_cons in H as [Hc H]. cbn [js_length length]. rewrite IH by done. unfold byte in Hc.
  rewrite !(proj2 (Z.leb_gt _ _)) by lia. simpl. lia.
Qed.
Lemma mcp_name_length s : MCP_NAME_RE s = true → js_length s <= 64.
Proof.
  unfold MCP_NAME_RE, name_like. destruct (bytes s) as [|c l] eqn:E; [done|].
  intros [[Hc Hl]%andb_prop Hn]%andb_prop. apply Nat.leb_le in Hn.
  rewrite js_length_ascii; rewrite E; [simpl; lia|]. rewrite forallb_forall in Hl.
  assert (∀ n, upper n || lower n || num n || one_of "._-" n = true → n < 128) as Hr.
  { intros n H. unfold upper, lower, num, in_range in H. cbn [fst snd] in H.
    destruct (Z.ltb_spec n 128); [done|]. exfalso. rewrite !orb_true_iff, !andb_true_iff, !Z.leb_le in H.
    destruct H as [[[H|H]|H]|H]; [lia..|]. unfold one_of in H. vm_compute (bytes "._-") in H. cbn in H. lia. }
  constructor; [apply Hr; revert Hc; cbn; destruct (upper c), (lower c), (num c); done|].
  apply Forall_forall. intros n Hn'%list_elem_of_In. by apply Hr, Hl.
Qed.
Lemma check_env_read key l : ∀ out, check_env l = None →
  ∃ texts, l = map (λ e : string * string, (e.1, JStr e.2)) texts ∧
    read_entries key (Some 512) (Some ENV_KEY_RE) (Some SAFE_TEXT_RE) l out = FOk (out ++ texts).
Proof.
  induction l as [|[k v] l IH]; intros out; simpl; [intros _; exists []; by rewrite app_nil_r|].
  destruct (ENV_KEY_RE k) eqn:Ek; [|done]. simpl. destruct v as [| | | |s| |]; try done.
  change MAX_FIELD_LEN with 512. destruct (512 <? js_length s) eqn:El; [done|]. destruct (SAFE_TEXT_RE s) eqn:Es; [|done]. simpl.
  intros H. destruct (IH (out ++ [(k, s)]) H) as (texts & -> & E). exists ((k, s) :: texts). split; [done|]. by rewrite E, <-app_assoc.
Qed.

Lemma readString_text content key s required n re : present content key = Some (JStr s) →
  (n <? js_length s) = false → re s = true → readString content key (text_opts required n re) = FOk s.
Proof. intros Hp Hl Hr. unfold readString. rewrite Hp. simpl. by rewrite Hl, Hr. Qed.
(** What the tool lets through, the host reads: the same packages. *)
Lemma packages_accepted args p : check_packages args = inr p → ∃ q,
  read_packages (packages_request p) = FOk q ∧
  packages_payload q = JObj [("apt", p.1.1); ("npm", p.1.2); ("reason", JStr p.2)].
Proof.
  unfold check_packages. destruct (default (JArr []) (obj_get "apt" args)) as [| | | | |a|]; try done.
  destruct (default (JArr []) (obj_get "npm" args)) as [| | | | |n|]; try done.
  destruct (Z.of_nat (length a) + Z.of_nat (length n) =? 0) eqn:E0; [done|].
  destruct (McpTools.MAX_PACKAGES <? Z.of_nat (length a) + Z.of_nat (length n)) eqn:E1; [done|].
  destruct (checkStrings "apt" (JArr a) APT_RE 128) eqn:Ea; [done|].
  destruct (checkStrings "npm" (JArr n) NPM_RE 128) eqn:En; [done|].
  destruct (default (JStr "") (obj_get "reason" args)) as [| | | |reason| |]; try done.
  destruct (SAFE_TEXT_RE reason) eqn:Er; [|done]. simpl. destruct (1024 <? js_length reason) eqn:El; [done|]. intros [= <-].
  apply Z.ltb_ge in E1. change McpTools.MAX_PACKAGES with 20 in E1.
  set (content := packages_request (JArr a, JArr n, reason)).
  destruct (checkStrings_read "apt" (JArr a) APT_RE 128 (pattern_opts false SelfMod.MAX_PACKAGES 128 APT_RE) content "apt"
    eq_refl eq_refl ltac:(intros m [= <-]; change SelfMod.MAX_PACKAGES with 20; lia) eq_refl Ea) as (ta & [= ->] & Ra).
  destruct (checkStrings_read "npm" (JArr n) NPM_RE 128 (pattern_opts false SelfMod.MAX_PACKAGES 128 NPM_RE) content "npm"
    eq_refl eq_refl ltac:(intros m [= <-]; change SelfMod.MAX_PACKAGES with 20; lia) eq_refl En) as (tn & [= ->] & Rn).
  exists (mkPackages ta tn reason). split; [|done]. unfold read_packages, fbind. rewrite Ra, Rn.
  assert (readString content "reason" (text_opts false 1024 SAFE_TEXT_RE) = FOk reason) as ->.
  { by apply readString_text. }
  rewrite !length_map in *. rewrite E0. change SelfMod.MAX_PACKAGES with 20. by rewrite (proj2 (Z.ltb_ge _ _)) by lia.
Qed.
(** The same server. *)
Lemma server_accepted args s : check_server args = inr s → ∃ q,
  read_server (server_request s) = FOk q ∧
  server_payload q = JObj [("name", JStr s.1.1.1); ("command", JStr s.1.1.2); ("args", s.1.2); ("env", JObj s.2)].
Proof.
  unfold check_server. destruct (obj_get "name" args) as [[| | | |name| |]|]; try done.
  destruct (obj_get "command" args) as [[| | | |command| |]|]; try done.
  destruct (bool_decide (name = "") || bool_decide (command = "")) eqn:Eb; [done|]. apply orb_false_iff in Eb as [_ Hc%bool_decide_eq_false].
  destruct (MCP_NAME_RE name) eqn:Em; [|done]. simpl.
  destruct (256 <? js_length command) eqn:El; [done|]. destruct (SAFE_TEXT_RE command) eqn:Es; [|done]. simpl.
  set (given := default (JArr []) (obj_get "args" args)). destruct (checkStrings "args" given _ _) eqn:Ea; [done|].
  destruct (default (JObj []) (obj_get "env" args)) as [| | | | | |env]; try done.
  destruct (McpTools.MAX_ENV_ENTRIES <? Z.of_nat (length env)) eqn:En; [done|].
  destruct (check_env env) eqn:Ee; [done|]. intros [= <-].
  destruct given as [| | | | |l|]; try done.
  assert (Z.of_nat (length l) <= 32) as Hl.
  { unfold checkStrings in Ea. destruct (McpTools.MAX_ARGS <? _) eqn:E; [done|]. apply Z.ltb_ge in E. exact E. }
  set (content := server_request (name, command, JArr l, env)).
  destruct (checkStrings_read "args" (JArr l) SAFE_TEXT_RE 512 (pattern_opts false SelfMod.MAX_ARGS SelfMod.MAX_FIELD_LEN SAFE_TEXT_RE) content "args"
    eq_refl eq_refl ltac:(intros m [= <-]; exact Hl) eq_refl Ea) as (ta & [= ->] & Ra).
  destruct (check_env_read "env" env [] Ee) as (te & -> & Re).
  exists (mkServer name command ta te). split; [|done]. unfold read_server, fbind.
  assert (readString content "name" (text_opts true 64 MCP_NAME_RE) = FOk name) as ->.
  { apply readString_text; [done|by apply Z.ltb_ge, mcp_name_length|done]. }
  assert (readString content "command" (text_opts true 256 SAFE_TEXT_RE) = FOk command) as ->.
  { by apply readString_text. }
  rewrite bool_decide_false by done. rewrite Ra. unfold readStringRecord.
  assert (present content "env" = Some (JObj (map (λ e : string * string, (e.1, JStr e.2)) te))) as -> by reflexivity.
  unfold too_many. change SelfMod.MAX_ENV_ENTRIES with McpTools.MAX_ENV_ENTRIES. rewrite En.
  change SelfMod.MAX_FIELD_LEN with 512. by rewrite Re.
Qed.

(** ** Under a decision that is enforced *)

(** What may still be asked of the host: to stop a task, and what a person
    decides about. *)
Definition open_actions : list string :=
  ["cancel_task"; "pause_task"; "resume_task"; "create_agent"; "install_packages"; "add_mcp_server"; "escalate"; "routing_feedback"].
Definition let_out (g : RoutingGate) (row : MessageOut) : Prop :=
  permits g (mo_channel_type row) (mo_platform_id row) (mo_thread_id row) ∨
  (mo_kind row = "system" ∧ mo_platform_id row = None ∧ mo_channel_type row = None ∧
   ∃ a rest, a ∈ open_actions ∧ mo_content row = JSON_stringify (JObj (("action", JStr a) :: rest))).
Definition confined (g : RoutingGate) (r r' : Runner) : Prop :=
  active_gate r = Some g → active_gate r' = Some g ∧
  ∃ new, messages_out (rn_outbound r') = messages_out (rn_outbound r) ++ new ∧ Forall (let_out g) new.
#[export] Instance confined_preorder g : PreOrder (confined g).
Proof.
  split.
  - intros r Hg. split; [done|]. exists []. by rewrite app_nil_r.
  - intros r1 r2 r3 H1 H2 Hg. destruct (H1 Hg) as [Hg2 (n1 & E1 & F1)]. destruct (H2 Hg2) as [Hg3 (n2 & E2 & F2)].
    split; [done|]. exists (n1 ++ n2). split; [by rewrite E2, E1, app_assoc|]. by apply Forall_app.
Qed.

Section gate.
Context (generateId : string → nat → string) (parseZonedToUtc : string → option string)
  (to_integer : json → option Z) (frac_value : string → Q) (toFixed2 : Q → string) (confidenceThreshold : option Q).
Context (g : RoutingGate).
Notation within := (related (confined g)).

Lemma within_put msg :
  (permits g (wo_channel_type msg) (wo_platform_id msg) (wo_thread_id msg) ∨
   (wo_kind msg = "system" ∧ wo_platform_id msg = None ∧ wo_channel_type msg = None ∧
    ∃ a rest, a ∈ open_actions ∧ wo_content msg = JSON_stringify (JObj (("action", JStr a) :: rest)))) → within (put msg).
Proof.
  intros Hm r Hg. unfold put, on_outbound, writeMessageOut, insert_out. rewrite !bind_gets, bind_case, bind_gets.
  destruct (sql_exists _ _); (split; [done|]).
  - exists []. cbn. by rewrite app_nil_r.
  - eexists [_]. split; [done|]. by apply Forall_singleton.
Qed.
Lemma within_action id a rest : a ∈ open_actions → within (put_action id (("action", JStr a) :: rest)).
Proof. intros Ha. apply within_put. right. split_and!; [done..|]. by exists a, rest. Qed.
Lemma within_newId prefix : within (newId generateId prefix).
Proof. intros r Hg. split; [done|]. exists []. by rewrite app_nil_r. Qed.
Lemma within_err text : within (err text).
Proof. unfold err, ok. auto with related. Qed.
Lemma within_ok text : within (ok text).
Proof. unfold err, ok. auto with related. Qed.
Lemma within_reads {A} (f : InboundDb → A) : within (reads f).
Proof. unfold reads. auto with related. Qed.
Hint Resolve within_newId within_err within_ok within_reads : related.

(** What comes after the gate may assume that it let the row through. *)
Lemma within_gate_then {A} channelType platformId threadId (k : Enforced → runM A) :
  (∀ d, permits g channelType platformId threadId → within (k (EAllowed d))) → (∀ d reason, within (k (ERefused d reason))) →
  within (let* gate := enforceRoutingDestination channelType platformId threadId in k gate).
Proof.
  intros Ha Hr r Hg. unfold enforceRoutingDestination. rewrite bind_gets, Hg.
  destruct (enforce (Some g) channelType platformId threadId) as [d|d reason] eqn:E; [|by apply Hr].
  apply Ha; [|done]. apply (proj1 (enforce_permits g channelType platformId threadId)). by exists d.
Qed.
Lemma within_gated channelType platformId threadId k :
  (permits g channelType platformId threadId → ∀ d, within (k d)) → within (gated channelType platformId threadId k).
Proof.
  intros Hk. unfold gated. apply within_gate_then; [|intros d reason; apply within_err]. intros d Hp. by apply Hk.
Qed.
Lemma within_opaque refusal k : within (gated_opaque refusal k).
Proof. intros r Hg. unfold gated_opaque, enforceRoutingOpaqueOutbound. rewrite bind_gets, Hg. by apply within_err. Qed.
Hint Resolve within_opaque : related.
Lemma within_put_chat id routing content :
  permits g (rs_channel_type routing) (rs_platform_id routing) (rs_thread_id routing) → within (put_chat id routing content).
Proof.
  intros Hp. unfold put_chat. apply related_bind; [apply _|auto with related|]. intros vars. apply within_put. by left.
Qed.
Lemma within_operation routing content :
  permits g (ro_channel_type routing) (ro_platform_id routing) (ro_thread_id routing) → within (put_operation generateId routing content).
Proof.
  intros Hp. unfold put_operation. apply related_bind; [apply _|auto with related|]. intros id. apply within_put. by left.
Qed.
Ltac open_action := match goal with |- within (put_action _ _) => apply within_action; apply (bool_decide_unpack _); vm_compute; exact I end.
(** A step at a time, to the writes. *)
Ltac steps := repeat first
  [ match goal with |- within (bind _ _) => apply related_bind; [apply _| |intros ?] end
  | progress (cbv zeta)
  | solve [auto with related]
  | open_action
  | match goal with |- within (match ?x with _ => _ end) => destruct x end
  | match goal with |- within (if ?x then _ else _) => destruct x end ].

Lemma within_send_message args : within (sendMessage generateId args).
Proof.
  unfold sendMessage. cbv zeta. apply related_if; [auto with related|]. apply related_bind; [apply _|auto with related|].
  intros [error|routing]; [auto with related|]. apply within_gated. intros Hp d. steps. by apply within_put_chat.
Qed.
Lemma within_target args required value k : (∀ seq id routing, within (k seq id routing)) → within (with_target to_integer args required value k).
Proof. intros Hk. unfold with_target. steps; apply Hk. Qed.
Lemma within_edit args : within (editMessage generateId to_integer args).
Proof. apply within_target. intros seq id routing. apply within_gated. intros Hp d. steps. by apply within_operation. Qed.
Lemma within_reaction args : within (addReaction generateId to_integer args).
Proof. apply within_target. intros seq id routing. apply within_gated. intros Hp d. steps. by apply within_operation. Qed.
Lemma within_task_action a said args : a ∈ open_actions → within (task_action generateId a said args).
Proof. intros Ha. unfold task_action. steps. by apply within_action. Qed.
Lemma within_card args : within (sendCard generateId args).
Proof.
  unfold sendCard. steps. apply within_gated. intros Hp d. steps. apply within_put. by left.
Qed.
Lemma within_classify args : within (classifyIntent generateId frac_value toFixed2 confidenceThreshold args).
Proof. intros r Hg. unfold classifyIntent, getRoutingGate. rewrite bind_gets, Hg. by apply within_err. Qed.
Lemma within_registered t args :
  t ∈ registered generateId parseZonedToUtc to_integer frac_value toFixed2 confidenceThreshold → within (t.2 args).
Proof.
  unfold registered. rewrite !elem_of_cons. intros Ht. destruct_or! Ht; [subst t; cbn [snd]..|by apply elem_of_nil in Ht].
  - apply within_send_message.
  - apply within_edit.
  - apply within_reaction.
  - unfold scheduleTask. steps.
  - unfold updateTask. steps.
  - apply within_task_action; apply (bool_decide_unpack _); vm_compute; exact I.
  - apply within_task_action; apply (bool_decide_unpack _); vm_compute; exact I.
  - apply within_task_action; apply (bool_decide_unpack _); vm_compute; exact I.
  - apply within_card.
  - unfold createAgent. steps.
  - unfold installPackages, packages_request. steps.
  - unfold addMcpServer, server_request. steps.
  - apply within_classify.
  - unfold escalateToHuman. steps.
  - unfold reportRoutingFeedback. steps.
  - unfold sendRosterDm. steps.
  - unfold inviteToRoster. steps.
Qed.

Lemma within_silent {A} (m : time → InboundDb → outM A) :
  (∀ now inb out, messages_out (m now inb out).2 = messages_out out) → within (on_outbound m).
Proof.
  intros Hm r Hg. unfold on_outbound. specialize (Hm (rn_now r) (rn_inbound r) (rn_outbound r)).
  destruct (m _ _ _) as [res out]. split; [done|]. exists []. cbn in *. by rewrite app_nil_r.
Qed.
Lemma within_wait questionId deadline text checks : within (wait_for_answer questionId deadline text checks).
Proof.
  induction checks as [|[now inb] checks IH]; cbn [wait_for_answer]; [auto with related|].
  apply related_bind; [apply _| |intros _].
  { apply related_modify. intros r Hg. split; [done|]. exists []. by rewrite app_nil_r. }
  steps. apply within_silent. intros n i out. destruct (markCompleted_run n [mi_id m] out) as (out' & -> & Hm & _). exact Hm.
Qed.
Lemma within_options l : within (question_options l).
Proof. induction l as [|o l IH]; cbn [question_options]; [auto with related|]. unfold question_option. steps. Qed.
Lemma within_ask timeoutMs text checks args : within (askUserQuestion generateId timeoutMs text checks args).
Proof.
  unfold askUserQuestion. cbv zeta. repeat case_match; try (unfold err; by auto with related).
  apply related_bind; [apply _|apply within_options|intros options].
  apply related_bind; [apply _|auto with related|intros questionId].
  apply related_bind; [apply _|auto with related|intros routing].
  apply within_gate_then; [|intros d reason; steps]. intros d Hp.
  apply related_bind; [apply _| |intros _; steps; apply within_wait]. apply within_put. by left.
Qed.

(** The same of the process with its files. *)
Definition confined_box (b b' : Box) : Prop := confined g (bx_runner b) (bx_runner b').
#[local] Instance confined_box_preorder : PreOrder confined_box.
Proof. split; [intros b; unfold confined_box; reflexivity|]. intros b1 b2 b3 H1 H2. unfold confined_box in *. by transitivity (bx_runner b2). Qed.
Lemma boxed_run {A} (m : runM A) : within m → related confined_box (on_run m).
Proof. intros Hm b. specialize (Hm (bx_runner b)). unfold on_run, confined_box. by destruct (m (bx_runner b)) as [res r]. Qed.
Lemma boxed_files {A} (m : fsM A) : related confined_box (on_files m).
Proof. intros b. unfold on_files, confined_box. destruct (m (bx_files b)) as [res fs]. simpl. reflexivity. Qed.
Lemma boxed_gate_then {A} channelType platformId threadId (k : Enforced → boxM A) :
  (∀ d, permits g channelType platformId threadId → related confined_box (k (EAllowed d))) →
  (∀ d reason, related confined_box (k (ERefused d reason))) →
  related confined_box (let* gate := on_run (enforceRoutingDestination channelType platformId threadId) in k gate).
Proof.
  intros Ha Hr [r fs] Hg. simpl in Hg. unfold on_run, enforceRoutingDestination. rewrite bind_case. cbn. rewrite Hg.
  destruct (enforce (Some g) channelType platformId threadId) as [d|d reason] eqn:E.
  - refine (Ha d _ (mkBox r fs) Hg). apply (proj1 (enforce_permits g channelType platformId threadId)). by exists d.
  - exact (Hr d reason (mkBox r fs) Hg).
Qed.
Lemma boxed_file args : related confined_box (sendFile generateId args).
Proof.
  unfold sendFile. cbv zeta. apply related_if; [apply boxed_run; auto with related|].
  apply related_bind; [apply _|apply boxed_run; auto with related|intros [error|routing]; [apply boxed_run; auto with related|]].
  apply boxed_gate_then; [|intros; apply boxed_run; auto with related]. intros d Hp.
  apply related_bind; [apply _|auto with related|intros there]. apply related_if; [apply boxed_run; auto with related|].
  apply related_bind; [apply _|apply boxed_run; auto with related|intros id].
  apply related_bind; [apply _|apply boxed_files|intros _].
  apply related_bind; [apply _|auto with related|intros current].
  apply related_bind; [apply _|apply boxed_run; by apply within_put_chat|intros _]. apply boxed_run; auto with related.
Qed.
Lemma boxed_call c : related confined_box
  (call_tool generateId parseZonedToUtc to_integer frac_value toFixed2 confidenceThreshold c).
Proof.
  destruct c as [name args|args|timeoutMs text checks args]; unfold call_tool.
  - destruct (List.find _ _) as [t|] eqn:E; [|auto with related].
    apply related_bind; [apply _| |auto with related]. apply boxed_run, within_registered.
    apply find_some in E as [E _]. by apply list_elem_of_In.
  - apply related_bind; [apply _|apply boxed_file|auto with related].
  - apply related_bind; [apply _|apply boxed_run, within_ask|auto with related].
Qed.
Lemma boxed_calls calls : related confined_box
  (call_tools generateId parseZonedToUtc to_integer frac_value toFixed2 confidenceThreshold calls).
Proof.
  induction calls as [|c calls IH]; cbn [call_tools]; [auto with related|].
  apply related_bind; [apply _| |intros _; exact IH]. apply related_try; [apply _|apply boxed_call|auto with related].
Qed.
End gate.


Definition handed_over : RoutingGate := mkRoutingGate "d1" "m1" Delegate (Some "ag_hr") (Some "feishu") (Some "oc_1") (Some "t1").
Definition gated_box : Box :=
  mkBox (mkRunner 0 0 (mkInboundDb [] [] [] (Some (mkRouting (Some "feishu") (Some "oc_1") (Some "t1"))) [])
           emptyOutbound [] {[ ROUTING_GATE_KEY := JSON_stringify (gate_json handed_over) ]} fresh_module fresh_module) ∅.
Definition some_calls : list ToolCall :=
  [CallTool "schedule_task" [("prompt", JStr "tell everybody"); ("processAfter", JStr "2026-01-01T00:00:00Z")];
   CallTool "send_message" [("text", JStr "on it")]; CallTool "cancel_task" [("taskId", JStr "t9")];
   CallSendFile [("path", JStr "/etc/passwd"); ("to", JStr "elsewhere")]].
Definition some_id (prefix : string) (n : nat) : string := prefix +:+ "-" +:+ pretty n.
Definition any_integer (v : json) : option Z := match v with JNum n => Some n | _ => None end.

(** ** Requests that are sent *)

Lemma put_ok msg r seq r' : put msg r = (Ok seq, r') → ∃ row,
  messages_out (rn_outbound r') = messages_out (rn_outbound r) ++ [row] ∧ mo_kind row = wo_kind msg ∧
  mo_content row = wo_content msg ∧ mo_platform_id row = wo_platform_id msg ∧ mo_channel_type row = wo_channel_type msg ∧
  mo_thread_id row = wo_thread_id msg ∧ mo_in_reply_to row = wo_in_reply_to msg ∧ mo_origin_user_id row = wo_origin_user_id msg.
Proof.
  unfold put, on_outbound, writeMessageOut, insert_out. rewrite bind_gets, bind_case, bind_gets.
  destruct (sql_exists _ _); [done|]. intros [= <- <-]. by eexists.
Qed.
Lemma requested generateId prefix content text r res r' :
  (let* id := newId generateId prefix in let* _ := put_action id content in ok text) r = (Ok res, r') → ∃ row,
  res = ToolOk text ∧ messages_out (rn_outbound r') = messages_out (rn_outbound r) ++ [row] ∧ mo_kind row = "system" ∧
  mo_content row = JSON_stringify (JObj content).
Proof.
  intros (id & r1 & E1 & (seq & r2 & E2 & E3)%bind_ok_inv)%bind_ok_inv. injection E1 as <- <-. injection E3 as <- <-.
  destruct (put_ok _ _ _ _ E2) as (row & H1 & H2 & H3 & _). by exists row.
Qed.

Lemma packages_wf args p : wf_json (JObj args) → check_packages args = inr p → wf_json (JObj (packages_request p)).
Proof.
  intros Hw. unfold check_packages. pose proof (wf_get "apt" _ Hw) as Ha. pose proof (wf_get "npm" _ Hw) as Hn.
  assert (wf_json (default (JArr []) (obj_get "apt" args))) as Ha' by (destruct (obj_get "apt" args); [exact Ha|by apply wf_arr]).
  assert (wf_json (default (JArr []) (obj_get "npm" args))) as Hn' by (destruct (obj_get "npm" args); [exact Hn|by apply wf_arr]).
  destruct (default (JArr []) (obj_get "apt" args)); try done. destruct (default (JArr []) (obj_get "npm" args)); try done.
  repeat case_match; intros [= <-]. apply wf_obj. split; [apply (bool_decide_unpack _); vm_compute; exact I|].
  repeat constructor; first [apply Ha'|apply Hn'].
Qed.
Lemma server_wf args s : wf_json (JObj args) → check_server args = inr s → wf_json (JObj (server_request s)).
Proof.
  intros Hw. unfold check_server. pose proof (wf_get "args" _ Hw) as Ha. pose proof (wf_get "env" _ Hw) as Hn.
  assert (wf_json (default (JArr []) (obj_get "args" args))) as Ha' by (destruct (obj_get "args" args); [exact Ha|by apply wf_arr]).
  assert (wf_json (default (JObj []) (obj_get "env" args))) as Hn' by (destruct (obj_get "env" args); [exact Hn|apply wf_obj; split; constructor]).
  destruct (default (JObj []) (obj_get "env" args)); repeat case_match; intros [= <-]; try done.
  apply wf_obj. split; [apply (bool_decide_unpack _); vm_compute; exact I|].
  repeat constructor; first [apply Ha'|apply Hn'].
Qed.


(** ** A task on its way *)

(** What the host takes, by the length of its parts. *)
Definition short (n : Z) (v : option string) : bool := match v with Some s => js_length s <=? n | None => true end.
Definition task_fits (id prompt processAfter : string) (script recurrence : option string) (r : Routing) : bool :=
  short 128 (Some id) && short 64 (Some processAfter) && short MAX_PROMPT_LEN (Some prompt) && short MAX_PROMPT_LEN script &&
  short 128 recurrence && short 256 (ro_platform_id r) && short 64 (ro_channel_type r) && short 256 (ro_thread_id r).
(** A text that is not empty where there is one. *)
Definition full (v : option string) : Prop := v ≠ Some "".
Lemma or_null_default v : full v → or_null (default "" v) = v.
Proof.
  intros H. unfold or_null. destruct v as [s|]; simpl; [|done]. destruct (decide (s = "")) as [->|]; [done|]. by rewrite bool_decide_false.
Qed.
Lemma with_text_given content key n required s k : present content key = Some (JStr s) →
  with_text content key (mkReadOpts required None (Some n) None None) k = if js_length s <=? n then k s else ret tt.
Proof.
  intros Hp. unfold with_text, readString. rewrite Hp. simpl. rewrite Z.ltb_antisym. by destruct (js_length s <=? n).
Qed.
Lemma with_text_null content key n v k : present content key = option_map JStr v →
  with_text content key (mkReadOpts false None (Some n) None None) k = if short n v then k (default "" v) else ret tt.
Proof.
  intros Hp. unfold with_text, readString. rewrite Hp. destruct v as [s|]; simpl; [|done]. rewrite Z.ltb_antisym. by destruct (js_length s <=? n).
Qed.
Lemma host_schedules turns id prompt processAfter script recurrence r session h :
  full script → full recurrence → full (ro_platform_id r) → full (ro_channel_type r) → full (ro_thread_id r) →
  handleScheduleTask turns (task_request id prompt processAfter script recurrence r) session h =
  (if task_fits id prompt processAfter script recurrence r
   then on_tasks turns session (λ now, insertTask now
          (mkTask id (TText processAfter) recurrence (ro_platform_id r) (ro_channel_type r) (ro_thread_id r)
             (task_content prompt (default "" script)))) h
   else ret tt h).
Proof.
  intros F1 F2 F3 F4 F5. destruct r as [channelType platformId threadId]. cbn [ro_platform_id ro_channel_type ro_thread_id] in *.
  unfold handleScheduleTask, required_max, optional_max.
  set (c := task_request _ _ _ _ _ _).
  assert (present c "taskId" = Some (JStr id) ∧ present c "processAfter" = Some (JStr processAfter) ∧ present c "prompt" = Some (JStr prompt)
    ∧ present c "script" = option_map JStr script ∧ present c "recurrence" = option_map JStr recurrence
    ∧ present c "platformId" = option_map JStr platformId ∧ present c "channelType" = option_map JStr channelType
    ∧ present c "threadId" = option_map JStr threadId) as (P1 & P2 & P3 & P4 & P5 & P6 & P7 & P8).
  { split_and!; [reflexivity|reflexivity|reflexivity|..].
    - by destruct script.
    - by destruct recurrence.
    - by destruct platformId.
    - by destruct channelType.
    - by destruct threadId. }
  unfold task_fits. cbn [ro_platform_id ro_channel_type ro_thread_id].
  rewrite (with_text_given _ _ _ _ _ _ P1). unfold short at 1. destruct (js_length id <=? 128); [|done]. cbn [andb].
  rewrite (with_text_given _ _ _ _ _ _ P2). unfold short at 1. destruct (js_length processAfter <=? 64); [|done]. cbn [andb].
  rewrite (with_text_given _ _ _ _ _ _ P3). unfold short at 1. destruct (js_length prompt <=? MAX_PROMPT_LEN); [|done]. cbn [andb].
  rewrite (with_text_null _ _ _ _ _ P4). destruct (short MAX_PROMPT_LEN script); [|done]. cbn [andb].
  rewrite (with_text_null _ _ _ _ _ P5). destruct (short 128 recurrence); [|done]. cbn [andb].
  rewrite (with_text_null _ _ _ _ _ P6). destruct (short 256 platformId); [|done]. cbn [andb].
  rewrite (with_text_null _ _ _ _ _ P7). destruct (short 64 channelType); [|done]. cbn [andb].
  rewrite (with_text_null _ _ _ _ _ P8). destruct (short 256 threadId); [|done].
  by rewrite !or_null_default.
Qed.


(** ** A question *)

(** A question ends: with the option the host wrote in a pending row that names the
    question, which is then marked as read, with the note that it was withdrawn, or, at the
    first check after its time, with the message that it timed out. *)
Theorem question_ends questionId deadline text checks r :
  Exists (λ c : time * InboundDb, deadline <= c.1) checks →
  match wait_for_answer questionId deadline text checks r with
  | (Ok None, _) => False
  | (Ok (Some (Told (ToolErr e))), _) => e = "Error: " +:+ text
  | (Ok (Some (Chosen v)), r') => ∃ now inb out response parsed, (now, inb) ∈ checks ∧ now < deadline ∧
      findQuestionResponse inb out questionId = Some response ∧ JSON_parse (mi_content response) = Some parsed ∧
      jget "selectedOption" parsed = AValue v ∧ completed (rn_outbound r') (mi_id response)
  | _ => True
  end.
Proof.
  revert r. induction checks as [|[now inb] checks IH]; intros r Hd; [by inversion Hd|].
  cbn [wait_for_answer]. rewrite bind_modify. destruct (Z.leb_spec deadline now) as [Hl|Hl]; [done|].
  apply Exists_cons in Hd as [Hd|Hd]; [simpl in Hd; lia|]. rewrite bind_gets. cbn [rn_inbound host_moves rn_outbound].
  destruct (findQuestionResponse inb (rn_outbound r) questionId) as [response|] eqn:Ef.
  - destruct (JSON_parse (mi_content response)) as [parsed|] eqn:Ep; [|done].
    rewrite bind_case. unfold on_outbound. cbn [rn_now rn_inbound rn_outbound host_moves].
    destruct (markCompleted_run now [mi_id response] (rn_outbound r)) as (out & -> & _ & Hc). cbv iota.
    destruct (jget "cancelled" parsed) as [|cancelled]; [done|]. destruct (jget "selectedOption" parsed) as [|selected] eqn:Es; [done|].
    destruct_if; [done|]. exists now, inb, (rn_outbound r), response, parsed. split_and!; [left|done|done|done|done|]. apply Hc. left.
  - specialize (IH (host_moves now inb r) Hd). destruct (wait_for_answer _ _ _ _ _) as [[[[[]|v]|]|e] r'] eqn:E; try done.
    destruct IH as (now' & inb' & out & response & parsed & Hin & H). exists now', inb', out, response, parsed. split; [by right|done].
Qed.

(** ** What the process of the tools does not know *)

(** The poll loop keeps what the turn answers, and for whom, in its own process: a
    message the agent sends to another with the tool answers nothing and comes
    from nobody. *)
Theorem tools_know_no_turn generateId args r text r' :
  rn_tools r = fresh_module → sendMessage generateId args r = (Ok (ToolOk text), r') → ∃ row,
  messages_out (rn_outbound r') = messages_out (rn_outbound r) ++ [row] ∧
  mo_in_reply_to row = None ∧ mo_origin_user_id row = None.
Proof.
  intros Ht. unfold sendMessage. cbv zeta. destruct_if; [done|]. unfold reads. rewrite bind_gets.
  destruct (resolveRouting _ _) as [e|routing]; [done|]. unfold gated, enforceRoutingDestination. rewrite bind_gets.
  destruct (enforce _ _ _ _) as [d|]; [|done]. rewrite bind_gets.
  intros (id & r1 & E1 & (seq & r2 & E2 & E3)%bind_ok_inv)%bind_ok_inv. injection E1 as <- <-. injection E3 as _ <-.
  unfold put_chat in E2. rewrite bind_gets in E2. cbn [rn_tools set_rn_fresh] in E2. rewrite Ht in E2.
  destruct (put_ok _ _ _ _ E2) as (row & Hm & _ & _ & _ & _ & _ & Hi & Ho). exists row. split_and!; [done|done|].
  rewrite Ho. simpl. unfold a2aOriginUserId. simpl. by destruct (negb _).
Qed.
(** What [classify_intent] publishes is a variable of that process too. *)
Theorem classification_stays_with_the_tools generateId frac_value toFixed2 threshold args r :
  rn_loop (classifyIntent generateId frac_value toFixed2 threshold args r).2 = rn_loop r.
Proof.
  assert (PreOrder (λ r r' : Runner, rn_loop r' = rn_loop r)) as Hp by (split; [done|intros a b c; congruence]).
  assert (∀ id content, related (λ r r' : Runner, rn_loop r' = rn_loop r) (put_action id content)) as Ha.
  { intros id content s. unfold put_action, put, on_outbound. by destruct (writeMessageOut _ _ _ _). }
  refine ((_ : related (λ r r' : Runner, rn_loop r' = rn_loop r) _) r). unfold classifyIntent.
  apply related_bind; [done|by intros s|intros [gate|]; [by intros s|]].
  cbv zeta. destruct (cast_text args "action" ≫= action_of); [|by intros s]. apply related_if; [by intros s|].
  destruct (confidence_of frac_value (obj_get "confidence" args)) as [confidence|]; [|by intros s].
  destruct (obj_get "confidence" args) as [raw|]; [|by intros s].
  apply related_bind; [done|by intros s|intros dest]. apply related_if; [by intros s|].
  repeat (apply related_bind; [done|by intros s|intros ?]). apply related_bind; [done|apply Ha|intros _].
  apply related_bind; [done|by intros s|by intros _ s].
Qed.

(** ** The theorems at a request *)

Definition idle_runner : Runner :=
  mkRunner 0 0 (mkInboundDb [] [] [] (Some (mkRouting (Some "feishu") (Some "oc_1") None)) []) emptyOutbound [] ∅ fresh_module fresh_module.
Definition wanted_packages : fields :=
  [("apt", JArr [JStr "ripgrep"]); ("npm", JArr [JStr "@scope/tool"]); ("reason", JStr "to search")].
Definition wanted_task : fields :=
  [("prompt", JStr "report"); ("processAfter", JStr "2026-01-01T09:00:00Z"); ("recurrence", JStr "0 9 * * 1-5")].
Definition answer_row : MessageIn :=
  mkMessageIn "a1" 4 "system" (TText "2026-01-01") RPending None None (Some "a1") 0 false None None None
    (JSON_stringify (JObj [("type", JStr "question_response"); ("questionId", JStr "msg-0"); ("selectedOption", JStr "approve")])) None None None.
Definition two_checks : list (time * InboundDb) :=
  [(1000, emptyInbound); (2000, mkInboundDb [answer_row] [] [] None []); (400000, emptyInbound)].
Lemma question_witness :
  (wait_for_answer "msg-0" 300000 "late" two_checks idle_runner).1 = Ok (Some (Chosen (Some (JStr "approve")))) ∧
  match wait_for_answer "msg-0" 300000 "late" two_checks idle_runner with
  | (Ok None, _) => False
  | (Ok (Some (Told (ToolErr e))), _) => e = "Error: " +:+ "late"
  | (Ok (Some (Chosen v)), r') => ∃ now inb out response parsed, (now, inb) ∈ two_checks ∧ now < 300000 ∧
      findQuestionResponse inb out "msg-0" = Some response ∧ JSON_parse (mi_content response) = Some parsed ∧
      jget "selectedOption" parsed = AValue v ∧ completed (rn_outbound r') (mi_id response)
  | _ => True
  end.
Proof.
  split; [vm_compute; reflexivity|].
  apply (question_ends "msg-0" 300000 "late" two_checks idle_runner).
  right. right. left. simpl. lia.
Defined.
